(* ===== verification/_CoqProject ===== *)
-Q . S2P
Prelude.v
GoInt.v
GoFloat.v
GoString.v
GoCodec.v
GoNum.v
GoJson.v
GoDecode.v
GoHttp.v
GoTime.v
GoFloatText.v
Webhook.v
Payment.v
PaymentCloud.v
Config.v
RateLimit.v
Sorting.v
Penalties.v
Scorer.v
ScoringConfig.v
Latency.v
Events.v
Decay.v
Store.v
StoreJson.v
Hybrid.v
StoreConvert.v
Engine.v
EngineStore.v
DecayShared.v
EngineInv.v
EngineSave.v
Redis.v
RedisLaws.v
RedisToy.v
RedisProps.v
RedisLock.v
RedisPenalty.v
Postgres.v
PostgresLaws.v
PostgresProps.v
PostgresPenalty.v
Registry.v
Recorders.v
StoreCompose.v
Selection.v
Manager.v
ManagerProps.v
RunOp.v
RunProps.v
Bitcoin.v
Providers.v
BitcoinJson.v
HttpApi.v
Mempool.v
MempoolProps.v
Blockstream.v
BlockstreamProps.v
Tatum.v
Rates.v
Bitref.v
Blockcypher.v
Metal.v
MetalProps.v
Clients.v
ClientProps.v
ClientDemo.v
KeyCheck.v
Broadcast.v
Agent.v
AgentProps.v
Transport.v
TransportProps.v
FlushLoop.v
ProvidersProps.v
RunSim.v
Builder.v
BuilderProps.v
Composition.v
Poller.v
