(* ===== verification/Prelude.v ===== *)
(** * chainkit-go-sdk: a verification library

    chainkit-go-sdk is a Go library that answers Bitcoin questions (balances,
    fees, transactions, rates) by asking third-party providers, with a fallback
    chain per question, retries, circuit breakers, rate limits, adaptive scoring
    of the providers, and an agent that reports telemetry to a cloud and polls
    it for configuration.  This library models that logic as executable
    functions, file by file, and proves what makes it correct.

    ** The program's parts and the files that model them

    - The fallback chain. [config.go] and [provider_types.go] are [Config]; the
      sliding-window and burst limiter of [manager.go] is [RateLimit]; the five
      orders of [selection_strategy.go] are [Selection] (over the sorting loops of
      [Sorting]); the failure tracker, the circuit breaker and availability of
      [manager.go] are [Manager], with its properties in [ManagerProps]; [runOp],
      retries, backoff and pinning ([manager.go], [opcontext.go], [debug.go]) are
      [RunOp], with its properties in [RunProps].
    - Scoring (src/scoring). The ring buffer of [penalties.go] is [Penalties]; a
      provider's score ([scorer.go]) is [Scorer], in binary64; its weights and
      options are [ScoringConfig]; [latency.go] is [Latency]; [events.go] is
      [Events]; [decay.go] is [Decay]; [engine.go] is [Engine] and [EngineStore],
      with its invariant in [EngineInv] and persistence in [EngineSave].  That the
      decay works on the engine's own scores, through references, is [DecayShared].
    - Stores (src/scoring/store). The interfaces with their laws and the memory
      store are [Store]; the hybrid, instrumented and composite stores are [Hybrid];
      [store_convert.go] is [StoreConvert].  The stored JSON is [StoreJson].
      [redis.go] is [Redis]: what it relies on of a server is [RedisLaws], with an
      instance in [RedisToy]; [RedisProps] proves the laws of a store, [RedisLock]
      the lock; [redis_penalty.go] is [RedisPenalty].  [postgres.go] is [Postgres],
      over the promises of [PostgresLaws], proved in [PostgresProps];
      [postgres_penalty.go] is [PostgresPenalty].  [registry.go] and the options of
      [scoring/options.go] that open stores are [Registry], and what
      [WithHybridStore] sets up is put together in [StoreCompose].  The engine is
      proved against the laws of [Store], which the stores discharge.
    - Metrics (src/scoring/metrics). The OpenTelemetry and the Prometheus recorder
      are [Recorders].
    - Bitcoin computations. [bitcoin/types], [balance.go], [derive.go] and
      [address.go] are [Bitcoin], over btcd as a parameter; the JSON forms of
      [bitcoin/types] and [keys.go] are [BitcoinJson].
    - The public provider. [interfaces.go], [metrics.go], [providers.go] and
      [provider_selector.go] are [Providers] (properties in [ProvidersProps]);
      [builder.go] and [config_updater.go] are [Builder] (properties in
      [BuilderProps]).  [RunSim] carries facts about operations from one environment
      to another.
    - The provider clients (src/bitcoin/providers). What they share (environment,
      monad of a call, error types, health reports, capability tags) is [HttpApi];
      [mempool.go] is [Mempool], [blockstream.go] is [Blockstream] (each with a
      [Props] file), [tatum.go] is [Tatum], [binance.go] and [coingecko.go] are
      [Rates], [bitrefcom.go] and [blockchaincom.go] are [Bitref], [blockcypher.go]
      is [Blockcypher], [metal.go] is [Metal] (signing proved in [MetalProps]).
      [Clients] puts them under the capability interfaces of [Providers];
      [ClientProps] shows that their calls return and their fees are usable,
      [Broadcast] what a broadcast sends, [KeyCheck] what becomes of an API key,
      [ClientDemo] holds concrete instances and examples, and [Composition] puts the
      clients behind the chains of a built provider.
    - Payments (src/payment). [webhook.go] is [Webhook], [bitcoin.go] is [Payment],
      [cloud.go] is [PaymentCloud].
    - The cloud agent (src/cloudagent). Events, options, identifiers, wire format
      and recorders are [Agent] (identifiers proved in [AgentProps]); the telemetry
      transport is [Transport] (properties in [TransportProps] and [FlushLoop]); the
      configuration poller is [Poller].
    - The Go runtime: [GoInt] (64-bit integers, time), [GoFloat] (binary64 over
      [SpecFloat]), [GoString] (strings, errors), [GoCodec] (decimal, hexadecimal,
      URL escaping, SHA-256, HMAC), [GoNum] (numbers in text), [GoJson] and [GoDecode]
      (JSON text and its decoding), [GoHttp] (what JSON refuses), [GoTime] (dates and
      RFC 3339), [GoFloatText] (the shortest decimal of a float, which reads back).

    A call to an operation of [MixedProviders] goes through
    [executeWithFallbackAndMetrics] ([Providers]) to the manager of its chain
    ([RunOp.runOp]), which selects and orders the available providers ([Manager],
    [Selection]), calls them, records each outcome in the manager and, as an event,
    in the shared engine ([Engine]), and reports one metrics event, which the agent
    turns into telemetry ([Agent], [Transport]).  [Poller] changes the configuration
    of that same value through the [ConfigUpdater] interface.

    ** How the code is modelled

    A method is a function from the receiver's state to its result and new
    state, with the source's name (a prefix is added where two types share one).
    A panic is [None] of the type [go]; an error is a value of [result], and wrapped
    errors keep their tree, so that [errors.Is] can be computed.  Integers wrap at
    64 bits; conversions of floats to integers out of range depend on the processor
    ([GoArch]).  Clocks are readings passed as arguments.  What the language leaves
    open is a class with its contract: map iteration ([MapRange]), [sort.Slice]
    ([SortSlice]), random numbers ([GoRand]), transcendental functions ([GoMath]);
    theorems hold for every instance.  Interfaces of the program are classes with
    laws ([ScoreStore], [ScoringEngine], [ConfigUpdater], [Dynamic]), and so are its
    environments ([World], [HttpWorld], [AgentWorld], [PollWorld], [CloudWorld]) and libraries
    ([Btcd], [BtcdWallet], [Gobcy], [RedisClient], [PgPool]).

    Concurrency is modelled where the code relies on it: the transport's sections
    under its mutex interleave with pushes from any goroutine, the goroutines the
    engine and the hybrid store launch are pending steps that run in any order, the
    decay loop is a step relation.  A call of [runOp] is modelled for one caller at a
    time, and so is a call of the Blockstream client, whose lock makes the token
    refresh one section.

    Fuel: [attempt_loop] runs the policy's number of attempts, which is the loop's own
    bound; [drainAndExit] needs one step per pending event and one, which
    [FlushLoop.Stop_terminates] proves enough; [dec_digits] has the binary length of
    the number, which is more than its decimal digits; the JSON parser takes twice the
    length of its text, proved enough in [GoJson.parse_enough]; the loop of a
    Blockstream call turns at most twice, as [BlockstreamProps.callAPI_course] shows;
    [swap_ends] and [swap_loop] take the length of their list; [scan_scores] takes the
    number of pages a full iteration of SCAN can have, which [RedisLaws] bounds for the
    state it starts in.  Counters are followed for
    fewer than 2^53 steps where their overflow would matter.

    ** What is shown

    - Fallback: [runOp] refines an abstract chain of calls, never panics, stops at the
      first success, explains its errors.  Of a provider the builder made, each of the
      fifteen operations is served by the chain it belongs to, through the method it is
      named after: its calls follow one another from the environment it started in to
      the one it leaves ([RunSim.course]), the answer is that of the last of them, one
      metrics event is reported and the other chains are as they were
      ([BuilderProps.performed]); no type assertion fails.
    - Clients: the same holds with the clients behind the chains, whatever the servers
      answer (one client's rates and nil arguments excepted); a broadcast posts exactly the given bytes, once, and again only
      after a refused token; a signed transaction spends and pays what was asked; the
      token cache, the exact course of a Blockstream call and its retry after a 401
      ([BlockstreamProps.api_spec]), the depth of outputs, fee rates, reported
      capabilities and key verdicts are what the sources say.
    - Availability: invariants of the manager, the transitions of the circuit breaker,
      when it opens and recovers, and a state from which it never recovers.
    - Limits and order: the limiter's window and burst bounds; every strategy permutes,
      round robin is fair, the ranking strategies sort.
    - Scoring: scores and penalties stay in their bounds for any history, the ranking
      is sorted, decay clears penalties, statistics and their cache are sound, the
      ring buffer keeps the last records, saving and loading is a round trip.
    - Stores: memory, hybrid, instrumented, Redis and PostgreSQL stores refine a map,
      for any sequence of score calls and failures; a Redis lock excludes; what was set
      reaches the watchers of its channel unchanged, through its JSON; both penalty
      stores return the last records in order, the Redis one with the repetitions that
      a lost reply can cause, the PostgreSQL one in the form the database stores;
      opening a store leaves the store that was asked for or its fallback and no other
      connection, and panics on the pool sizes that the Redis client does not take and
      on no others; the store [WithHybridStore] sets up is one map, if Redis takes every
      write, whether or not its servers answered when it was set up.
    - Metrics: the two recorders show the same gauges and measurements.
    - Telemetry: an exact account of every event under any interleaving, bounds,
      order, termination and verdict of every shutdown, a second one included, complete delivery to a cloud that
      accepts; identifiers sort in emission order.
    - Configuration: a poll converges to the fetched configuration or changes nothing it
      must not, with bounded backoff.
    - Payments: signatures are verified soundly and completely within the tolerance,
      links read back exactly, a submission sends at most one request and none when its
      endpoint cannot be parsed.

    ** Not modelled

    What Redis and PostgreSQL do with a command or a statement is not code of the
    repository: it is a parameter with laws taken from their documentation, and so are
    the instruments of Prometheus and OpenTelemetry.  The laws of Redis include what its
    client does of its own: a command whose reply is lost is repeated, a pipeline perhaps
    in part, and expirations are cut to whole milliseconds or seconds ([RedisLaws]).
    Sequences of calls on a store are those of the score calls; the calls for latency
    statistics have laws of their own ([Store]).  Contexts with deadlines appear as
    errors that any command may return.  Getters, interface assertions and error
    types that nothing returns have no definition.  Case folding, white space and [%q]
    are those of ASCII text.  For the provider clients JSON is text, parsed and printed; for the cloud agent and the
    payment client, which only exchange it with their own service, it is identified with
    the value it encodes.  The texts of the errors of the JSON package are left open
    ([JsonErrors]). *)

From stdpp Require Export base gmap sets list strings sorting.
From Stdlib Require Export ZArith Lia.

#[global] Open Scope Z_scope.
#[global] Set Default Goal Selector "!".

(** ** Scopes, tactics, hint databases *)

Declare Scope go_scope.
Delimit Scope go_scope with go.

(** [golib]: the lemmas that discharge routine side conditions of the Go
    runtime model (ranges of machine integers, lengths of slices). *)
Create HintDb golib.

(** [gorw]: rewriting rules that normalise the Go runtime model. *)
Create Rewrite HintDb gorw.

(** Case analysis on every [match] of the goal, with the equations kept and
    the impossible branches discarded. *)
Ltac go_cases :=
  repeat (case_match; simplify_eq/=; try done).

(** The same for a hypothesis that states how a computation returned. *)
Ltac go_inv H :=
  repeat (case_match; simplify_eq/=; try done);
  simplify_option_eq.

(** Turn boolean comparisons into propositions and finish with [lia]. *)
Ltac go_bool :=
  repeat match goal with
  | H : andb _ _ = true |- _ => apply andb_prop in H as [? ?]
  | H : (_ <? _) = true |- _ => apply Z.ltb_lt in H
  | H : (_ <? _) = false |- _ => apply Z.ltb_ge in H
  | H : (_ <=? _) = true |- _ => apply Z.leb_le in H
  | H : (_ <=? _) = false |- _ => apply Z.leb_gt in H
  | H : (_ =? _) = true |- _ => apply Z.eqb_eq in H
  | H : (_ =? _) = false |- _ => apply Z.eqb_neq in H
  end.

Ltac go_lia := go_bool; lia.

(** ** Slices

    A Go slice is a list; its length is an [int]. *)

Definition zlen {A} (l : list A) : Z := Z.of_nat (length l).

Lemma zlen_nonneg {A} (l : list A) : 0 <= zlen l.
Proof. unfold zlen. lia. Qed.

Lemma zlen_app {A} (l k : list A) : zlen (l ++ k) = zlen l + zlen k.
Proof. unfold zlen. rewrite length_app. lia. Qed.

Lemma zlen_cons {A} (x : A) (l : list A) : zlen (x :: l) = 1 + zlen l.
Proof. unfold zlen. cbn [length]. lia. Qed.

Lemma zlen_nil_inv {A} (l : list A) : zlen l = 0 -> l = [].
Proof. destruct l; [done|]. rewrite zlen_cons. pose proof (zlen_nonneg l). lia. Qed.

Lemma zlen_filter_le {A} (P : A -> Prop) `{!forall x, Decision (P x)} (l : list A) :
  zlen (filter P l) <= zlen l.
Proof. unfold zlen. pose proof (length_filter P l). lia. Qed.

Lemma zlen_perm {A} (l k : list A) : l ≡ₚ k -> zlen l = zlen k.
Proof. intros Hp. unfold zlen. by rewrite Hp. Qed.

Lemma filter_keep_all {A} (P : A -> Prop) `{!forall x, Decision (P x)} (l : list A) :
  Forall P l -> filter P l = l.
Proof. induction 1; [done|]. rewrite filter_cons, decide_True by done. by f_equal. Qed.

Lemma filter_drop_all {A} (P : A -> Prop) `{!forall x, Decision (P x)} (l : list A) :
  Forall (fun x => ~ P x) l -> filter P l = [].
Proof. induction 1; [done|]. by rewrite filter_cons, decide_False. Qed.

#[export] Hint Resolve zlen_nonneg : golib.
#[export] Hint Rewrite @zlen_app @zlen_cons : gorw.

(** ** Iteration over a Go map

    [for k, v := range m] visits every entry exactly once, in an order the
    language leaves unspecified.  An instance of [MapRange] is one such order;
    every theorem about code that ranges over a map holds for all of them. *)

Class MapRange := {
  range_kv : forall {V : Type}, gmap string V -> list (string * V);
  range_kv_perm : forall {V : Type} (m : gmap string V), range_kv m ≡ₚ map_to_list m
}.

(** The order of stdpp's own enumeration, for evaluation on concrete maps. *)
Definition canonical_range : MapRange := {|
  range_kv V m := map_to_list m;
  range_kv_perm V m := Permutation_refl _
|}.

Section map_range.
Context `{MapRange} {V : Type}.
Implicit Types m : gmap string V.

Lemma elem_of_range_kv m k v : (k, v) ∈ range_kv m <-> m !! k = Some v.
Proof. rewrite range_kv_perm. apply elem_of_map_to_list. Qed.

Lemma range_kv_nil m : range_kv m = [] <-> m = ∅.
Proof.
  split; intros Hm.
  - apply map_to_list_empty_iff. pose proof (range_kv_perm m) as Hp.
    rewrite Hm in Hp. by apply Permutation_nil_l in Hp.
  - subst m. pose proof (range_kv_perm (∅ : gmap string V)) as Hp.
    rewrite map_to_list_empty in Hp. by apply Permutation_nil_r in Hp.
Qed.

Lemma range_kv_nodup m : NoDup (range_kv m).*1.
Proof. rewrite range_kv_perm. apply NoDup_fst_map_to_list. Qed.
End map_range.

(** ** Panics

    A Go computation that can panic returns [option]; [None] is the panic. *)

Abbreviation go A := (option A).

Lemma bind_some {A B} (x : go A) (f : A -> go B) b :
  (x ≫= f) = Some b <-> exists a, x = Some a /\ f a = Some b.
Proof. apply bind_Some. Qed.

(** A left fold whose step can panic. *)
Fixpoint go_foldl {S A} (f : S -> A -> go S) (s : S) (l : list A) : go S :=
  match l with
  | [] => Some s
  | a :: l => s' ← f s a; go_foldl f s' l
  end.

Lemma go_foldl_app {S A} (f : S -> A -> go S) s l1 l2 :
  go_foldl f s (l1 ++ l2) = (s' ← go_foldl f s l1; go_foldl f s' l2).
Proof. revert s. induction l1 as [|a l1 IH]; intros s; [done|]. cbn.
  destruct (f s a); [apply IH|done]. Qed.

(** An invariant of the step is an invariant of the fold. *)
Lemma go_foldl_inv {S A} (I : S -> Prop) (f : S -> A -> go S) l s s' :
  (forall s a s', I s -> a ∈ l -> f s a = Some s' -> I s') ->
  I s -> go_foldl f s l = Some s' -> I s'.
Proof.
  revert s. induction l as [|a l IH]; intros s Hf HI; cbn.
  { intros [= <-]. done. }
  intros (s1 & Hs1 & Hs')%bind_some.
  eapply IH; [|eapply Hf; [done|left|done]|done].
  intros ???? Hin. eapply Hf; [done|by right].
Qed.
