(* ===== verification/GoInt.v ===== *)
(** * Machine integers and time

    Go's [int], [int64] and [time.Duration] are 64-bit two's complement
    integers: arithmetic wraps.  They are modelled as [Z] with the wrap-around
    written out.  [time.Time] is a number of nanoseconds since the zero time
    (January 1, year 1), so that [IsZero] is equality with 0; [Time.Sub]
    saturates as in the standard library. *)

From S2P Require Import Prelude.

Definition max_int64 : Z := 2 ^ 63 - 1.
Definition min_int64 : Z := - 2 ^ 63.

Definition int64_range (z : Z) : Prop := min_int64 <= z <= max_int64.

#[global] Instance int64_range_dec z : Decision (int64_range z) := _.

(** ** Wrap-around *)

Definition wrap64 (z : Z) : Z := (z + 2 ^ 63) mod 2 ^ 64 - 2 ^ 63.

Notation "a +! b" := (wrap64 (a + b)) (at level 50, left associativity) : go_scope.
Notation "a -! b" := (wrap64 (a - b)) (at level 50, left associativity) : go_scope.
Notation "a *! b" := (wrap64 (a * b)) (at level 40, left associativity) : go_scope.

Lemma wrap64_id z : int64_range z -> wrap64 z = z.
Proof.
  unfold int64_range, min_int64, max_int64, wrap64. intros Hz.
  rewrite Z.mod_small by lia. lia.
Qed.

Lemma wrap64_range z : int64_range (wrap64 z).
Proof.
  unfold int64_range, min_int64, max_int64, wrap64.
  pose proof (Z.mod_pos_bound (z + 2 ^ 63) (2 ^ 64)). lia.
Qed.

Lemma wrap64_wrap64 z : wrap64 (wrap64 z) = wrap64 z.
Proof. apply wrap64_id, wrap64_range. Qed.

(** The wrapped value differs from the exact one by a multiple of [2 ^ 64]. *)
Lemma wrap64_congr z : exists k, wrap64 z = z + k * 2 ^ 64.
Proof.
  exists (- ((z + 2 ^ 63) / 2 ^ 64)). unfold wrap64.
  pose proof (Z.div_mod (z + 2 ^ 63) (2 ^ 64)). lia.
Qed.

(** Incrementing a counter below the maximum does not wrap. *)
Lemma wrap64_succ z : 0 <= z < max_int64 -> wrap64 (z + 1) = z + 1.
Proof. intros Hz. apply wrap64_id. unfold int64_range, min_int64, max_int64 in *. lia. Qed.

Lemma wrap64_pred z : 0 < z <= max_int64 -> wrap64 (z - 1) = z - 1.
Proof. intros Hz. apply wrap64_id. unfold int64_range, min_int64, max_int64 in *. lia. Qed.

#[export] Hint Resolve wrap64_range : golib.
#[export] Hint Rewrite wrap64_wrap64 : gorw.

(** Solve a range side condition. *)
Ltac int_range := unfold int64_range, min_int64, max_int64 in *; go_lia.

(** ** Division

    Integer division truncates towards zero and panics on a zero divisor. *)

Definition go_quot (a b : Z) : go Z :=
  if b =? 0 then None else Some (wrap64 (Z.quot a b)).

Lemma go_quot_pos a b :
  0 <= a <= max_int64 -> 0 < b -> go_quot a b = Some (a / b).
Proof.
  intros Ha Hb. unfold go_quot. destruct (b =? 0) eqn:E; [go_lia|].
  rewrite Z.quot_div_nonneg by lia. f_equal. apply wrap64_id.
  pose proof (Z.div_pos a b). assert (a / b <= a) by (apply Z.div_le_upper_bound; nia).
  int_range.
Qed.

(** A positive quotient of a 64-bit dividend is bounded by the dividend. *)
Lemma go_quot_bound a b :
  int64_range a -> 0 < b -> exists q, go_quot a b = Some q /\ (0 < q -> q <= a).
Proof.
  intros Ha Hb. destruct (Z.le_gt_cases 0 a).
  - rewrite go_quot_pos by int_range. eexists. split; [done|]. intros _.
    apply Z.div_le_upper_bound; nia.
  - unfold go_quot. destruct (b =? 0) eqn:E; [go_lia|]. eexists. split; [done|].
    rewrite <-(Z.opp_involutive a), Z.quot_opp_l, Z.quot_div_nonneg by lia.
    assert (0 <= - a / b <= - a) by (split; [apply Z.div_pos; lia|apply Z.div_le_upper_bound; nia]).
    rewrite wrap64_id by int_range. lia.
Qed.

Lemma go_quot_panics a b : go_quot a b = None <-> b = 0.
Proof. unfold go_quot. destruct (b =? 0) eqn:E; split; try done; go_lia. Qed.

(** Remainder has the sign of the dividend. *)
Definition go_rem (a b : Z) : go Z :=
  if b =? 0 then None else Some (Z.rem a b).

Lemma go_rem_pos a b : 0 <= a -> 0 < b -> go_rem a b = Some (a mod b).
Proof.
  intros Ha Hb. unfold go_rem. destruct (b =? 0) eqn:E; [go_lia|].
  f_equal. apply Z.rem_mod_nonneg; lia.
Qed.

(** ** Unsigned counters ([atomic.Uint64]) *)

Definition wrapu64 (z : Z) : Z := z mod 2 ^ 64.

Lemma wrapu64_id z : 0 <= z < 2 ^ 64 -> wrapu64 z = z.
Proof. intros. unfold wrapu64. by apply Z.mod_small. Qed.

(** ** Narrowing conversions: [int32(x)], [int16(x)] keep the low bits. *)

Definition wrap_bits (w : Z) (z : Z) : Z := (z + 2 ^ (w - 1)) mod 2 ^ w - 2 ^ (w - 1).

Lemma wrap_bits_id w z :
  0 < w -> - 2 ^ (w - 1) <= z < 2 ^ (w - 1) -> wrap_bits w z = z.
Proof.
  intros Hw Hz. unfold wrap_bits.
  assert (2 ^ w = 2 * 2 ^ (w - 1)) as Hp.
  { replace w with (Z.succ (w - 1)) at 1 by lia. rewrite Z.pow_succ_r by lia. done. }
  rewrite Z.mod_small by lia. lia.
Qed.

(** ** Time *)

Abbreviation Time := Z (only parsing).
Abbreviation Duration := Z (only parsing).

Definition Nanosecond : Duration := 1.
Definition Millisecond : Duration := 1000000.
Definition Second : Duration := 1000 * Millisecond.
Definition Minute : Duration := 60 * Second.
Definition Hour : Duration := 60 * Minute.

(** The zero time. *)
Definition zero_time : Time := 0.
Definition time_is_zero (t : Time) : bool := t =? 0.

(** [t.Sub(u)] saturates at the bounds of [Duration]. *)
Definition time_sub (t u : Time) : Duration :=
  Z.max min_int64 (Z.min max_int64 (t - u)).

Definition time_add (t : Time) (d : Duration) : Time := t + d.
Definition time_after (t u : Time) : bool := u <? t.
Definition time_before (t u : Time) : bool := t <? u.

Lemma time_sub_range t u : int64_range (time_sub t u).
Proof. unfold time_sub. unfold int64_range, min_int64, max_int64. lia. Qed.

(** Below the saturation bound, comparing an elapsed time with a limit is
    comparing the two instants. *)
Lemma time_sub_ge t u d :
  min_int64 < d <= max_int64 -> (d <=? time_sub t u) = (d <=? t - u).
Proof.
  unfold time_sub, min_int64, max_int64. intros.
  destruct (d <=? t - u) eqn:E; [apply Z.leb_le|apply Z.leb_gt]; go_lia.
Qed.

Lemma time_sub_mono t t' u : t <= t' -> time_sub t u <= time_sub t' u.
Proof. unfold time_sub, min_int64, max_int64. lia. Qed.

(** [d.Milliseconds()] truncates. *)
Definition duration_ms (d : Duration) : Z := Z.quot d 1000000.

#[export] Hint Resolve time_sub_range : golib.

(** The readings of the clock during one call; the index says which reading of
    the call it is.  A callee gets the readings after the caller's own. *)
Abbreviation clock := (nat -> Time).

Definition clk_skip (n : nat) (clk : clock) : clock := fun k => clk (n + k)%nat.
