(* ===== verification/GoFloat.v ===== *)
(** * float64

    Go's [float64] is IEEE 754 binary64.  The Standard Library's [SpecFloat]
    gives the format and its correctly rounded operations as computable
    functions on an inductive type; this file instantiates them at precision
    53 and exponent bound 1024, adds the conversions the program uses, and
    proves the order and sign facts its theorems rest on.  Products and sums
    are rounded separately (no fused multiply-add), as on amd64. *)

From Stdlib Require Import Floats.SpecFloat.
From S2P Require Import Prelude GoInt.

Abbreviation f64 := spec_float.

Definition f64_add : f64 -> f64 -> f64 := SFadd 53 1024.
Definition f64_sub : f64 -> f64 -> f64 := SFsub 53 1024.
Definition f64_mul : f64 -> f64 -> f64 := SFmul 53 1024.
Definition f64_div : f64 -> f64 -> f64 := SFdiv 53 1024.
Definition f64_sqrt : f64 -> f64 := SFsqrt 53 1024.

(** [float64(n)] for an integer [n]. *)
Definition f64_of_Z (z : Z) : f64 := binary_normalize 53 1024 z 0 false.

(** The constant [n / d], correctly rounded, for exactly representable [n], [d]. *)
Definition f64_const (n d : Z) : f64 := f64_div (f64_of_Z n) (f64_of_Z d).

Definition f64_zero : f64 := S754_zero false.
Definition f64_one : f64 := f64_of_Z 1.

Definition f64_ltb (x y : f64) : bool := SFltb x y.
Definition f64_gtb (x y : f64) : bool := f64_ltb y x.
Definition f64_leb (x y : f64) : bool := SFleb x y.
Definition f64_eqb (x y : f64) : bool := SFeqb x y.

Notation "x ⊕ y" := (f64_add x y) (at level 50, left associativity) : go_scope.
Notation "x ⊖ y" := (f64_sub x y) (at level 50, left associativity) : go_scope.
Notation "x ⊗ y" := (f64_mul x y) (at level 40, left associativity) : go_scope.
Notation "x ⊘ y" := (f64_div x y) (at level 40, left associativity) : go_scope.

Definition is_nan (x : f64) : Prop := x = S754_nan.

#[global] Instance f64_eq_dec : EqDecision f64.
Proof. solve_decision. Defined.

#[global] Instance is_nan_dec x : Decision (is_nan x).
Proof. unfold is_nan. apply _. Defined.

(** ** Conversions

    [int(x)] truncates; when the value does not fit, the result is
    implementation-defined.  [GoArch] is the choice of an architecture (an
    [int64], hence the reduction). *)

Class GoArch := cvt_out_of_range : f64 -> Z.

(** amd64: the conversion instruction returns the "integer indefinite" value. *)
Definition arch_amd64 : GoArch := fun _ => min_int64.

(** arm64: the conversion saturates, and NaN gives 0. *)
Definition arch_arm64 : GoArch := fun x =>
  match x with
  | S754_nan => 0
  | S754_infinity true | S754_finite true _ _ => min_int64
  | _ => max_int64
  end.

(** The truncated value of a finite float. *)
Definition f64_trunc (x : f64) : option Z :=
  match x with
  | S754_zero _ => Some 0
  | S754_finite s m e =>
      let a := if 0 <=? e then Z.pos m * 2 ^ e else Z.pos m / 2 ^ (- e) in
      Some (if s then - a else a)
  | _ => None
  end.

Definition f64_to_int `{GoArch} (x : f64) : Z :=
  match f64_trunc x with
  | Some z => if decide (int64_range z) then z else wrap64 (cvt_out_of_range x)
  | None => wrap64 (cvt_out_of_range x)
  end.

Lemma f64_to_int_range `{GoArch} x : int64_range (f64_to_int x).
Proof. unfold f64_to_int. repeat case_match; try done; apply wrap64_range. Qed.

(** [math.Floor] and [math.Ceil] followed by [int(_)], on a finite float. *)
Definition f64_floorZ (x : f64) : option Z :=
  match x with
  | S754_zero _ => Some 0
  | S754_finite s m e =>
      let a := cond_Zopp s (Z.pos m) in
      Some (if 0 <=? e then a * 2 ^ e else a / 2 ^ (- e))
  | _ => None
  end.

Definition f64_ceilZ (x : f64) : option Z :=
  match x with
  | S754_zero _ => Some 0
  | S754_finite s m e =>
      let a := cond_Zopp s (Z.pos m) in
      Some (if 0 <=? e then a * 2 ^ e else - ((- a) / 2 ^ (- e)))
  | _ => None
  end.

(** ** Order

    The comparison of two floats that are not NaN is the lexicographic
    comparison of an integer key. *)

Definition f64_class (x : f64) : Z :=
  match x with
  | S754_infinity true => -2
  | S754_finite true _ _ => -1
  | S754_zero _ | S754_nan => 0
  | S754_finite false _ _ => 1
  | S754_infinity false => 2
  end.

Definition f64_exp (x : f64) : Z :=
  match x with S754_finite s _ e => cond_Zopp s e | _ => 0 end.

Definition f64_man (x : f64) : Z :=
  match x with S754_finite s m _ => cond_Zopp s (Z.pos m) | _ => 0 end.

Definition key_lt (x y : f64) : Prop :=
  f64_class x < f64_class y
  \/ f64_class x = f64_class y
     /\ (f64_exp x < f64_exp y \/ f64_exp x = f64_exp y /\ f64_man x < f64_man y).

Lemma f64_ltb_key x y :
  ~ is_nan x -> ~ is_nan y -> f64_ltb x y = true <-> key_lt x y.
Proof.
  unfold is_nan, f64_ltb, SFltb, key_lt.
  destruct x as [sx|sx| |sx mx ex], y as [sy|sy| |sy my ey]; intros Hx Hy; try done;
    try (destruct sx, sy; cbn; split; intros; try done; lia);
    try (destruct sx; cbn; split; intros; try done; lia);
    try (destruct sy; cbn; split; intros; try done; lia).
  destruct sx, sy; cbn -[Pos.compare_cont]; try (split; intros; try done; lia);
    change (Pos.compare_cont Eq mx my) with (Pos.compare mx my);
    destruct (Z.compare_spec ex ey), (Pos.compare_spec mx my); cbn; split; intros; try done; lia.
Qed.

Lemma key_lt_trans x y z : key_lt x y -> key_lt y z -> key_lt x z.
Proof. unfold key_lt. lia. Qed.

Lemma key_lt_asym x y : key_lt x y -> ~ key_lt y x.
Proof. unfold key_lt. lia. Qed.

Lemma key_lt_negtrans x y z : key_lt x z -> key_lt x y \/ key_lt y z.
Proof. unfold key_lt. lia. Qed.

(** [f64_le x y]: neither is NaN and [y] is not below [x]. *)
Definition f64_le (x y : f64) : Prop := ~ is_nan x /\ ~ is_nan y /\ f64_ltb y x = false.

Lemma f64_le_key x y : f64_le x y <-> ~ is_nan x /\ ~ is_nan y /\ ~ key_lt y x.
Proof.
  unfold f64_le. split; intros (Hx & Hy & H); do 2 (split; [done|]).
  - rewrite <-f64_ltb_key by done. by rewrite H.
  - destruct (f64_ltb y x) eqn:E; [|done]. by apply f64_ltb_key in E.
Qed.

Lemma f64_le_refl x : ~ is_nan x -> f64_le x x.
Proof. rewrite f64_le_key. intros. split_and!; [done..|]. unfold key_lt. lia. Qed.

Lemma f64_le_trans x y z : f64_le x y -> f64_le y z -> f64_le x z.
Proof.
  rewrite !f64_le_key. intros (? & ? & ?) (? & ? & ?). split_and!; [done..|].
  intros Hzx. destruct (key_lt_negtrans z y x Hzx); done.
Qed.

Lemma f64_ltb_irrefl x : f64_ltb x x = false.
Proof.
  destruct (f64_ltb x x) eqn:E; [|done].
  destruct (decide (is_nan x)) as [->|Hx]; [done|].
  apply f64_ltb_key in E; [|done..]. unfold key_lt in E. lia.
Qed.

Lemma f64_ltb_notnan x y : f64_ltb x y = true -> ~ is_nan x /\ ~ is_nan y.
Proof. unfold is_nan, f64_ltb, SFltb. intros H. split; intros ->; [done|]. by destruct x. Qed.

Lemma f64_ltb_le x y : f64_ltb x y = true -> f64_le x y.
Proof.
  intros H. destruct (f64_ltb_notnan _ _ H) as [Hx Hy]. rewrite f64_le_key.
  split_and!; [done..|]. apply key_lt_asym. by apply f64_ltb_key in H.
Qed.

(** Not NaN, and comparable: exactly one of [x < y] and [y <= x]. *)
Lemma f64_ltb_false x y : ~ is_nan x -> ~ is_nan y -> f64_ltb x y = false -> f64_le y x.
Proof. intros ?? H. by split_and!. Qed.

(** ** Magnitudes and rounding *)

Lemma digits2_pos_spec m :
  2 ^ (Z.pos (digits2_pos m) - 1) <= Z.pos m < 2 ^ Z.pos (digits2_pos m).
Proof.
  induction m as [m IH|m IH|]; cbn [digits2_pos]; [| |cbn; lia].
  all: rewrite Pos2Z.inj_succ; replace (Z.succ (Z.pos (digits2_pos m)) - 1)
    with (Z.succ (Z.pos (digits2_pos m) - 1)) by lia;
    rewrite !Z.pow_succ_r by lia; lia.
Qed.

(** [m * 2 ^ e] of a float against that of another, at a common scale. *)
Definition val_le (m e n f : Z) : Prop :=
  forall k, k <= e -> k <= f -> m * 2 ^ (e - k) <= n * 2 ^ (f - k).

Lemma val_le_scale m e n f k :
  k <= e -> k <= f -> m * 2 ^ (e - k) <= n * 2 ^ (f - k) -> val_le m e n f.
Proof.
  intros He Hf H j Hj1 Hj2. destruct (Z.le_gt_cases j k).
  - replace (e - j) with ((e - k) + (k - j)) by lia.
    replace (f - j) with ((f - k) + (k - j)) by lia.
    rewrite !Z.pow_add_r by lia. pose proof (Z.pow_nonneg 2 (k - j)). nia.
  - replace (e - k) with ((e - j) + (j - k)) in H by lia.
    replace (f - k) with ((f - j) + (j - k)) in H by lia.
    rewrite !Z.pow_add_r in H by lia. pose proof (Z.pow_pos_nonneg 2 (j - k)). nia.
Qed.

Lemma val_le_trans m e n f p g : val_le m e n f -> val_le n f p g -> val_le m e p g.
Proof.
  intros H1 H2. set (k := Z.min e (Z.min f g)).
  apply (val_le_scale _ _ _ _ k); [lia..|].
  etrans; [apply (H1 k)|apply (H2 k)]; lia.
Qed.

Lemma val_le_refl m e : val_le m e m e.
Proof. intros k ??. lia. Qed.

(** A smaller value has no more digits before the binary point. *)
Lemma val_le_digits m e n f :
  val_le (Z.pos m) e (Z.pos n) f ->
  Z.pos (digits2_pos m) + e <= Z.pos (digits2_pos n) + f.
Proof.
  intros H. pose proof (digits2_pos_spec m) as [Hm _]. pose proof (digits2_pos_spec n) as [_ Hn].
  set (k := Z.min e f). specialize (H k ltac:(lia) ltac:(lia)).
  apply Z.nlt_ge. intros Hlt.
  assert (2 ^ (Z.pos (digits2_pos n) + (f - k)) <= 2 ^ (Z.pos (digits2_pos m) - 1 + (e - k)))
    as Hp by (apply Z.pow_le_mono_r; lia).
  rewrite !Z.pow_add_r in Hp by lia.
  pose proof (Z.pow_pos_nonneg 2 (e - k)). pose proof (Z.pow_pos_nonneg 2 (f - k)). nia.
Qed.

Abbreviation fexp64 := (fexp 53 1024).

Lemma fexp64_eq d : fexp64 d = Z.max (d - 53) (-1074).
Proof. reflexivity. Qed.

(** One step of the right shift, on a non-negative mantissa. *)
Lemma shr_1_step m r s :
  0 <= m ->
  shr_1 {| shr_m := m; shr_r := r; shr_s := s |}
  = {| shr_m := m / 2; shr_r := Z.odd m; shr_s := orb r s |}.
Proof.
  intros Hm. destruct m as [|[p|p|]|]; try done; cbn [shr_1 Z.odd]; f_equal.
  - rewrite Pos2Z.inj_xI. apply Z.div_unique with 1; lia.
  - rewrite Pos2Z.inj_xO. apply Z.div_unique with 0; lia.
Qed.

Lemma iter_pos_nat {A} (f : A -> A) p x : SpecFloat.iter_pos f p x = Nat.iter (Pos.to_nat p) f x.
Proof.
  revert x. induction p as [p IH|p IH|]; intros x; cbn [SpecFloat.iter_pos]; [| |done].
  - rewrite !IH, <-Nat.iter_add, Pos2Nat.inj_xI.
    replace (S (2 * Pos.to_nat p)) with ((Pos.to_nat p + Pos.to_nat p) + 1)%nat by lia.
    by rewrite (Nat.iter_add (_ + _)).
  - rewrite !IH, <-Nat.iter_add, Pos2Nat.inj_xO. f_equal. lia.
Qed.

(** Shifting right by [n] bits divides by [2 ^ n]; when the division is exact
    the round and sticky bits stay clear. *)
Lemma shr_iter n m :
  0 <= m ->
  let res := Nat.iter n shr_1 {| shr_m := m; shr_r := false; shr_s := false |} in
  shr_m res = m / 2 ^ Z.of_nat n
  /\ (m mod 2 ^ Z.of_nat n = 0 -> shr_r res = false /\ shr_s res = false).
Proof.
  intros Hm. induction n as [|n IH]; cbn [Nat.iter nat_rect].
  { cbn. by rewrite Z.div_1_r. }
  change (nat_rect _ _ _ n) with
    (Nat.iter n shr_1 {| shr_m := m; shr_r := false; shr_s := false |}).
  destruct (Nat.iter n shr_1 _) as [m1 r1 s1]. cbn [shr_m shr_r shr_s] in IH.
  destruct IH as [-> IH]. pose proof (Z.pow_pos_nonneg 2 (Z.of_nat n)).
  rewrite shr_1_step by (apply Z.div_pos; lia). cbn [shr_m shr_r shr_s].
  rewrite Nat2Z.inj_succ, Z.pow_succ_r, Z.mul_comm by lia.
  rewrite Z.div_div, Z.rem_mul_r by lia. split; [done|]. intros Hmod.
  pose proof (Z.mod_pos_bound m (2 ^ Z.of_nat n)).
  pose proof (Z.mod_pos_bound (m / 2 ^ Z.of_nat n) 2).
  destruct IH as [-> ->]; [nia|]. split; [|done].
  assert ((m / 2 ^ Z.of_nat n) mod 2 = 0) as H2 by nia.
  rewrite Zmod_odd in H2. by destruct (Z.odd _).
Qed.

(** The first rounding step: from an exact [m * 2 ^ e] to an integer multiple
    of [2 ^ e'], the quotient or its successor, the latter only if inexact. *)
Lemma shr_fexp_exact m e :
  0 <= m ->
  let n := Z.max 0 (fexp64 (Zdigits2 m + e) - e) in
  let '(mrs, e') := shr_fexp 53 1024 m e loc_Exact in
  e' = e + n /\ shr_m mrs = m / 2 ^ n
  /\ (m mod 2 ^ n = 0 -> loc_of_shr_record mrs = loc_Exact).
Proof.
  intros Hm n. unfold shr_fexp, shr, shr_record_of_loc.
  destruct (fexp64 (Zdigits2 m + e) - e) as [|p|p] eqn:E; subst n; cbn [Z.max Z.compare].
  - rewrite Z.div_1_r. split_and!; [lia|done|done].
  - rewrite iter_pos_nat. destruct (shr_iter (Pos.to_nat p) m Hm) as [A B].
    rewrite positive_nat_Z in A, B. split_and!; [lia|done|].
    intros H0. destruct (B H0) as [B1 B2]. destruct (Nat.iter _ _ _) as [m1 r1 s1].
    cbn in *. by subst.
  - rewrite Z.div_1_r. split_and!; [lia|done|done].
Qed.

Lemma shr_iter_m n mrs :
  0 <= shr_m mrs -> shr_m (Nat.iter n shr_1 mrs) = shr_m mrs / 2 ^ Z.of_nat n.
Proof.
  intros Hm. induction n as [|n IH]; [by rewrite Z.div_1_r|].
  rewrite Nat.iter_succ. destruct (Nat.iter n shr_1 mrs) as [m1 r1 s1]. cbn [shr_m] in IH. subst m1.
  pose proof (Z.pow_pos_nonneg 2 (Z.of_nat n)).
  rewrite shr_1_step by (apply Z.div_pos; lia). cbn [shr_m].
  rewrite Nat2Z.inj_succ, Z.pow_succ_r, Z.mul_comm, Z.div_div by lia. done.
Qed.

Lemma shr_fexp_loc m e l :
  0 <= m ->
  let n := Z.max 0 (fexp64 (Zdigits2 m + e) - e) in
  let '(mrs, e') := shr_fexp 53 1024 m e l in e' = e + n /\ shr_m mrs = m / 2 ^ n.
Proof.
  intros Hm n. unfold shr_fexp, shr.
  assert (shr_m (shr_record_of_loc m l) = m) as Hl by (by destruct l as [|[]]).
  destruct (fexp64 (Zdigits2 m + e) - e) as [|p|p] eqn:E; subst n; cbn [Z.max Z.compare].
  - rewrite Z.div_1_r. split; [lia|done].
  - rewrite iter_pos_nat, shr_iter_m, Hl, positive_nat_Z by lia. split; [lia|done].
  - rewrite Z.div_1_r. split; [lia|done].
Qed.

Lemma round_nearest_even_cases q l :
  round_nearest_even q l = q \/ (l <> loc_Exact /\ round_nearest_even q l = q + 1).
Proof. destruct l as [|[]]; cbn; try (by left); [destruct (Z.even q); auto|auto]. Qed.

(** ** Valid floats

    A finite float is canonical: its exponent is the one [fexp] assigns to its
    magnitude, and at most 971. *)
Definition f64_valid (x : f64) : bool := valid_binary 53 1024 x.

Lemma f64_valid_finite s m e :
  f64_valid (S754_finite s m e) = true <->
  fexp64 (Z.pos (digits2_pos m) + e) = e /\ e <= 971.
Proof.
  unfold f64_valid, valid_binary, bounded, canonical_mantissa.
  rewrite andb_true_iff, Z.eqb_eq, Z.leb_le. done.
Qed.

(** The magnitude [m * 2 ^ e] of a result is at most that of a valid float. *)
Definition mag_le (r : f64) (n : positive) (f : Z) : Prop :=
  match r with
  | S754_zero _ => True
  | S754_finite _ m e => e < f \/ e = f /\ Z.pos m <= Z.pos n
  | _ => False
  end.

Definition f64_sign (r : f64) : bool :=
  match r with
  | S754_zero s | S754_infinity s | S754_finite s _ _ => s
  | S754_nan => false
  end.

Lemma Zdigits2_val_le m e n f :
  0 <= m -> val_le m e (Z.pos n) f -> m = 0 \/ Zdigits2 m + e <= Z.pos (digits2_pos n) + f.
Proof.
  intros Hm H. destruct m as [|m|]; [by left| |lia]. right. by apply val_le_digits.
Qed.

(** Dividing by a power of two loses value but stays below the bound. *)
Lemma val_le_div m e n f k :
  0 <= k -> val_le m e n f -> val_le (m / 2 ^ k) (e + k) n f.
Proof.
  intros Hk H. apply (val_le_trans _ _ m e); [|done].
  apply (val_le_scale _ _ _ _ e); [lia..|]. pose proof (Z.pow_pos_nonneg 2 k).
  replace (e + k - e) with k by lia. rewrite Z.sub_diag, Z.mul_1_r.
  pose proof (Z.mul_div_le m (2 ^ k)). lia.
Qed.

(** An inexact quotient can be incremented without passing a bound that is a
    multiple of the unit. *)
Lemma val_le_div_succ m e n f k :
  0 <= k -> e + k <= f -> m mod 2 ^ k <> 0 -> val_le m e n f ->
  val_le (m / 2 ^ k + 1) (e + k) n f.
Proof.
  intros Hk Hf Hmod H. apply (val_le_scale _ _ _ _ (e + k)); [lia..|].
  specialize (H e ltac:(lia) ltac:(lia)). pose proof (Z.pow_pos_nonneg 2 k).
  rewrite Z.sub_diag, Z.mul_1_r in *.
  replace (f - e) with ((f - (e + k)) + k) in H by lia. rewrite Z.pow_add_r in H by lia.
  pose proof (Z.div_mod m (2 ^ k)). pose proof (Z.mod_pos_bound m (2 ^ k)). nia.
Qed.

(** Rounding never passes a representable bound, and keeps the sign. *)
Lemma binary_round_aux_le s m e n f :
  e <= fexp64 (Z.pos (digits2_pos m) + e) ->
  f64_valid (S754_finite false n f) = true ->
  val_le (Z.pos m) e (Z.pos n) f ->
  mag_le (binary_round_aux 53 1024 s (Z.pos m) e loc_Exact) n f
  /\ f64_sign (binary_round_aux 53 1024 s (Z.pos m) e loc_Exact) = s.
Proof.
  intros He [Hf Hfmax]%f64_valid_finite Hval. unfold binary_round_aux.
  pose proof (shr_fexp_exact (Z.pos m) e ltac:(lia)) as H1.
  destruct (shr_fexp 53 1024 (Z.pos m) e loc_Exact) as [mrs e1].
  cbn [Zdigits2] in H1. rewrite Z.max_r in H1 by lia.
  set (k := fexp64 (Z.pos (digits2_pos m) + e) - e) in *. destruct H1 as (-> & -> & Hex).
  pose proof (val_le_digits _ _ _ _ Hval) as Hd.
  assert (e + k <= f) as Hek by (subst k; rewrite fexp64_eq in *; lia).
  set (r := round_nearest_even _ _).
  assert (0 <= r /\ val_le r (e + k) (Z.pos n) f) as [Hr Hvr].
  { assert (0 <= Z.pos m / 2 ^ k) by (apply Z.div_pos; lia). subst r.
    destruct (round_nearest_even_cases (Z.pos m / 2 ^ k) (loc_of_shr_record mrs)) as [->|[Hne ->]].
    - split; [done|]. by apply val_le_div; [lia|].
    - split; [lia|]. apply val_le_div_succ; [lia..| |done]. intros Hm. apply Hne, Hex, Hm. }
  clearbody r. pose proof (shr_fexp_exact r (e + k) Hr) as H2.
  destruct (shr_fexp 53 1024 r (e + k) loc_Exact) as [mrs2 e2].
  set (k2 := Z.max 0 _) in H2. destruct H2 as (-> & -> & _).
  assert (e + k + k2 <= f) as Hek2.
  { destruct (Zdigits2_val_le _ _ _ _ Hr Hvr) as [->|Hd2]; subst k2; cbn [Zdigits2];
      rewrite fexp64_eq in *; lia. }
  apply (val_le_div _ _ _ _ k2) in Hvr; [|lia].
  assert (0 <= r / 2 ^ k2) as Hq by (apply Z.div_pos; lia).
  destruct (r / 2 ^ k2) as [|m2|]; [done| |lia].
  change (1024 - 53) with 971. rewrite (proj2 (Z.leb_le _ _)) by lia. split; [|done]. cbn.
  destruct (Z.eq_dec (e + k + k2) f) as [Heq|]; [right|left; lia]. split; [done|].
  specialize (Hvr f). rewrite Heq, Z.sub_diag in Hvr. lia.
Qed.

(** The quotient of a [d]-digit number by [2 ^ k] has [d - k] digits. *)
Lemma Zdigits2_bounds m d : 0 <= d -> 2 ^ d <= m -> d < Zdigits2 m.
Proof.
  intros Hd H. destruct m as [|m|m]; [pose proof (Z.pow_pos_nonneg 2 d); lia| |lia].
  cbn. pose proof (digits2_pos_spec m). apply (Z.pow_lt_mono_r_iff 2); lia.
Qed.

Lemma Zdigits2_upper m d : 0 <= d -> 0 <= m < 2 ^ d -> Zdigits2 m <= d.
Proof.
  intros Hd H. destruct m as [|m|m]; [done| |lia]. cbn.
  pose proof (digits2_pos_spec m). apply Z.lt_pred_le. apply (Z.pow_lt_mono_r_iff 2); lia.
Qed.

(** The rounded mantissa has at most 53 digits, or is exactly [2 ^ 53]. *)
Lemma rounded_digits m e r :
  let k := fexp64 (Z.pos (digits2_pos m) + e) - e in
  0 <= k -> Z.pos m / 2 ^ k <= r <= Z.pos m / 2 ^ k + 1 ->
  0 <= r <= 2 ^ 53 /\ (2 ^ 52 <= r \/ e + k = -1074) /\ (-1074 <= e -> 1 <= r).
Proof.
  intros k Hk Hr. pose proof (digits2_pos_spec m) as [Hlo Hhi].
  set (d := Z.pos (digits2_pos m)) in *. pose proof (Z.pow_pos_nonneg 2 k).
  assert (0 <= Z.pos m / 2 ^ k) by (apply Z.div_pos; lia).
  assert (Z.pos m / 2 ^ k < 2 ^ 53).
  { apply Z.div_lt_upper_bound; [lia|]. rewrite <-Z.pow_add_r by lia.
    eapply Z.lt_le_trans; [done|]. apply Z.pow_le_mono_r; [lia|].
    subst k. rewrite fexp64_eq in *. lia. }
  split; [lia|]. destruct (Z.eq_dec (e + k) (-1074)) as [|Hne].
  { split; [by right|]. intros He. assert (k = 0) as Hk0 by lia. rewrite Hk0 in Hr.
    rewrite Z.pow_0_r, Z.div_1_r in Hr. lia. }
  enough (2 ^ 52 <= r) by (split; [by left|lia]).
  assert (d - 1 = 52 + k) as Hd by (subst k; rewrite fexp64_eq in *; lia).
  rewrite Hd, Z.pow_add_r in Hlo by lia.
  etrans; [|apply Hr]. apply Z.div_le_lower_bound; lia.
Qed.

(** Rounding gives a valid float of the requested sign, never NaN. *)
Lemma binary_round_loc_valid s m e l :
  e <= fexp64 (Z.pos (digits2_pos m) + e) ->
  let r := binary_round_aux 53 1024 s (Z.pos m) e l in
  f64_valid r = true /\ f64_sign r = s /\ ~ is_nan r
  /\ (-1074 <= e -> forall s', r <> S754_zero s')
  /\ match r with
     | S754_finite _ _ e' => fexp64 (Z.pos (digits2_pos m) + e) <= e'
     | _ => True
     end.
Proof.
  intros He. cbv zeta. unfold binary_round_aux.
  pose proof (shr_fexp_loc (Z.pos m) e l ltac:(lia)) as H1.
  destruct (shr_fexp 53 1024 (Z.pos m) e l) as [mrs e1].
  cbn [Zdigits2] in H1. rewrite Z.max_r in H1 by lia.
  pose proof (rounded_digits m e) as Hdig. cbv zeta in Hdig.
  set (k := fexp64 (Z.pos (digits2_pos m) + e) - e) in *. destruct H1 as (-> & ->).
  set (r := round_nearest_even _ _).
  destruct (Hdig r ltac:(lia)) as (Hr & Hsub & Hnz).
  { subst r. destruct (round_nearest_even_cases (Z.pos m / 2 ^ k) (loc_of_shr_record mrs))
      as [->|[_ ->]]; lia. }
  clearbody r. clear Hdig.
  assert (-1074 <= e + k) as Hemin by (subst k; rewrite fexp64_eq; lia).
  pose proof (shr_fexp_exact r (e + k) ltac:(lia)) as H2.
  destruct (shr_fexp 53 1024 r (e + k) loc_Exact) as [mrs2 e2].
  set (k2 := Z.max 0 _) in H2. destruct H2 as (-> & -> & _).
  destruct (Z.eq_dec r (2 ^ 53)) as [->|Hne].
  { assert (k2 = 1) as -> by (subst k2; rewrite fexp64_eq; change (Zdigits2 (2 ^ 53)) with 54; lia).
    change (2 ^ 53 / 2 ^ 1) with (Z.pos (2 ^ 52)). cbn match. change (1024 - 53) with 971.
    destruct (_ <=? 971) eqn:E; [|done]. split; [|split_and!; [done..|lia]].
    apply f64_valid_finite. rewrite fexp64_eq. change (Z.pos (digits2_pos (2 ^ 52))) with 53. go_lia. }
  assert (Zdigits2 r <= 53) as Hdr by (apply Zdigits2_upper; lia).
  assert (k2 = 0) as -> by (subst k2; rewrite fexp64_eq; lia).
  rewrite Z.pow_0_r, Z.div_1_r, Z.add_0_r.
  destruct r as [|r|]; [split_and!; [done..|intros; lia|done]| |lia].
  change (1024 - 53) with 971. destruct (_ <=? 971) eqn:E; [|done]. split; [|split_and!; [done..|lia]].
  apply f64_valid_finite. rewrite fexp64_eq. split; [|go_lia].
  destruct Hsub as [Hbig|]; [|cbn in Hdr; lia].
  pose proof (Zdigits2_bounds (Z.pos r) 52 ltac:(lia) Hbig). cbn in *. lia.
Qed.

Lemma binary_round_aux_valid s m e :
  e <= fexp64 (Z.pos (digits2_pos m) + e) ->
  let r := binary_round_aux 53 1024 s (Z.pos m) e loc_Exact in
  f64_valid r = true /\ f64_sign r = s /\ ~ is_nan r
  /\ (-1074 <= e -> forall s', r <> S754_zero s').
Proof. intros He. cbv zeta. destruct (binary_round_loc_valid s m e loc_Exact He) as (? & ? & ? & ? & _). done. Qed.

(** Aligning a mantissa to a smaller exponent keeps its value. *)
Lemma shl_align_spec m e e' :
  let '(m1, e1) := shl_align m e e' in
  e1 = Z.min e e' /\ Z.pos m1 = Z.pos m * 2 ^ (e - e1)
  /\ Z.pos (digits2_pos m1) + e1 = Z.pos (digits2_pos m) + e.
Proof.
  assert (forall d, Z.pos (Pos.iter xO m d) = Z.pos m * 2 ^ Z.pos d) as Hv.
  { intros d. induction d as [|d IH] using Pos.peano_ind; [cbn; lia|].
    rewrite Pos.iter_succ, Pos2Z.inj_xO, IH, Pos2Z.inj_succ, Z.pow_succ_r by lia. lia. }
  assert (forall d, Z.pos (digits2_pos (Pos.iter xO m d)) = Z.pos (digits2_pos m) + Z.pos d) as Hdg.
  { intros d. induction d as [|d IH] using Pos.peano_ind; [cbn; lia|].
    rewrite Pos.iter_succ. cbn [digits2_pos]. lia. }
  unfold shl_align. destruct (e' - e) as [|d|d] eqn:E.
  - rewrite Z.sub_diag. split_and!; lia.
  - rewrite Z.sub_diag. split_and!; lia.
  - rewrite Hv, Hdg. replace (e - e') with (Z.pos d) by lia. split_and!; lia.
Qed.

Lemma binary_round_valid s m e :
  let r := binary_round 53 1024 s m e in
  f64_valid r = true /\ f64_sign r = s /\ ~ is_nan r
  /\ (-1074 <= e -> forall s', r <> S754_zero s').
Proof.
  cbv zeta. unfold binary_round.
  pose proof (shl_align_spec m e (fexp64 (Z.pos (digits2_pos m) + e))) as H.
  destruct (shl_align _ _ _) as [m1 e1]. destruct H as (He1 & _ & Hd).
  destruct (binary_round_aux_valid s m1 e1) as (? & ? & ? & Hnz); [rewrite Hd; lia|].
  split_and!; [done..|]. intros He. apply Hnz. rewrite fexp64_eq in He1. lia.
Qed.

Lemma binary_round_le s m e n f :
  f64_valid (S754_finite false n f) = true -> val_le (Z.pos m) e (Z.pos n) f ->
  mag_le (binary_round 53 1024 s m e) n f.
Proof.
  intros Hn Hval. unfold binary_round.
  pose proof (shl_align_spec m e (fexp64 (Z.pos (digits2_pos m) + e))) as H.
  destruct (shl_align _ _ _) as [m1 e1]. destruct H as (He1 & Hm1 & Hd).
  apply binary_round_aux_le; [rewrite Hd; lia|done|].
  apply (val_le_trans _ _ (Z.pos m) e); [|done].
  apply (val_le_scale _ _ _ _ e1); [lia..|]. rewrite Hm1, Z.sub_diag. lia.
Qed.

(** ** Finite non-negative floats

    Penalties, scores and rates live here: arithmetic with clamping stays in
    the set, and rounding never breaks the bounds. *)

Definition f64_nn (x : f64) : Prop :=
  f64_valid x = true /\
  match x with S754_zero s | S754_finite s _ _ => s = false | _ => False end.

#[global] Instance f64_nn_dec x : Decision (f64_nn x).
Proof. unfold f64_nn. destruct x; apply _. Defined.

Lemma f64_nn_notnan x : f64_nn x -> ~ is_nan x.
Proof. intros [_ H] ->. done. Qed.

Lemma f64_nn_zero_le x : f64_nn x -> f64_le f64_zero x.
Proof. intros [_ H]. by destruct x as [[]|[]| |[]]. Qed.

(** On valid floats the order of keys is the order of magnitudes. *)
Lemma f64_le_val m e n f :
  f64_valid (S754_finite false m e) = true -> f64_valid (S754_finite false n f) = true ->
  f64_le (S754_finite false m e) (S754_finite false n f) ->
  val_le (Z.pos m) e (Z.pos n) f.
Proof.
  intros [Hm Hme]%f64_valid_finite [Hn Hnf]%f64_valid_finite (_ & _ & Hk)%f64_le_key.
  unfold key_lt in Hk. cbn in Hk. rewrite fexp64_eq in *.
  destruct (Z.eq_dec e f) as [->|Hne].
  { apply (val_le_scale _ _ _ _ f); [lia..|]. rewrite Z.sub_diag. lia. }
  apply (val_le_scale _ _ _ _ e); [lia..|]. rewrite Z.sub_diag, Z.mul_1_r.
  pose proof (digits2_pos_spec m) as [_ Hdm]. pose proof (digits2_pos_spec n) as [Hdn _].
  replace (Z.pos (digits2_pos n)) with 53 in Hdn by lia.
  assert (2 ^ Z.pos (digits2_pos m) <= 2 ^ 53) by (apply Z.pow_le_mono_r; lia).
  assert (2 ^ 1 <= 2 ^ (f - e)) by (apply Z.pow_le_mono_r; lia). nia.
Qed.

Lemma mag_le_f64_le r n f :
  f64_sign r = false -> mag_le r n f -> f64_le r (S754_finite false n f).
Proof.
  intros Hs Hm. destruct r as [s|s| |s m e]; try done; cbn in Hs; subst s.
  apply f64_le_key. split_and!; [done..|]. unfold key_lt. cbn in *. lia.
Qed.

Lemma mag_le_nn r n f :
  f64_valid r = true -> f64_sign r = false -> mag_le r n f -> f64_nn r.
Proof. intros Hv Hs Hm. split; [done|]. by destruct r. Qed.

(** A sum of finite non-negative floats is non-negative (it may overflow). *)
Lemma f64_add_nn x y :
  f64_nn x -> f64_nn y ->
  let r := f64_add x y in f64_valid r = true /\ f64_sign r = false /\ ~ is_nan r.
Proof.
  intros [Hvx Hx] [Hvy Hy]. unfold f64_add, SFadd.
  destruct x as [?|?| |? mx ex], y as [?|?| |? my ey]; try done; subst; try done.
  cbv zeta. cbn [cond_Zopp]. rewrite <-Pos2Z.inj_add. cbn [binary_normalize].
  destruct (binary_round_valid false (fst (shl_align mx ex (Z.min ex ey)) +
    fst (shl_align my ey (Z.min ex ey))) (Z.min ex ey)) as (? & ? & ? & _). done.
Qed.

(** The clamped sum: [p += a; if p > max { p = max }]. *)
Definition f64_add_clamped (p a max : f64) : f64 :=
  let p' := f64_add p a in if f64_gtb p' max then max else p'.

Lemma f64_add_clamped_nn p a max :
  f64_nn p -> f64_nn a -> f64_nn max ->
  f64_nn (f64_add_clamped p a max) /\ f64_le (f64_add_clamped p a max) max.
Proof.
  intros Hp Ha Hm. destruct (f64_add_nn p a Hp Ha) as (Hv & Hs & Hn).
  unfold f64_add_clamped, f64_gtb. cbv zeta. pose proof (f64_nn_notnan _ Hm) as Hmn.
  destruct (f64_ltb max (f64_add p a)) eqn:E; [split; [done|by apply f64_le_refl]|].
  pose proof (f64_ltb_false _ _ Hmn Hn E) as Hle. split; [|done]. split; [done|].
  destruct Hm as [_ Hm]. destruct (f64_add p a) as [|s| |]; cbn in Hs; subst; try done.
  by destruct max as [[]|[]| |[]].
Qed.

(** Subtraction below the minuend: [0 <= y <= x] gives [0 <= x - y <= x]. *)
Lemma f64_sub_finite s1 mx ex my ey :
  s1 = false -> exists d,
  f64_sub (S754_finite s1 mx ex) (S754_finite false my ey)
  = binary_normalize 53 1024 d (Z.min ex ey) false
  /\ d = Z.pos mx * 2 ^ (ex - Z.min ex ey) - Z.pos my * 2 ^ (ey - Z.min ex ey).
Proof.
  intros ->. unfold f64_sub, SFsub. cbn [cond_Zopp]. eexists. split; [done|].
  pose proof (shl_align_spec mx ex (Z.min ex ey)) as H1.
  pose proof (shl_align_spec my ey (Z.min ex ey)) as H2.
  destruct (shl_align mx _ _) as [m1 e1], (shl_align my _ _) as [m2 e2]; cbn [fst].
  destruct H1 as (-> & -> & _), H2 as (-> & -> & _). f_equal; do 2 f_equal; lia.
Qed.

Lemma f64_sub_nn x y :
  f64_nn x -> f64_nn y ->
  f64_nn (f64_sub x y) /\ f64_le (f64_sub x y) x
  \/ f64_ltb (f64_sub x y) f64_zero = true /\ f64_ltb x y = true.
Proof.
  intros Hx Hy. pose proof (f64_nn_zero_le _ Hx) as H0x. destruct (Hx) as [Hvx Hsx].
  destruct Hy as [Hvy Hsy].
  destruct x as [?|?| |? mx ex], y as [?|?| |? my ey]; try done; subst.
  - left. by repeat split.
  - right. done.
  - left. change (f64_sub _ _) with (S754_finite false mx ex).
    split; [done|]. by apply f64_le_refl.
  - destruct (f64_sub_finite false mx ex my ey eq_refl) as (d & -> & Hd).
    destruct d as [|d|d]; cbn [binary_normalize].
    + by left.
    + left. destruct (binary_round_valid false d (Z.min ex ey)) as (Hv & Hs & _ & _).
      assert (mag_le (binary_round 53 1024 false d (Z.min ex ey)) mx ex) as Hm.
      { apply binary_round_le; [done|]. apply (val_le_scale _ _ _ _ (Z.min ex ey)); [lia..|].
        rewrite Z.sub_diag, Z.mul_1_r, Hd. pose proof (Z.pow_nonneg 2 (ey - Z.min ex ey)). lia. }
      split; [by eapply mag_le_nn|]. by apply mag_le_f64_le.
    + right. destruct (f64_ltb (S754_finite false mx ex) (S754_finite false my ey)) eqn:E; cycle 1.
      { exfalso. apply f64_ltb_false in E; [|done..]. apply f64_le_val in E; [|done..].
        specialize (E (Z.min ex ey)). lia. }
      split; [|done]. destruct (binary_round_valid true d (Z.min ex ey)) as (_ & Hs & Hn & Hnz).
      apply f64_valid_finite in Hvx as [Hvx _], Hvy as [Hvy _]. rewrite fexp64_eq in *.
      specialize (Hnz ltac:(lia)). unfold f64_ltb, SFltb.
      destruct (binary_round _ _ _ _ _) as [s|s| |s m e]; cbn in Hs; subst; try done.
      by destruct (Hnz true).
Qed.

Lemma f64_sub_nn_le x y :
  f64_nn x -> f64_nn y -> f64_le y x ->
  f64_nn (f64_sub x y) /\ f64_le (f64_sub x y) x.
Proof.
  intros Hx Hy (_ & _ & Hle). destruct (f64_sub_nn x y Hx Hy) as [|[_ H]]; [done|].
  by rewrite Hle in H.
Qed.

(** The clamped difference: [p -= a; if p < 0 { p = 0 }]. *)
Definition f64_sub_clamped (p a : f64) : f64 :=
  let p' := f64_sub p a in if f64_ltb p' f64_zero then f64_zero else p'.

Lemma f64_sub_clamped_nn p a :
  f64_nn p -> f64_nn a ->
  f64_nn (f64_sub_clamped p a) /\ f64_le (f64_sub_clamped p a) p.
Proof.
  intros Hp Ha. unfold f64_sub_clamped. cbv zeta.
  destruct (f64_sub_nn p a Hp Ha) as [[H1 H2]|[H1 H2]].
  - destruct (f64_nn_zero_le _ H1) as (_ & _ & H3). by rewrite H3.
  - rewrite H1. split; [done|]. by apply f64_nn_zero_le.
Qed.

Lemma f64_nn_one : f64_nn f64_one.
Proof. by vm_compute. Qed.

(** The product of two valid mantissas has enough digits to be rounded. *)
Lemma mul_fexp mx ex my ey :
  f64_valid (S754_finite false mx ex) = true -> f64_valid (S754_finite false my ey) = true ->
  ex + ey <= fexp64 (Z.pos (digits2_pos (mx * my)) + (ex + ey)).
Proof.
  intros [Hcx _]%f64_valid_finite [Hcy _]%f64_valid_finite. rewrite fexp64_eq in *.
  assert (forall a b, Z.pos (digits2_pos a) = 53 -> 53 <= Z.pos (digits2_pos (a * b))) as Hd.
  { intros a b Ha. pose proof (digits2_pos_spec a) as [Hlo _]. rewrite Ha in Hlo.
    assert (52 < Zdigits2 (Z.pos (a * b))); [|cbn in *; lia].
    apply Zdigits2_bounds; [lia|]. rewrite Pos2Z.inj_mul. nia. }
  destruct (Z.eq_dec ex (-1074)) as [Hex|Hex].
  - destruct (Z.le_gt_cases ey 0); [lia|]. specialize (Hd my mx ltac:(lia)).
    rewrite Pos.mul_comm. lia.
  - specialize (Hd mx my ltac:(lia)). lia.
Qed.

(** A product is rounded below every valid float that bounds it exactly. *)
Lemma f64_mul_le_bound mx ex my ey n f :
  f64_valid (S754_finite false mx ex) = true -> f64_valid (S754_finite false my ey) = true ->
  f64_valid (S754_finite false n f) = true ->
  val_le (Z.pos (mx * my)) (ex + ey) (Z.pos n) f ->
  let r := f64_mul (S754_finite false mx ex) (S754_finite false my ey) in
  f64_nn r /\ f64_le r (S754_finite false n f).
Proof.
  intros Hx Hy Hn Hval. pose proof (mul_fexp _ _ _ _ Hx Hy) as He.
  unfold f64_mul, SFmul. cbn [xorb].
  destruct (binary_round_aux_valid false _ _ He) as (Hv & Hs & _ & _).
  destruct (binary_round_aux_le false _ _ _ _ He Hn Hval) as [Hm _].
  split; [by eapply mag_le_nn|]. by apply mag_le_f64_le.
Qed.

(** Scaling by a factor of at most one does not increase a magnitude. *)
Lemma f64_mul_nn x y :
  f64_nn x -> f64_nn y -> f64_le y f64_one ->
  f64_nn (f64_mul x y) /\ f64_le (f64_mul x y) x.
Proof.
  intros Hx Hy Hle. pose proof (f64_nn_zero_le _ Hx) as H0. destruct Hx as [Hvx Hsx].
  destruct Hy as [Hvy Hsy].
  destruct x as [?|?| |? mx ex], y as [?|?| |? my ey]; try done; subst; try done.
  change f64_one with (S754_finite false 4503599627370496 (-52)) in Hle.
  apply f64_le_val in Hle; [|done..]. change (Z.pos 4503599627370496) with (2 ^ 52) in Hle.
  assert (val_le (Z.pos (mx * my)) (ex + ey) (Z.pos mx) ex) as Hval.
  { set (k := Z.min ey (-52)). specialize (Hle k ltac:(lia) ltac:(lia)).
    apply (val_le_scale _ _ _ _ (ex + k)); [lia..|].
    replace (ex + ey - (ex + k)) with (ey - k) by lia.
    replace (ex - (ex + k)) with (- k) by lia.
    rewrite <-Z.pow_add_r in Hle by lia. replace (52 + (-52 - k)) with (- k) in Hle by lia.
    rewrite Pos2Z.inj_mul. nia. }
  by apply f64_mul_le_bound.
Qed.

(** [1 - r] of a rate between 0 and 1 is such a rate. *)
Lemma f64_one_minus_nn r :
  f64_nn r -> f64_le r f64_one ->
  f64_nn (f64_sub f64_one r) /\ f64_le (f64_sub f64_one r) f64_one.
Proof. apply f64_sub_nn_le, f64_nn_one. Qed.

#[export] Hint Resolve f64_nn_notnan f64_nn_zero_le f64_nn_one f64_le_refl : golib.

(** Concrete floats: decide the side conditions by evaluation. *)
Ltac f64_dec := refine (bool_decide_unpack _ _); vm_compute; exact I.

#[global] Instance f64_le_dec x y : Decision (f64_le x y).
Proof. unfold f64_le. apply _. Defined.

(** A negative float: below zero. *)
Lemma f64_neg_cases x :
  f64_ltb x f64_zero = true <-> x = S754_infinity true \/ exists m e, x = S754_finite true m e.
Proof.
  split.
  - destruct x as [[]|[]| |[] m e]; try done; [by left|]. right. by exists m, e.
  - by intros [->|(m & e & ->)].
Qed.

(** Subtracting a non-negative float keeps a negative one negative. *)
Lemma f64_sub_neg x y :
  f64_valid x = true -> f64_ltb x f64_zero = true -> f64_nn y ->
  f64_valid (f64_sub x y) = true /\ f64_ltb (f64_sub x y) f64_zero = true.
Proof.
  intros Hvx Hx [Hvy Hy]. apply f64_neg_cases in Hx as [->|(m & e & ->)].
  { by destruct y. }
  destruct y as [?|?| |? my ey]; try done; subst; try done.
  unfold f64_sub, SFsub. cbv zeta. cbn [cond_Zopp].
  set (a := fst (shl_align m _ _)). set (b := fst (shl_align my _ _)).
  replace (- Z.pos a - Z.pos b) with (Z.neg (a + b)) by lia. cbn [binary_normalize].
  destruct (binary_round_valid true (a + b) (Z.min e ey)) as (Hv & Hs & Hn & Hnz).
  split; [done|]. apply f64_valid_finite in Hvx as [Hcx _], Hvy as [Hcy _].
  rewrite fexp64_eq in *. specialize (Hnz ltac:(lia)). apply f64_neg_cases.
  destruct (binary_round _ _ _ _ _) as [s|s| |s m' e']; cbn in Hs; subst; try done.
  - by destruct (Hnz true).
  - by left.
  - right. eauto.
Qed.

(** The outcome of subtracting non-negative floats from a non-negative [b]: a
    float of [0 .. b], or a negative one. *)
Definition f64_below (b x : f64) : Prop :=
  f64_nn x /\ f64_le x b \/ f64_valid x = true /\ f64_ltb x f64_zero = true.

Lemma f64_sub_valid_neg x y :
  f64_nn x -> f64_nn y -> f64_ltb (f64_sub x y) f64_zero = true -> f64_valid (f64_sub x y) = true.
Proof.
  intros [Hvx Hx] [Hvy Hy] Hneg.
  destruct x as [?|?| |? mx ex], y as [?|?| |? my ey]; try done; subst; try done.
  destruct (f64_sub_finite false mx ex my ey eq_refl) as (d & -> & _).
  destruct d as [|d|d]; cbn [binary_normalize]; [done| |]; apply binary_round_valid.
Qed.

Lemma f64_below_sub b x y : f64_below b x -> f64_nn y -> f64_below b (f64_sub x y).
Proof.
  intros [[Hx Hle]|[Hv Hneg]] Hy; [|right; by apply f64_sub_neg].
  destruct (f64_sub_nn x y Hx Hy) as [[H1 H2]|[H1 _]].
  - left. split; [done|]. by eapply f64_le_trans.
  - right. split; [|done]. by apply f64_sub_valid_neg.
Qed.

(** ** Small integers as floats, and rounding to integers *)

(** Every integer of [1 .. 2 ^ 53) has a canonical representation. *)
Lemma f64_repr_Z k :
  0 < k < 2 ^ 53 -> exists m e, f64_valid (S754_finite false m e) = true
    /\ val_le k 0 (Z.pos m) e /\ val_le (Z.pos m) e k 0.
Proof.
  intros Hk. destruct k as [|k|k]; [lia| |lia].
  assert (Z.pos (digits2_pos k) <= 53) as Hd by (apply (Zdigits2_upper (Z.pos k)); lia).
  pose proof (shl_align_spec k 0 (Z.pos (digits2_pos k) - 53)) as H.
  destruct (shl_align _ _ _) as [m e]. destruct H as (He & Hm & Hdm).
  exists m, e. split_and!.
  - apply f64_valid_finite. rewrite Hdm, fexp64_eq. lia.
  - apply (val_le_scale _ _ _ _ e); [lia..|]. rewrite Hm, Z.sub_diag. lia.
  - apply (val_le_scale _ _ _ _ e); [lia..|]. rewrite Hm, Z.sub_diag. lia.
Qed.

Lemma f64_of_Z_nn k :
  0 <= k < 2 ^ 53 ->
  f64_nn (f64_of_Z k) /\
  (k = 0 \/ exists m e, f64_valid (S754_finite false m e) = true
    /\ val_le (Z.pos m) e k 0 /\ f64_le (f64_of_Z k) (S754_finite false m e)).
Proof.
  intros Hk. destruct (decide (k = 0)) as [->|Hne]; [split; [done|by left]|].
  destruct (f64_repr_Z k) as (m & e & Hv & Hle & Hge); [lia|].
  destruct k as [|k|k]; [lia| |lia].
  unfold f64_of_Z. cbn [binary_normalize].
  destruct (binary_round_valid false k 0) as (Hv' & Hs & _ & _).
  pose proof (binary_round_le false k 0 m e Hv Hle) as Hm.
  split; [by eapply mag_le_nn|]. right. exists m, e. split_and!; [done..|].
  by apply mag_le_f64_le.
Qed.

(** Rounding a float of [0 .. k] to an integer stays in [0 .. k]. *)
Lemma f64_round_bounds x k :
  0 <= k -> f64_nn x ->
  match x with S754_finite _ m e => val_le (Z.pos m) e k 0 | _ => True end ->
  exists lo up, f64_floorZ x = Some lo /\ f64_ceilZ x = Some up /\ 0 <= lo <= up /\ up <= k.
Proof.
  intros Hk [_ Hs] Hval. destruct x as [?|?| |s m e]; try done; subst; cbn.
  { by exists 0, 0. }
  destruct (0 <=? e) eqn:E.
  - eexists _, _. split_and!; [done|done|..]; [pose proof (Z.pow_nonneg 2 e); lia|lia|].
    specialize (Hval 0). rewrite Z.sub_0_r, Z.sub_diag in Hval. go_bool. lia.
  - apply Z.leb_gt in E. specialize (Hval e ltac:(lia) ltac:(lia)).
    rewrite Z.sub_diag, Z.mul_1_r, Z.sub_0_l in Hval.
    pose proof (Z.pow_pos_nonneg 2 (- e)). set (q := 2 ^ (- e)) in *.
    eexists _, _. split_and!; [done|done|apply Z.div_pos; lia| |].
    + pose proof (Z.mul_div_le (Z.pos m) q). pose proof (Z.mul_div_le (Z.neg m) q). nia.
    + pose proof (Z.div_mod (Z.neg m) q). pose proof (Z.mod_pos_bound (Z.neg m) q). nia.
Qed.

Lemma f64_mul_comm x y : f64_mul x y = f64_mul y x.
Proof.
  unfold f64_mul, SFmul. destruct x, y; try done; try (by rewrite xorb_comm).
  by rewrite xorb_comm, Pos.mul_comm, Z.add_comm.
Qed.

(** A rate of [0 .. 1] times a small integer [k] rounds into [0 .. k]. *)
Lemma f64_rate_index r k :
  f64_nn r -> f64_le r f64_one -> 0 <= k < 2 ^ 53 ->
  exists lo up, f64_floorZ (f64_mul r (f64_of_Z k)) = Some lo
    /\ f64_ceilZ (f64_mul r (f64_of_Z k)) = Some up /\ 0 <= lo <= up /\ up <= k.
Proof.
  intros Hr Hr1 Hk. destruct (f64_of_Z_nn k Hk) as [Hnn Hrep]. rewrite f64_mul_comm.
  destruct (f64_mul_nn _ _ Hnn Hr Hr1) as [Hm Hle].
  apply f64_round_bounds; [lia|done|].
  destruct (f64_mul (f64_of_Z k) r) as [|?| |s m e] eqn:E; try done.
  destruct Hrep as [->|(n & f & Hv & Hval & Hle')].
  - unfold f64_of_Z in E. cbn in E. by destruct r.
  - pose proof (f64_le_trans _ _ _ Hle Hle') as Hle''. destruct Hm as [Hvm Hsm]. cbn in Hsm. subst s.
    apply (val_le_trans _ _ (Z.pos n) f); [|done]. by apply f64_le_val.
Qed.

(** ** Quotients of machine integers

    The quotient of two non-zero 64-bit integers, each converted to a float, is
    a valid float. *)

Lemma f64_of_Z_finite z :
  z <> 0 -> - 2 ^ 63 <= z <= 2 ^ 63 ->
  exists m e, f64_of_Z z = S754_finite (z <? 0) m e /\ f64_valid (S754_finite (z <? 0) m e) = true
    /\ -51 <= Z.pos (digits2_pos m) + e <= 64.
Proof.
  intros Hz Hr.
  assert (forall s p, Z.pos p <= 2 ^ 63 -> exists m e, binary_round 53 1024 s p 0 = S754_finite s m e
    /\ f64_valid (S754_finite s m e) = true /\ -51 <= Z.pos (digits2_pos m) + e <= 64) as H.
  { intros s p Hp. destruct (binary_round_valid s p 0) as (Hv & Hs & Hn & Hnz).
    assert (mag_le (binary_round 53 1024 s p 0) (2 ^ 52) 11) as Hm.
    { apply binary_round_le; [done|]. apply (val_le_scale _ _ _ _ 0); [lia..|]. cbn. lia. }
    assert (match binary_round 53 1024 s p 0 with S754_finite _ _ e' => -52 <= e' | _ => True end) as Hlo.
    { unfold binary_round. pose proof (shl_align_spec p 0 (fexp64 (Z.pos (digits2_pos p) + 0))) as H.
      destruct (shl_align _ _ _) as [m1 e1]. destruct H as (He1 & _ & Hd).
      destruct (binary_round_loc_valid s m1 e1 loc_Exact) as (_ & _ & _ & _ & H); [rewrite Hd; lia|].
      destruct (binary_round_aux _ _ _ _ _ _); try done. rewrite Hd, fexp64_eq in H. lia. }
    destruct (binary_round 53 1024 s p 0) as [s'|?| |s' m e]; try done; [by destruct (Hnz ltac:(lia) s')|].
    cbn in Hs. subst s'. exists m, e. split_and!; [done|done|lia|].
    apply f64_valid_finite in Hv as [Hv _]. rewrite fexp64_eq in Hv. cbn in Hm. lia. }
  destruct z as [|p|p]; [done|apply (H false p); lia|apply (H true p); lia].
Qed.

Lemma f64_div_ints a b :
  b <> 0 -> - 2 ^ 63 <= a <= 2 ^ 63 -> - 2 ^ 63 <= b <= 2 ^ 63 ->
  let r := f64_div (f64_of_Z a) (f64_of_Z b) in
  f64_valid r = true /\ ~ is_nan r /\ (0 <= a -> 0 < b -> f64_sign r = false).
Proof.
  intros Hb Ha' Hb'. cbv zeta. destruct (f64_of_Z_finite b Hb Hb') as (my & ey & -> & _ & Hy).
  destruct (decide (a = 0)) as [->|Ha]; [split_and!; [done..|]; cbn; destruct (b <? 0) eqn:E; [go_lia|done]|].
  destruct (f64_of_Z_finite a Ha Ha') as (mx & ex & -> & _ & Hx).
  unfold f64_div, SFdiv, SFdiv_core_binary. cbn [Zdigits2]. set (d1 := Z.pos (digits2_pos mx)) in *.
  set (d2 := Z.pos (digits2_pos my)) in *. cbv zeta.
  set (e' := Z.min (fexp64 (d1 + ex - (d2 + ey))) (ex - ey)).
  assert (53 - d1 + d2 <= ex - ey - e') as Hs.
  { subst e'. rewrite fexp64_eq. lia. }
  assert (exists m', match ex - ey - e' with Z0 => Z.pos mx | Z.pos _ => Z.shiftl (Z.pos mx) (ex - ey - e')
    | Z.neg _ => 0 end = m' /\ m' = Z.pos mx * 2 ^ (ex - ey - e')) as (m' & -> & Hm').
  { eexists. split; [done|]. assert (0 <= ex - ey - e') by (subst e'; lia).
    destruct (ex - ey - e') as [|p|p] eqn:E; [lia| |lia]. by rewrite Z.shiftl_mul_pow2. }
  pose proof (digits2_pos_spec mx) as [Hmx _]. pose proof (digits2_pos_spec my) as [_ Hmy].
  fold d1 in Hmx. fold d2 in Hmy.
  assert (1 <= d1 /\ 1 <= d2) as Hd by lia. clearbody d1 d2.
  assert (2 ^ (d1 - 1 + (ex - ey - e')) <= m') as Hlow.
  { rewrite Hm', Z.pow_add_r by (subst e'; lia). apply Z.mul_le_mono_nonneg_r; [|done].
    apply Z.pow_nonneg. lia. }
  rewrite (surjective_pairing (Z.div_eucl m' (Z.pos my))).
  change (Z.div_eucl m' (Z.pos my)).1 with (m' / Z.pos my).
  assert (2 ^ (d1 - 1 + (ex - ey - e') - d2) <= m' / Z.pos my) as Hq.
  { apply Z.div_le_lower_bound; [lia|]. etrans; [|exact Hlow].
    replace (d1 - 1 + (ex - ey - e')) with (d2 + (d1 - 1 + (ex - ey - e') - d2)) at 2 by lia.
    rewrite (Z.pow_add_r 2 d2) by lia. apply Z.mul_le_mono_nonneg_r; [|lia].
    apply Z.pow_nonneg. lia. }
  apply Zdigits2_bounds in Hq as Hdq; [|lia].
  assert (0 < m' / Z.pos my) as Hpos by (eapply Z.lt_le_trans; [|exact Hq]; apply Z.pow_pos_nonneg; lia).
  destruct (m' / Z.pos my) as [|q|q]; [lia| |lia]. cbn [Zdigits2] in Hdq.
  destruct (binary_round_loc_valid (xorb (a <? 0) (b <? 0)) q e'
    (new_location (Z.pos my) (Z.div_eucl m' (Z.pos my)).2)) as (Hv & Hsg & Hn & _).
  { rewrite fexp64_eq. subst e'. rewrite fexp64_eq in *. lia. }
  split_and!; [done..|]. intros ??. rewrite Hsg. destruct (a <? 0) eqn:E1, (b <? 0) eqn:E2; [go_lia..|done].
Qed.

(** Non-negative floats, the infinite one included. *)
Definition f64_nnx (x : f64) : Prop := x = S754_infinity false \/ f64_nn x.

Lemma f64_mul_nnx x y :
  f64_nnx x -> f64_nn y -> f64_ltb f64_zero y = true -> f64_nnx (f64_mul x y).
Proof.
  intros [->|[Hvx Hx]] [Hvy Hy] Hpos.
  - left. by destruct y as [?|?| |[] ? ?].
  - destruct x as [?|?| |? mx ex], y as [?|?| |? my ey]; try done; subst; [by right..|].
    pose proof (mul_fexp _ _ _ _ Hvx Hvy) as He. unfold f64_mul, SFmul. cbn [xorb].
    destruct (binary_round_aux_valid false _ _ He) as (Hv & Hs & Hn & _).
    destruct (binary_round_aux _ _ _ _ _ _) as [?|?| |? m e]; cbn in Hs; subst; try done; [by right|by left|].
    by right.
Qed.

(** A float that is not below a positive one, and their difference. *)
Lemma f64_not_below x y :
  f64_valid x = true -> ~ is_nan x -> f64_nn y -> f64_ltb f64_zero y = true ->
  f64_ltb x y = false -> f64_nnx (f64_sub x y).
Proof.
  intros Hv Hn Hy Hpos Hlt. assert (x = S754_infinity false \/ f64_nn x) as [->|Hx].
  { destruct Hy as [_ Hy]. destruct x as [s|s| |s m e]; [|destruct s|done|destruct s]; try (by left);
      try (by right); destruct y as [?|?| |? my ey]; subst; done. }
  - left. destruct Hy as [_ Hy]. by destruct y as [?|?| |? my ey]; try done; subst.
  - right. apply f64_sub_nn_le; [done..|]. apply f64_ltb_false; auto with golib.
Qed.

Lemma f64_below_subx b x y : f64_below b x -> f64_nnx y -> f64_below b (f64_sub x y).
Proof.
  intros Hb [->|Hy]; [|by apply f64_below_sub]. right.
  destruct Hb as [[[_ Hx] _]|[_ [->|(m & e & ->)]%f64_neg_cases]]; [|done..].
  by destruct x.
Qed.

Lemma f64_valid_nnx x : f64_valid x = true -> ~ is_nan x -> f64_sign x = false -> f64_nnx x.
Proof. intros Hv Hn Hs. destruct x as [?|?| |]; cbn in Hs; subst; try done; [by right|by left|by right]. Qed.

Lemma f64_div_nnx a b :
  0 <= a <= 2 ^ 63 -> 0 < b <= 2 ^ 63 -> f64_nnx (f64_div (f64_of_Z a) (f64_of_Z b)).
Proof.
  intros Ha Hb. destruct (f64_div_ints a b) as (? & ? & Hs); [lia..|].
  apply f64_valid_nnx; [done..|]. apply Hs; lia.
Qed.

Lemma f64_of_Z_nnx z : 0 <= z <= 2 ^ 63 -> f64_nn (f64_of_Z z).
Proof.
  intros Hz. destruct (decide (z = 0)) as [->|Hne]; [done|].
  destruct (f64_of_Z_finite z Hne) as (m & e & -> & Hv & _); [lia|].
  destruct (z <? 0) eqn:E; [go_lia|]. done.
Qed.

Lemma f64_add_nnx x y : f64_nnx x -> f64_nnx y -> f64_nnx (f64_add x y).
Proof.
  intros [->|Hx] [->|Hy]; [by left|..].
  - left. destruct Hy as [_ Hy]. by destruct y.
  - left. destruct Hx as [_ Hx]. by destruct x.
  - destruct (f64_add_nn x y Hx Hy) as (? & ? & ?). by apply f64_valid_nnx.
Qed.

Lemma f64_nnx_notnan x : f64_nnx x -> ~ is_nan x.
Proof. intros [->|Hx]; [done|auto with golib]. Qed.
