(* ===== verification/GoString.v ===== *)
(** * Strings and errors

    Go strings are byte sequences: Rocq's [string].  The functions of the
    [strings], [strconv] and [encoding/hex] packages the program calls are
    written out on bytes.  Case folding and white space are the ASCII ones;
    bytes above 127 are left alone.

    An [error] is a tree: a sentinel (compared by identity), an opaque error
    with a message, or an error wrapped by [fmt.Errorf] with [%w]. *)

From Stdlib Require Import Ascii.
From S2P Require Import Prelude GoInt.

(** ** Characters *)

Definition code (c : ascii) : Z := Z.of_nat (nat_of_ascii c).
Definition char_of (z : Z) : ascii := ascii_of_nat (Z.to_nat z).

Definition lower_char (c : ascii) : ascii :=
  if (65 <=? code c) && (code c <=? 90) then char_of (code c + 32) else c.

Definition is_space (c : ascii) : bool :=
  ((9 <=? code c) && (code c <=? 13)) || (code c =? 32).

(** ** strings *)

(** [strings.ToLower]. *)
Fixpoint to_lower (s : string) : string :=
  match s with
  | EmptyString => EmptyString
  | String c s => String (lower_char c) (to_lower s)
  end.

Fixpoint trim_left (s : string) : string :=
  match s with
  | String c s' => if is_space c then trim_left s' else s
  | EmptyString => EmptyString
  end.

Fixpoint trim_right (s : string) : string :=
  match s with
  | EmptyString => EmptyString
  | String c s' =>
      match trim_right s' with
      | EmptyString => if is_space c then EmptyString else String c EmptyString
      | t => String c t
      end
  end.

(** [strings.TrimSpace]. *)
Definition trim_space (s : string) : string := trim_right (trim_left s).

(** [strings.Split(s, sep)] for a one-byte separator: at least one piece. *)
Fixpoint split (sep : ascii) (s : string) : list string :=
  match s with
  | EmptyString => [EmptyString]
  | String c s' =>
      if bool_decide (c = sep) then EmptyString :: split sep s'
      else match split sep s' with
           | [] => [String c EmptyString]
           | p :: ps => String c p :: ps
           end
  end.

(** [strings.SplitN(s, sep, 2)]: [None] when the separator does not occur. *)
Fixpoint split2 (sep : ascii) (s : string) : option (string * string) :=
  match s with
  | EmptyString => None
  | String c s' =>
      if bool_decide (c = sep) then Some (EmptyString, s')
      else '(a, b) ← split2 sep s'; Some (String c a, b)
  end.

(** [strings.Contains]. *)
Fixpoint str_contains (sub s : string) : bool :=
  String.prefix sub s ||
  match s with EmptyString => false | String _ s' => str_contains sub s' end.

Lemma append_nil q : (EmptyString +:+ q)%string = q.
Proof. done. Qed.

Lemma append_cons c p q : (String c p +:+ q)%string = String c (p +:+ q).
Proof. done. Qed.

Lemma append_assoc a b c : ((a +:+ b) +:+ c)%string = (a +:+ (b +:+ c))%string.
Proof. induction a as [|x a IH]; [done|]. by rewrite !append_cons, IH. Qed.

Lemma app_empty_r (s : string) : (s +:+ "")%string = s.
Proof. induction s as [|c s IH]; [done|]. by rewrite append_cons, IH. Qed.

#[export] Hint Rewrite append_nil append_cons append_assoc : gorw.

Lemma str_prefix_spec p s : String.prefix p s = true <-> exists q, s = (p +:+ q)%string.
Proof.
  revert s. induction p as [|c p IH]; intros s; cbn.
  { destruct s; (split; [intros _; by eexists|done]). }
  destruct s as [|d s]; cbn.
  { split; [done|]. intros [q Hq]. done. }
  destruct (ascii_dec c d) as [<-|Hne]; cbn.
  - rewrite IH. split; intros [q Hq]; exists q; rewrite append_cons in *; congruence.
  - split; [done|]. intros [q Hq]. rewrite append_cons in Hq. congruence.
Qed.

Lemma str_contains_spec sub s :
  str_contains sub s = true <-> exists a b, s = (a +:+ sub +:+ b)%string.
Proof.
  induction s as [|c s IH]; cbn [str_contains]; rewrite orb_true_iff, str_prefix_spec.
  - split.
    + intros [[q Hq]|]; [|done]. by exists ""%string, q.
    + intros (a & b & H). left. destruct a; [|done]. by exists b.
  - rewrite IH. split.
    + intros [[q Hq]|(a & b & ->)]; [by exists ""%string, q|]. by exists (String c a), b.
    + intros ([|d a] & b & H); [left; by exists b|].
      right. exists a, b. rewrite append_cons in H. congruence.
Qed.

(** ** Errors *)

(** The package-level sentinel errors, compared by identity. *)
Inductive sentinel :=
  | ErrProviderNotConfigured
  | ErrAuthFailure
  | ContextCanceled
  | ContextDeadlineExceeded
  | ErrWebhookSignatureMissing
  | ErrWebhookSignatureMalformed
  | ErrWebhookSignatureUnsupportedScheme
  | ErrWebhookSignatureMismatch
  | ErrWebhookSignatureExpired.

#[global] Instance sentinel_eq_dec : EqDecision sentinel.
Proof. solve_decision. Defined.

Definition sentinel_msg (s : sentinel) : string :=
  match s with
  | ErrProviderNotConfigured => "provider not configured"
  | ErrAuthFailure => "authentication failed"
  | ContextCanceled => "context canceled"
  | ContextDeadlineExceeded => "context deadline exceeded"
  | ErrWebhookSignatureMissing => "payment: webhook signature header is empty"
  | ErrWebhookSignatureMalformed => "payment: webhook signature header is malformed"
  | ErrWebhookSignatureUnsupportedScheme => "payment: webhook signature scheme not recognised"
  | ErrWebhookSignatureMismatch => "payment: webhook signature does not match"
  | ErrWebhookSignatureExpired => "payment: webhook signature timestamp outside tolerance window"
  end.

Inductive error :=
  | errSentinel (s : sentinel)
  | errOther (msg : string)
  | errWrap (pre : string) (e : error) (post : string).

#[global] Instance error_eq_dec : EqDecision error.
Proof. solve_decision. Defined.

(** [err.Error()]. *)
Fixpoint err_msg (e : error) : string :=
  match e with
  | errSentinel s => sentinel_msg s
  | errOther m => m
  | errWrap a e b => (a +:+ err_msg e +:+ b)%string
  end.

(** [errors.Is(err, target)]. *)
Fixpoint errors_is (e : error) (target : sentinel) : bool :=
  match e with
  | errSentinel s => bool_decide (s = target)
  | errOther _ => false
  | errWrap _ e _ => errors_is e target
  end.

(** The result of a fallible call: [(value, nil)] or [(zero, err)]. *)
Inductive result (A : Type) := Ok (a : A) | Err (e : error).
Arguments Ok {_} _.
Arguments Err {_} _.

(** What a call that may panic returned: [ok] of the value and the new state,
    or [bad] of the new state; it did not panic. *)
Definition outcome {S A} (o : go (result A * S)) (ok : A -> S -> Prop) (bad : S -> Prop) : Prop :=
  match o with
  | Some (Ok a, s) => ok a s
  | Some (Err _, s) => bad s
  | None => False
  end.

Lemma outcome_mono {S A} (o : go (result A * S)) (ok ok' : A -> S -> Prop) (bad bad' : S -> Prop) :
  outcome o ok bad -> (forall a s, ok a s -> ok' a s) -> (forall s, bad s -> bad' s) ->
  outcome o ok' bad'.
Proof. intros Ho Hok Hbad. destruct o as [[[]]|]; cbn in *; auto. Qed.
