(* ===== verification/GoCodec.v ===== *)
(** * Encodings and digests of the standard library

    [strconv] and [fmt] on decimal integers, [encoding/hex], [url.QueryEscape],
    the [%q] verb, and SHA-256 with HMAC ([crypto/sha256], [crypto/hmac]),
    written out on bytes so that a signature can be computed.  A byte is a [Z];
    [%q] is written out for ASCII text. *)

From Stdlib Require Import Ascii.
From S2P Require Import Prelude GoInt GoString.

(** ** Bytes *)

Definition is_byte (z : Z) : Prop := 0 <= z < 256.

Fixpoint bytes_of (s : string) : list Z :=
  match s with EmptyString => [] | String c s => code c :: bytes_of s end.

Lemma code_range c : is_byte (code c).
Proof. unfold is_byte, code. pose proof (nat_ascii_bounded c). lia. Qed.

Lemma code_char_of z : is_byte z -> code (char_of z) = z.
Proof. unfold is_byte, code, char_of. intros Hz. rewrite nat_ascii_embedding by lia. lia. Qed.

Lemma char_of_code c : char_of (code c) = c.
Proof. unfold code, char_of. rewrite Nat2Z.id. apply ascii_nat_embedding. Qed.

Lemma bytes_of_app a b : bytes_of (a +:+ b) = bytes_of a ++ bytes_of b.
Proof. induction a as [|c a IH]; [done|]. rewrite append_cons. cbn. by rewrite IH. Qed.

(** ** Decimal integers *)

Definition digit (d : Z) : ascii := char_of (48 + d).
Definition is_digit (c : ascii) : bool := (48 <=? code c) && (code c <=? 57).
Definition digit_val (c : ascii) : Z := code c - 48.

Lemma digit_spec d : 0 <= d < 10 -> is_digit (digit d) = true /\ digit_val (digit d) = d.
Proof.
  intros Hd. unfold is_digit, digit_val, digit. rewrite code_char_of by (unfold is_byte; lia).
  split; [|lia]. apply andb_true_intro. split; apply Z.leb_le; lia.
Qed.

(** The digits of a non-negative number, in front of [acc]. *)
Fixpoint dec_digits (fuel : nat) (z : Z) (acc : string) : string :=
  match fuel with
  | O => acc
  | S fuel =>
      let acc := String (digit (z mod 10)) acc in
      if z <? 10 then acc else dec_digits fuel (z / 10) acc
  end.

(** A fuel of one more than the binary length is enough. *)
Definition dec_fuel (z : Z) : nat := S (Z.to_nat (Z.log2 z)).

(** The [%d] verb. *)
Definition format_int (z : Z) : string :=
  if z <? 0 then String "-" (dec_digits (dec_fuel (- z)) (- z) "")
  else dec_digits (dec_fuel z) z "".

(** The value of a run of digits; anything else is a syntax error. *)
Fixpoint parse_digits (s : string) (acc : Z) : option Z :=
  match s with
  | EmptyString => Some acc
  | String c s => if is_digit c then parse_digits s (10 * acc + digit_val c) else None
  end.

(** [strconv.ParseInt(s, 10, 64)]. *)
Definition parse_int64 (s : string) : option Z :=
  let in_range z := if bool_decide (int64_range z) then Some z else None in
  let unsigned s := match s with EmptyString => None | _ => parse_digits s 0 end in
  match s with
  | String c s' =>
      if bool_decide (c = "-"%char) then z ← unsigned s'; in_range (- z)
      else if bool_decide (c = "+"%char) then z ← unsigned s'; in_range z
      else z ← unsigned s; in_range z
  | EmptyString => None
  end.

Lemma parse_dec_digits fuel z acc k :
  0 <= z < 2 ^ Z.of_nat fuel ->
  exists m, parse_digits (dec_digits fuel z acc) k = parse_digits acc (m * k + z).
Proof.
  revert z acc. induction fuel as [|fuel IH]; intros z acc Hz.
  { cbn in *. exists 1. f_equal. lia. }
  cbn [dec_digits]. pose proof (Z.mod_pos_bound z 10). pose proof (Z.div_mod z 10).
  destruct (digit_spec (z mod 10)) as [Hd Hv]; [lia|].
  destruct (z <? 10) eqn:E.
  - exists 10. cbn [parse_digits]. rewrite Hd, Hv. f_equal.
    apply Z.ltb_lt in E. rewrite Z.mod_small by lia. done.
  - destruct (IH (z / 10) (String (digit (z mod 10)) acc)) as [m Hm].
    { rewrite Nat2Z.inj_succ, Z.pow_succ_r in Hz by lia. split; [apply Z.div_pos; lia|].
      apply Z.div_lt_upper_bound; lia. }
    exists (10 * m). rewrite Hm. cbn [parse_digits]. rewrite Hd, Hv. f_equal. lia.
Qed.

(** The first character of a number is a digit. *)
Lemma dec_digits_head fuel z acc :
  0 <= z -> (fuel <> 0%nat) ->
  exists c s, dec_digits fuel z acc = String c s /\ is_digit c = true.
Proof.
  revert z acc. induction fuel as [|fuel IH]; intros z acc Hz Hf; [done|]. cbn [dec_digits].
  pose proof (Z.mod_pos_bound z 10). destruct (digit_spec (z mod 10)) as [Hd _]; [lia|].
  destruct (z <? 10) eqn:E; [by eexists _, _|].
  destruct fuel as [|fuel]; [by eexists _, _|]. apply IH; [apply Z.div_pos; lia|done].
Qed.

Lemma dec_fuel_enough z : 0 <= z -> z < 2 ^ Z.of_nat (dec_fuel z).
Proof.
  intros Hz. unfold dec_fuel. rewrite Nat2Z.inj_succ, Z2Nat.id by apply Z.log2_nonneg.
  destruct (Z.eq_dec z 0) as [->|]; [done|]. apply Z.log2_spec. lia.
Qed.

Lemma parse_dec z : 0 <= z -> parse_digits (dec_digits (dec_fuel z) z "") 0 = Some z.
Proof.
  intros Hz. destruct (parse_dec_digits (dec_fuel z) z "" 0) as [m ->].
  { split; [done|]. by apply dec_fuel_enough. }
  cbn. f_equal. lia.
Qed.

Lemma is_digit_not c d : is_digit c = true -> is_digit d = false -> c <> d.
Proof. congruence. Qed.

(** Printing an [int64] and parsing it back is the identity. *)
Lemma parse_format_int z : int64_range z -> parse_int64 (format_int z) = Some z.
Proof.
  intros Hr. unfold format_int. destruct (z <? 0) eqn:E.
  - apply Z.ltb_lt in E. pose proof (parse_dec (- z) ltac:(lia)) as Hp.
    destruct (dec_digits_head (dec_fuel (- z)) (- z) "") as (c & s & Hs & Hc); [lia|done|].
    rewrite Hs in *. unfold parse_int64. rewrite bool_decide_true by done. rewrite Hp.
    cbn -[Z.opp bool_decide]. rewrite Z.opp_involutive. by rewrite bool_decide_true.
  - apply Z.ltb_ge in E. pose proof (parse_dec z E) as Hp.
    destruct (dec_digits_head (dec_fuel z) z "") as (c & s & Hs & Hc); [lia|done|].
    rewrite Hs in *. unfold parse_int64.
    rewrite !bool_decide_false by (by apply is_digit_not). rewrite Hp. cbn.
    by rewrite bool_decide_true.
Qed.

(** Every character of a printed number is a digit or the sign. *)
Fixpoint str_all (P : ascii -> bool) (s : string) : bool :=
  match s with EmptyString => true | String c s => P c && str_all P s end.

Lemma str_all_app P a b : str_all P (a +:+ b) = str_all P a && str_all P b.
Proof. induction a as [|c a IH]; [done|]. rewrite append_cons. cbn. by rewrite IH, andb_assoc. Qed.

Lemma str_all_impl P Q s : (forall c, P c = true -> Q c = true) -> str_all P s = true -> str_all Q s = true.
Proof.
  intros Hpq. induction s as [|c s IH]; [done|]. cbn. intros [Hc Hs]%andb_prop.
  by rewrite Hpq, IH.
Qed.

Lemma dec_digits_all fuel z acc :
  0 <= z -> str_all is_digit acc = true -> str_all is_digit (dec_digits fuel z acc) = true.
Proof.
  revert z acc. induction fuel as [|fuel IH]; intros z acc Hz Ha; [done|]. cbn [dec_digits].
  pose proof (Z.mod_pos_bound z 10). destruct (digit_spec (z mod 10)) as [Hd _]; [lia|].
  assert (str_all is_digit (String (digit (z mod 10)) acc) = true) by (cbn; by rewrite Hd, Ha).
  destruct (z <? 10); [done|]. apply IH; [apply Z.div_pos; lia|done].
Qed.

Definition is_num_char (c : ascii) : bool := is_digit c || bool_decide (c = "-"%char).

Lemma format_int_all z : str_all is_num_char (format_int z) = true.
Proof.
  assert (Himp : forall c, is_digit c = true -> is_num_char c = true).
  { intros c Hc. unfold is_num_char. by rewrite Hc. }
  unfold format_int. destruct (z <? 0) eqn:E.
  - cbn [str_all]. rewrite (str_all_impl is_digit); [done|done|]. apply dec_digits_all; [go_lia|done].
  - apply (str_all_impl is_digit); [done|]. apply dec_digits_all; [go_lia|done].
Qed.

(** ** Digits of fixed width *)

(** Exactly [n] decimal digits of [z], in front of [acc]. *)
Fixpoint fixed_digits (n : nat) (z : Z) (acc : string) : string :=
  match n with
  | O => acc
  | S n => fixed_digits n (z / 10) (String (digit (z mod 10)) acc)
  end.

Lemma parse_digits_app a b k :
  parse_digits (a +:+ b) k = (z ← parse_digits a k; parse_digits b z).
Proof.
  revert k. induction a as [|c a IH]; intros k; [done|]. rewrite append_cons. cbn.
  destruct (is_digit c); [apply IH|done].
Qed.

Lemma fixed_digits_spec n z acc k :
  0 <= z < 10 ^ Z.of_nat n ->
  parse_digits (fixed_digits n z acc) k = parse_digits acc (k * 10 ^ Z.of_nat n + z).
Proof.
  revert z acc. induction n as [|n IH]; intros z acc Hz.
  { cbn in *. f_equal. lia. }
  rewrite Nat2Z.inj_succ, Z.pow_succ_r in * by lia. cbn [fixed_digits].
  pose proof (Z.mod_pos_bound z 10 ltac:(lia)). pose proof (Z.div_mod z 10 ltac:(lia)).
  rewrite IH by (split; [apply Z.div_pos; lia|apply Z.div_lt_upper_bound; lia]).
  cbn [parse_digits]. destruct (digit_spec (z mod 10)) as [-> ->]; [lia|]. f_equal. lia.
Qed.

Lemma fixed_digits_length n z acc : String.length (fixed_digits n z acc) = (n + String.length acc)%nat.
Proof. revert z acc. induction n as [|n IH]; intros z acc; [done|]. cbn [fixed_digits]. rewrite IH. cbn. lia. Qed.

Lemma fixed_digits_all n z acc :
  str_all is_digit acc = true -> str_all is_digit (fixed_digits n z acc) = true.
Proof.
  revert z acc. induction n as [|n IH]; intros z acc Ha; [done|]. cbn [fixed_digits]. apply IH.
  cbn. destruct (digit_spec (z mod 10)) as [-> _]; [apply Z.mod_pos_bound; lia|done].
Qed.

(** ** Splitting text without the separator *)

Lemma split_app sep a b :
  str_all (fun c => bool_decide (c <> sep)) a = true -> split sep (a +:+ String sep b) = a :: split sep b.
Proof.
  induction a as [|c a IH].
  { intros _. rewrite append_nil. cbn. by rewrite bool_decide_true. }
  rewrite append_cons. cbn. intros [Hc%bool_decide_eq_true Ha]%andb_prop.
  by rewrite bool_decide_false, IH.
Qed.

Lemma split_none sep a : str_all (fun c => bool_decide (c <> sep)) a = true -> split sep a = [a].
Proof.
  induction a as [|c a IH]; [done|]. cbn. intros [Hc%bool_decide_eq_true Ha]%andb_prop.
  by rewrite bool_decide_false, IH.
Qed.

(** ** Hexadecimal *)

Definition hex_digit (d : Z) : ascii := if d <? 10 then char_of (48 + d) else char_of (87 + d).

Definition hex_val (c : ascii) : option Z :=
  if is_digit c then Some (code c - 48)
  else if (97 <=? code c) && (code c <=? 102) then Some (code c - 87)
  else if (65 <=? code c) && (code c <=? 70) then Some (code c - 55)
  else None.

(** [hex.EncodeToString]. *)
Fixpoint hex_encode (l : list Z) : string :=
  match l with
  | [] => EmptyString
  | b :: l => String (hex_digit (b / 16)) (String (hex_digit (b mod 16)) (hex_encode l))
  end.

(** [hex.DecodeString]: an odd length or another character is an error. *)
Fixpoint hex_decode (s : string) : option (list Z) :=
  match s with
  | EmptyString => Some []
  | String a (String b s) =>
      x ← hex_val a; y ← hex_val b; l ← hex_decode s; Some (16 * x + y :: l)
  | String _ EmptyString => None
  end.

Lemma code_hex_digit d : 0 <= d < 16 -> code (hex_digit d) = if d <? 10 then 48 + d else 87 + d.
Proof. intros Hd. unfold hex_digit. destruct (d <? 10); apply code_char_of; unfold is_byte; lia. Qed.

Lemma hex_val_digit d : 0 <= d < 16 -> hex_val (hex_digit d) = Some d.
Proof.
  intros Hd. unfold hex_val, is_digit. rewrite code_hex_digit by done.
  destruct (d <? 10) eqn:E; go_bool; repeat case_match; go_bool; f_equal; try lia;
    repeat match goal with H : _ && _ = false |- _ => apply andb_false_iff in H as [?|?] end; go_lia.
Qed.

Lemma hex_roundtrip l : Forall is_byte l -> hex_decode (hex_encode l) = Some l.
Proof.
  unfold is_byte. induction 1 as [|b l Hb Hl IH]; [done|]. cbn [hex_encode hex_decode].
  pose proof (Z.mod_pos_bound b 16). pose proof (Z.div_mod b 16).
  assert (0 <= b / 16 < 16) by (split; [apply Z.div_pos|apply Z.div_lt_upper_bound]; lia).
  rewrite !hex_val_digit, IH by lia. cbn. do 2 f_equal. lia.
Qed.

Definition is_hex_char (c : ascii) : bool := bool_decide (is_Some (hex_val c)).

Lemma hex_encode_all l : Forall is_byte l -> str_all is_hex_char (hex_encode l) = true.
Proof.
  unfold is_byte. induction 1 as [|b l Hb Hl IH]; [done|]. cbn [hex_encode str_all]. unfold is_hex_char at 1 2.
  pose proof (Z.mod_pos_bound b 16).
  assert (0 <= b / 16 < 16) by (split; [apply Z.div_pos|apply Z.div_lt_upper_bound]; lia).
  rewrite !hex_val_digit, IH, !bool_decide_true by (done || lia). done.
Qed.

(** ** Quoting *)

Definition hex2 (b : Z) : string := String (hex_digit (b / 16)) (String (hex_digit (b mod 16)) EmptyString).

Definition quote_char (c : ascii) : string :=
  let z := code c in
  if z =? 34 then "\" +:+ String c "" else if z =? 92 then "\\"
  else if z =? 7 then "\a" else if z =? 8 then "\b" else if z =? 12 then "\f" else if z =? 10 then "\n"
  else if z =? 13 then "\r" else if z =? 9 then "\t" else if z =? 11 then "\v"
  else if (32 <=? z) && (z <? 127) then String c "" else "\x" +:+ hex2 z.

Definition str_map_concat (f : ascii -> string) : string -> string :=
  fix go s := match s with EmptyString => EmptyString | String c s => f c +:+ go s end.

(** The [%q] verb. *)
Definition quote (s : string) : string :=
  String (char_of 34) (str_map_concat quote_char s +:+ String (char_of 34) "").

(** [url.QueryEscape]: letters, digits and [-_.~] stand for themselves, a space
    is a plus, the rest is percent-encoded in upper case. *)
Definition unreserved (c : ascii) : bool :=
  is_digit c || ((65 <=? code c) && (code c <=? 90)) || ((97 <=? code c) && (code c <=? 122))
  || (code c =? 45) || (code c =? 95) || (code c =? 46) || (code c =? 126).

Definition upper_hex_digit (d : Z) : ascii := if d <? 10 then char_of (48 + d) else char_of (55 + d).

Definition escape_char (c : ascii) : string :=
  if code c =? 32 then "+"
  else if unreserved c then String c ""
  else String "%" (String (upper_hex_digit (code c / 16)) (String (upper_hex_digit (code c mod 16)) "")).

Definition query_escape : string -> string := str_map_concat escape_char.

(** ** SHA-256 *)

Definition wrapu32 (z : Z) : Z := Z.land z 4294967295.
Definition rotr32 (n x : Z) : Z := Z.lor (Z.shiftr x n) (wrapu32 (Z.shiftl x (32 - n))).

(** The constants are the first 32 bits of the fractional parts of the cube
    roots of the first 64 primes, and of the square roots of the first 8. *)
Definition primes : list Z :=
  filter (fun p => forallb (fun d => negb (p mod d =? 0)) (map Z.of_nat (seq 2 (Z.to_nat p - 2))) = true)
    (map Z.of_nat (seq 2 310)).

(** The greatest [r] below [lo + 2 ^ n] with [r ^ k <= z], by bisection. *)
Fixpoint root (k : Z) (n : nat) (z lo : Z) : Z :=
  match n with
  | O => lo
  | S n => root k n z (if (lo + 2 ^ Z.of_nat n) ^ k <=? z then lo + 2 ^ Z.of_nat n else lo)
  end.

Definition sha_k : list Z := Eval vm_compute in map (fun p => wrapu32 (root 3 36 (p * 2 ^ 96) 0)) primes.
Definition sha_h0 : list Z := Eval vm_compute in map (fun p => wrapu32 (root 2 37 (p * 2 ^ 64) 0)) (take 8 primes).

Definition word_at (l : list Z) (i : nat) : Z := nth i l 0.

(** One more word of the message schedule, which is kept newest first. *)
Definition sha_extend (w : list Z) : list Z :=
  let w15 := word_at w 14 in
  let w2 := word_at w 1 in
  let s0 := Z.lxor (Z.lxor (rotr32 7 w15) (rotr32 18 w15)) (Z.shiftr w15 3) in
  let s1 := Z.lxor (Z.lxor (rotr32 17 w2) (rotr32 19 w2)) (Z.shiftr w2 10) in
  wrapu32 (word_at w 15 + s0 + word_at w 6 + s1) :: w.

Definition sha_round (h : list Z) (kw : Z * Z) : list Z :=
  match h with
  | [a; b; c; d; e; f; g; hh] =>
      let S1 := Z.lxor (Z.lxor (rotr32 6 e) (rotr32 11 e)) (rotr32 25 e) in
      let ch := Z.lxor (Z.land e f) (Z.land (Z.lxor e 4294967295) g) in
      let t1 := hh + S1 + ch + fst kw + snd kw in
      let S0 := Z.lxor (Z.lxor (rotr32 2 a) (rotr32 13 a)) (rotr32 22 a) in
      let maj := Z.lxor (Z.lxor (Z.land a b) (Z.land a c)) (Z.land b c) in
      [wrapu32 (t1 + S0 + maj); a; b; c; wrapu32 (d + t1); e; f; g]
  | _ => h
  end.

Definition be_word (b : list Z) : Z := foldl (fun acc x => 256 * acc + x) 0 b.
Definition be_bytes (n : nat) (z : Z) : list Z :=
  map (fun i => Z.land (Z.shiftr z (8 * Z.of_nat i)) 255) (rev (seq 0 n)).

(** The input cut into blocks of [n + 1] elements. *)
Fixpoint chunks {A} (n : nat) (fuel : nat) (l : list A) : list (list A) :=
  match fuel, l with
  | S fuel, _ :: _ => take (S n) l :: chunks n fuel (drop (S n) l)
  | _, _ => []
  end.

Definition sha_block (h : list Z) (block : list Z) : list Z :=
  let w16 := rev (map be_word (chunks 3 16 block)) in
  let w := rev (Nat.iter 48 sha_extend w16) in
  zip_with (fun x y => wrapu32 (x + y)) h (foldl sha_round h (zip sha_k w)).

Definition sha_pad (m : list Z) : list Z :=
  let n := Z.of_nat (length m) in
  m ++ [128] ++ replicate (Z.to_nat ((55 - n) mod 64)) 0 ++ be_bytes 8 (8 * n).

Definition sha256 (m : list Z) : list Z :=
  let p := sha_pad m in
  mjoin (map (be_bytes 4) (foldl sha_block sha_h0 (chunks 63 (length p) p))).

(** ** HMAC-SHA256 *)

Definition hmac_sha256 (key msg : list Z) : list Z :=
  let key := if (64 <? length key)%nat then sha256 key else key in
  let key := key ++ replicate (64 - length key) 0 in
  sha256 (map (Z.lxor 92) key ++ sha256 (map (Z.lxor 54) key ++ msg)).

Lemma be_bytes_byte n z : Forall is_byte (be_bytes n z).
Proof.
  unfold be_bytes, is_byte. apply Forall_forall. intros b (i & <- & _)%list_elem_of_In%in_map_iff.
  change 255 with (Z.ones 8). rewrite Z.land_ones by lia. apply Z.mod_pos_bound. done.
Qed.

Lemma sha256_bytes m : Forall is_byte (sha256 m).
Proof.
  unfold sha256. apply Forall_join, Forall_fmap, Forall_true. intros z. apply be_bytes_byte.
Qed.

Lemma hmac_sha256_bytes key msg : Forall is_byte (hmac_sha256 key msg).
Proof. apply sha256_bytes. Qed.

(** The published test vectors: SHA-256 of "abc", and case 2 of RFC 4231. *)
Example sha256_abc :
  hex_encode (sha256 (bytes_of "abc")) = "ba7816bf8f01cfea414140de5dae2223b00361a396177a9cb410ff61f20015ad"%string.
Proof. by vm_compute. Qed.

Example hmac_jefe :
  hex_encode (hmac_sha256 (bytes_of "Jefe") (bytes_of "what do ya want for nothing?"))
  = "5bdcc146bf60754e6a042426089575c75a003f089d2739839dec58b964ec3843"%string.
Proof. by vm_compute. Qed.
