(* ===== verification/GoNum.v ===== *)
(** * Numbers in text

    [strconv.ParseFloat], [ParseInt] and [ParseUint] at a width, [math.Round]
    and the conversion of a float to [uint64]. *)

From Stdlib Require Import Ascii SpecFloat.
From S2P Require Import Prelude GoInt GoFloat GoString GoCodec.

(** ** Integers *)

(** [strconv.ParseUint(s, 10, bits)]: digits only, in range. *)
Definition parse_uint (bits : Z) (s : string) : option Z :=
  match s with
  | EmptyString => None
  | _ => z ← parse_digits s 0; if z <? 2 ^ bits then Some z else None
  end.

(** [strconv.ParseInt(s, 10, bits)]. *)
Definition parse_int (bits : Z) (s : string) : option Z :=
  z ← parse_int64 s; if (- 2 ^ (bits - 1) <=? z) && (z <? 2 ^ (bits - 1)) then Some z else None.

Lemma parse_digits_nonneg s acc z : 0 <= acc -> parse_digits s acc = Some z -> acc <= z.
Proof.
  revert acc. induction s as [|c s IH]; intros acc Hacc Hz; cbn in Hz; [simplify_eq; lia|].
  destruct (is_digit c) eqn:Hc; [|done]. unfold is_digit, digit_val in *.
  apply andb_prop in Hc as [Hc _]. apply Z.leb_le in Hc. apply IH in Hz; lia.
Qed.

Lemma parse_uint_range bits s z : parse_uint bits s = Some z -> 0 <= z < 2 ^ bits.
Proof.
  unfold parse_uint. destruct s as [|c s]; [done|].
  intros (z' & Hz & Hr)%bind_Some. destruct (z' <? 2 ^ bits) eqn:E; [|done]. simplify_eq.
  apply parse_digits_nonneg in Hz; go_lia.
Qed.

Lemma parse_int_range bits s z : parse_int bits s = Some z -> - 2 ^ (bits - 1) <= z < 2 ^ (bits - 1).
Proof. unfold parse_int. intros (z' & _ & Hr)%bind_Some. case_match; simplify_eq. go_lia. Qed.

(** Printing an unsigned number and reading it back is the identity. *)
Lemma parse_uint_format bits z : 0 <= z < 2 ^ bits -> parse_uint bits (format_int z) = Some z.
Proof.
  intros Hz. unfold format_int. rewrite (proj2 (Z.ltb_ge z 0)) by lia.
  destruct (dec_digits_head (dec_fuel z) z "") as (c & s & Hs & _); [lia|done|].
  unfold parse_uint. rewrite Hs, <- Hs, parse_dec by lia. cbn. by rewrite (proj2 (Z.ltb_lt z (2 ^ bits))) by lia.
Qed.

(** ** Decimal floating point *)

Inductive floatParse := FloatOk (x : f64) | FloatRange (x : f64) | FloatSyntax.

(** The longest run of digits. *)
Fixpoint take_digits (s : string) : string * string :=
  match s with
  | String c r => if is_digit c then let '(d, r) := take_digits r in (String c d, r) else (EmptyString, s)
  | EmptyString => (EmptyString, EmptyString)
  end.

(** The value [m * 10 ^ e], correctly rounded, of a mantissa of [n] digits.
    Beyond [10 ^ 400] and below [10 ^ -400] the power is not computed: both ends are outside the
    range of binary64. *)
Definition f64_of_decimal (neg : bool) (n m e : Z) : f64 :=
  match m with
  | Z.pos p =>
      if 400 <? e then S754_infinity neg
      else if e <? - (n + 400) then S754_zero neg
      else if 0 <=? e then binary_normalize 53 1024 (cond_Zopp neg (m * 10 ^ e)) 0 neg
      else f64_div (S754_finite neg p 0) (S754_finite false (Z.to_pos (10 ^ (- e))) 0)
  | _ => S754_zero neg
  end.

(** The digits of an exponent; the accumulation stops at five digits. *)
Fixpoint exponent_digits (s : string) (acc : Z) : option Z :=
  match s with
  | EmptyString => Some acc
  | String c s =>
      if is_digit c then exponent_digits s (if acc <? 10000 then 10 * acc + digit_val c else acc) else None
  end.

(** What follows the mantissa: nothing, or [e], a sign and digits. *)
Definition parse_exponent (s : string) : option Z :=
  match s with
  | EmptyString => Some 0
  | String c s =>
      if bool_decide (lower_char c = "e"%char) then
        match s with
        | EmptyString => None
        | String d s' =>
            if bool_decide (d = "-"%char) then
              match s' with EmptyString => None | _ => Z.opp <$> exponent_digits s' 0 end
            else if bool_decide (d = "+"%char) then
              match s' with EmptyString => None | _ => exponent_digits s' 0 end
            else exponent_digits s 0
        end
      else None
  end.

Definition str_len (s : string) : Z := Z.of_nat (String.length s).

Definition parse_decimal (neg : bool) (s : string) : floatParse :=
  let '(whole, r) := take_digits s in
  let '(frac, r) := match r with
                    | String c r' => if bool_decide (c = "."%char) then take_digits r' else (EmptyString, r)
                    | EmptyString => (EmptyString, EmptyString)
                    end in
  let digits := whole +:+ frac in
  match digits, parse_digits digits 0, parse_exponent r with
  | String _ _, Some m, Some e =>
      let x := f64_of_decimal neg (str_len digits) m (e - str_len frac) in
      match x with S754_infinity _ => FloatRange x | _ => FloatOk x end
  | _, _, _ => FloatSyntax
  end.

(** [strconv.ParseFloat(s, 64)] of the decimal syntax and the special values;
    hexadecimal mantissas are not modelled. *)
Definition parse_float (s : string) : floatParse :=
  let '(sign, u) := match s with
                    | String c r => if bool_decide (c = "-"%char) then (Some true, r)
                                    else if bool_decide (c = "+"%char) then (Some false, r) else (None, s)
                    | EmptyString => (None, s)
                    end in
  let neg := default false sign in
  let l := to_lower u in
  if bool_decide (l = "inf"%string) || bool_decide (l = "infinity"%string) then FloatOk (S754_infinity neg)
  else if bool_decide (l = "nan"%string) && bool_decide (sign = None) then FloatOk S754_nan
  else parse_decimal neg u.

(** Rounding a non-negative mantissa, however far from the format, is not NaN. *)
Lemma binary_round_aux_notnan s m e l : 0 <= m -> ~ is_nan (binary_round_aux 53 1024 s m e l).
Proof.
  intros Hm. unfold binary_round_aux.
  pose proof (shr_fexp_loc m e l Hm) as H1. destruct (shr_fexp 53 1024 m e l) as [mrs e1].
  destruct H1 as (_ & Hm1).
  set (r := round_nearest_even _ _).
  assert (0 <= r) as Hr.
  { assert (0 <= shr_m mrs) by (rewrite Hm1; apply Z.div_pos; [done|]; apply Z.pow_pos_nonneg; lia).
    subst r. destruct (round_nearest_even_cases (shr_m mrs) (loc_of_shr_record mrs)) as [->|[_ ->]]; lia. }
  pose proof (shr_fexp_exact r e1 Hr) as H2. destruct (shr_fexp 53 1024 r e1 loc_Exact) as [mrs2 e2].
  destruct H2 as (_ & Hm2 & _).
  assert (0 <= shr_m mrs2) by (rewrite Hm2; apply Z.div_pos; [done|]; apply Z.pow_pos_nonneg; lia).
  destruct (shr_m mrs2); [done| |lia]. by destruct (_ <=? _).
Qed.

Lemma f64_div_finite_notnan s1 m1 e1 s2 m2 e2 :
  ~ is_nan (f64_div (S754_finite s1 m1 e1) (S754_finite s2 m2 e2)).
Proof.
  unfold f64_div, SFdiv, SFdiv_core_binary. cbv zeta.
  set (m' := match _ with Z0 => _ | _ => _ end).
  assert (0 <= m') as Hm by (subst m'; case_match; [lia|apply Z.shiftl_nonneg; lia|lia]).
  rewrite (surjective_pairing (Z.div_eucl m' (Z.pos m2))).
  change (Z.div_eucl m' (Z.pos m2)).1 with (m' / Z.pos m2).
  apply binary_round_aux_notnan. apply Z.div_pos; lia.
Qed.

Lemma binary_normalize_notnan z e s : ~ is_nan (binary_normalize 53 1024 z e s).
Proof.
  destruct z as [|p|p]; cbn [binary_normalize]; [by destruct s| |].
  - by destruct (binary_round_valid false p e) as (_ & _ & ? & _).
  - by destruct (binary_round_valid true p e) as (_ & _ & ? & _).
Qed.

(** A decimal never reads as NaN; only the word itself does. *)
Lemma f64_of_decimal_notnan neg n m e : ~ is_nan (f64_of_decimal neg n m e).
Proof.
  unfold f64_of_decimal. destruct m as [|p|p]; [done| |done]. repeat case_match; try done.
  - apply binary_normalize_notnan.
  - apply f64_div_finite_notnan.
Qed.

Lemma parse_decimal_notnan neg s x : parse_decimal neg s = FloatOk x -> ~ is_nan x.
Proof.
  unfold parse_decimal. intros H.
  repeat case_match; simplify_eq; try done;
    match goal with E : f64_of_decimal _ _ _ _ = _ |- _ => rewrite <- E; apply f64_of_decimal_notnan end.
Qed.

(** ** Rounding and unsigned conversion *)

(** [math.Round]: to the nearest integer, halves away from zero. *)
Definition f64_round (x : f64) : f64 :=
  match x with
  | S754_finite s m e =>
      if 0 <=? e then x
      else binary_normalize 53 1024 (cond_Zopp s ((Z.pos m + 2 ^ (- e - 1)) / 2 ^ (- e))) 0 s
  | _ => x
  end.

(** [uint64(x)] truncates; out of range the result depends on the processor. *)
Class GoArchU := cvtu_out_of_range : f64 -> Z.

(** amd64: the signed conversion, of the difference with [2 ^ 63] from there on. *)
Definition archu_amd64 : GoArchU := fun x =>
  match f64_trunc x with
  | Some z => if int64_range_dec z then z else min_int64
  | None => min_int64
  end.

Definition f64_to_uint64 `{GoArchU} (x : f64) : Z :=
  match f64_trunc x with
  | Some z => if (0 <=? z) && (z <? 2 ^ 64) then z else wrapu64 (cvtu_out_of_range x)
  | None => wrapu64 (cvtu_out_of_range x)
  end.

Lemma f64_to_uint64_range `{GoArchU} x : 0 <= f64_to_uint64 x < 2 ^ 64.
Proof.
  unfold f64_to_uint64, wrapu64. repeat case_match; try (apply Z.mod_pos_bound; lia). go_lia.
Qed.

Example parse_float_1 : parse_float "87.882" = FloatOk (f64_div (f64_of_Z 87882) (f64_of_Z 1000)).
Proof. vm_compute. reflexivity. Qed.
Example parse_float_2 : parse_float "1e400" = FloatRange (S754_infinity false).
Proof. vm_compute. reflexivity. Qed.
Example parse_float_3 : parse_float "-0.00001e-700" = FloatOk (S754_zero true).
Proof. vm_compute. reflexivity. Qed.
Example parse_float_4 : parse_float "4.9406564584124654e-324" = FloatOk (S754_finite false 1 (-1074)).
Proof. vm_compute. reflexivity. Qed.
Example parse_float_5 : parse_float "NaN" = FloatOk S754_nan /\ parse_float "1.2.3" = FloatSyntax /\ parse_float "." = FloatSyntax.
Proof. vm_compute. done. Qed.
Example round_1 : map f64_round [f64_const 5 2; f64_const (-5) 2; f64_const 249 100; f64_const 1 4] = [f64_of_Z 3; f64_of_Z (-3); f64_of_Z 2; S754_zero false].
Proof. vm_compute. done. Qed.
