(* ===== verification/GoJson.v ===== *)
(** * JSON

    [encoding/json]: the text of a value is parsed and printed as the package
    does (grammar, escapes, UTF-8, nesting limit), and decoded into a Go value
    by the rules for its type: [null] leaves a value unchanged, unknown keys are
    skipped, keys match fields without regard to case, a repeated key is decoded
    over the earlier value, and a value of the wrong type is an error. *)

From Stdlib Require Import Ascii SpecFloat.
From S2P Require Import Prelude GoInt GoFloat GoString GoCodec GoNum.

Unset Elimination Schemes.
(** A number is its literal. *)
Inductive json :=
  | JNull
  | JBool (b : bool)
  | JNumber (literal : string)
  | JString (s : string)
  | JArray (l : list json)
  | JObject (fields : list (string * json)).
Set Elimination Schemes.

(** Induction through the lists of elements and members. *)
Section json_induction.
Context (P : json -> Prop).
Context (Hnull : P JNull) (Hbool : forall b, P (JBool b)) (Hnum : forall x, P (JNumber x)) (Hstr : forall s, P (JString s)).
Context (Harr : forall l, Forall P l -> P (JArray l)).
Context (Hobj : forall l, Forall (fun kv => P kv.2) l -> P (JObject l)).

Fixpoint json_nested_ind (j : json) : P j :=
  match j with
  | JNull => Hnull
  | JBool b => Hbool b
  | JNumber x => Hnum x
  | JString s => Hstr s
  | JArray l => Harr l ((fix all l : Forall P l :=
      match l with [] => List.Forall_nil _ | j :: l => List.Forall_cons _ _ _ (json_nested_ind j) (all l) end) l)
  | JObject l => Hobj l ((fix all l : Forall (fun kv => P kv.2) l :=
      match l with [] => List.Forall_nil _ | kv :: l => List.Forall_cons _ _ _ (json_nested_ind kv.2) (all l) end) l)
  end.
End json_induction.

(** ** UTF-8 *)

Definition between (lo hi : Z) (c : ascii) : bool := (lo <=? code c) && (code c <=? hi).

(** The continuation bytes of the sequence that [c] starts, when it is valid. *)
Definition utf8_tail (c : ascii) (r : string) : option nat :=
  let z := code c in
  let cont := between 128 191 in
  if z <? 128 then Some 0%nat
  else match r with
  | String c1 r1 =>
      if between 194 223 c then if cont c1 then Some 1%nat else None
      else match r1 with
      | String c2 r2 =>
          if between 224 239 c then
            if between (if z =? 224 then 160 else 128) (if z =? 237 then 159 else 191) c1 && cont c2
            then Some 2%nat else None
          else match r2 with
          | String c3 _ =>
              if between 240 244 c
                 && between (if z =? 240 then 144 else 128) (if z =? 244 then 143 else 191) c1 && cont c2 && cont c3
              then Some 3%nat else None
          | EmptyString => None
          end
      | EmptyString => None
      end
  | EmptyString => None
  end.

Definition of_bytes (l : list Z) : string := fold_right (fun z s => String (char_of z) s) EmptyString l.

(** [utf8.EncodeRune] of a rune up to 0x10FFFF that is not a surrogate. *)
Definition encode_rune (r : Z) : string :=
  if r <? 128 then of_bytes [r]
  else if r <? 2048 then of_bytes [192 + r / 64; 128 + r mod 64]
  else if r <? 65536 then of_bytes [224 + r / 4096; 128 + r / 64 mod 64; 128 + r mod 64]
  else of_bytes [240 + r / 262144; 128 + r / 4096 mod 64; 128 + r / 64 mod 64; 128 + r mod 64].

(** U+FFFD. *)
Definition replacement : string := of_bytes [239; 191; 189].

(** ** Strings *)

Definition dquote : ascii := "034"%char.
Definition backslash : ascii := "\"%char.

Definition hex4 (a b c d : ascii) : option Z :=
  w ← hex_val a; x ← hex_val b; y ← hex_val c; z ← hex_val d; Some (((w * 16 + x) * 16 + y) * 16 + z).

(** The character a one-letter escape stands for. *)
Definition unescape (e : ascii) : option ascii :=
  if bool_decide (e = dquote \/ e = backslash \/ e = "/"%char) then Some e
  else if bool_decide (e = "b"%char) then Some (char_of 8)
  else if bool_decide (e = "f"%char) then Some (char_of 12)
  else if bool_decide (e = "n"%char) then Some (char_of 10)
  else if bool_decide (e = "r"%char) then Some (char_of 13)
  else if bool_decide (e = "t"%char) then Some (char_of 9)
  else None.

(** The scanner in a string, after its opening quote: the raw text up to the
    closing quote, and what follows it. *)
Fixpoint scan_string (s : string) : option (string * string) :=
  match s with
  | EmptyString => None
  | String c r =>
      if bool_decide (c = dquote) then Some (EmptyString, r)
      else if bool_decide (c = backslash) then
        match r with
        | String e r1 =>
            if bool_decide (e = "u"%char) then
              match r1 with
              | String h1 (String h2 (String h3 (String h4 r2))) =>
                  _ ← hex4 h1 h2 h3 h4;
                  '(a, rest) ← scan_string r2;
                  Some (String c (String e (String h1 (String h2 (String h3 (String h4 a))))), rest)
              | _ => None
              end
            else
              _ ← unescape e; '(a, rest) ← scan_string r1; Some (String c (String e a), rest)
        | EmptyString => None
        end
      else if code c <? 32 then None
      else '(a, rest) ← scan_string r; Some (String c a, rest)
  end.

Definition is_surrogate (r : Z) : bool := (55296 <=? r) && (r <? 57344).

(** [utf16.DecodeRune]. *)
Definition surrogate_pair (r1 r2 : Z) : option Z :=
  if (55296 <=? r1) && (r1 <? 56320) && (56320 <=? r2) && (r2 <? 57344)
  then Some ((r1 - 55296) * 1024 + (r2 - 56320) + 65536) else None.

(** [unquote] of a scanned raw text: escapes are resolved, unpaired surrogates
    and bytes that are not UTF-8 become U+FFFD; [k] counts the bytes of a valid
    sequence still to be copied. *)
Fixpoint unquote (k : nat) (s : string) : string :=
  match s with
  | EmptyString => EmptyString
  | String c r =>
      match k with
      | S k => String c (unquote k r)
      | O =>
          if bool_decide (c = backslash) then
            match r with
            | String e r1 =>
                if bool_decide (e = "u"%char) then
                  match r1 with
                  | String h1 (String h2 (String h3 (String h4 r2))) =>
                      let rr := default 0 (hex4 h1 h2 h3 h4) in
                      if is_surrogate rr then
                        match r2 with
                        | String b (String u (String k1 (String k2 (String k3 (String k4 r3))))) =>
                            match (if bool_decide (b = backslash) && bool_decide (u = "u"%char)
                                   then rr1 ← hex4 k1 k2 k3 k4; surrogate_pair rr rr1 else None) with
                            | Some dec => encode_rune dec +:+ unquote 0 r3
                            | None => replacement +:+ unquote 0 r2
                            end
                        | _ => replacement +:+ unquote 0 r2
                        end
                      else encode_rune rr +:+ unquote 0 r2
                  | _ => EmptyString
                  end
                else String (default e (unescape e)) (unquote 0 r1)
            | EmptyString => EmptyString
            end
          else match utf8_tail c r with
               | Some n => String c (unquote n r)
               | None => replacement +:+ unquote 0 r
               end
      end
  end.

(** ** Numbers *)

Definition starts_digit (s : string) : bool := match s with String c _ => is_digit c | EmptyString => false end.

(** The fraction and the exponent that may follow the integer part. *)
Definition scan_fraction (s : string) : option (string * string) :=
  match s with
  | String c r =>
      if bool_decide (c = "."%char) then
        if starts_digit r then let '(d, r) := take_digits r in Some (String c d, r) else None
      else Some (EmptyString, s)
  | EmptyString => Some (EmptyString, s)
  end.

Definition scan_exponent (s : string) : option (string * string) :=
  match s with
  | String c r =>
      if bool_decide (c = "e"%char \/ c = "E"%char) then
        match r with
        | String d r' =>
            if bool_decide (d = "+"%char \/ d = "-"%char) then
              if starts_digit r' then let '(x, r) := take_digits r' in Some (String c (String d x), r) else None
            else if is_digit d then let '(x, r) := take_digits r in Some (String c x, r) else None
        | EmptyString => None
        end
      else Some (EmptyString, s)
  | EmptyString => Some (EmptyString, s)
  end.

(** A number literal without its sign; a leading zero stands alone. *)
Definition scan_unsigned (s : string) : option (string * string) :=
  match s with
  | String c r =>
      if is_digit c then
        let '(whole, r) := if bool_decide (c = "0"%char) then (String c EmptyString, r) else take_digits s in
        '(frac, r) ← scan_fraction r; '(exp, r) ← scan_exponent r; Some (whole +:+ frac +:+ exp, r)
      else None
  | EmptyString => None
  end.

Definition scan_number (s : string) : option (string * string) :=
  match s with
  | String c r =>
      if bool_decide (c = "-"%char) then '(d, r) ← scan_unsigned r; Some (String c d, r) else scan_unsigned s
  | EmptyString => None
  end.

(** ** Values *)

Definition json_space (c : ascii) : bool := bool_decide (code c = 32 \/ code c = 9 \/ code c = 10 \/ code c = 13).

Fixpoint skip_space (s : string) : string :=
  match s with String c r => if json_space c then skip_space r else s | EmptyString => EmptyString end.

(** [strings.CutPrefix]. *)
Fixpoint strip_prefix (p s : string) : option string :=
  match p, s with
  | EmptyString, _ => Some s
  | String a p, String b s => if bool_decide (a = b) then strip_prefix p s else None
  | String _ _, EmptyString => None
  end.

Definition max_depth : Z := 10000.

(** A value at the start of [s], and the rest.  [depth] is how many more arrays
    and objects may be opened.  [parse_elements] is inside an array, before an
    element; [parse_members] inside an object, before a key. *)
Fixpoint parse_value (fuel : nat) (depth : Z) (s : string) {struct fuel} : option (json * string) :=
  match fuel with
  | O => None
  | S fuel =>
      match skip_space s with
      | EmptyString => None
      | String c r =>
          if bool_decide (c = "{"%char) then
            if depth <=? 0 then None
            else match strip_prefix "}" (skip_space r) with
                 | Some r => Some (JObject [], r)
                 | None => '(l, r) ← parse_members fuel (depth - 1) r; Some (JObject l, r)
                 end
          else if bool_decide (c = "["%char) then
            if depth <=? 0 then None
            else match strip_prefix "]" (skip_space r) with
                 | Some r => Some (JArray [], r)
                 | None => '(l, r) ← parse_elements fuel (depth - 1) r; Some (JArray l, r)
                 end
          else if bool_decide (c = dquote) then '(a, r) ← scan_string r; Some (JString (unquote 0 a), r)
          else if bool_decide (c = "t"%char) then r ← strip_prefix "rue" r; Some (JBool true, r)
          else if bool_decide (c = "f"%char) then r ← strip_prefix "alse" r; Some (JBool false, r)
          else if bool_decide (c = "n"%char) then r ← strip_prefix "ull" r; Some (JNull, r)
          else '(x, r) ← scan_number (String c r); Some (JNumber x, r)
      end
  end
with parse_elements (fuel : nat) (depth : Z) (s : string) {struct fuel} : option (list json * string) :=
  match fuel with
  | O => None
  | S fuel =>
      '(v, r) ← parse_value fuel depth s;
      match skip_space r with
      | String c r =>
          if bool_decide (c = ","%char) then '(l, r) ← parse_elements fuel depth r; Some (v :: l, r)
          else if bool_decide (c = "]"%char) then Some ([v], r)
          else None
      | EmptyString => None
      end
  end
with parse_members (fuel : nat) (depth : Z) (s : string) {struct fuel} : option (list (string * json) * string) :=
  match fuel with
  | O => None
  | S fuel =>
      match skip_space s with
      | String q r =>
          if bool_decide (q = dquote) then
            '(k, r) ← scan_string r;
            r ← strip_prefix ":" (skip_space r);
            '(v, r) ← parse_value fuel depth r;
            match skip_space r with
            | String c r =>
                if bool_decide (c = ","%char) then
                  '(l, r) ← parse_members fuel depth r; Some ((unquote 0 k, v) :: l, r)
                else if bool_decide (c = "}"%char) then Some ([(unquote 0 k, v)], r)
                else None
            | EmptyString => None
            end
          else None
      | EmptyString => None
      end
  end.

(** Two steps per character and one are enough ([parse_enough]). *)
Definition json_fuel (s : string) : nat := S (2 * String.length s).

(** The first value of a stream, as [Decoder.Decode] reads it. *)
Definition parse_first (s : string) : option json := fst <$> parse_value (json_fuel s) max_depth s.

(** A text that is one value, as [Unmarshal] requires. *)
Definition parse_json (s : string) : option json :=
  '(j, r) ← parse_value (json_fuel s) max_depth s;
  if bool_decide (skip_space r = EmptyString) then Some j else None.

(** ** The parser consumes its input *)

Lemma skip_space_len s : (String.length (skip_space s) <= String.length s)%nat.
Proof. induction s as [|c s IH]; cbn [skip_space]; [done|]. destruct (json_space c); cbn; lia. Qed.

Lemma strip_prefix_spec p s r : strip_prefix p s = Some r <-> s = (p +:+ r)%string.
Proof.
  revert s. induction p as [|a p IH]; intros [|b s]; cbn [strip_prefix]; rewrite ?append_nil, ?append_cons;
    [split; congruence..|done|]. case_bool_decide as Hab.
  - rewrite IH. split; congruence.
  - split; congruence.
Qed.

Lemma strip_prefix_len p s r : strip_prefix p s = Some r -> (String.length r <= String.length s)%nat.
Proof.
  intros ->%strip_prefix_spec. induction p as [|c p IH]; [done|]. rewrite append_cons. cbn [String.length]. lia.
Qed.

Lemma scan_string_len s a r : scan_string s = Some (a, r) -> (String.length r < String.length s)%nat.
Proof.
  revert a r. induction s as [s IH] using (induction_ltof1 _ String.length). unfold ltof in IH.
  intros a r H. destruct s as [|c s]; [done|]. cbn [scan_string] in H.
  case_bool_decide; [simplify_eq; cbn; lia|]. case_bool_decide.
  - destruct s as [|e s]; [done|]. case_bool_decide.
    + destruct s as [|h1 [|h2 [|h3 [|h4 s]]]]; try done.
      apply bind_Some in H as (_ & _ & H). apply bind_Some in H as ([a' r'] & H & ?). simplify_eq.
      apply IH in H; cbn in *; lia.
    + apply bind_Some in H as (_ & _ & H). apply bind_Some in H as ([a' r'] & H & ?). simplify_eq.
      apply IH in H; cbn in *; lia.
  - destruct (code c <? 32); [done|]. apply bind_Some in H as ([a' r'] & H & ?). simplify_eq.
    apply IH in H; cbn in *; lia.
Qed.

Lemma take_digits_len s : (String.length (take_digits s).2 <= String.length s)%nat.
Proof.
  induction s as [|c s IH]; cbn [take_digits]; [done|]. destruct (is_digit c); [|cbn; lia].
  destruct (take_digits s). cbn in *. lia.
Qed.

Lemma scan_fraction_len s a r : scan_fraction s = Some (a, r) -> (String.length r <= String.length s)%nat.
Proof.
  destruct s as [|c s]; cbn [scan_fraction]; [by intros [= <- <-]|].
  case_bool_decide; [|by intros [= <- <-]]. destruct (starts_digit s); [|done].
  pose proof (take_digits_len s). destruct (take_digits s). intros [= <- <-]. cbn in *. lia.
Qed.

Lemma scan_exponent_len s a r : scan_exponent s = Some (a, r) -> (String.length r <= String.length s)%nat.
Proof.
  destruct s as [|c s]; cbn [scan_exponent]; [by intros [= <- <-]|].
  case_bool_decide; [|by intros [= <- <-]]. destruct s as [|d s]; [done|]. case_bool_decide.
  - destruct (starts_digit s); [|done]. pose proof (take_digits_len s). destruct (take_digits s).
    intros [= <- <-]. cbn in *. lia.
  - destruct (is_digit d); [|done]. pose proof (take_digits_len (String d s)).
    destruct (take_digits (String d s)). intros [= <- <-]. cbn in *. lia.
Qed.

Lemma scan_unsigned_len s a r : scan_unsigned s = Some (a, r) -> (String.length r < String.length s)%nat.
Proof.
  destruct s as [|c s]; cbn [scan_unsigned]; [done|]. destruct (is_digit c) eqn:Hc; [|done].
  intros H. assert (exists w r1, (if bool_decide (c = "0"%char) then (String c EmptyString, s) else take_digits (String c s)) = (w, r1)
    /\ (String.length r1 <= String.length s)%nat) as (w & r1 & Hw & Hl).
  { case_bool_decide; [by eexists _, _|]. cbn [take_digits]. rewrite Hc.
    pose proof (take_digits_len s). destruct (take_digits s). by eexists _, _. }
  rewrite Hw in H. apply bind_Some in H as ([f r2] & Hf & H). apply bind_Some in H as ([x r3] & Hx & H).
  simplify_eq. apply scan_fraction_len in Hf. apply scan_exponent_len in Hx. cbn. lia.
Qed.

Lemma scan_number_len s a r : scan_number s = Some (a, r) -> (String.length r < String.length s)%nat.
Proof.
  destruct s as [|c s]; cbn [scan_number]; [done|]. case_bool_decide; [|apply scan_unsigned_len].
  intros ([d r'] & Hd & ?)%bind_Some. simplify_eq. apply scan_unsigned_len in Hd. cbn. lia.
Qed.

(** Unfold one step of the parser's bookkeeping in [H]. *)
Ltac parse_inv H :=
  repeat match type of H with
  | (match ?x with _ => _ end) = Some _ => let E := fresh "E" in destruct x eqn:E; try done
  | (_ ≫= _) = Some _ => let E := fresh "E" in apply bind_Some in H as (? & E & H)
  | Some _ = Some _ => injection H as ? ?; subst
  end.

Ltac parse_len :=
  repeat match goal with
  | E : scan_string _ = Some _ |- _ => apply scan_string_len in E
  | E : scan_number _ = Some _ |- _ => apply scan_number_len in E
  | E : strip_prefix _ _ = Some _ |- _ => apply strip_prefix_len in E
  | E : skip_space ?s = String _ _ |- _ =>
      let Hl := fresh "Hl" in pose proof (skip_space_len s) as Hl; rewrite E in Hl; clear E
  end;
  repeat match goal with
  | E : context [skip_space ?s] |- _ =>
      let Hl := fresh "Hl" in pose proof (skip_space_len s) as Hl; generalize dependent (skip_space s); intros
  end; cbn [String.length] in *; lia.

Lemma parse_consumes n :
  (forall d s v r, parse_value n d s = Some (v, r) -> (String.length r < String.length s)%nat)
  /\ (forall d s v r, parse_elements n d s = Some (v, r) -> (String.length r < String.length s)%nat)
  /\ (forall d s v r, parse_members n d s = Some (v, r) -> (String.length r < String.length s)%nat).
Proof.
  induction n as [|n (IHv & IHe & IHm)]; [split_and!; intros; done|].
  split_and!; intros d s v r H; cbn [parse_value parse_elements parse_members] in H; parse_inv H;
    repeat match goal with
    | E : parse_value n _ _ = Some _ |- _ => apply IHv in E
    | E : parse_elements n _ _ = Some _ |- _ => apply IHe in E
    | E : parse_members n _ _ = Some _ |- _ => apply IHm in E
    end; parse_len.
Qed.

Lemma bind_ext {A B} (x y : option A) (f g : A -> option B) :
  x = y -> (forall a, y = Some a -> f a = g a) -> (x ≫= f) = (y ≫= g).
Proof. intros -> Hf. destruct y as [a|]; [|done]. by apply Hf. Qed.

(** The fuel does not matter once there are two steps per character: the parser
    always comes to an answer. *)
Lemma parse_enough n :
  (forall m d s, (2 * String.length s < n -> 2 * String.length s < m ->
     parse_value n d s = parse_value m d s)%nat)
  /\ (forall m d s, (2 * String.length s + 1 < n -> 2 * String.length s + 1 < m ->
     parse_elements n d s = parse_elements m d s)%nat)
  /\ (forall m d s, (2 * String.length s + 1 < n -> 2 * String.length s + 1 < m ->
     parse_members n d s = parse_members m d s)%nat).
Proof.
  induction n as [|n (IHv & IHe & IHm)]; [split_and!; lia|].
  split_and!; intros [|m] d s Hn Hm; try lia; cbn [parse_value parse_elements parse_members].
  - destruct (skip_space s) as [|c r] eqn:E; [done|].
    repeat case_bool_decide; try done; destruct (d <=? 0); try done;
      destruct (strip_prefix _ (skip_space r)); try done; apply bind_ext; try done.
    + apply IHm; parse_len.
    + apply IHe; parse_len.
  - apply bind_ext; [apply IHv; lia|]. intros [v r] Hv. apply (proj1 (parse_consumes m)) in Hv.
    destruct (skip_space r) as [|c r'] eqn:E; [done|]. case_bool_decide; [|done].
    apply bind_ext; [apply IHe; parse_len|done].
  - destruct (skip_space s) as [|c r] eqn:E; [done|]. case_bool_decide; [|done].
    apply bind_ext; [done|]. intros [k r1] Hk. apply bind_ext; [done|]. intros r2 Hr2.
    assert (String.length r2 + 2 <= String.length s)%nat as Hl by parse_len.
    apply bind_ext; [apply IHv; lia|]. intros [v r3] Hv. apply (proj1 (parse_consumes m)) in Hv.
    destruct (skip_space r3) as [|c' r4] eqn:E'; [done|]. case_bool_decide; [|done].
    apply bind_ext; [|done]. clear E. apply IHm; parse_len.
Qed.

(** ** Printing *)

(** The escape of an ASCII character; [<], [>] and [&] are escaped too. *)
Definition escape_json (c : ascii) : string :=
  let z := code c in
  if (z =? 34) || (z =? 92) then String backslash (String c EmptyString)
  else if z =? 8 then "\b" else if z =? 12 then "\f" else if z =? 10 then "\n"
  else if z =? 13 then "\r" else if z =? 9 then "\t"
  else if (z <? 32) || (z =? 60) || (z =? 62) || (z =? 38) then "\u00" +:+ hex2 z
  else String c EmptyString.

Fixpoint encode_body (k : nat) (s : string) : string :=
  match s with
  | EmptyString => EmptyString
  | String c r =>
      match k with
      | S k => String c (encode_body k r)
      | O =>
          if code c <? 128 then escape_json c +:+ encode_body 0 r
          else
            let other := match utf8_tail c r with
                         | Some n => String c (encode_body n r)
                         | None => "\ufffd" +:+ encode_body 0 r
                         end in
            match r with
            | String c1 (String c2 r2) =>
                (* U+2028 and U+2029 *)
                if (code c =? 226) && (code c1 =? 128) && between 168 169 c2
                then "\u202" +:+ String (digit (code c2 - 160)) (encode_body 0 r2) else other
            | _ => other
            end
      end
  end.

Definition encode_string (s : string) : string := String dquote (encode_body 0 s +:+ String dquote EmptyString).

(** [json.Marshal]. *)
Fixpoint print_json (j : json) : string :=
  match j with
  | JNull => "null"
  | JBool true => "true"
  | JBool false => "false"
  | JNumber x => x
  | JString s => encode_string s
  | JArray l => "[" +:+ String.concat "," (map print_json l) +:+ "]"
  | JObject l => "{" +:+ String.concat "," (map (fun kv => encode_string kv.1 +:+ ":" +:+ print_json kv.2) l) +:+ "}"
  end%string.

(** How deep arrays and objects nest. *)
Fixpoint json_depth (j : json) : Z :=
  match j with
  | JArray l => 1 + foldr Z.max 0 (map json_depth l)
  | JObject l => 1 + foldr Z.max 0 (map (fun kv => json_depth kv.2) l)
  | _ => 0
  end.

Definition is_ascii (c : ascii) : bool := code c <? 128.

(** Values whose strings are ASCII and whose numbers are whole literals. *)
Fixpoint plain_json (j : json) : bool :=
  match j with
  | JNull | JBool _ => true
  | JNumber x => bool_decide (scan_number x = Some (x, EmptyString))
  | JString s => str_all is_ascii s
  | JArray l => forallb plain_json l
  | JObject l => forallb (fun kv => str_all is_ascii kv.1 && plain_json kv.2) l
  end.

(** ** Reading back what was printed *)

Lemma escape_json_cases c : is_ascii c = true ->
  (escape_json c = String c EmptyString /\ c <> dquote /\ c <> backslash /\ 32 <= code c)
  \/ (exists e, escape_json c = String backslash (String e EmptyString) /\ unescape e = Some c /\ e <> "u"%char)
  \/ (exists h l, escape_json c = String backslash (String "u" (String "0" (String "0" (String h (String l EmptyString)))))
        /\ hex4 "0" "0" h l = Some (code c)).
Proof.
  destruct c as [[] [] [] [] [] [] [] []]; try done; intros _; vm_compute escape_json;
    first [left; by split_and!|right; left; eexists; by split_and!|right; right; do 2 eexists; by split].
Qed.

Lemma scan_encoded s r : str_all is_ascii s = true ->
  scan_string (encode_body 0 s +:+ String dquote r) = Some (encode_body 0 s, r).
Proof.
  induction s as [|c s IH]; [done|]. cbn [str_all encode_body]. intros [Hc Hs]%andb_prop.
  specialize (IH Hs). unfold is_ascii in Hc. rewrite Hc.
  destruct (escape_json_cases c Hc) as [(-> & H1 & H2 & H3)|[(e & -> & He & Hu)|(h & l & -> & Hx)]];
    rewrite ?append_cons, ?append_nil; cbn [scan_string].
  - rewrite !bool_decide_false by done. rewrite (proj2 (Z.ltb_ge _ _)) by done. by rewrite IH.
  - rewrite bool_decide_false, bool_decide_true, bool_decide_false, He by done. cbn [mbind option_bind]. by rewrite IH.
  - rewrite bool_decide_false, !bool_decide_true, Hx by done. cbn [mbind option_bind]. by rewrite IH.
Qed.

Lemma unquote_encoded s : str_all is_ascii s = true -> unquote 0 (encode_body 0 s) = s.
Proof.
  induction s as [|c s IH]; [done|]. cbn [str_all encode_body]. intros [Hc Hs]%andb_prop.
  specialize (IH Hs). unfold is_ascii in Hc. rewrite Hc.
  destruct (escape_json_cases c Hc) as [(-> & H1 & H2 & H3)|[(e & -> & He & Hu)|(h & l & -> & Hx)]];
    rewrite ?append_cons, ?append_nil; cbn [unquote].
  - rewrite bool_decide_false by done. unfold utf8_tail. by rewrite Hc, IH.
  - rewrite bool_decide_true, bool_decide_false, He by done. cbn [default]. by rewrite IH.
  - rewrite !bool_decide_true, Hx by done. cbn [default from_option id].
    assert (is_surrogate (code c) = false) as -> by (unfold is_surrogate; go_bool; apply andb_false_iff; left; lia).
    unfold encode_rune. rewrite Hc. cbn [of_bytes fold_right]. rewrite append_cons, append_nil, IH. f_equal.
    unfold char_of, code. rewrite Nat2Z.id. apply ascii_nat_embedding.
Qed.

(** A text that does not continue a number. *)
Definition stops (s : string) : bool :=
  match s with
  | String c _ => negb (is_digit c) && negb (bool_decide (c = "."%char \/ c = "e"%char \/ c = "E"%char))
  | EmptyString => true
  end.

Lemma dec_digits_app fuel z a b : dec_digits fuel z (a +:+ b) = dec_digits fuel z a +:+ b.
Proof.
  revert z a. induction fuel as [|fuel IH]; intros z a; [done|]. cbn [dec_digits].
  destruct (z <? 10); [done|]. rewrite <- IH. done.
Qed.

Lemma take_dec_digits fuel z a b r : 0 <= z ->
  take_digits a = (b, r) -> take_digits (dec_digits fuel z a) = (dec_digits fuel z b, r).
Proof.
  revert z a b. induction fuel as [|fuel IH]; intros z a b Hz Ha; [done|]. cbn [dec_digits].
  assert (take_digits (String (digit (z mod 10)) a) = (String (digit (z mod 10)) b, r)) as Hd.
  { cbn [take_digits]. pose proof (Z.mod_pos_bound z 10). destruct (digit_spec (z mod 10)) as [-> _]; [lia|]. by rewrite Ha. }
  destruct (z <? 10); [done|]. apply IH; [apply Z.div_pos; lia|done].
Qed.

Lemma dec_digits_no_zero fuel z a : 0 < z -> z < 2 ^ Z.of_nat fuel ->
  exists d s, dec_digits fuel z a = String (digit d) s /\ 1 <= d < 10.
Proof.
  revert z a. induction fuel as [|fuel IH]; intros z a Hz Hf; [cbn in Hf; lia|]. cbn [dec_digits].
  destruct (z <? 10) eqn:E.
  - exists (z mod 10), a. split; [done|]. apply Z.ltb_lt in E. rewrite Z.mod_small by lia. lia.
  - apply Z.ltb_ge in E. pose proof (Z.div_mod z 10). pose proof (Z.mod_pos_bound z 10).
    apply IH; [lia|]. rewrite Nat2Z.inj_succ, Z.pow_succ_r in Hf by lia. apply Z.div_lt_upper_bound; lia.
Qed.

Lemma stops_digits s : stops s = true -> take_digits s = (EmptyString, s).
Proof. destruct s as [|c s]; [done|]. cbn. destruct (is_digit c); [done|]. done. Qed.

Lemma stops_number s : stops s = true -> scan_fraction s = Some (EmptyString, s) /\ scan_exponent s = Some (EmptyString, s).
Proof.
  destruct s as [|c s]; [done|]. cbn [stops scan_fraction scan_exponent]. intros [_ Hc]%andb_prop.
  apply negb_true_iff, bool_decide_eq_false in Hc.
  by rewrite !bool_decide_false by intuition.
Qed.

Lemma scan_format_nonneg z r : 0 <= z -> stops r = true ->
  scan_unsigned (dec_digits (dec_fuel z) z "" +:+ r) = Some (dec_digits (dec_fuel z) z "", r).
Proof.
  intros Hz Hr. destruct (stops_number r Hr) as [Hf He].
  rewrite <- dec_digits_app, append_nil. destruct (Z.eq_dec z 0) as [->|Hne].
  { change (dec_digits (dec_fuel 0) 0 r) with (String "0" r). cbn [scan_unsigned].
    rewrite bool_decide_true by done. change (is_digit "0") with true. cbv iota beta.
    rewrite Hf. cbn [mbind option_bind]. by rewrite He. }
  pose proof (dec_fuel_enough z Hz) as Hfuel.
  pose proof (take_dec_digits (dec_fuel z) z r "" r Hz (stops_digits r Hr)) as Ht.
  destruct (dec_digits_no_zero (dec_fuel z) z r) as (d & s & Hs & Hd); [lia|done|].
  destruct (digit_spec d) as [Hdig Hval]; [lia|]. rewrite Hs in *. cbn [scan_unsigned]. rewrite Hdig.
  rewrite bool_decide_false.
  2: { intros H0. unfold digit_val in Hval. rewrite H0 in Hval. vm_compute in Hval. lia. }
  rewrite Ht. cbv iota beta. rewrite Hf. cbn [mbind option_bind]. rewrite He. cbn [mbind option_bind]. do 2 f_equal.
  clear. induction (dec_digits (dec_fuel z) z "") as [|c s' IH]; [done|]. by rewrite append_cons, IH.
Qed.

Lemma scan_format z r : stops r = true -> scan_number (format_int z +:+ r) = Some (format_int z, r).
Proof.
  intros Hr. unfold format_int. destruct (z <? 0) eqn:E.
  - rewrite append_cons. cbn [scan_number]. rewrite bool_decide_true by done.
    rewrite scan_format_nonneg by (done || go_lia). done.
  - destruct (dec_digits_head (dec_fuel z) z "") as (c & s & Hs & Hc); [go_lia|done|].
    rewrite Hs, append_cons. cbn [scan_number]. rewrite bool_decide_false by by apply is_digit_not.
    rewrite <- append_cons, <- Hs. apply scan_format_nonneg; [go_lia|done].
Qed.

(** ** Literals

    A number the parser accepts starts with a digit, after a minus at most. *)

Definition number_start (x : string) : bool :=
  match x with String c r => is_digit c || (bool_decide (c = "-"%char) && starts_digit r) | EmptyString => false end.

Lemma scan_unsigned_start s a r : scan_unsigned s = Some (a, r) -> starts_digit a = true.
Proof.
  destruct s as [|c s]; [done|]. cbn [scan_unsigned]. destruct (is_digit c) eqn:Hc; [|done]. intros H.
  assert (exists w r1, (if bool_decide (c = "0"%char) then (String c EmptyString, s) else take_digits (String c s)) = (String c w, r1))
    as (w & r1 & Hw).
  { case_bool_decide; [by eexists _, _|]. cbn [take_digits]. rewrite Hc. destruct (take_digits s). by eexists _, _. }
  rewrite Hw in H. apply bind_Some in H as ([f r2] & _ & H). apply bind_Some in H as ([x r3] & _ & H).
  simplify_eq. by rewrite append_cons.
Qed.

Lemma scan_number_start s a r : scan_number s = Some (a, r) -> number_start a = true.
Proof.
  destruct s as [|c s]; [done|]. cbn [scan_number]. case_bool_decide as Hc.
  - intros ([d r'] & Hd & ?)%bind_Some. simplify_eq. apply scan_unsigned_start in Hd. cbn. by rewrite Hd.
  - intros Hd%scan_unsigned_start. destruct a as [|x a]; [done|]. cbn in *. by rewrite Hd.
Qed.

(** ** Round trip *)

Lemma parse_string_value fuel d s r : str_all is_ascii s = true ->
  parse_value (S fuel) d (encode_string s +:+ r) = Some (JString s, r).
Proof.
  intros Hs. unfold encode_string. rewrite append_cons, append_assoc. cbn [parse_value].
  change (skip_space (String dquote ?x)) with (String dquote x). cbv iota beta.
  rewrite !(bool_decide_false (dquote = _)) by done. rewrite bool_decide_true by done.
  rewrite append_cons, append_nil, scan_encoded by done. cbn [mbind option_bind].
  by rewrite unquote_encoded.
Qed.

(** A scan of a whole literal stops where the literal ends. *)
Lemma take_digits_stop s d r k : take_digits s = (d, r) -> starts_digit k = false ->
  take_digits (s +:+ k) = (d, r +:+ k).
Proof.
  revert d r. induction s as [|c s IH]; intros d r Hs Hk.
  { cbn in Hs. simplify_eq. rewrite !append_nil. destruct k as [|c k]; [done|]. cbn in Hk |- *. by rewrite Hk. }
  rewrite append_cons. cbn [take_digits] in *. destruct (is_digit c); [|by simplify_eq; rewrite append_cons].
  destruct (take_digits s) as [d' r']. simplify_eq. by rewrite (IH d' r).
Qed.

Lemma take_digits_app a r : str_all is_digit a = true -> starts_digit r = false -> take_digits (a +:+ r) = (a, r).
Proof.
  intros Ha Hr. induction a as [|c a IH].
  { rewrite append_nil. destruct r as [|c r]; [done|]. cbn in *. by rewrite Hr. }
  cbn in Ha. apply andb_prop in Ha as [Hc Ha]. rewrite append_cons. cbn [take_digits]. by rewrite Hc, IH.
Qed.


Lemma starts_digit_app s k : starts_digit s = true -> starts_digit (s +:+ k) = true.
Proof. by destruct s. Qed.

Lemma stops_not_digit k : stops k = true -> starts_digit k = false.
Proof. destruct k as [|c k]; [done|]. cbn. by destruct (is_digit c). Qed.

Lemma scan_fraction_stop s a r k : scan_fraction s = Some (a, r) -> stops k = true ->
  scan_fraction (s +:+ k) = Some (a, r +:+ k).
Proof.
  intros Hs Hk. destruct s as [|c s].
  { cbn in Hs. simplify_eq. rewrite !append_nil. by apply stops_number. }
  rewrite append_cons. cbn [scan_fraction] in *. case_bool_decide; [|by simplify_eq; rewrite append_cons].
  destruct (starts_digit s) eqn:E; [|done]. rewrite starts_digit_app by done.
  destruct (take_digits s) as [d r'] eqn:Et. simplify_eq. by rewrite (take_digits_stop _ _ _ _ Et) by by apply stops_not_digit.
Qed.

Lemma scan_exponent_stop s a r k : scan_exponent s = Some (a, r) -> stops k = true ->
  scan_exponent (s +:+ k) = Some (a, r +:+ k).
Proof.
  intros Hs Hk. destruct s as [|c s].
  { cbn in Hs. simplify_eq. rewrite !append_nil. by apply stops_number. }
  rewrite append_cons. cbn [scan_exponent] in *. case_bool_decide; [|by simplify_eq; rewrite append_cons].
  destruct s as [|d s]; [done|]. rewrite append_cons. case_bool_decide.
  - destruct (starts_digit s) eqn:E; [|done]. rewrite starts_digit_app by done.
    destruct (take_digits s) as [x r'] eqn:Et. simplify_eq. by rewrite (take_digits_stop _ _ _ _ Et) by by apply stops_not_digit.
  - destruct (is_digit d) eqn:E; [|done]. rewrite <-append_cons.
    destruct (take_digits (String d s)) as [x r'] eqn:Et. simplify_eq. by rewrite (take_digits_stop _ _ _ _ Et) by by apply stops_not_digit.
Qed.

Lemma scan_unsigned_stop s a r k : scan_unsigned s = Some (a, r) -> stops k = true ->
  scan_unsigned (s +:+ k) = Some (a, r +:+ k).
Proof.
  intros Hs Hk. destruct s as [|c s]; [done|]. rewrite append_cons. cbn [scan_unsigned] in *.
  destruct (is_digit c); [|done].
  assert (exists w r1, (if bool_decide (c = "0"%char) then (String c EmptyString, s) else take_digits (String c s)) = (w, r1)
    /\ (if bool_decide (c = "0"%char) then (String c EmptyString, s +:+ k) else take_digits (String c (s +:+ k))) = (w, r1 +:+ k))
    as (w & r1 & Hw & Hw').
  { case_bool_decide; [by eexists _, _|]. rewrite <-append_cons. destruct (take_digits (String c s)) as [d r'] eqn:Et.
    eexists _, _. split; [done|]. apply take_digits_stop; [done|by apply stops_not_digit]. }
  rewrite Hw in Hs. rewrite Hw'. apply bind_Some in Hs as ([f r2] & Hf & Hs). apply bind_Some in Hs as ([x r3] & Hx & Hs).
  simplify_eq. rewrite (scan_fraction_stop _ _ _ _ Hf) by done. cbn [mbind option_bind].
  by rewrite (scan_exponent_stop _ _ _ _ Hx) by done.
Qed.

Lemma scan_number_stop s a r k : scan_number s = Some (a, r) -> stops k = true ->
  scan_number (s +:+ k) = Some (a, r +:+ k).
Proof.
  intros Hs Hk. destruct s as [|c s]; [done|]. rewrite append_cons. cbn [scan_number] in *. case_bool_decide.
  - apply bind_Some in Hs as ([d r'] & Hd & Hs). simplify_eq. by rewrite (scan_unsigned_stop _ _ _ _ Hd) by done.
  - rewrite <-append_cons. by apply scan_unsigned_stop.
Qed.

Lemma number_head x : number_start x = true -> exists c s, x = String c s /\ is_num_char c = true.
Proof.
  destruct x as [|c s]; [done|]. cbn. intros H. exists c, s. split; [done|]. unfold is_num_char.
  apply orb_prop in H as [->|[-> _]%andb_prop]; [done|by rewrite orb_true_r].
Qed.

Lemma parse_number_value fuel d x r : scan_number x = Some (x, EmptyString) -> stops r = true ->
  parse_value (S fuel) d (x +:+ r) = Some (JNumber x, r).
Proof.
  intros Hx Hr. pose proof (scan_number_stop _ _ _ r Hx Hr) as Hs. rewrite append_nil in Hs.
  destruct (number_head x (scan_number_start _ _ _ Hx)) as (c & t & Ht & Hc). clear Hx.
  rewrite Ht, append_cons in *. cbn [parse_value].
  assert (code c = 45 \/ 48 <= code c <= 57) as Hcode.
  { unfold is_num_char, is_digit in Hc. apply orb_prop in Hc as [Hc|Hc%bool_decide_eq_true]; [|by subst c; left]. go_bool. lia. }
  assert (skip_space (String c (t +:+ r)) = String c (t +:+ r)) as ->.
  { cbn [skip_space]. unfold json_space. rewrite bool_decide_false by lia. done. }
  repeat match goal with |- context [bool_decide (c = ?x)] =>
    rewrite (bool_decide_false (c = x)) by (intros ->; by vm_compute in Hc)
  end.
  by rewrite Hs.
Qed.

(** The texts of the elements after the first, or of the end. *)
Lemma concat_cons sep x l :
  String.concat sep (x :: l) = match l with [] => x | _ => x +:+ sep +:+ String.concat sep l end.
Proof. by destruct l. Qed.

Lemma length_app_str a b : String.length (a +:+ b) = (String.length a + String.length b)%nat.
Proof. induction a as [|c a IH]; [done|]. rewrite append_cons. cbn [String.length]. lia. Qed.

(** What the round trip says of one value. *)
Definition reads_back (j : json) : Prop := forall d r,
  plain_json j = true -> json_depth j <= d -> stops r = true ->
  forall n, (2 * String.length (print_json j +:+ r) < n)%nat ->
  parse_value n d (print_json j +:+ r) = Some (j, r).

Lemma parse_elements_print l : Forall reads_back l -> l <> [] -> forall d r,
  forallb plain_json l = true -> foldr Z.max 0 (map json_depth l) <= d ->
  forall n, (2 * String.length (String.concat "," (map print_json l) +:+ "]" +:+ r) + 1 < n)%nat ->
  parse_elements n d (String.concat "," (map print_json l) +:+ "]" +:+ r) = Some (l, r).
Proof.
  induction 1 as [|j l Hj Hl IH]; [done|]. intros _ d r [Hp Hpl]%andb_prop Hd n Hn. cbn [map foldr] in Hd.
  destruct n as [|n]; [lia|]. cbn [parse_elements map]. cbn [map] in Hn. rewrite concat_cons in *.
  destruct l as [|j' l].
  - cbn [map] in *. rewrite (Hj d) by (done || lia). cbn [mbind option_bind].
    change (skip_space ("]" +:+ r)) with (String "]" r). cbv iota beta.
    rewrite bool_decide_false, bool_decide_true by done. done.
  - cbn [map] in *. rewrite !append_assoc in *. set (rest := String.concat _ _ +:+ _) in *.
    rewrite (Hj d ("," +:+ rest)) by (done || lia). cbn [mbind option_bind].
    change (skip_space ("," +:+ rest)) with (String "," rest). cbv iota beta.
    rewrite bool_decide_true by done. subst rest. rewrite IH; [done|done|done|lia|].
    rewrite !length_app_str in *. cbn [String.length] in *. lia.
Qed.

Lemma parse_members_print (l : list (string * json)) : Forall (fun kv => reads_back kv.2) l -> l <> [] -> forall d r,
  forallb (fun kv => str_all is_ascii kv.1 && plain_json kv.2) l = true ->
  foldr Z.max 0 (map (fun kv => json_depth kv.2) l) <= d ->
  let text := (String.concat "," (map (fun kv => encode_string kv.1 +:+ ":" +:+ print_json kv.2) l) +:+ "}" +:+ r)%string in
  forall n, (2 * String.length text + 1 < n)%nat -> parse_members n d text = Some (l, r).
Proof.
  induction 1 as [|[k j] l Hj Hl IH]; [done|]. intros _ d r Hp Hd text n Hn. subst text.
  cbn [forallb map foldr fst snd] in *. apply andb_prop in Hp as [[Hk Hp]%andb_prop Hpl].
  destruct n as [|n]; [lia|]. cbn [parse_members]. rewrite concat_cons in *.
  set (tail := match map _ l with [] => _ | _ => _ end) in *.
  assert (exists rest, (tail +:+ "}" +:+ r = encode_string k +:+ ":" +:+ print_json j +:+ rest)%string
    /\ match l with
       | [] => rest = String "}" r
       | _ => rest = ("," +:+ (String.concat "," (map (fun kv => encode_string kv.1 +:+ ":" +:+ print_json kv.2) l) +:+ "}" +:+ r))%string
       end) as (rest & Ht & Hrest).
  { subst tail. destruct l as [|kv l]; eexists; (split; [|reflexivity]); cbn [map]; by rewrite !append_assoc. }
  rewrite Ht in *. clear Ht tail. unfold encode_string at 1. unfold encode_string in Hn.
  repeat (rewrite append_cons in * || rewrite append_nil in * || rewrite append_assoc in *).
  change (skip_space (String dquote ?x)) with (String dquote x). cbv iota beta.
  rewrite bool_decide_true, scan_encoded by done. cbn [mbind option_bind].
  change (strip_prefix ":" (skip_space (String ":" ?x))) with (Some x). cbn [mbind option_bind].
  cbn [String.length] in Hn. rewrite !length_app_str in Hn. cbn [String.length] in Hn. rewrite ?length_app_str in Hn.
  rewrite (Hj d); [|done|lia|by destruct l; subst rest|rewrite length_app_str; lia].
  cbn [mbind option_bind]. rewrite unquote_encoded by done. destruct l as [|kv l]; subst rest.
  - change (skip_space (String "}" r)) with (String "}" r). cbv iota beta.
    by rewrite bool_decide_false, bool_decide_true by done.
  - set (rest := (_ +:+ String "}" r)%string) in *.
    change (skip_space (String "," rest)) with (String "," rest). cbv iota beta.
    rewrite bool_decide_true by done. unfold rest.
    rewrite <- (append_nil r) at 1. rewrite <- append_cons, IH; [done|done|done|lia|].
    rewrite append_cons, append_nil. fold rest. cbn [String.length] in Hn. lia.
Qed.

Lemma plain_int z : plain_json (JNumber (format_int z)) = true.
Proof. apply bool_decide_eq_true. by rewrite <-(app_empty_r (format_int z)) at 1; apply scan_format. Qed.

(** A printed value starts with neither a space nor a closing bracket. *)
Lemma print_head j : plain_json j = true ->
  exists c t, print_json j = String c t /\ json_space c = false /\ c <> "]"%char.
Proof.
  destruct j as [|[]|x|s|l|l]; cbn [print_json]; intros Hp; try (by eexists _, _).
  apply bool_decide_eq_true, scan_number_start, number_head in Hp as (c & t & -> & Hc).
  exists c, t. split; [done|]. assert (c <> "]"%char) by (intros ->; by vm_compute in Hc).
  split; [|done]. unfold json_space. apply bool_decide_eq_false. intros Hs.
  unfold is_num_char, is_digit in Hc. apply orb_prop in Hc as [Hc|Hc%bool_decide_eq_true]; [go_bool; lia|].
  subst c. by vm_compute in Hs; destruct Hs as [?|[?|[?|?]]].
Qed.

Lemma parse_print_value j : reads_back j.
Proof.
  induction j as [|b|x|s|l Hl|l Hl] using json_nested_ind; intros d r Hp Hd Hr [|n] Hn; try lia.
  - done.
  - by destruct b.
  - apply bool_decide_eq_true in Hp. by apply parse_number_value.
  - by apply parse_string_value.
  - cbn [plain_json json_depth print_json] in *.
    assert (0 <= foldr Z.max 0 (map json_depth l)) by (clear; induction l; cbn; lia).
    rewrite !append_assoc in *. change ("[" +:+ ?x) with (String "[" x) in *. cbn [parse_value].
    change (skip_space (String "[" ?x)) with (String "[" x). cbv iota beta.
    rewrite bool_decide_false, bool_decide_true by done. destruct (d <=? 0) eqn:Ed; [go_lia|].
    destruct l as [|j l]; [done|].
    assert (strip_prefix "]" (skip_space (String.concat "," (map print_json (j :: l)) +:+ "]" +:+ r)) = None) as ->.
    { cbn [forallb] in Hp. apply andb_prop in Hp as [Hj _]. apply print_head in Hj as (c & t & Ht & Hc & Hne).
      cbn [map]. rewrite concat_cons, Ht. destruct (map print_json l); rewrite !append_cons; cbn [skip_space];
        rewrite Hc; cbn [strip_prefix]; by rewrite bool_decide_false by congruence. }
    rewrite parse_elements_print; [done|done|done|done|lia|cbn [String.length] in Hn; lia].
  - cbn [plain_json json_depth print_json] in *.
    assert (0 <= foldr Z.max 0 (map (fun kv => json_depth kv.2) l)) by (clear; induction l; cbn; lia).
    rewrite !append_assoc in *. change ("{" +:+ ?x) with (String "{" x) in *. cbn [parse_value].
    change (skip_space (String "{" ?x)) with (String "{" x). cbv iota beta.
    rewrite bool_decide_true by done. destruct (d <=? 0) eqn:Ed; [go_lia|].
    destruct l as [|[k j] l]; [done|].
    set (f := fun kv : string * json => (encode_string kv.1 +:+ ":" +:+ print_json kv.2)%string) in *.
    assert (strip_prefix "}" (skip_space (String.concat "," (map f ((k, j) :: l)) +:+ "}" +:+ r)) = None) as ->.
    { cbn [map]. rewrite concat_cons. by destruct (map f l). }
    subst f. rewrite parse_members_print; [done|done|done|done|lia|cbn [String.length] in Hn; lia].
Qed.

(** Printing a value and parsing the text gives the value back. *)
Lemma parse_print j : plain_json j = true -> json_depth j <= max_depth -> parse_json (print_json j) = Some j.
Proof.
  intros Hp Hd. unfold parse_json, json_fuel. pose proof (parse_print_value j max_depth "" Hp Hd) as H.
  rewrite app_empty_r in H. rewrite H; [done|done|lia].
Qed.

(** ** Literals of parsed values *)

Fixpoint json_ok (j : json) : bool :=
  match j with
  | JNumber x => number_start x
  | JArray l => forallb json_ok l
  | JObject l => forallb (fun kv => json_ok kv.2) l
  | _ => true
  end.

Lemma parse_ok n :
  (forall d s v r, parse_value n d s = Some (v, r) -> json_ok v = true)
  /\ (forall d s v r, parse_elements n d s = Some (v, r) -> forallb json_ok v = true)
  /\ (forall d s v r, parse_members n d s = Some (v, r) -> forallb (fun kv => json_ok kv.2) v = true).
Proof.
  induction n as [|n (IHv & IHe & IHm)]; [split_and!; intros; done|].
  split_and!; intros d s v r H; cbn [parse_value parse_elements parse_members] in H; parse_inv H;
    repeat match goal with
    | E : parse_value n _ _ = Some _ |- _ => apply IHv in E
    | E : parse_elements n _ _ = Some _ |- _ => apply IHe in E
    | E : parse_members n _ _ = Some _ |- _ => apply IHm in E
    | E : scan_number _ = Some _ |- _ => apply scan_number_start in E
    end; cbn; rewrite ?andb_true_r; try done; by apply andb_true_intro.
Qed.

Lemma parse_first_ok s j : parse_first s = Some j -> json_ok j = true.
Proof. unfold parse_first. intros ([v r] & Hp & ->)%fmap_Some. by eapply parse_ok. Qed.

Lemma parse_json_ok s j : parse_json s = Some j -> json_ok j = true.
Proof.
  unfold parse_json. intros ([v r] & Hp & H)%bind_Some. case_bool_decide; simplify_eq. by eapply parse_ok.
Qed.
