(* ===== verification/GoDecode.v ===== *)
(** * Decoding JSON into Go values

    [Unmarshal] and [Decoder.Decode] by type.  A decoder takes the JSON value and the Go value
    already in place and gives the new one, or nothing on a type mismatch
    (the package goes on decoding then, but what it decoded is dropped by the
    callers, who look at the error first).  The texts of the package's
    errors are left open. *)

From Stdlib Require Import Ascii SpecFloat.
From S2P Require Import Prelude GoInt GoFloat GoString GoCodec GoNum GoJson.

Definition decoder (A : Type) : Type := json -> A -> option A.

(** ** Scalars *)

Definition dec_bool : decoder bool := fun j old =>
  match j with JNull => Some old | JBool b => Some b | _ => None end.

Definition dec_string : decoder string := fun j old =>
  match j with JNull => Some old | JString s => Some s | _ => None end.

(** [int], [int64], [int32]: an integer literal in range. *)
Definition dec_int (bits : Z) : decoder Z := fun j old =>
  match j with JNull => Some old | JNumber x => parse_int bits x | _ => None end.

Definition dec_uint (bits : Z) : decoder Z := fun j old =>
  match j with JNull => Some old | JNumber x => parse_uint bits x | _ => None end.

Definition dec_float : decoder f64 := fun j old =>
  match j with
  | JNull => Some old
  | JNumber x => match parse_float x with FloatOk f => Some f | _ => None end
  | _ => None
  end.

(** ** Compound values *)

(** A pointer: [null] makes it nil, another value is decoded behind it. *)
Definition dec_ptr {A} (zero : A) (d : decoder A) : decoder (option A) := fun j old =>
  match j with JNull => Some None | _ => Some <$> d j (default zero old) end.

(** [json.RawMessage] keeps the value for later; nil without one. *)
Definition dec_raw : decoder (option json) := fun j _ => Some (Some j).

Fixpoint dec_elements {A} (zero : A) (d : decoder A) (old : list A) (l : list json) : option (list A) :=
  match l with
  | [] => Some []
  | j :: l => a ← d j (hd zero old); rest ← dec_elements zero d (tl old) l; Some (a :: rest)
  end.

(** A slice: the elements are decoded over the old ones. *)
Definition dec_slice {A} (zero : A) (d : decoder A) : decoder (list A) := fun j old =>
  match j with JNull => Some [] | JArray l => dec_elements zero d old l | _ => None end.

(** A map: [null] makes it nil, members are added. *)
Definition dec_map {A} (zero : A) (d : decoder A) : decoder (gmap string A) := fun j old =>
  match j with
  | JNull => Some ∅
  | JObject l => foldl (fun m kv => m ← m; a ← d kv.2 zero; Some (<[kv.1 := a]> m)) (Some old) l
  | _ => None
  end.

(** The folding of keys: ASCII case, and the two letters outside ASCII that
    fold to ASCII ones (U+017F and U+212A). *)
Fixpoint fold_key (s : string) : string :=
  match s with
  | EmptyString => EmptyString
  | String c r =>
      match r with
      | String c1 r1 =>
          if (code c =? 197) && (code c1 =? 191) then String "s" (fold_key r1)
          else match r1 with
               | String c2 r2 =>
                   if (code c =? 226) && (code c1 =? 132) && (code c2 =? 170) then String "k" (fold_key r2)
                   else String (lower_char c) (fold_key r)
               | EmptyString => String (lower_char c) (fold_key r)
               end
      | EmptyString => String (lower_char c) EmptyString
      end
  end.

(** The field of a key: an exact match first, then one up to case. *)
Definition find_field {F} (fields : list (string * F)) (key : string) : option F :=
  match List.find (fun f => bool_decide (f.1 = key)) fields with
  | Some f => Some f.2
  | None => snd <$> List.find (fun f => bool_decide (fold_key f.1 = fold_key key)) fields
  end.

(** A struct: each member in turn is decoded over its field. *)
Definition dec_struct {A} (fields : list (string * decoder A)) : decoder A := fun j old =>
  match j with
  | JNull => Some old
  | JObject l =>
      foldl (fun a kv => a ← a; match find_field fields kv.1 with Some d => d kv.2 a | None => Some a end) (Some old) l
  | _ => None
  end.

(** A field of a struct, by its accessors. *)
Definition field {S A} (get : S -> A) (set : A -> S -> S) (d : decoder A) : decoder S := fun j s =>
  a ← d j (get s); Some (set a s).

(** ** Texts and errors *)

Class JsonErrors := {
  (** [Unmarshal] of a text that is not one value *)
  json_syntax_error : string -> error;
  (** [Decode] of a stream without a value, which ended or failed *)
  json_stream_error : string -> option error -> error;
  (** a value of the wrong type *)
  json_type_error : string -> error
}.

(** Fixed texts for the errors of the JSON package, for evaluation. *)
Definition plain_json_errors : JsonErrors := {|
  json_syntax_error _ := errOther "invalid JSON"; json_stream_error _ e := default (errOther "EOF") e;
  json_type_error _ := errOther "json: cannot unmarshal" |}.

Section texts.
Context `{JsonErrors} {A : Type} (d : decoder A) (zero : A).

Definition Unmarshal (text : string) : result A :=
  match parse_json text with
  | Some j => match d j zero with Some a => Ok a | None => Err (json_type_error text) end
  | None => Err (json_syntax_error text)
  end.

Definition Decode (text : string) (readErr : option error) : result A :=
  match parse_first text with
  | Some j => match d j zero with Some a => Ok a | None => Err (json_type_error text) end
  | None => Err (json_stream_error text readErr)
  end.
End texts.

(** ** Bounds of what is decoded *)

Lemma dec_uint_range bits j z : dec_uint bits j 0 = Some z -> 0 <= bits -> 0 <= z < 2 ^ bits.
Proof.
  destruct j; cbn; intros Hz Hb; simplify_eq; [|by apply parse_uint_range in Hz].
  split; [lia|]. apply Z.pow_pos_nonneg; lia.
Qed.


(** ** Properties that decoding keeps *)

(** [Q] holds of what is decoded from a parsed text, if it held before. *)
Definition keeps {A} (Q : A -> Prop) (d : decoder A) : Prop :=
  forall j old a, json_ok j = true -> Q old -> d j old = Some a -> Q a.

Lemma keeps_float : keeps (fun x => ~ is_nan x) dec_float.
Proof.
  intros j old x Hj Hold Hx. destruct j as [| |lit| | |]; cbn [dec_float] in Hx; simplify_eq; [done|].
  destruct (parse_float lit) as [y|y|] eqn:E; simplify_eq. revert E. cbn [json_ok] in Hj. unfold parse_float.
  assert (forall u, starts_digit u = true -> forall sign neg,
    (if bool_decide (to_lower u = "inf"%string) || bool_decide (to_lower u = "infinity"%string) then FloatOk (S754_infinity neg)
     else if bool_decide (to_lower u = "nan"%string) && bool_decide (sign = @None bool) then FloatOk S754_nan
     else parse_decimal neg u) = FloatOk x -> ~ is_nan x) as Hu.
  { intros u Hd sign neg. destruct u as [|c u]; [done|]. cbn [starts_digit] in Hd. cbn [to_lower].
    assert (lower_char c = c) as -> by (unfold lower_char, is_digit in *; go_bool; destruct (65 <=? code c) eqn:E; [go_lia|done]).
    rewrite !bool_decide_false by (intros [= -> _]; by vm_compute in Hd). cbn [orb andb]. apply parse_decimal_notnan. }
  destruct lit as [|c r]; [done|]. cbn [number_start] in Hj. case_bool_decide as Hm.
  - subst c. cbn [andb] in Hj. change (is_digit "-") with false in Hj. by apply Hu.
  - cbn [andb] in Hj. rewrite orb_false_r in Hj. rewrite bool_decide_false by (intros ->; by vm_compute in Hj). by apply Hu.
Qed.

Lemma keeps_elements {A} (Q : A -> Prop) zero (d : decoder A) : keeps Q d -> Q zero -> forall l old out,
  forallb json_ok l = true -> Forall Q old -> dec_elements zero d old l = Some out -> Forall Q out.
Proof.
  intros Hd Hz. induction l as [|j l IH]; intros old out Hl Hold H; cbn in H; [simplify_eq; constructor|].
  apply andb_prop in Hl as [Hj Hl]. apply bind_Some in H as (a & Ha & H). apply bind_Some in H as (rest & Hr & H). simplify_eq.
  constructor; [eapply Hd; [done| |done]|eapply IH; [done| |done]]; destruct Hold; cbn; try done; constructor.
Qed.

Lemma keeps_slice {A} (Q : A -> Prop) zero (d : decoder A) : keeps Q d -> Q zero -> keeps (Forall Q) (dec_slice zero d).
Proof.
  intros Hd Hz j old out Hj Hold H. destruct j; cbn in *; simplify_eq; [constructor|]. by eapply keeps_elements.
Qed.

Lemma keeps_map {A} (Q : A -> Prop) zero (d : decoder A) : keeps Q d -> Q zero ->
  keeps (map_Forall (fun _ => Q)) (dec_map zero d).
Proof.
  intros Hd Hz j old out Hj Hold H. destruct j as [| | | | |l]; cbn in *; simplify_eq; [apply map_Forall_empty|].
  revert old Hold H. induction l as [|[k v] l IH]; intros old Hold H; cbn [foldl] in H; [by simplify_eq|].
  cbn in Hj. apply andb_prop in Hj as [Hv Hl]. cbn [mbind option_bind fst snd] in H.
  destruct (d v zero) as [a|] eqn:Ea; cbn [mbind option_bind] in H.
  - apply IH in H; [done|done|]. apply map_Forall_insert_2; [by eapply Hd|done].
  - exfalso. clear -H. induction l; cbn in H; [done|by apply IHl].
Qed.

Lemma find_field_in {F} (fields : list (string * F)) key f : find_field fields key = Some f -> exists k, (k, f) ∈ fields.
Proof.
  unfold find_field. destruct (List.find _ fields) as [[k f']|] eqn:E.
  - intros [= <-]. apply List.find_some in E as [Hin _]. exists k. by apply list_elem_of_In.
  - intros ([k f'] & E' & ->)%fmap_Some. apply List.find_some in E' as [Hin _]. exists k. by apply list_elem_of_In.
Qed.

Lemma keeps_struct {A} (Q : A -> Prop) (fields : list (string * decoder A)) :
  Forall (fun f => keeps Q f.2) fields -> keeps Q (dec_struct fields).
Proof.
  intros Hf j old out Hj Hold H. destruct j as [| | | | |l]; cbn in *; simplify_eq; [done|].
  revert old Hold H. induction l as [|[k v] l IH]; intros old Hold H; cbn [foldl] in H; [by simplify_eq|].
  cbn in Hj. apply andb_prop in Hj as [Hv Hl]. cbn [mbind option_bind fst snd] in H.
  destruct (find_field fields k) as [d|] eqn:Ed; [|by eapply IH].
  destruct (d v old) as [a|] eqn:Ea.
  - apply find_field_in in Ed as [k' Hin]. rewrite Forall_forall in Hf. eapply IH; [done| |done].
    by eapply (Hf (k', d)).
  - exfalso. clear -H. induction l; cbn in H; [done|by apply IHl].
Qed.

Lemma keeps_Unmarshal `{JsonErrors} {A} (Q : A -> Prop) (d : decoder A) zero text a :
  keeps Q d -> Q zero -> Unmarshal d zero text = Ok a -> Q a.
Proof.
  intros Hd Hz. unfold Unmarshal. destruct (parse_json text) as [j|] eqn:E; [|done]. destruct (d j zero) eqn:Ed; [|done].
  intros [= <-]. eapply Hd; [by eapply parse_json_ok|done|done].
Qed.

Lemma keeps_Decode `{JsonErrors} {A} (Q : A -> Prop) (d : decoder A) zero text e a :
  keeps Q d -> Q zero -> Decode d zero text e = Ok a -> Q a.
Proof.
  intros Hd Hz. unfold Decode. destruct (parse_first text) as [j|] eqn:E; [|done]. destruct (d j zero) eqn:Ed; [|done].
  intros [= <-]. eapply Hd; [by eapply parse_first_ok|done|done].
Qed.
