(* ===== verification/GoHttp.v ===== *)
(** * HTTP and JSON

    What the cloud clients use of [net/http] and [encoding/json].  The JSON
    text of a value is identified with the value; what matters is when encoding
    fails: on a time whose year does not have four digits and on a float that
    is not finite. *)

From Stdlib Require Import SpecFloat.
From S2P Require Import Prelude GoInt GoFloat GoString.

(** An HTTP client: the default one, with its timeout, or the caller's. *)
Inductive httpClient := DefaultHTTPClient (timeout : Duration) | CallerHTTPClient (id : nat).

(** [time.Time.MarshalJSON] rejects years outside 0 to 9999; a [Time] counts
    nanoseconds from year 1, and year 0 is the 366 days before. *)
Definition json_time_ok (t : Time) : bool :=
  (- (366 * 24 * Hour) <=? t) && (t <? 3652059 * 24 * Hour).

Definition json_float_ok (x : f64) : bool :=
  match x with S754_zero _ | S754_finite _ _ _ => true | _ => false end.

(** The errors [json.Marshal] gives otherwise. *)
Definition json_time_error : error :=
  errOther "json: error calling MarshalJSON for type time.Time: Time.MarshalJSON: year outside of range [0,9999]".
Definition json_float_error : error := errOther "json: unsupported value".

(** A 2xx status. *)
Definition status_ok (status : Z) : bool := (200 <=? status) && (status <? 300).
