(* ===== verification/GoTime.v ===== *)
(** * Dates and RFC 3339

    How [time.Time] is written in JSON: the proleptic Gregorian calendar and the
    layout [2006-01-02T15:04:05.999999999Z07:00], printed in the time's own zone
    and read back strictly, as [Time.MarshalJSON] and [Time.UnmarshalJSON] do. *)

From Stdlib Require Import Ascii.
From S2P Require Import Prelude GoInt GoFloat GoString GoCodec GoNum GoJson GoHttp.

Definition Day : Duration := 24 * Hour.

(** [t.UnixNano()]: nanoseconds since 1970, wrapped to an int64. *)
Definition time_UnixNano (t : Time) : Z := wrap64 (t - 62135596800 * Second).

(** ** The calendar

    Day 0 is January 1 of year 1, the zero time. *)

Definition is_leap (y : Z) : bool := (y mod 4 =? 0) && (negb (y mod 100 =? 0) || (y mod 400 =? 0)).

Definition year_days (y : Z) : Z := if is_leap y then 366 else 365.

(** The days before January 1. *)
Definition days_before_year (y : Z) : Z := 365 * (y - 1) + (y - 1) / 4 - (y - 1) / 100 + (y - 1) / 400.

(** The year of a day and the day in the year, by cycles of 400, 100, 4 and one
    year; the last year of a cycle of 400 or 4 has one day more. *)
Definition year_of_day (day : Z) : Z * Z :=
  let n400 := day / 146097 in
  let r400 := day mod 146097 in
  let n100 := Z.min 3 (r400 / 36524) in
  let r100 := r400 - 36524 * n100 in
  let n4 := r100 / 1461 in
  let r4 := r100 mod 1461 in
  let n1 := Z.min 3 (r4 / 365) in
  (1 + 400 * n400 + 100 * n100 + 4 * n4 + n1, r4 - 365 * n1).

Lemma year_of_day_spec day :
  let '(y, yd) := year_of_day day in days_before_year y + yd = day /\ 0 <= yd < year_days y.
Proof.
  unfold year_of_day.
  pose proof (Z.div_mod day 146097 ltac:(lia)). pose proof (Z.mod_pos_bound day 146097 ltac:(lia)).
  set (n400 := day / 146097) in *. set (r400 := day mod 146097) in *.
  pose proof (Z.div_mod r400 36524 ltac:(lia)). pose proof (Z.mod_pos_bound r400 36524 ltac:(lia)).
  assert (0 <= r400 / 36524 <= 4) by lia.
  set (n100 := Z.min 3 (r400 / 36524)). set (r100 := r400 - 36524 * n100).
  assert (0 <= n100 <= 3 /\ 0 <= r100 <= 36524 /\ (r100 = 36524 -> n100 = 3)) as (Hn100 & Hr100 & Hr100') by lia.
  pose proof (Z.div_mod r100 1461 ltac:(lia)). pose proof (Z.mod_pos_bound r100 1461 ltac:(lia)).
  assert (0 <= r100 / 1461 <= 24) by lia.
  set (n4 := r100 / 1461) in *. set (r4 := r100 mod 1461) in *.
  pose proof (Z.div_mod r4 365 ltac:(lia)). pose proof (Z.mod_pos_bound r4 365 ltac:(lia)).
  assert (0 <= r4 / 365 <= 4) by lia.
  set (n1 := Z.min 3 (r4 / 365)) in *. set (yd := r4 - 365 * n1).
  assert (0 <= n1 <= 3 /\ 0 <= yd <= 365 /\ (yd = 365 -> n1 = 3)) as (Hn1 & Hyd & Hyd') by lia.
  set (y := 1 + _ + _ + _ + _).
  assert ((y - 1) / 4 = 100 * n400 + 25 * n100 + n4) as E4 by (symmetry; apply Z.div_unique with n1; lia).
  assert ((y - 1) / 100 = 4 * n400 + n100) as E100 by (symmetry; apply Z.div_unique with (4 * n4 + n1); lia).
  assert ((y - 1) / 400 = n400) as E400 by (symmetry; apply Z.div_unique with (100 * n100 + 4 * n4 + n1); lia).
  split; [unfold days_before_year; rewrite E4, E100, E400; lia|].
  split; [lia|]. unfold year_days. destruct (Z.eq_dec yd 365) as [E|E]; [|destruct (is_leap y); lia].
  specialize (Hyd' E). assert (is_leap y = true) as ->; [|lia]. unfold is_leap.
  assert (y mod 4 = 0) as ->.
  { symmetry. apply Z.mod_unique with (1 + 100 * n400 + 25 * n100 + n4); lia. }
  rewrite Z.eqb_refl. cbn [andb]. destruct (Z.eq_dec n4 24) as [E24|E24].
  - assert (n100 = 3) as E3 by lia.
    assert (y mod 400 = 0) as ->; [symmetry; apply Z.mod_unique with (1 + n400); lia|]. by rewrite orb_true_r.
  - assert (y mod 100 = 4 * n4 + 4) as ->.
    { symmetry. apply Z.mod_unique with (4 * n400 + n100); lia. }
    assert ((4 * n4 + 4 =? 0) = false) as -> by (apply Z.eqb_neq; lia). done.
Qed.

Definition month_lengths (leap : bool) : list Z :=
  [31; if leap then 29 else 28; 31; 30; 31; 30; 31; 31; 30; 31; 30; 31].

(** The month, counted from [m], and the day in it. *)
Fixpoint month_of (lens : list Z) (m yd : Z) : Z * Z :=
  match lens with
  | [] => (m, yd)
  | len :: lens => if yd <? len then (m, yd) else month_of lens (m + 1) (yd - len)
  end.

Definition month_length (y m : Z) : Z := nth (Z.to_nat (m - 1)) (month_lengths (is_leap y)) 0.

Definition days_before_month (y m : Z) : Z :=
  fold_right Z.add 0 (take (Z.to_nat (m - 1)) (month_lengths (is_leap y))).

(** Year, month and day of a day number, and back. *)
Definition civil_of_days (day : Z) : Z * Z * Z :=
  let '(y, yd) := year_of_day day in
  let '(m, d) := month_of (month_lengths (is_leap y)) 1 yd in
  (y, m, d + 1).

Definition days_of_civil (y m d : Z) : Z := days_before_year y + days_before_month y m + (d - 1).

Lemma month_of_spec lens m0 yd :
  0 <= yd < fold_right Z.add 0 lens -> Forall (Z.lt 0) lens ->
  let '(m, d) := month_of lens m0 yd in
  exists i, m = m0 + Z.of_nat i /\ (i < length lens)%nat
    /\ fold_right Z.add 0 (take i lens) + d = yd /\ 0 <= d < nth i lens 0.
Proof.
  intros Hyd Hl. revert m0 yd Hyd. induction Hl as [|len lens Hlen Hl IH]; intros m0 yd Hyd; [cbn in Hyd; lia|].
  cbn [month_of]. cbn in Hyd. destruct (yd <? len) eqn:E.
  - exists 0%nat. cbn. split_and!; go_lia.
  - specialize (IH (m0 + 1) (yd - len)). destruct (month_of lens (m0 + 1) (yd - len)) as [m d].
    destruct IH as (i & -> & Hi & Hd & Hb); [go_lia|]. exists (S i). cbn. split_and!; lia.
Qed.

Lemma civil_of_days_spec day :
  let '(y, m, d) := civil_of_days day in
  days_of_civil y m d = day /\ 1 <= m <= 12 /\ 1 <= d <= month_length y m.
Proof.
  unfold civil_of_days. pose proof (year_of_day_spec day) as Hy. destruct (year_of_day day) as [y yd].
  destruct Hy as [Hd Hyd]. pose proof (month_of_spec (month_lengths (is_leap y)) 1 yd) as Hm.
  destruct (month_of _ 1 yd) as [m d]. destruct Hm as (i & -> & Hi & Hs & Hb).
  - unfold year_days in Hyd. by destruct (is_leap y).
  - destruct (is_leap y); repeat constructor.
  - unfold days_of_civil, days_before_month, month_length. replace (Z.to_nat (1 + Z.of_nat i - 1)) with i by lia.
    assert (length (month_lengths (is_leap y)) = 12%nat) as Hlen by (by destruct (is_leap y)).
    split_and!; lia.
Qed.

(** The years of JSON are those of four digits. *)
Lemma json_time_year t : json_time_ok t = true ->
  let '(y, m, d) := civil_of_days (t / Day) in 0 <= y <= 9999.
Proof.
  unfold json_time_ok. intros [H1%Z.leb_le H2%Z.ltb_lt]%andb_prop. change (24 * Hour) with Day in H1, H2.
  assert (-366 <= t / Day < 3652059) as Hd.
  { split; [apply Z.div_le_lower_bound|apply Z.div_lt_upper_bound]; unfold Day in *; lia. }
  revert Hd. clear. generalize (t / Day). intros day Hd. unfold civil_of_days. pose proof (year_of_day_spec day) as Hy.
  destruct (year_of_day day) as [y yd]. destruct (month_of _ 1 yd) as [m d]. destruct Hy as [Hy Hyd].
  unfold days_before_year in Hy. assert (0 <= yd < 366) by (unfold year_days in Hyd; destruct (is_leap y); lia).
  pose proof (Z.div_mod (y - 1) 4 ltac:(lia)). pose proof (Z.mod_pos_bound (y - 1) 4 ltac:(lia)).
  pose proof (Z.div_mod (y - 1) 100 ltac:(lia)). pose proof (Z.mod_pos_bound (y - 1) 100 ltac:(lia)).
  pose proof (Z.div_mod (y - 1) 400 ltac:(lia)). pose proof (Z.mod_pos_bound (y - 1) 400 ltac:(lia)).
  split.
  - destruct (Z.le_gt_cases 0 y); [done|]. destruct (Z.eq_dec y (-1)) as [->|]; [change (year_days (-1)) with 365 in Hyd; change ((-1 - 1) / 4) with (-1) in *; change ((-1 - 1) / 100) with (-1) in *; change ((-1 - 1) / 400) with (-1) in *; lia|].
    assert ((y - 1) / 4 <= -1) by lia. assert ((y - 1) / 100 <= -1) by lia. assert ((y - 1) / 400 <= -1) by lia. lia.
  - destruct (Z.le_gt_cases y 9999); [done|].
    assert ((y - 1) / 4 >= 2499) by lia. assert ((y - 1) / 400 >= 24) by lia. lia.
Qed.

(** ** Zones

    The offset of the local zone from UTC at an instant, in minutes.  A time
    read from the clock is printed in the local zone; its instant is what a
    [Time] is. *)
Class Zone := {
  zone_minutes : Time -> Z;
  zone_range : forall t, -1440 < zone_minutes t < 1440
}.

Program Definition utc_zone : Zone := {| zone_minutes := fun _ => 0 |}.
Next Obligation. intros. lia. Qed.

(** ** Printing *)

(** A fraction of [k] digits without its trailing zeros. *)
Fixpoint trim_zeros (k : nat) (v : Z) : nat * Z :=
  match k with
  | O => (O, v)
  | S k' => if v mod 10 =? 0 then trim_zeros k' (v / 10) else (k, v)
  end.

Definition fraction_text (ns : Z) : string :=
  match trim_zeros 9 ns with
  | (O, _) => ""
  | (k, v) => "." +:+ fixed_digits k v ""
  end.

Definition zone_text (off : Z) : string :=
  if off =? 0 then "Z"
  else (if off <? 0 then "-" else "+") +:+ fixed_digits 2 (Z.abs off / 60) "" +:+ ":" +:+ fixed_digits 2 (Z.abs off mod 60) "".

Definition clock_text (rest : Z) : string :=
  fixed_digits 2 (rest / Hour) "" +:+ ":" +:+ fixed_digits 2 (rest / Minute mod 60) "" +:+ ":"
  +:+ fixed_digits 2 (rest / Second mod 60) "" +:+ fraction_text (rest mod Second).

Definition date_text (day : Z) : string :=
  let '(y, m, d) := civil_of_days day in
  fixed_digits 4 y "" +:+ "-" +:+ fixed_digits 2 m "" +:+ "-" +:+ fixed_digits 2 d "".

(** The time [t] in a zone [off] minutes from UTC, its year having four digits. *)
Definition rfc3339 (off : Z) (t : Time) : string :=
  let local := t + off * Minute in
  date_text (local / Day) +:+ "T" +:+ clock_text (local mod Day) +:+ zone_text off.

(** ** Parsing *)

(** Exactly [n] digits, a number from [lo] to [hi]. *)
Fixpoint take_exactly (n : nat) (s : string) (acc : Z) : option (Z * string) :=
  match n, s with
  | O, _ => Some (acc, s)
  | S n, String c r => if is_digit c then take_exactly n r (10 * acc + digit_val c) else None
  | S _, EmptyString => None
  end.

Definition number_in (n : nat) (lo hi : Z) (s : string) : option (Z * string) :=
  '(z, r) ← take_exactly n s 0; if (lo <=? z) && (z <=? hi) then Some (z, r) else None.

(** [parseNanoseconds]: digits beyond the ninth are dropped. *)
Definition parse_fraction (s : string) : option (Z * string) :=
  match s with
  | String c r =>
      if bool_decide (c = "."%char) && starts_digit r then
        let '(d, r) := take_digits r in
        let d := String.substring 0 9 d in
        z ← parse_digits d 0; Some (z * 10 ^ (9 - str_len d), r)
      else Some (0, s)
  | EmptyString => Some (0, s)
  end.

Definition parse_zone (s : string) : option Z :=
  match s with
  | String c r =>
      if bool_decide (c = "Z"%char) then if bool_decide (r = EmptyString) then Some 0 else None
      else if bool_decide (c = "+"%char) || bool_decide (c = "-"%char) then
        '(hh, r) ← number_in 2 0 23 r; r ← strip_prefix ":" r; '(mm, r) ← number_in 2 0 59 r;
        if bool_decide (r = EmptyString)
        then Some (if bool_decide (c = "-"%char) then - (hh * 60 + mm) else hh * 60 + mm) else None
      else None
  | EmptyString => None
  end.

Definition parse_rfc3339 (s : string) : option Time :=
  '(y, s) ← number_in 4 0 9999 s; s ← strip_prefix "-" s;
  '(m, s) ← number_in 2 1 12 s; s ← strip_prefix "-" s;
  '(d, s) ← number_in 2 1 (month_length y m) s; s ← strip_prefix "T" s;
  '(hh, s) ← number_in 2 0 23 s; s ← strip_prefix ":" s;
  '(mm, s) ← number_in 2 0 59 s; s ← strip_prefix ":" s;
  '(ss, s) ← number_in 2 0 59 s;
  '(ns, s) ← parse_fraction s;
  off ← parse_zone s;
  Some (days_of_civil y m d * Day + hh * Hour + mm * Minute + ss * Second + ns - off * Minute).

(** ** Reading back what was printed *)

Lemma take_exactly_fixed n z r acc a :
  0 <= z < 10 ^ Z.of_nat n ->
  take_exactly (n + String.length a) (fixed_digits n z a +:+ r) acc
  = take_exactly (String.length a) (a +:+ r) (acc * 10 ^ Z.of_nat n + z).
Proof.
  revert z acc a. induction n as [|n IH]; intros z acc a Hz.
  { cbn in *. f_equal. lia. }
  rewrite Nat2Z.inj_succ, Z.pow_succ_r in * by lia. cbn [fixed_digits].
  pose proof (Z.mod_pos_bound z 10 ltac:(lia)). pose proof (Z.div_mod z 10 ltac:(lia)).
  replace (S n + String.length a)%nat with (n + String.length (String (digit (z mod 10)) a))%nat by (cbn; lia).
  rewrite IH by (split; [apply Z.div_pos; lia|apply Z.div_lt_upper_bound; lia]).
  cbn [String.length]. rewrite append_cons. cbn [take_exactly].
  destruct (digit_spec (z mod 10)) as [-> ->]; [lia|]. f_equal. lia.
Qed.

Lemma number_fixed n lo hi z r :
  lo <= z <= hi -> 0 <= z < 10 ^ Z.of_nat n -> number_in n lo hi (fixed_digits n z "" +:+ r) = Some (z, r).
Proof.
  intros Hr Hz. unfold number_in. pose proof (take_exactly_fixed n z r 0 "" Hz) as Ht.
  cbn [String.length] in Ht. rewrite Nat.add_0_r, append_nil in Ht. rewrite Ht. cbn [take_exactly mbind option_bind].
  rewrite Z.mul_0_l, Z.add_0_l, (proj2 (Z.leb_le _ _)), (proj2 (Z.leb_le _ _)) by lia. done.
Qed.

Lemma trim_zeros_spec k v : 0 <= v < 10 ^ Z.of_nat k ->
  let '(k', v') := trim_zeros k v in
  (k' <= k)%nat /\ 0 <= v' < 10 ^ Z.of_nat k' /\ v = v' * 10 ^ (Z.of_nat k - Z.of_nat k').
Proof.
  revert v. induction k as [|k IH]; intros v Hv; [cbn in *; split_and!; lia|]. cbn [trim_zeros].
  destruct (v mod 10 =? 0) eqn:E; [|split_and!; [lia..|]; rewrite Z.sub_diag; lia].
  rewrite Nat2Z.inj_succ, Z.pow_succ_r in Hv by lia. pose proof (Z.div_mod v 10 ltac:(lia)). apply Z.eqb_eq in E.
  specialize (IH (v / 10)). destruct (trim_zeros k (v / 10)) as [k' v'].
  destruct IH as (Hk & Hv' & Heq); [split; [apply Z.div_pos; lia|apply Z.div_lt_upper_bound; lia]|].
  split_and!; [lia..|]. rewrite Nat2Z.inj_succ. replace (Z.succ (Z.of_nat k) - Z.of_nat k') with (Z.succ (Z.of_nat k - Z.of_nat k')) by lia.
  rewrite Z.pow_succ_r by lia. lia.
Qed.

Lemma substring_short n s : (String.length s <= n)%nat -> String.substring 0 n s = s.
Proof.
  revert n. induction s as [|c s IH]; intros [|n] Hn; cbn in *; [done|done|lia|]. by rewrite IH by lia.
Qed.

Lemma zone_text_start off : starts_digit (zone_text off) = false /\ (forall s, zone_text off <> String "." s).
Proof. unfold zone_text. destruct (off =? 0); [done|]. by destruct (off <? 0). Qed.

Lemma parse_fraction_text ns off : 0 <= ns < Second ->
  parse_fraction (fraction_text ns +:+ zone_text off) = Some (ns, zone_text off).
Proof.
  intros Hns. destruct (zone_text_start off) as [Hz Hd]. unfold fraction_text.
  pose proof (trim_zeros_spec 9 ns Hns) as Ht. destruct (trim_zeros 9 ns) as [k v]. destruct Ht as (Hk & Hv & Heq).
  destruct k as [|k].
  { rewrite append_nil. cbn in Hv. assert (ns = 0) as -> by lia. unfold parse_fraction. specialize (Hd).
    destruct (zone_text off) as [|c r] eqn:E; [done|]. case_bool_decide; [|done]. subst c. by destruct (Hd r). }
  set (n := S k) in *. rewrite append_assoc. unfold parse_fraction.
  change ("." +:+ ?x) with (String "." x). cbv beta iota.
  assert (str_all is_digit (fixed_digits n v "") = true) as Ha by by apply fixed_digits_all.
  pose proof (fixed_digits_length n v "") as Hlen. rewrite Nat.add_0_r in Hlen.
  assert (starts_digit (fixed_digits n v "" +:+ zone_text off) = true) as ->.
  { destruct (fixed_digits n v "") as [|c r]; [done|]. rewrite append_cons. by apply andb_prop in Ha as [? _]. }
  rewrite bool_decide_true by done. cbn [andb].
  rewrite take_digits_app by done. cbv beta iota zeta. rewrite substring_short by lia.
  rewrite fixed_digits_spec by done. cbn [parse_digits mbind option_bind]. unfold str_len. rewrite Hlen.
  do 3 f_equal. rewrite Heq, Z.mul_0_l. done.
Qed.

Lemma parse_zone_text off : -1440 < off < 1440 -> parse_zone (zone_text off) = Some off.
Proof.
  intros Ho. unfold zone_text. destruct (off =? 0) eqn:E0; [apply Z.eqb_eq in E0 as ->; done|].
  pose proof (Z.div_mod (Z.abs off) 60 ltac:(lia)). pose proof (Z.mod_pos_bound (Z.abs off) 60 ltac:(lia)).
  set (hh := fixed_digits 2 (Z.abs off / 60) ""). set (mm := fixed_digits 2 (Z.abs off mod 60) "").
  assert (forall c, (number_in 2 0 23 (hh +:+ ":" +:+ mm) ≫= fun '(h, r) => r ← strip_prefix ":" r; '(m, r) ← number_in 2 0 59 r;
    if bool_decide (r = EmptyString) then Some (if bool_decide (c = "-"%char) then - (h * 60 + m) else h * 60 + m) else None)
    = Some (if bool_decide (c = "-"%char) then - Z.abs off else Z.abs off)) as Hn.
  { intros c. unfold hh. rewrite number_fixed by lia. cbn [mbind option_bind].
    change (strip_prefix ":" (":" +:+ mm)) with (Some mm). cbn [mbind option_bind].
    unfold mm. rewrite <-(app_empty_r (fixed_digits 2 _ "")), number_fixed by lia. cbn [mbind option_bind].
    rewrite bool_decide_true by done. case_bool_decide; f_equal; lia. }
  destruct (off <? 0) eqn:E.
  - change ("-" +:+ ?x) with (String "-" x). specialize (Hn "-"%char). cbn [parse_zone].
    change (bool_decide ("-"%char = "Z"%char)) with false. change (bool_decide ("-"%char = "+"%char)) with false.
    change (bool_decide ("-"%char = "-"%char)) with true in *. cbn [orb]. cbv iota in Hn |- *. rewrite Hn. f_equal. go_lia.
  - change ("+" +:+ ?x) with (String "+" x). specialize (Hn "+"%char). cbn [parse_zone].
    change (bool_decide ("+"%char = "Z"%char)) with false. change (bool_decide ("+"%char = "+"%char)) with true.
    change (bool_decide ("+"%char = "-"%char)) with false in *. cbn [orb]. cbv iota in Hn |- *. rewrite Hn. f_equal. go_lia.
Qed.

Lemma strip_app p r : strip_prefix p (p +:+ r) = Some r.
Proof. by apply strip_prefix_spec. Qed.

(** What is printed of a time is read back as the same instant. *)
Lemma rfc3339_roundtrip off t :
  -1440 < off < 1440 -> json_time_ok (t + off * Minute) = true -> parse_rfc3339 (rfc3339 off t) = Some t.
Proof.
  intros Ho Hok. unfold rfc3339. pose proof (json_time_year _ Hok) as Hy. clear Hok.
  set (local := t + off * Minute) in *. pose proof (Z.div_mod local Day ltac:(done)) as Hl.
  pose proof (Z.mod_pos_bound local Day ltac:(done)) as Hr. revert Hl Hr Hy.
  generalize (local / Day) as day, (local mod Day) as rest. intros day rest Hl Hr Hy.
  pose proof (civil_of_days_spec day) as Hc. unfold date_text. destruct (civil_of_days day) as [[y m] d].
  destruct Hc as (Hday & Hm & Hd).
  assert (month_length y m <= 31) as Hml.
  { unfold month_length. assert (forall n, nth n (month_lengths (is_leap y)) 0 <= 31); [|done].
    intros n. do 12 (destruct n as [|n]; [destruct (is_leap y); vm_compute; discriminate|]). by destruct n. }
  change Day with 86400000000000 in *. unfold clock_text.
  change Hour with 3600000000000 in *. change Minute with 60000000000 in *. change Second with 1000000000 in *.
  pose proof (Z.div_mod rest 3600000000000 ltac:(done)). pose proof (Z.mod_pos_bound rest 3600000000000 ltac:(done)).
  pose proof (Z.div_mod rest 60000000000 ltac:(done)). pose proof (Z.mod_pos_bound rest 60000000000 ltac:(done)).
  pose proof (Z.div_mod rest 1000000000 ltac:(done)). pose proof (Z.mod_pos_bound rest 1000000000 ltac:(done)).
  pose proof (Z.div_mod (rest / 60000000000) 60 ltac:(done)). pose proof (Z.mod_pos_bound (rest / 60000000000) 60 ltac:(done)).
  pose proof (Z.div_mod (rest / 1000000000) 60 ltac:(done)). pose proof (Z.mod_pos_bound (rest / 1000000000) 60 ltac:(done)).
  assert (10 ^ Z.of_nat 2 = 100 /\ 10 ^ Z.of_nat 4 = 10000) as [] by done.
  rewrite !append_assoc. unfold parse_rfc3339.
  change Day with 86400000000000. change Hour with 3600000000000. change Minute with 60000000000. change Second with 1000000000.
  repeat (rewrite number_fixed by lia; cbn [mbind option_bind]; try (rewrite strip_app; cbn [mbind option_bind])).
  rewrite parse_fraction_text by (change Second with 1000000000; lia). cbn [mbind option_bind].
  rewrite parse_zone_text by done. cbn [mbind option_bind]. f_equal. rewrite Hday. lia.
Qed.

(** The zero time, and an afternoon in a zone with a fraction of a second. *)
Example rfc3339_zero : rfc3339 0 zero_time = "0001-01-01T00:00:00Z"%string.
Proof. vm_compute. reflexivity. Qed.

Example rfc3339_local :
  rfc3339 (-210) (days_of_civil 2024 2 29 * Day + 15 * Hour + 4 * Minute + 5 * Second + 120 * Millisecond)
  = "2024-02-29T11:34:05.12-03:30"%string.
Proof. vm_compute. reflexivity. Qed.
