(* ===== verification/GoFloatText.v ===== *)
(** * Printing floats

    The text [encoding/json] gives a [float64]: the shortest decimal that reads
    back as the same float, in positional notation from 1e-6 up to 1e21 and with
    an exponent outside ([strconv.AppendFloat] with precision -1).  Every finite
    float is read back as itself ([parse_format_float]). *)

From Stdlib Require Import Ascii SpecFloat.
From S2P Require Import Prelude GoInt GoFloat GoString GoCodec GoNum GoJson.

(** ** Reading an exact decimal *)

Lemma Zdigits2_shift m j : 0 <= j -> Zdigits2 (Z.pos m * 2 ^ j) = Z.pos (digits2_pos m) + j.
Proof.
  intros Hj. pose proof (digits2_pos_spec m) as [Hlo Hhi]. pose proof (Z.pow_pos_nonneg 2 j).
  apply Z.le_antisymm.
  - apply Zdigits2_upper; [lia|]. rewrite Z.pow_add_r by lia. split; [lia|]. apply Z.mul_lt_mono_pos_r; lia.
  - apply Zlt_succ_le, Z.lt_succ_r. pose proof (Zdigits2_bounds (Z.pos m * 2 ^ j) (Z.pos (digits2_pos m) - 1 + j)) as H'.
    rewrite Z.pow_add_r in H' by lia. specialize (H' ltac:(lia) ltac:(apply Z.mul_le_mono_nonneg_r; lia)). lia.
Qed.

(** Rounding the exact value of a valid float changes nothing. *)
Lemma round_aux_exact s m e j : f64_valid (S754_finite s m e) = true -> 0 <= j ->
  binary_round_aux 53 1024 s (Z.pos m * 2 ^ j) (e - j) loc_Exact = S754_finite s m e.
Proof.
  intros [Hv He]%f64_valid_finite Hj. unfold binary_round_aux. pose proof (Z.pow_pos_nonneg 2 j).
  pose proof (shr_fexp_exact (Z.pos m * 2 ^ j) (e - j) ltac:(lia)) as H1.
  rewrite Zdigits2_shift in H1 by done. replace (Z.pos (digits2_pos m) + j + (e - j)) with (Z.pos (digits2_pos m) + e) in H1 by lia.
  rewrite Hv in H1. replace (Z.max 0 (e - (e - j))) with j in H1 by lia.
  destruct (shr_fexp _ _ _ _ _) as [mrs e1]. destruct H1 as (-> & Hm & Hl).
  rewrite Z.div_mul in Hm by lia. rewrite Hm, Hl by (by rewrite Z.mod_mul by lia). cbn [round_nearest_even].
  replace (e - j + j) with e by lia.
  pose proof (shr_fexp_exact (Z.pos m) e ltac:(lia)) as H2. cbn [Zdigits2] in H2. rewrite Hv, Z.sub_diag in H2.
  destruct (shr_fexp _ _ _ _ _) as [mrs2 e2]. destruct H2 as (-> & -> & _).
  change (Z.pos m / 2 ^ Z.max 0 0) with (Z.pos m / 1). rewrite Z.div_1_r, Z.add_0_r. change (1024 - 53) with 971.
  by rewrite (proj2 (Z.leb_le _ _)).
Qed.

(** [a] is [b] times the value of [m * 2 ^ e]. *)
Definition scaled (a b m e : Z) : Prop := a * 2 ^ Z.max 0 (- e) = b * m * 2 ^ Z.max 0 e.

Lemma scaled_digits a b m e : scaled (Z.pos a) (Z.pos b) (Z.pos m) e ->
  Z.pos (digits2_pos a) <= Z.pos (digits2_pos b) + Z.pos (digits2_pos m) + e
  /\ (b = 1%positive -> Z.pos (digits2_pos a) = Z.pos (digits2_pos m) + e).
Proof.
  unfold scaled. intros Hs. pose proof (digits2_pos_spec a) as [Ha1 Ha2]. pose proof (digits2_pos_spec b) as [_ Hb].
  pose proof (digits2_pos_spec m) as [Hm1 Hm2].
  set (da := Z.pos (digits2_pos a)) in *. set (db := Z.pos (digits2_pos b)) in *. set (dm := Z.pos (digits2_pos m)) in *.
  assert (1 <= da /\ 1 <= db /\ 1 <= dm) as (? & ? & ?) by lia.
  set (x := Z.max 0 (- e)) in *. set (y := Z.max 0 e) in *. assert (e = y - x) as He by lia.
  assert (0 <= x /\ 0 <= y) as [Hx Hy] by lia. clearbody da db dm x y.
  pose proof (Z.pow_pos_nonneg 2 x). pose proof (Z.pow_pos_nonneg 2 y). split.
  - assert (2 ^ (da - 1 + x) < 2 ^ (db + dm + y)) as Hlt.
    { rewrite !Z.pow_add_r by lia. eapply Z.le_lt_trans; [apply Z.mul_le_mono_nonneg_r; [lia|exact Ha1]|].
      rewrite Hs. apply Z.mul_lt_mono_pos_r; [lia|]. apply Z.mul_lt_mono_nonneg; lia. }
    apply Z.pow_lt_mono_r_iff in Hlt; lia.
  - intros ->. apply Z.le_antisymm.
    + assert (2 ^ (da - 1 + x) < 2 ^ (dm + y)) as Hlt; [|apply Z.pow_lt_mono_r_iff in Hlt; lia].
      rewrite !Z.pow_add_r by lia. eapply Z.le_lt_trans; [apply Z.mul_le_mono_nonneg_r; [lia|exact Ha1]|].
      rewrite Hs. apply Z.mul_lt_mono_pos_r; lia.
    + assert (2 ^ (dm - 1 + y) < 2 ^ (da + x)) as Hlt; [|apply Z.pow_lt_mono_r_iff in Hlt; lia].
      rewrite !Z.pow_add_r by lia. eapply Z.le_lt_trans; [apply Z.mul_le_mono_nonneg_r; [lia|exact Hm1]|].
      rewrite Z.mul_1_l in Hs. rewrite <-Hs. apply Z.mul_lt_mono_pos_r; lia.
Qed.

Lemma binary_round_exact s a m e : f64_valid (S754_finite s m e) = true -> scaled (Z.pos a) 1 (Z.pos m) e ->
  binary_round 53 1024 s a 0 = S754_finite s m e.
Proof.
  intros Hv Hs. pose proof (proj2 (scaled_digits a 1 m e Hs) eq_refl) as Hd. unfold scaled in Hs. rewrite Z.mul_1_l in Hs.
  unfold binary_round. rewrite Z.add_0_r, Hd. pose proof Hv as [Hf _]%f64_valid_finite. rewrite Hf.
  pose proof (shl_align_spec a 0 e) as H. destruct (shl_align _ _ _) as [m1 e1]. destruct H as (He1 & Hm1 & _).
  destruct (Z.le_gt_cases 0 e).
  - rewrite Z.max_l, Z.max_r in Hs by lia. rewrite Z.min_l in He1 by lia. subst e1. rewrite Z.sub_0_r, Z.pow_0_r in *.
    rewrite Hm1, Hs. replace 0 with (e - e) by lia. apply round_aux_exact; [done|lia].
  - rewrite Z.max_r, Z.max_l in Hs by lia. rewrite Z.min_r in He1 by lia. subst e1.
    replace (0 - e) with (- e) in Hm1 by lia. rewrite Hm1, Hs.
    replace e with (e - 0) at 1 by lia. apply round_aux_exact; [done|lia].
Qed.

Lemma f64_div_exact s a b m e : f64_valid (S754_finite s m e) = true -> scaled (Z.pos a) (Z.pos b) (Z.pos m) e ->
  f64_div (S754_finite s a 0) (S754_finite false b 0) = S754_finite s m e.
Proof.
  intros Hv Hs. pose proof (proj1 (scaled_digits a b m e Hs)) as Hd. unfold scaled in Hs.
  unfold f64_div, SFdiv, SFdiv_core_binary. cbn [Zdigits2]. cbv zeta. rewrite !Z.add_0_r, Z.sub_diag.
  pose proof Hv as [Hf _]%f64_valid_finite.
  set (e' := Z.min (fexp64 (Z.pos (digits2_pos a) - Z.pos (digits2_pos b))) 0).
  assert (e' <= e /\ e' <= 0) as [He He0] by (subst e'; rewrite fexp64_eq in *; lia).
  assert (match 0 - e' with Z0 => Z.pos a | Z.pos _ => Z.shiftl (Z.pos a) (0 - e') | Z.neg _ => 0 end
    = Z.pos b * (Z.pos m * 2 ^ (e - e'))) as ->.
  { assert (Z.pos a * 2 ^ (- e') = Z.pos b * (Z.pos m * 2 ^ (e - e'))) as Hval.
    { destruct (Z.le_gt_cases 0 e).
      - rewrite Z.max_l, Z.max_r in Hs by lia. replace (e - e') with (e + - e') by lia. rewrite Z.pow_add_r by lia. nia.
      - rewrite Z.max_r, Z.max_l in Hs by lia. replace (- e') with (- e + (e - e')) by lia. rewrite Z.pow_add_r by lia. nia. }
    rewrite <-Hval. rewrite Z.sub_0_l. destruct (- e') as [|p|p] eqn:E; [lia| |lia]. by rewrite Z.shiftl_mul_pow2. }
  rewrite (surjective_pairing (Z.div_eucl _ _)).
  change (Z.div_eucl ?x ?y).1 with (x / y). change (Z.div_eucl ?x ?y).2 with (x mod y).
  rewrite (Z.mul_comm (Z.pos b)), Z.div_mul, Z.mod_mul by done.
  assert (new_location (Z.pos b) 0 = loc_Exact) as ->.
  { unfold new_location, new_location_even, new_location_odd. by destruct (Z.even _). }
  rewrite xorb_false_r. replace e' with (e - (e - e')) at 2 by lia. apply round_aux_exact; [done|lia].
Qed.

(** A decimal with the exact value of a valid float reads as that float. *)
Lemma f64_of_decimal_exact s m e n d x :
  f64_valid (S754_finite s m e) = true -> 0 < d -> - (n + 400) <= x <= 400 ->
  scaled (d * 10 ^ Z.max 0 x) (10 ^ Z.max 0 (- x)) (Z.pos m) e ->
  f64_of_decimal s n d x = S754_finite s m e.
Proof.
  intros Hv Hd Hx Hs. destruct d as [|d|d]; [lia| |lia]. unfold f64_of_decimal.
  rewrite (proj2 (Z.ltb_ge _ _)), (proj2 (Z.ltb_ge _ _)) by lia. destruct (0 <=? x) eqn:E.
  - apply Z.leb_le in E. rewrite (Z.max_r 0 x), (Z.max_l 0 (- x)) in Hs by lia. pose proof (Z.pow_pos_nonneg 10 x).
    destruct (Z.pos d * 10 ^ x) as [|a|a] eqn:Ea; [lia| |lia].
    destruct s; cbn [cond_Zopp Z.opp binary_normalize]; by apply binary_round_exact.
  - apply Z.leb_gt in E. rewrite (Z.max_l 0 x), (Z.max_r 0 (- x)), Z.mul_1_r in Hs by lia.
    pose proof (Z.pow_pos_nonneg 10 (- x)). apply f64_div_exact; [done|]. by rewrite Z2Pos.id by lia.
Qed.

(** ** The shortest decimal *)

(** [m * 2 ^ e] as an integer times a power of ten. *)
Definition exact_decimal (m : positive) (e : Z) : Z * Z :=
  if 0 <=? e then (Z.pos m * 2 ^ e, 0) else (Z.pos m * 5 ^ (- e), e).

Definition num_digits (d : Z) : Z := str_len (format_int d).

(** [d * 10 ^ x] without the trailing zeros of [d]. *)
Fixpoint strip_zeros (fuel : nat) (d x : Z) : Z * Z :=
  match fuel with
  | O => (d, x)
  | S fuel => if (d mod 10 =? 0) && (0 <? d) then strip_zeros fuel (d / 10) (x + 1) else (d, x)
  end.

Definition stripped (d x : Z) : Z * Z := strip_zeros (String.length (format_int d)) d x.

Definition reads_as (s : bool) (x : f64) (dx : Z * Z) : bool :=
  bool_decide (f64_of_decimal s (num_digits dx.1) dx.1 dx.2 = x).

(** The two neighbours of [d / p], the nearer first, the even one on a tie. *)
Definition neighbours (d p : Z) : list Z :=
  let q := d / p in
  let r := d mod p in
  if (2 * r <? p) || ((2 * r =? p) && Z.even q) then [q; q + 1] else [q + 1; q].

(** Dropping [k] digits of the exact decimal, then fewer, until what is left
    reads back. *)
Fixpoint shortest (s : bool) (x : f64) (d e : Z) (k : nat) : Z * Z :=
  match k with
  | O => stripped d e
  | S k' =>
      match List.find (reads_as s x) (map (fun q => stripped q (e + Z.of_nat k)) (neighbours d (10 ^ Z.of_nat k))) with
      | Some dx => dx
      | None => shortest s x d e k'
      end
  end.

Definition shortest_decimal (s : bool) (m : positive) (e : Z) : Z * Z :=
  let '(d, x) := exact_decimal m e in
  shortest s (S754_finite s m e) d x (String.length (format_int d) - 1).

(** ** The text *)

Fixpoint zeros (n : nat) : string := match n with O => EmptyString | S n => String "0" (zeros n) end.

Fixpoint split_at (n : nat) (s : string) : string * string :=
  match n, s with
  | S n, String c s => let '(a, b) := split_at n s in (String c a, b)
  | _, _ => (EmptyString, s)
  end.

(** The digits [digs] with the point after [dp] of them. *)
Definition positional (digs : string) (dp : Z) : string :=
  if dp <=? 0 then "0" +:+ "." +:+ zeros (Z.to_nat (- dp)) +:+ digs
  else if str_len digs <=? dp then digs +:+ zeros (Z.to_nat (dp - str_len digs))
  else let '(a, b) := split_at (Z.to_nat dp) digs in a +:+ "." +:+ b.

(** The exponent is printed with at least two digits, and the package removes
    the zero it starts with. *)
Definition exponent_text (z : Z) : string := "e" +:+ (if z <? 0 then "-" else "+") +:+ format_int (Z.abs z).

Definition scientific (digs : string) (dp : Z) : string :=
  let '(a, b) := split_at 1 digs in
  a +:+ (match b with EmptyString => EmptyString | _ => "." +:+ b end) +:+ exponent_text (dp - 1).

Definition f64_1e_6 : f64 := f64_of_decimal false 1 1 (-6).
Definition f64_1e21 : f64 := f64_of_decimal false 1 1 21.

(** A finite float; the encoder refuses the others. *)
Definition format_float (x : f64) : string :=
  match x with
  | S754_zero s => (if s then "-" else "") +:+ "0"
  | S754_finite s m e =>
      let '(d, x) := shortest_decimal s m e in
      let digs := format_int d in
      let abs := S754_finite false m e in
      (if s then "-" else "")
      +:+ (if f64_ltb abs f64_1e_6 || f64_leb f64_1e21 abs then scientific digs (str_len digs + x)
           else positional digs (str_len digs + x))
  | _ => EmptyString
  end.

Example format_100 : format_float (f64_of_Z 100) = "100"%string.
Proof. vm_compute. reflexivity. Qed.
Example format_tenth : format_float (f64_div (f64_of_Z (-1)) (f64_of_Z 10)) = "-0.1"%string.
Proof. vm_compute. reflexivity. Qed.
Example format_third : format_float (f64_div (f64_of_Z 1) (f64_of_Z 3)) = "0.3333333333333333"%string.
Proof. vm_compute. reflexivity. Qed.
Example format_tiny : format_float (f64_of_decimal false 2 15 (-8)) = "1.5e-7"%string.
Proof. vm_compute. reflexivity. Qed.
Example format_pow : format_float (S754_finite false (2 ^ 52) (-96)) = "5.684341886080802e-14"%string.
Proof. vm_compute. reflexivity. Qed.
Example format_e23 : format_float (f64_of_decimal false 1 1 23) = "1e+23"%string.
Proof. vm_compute. reflexivity. Qed.

(** ** Sizes *)

Lemma dec_digits_len fuel z acc : 0 <= z -> z < 2 ^ Z.of_nat fuel -> (0 < fuel)%nat ->
  exists n, str_len (dec_digits fuel z acc) = str_len acc + n /\ 1 <= n /\ z < 10 ^ n /\ (0 < z -> 10 ^ (n - 1) <= z).
Proof.
  revert z acc. induction fuel as [|fuel IH]; intros z acc Hz Hf Hp; [lia|]. cbn [dec_digits].
  destruct (z <? 10) eqn:E.
  - exists 1. unfold str_len. cbn [String.length]. go_bool. split_and!; [lia|lia|lia|]. cbn. lia.
  - apply Z.ltb_ge in E. rewrite Nat2Z.inj_succ, Z.pow_succ_r in Hf by lia.
    pose proof (Z.div_mod z 10 ltac:(lia)). pose proof (Z.mod_pos_bound z 10 ltac:(lia)).
    destruct (IH (z / 10) (String (digit (z mod 10)) acc)) as (n & Hl & Hn & Hup & Hlo);
      [apply Z.div_pos; lia|apply Z.div_lt_upper_bound; lia| |].
    { destruct fuel; [cbn in Hf; lia|lia]. }
    exists (n + 1). rewrite Hl. unfold str_len. cbn [String.length]. specialize (Hlo ltac:(lia)).
    replace (n + 1 - 1) with (Z.succ (n - 1)) by lia. rewrite Z.pow_add_r, Z.pow_1_r, (Z.pow_succ_r _ (n - 1)) by lia.
    split_and!; lia.
Qed.

Lemma num_digits_spec d : 0 < d -> 1 <= num_digits d /\ 10 ^ (num_digits d - 1) <= d < 10 ^ num_digits d.
Proof.
  intros Hd. unfold num_digits, format_int. rewrite (proj2 (Z.ltb_ge _ _)) by lia.
  destruct (dec_digits_len (dec_fuel d) d "") as (n & Hl & Hn & Hup & Hlo);
    [lia|apply dec_fuel_enough; lia|unfold dec_fuel; lia|].
  change (str_len "") with 0 in Hl. rewrite Hl, Z.add_0_l. split_and!; [done|by apply Hlo|done].
Qed.

Lemma num_digits_le d k : 0 < d -> 0 <= k -> d < 10 ^ k -> num_digits d <= k.
Proof.
  intros Hd Hk Hlt. destruct (num_digits_spec d Hd) as (Hn & Hlo & _).
  assert (10 ^ (num_digits d - 1) < 10 ^ k) as H by lia. apply Z.pow_lt_mono_r_iff in H; lia.
Qed.

(** ** What stripping zeros keeps *)

Lemma strip_zeros_spec fuel d x : 0 < d ->
  let '(d', x') := strip_zeros fuel d x in 0 < d' <= d /\ x <= x' /\ d = d' * 10 ^ (x' - x).
Proof.
  revert d x. induction fuel as [|fuel IH]; intros d x Hd; cbn [strip_zeros].
  { rewrite Z.sub_diag. lia. }
  destruct ((d mod 10 =? 0) && (0 <? d)) eqn:E; [|rewrite Z.sub_diag; lia].
  apply andb_prop in E as [E _]. apply Z.eqb_eq in E. pose proof (Z.div_mod d 10 ltac:(lia)).
  specialize (IH (d / 10) (x + 1) ltac:(lia)). destruct (strip_zeros fuel (d / 10) (x + 1)) as [d' x'].
  destruct IH as (Hd' & Hx' & Heq). replace (x' - x) with (Z.succ (x' - (x + 1))) by lia. rewrite Z.pow_succ_r by lia. lia.
Qed.

Lemma scaled_strip d d' x x' m e : x <= x' -> 0 < d' -> d = d' * 10 ^ (x' - x) ->
  scaled (d * 10 ^ Z.max 0 x) (10 ^ Z.max 0 (- x)) m e -> scaled (d' * 10 ^ Z.max 0 x') (10 ^ Z.max 0 (- x')) m e.
Proof.
  unfold scaled. intros Hx Hd' -> Hs.
  pose proof (Z.pow_pos_nonneg 10 (Z.max 0 x)). pose proof (Z.pow_pos_nonneg 10 (Z.max 0 (- x'))).
  pose proof (Z.pow_pos_nonneg 10 (x' - x)).
  destruct (Z.le_gt_cases 0 x); [|destruct (Z.le_gt_cases 0 x')].
  - rewrite (Z.max_r 0 x'), (Z.max_l 0 (- x')) in * by lia. rewrite (Z.max_r 0 x), (Z.max_l 0 (- x)) in Hs by lia.
    assert (10 ^ x' = 10 ^ (x' - x) * 10 ^ x) as -> by (rewrite <-Z.pow_add_r by lia; f_equal; lia). lia.
  - rewrite (Z.max_r 0 x'), (Z.max_l 0 (- x')) in * by lia. rewrite (Z.max_l 0 x), (Z.max_r 0 (- x)) in Hs by lia.
    assert (10 ^ (x' - x) = 10 ^ x' * 10 ^ (- x)) as E by (rewrite <-Z.pow_add_r by lia; f_equal; lia).
    rewrite E in Hs. pose proof (Z.pow_pos_nonneg 10 (- x)). nia.
  - rewrite (Z.max_l 0 x'), (Z.max_r 0 (- x')) in * by lia. rewrite (Z.max_l 0 x), (Z.max_r 0 (- x)) in Hs by lia.
    assert (10 ^ (- x) = 10 ^ (x' - x) * 10 ^ (- x')) as E by (rewrite <-Z.pow_add_r by lia; f_equal; lia).
    rewrite E in Hs. nia.
Qed.

Lemma exact_decimal_spec m e : let '(d, x) := exact_decimal m e in
  0 < d /\ x <= 0 /\ scaled (d * 10 ^ Z.max 0 x) (10 ^ Z.max 0 (- x)) (Z.pos m) e.
Proof.
  unfold exact_decimal, scaled. destruct (0 <=? e) eqn:E; go_bool.
  - pose proof (Z.pow_pos_nonneg 2 e). cbn [Z.max Z.compare Z.opp]. rewrite (Z.max_l 0 (- e)), (Z.max_r 0 e) by lia.
    split_and!; [apply Z.mul_pos_pos; lia|lia|]. rewrite !Z.pow_0_r. lia.
  - pose proof (Z.pow_pos_nonneg 5 (- e)).
    rewrite (Z.max_l 0 e), (Z.max_r 0 (- e)), !Z.pow_0_r by lia. split_and!; [apply Z.mul_pos_pos; lia|lia|].
    change 10 with (5 * 2). rewrite Z.pow_mul_l. lia.
Qed.

(** The exponents of a float bound those of its decimals. *)
Lemma decimal_range s m e d x : f64_valid (S754_finite s m e) = true -> 0 < d ->
  scaled (d * 10 ^ Z.max 0 x) (10 ^ Z.max 0 (- x)) (Z.pos m) e -> - (num_digits d + 400) <= x <= 400.
Proof.
  intros [Hf He]%f64_valid_finite Hd Hs. rewrite fexp64_eq in Hf. unfold scaled in Hs.
  destruct (num_digits_spec d Hd) as (Hn & Hlo & Hup). pose proof (digits2_pos_spec m) as [_ Hm].
  assert (1 <= Z.pos m < 2 ^ 53) as [Hm1 Hm2].
  { split; [lia|]. eapply Z.lt_le_trans; [exact Hm|]. apply Z.pow_le_mono_r; lia. }
  pose proof (Z.pow_pos_nonneg 2 (Z.max 0 e)). pose proof (Z.pow_pos_nonneg 2 (Z.max 0 (- e))).
  split.
  - apply Z.nlt_ge. intros Hx. rewrite (Z.max_l 0 x), (Z.max_r 0 (- x)), Z.mul_1_r in Hs by lia.
    assert (2 ^ Z.max 0 (- e) < 10 ^ 400) as H2.
    { eapply Z.le_lt_trans; [apply (Z.pow_le_mono_r 2 _ 1074); lia|]. by vm_compute. }
    assert (10 ^ num_digits d * 10 ^ 400 <= 10 ^ (- x)) as H10.
    { rewrite <-Z.pow_add_r by lia. apply Z.pow_le_mono_r; lia. }
    assert (0 < 10 ^ (-x)) by (apply Z.pow_pos_nonneg; lia).
    assert (d * 2 ^ Z.max 0 (- e) < 10 ^ num_digits d * 10 ^ 400) by (apply Z.mul_lt_mono_nonneg; lia).
    assert (10 ^ (- x) * 1 * 1 <= 10 ^ (- x) * Z.pos m * 2 ^ Z.max 0 e); [|lia].
    apply Z.mul_le_mono_nonneg; [lia| |lia|lia]. apply Z.mul_le_mono_nonneg_l; lia.
  - apply Z.nlt_ge. intros Hx. rewrite (Z.max_r 0 x), (Z.max_l 0 (- x)), Z.pow_0_r, Z.mul_1_l in Hs by lia.
    assert (10 ^ 400 <= 10 ^ x) by (apply Z.pow_le_mono_r; lia).
    assert (2 ^ Z.max 0 e <= 2 ^ 971) by (apply Z.pow_le_mono_r; lia).
    assert (Z.pos m * 2 ^ Z.max 0 e <= 2 ^ 53 * 2 ^ 971) by (apply Z.mul_le_mono_nonneg; lia).
    assert (2 ^ 53 * 2 ^ 971 < 10 ^ 400) by (by vm_compute).
    assert (1 * 10 ^ x * 1 <= d * 10 ^ x * 2 ^ Z.max 0 (- e)); [|lia].
    apply Z.mul_le_mono_nonneg; [lia| |lia|lia]. apply Z.mul_le_mono_nonneg_r; lia.
Qed.

Lemma reads_exact s m e d x : f64_valid (S754_finite s m e) = true -> 0 < d ->
  scaled (d * 10 ^ Z.max 0 x) (10 ^ Z.max 0 (- x)) (Z.pos m) e ->
  reads_as s (S754_finite s m e) (stripped d x) = true.
Proof.
  intros Hv Hd Hs. unfold stripped. pose proof (strip_zeros_spec (String.length (format_int d)) d x Hd) as Hz.
  destruct (strip_zeros _ d x) as [d' x']. destruct Hz as (Hd' & Hx & Heq).
  assert (scaled (d' * 10 ^ Z.max 0 x') (10 ^ Z.max 0 (- x')) (Z.pos m) e) as Hs' by (eapply scaled_strip; [exact Hx|lia|done|done]).
  apply bool_decide_eq_true. cbn [fst snd]. apply f64_of_decimal_exact; [done|lia|by eapply decimal_range; [|lia|]|done].
Qed.

(** The decimal that is printed reads back, and has at most 1200 digits. *)
Lemma stripped_le d x : 0 < d -> 0 < (stripped d x).1 <= d.
Proof.
  intros Hd. unfold stripped. pose proof (strip_zeros_spec (String.length (format_int d)) d x Hd) as Hz.
  destruct (strip_zeros _ d x). cbn. lia.
Qed.

Lemma shortest_spec s m e d x k : f64_valid (S754_finite s m e) = true -> 0 < d ->
  scaled (d * 10 ^ Z.max 0 x) (10 ^ Z.max 0 (- x)) (Z.pos m) e ->
  let dx := shortest s (S754_finite s m e) d x k in
  reads_as s (S754_finite s m e) dx = true /\ dx.1 <= d + 1.
Proof.
  intros Hv Hd Hs. induction k as [|k IH]; cbn [shortest].
  { split; [by apply reads_exact|]. pose proof (stripped_le d x Hd). lia. }
  cbv zeta. destruct (List.find _ _) as [dx|] eqn:E; [|done]. apply List.find_some in E as [Hin Hr]. split; [done|].
  apply List.in_map_iff in Hin as (q & <- & Hq).
  assert (0 <= q <= d + 1) as Hq'.
  { pose proof (Z.pow_pos_nonneg 10 (Z.of_nat (S k))). pose proof (Z.div_pos d (10 ^ Z.of_nat (S k)) ltac:(lia) ltac:(lia)).
    assert (d / 10 ^ Z.of_nat (S k) <= d) by (apply Z.div_le_upper_bound; nia).
    unfold neighbours in Hq. destruct (_ || _); cbn in Hq; lia. }
  destruct (Z.eq_dec q 0) as [->|Hne]; [|pose proof (stripped_le q (x + Z.of_nat (S k)) ltac:(lia)); lia].
  change (stripped 0 ?y) with (0, y). cbn. lia.
Qed.

Lemma shortest_decimal_spec s m e : f64_valid (S754_finite s m e) = true ->
  let '(d, x) := shortest_decimal s m e in
  f64_of_decimal s (num_digits d) d x = S754_finite s m e
  /\ 0 < d /\ num_digits d <= 1200 /\ - (num_digits d + 400) <= x <= 400.
Proof.
  intros Hv. unfold shortest_decimal. pose proof (exact_decimal_spec m e) as He.
  assert ((exact_decimal m e).1 < 10 ^ 1199) as Hb.
  { apply f64_valid_finite in Hv as [Hf Hle]. rewrite fexp64_eq in Hf. pose proof (digits2_pos_spec m) as [_ Hm].
    assert (Z.pos m < 2 ^ 53) by (eapply Z.lt_le_trans; [exact Hm|]; apply Z.pow_le_mono_r; lia).
    unfold exact_decimal. destruct (0 <=? e) eqn:E; go_bool; cbn [fst].
    - eapply Z.le_lt_trans; [apply (Z.mul_le_mono_nonneg _ (2 ^ 53) _ (2 ^ 971)); [lia..|by apply Z.pow_nonneg|]|by vm_compute].
      apply Z.pow_le_mono_r; lia.
    - eapply Z.le_lt_trans; [apply (Z.mul_le_mono_nonneg _ (2 ^ 53) _ (5 ^ 1074)); [lia..|by apply Z.pow_nonneg|]|by vm_compute].
      apply Z.pow_le_mono_r; lia. }
  destruct (exact_decimal m e) as [d0 x0]. destruct He as (Hd0 & _ & Hs). cbn [fst] in Hb.
  pose proof (shortest_spec s m e d0 x0 (String.length (format_int d0) - 1) Hv Hd0 Hs) as Hr. cbv zeta in Hr.
  destruct (shortest _ _ _ _ _) as [d x]. destruct Hr as [Hr Hle]. unfold reads_as in Hr. apply bool_decide_eq_true in Hr.
  cbn [fst snd] in *. assert (0 < d) as Hd.
  { unfold f64_of_decimal in Hr. by destruct d. }
  split_and!; [done|done|apply num_digits_le; [done|done|]|..].
  - eapply Z.le_lt_trans; [exact Hle|]. eapply Z.le_lt_trans; [apply Z.add_le_mono_r, Z.lt_le_incl, Hb|by vm_compute].
  - apply Z.nlt_ge. intros Hx. unfold f64_of_decimal in Hr. destruct d as [|d|]; [done| |done].
    destruct (400 <? x); [done|]. rewrite (proj2 (Z.ltb_lt _ _)) in Hr by lia. done.
  - apply Z.nlt_ge. intros Hx. unfold f64_of_decimal in Hr. destruct d as [|d|]; [done| |done].
    by rewrite (proj2 (Z.ltb_lt _ _)) in Hr by lia.
Qed.

(** ** Reading the text back *)

Definition float_parsed (x : f64) : floatParse := match x with S754_infinity _ => FloatRange x | _ => FloatOk x end.

Lemma parse_point neg w f r m ex :
  str_all is_digit w = true -> str_all is_digit f = true -> w <> EmptyString ->
  parse_digits (w +:+ f) 0 = Some m -> parse_exponent r = Some ex -> starts_digit r = false ->
  parse_decimal neg (w +:+ "." +:+ f +:+ r) = float_parsed (f64_of_decimal neg (str_len (w +:+ f)) m (ex - str_len f)).
Proof.
  intros Hw Hf Hne Hm He Hr. unfold parse_decimal. rewrite take_digits_app by done.
  change ("." +:+ ?x) with (String "." x). cbv beta iota. rewrite bool_decide_true by done.
  rewrite take_digits_app by done. cbv beta iota zeta. destruct w as [|c w]; [done|]. rewrite append_cons in *. by rewrite Hm, He.
Qed.

Lemma parse_whole neg w r m ex :
  str_all is_digit w = true -> w <> EmptyString -> parse_digits w 0 = Some m -> parse_exponent r = Some ex ->
  starts_digit r = false -> (forall t, r <> String "." t) ->
  parse_decimal neg (w +:+ r) = float_parsed (f64_of_decimal neg (str_len w) m ex).
Proof.
  intros Hw Hne Hm He Hr Hdot. unfold parse_decimal. rewrite take_digits_app by done.
  assert (match r with String c r' => if bool_decide (c = "."%char) then take_digits r' else (EmptyString, r)
          | EmptyString => (EmptyString, EmptyString) end = (EmptyString, r)) as ->.
  { destruct r as [|c r]; [done|]. case_bool_decide; [|done]. subst c. by destruct (Hdot r). }
  cbv beta iota zeta. rewrite app_empty_r. destruct w as [|c w]; [done|]. rewrite Hm, He.
  change (str_len EmptyString) with 0. by rewrite Z.sub_0_r.
Qed.

Lemma exponent_digits_spec s acc z : 0 <= acc -> parse_digits s acc = Some z -> z < 10000 -> exponent_digits s acc = Some z.
Proof.
  revert acc. induction s as [|c s IH]; intros acc Ha Hz Hlt; [done|]. cbn [parse_digits exponent_digits] in *.
  destruct (is_digit c) eqn:Hc; [|done].
  assert (0 <= digit_val c) by (unfold is_digit, digit_val in *; go_lia).
  apply parse_digits_nonneg in Hz as Hle; [|lia]. rewrite (proj2 (Z.ltb_lt acc 10000)) by lia.
  apply IH; [lia|done|done].
Qed.

Lemma digits_of_pos d : 0 < d -> exists c t, format_int d = String c t /\ is_digit c = true /\ c <> "0"%char
  /\ str_all is_digit (format_int d) = true /\ parse_digits (format_int d) 0 = Some d.
Proof.
  intros Hd. unfold format_int. rewrite (proj2 (Z.ltb_ge _ _)) by lia.
  destruct (dec_digits_no_zero (dec_fuel d) d "" Hd) as (k & t & Ht & Hk); [apply dec_fuel_enough; lia|].
  destruct (digit_spec k) as [Hdig Hval]; [lia|]. exists (digit k), t. split_and!; [done|done| | |].
  - intros E. rewrite E in Hval. vm_compute in Hval. lia.
  - apply dec_digits_all; [lia|done].
  - apply parse_dec. lia.
Qed.

Lemma parse_exponent_text z : Z.abs z < 10000 ->
  parse_exponent ("e" +:+ (if z <? 0 then "-" else "+") +:+ format_int (Z.abs z)) = Some z.
Proof.
  intros Hz. change ("e" +:+ ?x) with (String "e" x). cbn [parse_exponent].
  change (bool_decide (lower_char "e" = "e"%char)) with true. cbv iota.
  assert (exponent_digits (format_int (Z.abs z)) 0 = Some (Z.abs z) /\ format_int (Z.abs z) <> EmptyString) as [He Hne].
  { unfold format_int. rewrite (proj2 (Z.ltb_ge _ _)) by lia. split.
    - apply exponent_digits_spec; [done|apply parse_dec; lia|done].
    - destruct (dec_digits_head (dec_fuel (Z.abs z)) (Z.abs z) "") as (c & t & -> & _); [lia|done|done]. }
  destruct (z <? 0) eqn:E.
  - change ("-" +:+ ?x) with (String "-" x). cbv iota. rewrite bool_decide_true by done.
    destruct (format_int (Z.abs z)) as [|c t]; [done|]. rewrite He. cbn. f_equal. go_lia.
  - change ("+" +:+ ?x) with (String "+" x). cbv iota. rewrite bool_decide_false, bool_decide_true by done.
    destruct (format_int (Z.abs z)) as [|c t]; [done|]. rewrite He. f_equal. go_lia.
Qed.

Lemma zeros_digits k : str_all is_digit (zeros k) = true.
Proof. by induction k. Qed.

Lemma zeros_length k : str_len (zeros k) = Z.of_nat k.
Proof. unfold str_len. f_equal. induction k; cbn; congruence. Qed.

Lemma parse_zeros k acc : parse_digits (zeros k) acc = Some (acc * 10 ^ Z.of_nat k).
Proof.
  revert acc. induction k as [|k IH]; intros acc; [cbn; f_equal; lia|]. cbn [zeros parse_digits].
  change (is_digit "0") with true. change (digit_val "0") with 0. cbv iota. rewrite IH, Nat2Z.inj_succ, Z.pow_succ_r by lia. f_equal. lia.
Qed.

Lemma str_len_app a b : str_len (a +:+ b) = str_len a + str_len b.
Proof. unfold str_len. rewrite length_app_str. lia. Qed.

Lemma split_at_spec n s : let '(a, b) := split_at n s in
  s = a +:+ b /\ ((n <= String.length s)%nat -> String.length a = n).
Proof.
  revert s. induction n as [|n IH]; intros s; [by split|]. destruct s as [|c s]; [split; [done|cbn; lia]|].
  cbn [split_at]. specialize (IH s). destruct (split_at n s) as [a b]. destruct IH as [-> IH]. split; [by rewrite append_cons|].
  cbn [String.length]. intros ?. rewrite IH; lia.
Qed.

Lemma f64_of_decimal_width s n n' d x : 0 < d -> n <= n' -> - (n + 400) <= x ->
  f64_of_decimal s n' d x = f64_of_decimal s n d x.
Proof.
  intros Hd Hn Hx. destruct d as [|d|]; [done| |done]. unfold f64_of_decimal.
  by rewrite !(proj2 (Z.ltb_ge x _)) by lia.
Qed.

Lemma f64_of_decimal_pad s n n' d x : 0 < d -> 0 <= n -> 0 <= n' -> 0 <= x <= 400 ->
  f64_of_decimal s n' (d * 10 ^ x) 0 = f64_of_decimal s n d x.
Proof.
  intros Hd Hn Hn' Hx. pose proof (Z.pow_pos_nonneg 10 x ltac:(lia) ltac:(lia)). unfold f64_of_decimal.
  destruct (d * 10 ^ x) as [|p|p] eqn:E; [lia| |lia]. destruct d as [|d|]; [lia| |lia].
  rewrite (proj2 (Z.ltb_ge 400 0)), (proj2 (Z.ltb_ge 0 _)), (proj2 (Z.leb_le 0 0)) by lia.
  rewrite (proj2 (Z.ltb_ge 400 x)), (proj2 (Z.ltb_ge x _)), (proj2 (Z.leb_le 0 x)) by lia.
  by rewrite Z.pow_0_r, Z.mul_1_r.
Qed.

(** A text that is a whole number for JSON and reads as [y]. *)
Definition number_text (s : bool) (u : string) (y : f64) : Prop :=
  parse_decimal s u = FloatOk y /\ scan_unsigned u = Some (u, EmptyString) /\ starts_digit u = true.

Lemma scan_fraction_dot f r : starts_digit f = true -> str_all is_digit f = true -> starts_digit r = false ->
  scan_fraction ("." +:+ f +:+ r) = Some ("." +:+ f, r).
Proof.
  intros Hs Hf Hr. change ("." +:+ ?x) with (String "." x). cbn [scan_fraction]. rewrite bool_decide_true by done.
  rewrite starts_digit_app by done. by rewrite take_digits_app.
Qed.

Lemma scan_unsigned_parts c t f e : is_digit c = true -> c <> "0"%char -> str_all is_digit (String c t) = true ->
  starts_digit (f +:+ e) = false -> scan_fraction (f +:+ e) = Some (f, e) -> scan_exponent e = Some (e, EmptyString) ->
  scan_unsigned (String c t +:+ f +:+ e) = Some (String c t +:+ f +:+ e, EmptyString).
Proof.
  intros Hc H0 Ht Hfe Hf He. pose proof (take_digits_app (String c t) (f +:+ e) Ht Hfe) as Htd.
  rewrite append_cons in *. cbn [scan_unsigned]. rewrite Hc, bool_decide_false by done. rewrite Htd.
  rewrite Hf. cbn [mbind option_bind]. rewrite He. cbn [mbind option_bind]. by rewrite append_cons.
Qed.

Lemma positional_text s d x y : 0 < d -> - (num_digits d + 400) <= x <= 400 ->
  f64_of_decimal s (num_digits d) d x = y -> float_parsed y = FloatOk y ->
  number_text s (positional (format_int d) (str_len (format_int d) + x)) y.
Proof.
  intros Hd Hx Hy Hfin. pose proof (digits_of_pos d Hd) as (c & t & Ht & Hc & H0 & Hall & Hp).
  pose proof (num_digits_spec d Hd) as [Hn _]. unfold num_digits in *. set (digs := format_int d) in *.
  unfold positional. destruct (str_len digs + x <=? 0) eqn:E1; [|destruct (str_len digs <=? str_len digs + x) eqn:E2]; go_bool.
  - set (z := zeros _). assert (str_all is_digit (z +:+ digs) = true) as Hz by (unfold z; by rewrite str_all_app, zeros_digits, Hall).
    assert (starts_digit (z +:+ digs) = true) as Hs by (subst z; destruct (Z.to_nat _); [by rewrite Ht|done]).
    split_and!; [|..|done].
    + rewrite <-(app_empty_r (z +:+ digs)). erewrite (parse_point s "0" (z +:+ digs) "" d 0); [|done..| |done|done].
      2: { change ("0" +:+ ?x) with (String "0" x). cbn [parse_digits]. change (is_digit "0") with true. cbv iota.
           change (10 * 0 + digit_val "0") with 0. rewrite parse_digits_app. subst z. rewrite parse_zeros. exact Hp. }
      rewrite str_len_app. subst z. rewrite str_len_app, zeros_length, Z2Nat.id by lia.
      replace (0 - (- (str_len digs + x) + str_len digs)) with x by lia.
      rewrite (f64_of_decimal_width s (str_len digs)) by (change (str_len "0") with 1; lia). by rewrite Hy.
    + change ("0" +:+ ?x) with (String "0" x). cbn [scan_unsigned]. rewrite bool_decide_true by done.
      change (is_digit "0") with true. cbv iota beta. rewrite <-(app_empty_r (z +:+ digs)), scan_fraction_dot by done.
      done.
  - set (z := zeros _). assert (str_all is_digit (digs +:+ z) = true) as Hz by (unfold z; by rewrite str_all_app, zeros_digits, Hall).
    split_and!.
    + rewrite <-(app_empty_r (digs +:+ z)). erewrite (parse_whole s (digs +:+ z) "" (d * 10 ^ x) 0); [|done| | |done|done|done].
      * rewrite f64_of_decimal_pad with (n := str_len digs); [by rewrite Hy|lia..|unfold str_len; lia|lia].
      * by rewrite Ht.
      * rewrite parse_digits_app, Hp. cbn [mbind option_bind]. subst z. rewrite parse_zeros. do 2 f_equal.
        rewrite Z2Nat.id by lia. f_equal. lia.
    + rewrite Ht, append_cons in *. pose proof (scan_unsigned_parts c (t +:+ z) "" "" Hc H0 Hz) as Hscan.
      rewrite !app_empty_r in Hscan. by apply Hscan.
    + by rewrite Ht.
  - pose proof (split_at_spec (Z.to_nat (str_len digs + x)) digs) as Hsp.
    destruct (split_at _ digs) as [a b]. destruct Hsp as [Hab Hlen].
    specialize (Hlen ltac:(unfold str_len in *; lia)).
    assert (str_len a = str_len digs + x) as Ha by (unfold str_len in *; lia).
    assert (str_len b = - x) as Hb by (pose proof (f_equal str_len Hab) as Hl; rewrite str_len_app in Hl; lia).
    rewrite Hab, str_all_app in Hall. apply andb_prop in Hall as [Haa Hba].
    destruct a as [|a0 a]; [change (str_len "") with 0 in Ha; lia|]. rewrite append_cons in Hab.
    assert (a0 = c) as -> by congruence. split_and!; [| |done].
    + rewrite <-(app_empty_r b). erewrite (parse_point s _ b "" d 0); [|done..| |done|done]; [|by rewrite append_cons, <-Hab].
      replace (0 - str_len b) with x by lia. rewrite append_cons, <-Hab. by rewrite Hy.
    + assert (starts_digit b = true) as Hsb.
      { destruct b as [|b0 b]; [change (str_len "") with 0 in Hb; lia|]. by apply andb_prop in Hba as [? _]. }
      pose proof (scan_unsigned_parts c a ("." +:+ b) "" Hc H0 Haa ltac:(done)) as Hscan. rewrite !app_empty_r in Hscan.
      apply Hscan; [|done]. rewrite <-(app_empty_r b) at 1. by apply scan_fraction_dot.
Qed.

Lemma scan_exponent_text z : scan_exponent (exponent_text z) = Some (exponent_text z, EmptyString).
Proof.
  assert (starts_digit (format_int (Z.abs z)) = true
    /\ take_digits (format_int (Z.abs z)) = (format_int (Z.abs z), EmptyString)) as [H1 H2].
  { unfold format_int. rewrite (proj2 (Z.ltb_ge _ _)) by lia.
    assert (str_all is_digit (dec_digits (dec_fuel (Z.abs z)) (Z.abs z) "") = true) as Ha by (apply dec_digits_all; [lia|done]).
    split.
    - by destruct (dec_digits_head (dec_fuel (Z.abs z)) (Z.abs z) "") as (a & u & -> & Hau); [lia|done|].
    - pose proof (take_digits_app _ "" Ha eq_refl) as Htk. by rewrite app_empty_r in Htk. }
  unfold exponent_text. destruct (z <? 0).
  - change ("e" +:+ "-" +:+ ?u) with (String "e" (String "-" u)). cbn [scan_exponent].
    rewrite bool_decide_true by by left. rewrite bool_decide_true by by right. by rewrite H1, H2.
  - change ("e" +:+ "+" +:+ ?u) with (String "e" (String "+" u)). cbn [scan_exponent].
    rewrite bool_decide_true by by left. rewrite bool_decide_true by by left. by rewrite H1, H2.
Qed.

Lemma scientific_text s d x y : 0 < d -> - (num_digits d + 400) <= x <= 400 -> num_digits d <= 1200 ->
  f64_of_decimal s (num_digits d) d x = y -> float_parsed y = FloatOk y ->
  number_text s (scientific (format_int d) (str_len (format_int d) + x)) y.
Proof.
  intros Hd Hx Hnd Hy Hfin. pose proof (digits_of_pos d Hd) as (c & t & Ht & Hc & H0 & Hall & Hp).
  pose proof (num_digits_spec d Hd) as [Hn _]. unfold num_digits in *. rewrite Ht in *. clear Ht.
  unfold scientific. change (split_at 1 (String c t)) with (String c EmptyString, t). cbv beta iota.
  set (z := str_len (String c t) + x - 1).
  pose proof (parse_exponent_text z ltac:(unfold z; lia)) as He.
  fold (exponent_text z) in He |- *. set (e := exponent_text z) in *.
  assert (starts_digit e = false /\ forall u, e <> String "." u) as [Hse Hdot] by done.
  pose proof (scan_exponent_text z) as Hscan. fold e in Hscan.
  destruct t as [|c1 t].
  - cbn [str_all] in Hall. split_and!; [| |done].
    + rewrite append_nil. erewrite (parse_whole s (String c "") e d z); [|done..].
      change (str_len (String c "")) with 1 in *. replace z with x by (unfold z; lia). by rewrite Hy.
    + rewrite append_nil. pose proof (scan_unsigned_parts c "" "" e Hc H0 Hall Hse) as Hsc. rewrite append_nil in Hsc.
      by apply Hsc.
  - assert (str_all is_digit (String c1 t) = true) as Ht by by apply andb_prop in Hall as [_ ?].
    assert (str_all is_digit (String c "") = true) as Hc' by (cbn; by rewrite Hc).
    rewrite append_assoc. split_and!; [| |done].
    + erewrite (parse_point s (String c "") (String c1 t) e d z); [|done..].
      rewrite append_cons, append_nil. replace (z - str_len (String c1 t)) with x; [by rewrite Hy|].
      unfold z, str_len. cbn [String.length]. lia.
    + rewrite <-append_assoc. apply (scan_unsigned_parts c "" ("." +:+ String c1 t) e); [done|done|done|done| |done].
      rewrite append_assoc. apply scan_fraction_dot; [by apply andb_prop in Ht as [? _]|done|done].
Qed.

(** The sign in front. *)
Lemma signed_number s u y : number_text s u y ->
  parse_float ((if s then "-" else "") +:+ u) = FloatOk y
  /\ scan_number ((if s then "-" else "") +:+ u) = Some ((if s then "-" else "") +:+ u, EmptyString).
Proof.
  intros (Hp & Hs & Hd). destruct u as [|c u]; [done|]. cbn [starts_digit] in Hd.
  assert (forall neg, parse_decimal neg (String c u) = FloatOk y -> forall sign,
    (if bool_decide (to_lower (String c u) = "inf"%string) || bool_decide (to_lower (String c u) = "infinity"%string)
     then FloatOk (S754_infinity neg)
     else if bool_decide (to_lower (String c u) = "nan"%string) && bool_decide (sign = @None bool) then FloatOk S754_nan
     else parse_decimal neg (String c u)) = FloatOk y) as Hgo.
  { intros neg Hn sign. cbn [to_lower].
    assert (lower_char c = c) as -> by (unfold lower_char, is_digit in *; go_bool; destruct (65 <=? code c) eqn:E; [go_lia|done]).
    by rewrite !bool_decide_false by (intros [= -> _]; by vm_compute in Hd). }
  assert (c <> "-"%char /\ c <> "+"%char) as [Hm Hpl] by (split; intros ->; by vm_compute in Hd).
  destruct s.
  - change ("-" +:+ String c u) with (String "-" (String c u)). split.
    + unfold parse_float. rewrite bool_decide_true by done. cbv iota beta zeta. by apply Hgo.
    + cbn [scan_number]. rewrite bool_decide_true by done. by rewrite Hs.
  - rewrite append_nil. split.
    + unfold parse_float. rewrite bool_decide_false, bool_decide_false by done. cbv iota beta zeta. by apply Hgo.
    + cbn [scan_number]. by rewrite bool_decide_false by done.
Qed.

(** What is printed of a finite float is a number of JSON and reads as the same float. *)
Lemma parse_format_float x : f64_valid x = true -> (forall s, x <> S754_infinity s) -> ~ is_nan x ->
  parse_float (format_float x) = FloatOk x /\ scan_number (format_float x) = Some (format_float x, EmptyString).
Proof.
  intros Hv Hinf Hnan. destruct x as [s|s| |s m e]; [by destruct s|by destruct (Hinf s)|by destruct Hnan|].
  unfold format_float. pose proof (shortest_decimal_spec s m e Hv) as Hs. destruct (shortest_decimal s m e) as [d x].
  destruct Hs as (Hr & Hd & Hn & Hx). cbv zeta. apply signed_number.
  destruct (_ || _); [by apply scientific_text|by apply positional_text].
Qed.
