(* ===== verification/Webhook.v ===== *)
(** * Webhook signatures

    [payment/webhook.go]: the parsing of the signature header and the
    verification of a delivery, over the decimal, hexadecimal and HMAC-SHA256
    functions of [GoCodec].  The cloud's signing side, which the file documents,
    is the specification ([sign_webhook]).  The wall clock is an argument. *)

From Stdlib Require Import Ascii.
From S2P Require Import Prelude GoInt GoString GoCodec.

(** ** Verification *)

(** [Now] is the reading an override would give. *)
Record VerifyWebhookOptions := {
  vo_Tolerance : Duration;
  vo_Now : option Time
}.

Definition defaultTolerance : Duration := 5 * Minute.

(** [t.Unix()]: whole seconds since 1970, rounded down. *)
Definition unix_epoch_seconds : Z := 62135596800.
Definition time_unix (t : Time) : Z := t / Second - unix_epoch_seconds.

Definition malformed (post : string) : error :=
  errWrap "" (errSentinel ErrWebhookSignatureMalformed) post.

(** One element of the header added to the map. *)
Definition add_pair (out : gmap string string) (raw : string) : result (gmap string string) :=
  match split2 "=" (trim_space raw) with
  | None => Err (malformed (": pair " +:+ quote raw +:+ " has no ="))
  | Some (k, v) =>
      let k := trim_space k in
      let v := trim_space v in
      if bool_decide (k = ""%string) then Err (malformed (": empty key in " +:+ quote raw))
      else Ok (<[k := v]> out)
  end.

Fixpoint add_pairs (out : gmap string string) (raws : list string) : result (gmap string string) :=
  match raws with
  | [] => Ok out
  | raw :: raws =>
      match add_pair out raw with
      | Ok out => add_pairs out raws
      | Err e => Err e
      end
  end.

Definition parseSignatureHeader (header : string) : result (gmap string string) :=
  match add_pairs ∅ (split "," header) with
  | Err e => Err e
  | Ok out => if bool_decide (size out = 0%nat) then Err (errSentinel ErrWebhookSignatureMalformed) else Ok out
  end.

(** The signed input: the timestamp, a dot, the body. *)
Definition signed_input (ts : Z) (body : list Z) : list Z := bytes_of (format_int ts +:+ ".") ++ body.

Definition signature (secret : string) (ts : Z) (body : list Z) : list Z :=
  hmac_sha256 (bytes_of secret) (signed_input ts body).

(** The freshness check, with the products and the negation at 64 bits. *)
Definition expired (now : Time) (tsUnix : Z) (tolerance : Duration) : bool :=
  let delta := wrap64 (time_unix now - tsUnix) in
  let delta := if delta <? 0 then wrap64 (- delta) else delta in
  tolerance <? wrap64 (delta * Second).

(** [VerifyWebhook]: [None] is the nil error; [clk] is [time.Now()]. *)
Definition VerifyWebhook (body : list Z) (header secret : string) (opts : list VerifyWebhookOptions)
    (clk : Time) : option error :=
  let o := match opts with o :: _ => o | [] => {| vo_Tolerance := 0; vo_Now := None |} end in
  let tolerance := if vo_Tolerance o =? 0 then defaultTolerance else vo_Tolerance o in
  let now := default clk (vo_Now o) in
  if bool_decide (trim_space header = ""%string) then Some (errSentinel ErrWebhookSignatureMissing)
  else
    match parseSignatureHeader header with
    | Err e => Some e
    | Ok parts =>
        match parts !! "t"%string with
        | None => Some (malformed ": missing t=")
        | Some tsStr =>
            match parse_int64 tsStr with
            | None => Some (malformed ": t= is not an integer")
            | Some tsUnix =>
                match parts !! "v1"%string with
                | None => Some (errSentinel ErrWebhookSignatureUnsupportedScheme)
                | Some sigHex =>
                    match hex_decode sigHex with
                    | None => Some (malformed ": v1 is not hex")
                    | Some expectedSig =>
                        if negb (bool_decide (expectedSig = signature secret tsUnix body))
                        then Some (errSentinel ErrWebhookSignatureMismatch)
                        else if expired now tsUnix tolerance
                        then Some (errSentinel ErrWebhookSignatureExpired)
                        else None
                    end
                end
            end
        end
    end.

(** ** The signing side *)

Definition sign_webhook (secret : string) (ts : Z) (body : list Z) : string :=
  "t=" +:+ format_int ts +:+ ",v1=" +:+ hex_encode (signature secret ts body).

(** The tolerance and the clock in force. *)
Definition tolerance_of (opts : list VerifyWebhookOptions) : Duration :=
  match opts with
  | o :: _ => if vo_Tolerance o =? 0 then defaultTolerance else vo_Tolerance o
  | [] => defaultTolerance
  end.

Definition now_of (opts : list VerifyWebhookOptions) (clk : Time) : Time :=
  match opts with o :: _ => default clk (vo_Now o) | [] => clk end.

(** ** Headers of the documented shape parse to their two fields *)

(** A character that is neither white space nor a separator. *)
Definition plain (c : ascii) : bool :=
  negb (is_space c) && bool_decide (c <> ","%char) && bool_decide (c <> "="%char).

Lemma trim_left_plain s : str_all plain s = true -> trim_left s = s.
Proof.
  destruct s as [|c s]; [done|]. cbn. intros [[[Hc _]%andb_prop _]%andb_prop _]%andb_prop.
  by apply negb_true_iff in Hc as ->.
Qed.

Lemma trim_right_plain s : str_all plain s = true -> trim_right s = s.
Proof.
  induction s as [|c s IH]; [done|]. cbn. intros [[[Hc _]%andb_prop _]%andb_prop Hs]%andb_prop.
  rewrite IH by done. apply negb_true_iff in Hc. rewrite Hc. by destruct s.
Qed.

Lemma trim_space_plain s : str_all plain s = true -> trim_space s = s.
Proof. intros Hs. unfold trim_space. by rewrite trim_left_plain, trim_right_plain. Qed.

Lemma plain_num c : is_num_char c = true -> plain c = true.
Proof. destruct c as [[] [] [] [] [] [] [] []]; by vm_compute. Qed.

Lemma plain_hex c : is_hex_char c = true -> plain c = true.
Proof. destruct c as [[] [] [] [] [] [] [] []]; by vm_compute. Qed.

Lemma plain_not_comma c : plain c = true -> bool_decide (c <> ","%char) = true.
Proof. intros [[_ ?]%andb_prop _]%andb_prop. done. Qed.

(** The value of one field. *)
Lemma trim_right_cons c s : is_space c = false -> trim_right (String c s) = String c (trim_right s).
Proof. intros Hc. cbn. rewrite Hc. by destruct (trim_right s). Qed.

Lemma sign_webhook_parse secret ts body :
  parseSignatureHeader (sign_webhook secret ts body)
  = Ok (<["v1"%string := hex_encode (signature secret ts body)]> {["t"%string := format_int ts]}).
Proof.
  set (hex := hex_encode _).
  assert (Ht : str_all plain (format_int ts) = true).
  { eapply str_all_impl; [apply plain_num|apply format_int_all]. }
  assert (Hx : str_all plain hex = true).
  { eapply str_all_impl; [apply plain_hex|apply hex_encode_all, hmac_sha256_bytes]. }
  unfold parseSignatureHeader.
  replace (split "," (sign_webhook secret ts body)) with ["t=" +:+ format_int ts; "v1=" +:+ hex].
  2:{ unfold sign_webhook. fold hex.
      change (",v1=" +:+ hex) with (String "," ("v1=" +:+ hex)). rewrite <-append_assoc.
      rewrite split_app, split_none; [done| |]; rewrite str_all_app; cbn;
        eapply str_all_impl; [|done| |done]; apply plain_not_comma. }
  cbn [add_pairs]. unfold add_pair at 1.
  assert (Htt : trim_space ("t=" +:+ format_int ts) = "t=" +:+ format_int ts).
  { unfold trim_space. change (trim_left ("t=" +:+ format_int ts)) with ("t=" +:+ format_int ts).
    rewrite !append_cons, !trim_right_cons, append_nil, trim_right_plain by done. done. }
  assert (Hxx : trim_space ("v1=" +:+ hex) = "v1=" +:+ hex).
  { unfold trim_space. change (trim_left ("v1=" +:+ hex)) with ("v1=" +:+ hex).
    rewrite !append_cons, !trim_right_cons, append_nil, trim_right_plain by done. done. }
  rewrite Htt. change (split2 "=" ("t=" +:+ format_int ts)) with (Some ("t"%string, format_int ts)).
  cbv beta iota zeta. change (trim_space "t") with "t"%string. rewrite bool_decide_false by done.
  unfold add_pair. rewrite Hxx. change (split2 "=" ("v1=" +:+ hex)) with (Some ("v1"%string, hex)).
  cbv beta iota zeta. change (trim_space "v1") with "v1"%string. rewrite bool_decide_false by done.
  rewrite !trim_space_plain by done. rewrite bool_decide_false; [done|].
  rewrite map_size_insert_None, insert_empty, map_size_singleton by done. done.
Qed.

(** ** What an accepted header says *)

(** The field an element of the header denotes. *)
Definition field_of (raw : string) : option (string * string) :=
  '(k, v) ← split2 "=" (trim_space raw); Some (trim_space k, trim_space v).

Lemma add_pairs_lookup out raws parts k v :
  add_pairs out raws = Ok parts -> parts !! k = Some v ->
  out !! k = Some v \/ exists raw, raw ∈ raws /\ field_of raw = Some (k, v).
Proof.
  revert out. induction raws as [|raw raws IH]; intros out; cbn; [intros [= <-]; by left|].
  unfold add_pair. destruct (split2 "=" (trim_space raw)) as [[k' v']|] eqn:Hs; [|done].
  case_bool_decide as Hk; [done|]. intros Ha Hv. destruct (IH _ Ha Hv) as [Hl|(raw' & Hin & Hf)].
  - destruct (decide (trim_space k' = k)) as [<-|Hne].
    + rewrite lookup_insert_eq in Hl. simplify_eq. right. exists raw.
      split; [left|]. unfold field_of. by rewrite Hs.
    + rewrite lookup_insert_ne in Hl by done. by left.
  - right. exists raw'. split; [by right|done].
Qed.

Lemma parse_field header parts k v :
  parseSignatureHeader header = Ok parts -> parts !! k = Some v ->
  exists raw, raw ∈ split "," header /\ field_of raw = Some (k, v).
Proof.
  unfold parseSignatureHeader. destruct (add_pairs _ _) as [out|] eqn:Ha; [|done].
  case_bool_decide; [done|]. intros [= <-] Hv.
  by destruct (add_pairs_lookup _ _ _ _ _ Ha Hv) as [Hl|?].
Qed.

(** Every parse error is the malformed sentinel. *)
Lemma add_pairs_error out raws e :
  add_pairs out raws = Err e -> errors_is e ErrWebhookSignatureMalformed = true.
Proof.
  revert out. induction raws as [|raw raws IH]; intros out; cbn [add_pairs]; [done|].
  destruct (add_pair out raw) as [out'|e'] eqn:Ha; [apply IH|]. intros [= <-].
  unfold add_pair, malformed in Ha. repeat case_match; simplify_eq; cbn; by rewrite bool_decide_true.
Qed.

Lemma parse_error header e :
  parseSignatureHeader header = Err e -> errors_is e ErrWebhookSignatureMalformed = true.
Proof.
  unfold parseSignatureHeader. destruct (add_pairs _ _) as [out|] eqn:Ha.
  - case_bool_decide; [|done]. by intros [= <-].
  - intros [= <-]. by eapply add_pairs_error.
Qed.

(** ** Freshness *)

(** The largest number of seconds a [Duration] holds. *)
Definition max_seconds : Z := max_int64 / Second.

Lemma expired_exact now ts tol :
  Z.abs (time_unix now - ts) <= max_seconds ->
  expired now ts tol = (tol <? Z.abs (time_unix now - ts) * Second).
Proof.
  change max_seconds with 9223372036. unfold expired, Second, Millisecond. intros Hd.
  rewrite (wrap64_id (time_unix now - ts)) by int_range.
  destruct (time_unix now - ts <? 0) eqn:E; go_bool.
  - rewrite (wrap64_id (- _)) by int_range. rewrite wrap64_id by int_range. by rewrite Z.abs_neq by lia.
  - rewrite wrap64_id by int_range. by rewrite Z.abs_eq by lia.
Qed.

Lemma wrap64_high z : 2 ^ 63 <= z < 2 ^ 64 -> wrap64 z < 0.
Proof.
  intros Hz. unfold wrap64. rewrite <-(Z.mod_unique (z + 2 ^ 63) (2 ^ 64) 1 (z - 2 ^ 63)); lia.
Qed.

Lemma expired_wrapped now ts tol :
  max_seconds < time_unix now - ts <= 2 * max_seconds -> 0 <= tol -> expired now ts tol = false.
Proof.
  change max_seconds with 9223372036. unfold expired, Second, Millisecond. intros Hd Ht.
  rewrite (wrap64_id (time_unix now - ts)) by int_range.
  destruct (time_unix now - ts <? 0) eqn:E; go_bool; [lia|].
  apply Z.ltb_ge. pose proof (wrap64_high ((time_unix now - ts) * (1000 * 1000000))). lia.
Qed.

(** The verdict on a header the cloud signed is the freshness check. *)
Lemma verify_signed secret ts body opts clk :
  int64_range ts ->
  VerifyWebhook body (sign_webhook secret ts body) secret opts clk
  = if expired (now_of opts clk) ts (tolerance_of opts)
    then Some (errSentinel ErrWebhookSignatureExpired) else None.
Proof.
  intros Hts. unfold VerifyWebhook. rewrite sign_webhook_parse.
  rewrite bool_decide_false.
  2:{ intros He. assert (Hx : trim_right (sign_webhook secret ts body) = ""%string) by done.
      unfold sign_webhook in Hx. rewrite append_cons, trim_right_cons in Hx by done. done. }
  rewrite lookup_insert_ne, lookup_singleton_eq by done. rewrite parse_format_int by done.
  rewrite lookup_insert_eq, hex_roundtrip by apply hmac_sha256_bytes.
  rewrite bool_decide_true by done. cbn [negb].
  destruct opts as [|o opts]; [done|]. reflexivity.
Qed.

(** C24: a delivery the cloud signed, header in the documented form
    [t=<seconds>,v1=<hex mac>], is accepted exactly when the timestamp is
    within the tolerance of the clock in force (the default five minutes when
    none is given), and is otherwise rejected as expired, whatever the body,
    the secret and the timestamp, as long as the two times are less than 292
    years apart. *)
Theorem VerifyWebhook_signed secret ts body opts clk :
  int64_range ts -> Z.abs (time_unix (now_of opts clk) - ts) <= max_seconds ->
  VerifyWebhook body (sign_webhook secret ts body) secret opts clk
  = if tolerance_of opts <? Z.abs (time_unix (now_of opts clk) - ts) * Second
    then Some (errSentinel ErrWebhookSignatureExpired) else None.
Proof. intros Hts Hd. by rewrite verify_signed, expired_exact. Qed.

(** A delivery of 2024-01-01T00:00:00Z received ten seconds later. *)
Definition demo_ts : Z := 1704067200.
Definition demo_now (s : Z) : Time := (demo_ts + s + unix_epoch_seconds) * Second.

Lemma VerifyWebhook_signed_witness :
  VerifyWebhook (bytes_of "{}") (sign_webhook "whsec" demo_ts (bytes_of "{}")) "whsec" [] (demo_now 10) = None.
Proof.
  rewrite VerifyWebhook_signed; [reflexivity|split; vm_compute; congruence|vm_compute; congruence].
Defined.

(** The same with the executable definitions alone. *)
Example verify_demo :
  VerifyWebhook (bytes_of "{}") (sign_webhook "whsec" demo_ts (bytes_of "{}")) "whsec" [] (demo_now 10) = None
  /\ VerifyWebhook (bytes_of "{}") (sign_webhook "whsec" demo_ts (bytes_of "{}")) "other" [] (demo_now 10)
     = Some (errSentinel ErrWebhookSignatureMismatch).
Proof. by vm_compute. Qed.

(** C23: verification is sound: an accepted header holds, among its comma
    separated fields, a decimal timestamp and a hexadecimal signature that
    decodes to the HMAC-SHA256 of that timestamp, a dot and the very body under
    the secret, and the timestamp is within the tolerance whenever it is less
    than 292 years from the clock; every rejection is one of the five
    sentinel errors. *)
Theorem VerifyWebhook_sound secret header body opts clk :
  match VerifyWebhook body header secret opts clk with
  | None =>
      exists rt rv tsStr ts sigHex,
        rt ∈ split "," header /\ field_of rt = Some ("t"%string, tsStr) /\ parse_int64 tsStr = Some ts
        /\ rv ∈ split "," header /\ field_of rv = Some ("v1"%string, sigHex)
        /\ hex_decode sigHex = Some (hmac_sha256 (bytes_of secret) (bytes_of (format_int ts +:+ ".") ++ body))
        /\ (Z.abs (time_unix (now_of opts clk) - ts) <= max_seconds ->
            Z.abs (time_unix (now_of opts clk) - ts) * Second <= tolerance_of opts)
  | Some e =>
      errors_is e ErrWebhookSignatureMissing = true \/ errors_is e ErrWebhookSignatureMalformed = true
      \/ errors_is e ErrWebhookSignatureUnsupportedScheme = true
      \/ errors_is e ErrWebhookSignatureMismatch = true \/ errors_is e ErrWebhookSignatureExpired = true
  end.
Proof.
  unfold VerifyWebhook. case_bool_decide; [by left|].
  destruct (parseSignatureHeader header) as [parts|e] eqn:Hp.
  2:{ right. left. by eapply parse_error. }
  destruct (parts !! "t"%string) as [tsStr|] eqn:Ht; [|by right; left].
  destruct (parse_int64 tsStr) as [ts|] eqn:Hts; [|by right; left].
  destruct (parts !! "v1"%string) as [sigHex|] eqn:Hv; [|by right; right; left].
  destruct (hex_decode sigHex) as [sg|] eqn:Hx; [|by right; left].
  case_bool_decide as Hs; cbn [negb]; [|by right; right; right; left].
  destruct (parse_field _ _ _ _ Hp Ht) as (rt & Hrt & Hft).
  destruct (parse_field _ _ _ _ Hp Hv) as (rv & Hrv & Hfv).
  replace (expired _ _ _) with (expired (now_of opts clk) ts (tolerance_of opts)) by (by destruct opts).
  destruct (expired (now_of opts clk) ts (tolerance_of opts)) eqn:He; [by do 4 right|].
  exists rt, rv, tsStr, ts, sigHex. split_and!; try done; [by rewrite Hx, Hs|].
  intros Hd. rewrite expired_exact in He by done. go_lia.
Qed.

(** The freshness check multiplies seconds by 10^9 at 64 bits: a correctly
    signed delivery whose timestamp lies between 292 and 584 years in the past
    is accepted, whatever the tolerance. *)
Theorem VerifyWebhook_overflow secret ts body opts clk :
  int64_range ts -> max_seconds < time_unix (now_of opts clk) - ts <= 2 * max_seconds ->
  0 <= tolerance_of opts ->
  VerifyWebhook body (sign_webhook secret ts body) secret opts clk = None.
Proof. intros Hts Hd Ht. by rewrite verify_signed, expired_wrapped. Qed.

Lemma VerifyWebhook_overflow_witness :
  VerifyWebhook (bytes_of "{}") (sign_webhook "whsec" (demo_ts - 10000000000) (bytes_of "{}")) "whsec" []
    (demo_now 0) = None.
Proof.
  apply VerifyWebhook_overflow; [split; vm_compute; congruence| |vm_compute; congruence].
  split; vm_compute; congruence.
Defined.
