(* ===== verification/Payment.v ===== *)
(** * Payment links

    [payment/bitcoin.go]: the BIP21 / coin URI of a payment request.  Amounts
    are [math/big] values: the quotient is a big.Float rounded to the precision
    the package documents (the operand's, at least 64 bits; ties to even), and
    its text is the decimal nearest to that float.  A nil amount is [None]. *)

From Stdlib Require Import Ascii.
From S2P Require Import Prelude GoInt GoFloat GoString GoCodec.

(** ** math/big *)

(** A finite float: a sign, a mantissa and a binary exponent. *)
Record bigFloat := {
  bf_prec : Z;
  bf_neg : bool;
  bf_mant : Z;
  bf_exp : Z
}.

Definition bitlen (z : Z) : Z := if z =? 0 then 0 else Z.log2 (Z.abs z) + 1.

(** [new(big.Float).SetInt(z)]: exact. *)
Definition bf_SetInt (z : Z) : bigFloat := {|
  bf_prec := Z.max (bitlen z) 64; bf_neg := z <? 0; bf_mant := Z.abs z; bf_exp := 0 |}.

(** [big.NewFloat(c)] of a positive constant that binary64 represents exactly. *)
Definition bf_NewFloat (c : Z) : bigFloat := {|
  bf_prec := 53; bf_neg := false; bf_mant := c; bf_exp := 0 |}.

Example constants_exact : forallb (fun c =>
    match f64_of_Z c with SpecFloat.S754_finite false m e => Z.pos m * 2 ^ (e + 60) =? c * 2 ^ 60 | _ => false end)
  [10 ^ 8; 10 ^ 18; 10 ^ 6] = true.
Proof. vm_compute. reflexivity. Qed.

(** The integer nearest to [n / d], ties to even. *)
Definition rne (n d : Z) : Z :=
  let q := n / d in
  let r := n mod d in
  if 2 * r <? d then q else if d <? 2 * r then q + 1 else if Z.even q then q else q + 1.

(** The exponent of the leading bit of [n / d]. *)
Definition log2_frac (n d : Z) : Z :=
  let k := Z.log2 n - Z.log2 d in
  if (if 0 <=? k then d * 2 ^ k <=? n else d <=? n * 2 ^ (- k)) then k else k - 1.

(** [n / d] scaled by [2 ^ - e] and rounded. *)
Definition scale_rne (n d e : Z) : Z := if 0 <=? e then rne n (d * 2 ^ e) else rne (n * 2 ^ (- e)) d.

(** [new(big.Float).Quo(x, y)] for [y] not zero. *)
Definition bf_Quo (x y : bigFloat) : bigFloat :=
  let prec := Z.max (bf_prec x) (bf_prec y) in
  let neg := xorb (bf_neg x) (bf_neg y) in
  if bf_mant x =? 0 then {| bf_prec := prec; bf_neg := neg; bf_mant := 0; bf_exp := 0 |}
  else
    let e := log2_frac (bf_mant x) (bf_mant y) - prec + 1 in
    {| bf_prec := prec; bf_neg := neg; bf_mant := scale_rne (bf_mant x) (bf_mant y) e;
       bf_exp := bf_exp x - bf_exp y + e |}.

(** The decimal with [k] fraction digits of [z / 10 ^ k]. *)
Definition decimal (k : nat) (neg : bool) (z : Z) : string :=
  (if neg then "-" else "") +:+ dec_digits (dec_fuel (z / 10 ^ Z.of_nat k)) (z / 10 ^ Z.of_nat k) ""
  +:+ "." +:+ fixed_digits k (z mod 10 ^ Z.of_nat k) "".

(** [x.Text('f', k)]. *)
Definition bf_Text (k : nat) (x : bigFloat) : string :=
  decimal k (bf_neg x) (scale_rne (bf_mant x * 10 ^ Z.of_nat k) 1 (- bf_exp x)).

(** ** Links *)

Inductive Coin := BTC | ETH | USDT | OtherCoin (s : string).

Definition coin_string (c : Coin) : string :=
  match c with BTC => "bitcoin" | ETH => "ethereum" | USDT => "tether" | OtherCoin s => s end.

Record BuildPaymentLinkOptions := {
  pl_WalletAddress : string;
  pl_Coin : Coin;
  pl_Amount : option Z;
  pl_Label : string;
  pl_Message : string
}.

Definition appendOptionalParam (uri key value : string) : string :=
  if bool_decide (value = ""%string) then uri else uri +:+ "&" +:+ key +:+ "=" +:+ query_escape value.

(** One coin's link: its scheme and its number of decimals. *)
Definition coin_link (o : BuildPaymentLinkOptions) (scheme : string) (k : nat) (amount : Z) : string :=
  let coins := bf_Quo (bf_SetInt amount) (bf_NewFloat (10 ^ Z.of_nat k)) in
  let uri := scheme +:+ ":" +:+ pl_WalletAddress o +:+ "?amount=" +:+ bf_Text k coins in
  let uri := appendOptionalParam uri "label" (pl_Label o) in
  appendOptionalParam uri "message" (pl_Message o).

Definition BuildPaymentLink (o : BuildPaymentLinkOptions) : result string :=
  match pl_Amount o with
  | None => Err (errOther "amount cannot be nil")
  | Some amount =>
      if bool_decide (pl_WalletAddress o = ""%string)
      then Err (errOther "wallet public address cannot be empty")
      else
        match pl_Coin o with
        | BTC => Ok (coin_link o "bitcoin" 8 amount)
        | ETH => Ok (coin_link o "ethereum" 18 amount)
        | USDT => Ok (coin_link o "tether" 6 amount)
        | OtherCoin _ => Err (errOther ("unsupported coin: " +:+ coin_string (pl_Coin o)))
        end
  end.

Definition ConvertSatoshisToBitcoin (sat : option Z) : result bigFloat :=
  match sat with
  | None => Err (errOther "amount cannot be nil")
  | Some sat => Ok (bf_Quo (bf_SetInt sat) (bf_NewFloat (10 ^ 8)))
  end.

(** ** Rounding *)

Lemma rne_near n d : 0 < d -> 2 * Z.abs (rne n d * d - n) <= d.
Proof.
  intros Hd. unfold rne. pose proof (Z.div_mod n d). pose proof (Z.mod_pos_bound n d).
  repeat case_match; go_bool; nia.
Qed.

Lemma rne_unique n d a : 0 < d -> 2 * Z.abs (a * d - n) < d -> rne n d = a.
Proof. intros Hd Ha. pose proof (rne_near n d Hd). nia. Qed.

(** The leading bit: [2 ^ l <= n / d], with the powers on the side where they
    are integers. *)
Lemma log2_frac_le n d :
  0 < n -> 0 < d ->
  let l := log2_frac n d in
  (0 <= l -> d * 2 ^ l <= n) /\ (l < 0 -> d <= n * 2 ^ (- l)).
Proof.
  intros Hn Hd. unfold log2_frac. set (k := Z.log2 n - Z.log2 d).
  pose proof (Z.log2_spec n Hn) as [Hn1 Hn2]. pose proof (Z.log2_spec d Hd) as [Hd1 Hd2].
  pose proof (Z.log2_nonneg n). pose proof (Z.log2_nonneg d).
  destruct (if 0 <=? k then _ else _) eqn:E; cbn zeta.
  { destruct (0 <=? k) eqn:E2; go_bool; (split; [|]); go_lia. }
  split; intros Hl.
  - transitivity (2 ^ Z.succ (Z.log2 d) * 2 ^ (k - 1)).
    { apply Z.mul_le_mono_nonneg_r; lia. }
    rewrite <-Z.pow_add_r by lia. unfold k. by replace (Z.succ (Z.log2 d) + (Z.log2 n - Z.log2 d - 1)) with (Z.log2 n) by lia.
  - transitivity (2 ^ Z.log2 n * 2 ^ (- (k - 1))); [|apply Z.mul_le_mono_nonneg_r; lia].
    rewrite <-Z.pow_add_r by lia. unfold k.
    replace (Z.log2 n + - (Z.log2 n - Z.log2 d - 1)) with (Z.succ (Z.log2 d)) by lia. lia.
Qed.

Lemma scale_rne_nonneg n d e : 0 <= e -> scale_rne n d e = rne n (d * 2 ^ e).
Proof. intros He. unfold scale_rne. by rewrite (proj2 (Z.leb_le 0 e) He). Qed.

Lemma scale_rne_neg n d e : e < 0 -> scale_rne n d e = rne (n * 2 ^ (- e)) d.
Proof. intros He. unfold scale_rne. by rewrite (proj2 (Z.leb_gt 0 e) He). Qed.

(** Below 2^63 the rounded quotient prints back the exact amount. *)
Lemma quo_text_exact k a :
  10 ^ Z.of_nat k < 2 ^ 63 -> - 2 ^ 63 < a < 2 ^ 63 ->
  bf_Text k (bf_Quo (bf_SetInt a) (bf_NewFloat (10 ^ Z.of_nat k))) = decimal k (a <? 0) (Z.abs a).
Proof.
  intros Hk Ha. pose proof (Z.pow_pos_nonneg 10 (Z.of_nat k) ltac:(lia) ltac:(lia)) as Hd.
  set (d := 10 ^ Z.of_nat k) in *. unfold bf_Text, bf_Quo, bf_SetInt, bf_NewFloat. cbn.
  rewrite xorb_false_r. destruct (Z.abs a =? 0) eqn:E.
  { go_bool. rewrite E. reflexivity. }
  go_bool. fold d. set (n := Z.abs a). assert (Hn : 0 < n < 2 ^ 63) by lia.
  replace (Z.max (Z.max (bitlen a) 64) 53) with 64.
  2:{ unfold bitlen. destruct (a =? 0); [lia|]. fold n.
      pose proof (Z.log2_lt_pow2 n 63 ltac:(lia)). lia. }
  destruct (log2_frac_le n d) as [Hl1 Hl2]; [lia..|]. set (l := log2_frac n d) in *.
  cbn [bf_neg bf_mant bf_exp]. f_equal.
  assert (Hl63 : l < 63).
  { destruct (Z.lt_ge_cases l 63); [done|]. pose proof (Z.pow_le_mono_r 2 63 l). specialize (Hl1 ltac:(lia)). nia. }
  assert (Hdl : d < 2 ^ (63 - l)).
  { destruct (Z.lt_ge_cases l 0) as [Hneg|Hpos].
    - specialize (Hl2 Hneg). replace (63 - l) with (63 + - l) by lia. rewrite Z.pow_add_r by lia.
      pose proof (Z.pow_pos_nonneg 2 (- l) ltac:(lia) ltac:(lia)).
      apply Z.le_lt_trans with (n * 2 ^ (- l)); [done|]. apply Z.mul_lt_mono_pos_r; lia.
    - specialize (Hl1 Hpos). pose proof (Z.pow_pos_nonneg 2 l).
      assert (2 ^ 63 = 2 ^ (63 - l) * 2 ^ l) as Hp by (rewrite <-Z.pow_add_r by lia; f_equal; lia). nia. }
  rewrite (scale_rne_neg n d), scale_rne_nonneg by lia.
  replace (- (l - 64 + 1)) with (63 - l) by lia.
  replace (- (0 - 0 + (l - 64 + 1))) with (63 - l) by lia.
  set (s := 2 ^ (63 - l)) in *. pose proof (rne_near (n * s) d Hd) as Hr.
  rewrite Z.mul_1_l. apply rne_unique; [lia|]. nia.
Qed.

(** ** Reading a link back *)

(** [url.QueryUnescape]. *)
Fixpoint query_unescape (s : string) : option string :=
  match s with
  | EmptyString => Some EmptyString
  | String c s' =>
      if bool_decide (c = "%"%char) then
        match s' with
        | String a (String b t) =>
            x ← hex_val a; y ← hex_val b; String (char_of (16 * x + y)) <$> query_unescape t
        | _ => None
        end
      else if bool_decide (c = "+"%char) then String " " <$> query_unescape s'
      else String c <$> query_unescape s'
  end.

Lemma query_unescape_char c t : query_unescape (escape_char c +:+ t) = String c <$> query_unescape t.
Proof. destruct c as [[] [] [] [] [] [] [] []]; reflexivity. Qed.

(** Escaping loses nothing. *)
Lemma query_escape_roundtrip s : query_unescape (query_escape s) = Some s.
Proof.
  induction s as [|c s IH]; [done|]. change (query_escape (String c s)) with (escape_char c +:+ query_escape s).
  by rewrite query_unescape_char, IH.
Qed.

(** Characters that cannot be taken for the separators of a link. *)
Definition not_sep (c : ascii) : bool := bool_decide (c <> "&"%char) && bool_decide (c <> "="%char).

Lemma escape_char_not_sep c : str_all not_sep (escape_char c) = true.
Proof. destruct c as [[] [] [] [] [] [] [] []]; reflexivity. Qed.

Lemma query_escape_not_sep s : str_all not_sep (query_escape s) = true.
Proof.
  induction s as [|c s IH]; [done|]. change (query_escape (String c s)) with (escape_char c +:+ query_escape s).
  by rewrite str_all_app, escape_char_not_sep, IH.
Qed.

(** The amount in base units of a decimal with [k] fraction digits. *)
Definition read_amount (k : nat) (s : string) : option Z :=
  let '(neg, s) := match s with
                   | String c t => if bool_decide (c = "-"%char) then (true, t) else (false, s)
                   | EmptyString => (false, s)
                   end in
  '(i, f) ← split2 "." s;
  if bool_decide (String.length f = k) then
    z ← parse_digits (i +:+ f) 0; Some (if (neg : bool) then - z else z)
  else None.

Lemma split2_app sep a b :
  str_all (fun c => bool_decide (c <> sep)) a = true -> split2 sep (a +:+ String sep b) = Some (a, b).
Proof.
  induction a as [|c a IH].
  { intros _. rewrite append_nil. cbn. by rewrite bool_decide_true. }
  rewrite append_cons. cbn. intros [Hc%bool_decide_eq_true Ha]%andb_prop.
  by rewrite bool_decide_false, IH by done.
Qed.

(** A printed decimal reads back as the number of base units. *)
Lemma read_decimal k neg z : 0 <= z -> read_amount k (decimal k neg z) = Some (if neg : bool then - z else z).
Proof.
  intros Hz. unfold decimal. set (p := 10 ^ Z.of_nat k).
  assert (Hp : 0 < p) by (apply Z.pow_pos_nonneg; lia).
  pose proof (Z.mod_pos_bound z p Hp). pose proof (Z.div_mod z p ltac:(lia)).
  assert (Hq : 0 <= z / p) by (apply Z.div_pos; lia).
  set (i := dec_digits _ _ _). set (f := fixed_digits _ _ _).
  assert (Hi : str_all is_digit i = true) by (by apply dec_digits_all).
  assert (Hs : split2 "." (i +:+ "." +:+ f) = Some (i, f)).
  { change ("." +:+ f) with (String "." f). apply split2_app.
    eapply str_all_impl; [|done]. intros c Hc. apply bool_decide_eq_true. by intros ->. }
  assert (Hv : parse_digits (i +:+ f) 0 = Some z).
  { rewrite parse_digits_app. unfold i, f. rewrite parse_dec by done. cbn [mbind option_bind].
    rewrite fixed_digits_spec by done. cbn. f_equal. fold p. lia. }
  assert (Hf : String.length f = k) by (unfold f; rewrite fixed_digits_length; cbn; lia).
  destruct neg.
  - rewrite append_cons, append_nil. unfold read_amount. rewrite bool_decide_true by done.
    rewrite Hs. cbn [mbind option_bind]. by rewrite bool_decide_true, Hv by done.
  - rewrite append_nil. destruct (dec_digits_head (dec_fuel (z / p)) (z / p) "") as (c & s & He & Hc); [done..|].
    fold i in He. unfold read_amount. rewrite He, append_cons.
    rewrite bool_decide_false by (intros ->; done). rewrite <-append_cons, <-He, Hs. cbn [mbind option_bind].
    by rewrite bool_decide_true, Hv by done.
Qed.

Lemma decimal_not_sep k neg z : 0 <= z -> str_all not_sep (decimal k neg z) = true.
Proof.
  intros Hz. unfold decimal. assert (Himp : forall c, is_digit c = true -> not_sep c = true).
  { intros c Hc. unfold not_sep. rewrite !bool_decide_true by (by intros ->). done. }
  pose proof (Z.pow_pos_nonneg 10 (Z.of_nat k) ltac:(lia) ltac:(lia)).
  rewrite !str_all_app. apply andb_true_intro. split; [by destruct neg|].
  rewrite (str_all_impl is_digit); [|done|apply dec_digits_all; [apply Z.div_pos; lia|done]].
  rewrite (str_all_impl is_digit _ (fixed_digits _ _ _)); [done|done|by apply fixed_digits_all].
Qed.

(** The value of a query parameter, empty when it is absent. *)
Fixpoint read_param (key : string) (pieces : list string) : option string :=
  match pieces with
  | [] => Some ""%string
  | piece :: pieces =>
      '(k, v) ← split2 "=" piece;
      if bool_decide (k = key) then query_unescape v else read_param key pieces
  end.

(** What a wallet reads from a link: everything up to the amount, the amount
    in base units, the label and the message. *)
Definition read_link (k : nat) (link : string) : option (string * Z * string * string) :=
  match split "&" link with
  | [] => None
  | base :: params =>
      '(head, amount) ← split2 "=" base;
      z ← read_amount k amount; label ← read_param "label" params; message ← read_param "message" params;
      Some (head, z, label, message)
  end.

(** The optional parameters as pieces of the query. *)
Definition param_piece (key value : string) : list string :=
  if bool_decide (value = ""%string) then [] else [key +:+ "=" +:+ query_escape value].

Lemma not_sep_amp s : str_all not_sep s = true -> str_all (fun c => bool_decide (c <> "&"%char)) s = true.
Proof. apply str_all_impl. by intros c [? _]%andb_prop. Qed.

Lemma not_sep_eq s : str_all not_sep s = true -> str_all (fun c => bool_decide (c <> "="%char)) s = true.
Proof. apply str_all_impl. by intros c [_ ?]%andb_prop. Qed.

Lemma split_snoc sep a b :
  str_all (fun c => bool_decide (c <> sep)) b = true -> split sep (a +:+ String sep b) = split sep a ++ [b].
Proof.
  intros Hb. induction a as [|c a IH].
  { rewrite append_nil. cbn. rewrite bool_decide_true by done. cbn. by rewrite split_none. }
  rewrite append_cons. cbn. rewrite IH. case_bool_decide; [done|].
  destruct (split sep a) as [|p ps] eqn:E; [|done].
  destruct a; cbn in E; [done|]. repeat case_match; done.
Qed.

Lemma split_param uri key value :
  str_all not_sep key = true ->
  split "&" (appendOptionalParam uri key value) = split "&" uri ++ param_piece key value.
Proof.
  intros Hk. unfold appendOptionalParam, param_piece. case_bool_decide; [by rewrite app_nil_r|].
  change ("&" +:+ key +:+ "=" +:+ query_escape value) with (String "&" (key +:+ "=" +:+ query_escape value)).
  apply split_snoc. rewrite !str_all_app, (not_sep_amp key), (not_sep_amp (query_escape value)) by
    (done || apply query_escape_not_sep). done.
Qed.

Lemma read_param_hit key value rest :
  str_all not_sep key = true -> read_param key (param_piece key value ++ rest)
  = if bool_decide (value = ""%string) then read_param key rest else Some value.
Proof.
  intros Hk. unfold param_piece. case_bool_decide; [done|]. cbn [app read_param].
  change ("=" +:+ query_escape value) with (String "=" (query_escape value)).
  rewrite split2_app by (by apply not_sep_eq). cbn [mbind option_bind].
  by rewrite bool_decide_true, query_escape_roundtrip by done.
Qed.

Lemma read_param_miss key key' value rest :
  str_all not_sep key' = true -> key' <> key ->
  read_param key (param_piece key' value ++ rest) = read_param key rest.
Proof.
  intros Hk Hne. unfold param_piece. case_bool_decide; [done|]. cbn [app read_param].
  change ("=" +:+ query_escape value) with (String "=" (query_escape value)).
  rewrite split2_app by (by apply not_sep_eq). cbn [mbind option_bind]. by rewrite bool_decide_false.
Qed.

(** The scheme of a coin and its number of decimals. *)
Definition coin_format (c : Coin) : option (string * nat) :=
  match c with
  | BTC => Some ("bitcoin"%string, 8%nat)
  | ETH => Some ("ethereum"%string, 18%nat)
  | USDT => Some ("tether"%string, 6%nat)
  | OtherCoin _ => None
  end.

Lemma BuildPaymentLink_eq o a scheme k :
  pl_Amount o = Some a -> pl_WalletAddress o <> ""%string -> coin_format (pl_Coin o) = Some (scheme, k) ->
  BuildPaymentLink o = Ok (coin_link o scheme k a).
Proof.
  intros Ha Hw Hc. unfold BuildPaymentLink. rewrite Ha, bool_decide_false by done.
  unfold coin_format in Hc. by case_match; simplify_eq.
Qed.

Lemma coin_link_read o a scheme k :
  10 ^ Z.of_nat k < 2 ^ 63 -> - 2 ^ 63 < a < 2 ^ 63 ->
  str_all not_sep scheme = true -> str_all not_sep (pl_WalletAddress o) = true ->
  read_link k (coin_link o scheme k a)
  = Some (scheme +:+ ":" +:+ pl_WalletAddress o +:+ "?amount", a, pl_Label o, pl_Message o).
Proof.
  intros Hk Ha Hs Hw. unfold coin_link. rewrite quo_text_exact by done.
  set (head := scheme +:+ ":" +:+ pl_WalletAddress o +:+ "?amount").
  assert (Hh : str_all not_sep head = true) by (unfold head; by rewrite !str_all_app, Hs, Hw).
  replace (scheme +:+ ":" +:+ pl_WalletAddress o +:+ "?amount=" +:+ decimal k (a <? 0) (Z.abs a))
    with (head +:+ String "=" (decimal k (a <? 0) (Z.abs a))) by (unfold head; by rewrite !append_assoc).
  unfold read_link. rewrite !split_param, split_none by
    (done || (rewrite str_all_app, (not_sep_amp head) by done; cbn [str_all];
              by rewrite (not_sep_amp (decimal _ _ _)) by (apply decimal_not_sep; lia))).
  cbn [app]. rewrite split2_app by (by apply not_sep_eq). cbn [mbind option_bind].
  rewrite read_decimal by lia. cbn [mbind option_bind].
  rewrite read_param_hit, read_param_miss by done.
  rewrite <-(app_nil_r (param_piece "message" _)), read_param_hit, read_param_miss by done.
  replace (if a <? 0 then - Z.abs a else Z.abs a) with a by (destruct (a <? 0) eqn:E; go_lia).
  cbn [read_param]. repeat case_bool_decide; cbn [mbind option_bind]; congruence.
Qed.

(** C39: a payment link carries exactly what it was built from: for a supported
    coin, a non-empty address without separators and an amount below 2^63 base
    units, the link has the coin's scheme and the address, its decimal amount
    reads back as the amount in base units without rounding error, and the
    label and the message read back as given, whatever bytes they hold. *)
Theorem payment_link_roundtrip o a scheme k :
  pl_Amount o = Some a -> - 2 ^ 63 < a < 2 ^ 63 ->
  pl_WalletAddress o <> ""%string -> str_all not_sep (pl_WalletAddress o) = true ->
  coin_format (pl_Coin o) = Some (scheme, k) ->
  exists link, BuildPaymentLink o = Ok link
    /\ read_link k link
       = Some (scheme +:+ ":" +:+ pl_WalletAddress o +:+ "?amount", a, pl_Label o, pl_Message o).
Proof.
  intros Ha Hr Hw Hs Hc. eexists. split; [by eapply BuildPaymentLink_eq|].
  apply coin_link_read; [|done| |done]; by destruct (pl_Coin o); cbn in Hc; simplify_eq.
Qed.

Definition demo_link : BuildPaymentLinkOptions := {|
  pl_WalletAddress := "bc1qar0srrr7xfkvy5l643lydnw9re59gtzzwf5mdq"; pl_Coin := BTC;
  pl_Amount := Some 123456789; pl_Label := "Luke & Co"; pl_Message := "50% = half" |}.

Example demo_link_text :
  BuildPaymentLink demo_link
  = Ok "bitcoin:bc1qar0srrr7xfkvy5l643lydnw9re59gtzzwf5mdq?amount=1.23456789&label=Luke+%26+Co&message=50%25+%3D+half"%string.
Proof. by vm_compute. Qed.

Lemma payment_link_roundtrip_witness :
  exists link, BuildPaymentLink demo_link = Ok link
    /\ read_link 8 link
       = Some ("bitcoin" +:+ ":" +:+ pl_WalletAddress demo_link +:+ "?amount", 123456789, "Luke & Co"%string, "50% = half"%string).
Proof. by apply (payment_link_roundtrip demo_link 123456789 "bitcoin" 8). Defined.

(** Above 2^63 base units the 64-bit quotient can be off by one: a link for
    18.000000000000000001 ether asks for one wei more. *)
Example eth_link_off_by_one :
  BuildPaymentLink {| pl_WalletAddress := "0xab"; pl_Coin := ETH; pl_Amount := Some 18000000000000000001;
                      pl_Label := ""; pl_Message := "" |}
  = Ok "ethereum:0xab?amount=18.000000000000000002"%string.
Proof. by vm_compute. Qed.
