(* ===== verification/PaymentCloud.v ===== *)
(** * Pushing invoice transitions

    [payment/cloud.go]: the stateless client that posts one invoice observation
    to the ingest endpoint.  The environment (clock, random bytes, URL parser,
    HTTP client) is a state [W] with the operations of [CloudWorld]. *)

From S2P Require Import Prelude GoInt GoString GoCodec GoHttp.

(** ** Data *)

Record ErrCloudHTTP := {
  ech_StatusCode : Z;
  ech_Body : string
}.

Definition ech_Error (e : ErrCloudHTTP) : string :=
  if bool_decide (ech_Body e <> ""%string)
  then "payment cloud: HTTP " +:+ format_int (ech_StatusCode e) +:+ ": " +:+ ech_Body e
  else "payment cloud: HTTP " +:+ format_int (ech_StatusCode e).

Definition IsRetryable (e : ErrCloudHTTP) : bool :=
  (500 <=? ech_StatusCode e) || (ech_StatusCode e =? 429).

Record CloudClient := {
  cc_endpoint : string;
  cc_apiKey : string;
  cc_agent : string;
  cc_http : httpClient
}.

Inductive CloudClientOption := WithHTTPClient (c : httpClient) | WithAgentName (name : string).

Definition apply_option (cc : CloudClient) (o : CloudClientOption) : CloudClient :=
  match o with
  | WithHTTPClient c =>
      {| cc_endpoint := cc_endpoint cc; cc_apiKey := cc_apiKey cc; cc_agent := cc_agent cc; cc_http := c |}
  | WithAgentName name =>
      if bool_decide (name <> ""%string)
      then {| cc_endpoint := cc_endpoint cc; cc_apiKey := cc_apiKey cc; cc_agent := name; cc_http := cc_http cc |}
      else cc
  end.

Definition NewCloudClient (apiKey endpoint : string) (opts : list CloudClientOption) : CloudClient :=
  let endpoint := if bool_decide (endpoint = ""%string) then "https://api.chainkit.dev"%string else endpoint in
  foldl apply_option {| cc_endpoint := endpoint; cc_apiKey := apiKey; cc_agent := "chainkit-go-sdk/payment";
                        cc_http := DefaultHTTPClient (10 * Second) |} opts.

Record CloudInvoiceObservation := {
  co_PublicID : string;
  co_Status : string;
  co_Txid : string;
  co_Confirmations : Z;
  co_ReceivedSats : Z;
  co_ObservedAt : Time
}.

Record cloudWireInvoice := {
  cwi_PublicID : string;
  cwi_Status : string;
  cwi_Txid : string;
  cwi_Confirmations : Z;
  cwi_ReceivedSats : Z;
  cwi_ObservedAt : Time
}.

Record cloudWireEnvelope := {
  cwe_ID : string;
  cwe_T : Time;
  cwe_Kind : string;
  cwe_Invoice : option cloudWireInvoice
}.

Record cloudWireBatch := {
  cwb_Schema : string;
  cwb_Agent : string;
  cwb_BatchID : string;
  cwb_SentAt : Time;
  cwb_Events : list cloudWireEnvelope
}.

(** [json.Marshal(batch)] succeeds. *)
Definition cloud_batch_ok (b : cloudWireBatch) : bool :=
  json_time_ok (cwb_SentAt b)
  && forallb (fun e => json_time_ok (cwe_T e)
                       && match cwe_Invoice e with Some i => json_time_ok (cwi_ObservedAt i) | None => true end)
       (cwb_Events b).

Record cloudRequest := {
  cr_URL : string;
  cr_Headers : list (string * string);
  cr_Client : httpClient;
  cr_Body : cloudWireBatch
}.

(** ** The environment *)

Class CloudWorld (W : Type) := {
  cw_now : W -> Time * W;
  (** eight bytes of [crypto/rand], or the error of the reader *)
  cw_random : W -> result (list Z) * W;
  (** [http.NewRequestWithContext]: the error of a URL that does not parse *)
  cw_url : string -> option error;
  (** [Client.Do]: the status and the first KiB of the body *)
  cw_do : cloudRequest -> W -> result (Z * string) * W
}.

(** How a submission ended: nil, an error, or a non-2xx answer. *)
Inductive submission := Submitted | SubmitError (e : error) | SubmitHTTP (e : ErrCloudHTTP).

Section submit.
Context {W : Type} `{CloudWorld W}.

Definition newEventID (w : W) : result string * W :=
  match cw_random w with
  | (Ok b, w) => (Ok (hex_encode b), w)
  | (Err e, w) => (Err e, w)
  end.

Definition observation_batch (agent eventID : string) (now : Time) (obs : CloudInvoiceObservation) : cloudWireBatch := {|
  cwb_Schema := "chainkit.ingest.v1"; cwb_Agent := agent; cwb_BatchID := "p-" +:+ eventID; cwb_SentAt := now;
  cwb_Events := [{|
    cwe_ID := eventID; cwe_T := co_ObservedAt obs; cwe_Kind := "invoice";
    cwe_Invoice := Some {|
      cwi_PublicID := co_PublicID obs; cwi_Status := co_Status obs; cwi_Txid := co_Txid obs;
      cwi_Confirmations := co_Confirmations obs; cwi_ReceivedSats := co_ReceivedSats obs;
      cwi_ObservedAt := co_ObservedAt obs |} |}] |}.

Definition observe_at (obs : CloudInvoiceObservation) (t : Time) : CloudInvoiceObservation := {|
  co_PublicID := co_PublicID obs; co_Status := co_Status obs; co_Txid := co_Txid obs;
  co_Confirmations := co_Confirmations obs; co_ReceivedSats := co_ReceivedSats obs; co_ObservedAt := t |}.

Definition SubmitInvoiceTransition (c : CloudClient) (obs : CloudInvoiceObservation) (w : W) : submission * W :=
  if bool_decide (co_PublicID obs = ""%string) then (SubmitError (errOther "payment cloud: PublicID is required"), w)
  else if bool_decide (co_Status obs = ""%string) then (SubmitError (errOther "payment cloud: Status is required"), w)
  else
    let '(obs, w) := if time_is_zero (co_ObservedAt obs)
                     then let '(t, w) := cw_now w in (observe_at obs t, w) else (obs, w) in
    let '(id, w) := newEventID w in
    match id with
    | Err e => (SubmitError (errWrap "payment cloud: event id: " e ""), w)
    | Ok eventID =>
        let '(now, w) := cw_now w in
        let batch := observation_batch (cc_agent c) eventID now obs in
        if negb (cloud_batch_ok batch)
        then (SubmitError (errWrap "payment cloud: marshal: " json_time_error ""), w)
        else
          let url := cc_endpoint c +:+ "/v1/ingest" in
          match cw_url url with
          | Some e => (SubmitError (errWrap "payment cloud: build request: " e ""), w)
          | None =>
              let '(resp, w) := cw_do {|
                cr_URL := url;
                cr_Headers := [("Authorization", "Bearer " +:+ cc_apiKey c); ("Content-Type", "application/json");
                               ("Accept", "application/json")]%string;
                cr_Client := cc_http c; cr_Body := batch |} w in
              match resp with
              | Err e => (SubmitError (errWrap "payment cloud: request: " e ""), w)
              | Ok (status, body) =>
                  if status =? 202 then (Submitted, w)
                  else (SubmitHTTP {| ech_StatusCode := status; ech_Body := body |}, w)
              end
          end
    end.
End submit.

(** ** A recording environment

    The specification talks about the requests sent: this world logs them. *)

Record logWorld := {
  (** the readings of the clock, and how many have been taken *)
  lw_clock : nat -> Time;
  lw_ticks : nat;
  lw_random : result (list Z);
  lw_answer : cloudRequest -> result (Z * string);
  lw_sent : list cloudRequest
}.

Section spec.
(** The URLs that do not parse. *)
Context (bad : string -> option error).

#[local] Instance log_world : CloudWorld logWorld := {|
  cw_now w := (lw_clock w (lw_ticks w),
               {| lw_clock := lw_clock w; lw_ticks := S (lw_ticks w); lw_random := lw_random w;
                  lw_answer := lw_answer w; lw_sent := lw_sent w |});
  cw_random w := (lw_random w, w);
  cw_url := bad;
  cw_do r w := (lw_answer w r, {| lw_clock := lw_clock w; lw_ticks := lw_ticks w; lw_random := lw_random w;
                                  lw_answer := lw_answer w; lw_sent := lw_sent w ++ [r] |})
|}.

(** The one request a valid observation gives rise to; the clock is read for
    the time of an observation that has none, and for the batch. *)
Definition invoice_request (c : CloudClient) (obs : CloudInvoiceObservation) (id : list Z) (w : logWorld) : cloudRequest :=
  let missing := time_is_zero (co_ObservedAt obs) in
  let obs' := if missing then observe_at obs (lw_clock w (lw_ticks w)) else obs in
  let now := lw_clock w (if missing then S (lw_ticks w) else lw_ticks w) in
  {| cr_URL := cc_endpoint c +:+ "/v1/ingest";
     cr_Headers := [("Authorization", "Bearer " +:+ cc_apiKey c); ("Content-Type", "application/json");
                    ("Accept", "application/json")]%string;
     cr_Client := cc_http c; cr_Body := observation_batch (cc_agent c) (hex_encode id) now obs' |}.

(** Why a submission ends before any request, in the order of the checks. *)
Definition refused (c : CloudClient) (obs : CloudInvoiceObservation) (w : logWorld) : option error :=
  if bool_decide (co_PublicID obs = ""%string) then Some (errOther "payment cloud: PublicID is required")
  else if bool_decide (co_Status obs = ""%string) then Some (errOther "payment cloud: Status is required")
  else
    match lw_random w with
    | Err e => Some (errWrap "payment cloud: event id: " e "")
    | Ok id =>
        if negb (cloud_batch_ok (cr_Body (invoice_request c obs id w)))
        then Some (errWrap "payment cloud: marshal: " json_time_error "")
        else (fun e => errWrap "payment cloud: build request: " e "") <$> bad (cc_endpoint c +:+ "/v1/ingest")
    end.

(** C40: a submission sends nothing and returns the error of the first check
    that fails (no invoice identifier, no status, no random bytes, a time that
    cannot be encoded, an endpoint that does not parse); otherwise it sends
    exactly one request, to the ingest endpoint, with the API key and one event
    that carries the observation under the identifier drawn.  It succeeds exactly
    when that is answered 202; any other status, the other 2xx included (see
    the findings), is returned as [ErrCloudHTTP] with the status and the
    excerpt of the body, retryable exactly for 429 and from 500 on; a failed
    request is returned wrapped.  The HTTP client given to the constructor is not nil. *)
Theorem SubmitInvoiceTransition_spec c obs (w : logWorld) :
  let '(r, w') := SubmitInvoiceTransition c obs w in
  match refused c obs w with
  | Some e => r = SubmitError e /\ lw_sent w' = lw_sent w
  | None =>
      exists id, lw_random w = Ok id
        /\ let rq := invoice_request c obs id w in
           lw_sent w' = lw_sent w ++ [rq]
           /\ match lw_answer w rq with
              | Ok (status, body) =>
                  if decide (status = 202) then r = Submitted
                  else exists e, r = SubmitHTTP e /\ ech_StatusCode e = status /\ ech_Body e = body
                         /\ (IsRetryable e = true <-> status = 429 \/ 500 <= status)
              | Err e => r = SubmitError (errWrap "payment cloud: request: " e "")
              end
  end.
Proof.
  unfold SubmitInvoiceTransition, refused. case_bool_decide; [done|]. case_bool_decide; [done|].
  set (missing := time_is_zero (co_ObservedAt obs)).
  set (w1 := if missing then (cw_now w).2 else w).
  replace (if missing then _ else (obs, w)) with (if missing then observe_at obs (lw_clock w (lw_ticks w)) else obs, w1)
    by (unfold w1; by destruct missing).
  assert (lw_random w1 = lw_random w /\ lw_sent w1 = lw_sent w /\ lw_answer w1 = lw_answer w
          /\ lw_clock w1 (lw_ticks w1) = lw_clock w (if missing then S (lw_ticks w) else lw_ticks w)) as (Hr & Hs & Ha & Ht)
    by (unfold w1; by destruct missing).
  unfold newEventID. cbn [cw_random cw_now cw_url cw_do log_world]. rewrite Hr.
  destruct (lw_random w) as [id|e]; [|done]. rewrite Ht.
  change (observation_batch _ _ _ _) with (cr_Body (invoice_request c obs id w)).
  destruct (cloud_batch_ok _); [cbn [negb]|done].
  destruct (bad _) as [e|]; [done|]. cbn [fmap option_fmap option_map lw_answer lw_sent]. rewrite Ha, Hs.
  change {| cr_URL := _; cr_Headers := _; cr_Client := _; cr_Body := _ |} with (invoice_request c obs id w).
  destruct (lw_answer w (invoice_request c obs id w)) as [[status body]|e] eqn:Hans;
    [destruct (Z.eqb_spec status 202)|]; (exists id; split; [done|]; cbv zeta; rewrite Hans; split; [done|]).
  - by rewrite decide_True.
  - rewrite decide_False by done. eexists. split; [done|]. split; [done|]. split; [done|].
    unfold IsRetryable. cbn [ech_StatusCode]. rewrite orb_true_iff, Z.leb_le, Z.eqb_eq. tauto.
  - done.
Qed.
End spec.
