(* ===== verification/Config.v ===== *)
(** * Chain configuration

    [config.go] and [provider_types.go]: the policies of a provider chain, the
    strategy and chain names (Go string types, so any string is a value), and
    the defaults. *)

From S2P Require Import Prelude GoInt GoFloat GoString.

(** ** Names of strategies and chains *)

Abbreviation SelectionStrategy := string (only parsing).

Definition SelectionStrategyPriorityOnly : SelectionStrategy := "priority_only"%string.
Definition SelectionStrategyRoundRobin : SelectionStrategy := "round_robin"%string.
Definition SelectionStrategyRandom : SelectionStrategy := "random"%string.
Definition SelectionStrategyLeastLoaded : SelectionStrategy := "least_loaded"%string.
Definition SelectionStrategyAdaptive : SelectionStrategy := "adaptive"%string.

Definition IsValid (s : SelectionStrategy) : bool :=
  bool_decide (s = SelectionStrategyPriorityOnly)
  || bool_decide (s = SelectionStrategyRoundRobin)
  || bool_decide (s = SelectionStrategyRandom)
  || bool_decide (s = SelectionStrategyLeastLoaded)
  || bool_decide (s = SelectionStrategyAdaptive).

(** The thirteen role chains; [chain_string] is the constant's value. *)
Inductive ProviderChainType :=
  | ProviderChainAddressGenerators
  | ProviderChainAddressValidators
  | ProviderChainFeeEstimators
  | ProviderChainFeeRecommenders
  | ProviderChainTxBroadcasters
  | ProviderChainUTXOFetchers
  | ProviderChainTxAssemblers
  | ProviderChainTxSizers
  | ProviderChainTxSigners
  | ProviderChainTxStatusFetchers
  | ProviderChainBalanceFetchers
  | ProviderChainRateFetchers
  | ProviderChainHistoricalRateFetchers.

#[global] Instance ProviderChainType_eq_dec : EqDecision ProviderChainType.
Proof. solve_decision. Defined.

Definition all_chains : list ProviderChainType :=
  [ ProviderChainAddressGenerators; ProviderChainAddressValidators;
    ProviderChainFeeEstimators; ProviderChainFeeRecommenders;
    ProviderChainTxBroadcasters; ProviderChainUTXOFetchers;
    ProviderChainTxAssemblers; ProviderChainTxSizers; ProviderChainTxSigners;
    ProviderChainTxStatusFetchers; ProviderChainBalanceFetchers;
    ProviderChainRateFetchers; ProviderChainHistoricalRateFetchers ].

Definition chain_string (c : ProviderChainType) : string :=
  match c with
  | ProviderChainAddressGenerators => "AddressGenerators"
  | ProviderChainAddressValidators => "AddressValidators"
  | ProviderChainFeeEstimators => "FeeEstimators"
  | ProviderChainFeeRecommenders => "FeeRecommenders"
  | ProviderChainTxBroadcasters => "TxBroadcasters"
  | ProviderChainUTXOFetchers => "UTXOFetchers"
  | ProviderChainTxAssemblers => "TxAssemblers"
  | ProviderChainTxSizers => "TxSizers"
  | ProviderChainTxSigners => "TxSigners"
  | ProviderChainTxStatusFetchers => "TxStatusFetchers"
  | ProviderChainBalanceFetchers => "BalanceFetchers"
  | ProviderChainRateFetchers => "RateFetchers"
  | ProviderChainHistoricalRateFetchers => "HistoricalRateFetchers"
  end.

(** The chain a string names, if any. *)
Definition chain_of_string (s : string) : option ProviderChainType :=
  List.find (fun c => bool_decide (chain_string c = s)) all_chains.

Lemma all_chains_complete c : c ∈ all_chains.
Proof. destruct c; apply (bool_decide_unpack _); vm_compute; exact I. Qed.

Lemma chain_of_string_string c : chain_of_string (chain_string c) = Some c.
Proof. by destruct c. Qed.

(** ** Policies *)

Record RetryPolicy := {
  rp_Enabled : bool;
  rp_MaxAttempts : Z;
  rp_InitialDelay : Duration;
  rp_MaxDelay : Duration;
  rp_BackoffMultiplier : f64;
  rp_Jitter : bool
}.

Record RateLimitConfig := {
  rl_Enabled : bool;
  rl_MaxRequests : Z;
  rl_Window : Duration;
  rl_BurstSize : Z
}.

Record CircuitBreakerConfig := {
  cb_Enabled : bool;
  cb_FailureThreshold : Z;
  cb_SuccessThreshold : Z;
  cb_Timeout : Duration;
  cb_HalfOpenMaxCalls : Z;
  cb_RecoveryWindowDuration : Duration
}.

Record HealthCheckConfig := {
  hc_Enabled : bool;
  hc_Interval : Duration;
  hc_Timeout : Duration;
  hc_UnhealthyThreshold : Z;
  hc_HealthyThreshold : Z
}.

Record ChainConfig := {
  cc_Name : string;
  cc_RetryPolicy : RetryPolicy;
  cc_CircuitBreaker : CircuitBreakerConfig;
  cc_RateLimit : RateLimitConfig;
  cc_Timeout : Duration;
  cc_MaxConcurrency : Z;
  cc_HealthCheck : HealthCheckConfig;
  cc_SelectionStrategy : SelectionStrategy
}.

Definition cc_set_SelectionStrategy (s : SelectionStrategy) (c : ChainConfig) : ChainConfig := {|
  cc_Name := cc_Name c;
  cc_RetryPolicy := cc_RetryPolicy c;
  cc_CircuitBreaker := cc_CircuitBreaker c;
  cc_RateLimit := cc_RateLimit c;
  cc_Timeout := cc_Timeout c;
  cc_MaxConcurrency := cc_MaxConcurrency c;
  cc_HealthCheck := cc_HealthCheck c;
  cc_SelectionStrategy := s
|}.

(** [DefaultChainConfig]. *)
Definition DefaultChainConfig (chainType : ProviderChainType) : ChainConfig := {|
  cc_Name := chain_string chainType;
  cc_RetryPolicy := {|
    rp_Enabled := true;
    rp_MaxAttempts := 3;
    rp_InitialDelay := 100 * Millisecond;
    rp_MaxDelay := 5 * Second;
    rp_BackoffMultiplier := f64_of_Z 2;
    rp_Jitter := true
  |};
  cc_CircuitBreaker := {|
    cb_Enabled := true;
    cb_FailureThreshold := 5;
    cb_SuccessThreshold := 3;
    cb_Timeout := 30 * Second;
    cb_HalfOpenMaxCalls := 3;
    cb_RecoveryWindowDuration := 60 * Second
  |};
  cc_Timeout := 30 * Second;
  cc_MaxConcurrency := 10;
  cc_HealthCheck := {|
    hc_Enabled := false;
    hc_Interval := 60 * Second;
    hc_Timeout := 5 * Second;
    hc_UnhealthyThreshold := 3;
    hc_HealthyThreshold := 2
  |};
  cc_RateLimit := {|
    rl_Enabled := false;
    rl_MaxRequests := 100;
    rl_Window := 1 * Minute;
    rl_BurstSize := 0
  |};
  cc_SelectionStrategy := SelectionStrategyPriorityOnly
|}.

(** [providerConfig]: a registered provider; [P] is the type of provider
    values ([interface{}] in the source). *)
Record providerConfig {P : Type} := {
  pc_Provider : P;
  pc_Priority : Z;
  pc_Name : string
}.
Arguments providerConfig : clear implicits.
