(* ===== verification/RateLimit.v ===== *)
(** * Rate limiting

    [rateLimitState] of [manager.go]: a sliding window of request times with a
    burst token bucket.  [CanMakeRequest] can panic (division by zero), so it
    returns [go]. *)

From S2P Require Import Prelude GoInt Config.

Record rateLimitState := {
  rls_RequestTimes : list Time;
  rls_BurstTokens : Z;
  rls_LastRefill : Time
}.

(** [newRateLimitState]; [now] is the reading of [time.Now()]. *)
Definition newRateLimitState (burstSize : Z) (now : Time) : rateLimitState := {|
  rls_RequestTimes := [];
  rls_BurstTokens := burstSize;
  rls_LastRefill := now
|}.

Definition minInt (a b : Z) : Z := if a <? b then a else b.

Definition CanMakeRequest (config : RateLimitConfig) (now : Time) (rls : rateLimitState)
    : go (bool * rateLimitState) :=
  if negb (rl_Enabled config) then Some (true, rls)
  else
    let windowStart := time_add now (wrap64 (- rl_Window config)) in
    let validRequests := filter (fun t => time_after t windowStart = true) (rls_RequestTimes rls) in
    let rls := {| rls_RequestTimes := validRequests;
                  rls_BurstTokens := rls_BurstTokens rls;
                  rls_LastRefill := rls_LastRefill rls |} in
    if zlen (rls_RequestTimes rls) <? rl_MaxRequests config then Some (true, rls)
    else if 0 <? rl_BurstSize config then
      let timeSinceRefill := time_sub now (rls_LastRefill rls) in
      refillInterval ← go_quot (rl_Window config) (rl_MaxRequests config);
      tokensToAdd ← go_quot timeSinceRefill refillInterval;
      let rls :=
        if 0 <? tokensToAdd then
          {| rls_RequestTimes := rls_RequestTimes rls;
             rls_BurstTokens :=
               minInt (wrap64 (rls_BurstTokens rls + tokensToAdd)) (rl_BurstSize config);
             rls_LastRefill := now |}
        else rls in
      if 0 <? rls_BurstTokens rls then
        Some (true, {| rls_RequestTimes := rls_RequestTimes rls;
                       rls_BurstTokens := wrap64 (rls_BurstTokens rls - 1);
                       rls_LastRefill := rls_LastRefill rls |})
      else Some (false, rls)
    else Some (false, rls).

Definition RecordRequest (config : RateLimitConfig) (now : Time) (rls : rateLimitState)
    : rateLimitState :=
  if negb (rl_Enabled config) then rls
  else {| rls_RequestTimes := rls_RequestTimes rls ++ [now];
          rls_BurstTokens := rls_BurstTokens rls;
          rls_LastRefill := rls_LastRefill rls |}.

(** ** Panics

    The only panics are the two divisions: with burst tokens enabled, a zero
    [MaxRequests] or a window shorter than [MaxRequests] nanoseconds. *)

Definition rl_sane (config : RateLimitConfig) : Prop :=
  0 < rl_MaxRequests config <= rl_Window config /\ rl_Window config <= max_int64
  /\ 0 <= rl_BurstSize config <= max_int64.

Lemma refill_interval_pos config :
  rl_sane config ->
  exists i, go_quot (rl_Window config) (rl_MaxRequests config) = Some i /\ 0 < i.
Proof.
  intros (Hm & Hw & _). rewrite go_quot_pos by lia. eexists. split; [done|].
  apply Z.div_str_pos. lia.
Qed.

Lemma CanMakeRequest_total config now rls :
  rl_sane config -> is_Some (CanMakeRequest config now rls).
Proof.
  intros Hs. unfold CanMakeRequest. destruct (rl_Enabled config); cbn; [|done].
  case_match; [done|]. case_match; [|done].
  destruct (refill_interval_pos config Hs) as (i & -> & Hi). cbn [mbind option_bind].
  unfold go_quot. destruct (i =? 0) eqn:E; [go_lia|]. cbn [mbind option_bind].
  by repeat case_match.
Qed.

(** ** The burst bucket

    The token count stays between 0 and [BurstSize]. *)

Definition rl_tokens_ok (config : RateLimitConfig) (rls : rateLimitState) : Prop :=
  0 <= rls_BurstTokens rls <= rl_BurstSize config.

Lemma minInt_min a b : minInt a b = Z.min a b.
Proof. unfold minInt. destruct (a <? b) eqn:E; go_lia. Qed.

Lemma CanMakeRequest_tokens config now rls b rls' :
  rl_sane config ->
  now - rls_LastRefill rls <= max_int64 - rl_BurstSize config ->
  rl_tokens_ok config rls ->
  CanMakeRequest config now rls = Some (b, rls') -> rl_tokens_ok config rls'.
Proof.
  intros Hs Hel Htok. pose proof Hs as (Hm & Hw & Hb). unfold CanMakeRequest, rl_tokens_ok in *.
  destruct (rl_Enabled config); cbn -[go_quot]; [|by intros [= <- <-]].
  case_match; [by intros [= <- <-]|]. case_match; [|by intros [= <- <-]].
  destruct (refill_interval_pos config Hs) as (i & -> & Hi). cbn [mbind option_bind].
  destruct (go_quot_bound (time_sub now (rls_LastRefill rls)) i) as (tok & -> & Htk);
    [auto with golib|done|]. cbn [mbind option_bind].
  assert (0 < tok -> tok <= max_int64 - rl_BurstSize config) as Htk'.
  { unfold time_sub, min_int64, max_int64 in *. lia. }
  destruct (0 <? tok) eqn:Et; cbn [rls_BurstTokens].
  all: case_match; intros [= <- <-]; cbn [rls_BurstTokens] in *.
  all: rewrite ?minInt_min in *.
  all: rewrite ?(wrap64_id (rls_BurstTokens rls + tok)) in * by int_range.
  all: rewrite ?wrap64_id by int_range; go_lia.
Qed.

(** ** The sliding window

    A caller that records every granted request: the state is threaded through
    a list of request times, and the granted ones are collected. *)

Definition rl_request (config : RateLimitConfig) (st : rateLimitState * list Time) (now : Time)
    : go (rateLimitState * list Time) :=
  '(granted, rls) ← CanMakeRequest config now st.1;
  Some (if granted : bool then (RecordRequest config now rls, st.2 ++ [now]) else (rls, st.2)).

Definition rl_trace (config : RateLimitConfig) (rls : rateLimitState) (ts : list Time)
    : go (rateLimitState * list Time) :=
  go_foldl (rl_request config) (rls, []) ts.

(** Requests granted in the window of length [Window] that ends at [t]. *)
Definition in_window (config : RateLimitConfig) (t : Time) (g : Time) : Prop :=
  t - rl_Window config < g <= t.

#[global] Instance in_window_dec config t g : Decision (in_window config t g).
Proof. unfold in_window. apply _. Defined.

Definition window_count (config : RateLimitConfig) (t : Time) (granted : list Time) : Z :=
  zlen (filter (in_window config t) granted).

(** The recorded times and the granted times agree on every window that a
    later request can look at, and no window holds more than the limit. *)
Definition rl_inv (config : RateLimitConfig) (last : Time) (st : rateLimitState * list Time) : Prop :=
  (forall w, last - rl_Window config <= w ->
     filter (fun t => time_after t w = true) (rls_RequestTimes st.1)
     = filter (fun t => time_after t w = true) st.2)
  /\ Forall (fun g => g <= last) st.2
  /\ forall t, window_count config t st.2 <= rl_MaxRequests config.

Lemma filter_after_weaken w w' (l : list Time) :
  w <= w' ->
  filter (fun t => time_after t w' = true) (filter (fun t => time_after t w = true) l)
  = filter (fun t => time_after t w' = true) l.
Proof.
  intros Hw. induction l as [|x l IH]; [done|]. rewrite !filter_cons. unfold time_after in *.
  repeat (case_decide; rewrite ?filter_cons); rewrite ?IH; try done; exfalso; go_lia.
Qed.

Lemma filter_length_impl {A} (P Q : A -> Prop) `{!forall x, Decision (P x), !forall x, Decision (Q x)} l :
  (forall x, x ∈ l -> P x -> Q x) -> zlen (filter P l) <= zlen (filter Q l).
Proof.
  induction l as [|x l IH]; intros HPQ; [done|]. rewrite !filter_cons.
  assert (zlen (filter P l) <= zlen (filter Q l)) by (apply IH; intros; apply HPQ; [by right|done]).
  repeat case_decide; rewrite ?zlen_cons; try lia. exfalso. eauto using list_elem_of_here.
Qed.

Lemma rl_inv_init config burst now :
  0 <= rl_MaxRequests config -> rl_inv config now (newRateLimitState burst now, []).
Proof. intros Hm. split_and!; [done|by apply Forall_nil|done]. Qed.

Lemma window_count_snoc config t l g :
  window_count config t (l ++ [g])
  = window_count config t l + (if decide (in_window config t g) then 1 else 0).
Proof.
  unfold window_count. rewrite filter_app, zlen_app. f_equal.
  cbn. by case_decide.
Qed.

(** What a request sees is the number of requests granted in its window. *)
Lemma rl_inv_window config last st now w :
  rl_inv config last st -> last <= now -> w = now - rl_Window config ->
  filter (fun t => time_after t w = true) (rls_RequestTimes st.1)
  = filter (fun t => time_after t w = true) st.2
  /\ forall t, now <= t -> window_count config t st.2
              <= zlen (filter (fun t => time_after t w = true) st.2).
Proof.
  intros (Hf & _ & _) Hnow ->. split; [apply Hf; lia|]. intros t Ht.
  apply filter_length_impl. intros x _. unfold in_window, time_after. rewrite Z.ltb_lt. lia.
Qed.

Lemma rl_request_inv config last st now st' :
  rl_Enabled config = true -> rl_BurstSize config <= 0 ->
  - max_int64 <= rl_Window config <= max_int64 ->
  rl_inv config last st -> last <= now ->
  rl_request config st now = Some st' -> rl_inv config now st'.
Proof.
  intros Hen Hb Hw HI Hnow. unfold rl_request, CanMakeRequest. rewrite Hen. cbn [negb].
  rewrite wrap64_id by int_range. unfold time_add.
  destruct (rl_inv_window config last st now (now + - rl_Window config) HI Hnow) as [Hwin Hcnt];
    [lia|]. destruct HI as (Hf & Hlast & Hmax).
  assert (Forall (fun g => g <= now) st.2) as Hlast' by (eapply Forall_impl; [done|cbn; lia]).
  cbn [rls_RequestTimes rls_BurstTokens rls_LastRefill]. rewrite Hwin.
  destruct (_ <? rl_MaxRequests config) eqn:Elt; cbn [mbind option_bind].
  - intros [= <-]. unfold RecordRequest. rewrite Hen. split_and!; cbn [fst snd rls_RequestTimes negb].
    + intros w Hww. by rewrite !filter_app, filter_after_weaken by lia.
    + apply Forall_app. split; [done|]. by constructor.
    + intros t. rewrite window_count_snoc. specialize (Hmax t). specialize (Hcnt t).
      case_decide as Hin; [|lia]. unfold in_window in Hin. go_lia.
  - destruct (0 <? rl_BurstSize config) eqn:Eb; [go_lia|]. cbn [mbind option_bind]. intros [= <-].
    split_and!; cbn [fst snd rls_RequestTimes]; [|done|done].
    intros w Hww. by rewrite filter_after_weaken by lia.
Qed.

(** Non-decreasing request times that start no earlier than [t0]. *)
Fixpoint ascending (t0 : Time) (ts : list Time) : Prop :=
  match ts with
  | [] => True
  | t :: ts => t0 <= t /\ ascending t ts
  end.

Lemma rl_trace_inv config last st ts st' :
  rl_Enabled config = true -> rl_BurstSize config <= 0 ->
  - max_int64 <= rl_Window config <= max_int64 ->
  rl_inv config last st -> ascending last ts ->
  go_foldl (rl_request config) st ts = Some st' ->
  exists last', rl_inv config last' st'.
Proof.
  intros Hen Hb Hw. revert last st. induction ts as [|t ts IH]; intros last st HI Hasc; cbn.
  { intros [= <-]. by exists last. }
  destruct Hasc as [Ht Hasc]. intros (st1 & H1 & H2)%bind_some.
  eapply IH; [|done|done]. by eapply rl_request_inv.
Qed.

(** Without burst tokens a limiter whose caller records every granted request
    never grants more than [MaxRequests] in any window. *)
Lemma rl_trace_bound config burst t0 ts rls granted t :
  rl_Enabled config = true -> rl_BurstSize config <= 0 -> 0 <= rl_MaxRequests config ->
  - max_int64 <= rl_Window config <= max_int64 -> ascending t0 ts ->
  rl_trace config (newRateLimitState burst t0) ts = Some (rls, granted) ->
  window_count config t granted <= rl_MaxRequests config.
Proof.
  intros Hen Hb Hm Hw Hasc Hrun.
  destruct (rl_trace_inv config t0 (newRateLimitState burst t0, []) ts (rls, granted))
    as (last & _ & _ & Hcnt); eauto using rl_inv_init.
Qed.

Lemma CanMakeRequest_no_burst config now rls :
  rl_BurstSize config <= 0 -> is_Some (CanMakeRequest config now rls).
Proof.
  intros Hb. unfold CanMakeRequest. destruct (rl_Enabled config); cbn [negb]; [|done].
  case_match; [done|]. destruct (0 <? rl_BurstSize config) eqn:E; [go_lia|done].
Qed.

Lemma rl_trace_total config st ts :
  rl_BurstSize config <= 0 -> is_Some (go_foldl (rl_request config) st ts).
Proof.
  intros Hb. revert st. induction ts as [|t ts IH]; intros st; [done|]. cbn [go_foldl].
  assert (is_Some (rl_request config st t)) as [st' ->]; [|apply IH]. unfold rl_request.
  destruct (CanMakeRequest_no_burst config t st.1 Hb) as [[b rls] ->]. by eexists.
Qed.

(** C29: without burst tokens, a limiter whose caller records every granted
    request, at non-decreasing times, never panics and never grants more than
    [MaxRequests] requests in any sliding window of length [Window]. *)
Theorem rate_limit_window config burst t0 ts :
  rl_Enabled config = true -> rl_BurstSize config <= 0 -> 0 <= rl_MaxRequests config ->
  - max_int64 <= rl_Window config <= max_int64 -> ascending t0 ts ->
  exists rls granted, rl_trace config (newRateLimitState burst t0) ts = Some (rls, granted)
    /\ forall t, window_count config t granted <= rl_MaxRequests config.
Proof.
  intros Hen Hb Hm Hw Hasc. unfold rl_trace.
  destruct (rl_trace_total config (newRateLimitState burst t0, []) ts Hb) as [[rls granted] Hrun].
  exists rls, granted. split; [done|]. intros t. by apply (rl_trace_bound config burst t0 ts rls).
Qed.

Definition demo_limit : RateLimitConfig := {|
  rl_Enabled := true; rl_MaxRequests := 2; rl_Window := 10 * Second; rl_BurstSize := 0 |}.

Definition demo_times : list Time := [Second; 2 * Second; 3 * Second; 12 * Second; 13 * Second].

Lemma rate_limit_window_witness :
  (snd <$> rl_trace demo_limit (newRateLimitState 0 0) demo_times) = Some [Second; 2 * Second; 12 * Second; 13 * Second]
  /\ exists rls granted, rl_trace demo_limit (newRateLimitState 0 0) demo_times = Some (rls, granted)
    /\ forall t, window_count demo_limit t granted <= rl_MaxRequests demo_limit.
Proof.
  split; [vm_compute; reflexivity|].
  apply (rate_limit_window demo_limit 0 0 demo_times); [reflexivity|discriminate|discriminate| |].
  - split; vm_compute; discriminate.
  - repeat split; vm_compute; discriminate.
Defined.

(** With a sane configuration (a positive limit, a window of at least that
    many nanoseconds) a request never panics and the burst bucket stays
    between empty and [BurstSize], as long as the clock has not run away from
    the last refill. *)
Theorem burst_tokens_bounded config now rls :
  rl_sane config -> rl_tokens_ok config rls ->
  now - rls_LastRefill rls <= max_int64 - rl_BurstSize config ->
  exists b rls', CanMakeRequest config now rls = Some (b, rls') /\ rl_tokens_ok config rls'.
Proof.
  intros Hs Ht Hn. destruct (CanMakeRequest_total config now rls Hs) as [[b rls'] Hc].
  exists b, rls'. split; [done|]. by eapply CanMakeRequest_tokens.
Qed.

Definition demo_burst : RateLimitConfig := {|
  rl_Enabled := true; rl_MaxRequests := 2; rl_Window := 10 * Second; rl_BurstSize := 3 |}.

Lemma burst_tokens_bounded_witness :
  rl_tokens_ok demo_burst (newRateLimitState 3 0)
  /\ exists b rls', CanMakeRequest demo_burst (60 * Second) (newRateLimitState 3 0) = Some (b, rls')
       /\ rl_tokens_ok demo_burst rls'.
Proof.
  assert (rl_tokens_ok demo_burst (newRateLimitState 3 0)) as Ht by (split; vm_compute; discriminate).
  split; [exact Ht|]. apply (burst_tokens_bounded demo_burst (60 * Second) (newRateLimitState 3 0)); [|exact Ht|].
  - repeat split; vm_compute; congruence.
  - vm_compute. discriminate.
Defined.
