(* ===== verification/Sorting.v ===== *)
(** * The program's sorting loops

    Three shapes of sorting occur in the source:
    - the exchange sort [for i; for j > i; if gt(s[i], s[j]) swap] of the
      least-loaded and adaptive selectors and of [Engine.GetSortedProviders];
    - the bubble sort [sortDurations] of [scoring/latency.go];
    - [sort.Slice] / [sort.Ints] of the standard library, of which only the
      documented contract is used: the result is an ordered permutation, with
      no promise of stability. *)

From S2P Require Import Prelude GoInt.

Section exchange.
Context {A : Type} (gt : A -> A -> bool).

(** The body of the inner loop: compare [s[i]] and [s[j]], swap if greater. *)
Definition exchange_step (i : nat) (s : list A) (j : nat) : list A :=
  match s !! i, s !! j with
  | Some x, Some y => if gt x y then <[j:=x]> (<[i:=y]> s) else s
  | _, _ => s
  end.

(** [for j := i + 1; j < len(s); j++]. *)
Definition exchange_inner (s : list A) (i : nat) : list A :=
  foldl (exchange_step i) s (seq (i + 1) (length s - (i + 1))).

(** [for i := 0; i < len(s) - 1; i++]. *)
Definition exchange_sort (s : list A) : list A :=
  foldl exchange_inner s (seq 0 (length s - 1)).

(** The same computation on the list structure: the inner loop carries the
    current minimum through the tail. *)
Fixpoint select (x : A) (l : list A) : A * list A :=
  match l with
  | [] => (x, [])
  | y :: l =>
      if gt x y then let '(m, l') := select y l in (m, x :: l')
      else let '(m, l') := select x l in (m, y :: l')
  end.

Fixpoint select_sort (fuel : nat) (l : list A) : list A :=
  match fuel, l with
  | S fuel, x :: l => let '(m, l') := select x l in m :: select_sort fuel l'
  | _, _ => l
  end.

Lemma select_length x l : length (select x l).2 = length l.
Proof.
  revert x. induction l as [|y l IH]; intros x; [done|]. cbn. destruct (gt x y).
  - specialize (IH y). destruct (select y l). cbn in *. lia.
  - specialize (IH x). destruct (select x l). cbn in *. lia.
Qed.

Lemma exchange_step_at pre x mid y post :
  exchange_step (length pre) (pre ++ x :: mid ++ y :: post) (length pre + S (length mid))
  = if gt x y then pre ++ y :: mid ++ x :: post else pre ++ x :: mid ++ y :: post.
Proof.
  unfold exchange_step. rewrite list_lookup_middle by done.
  rewrite (lookup_app_r pre) by lia. replace (_ + _ - length pre)%nat with (S (length mid)) by lia.
  change ((x :: mid ++ y :: post) !! S (length mid)) with ((mid ++ y :: post) !! length mid).
  rewrite list_lookup_middle by done. destruct (gt x y); [|done].
  rewrite insert_app_r_alt, Nat.sub_diag by lia.
  change (<[0%nat:=y]> (x :: mid ++ y :: post)) with (y :: mid ++ y :: post).
  rewrite insert_app_r_alt by lia. replace (_ + _ - length pre)%nat with (S (length mid)) by lia.
  change (<[S (length mid):=x]> (y :: mid ++ y :: post))
    with (y :: <[length mid:=x]> (mid ++ y :: post)).
  by rewrite insert_app_r_alt, Nat.sub_diag by lia.
Qed.

Lemma exchange_inner_loop pre x mid post :
  foldl (exchange_step (length pre)) (pre ++ x :: mid ++ post)
    (seq (length pre + S (length mid)) (length post))
  = pre ++ (select x post).1 :: mid ++ (select x post).2.
Proof.
  revert x mid. induction post as [|y post IH]; intros x mid; [done|]. cbn [seq length foldl].
  rewrite exchange_step_at. cbn [select].
  replace (S (length pre + S (length mid))) with (length pre + S (length (mid ++ [if gt x y then x else y])))%nat
    by (rewrite length_app; cbn; lia).
  destruct (gt x y).
  - rewrite (cons_middle x mid post), (app_assoc mid), IH.
    destruct (select y post); cbn. by rewrite <-app_assoc.
  - rewrite (cons_middle y mid post), (app_assoc mid), IH.
    destruct (select x post); cbn. by rewrite <-app_assoc.
Qed.

Lemma exchange_inner_select pre x l :
  exchange_inner (pre ++ x :: l) (length pre) = pre ++ (select x l).1 :: (select x l).2.
Proof.
  unfold exchange_inner. rewrite length_app. cbn [length].
  replace (length pre + S (length l) - (length pre + 1))%nat with (length l) by lia.
  apply (exchange_inner_loop pre x [] l).
Qed.

Lemma exchange_loop_select pre l :
  foldl exchange_inner (pre ++ l) (seq (length pre) (length l - 1))
  = pre ++ select_sort (length l - 1) l.
Proof.
  remember (length l) as n eqn:Hn. revert pre l Hn.
  induction n as [|n IH]; intros pre l Hn; [by destruct l|].
  destruct l as [|x l]; [done|]. injection Hn as Hn. cbn [Nat.sub]. rewrite Nat.sub_0_r.
  destruct n as [|n]; [by destruct l|]. cbn [seq foldl select_sort].
  rewrite exchange_inner_select. pose proof (select_length x l) as Hl.
  destruct (select x l) as [m l']. cbn [fst snd] in *.
  change (pre ++ m :: l') with (pre ++ [m] ++ l'). rewrite (assoc_L (++)).
  specialize (IH (pre ++ [m]) l' ltac:(lia)). rewrite length_app, Nat.add_1_r in IH.
  cbn [Nat.sub] in IH. rewrite Nat.sub_0_r in IH. rewrite IH. by rewrite <-(assoc_L (++)).
Qed.

(** The index loops compute the structural selection. *)
Lemma exchange_sort_select l : exchange_sort l = select_sort (length l - 1) l.
Proof. apply (exchange_loop_select [] l). Qed.

(** ** The exchange sort permutes its input *)

Lemma select_perm x l : (select x l).1 :: (select x l).2 ≡ₚ x :: l.
Proof.
  revert x. induction l as [|y l IH]; intros x; [done|]. cbn. destruct (gt x y).
  - specialize (IH y). destruct (select y l) as [m l']; cbn in *.
    etrans; [apply Permutation_swap|]. by rewrite IH.
  - specialize (IH x). destruct (select x l) as [m l']; cbn in *.
    etrans; [apply Permutation_swap|]. rewrite IH. apply Permutation_swap.
Qed.

Lemma select_sort_perm n l : select_sort n l ≡ₚ l.
Proof.
  revert l. induction n as [|n IH]; intros [|x l]; try done. cbn.
  pose proof (select_perm x l). destruct (select x l) as [m l']; cbn in *. by rewrite IH.
Qed.

Lemma exchange_sort_perm l : exchange_sort l ≡ₚ l.
Proof. rewrite exchange_sort_select. apply select_sort_perm. Qed.

(** ** ... and orders it

    when [gt] is a strict weak order on the elements (those satisfying [ok]). *)

Context (ok : A -> Prop).
Hypothesis gt_irrefl : forall x, ok x -> gt x x = false.
Hypothesis gt_asym : forall x y, ok x -> ok y -> gt x y = true -> gt y x = false.
Hypothesis gt_negtrans : forall x y z,
  ok x -> ok y -> ok z -> gt x y = false -> gt y z = false -> gt x z = false.

Lemma select_min x l :
  ok x -> Forall ok l ->
  Forall (fun y => gt (select x l).1 y = false) (x :: (select x l).2).
Proof.
  revert x. induction l as [|y l IH]; intros x Hx Hl; cbn.
  { constructor; [auto|constructor]. }
  apply Forall_cons in Hl as [Hy Hl]. destruct (gt x y) eqn:E.
  - specialize (IH y Hy Hl). pose proof (select_perm y l) as Hp.
    destruct (select y l) as [m l']; cbn in *. apply Forall_cons in IH as [IHy IH].
    assert (ok m) by (assert (m ∈ y :: l) as Hin by (rewrite <-Hp; left);
      apply elem_of_cons in Hin as [->|Hin]; [done|by eapply Forall_forall]).
    assert (gt m x = false) by (apply (gt_negtrans m y x); auto).
    by repeat constructor.
  - specialize (IH x Hx Hl). pose proof (select_perm x l) as Hp.
    destruct (select x l) as [m l']; cbn in *. apply Forall_cons in IH as [IHx IH].
    assert (ok m) by (assert (m ∈ x :: l) as Hin by (rewrite <-Hp; left);
      apply elem_of_cons in Hin as [->|Hin]; [done|by eapply Forall_forall]).
    repeat constructor; [done| |done]. by apply (gt_negtrans m x y).
Qed.

Lemma select_sort_sorted n l :
  (length l <= S n)%nat -> Forall ok l ->
  StronglySorted (fun x y => gt x y = false) (select_sort n l).
Proof.
  revert l. induction n as [|n IH]; intros [|x l] Hn Hok; cbn in *; try constructor.
  { destruct l; [constructor|cbn in *; lia]. }
  { destruct l; [constructor|cbn in *; lia]. }
  apply Forall_cons in Hok as [Hx Hl].
  pose proof (select_min x l Hx Hl) as Hmin. pose proof (select_perm x l) as Hp.
  pose proof (select_length x l). destruct (select x l) as [m l']; cbn in *.
  apply Forall_cons in Hmin as [_ Hmin].
  assert (Forall ok (m :: l')) as Hok' by (rewrite Hp; by constructor).
  apply Forall_cons in Hok' as [_ Hok'].
  constructor; [apply IH; [lia|done]|]. by rewrite select_sort_perm.
Qed.

Lemma exchange_sort_sorted l :
  Forall ok l -> StronglySorted (fun x y => gt x y = false) (exchange_sort l).
Proof. intros. rewrite exchange_sort_select. apply select_sort_sorted; [lia|done]. Qed.
End exchange.

(** ** [sortDurations]: bubble sort on durations *)

Definition bubble_step (s : list Z) (j : nat) : list Z :=
  match s !! j, s !! (j + 1)%nat with
  | Some x, Some y => if y <? x then <[(j + 1)%nat:=x]> (<[j:=y]> s) else s
  | _, _ => s
  end.

(** [for j := 0; j < n - i - 1; j++]. *)
Definition bubble_inner (s : list Z) (i : nat) : list Z :=
  foldl bubble_step s (seq 0 (length s - i - 1)).

(** [for i := 0; i < n - 1; i++]. *)
Definition sortDurations (s : list Z) : list Z :=
  foldl bubble_inner s (seq 0 (length s - 1)).

(** One pass of [k] comparisons, on the list structure. *)
Fixpoint bubble (k : nat) (l : list Z) : list Z :=
  match k, l with
  | S k, x :: y :: l => if y <? x then y :: bubble k (x :: l) else x :: bubble k (y :: l)
  | _, _ => l
  end.

Lemma bubble_step_at pre x y l :
  bubble_step (pre ++ x :: y :: l) (length pre)
  = if y <? x then pre ++ y :: x :: l else pre ++ x :: y :: l.
Proof.
  unfold bubble_step. rewrite list_lookup_middle by done.
  rewrite (lookup_app_r pre) by lia. replace (_ + 1 - length pre)%nat with 1%nat by lia.
  cbn. destruct (y <? x); [|done].
  rewrite insert_app_r_alt, Nat.sub_diag by lia. cbn.
  rewrite insert_app_r_alt by lia. by replace (_ + 1 - length pre)%nat with 1%nat by lia.
Qed.

Lemma bubble_loop k pre l :
  (k < length l)%nat ->
  foldl bubble_step (pre ++ l) (seq (length pre) k) = pre ++ bubble k l.
Proof.
  revert pre l. induction k as [|k IH]; intros pre l Hk; [done|].
  destruct l as [|x [|y l]]; cbn in Hk; [lia..|]. cbn [seq foldl bubble].
  rewrite bubble_step_at. replace (S (length pre)) with (length (pre ++ [if y <? x then y else x]))
    by (rewrite length_app; cbn; lia).
  destruct (y <? x).
  - rewrite (cons_middle y pre), app_assoc, IH by (cbn; lia). by rewrite <-app_assoc.
  - rewrite (cons_middle x pre), app_assoc, IH by (cbn; lia). by rewrite <-app_assoc.
Qed.

(** A pass over a prefix moves its maximum to the end of the prefix. *)
Lemma bubble_max a b :
  a <> [] ->
  exists a' m, bubble (length a - 1) (a ++ b) = a' ++ m :: b
    /\ a' ++ [m] ≡ₚ a /\ Forall (fun x => x <= m) a'.
Proof.
  remember (length a) as n eqn:Hn. revert a Hn.
  induction n as [|n IH]; intros a Hn Ha; [by destruct a|].
  destruct a as [|x [|y a]]; [done|exists [], x; injection Hn as ->; split_and!; [done|done|constructor]|].
  injection Hn as Hn. cbn [Nat.sub]. rewrite Nat.sub_0_r.
  destruct n as [|n]; [done|]. cbn [app bubble].
  cbn [Nat.sub] in IH. rewrite Nat.sub_0_r in IH. destruct (y <? x) eqn:E.
  - destruct (IH (x :: a)) as (a' & m & Hb & Hp & Hf); [cbn in *; lia|done|].
    exists (y :: a'), m. cbn in *. rewrite Hb. split; [done|]. split.
    + rewrite Hp. apply Permutation_swap.
    + constructor; [|done].
      assert (x ∈ a' ++ [m]) as Hin by (rewrite Hp; left).
      apply elem_of_app in Hin as [Hin|Hin%list_elem_of_singleton]; [|subst; go_lia].
      rewrite Forall_forall in Hf. specialize (Hf _ Hin). go_lia.
  - destruct (IH (y :: a)) as (a' & m & Hb & Hp & Hf); [cbn in *; lia|done|].
    exists (x :: a'), m. cbn in *. rewrite Hb. split; [done|]. split; [by rewrite Hp|].
    constructor; [|done]. assert (y ∈ a' ++ [m]) as Hin by (rewrite Hp; left).
    apply elem_of_app in Hin as [Hin|Hin%list_elem_of_singleton]; [|subst; go_lia].
    rewrite Forall_forall in Hf. specialize (Hf _ Hin). go_lia.
Qed.

(** After [i] passes the last [i] elements are ordered and above the rest. *)
Definition bubble_inv (l : list Z) (i : nat) (s : list Z) : Prop :=
  exists a b, s = a ++ b /\ length b = i /\ s ≡ₚ l /\ StronglySorted Z.le b
    /\ Forall (fun x => Forall (Z.le x) b) a.

Lemma bubble_inner_inv l i s :
  (i < length l)%nat -> bubble_inv l i s -> bubble_inv l (S i) (bubble_inner s i).
Proof.
  intros Hi (a & b & -> & Hb & Hp & Hs & Hab).
  pose proof (Permutation_length Hp) as Hlen. rewrite length_app in Hlen.
  unfold bubble_inner. rewrite length_app.
  replace (length a + length b - i - 1)%nat with (length a - 1)%nat by lia.
  assert (a <> []) as Hne by (intros ->; cbn in *; lia).
  rewrite (bubble_loop _ [] (a ++ b)) by (rewrite length_app; lia). cbn [app].
  destruct (bubble_max a b Hne) as (a' & m & -> & Hpa & Hm).
  assert (Forall (fun x => Forall (Z.le x) b) (a' ++ [m])) as Hab' by by rewrite Hpa.
  apply Forall_app in Hab' as [Ha' Hmb]. apply Forall_cons in Hmb as [Hmb _].
  exists a', (m :: b). split_and!; [done|cbn; lia| |by constructor|].
  - rewrite <-Hp, <-Hpa, <-app_assoc. done.
  - apply Forall_forall. intros x Hx. rewrite Forall_forall in Hm, Ha'. constructor; auto.
Qed.

Lemma sortDurations_inv l k :
  (k <= length l)%nat -> bubble_inv l k (foldl bubble_inner l (seq 0 k)).
Proof.
  induction k as [|k IH]; intros Hk.
  - exists l, []. rewrite app_nil_r. split_and!; [done..|constructor|].
    apply Forall_forall. intros. constructor.
  - rewrite seq_S, foldl_app. cbn. apply bubble_inner_inv; [lia|apply IH; lia].
Qed.

Lemma sortDurations_spec l :
  sortDurations l ≡ₚ l /\ StronglySorted Z.le (sortDurations l).
Proof.
  destruct (sortDurations_inv l (length l - 1)) as (a & b & Heq & Hb & Hp & Hs & Hab); [lia|].
  unfold sortDurations. split; [done|]. rewrite Heq.
  pose proof (Permutation_length Hp) as Hlen. rewrite Heq, length_app in Hlen.
  destruct a as [|x [|y a]]; [done| |cbn in *; lia].
  cbn. constructor; [done|]. by apply Forall_cons in Hab as [Hab _].
Qed.

(** Ordered lists of integers with the same elements are equal. *)
Lemma sorted_Z_unique (l k : list Z) :
  StronglySorted Z.le l -> StronglySorted Z.le k -> l ≡ₚ k -> l = k.
Proof. intros. by apply (StronglySorted_unique Z.le). Qed.

Lemma sortDurations_proper l k : l ≡ₚ k -> sortDurations l = sortDurations k.
Proof.
  intros Hp. destruct (sortDurations_spec l) as [Hl1 Hl2], (sortDurations_spec k) as [Hk1 Hk2].
  apply sorted_Z_unique; [done..|]. by rewrite Hl1, Hk1.
Qed.

#[global] Instance sortDurations_Proper : Proper ((≡ₚ) ==> (=)) sortDurations.
Proof. intros l k Hp. by apply sortDurations_proper. Qed.

(** ** [sort.Slice] and [sort.Ints]

    [SortSlice] is the documented contract of [sort.Slice] with an integer
    key; the algorithm, and in particular the order of equal keys, is left
    open. *)

Class SortSlice := {
  sort_slice : forall {A : Type}, (A -> Z) -> list A -> list A;
  sort_slice_perm : forall {A} (key : A -> Z) (l : list A), sort_slice key l ≡ₚ l;
  sort_slice_sorted : forall {A} (key : A -> Z) (l : list A),
    StronglySorted (fun x y => key x <= key y) (sort_slice key l)
}.

(** Insertion sort: what the library runs on slices of at most 12 elements. *)
Fixpoint insert_by {A} (key : A -> Z) (x : A) (l : list A) : list A :=
  match l with
  | [] => [x]
  | y :: l => if key x <? key y then x :: y :: l else y :: insert_by key x l
  end.

Definition insertion_sort {A} (key : A -> Z) (l : list A) : list A :=
  foldl (fun s x => insert_by key x s) [] l.

Lemma insert_by_perm {A} (key : A -> Z) x l : insert_by key x l ≡ₚ x :: l.
Proof.
  induction l as [|y l IH]; [done|]. cbn. destruct (_ <? _); [done|].
  rewrite IH. apply Permutation_swap.
Qed.

Lemma insert_by_sorted {A} (key : A -> Z) x l :
  StronglySorted (fun x y => key x <= key y) l ->
  StronglySorted (fun x y => key x <= key y) (insert_by key x l).
Proof.
  induction 1 as [|y l Hl IH Hy]; cbn; [by repeat constructor|].
  destruct (key x <? key y) eqn:E.
  - constructor; [by constructor|]. constructor; [go_lia|].
    eapply Forall_impl; [done|cbn; go_lia].
  - constructor; [done|]. rewrite insert_by_perm. constructor; [go_lia|done].
Qed.

Lemma insertion_sort_app {A} (key : A -> Z) l x :
  insertion_sort key (l ++ [x]) = insert_by key x (insertion_sort key l).
Proof. unfold insertion_sort. by rewrite foldl_app. Qed.

Lemma insertion_sort_perm {A} (key : A -> Z) l : insertion_sort key l ≡ₚ l.
Proof.
  induction l as [|x l IH] using rev_ind; [done|].
  by rewrite insertion_sort_app, insert_by_perm, IH, Permutation_app_comm.
Qed.

Lemma insertion_sort_sorted {A} (key : A -> Z) l :
  StronglySorted (fun x y => key x <= key y) (insertion_sort key l).
Proof.
  induction l as [|x l IH] using rev_ind; [constructor|].
  rewrite insertion_sort_app. by apply insert_by_sorted.
Qed.

Definition insertion_sort_slice : SortSlice := {|
  sort_slice A := @insertion_sort A;
  sort_slice_perm A := insertion_sort_perm;
  sort_slice_sorted A := insertion_sort_sorted
|}.

(** [sort.Ints]: the ordered permutation of a slice of integers is unique, so
    any algorithm computes it. *)
Definition sort_ints (l : list Z) : list Z := insertion_sort id l.

Lemma sort_ints_perm l : sort_ints l ≡ₚ l.
Proof. apply insertion_sort_perm. Qed.

Lemma sort_ints_sorted l : StronglySorted Z.le (sort_ints l).
Proof. apply (insertion_sort_sorted id). Qed.
