(* ===== verification/Penalties.v ===== *)
(** * Penalty records and their ring buffer

    [scoring/penalties.go].  The ring buffer is generic in the record type;
    its specification is the list of everything added, of which a snapshot is
    the most recent [size] elements, oldest first. *)

From S2P Require Import Prelude GoInt GoFloat GoString.

Abbreviation PenaltyCategory := string (only parsing).

Definition PenaltyCategoryHealth : PenaltyCategory := "health"%string.
Definition PenaltyCategoryRateLimit : PenaltyCategory := "rate_limit"%string.
Definition PenaltyCategoryError : PenaltyCategory := "error"%string.
Definition PenaltyCategoryLatency : PenaltyCategory := "latency"%string.

Record PenaltyRecord := {
  pr_Timestamp : Time;
  pr_Category : PenaltyCategory;
  pr_Reason : string;
  pr_Amount : f64;
  pr_Metadata : option (gmap string string);
  pr_DecayFactor : f64
}.

Definition zero_PenaltyRecord : PenaltyRecord := {|
  pr_Timestamp := zero_time; pr_Category := EmptyString; pr_Reason := EmptyString;
  pr_Amount := f64_zero; pr_Metadata := None; pr_DecayFactor := f64_zero
|}.

Definition defaultPenaltyHistorySize : Z := 50.

Record penaltyHistory := {
  ph_buf : list PenaltyRecord;
  ph_head : nat;
  ph_full : bool
}.

Definition newPenaltyHistory (size : Z) : penaltyHistory :=
  let size := if size <=? 0 then defaultPenaltyHistorySize else size in
  {| ph_buf := replicate (Z.to_nat size) zero_PenaltyRecord; ph_head := 0; ph_full := false |}.

(** [h.add(r)]. *)
Definition ph_add (h : penaltyHistory) (r : PenaltyRecord) : penaltyHistory :=
  if (length (ph_buf h) =? 0)%nat then h
  else
    let buf := <[ph_head h:=r]> (ph_buf h) in
    let head := ((ph_head h + 1) mod length buf)%nat in
    {| ph_buf := buf; ph_head := head;
       ph_full := ph_full h || (head =? 0)%nat |}.

(** [h.snapshot()]; the nil slice and the empty slice are both []. *)
Definition ph_snapshot (h : penaltyHistory) : list PenaltyRecord :=
  if (length (ph_buf h) =? 0)%nat || (negb (ph_full h) && (ph_head h =? 0)%nat) then []
  else if negb (ph_full h) then take (ph_head h) (ph_buf h)
  else drop (ph_head h) (ph_buf h) ++ take (ph_head h) (ph_buf h).

(** The capacity, [cap(h.buf)]. *)
Definition ph_cap (h : penaltyHistory) : nat := length (ph_buf h).

(** ** Specification *)

(** The last [k] elements of a list. *)
Definition last_n {A} (k : nat) (l : list A) : list A := drop (length l - k) l.

Lemma last_n_all {A} k (l : list A) : (length l <= k)%nat -> last_n k l = l.
Proof. intros. unfold last_n. by replace (length l - k)%nat with 0%nat by lia. Qed.

Lemma last_n_length {A} k (l : list A) : length (last_n k l) = (length l `min` k)%nat.
Proof. unfold last_n. rewrite length_drop. lia. Qed.

Lemma last_n_snoc {A} k (l : list A) x :
  (0 < k <= length l)%nat -> last_n k (l ++ [x]) = drop 1 (last_n k l) ++ [x].
Proof.
  intros Hk. unfold last_n. rewrite length_app, drop_drop. cbn [length].
  rewrite drop_app_le by lia. do 2 f_equal. lia.
Qed.

(** The ring [h] represents the history [l]. *)
Definition ph_rep (h : penaltyHistory) (l : list PenaltyRecord) : Prop :=
  (0 < ph_cap h)%nat /\ (ph_head h < ph_cap h)%nat /\
  if ph_full h then
    (ph_cap h <= length l)%nat /\ drop (ph_head h) (ph_buf h) ++ take (ph_head h) (ph_buf h)
      = last_n (ph_cap h) l
  else length l = ph_head h /\ take (ph_head h) (ph_buf h) = l.

Lemma newPenaltyHistory_cap size :
  ph_cap (newPenaltyHistory size) = Z.to_nat (if size <=? 0 then 50 else size).
Proof. unfold ph_cap, newPenaltyHistory. cbn. by rewrite length_replicate. Qed.

Lemma newPenaltyHistory_rep size : ph_rep (newPenaltyHistory size) [].
Proof.
  unfold ph_rep. rewrite newPenaltyHistory_cap. cbn.
  destruct (size <=? 0) eqn:E; split_and!; try done; go_lia.
Qed.

Lemma ph_add_cap h r : ph_cap (ph_add h r) = ph_cap h.
Proof. unfold ph_add, ph_cap. case_match; [done|]. cbn. by rewrite length_insert. Qed.

Lemma ph_rep_snapshot h l : ph_rep h l -> ph_snapshot h = last_n (ph_cap h) l.
Proof.
  intros (Hc & Hh & Hr). unfold ph_snapshot, ph_cap in *.
  destruct (length (ph_buf h) =? 0)%nat eqn:E0; [apply Nat.eqb_eq in E0; lia|].
  destruct (ph_full h); cbn; [apply Hr|]. destruct Hr as [Hl Hr].
  rewrite last_n_all by lia. destruct (ph_head h =? 0)%nat eqn:E; [|done].
  apply Nat.eqb_eq in E. destruct l; [done|cbn in *; lia].
Qed.

(** Overwriting the slot at [h] rotates the buffer by one. *)
Lemma rotate_insert {A} (buf : list A) h r :
  (h < length buf)%nat ->
  drop ((h + 1) mod length buf) (<[h:=r]> buf) ++ take ((h + 1) mod length buf) (<[h:=r]> buf)
  = drop 1 (drop h buf ++ take h buf) ++ [r].
Proof.
  intros Hh. destruct (lookup_lt_is_Some_2 _ _ Hh) as [x Hx].
  rewrite (drop_S _ _ _ Hx). cbn [app skipn]. rewrite drop_0.
  destruct (decide (h + 1 = length buf)%nat) as [Heq|Hne].
  - rewrite Heq, Nat.Div0.mod_same, ?drop_0, take_0, app_nil_r.
    rewrite insert_take_drop, (drop_ge buf (S h)) by lia. done.
  - rewrite Nat.mod_small by lia. rewrite drop_insert_lt by lia.
    rewrite Nat.add_1_r, <-(assoc_L (++)). f_equal.
    rewrite (take_S_r _ _ r) by (by apply list_lookup_insert_eq).
    by rewrite take_insert_ge by lia.
Qed.

Lemma ph_add_rep h l r : ph_rep h l -> ph_rep (ph_add h r) (l ++ [r]).
Proof.
  intros (Hc & Hh & Hr). unfold ph_rep. rewrite ph_add_cap. unfold ph_add, ph_cap in *.
  destruct (length (ph_buf h) =? 0)%nat eqn:E0; [apply Nat.eqb_eq in E0; lia|].
  cbn [ph_buf ph_head ph_full]. rewrite length_insert.
  split; [done|]. split; [apply Nat.mod_upper_bound; lia|].
  destruct (ph_full h); cbn [orb].
  - destruct Hr as [Hl Hr]. rewrite length_app. cbn [length]. split; [lia|].
    by rewrite rotate_insert, Hr, last_n_snoc by lia.
  - destruct Hr as [Hl Hr]. pose proof (rotate_insert (ph_buf h) (ph_head h) r Hh) as Hrot.
    destruct (decide (ph_head h + 1 = length (ph_buf h))%nat) as [Heq|Hne].
    + rewrite Heq, Nat.Div0.mod_same in *. cbn [Nat.eqb]. rewrite length_app. cbn [length].
      split; [lia|]. rewrite last_n_all by (rewrite length_app; cbn; lia).
      rewrite drop_0, take_0, app_nil_r, insert_take_drop, Hr by lia.
      by rewrite drop_ge by lia.
    + rewrite Nat.mod_small by lia. rewrite Nat.add_1_r. cbn [Nat.eqb].
      rewrite length_app. cbn [length]. split; [lia|].
      rewrite (take_S_r _ _ r) by (by apply list_lookup_insert_eq).
      by rewrite take_insert_ge, Hr by lia.
Qed.

Lemma ph_adds_rep h l rs : ph_rep h l -> ph_rep (foldl ph_add h rs) (l ++ rs).
Proof.
  revert h l. induction rs as [|r rs IH]; intros h l Hr; cbn; [by rewrite app_nil_r|].
  rewrite (cons_middle r l), (assoc_L (++)). by apply IH, ph_add_rep.
Qed.

Lemma ph_adds_cap h rs : ph_cap (foldl ph_add h rs) = ph_cap h.
Proof. revert h. induction rs as [|r rs IH]; intros h; [done|]. cbn. by rewrite IH, ph_add_cap. Qed.

(** C35: the ring buffer of a provider, filled with any sequence of records,
    returns exactly the most recent [size] of them (50 when the configured
    size is not positive), oldest first: nothing newer is lost, nothing is
    duplicated or reordered. *)
Theorem penaltyHistory_refines_last_n (size : Z) (rs : list PenaltyRecord) :
  ph_snapshot (foldl ph_add (newPenaltyHistory size) rs)
  = last_n (Z.to_nat (if size <=? 0 then 50 else size)) rs.
Proof.
  rewrite (ph_rep_snapshot _ rs); [by rewrite ph_adds_cap, newPenaltyHistory_cap|].
  by apply (ph_adds_rep _ []), newPenaltyHistory_rep.
Qed.
