(* ===== verification/Scorer.v ===== *)
(** * Provider scores

    [scoring/scorer.go]: the dynamic score of one provider, its penalties, its
    counters, its latency window and its penalty history.  Every method that
    reads the clock takes the reading as an argument. *)

From S2P Require Import Prelude GoInt GoFloat GoString Penalties.

Record ProviderScore := {
  ps_Name : string;
  ps_Priority : Z;
  ps_BaseScore : f64;
  ps_HealthPenalty : f64;
  ps_LatencyPenalty : f64;
  ps_ErrorPenalty : f64;
  ps_RateLimitPenalty : f64;
  ps_LastUpdated : Time;
  ps_LastHealthCheck : Time;
  ps_LastOperation : Time;
  ps_TotalOperations : Z;
  ps_SuccessfulOps : Z;
  ps_FailedOps : Z;
  ps_RecentLatencies : list Duration;
  ps_LatencyWindowSize : Z;
  ps_history : penaltyHistory
}.

(** Field assignment. *)
Definition set_ps_HealthPenalty (v : f64) (x : ProviderScore) : ProviderScore :=
  {| ps_Name := ps_Name x; ps_Priority := ps_Priority x; ps_BaseScore := ps_BaseScore x;
     ps_HealthPenalty := v; ps_LatencyPenalty := ps_LatencyPenalty x; ps_ErrorPenalty :=
     ps_ErrorPenalty x; ps_RateLimitPenalty := ps_RateLimitPenalty x; ps_LastUpdated :=
     ps_LastUpdated x; ps_LastHealthCheck := ps_LastHealthCheck x; ps_LastOperation :=
     ps_LastOperation x; ps_TotalOperations := ps_TotalOperations x; ps_SuccessfulOps :=
     ps_SuccessfulOps x; ps_FailedOps := ps_FailedOps x; ps_RecentLatencies :=
     ps_RecentLatencies x; ps_LatencyWindowSize := ps_LatencyWindowSize x; ps_history :=
     ps_history x |}.
Definition set_ps_LatencyPenalty (v : f64) (x : ProviderScore) : ProviderScore :=
  {| ps_Name := ps_Name x; ps_Priority := ps_Priority x; ps_BaseScore := ps_BaseScore x;
     ps_HealthPenalty := ps_HealthPenalty x; ps_LatencyPenalty := v; ps_ErrorPenalty :=
     ps_ErrorPenalty x; ps_RateLimitPenalty := ps_RateLimitPenalty x; ps_LastUpdated :=
     ps_LastUpdated x; ps_LastHealthCheck := ps_LastHealthCheck x; ps_LastOperation :=
     ps_LastOperation x; ps_TotalOperations := ps_TotalOperations x; ps_SuccessfulOps :=
     ps_SuccessfulOps x; ps_FailedOps := ps_FailedOps x; ps_RecentLatencies :=
     ps_RecentLatencies x; ps_LatencyWindowSize := ps_LatencyWindowSize x; ps_history :=
     ps_history x |}.
Definition set_ps_ErrorPenalty (v : f64) (x : ProviderScore) : ProviderScore :=
  {| ps_Name := ps_Name x; ps_Priority := ps_Priority x; ps_BaseScore := ps_BaseScore x;
     ps_HealthPenalty := ps_HealthPenalty x; ps_LatencyPenalty := ps_LatencyPenalty x;
     ps_ErrorPenalty := v; ps_RateLimitPenalty := ps_RateLimitPenalty x; ps_LastUpdated :=
     ps_LastUpdated x; ps_LastHealthCheck := ps_LastHealthCheck x; ps_LastOperation :=
     ps_LastOperation x; ps_TotalOperations := ps_TotalOperations x; ps_SuccessfulOps :=
     ps_SuccessfulOps x; ps_FailedOps := ps_FailedOps x; ps_RecentLatencies :=
     ps_RecentLatencies x; ps_LatencyWindowSize := ps_LatencyWindowSize x; ps_history :=
     ps_history x |}.
Definition set_ps_RateLimitPenalty (v : f64) (x : ProviderScore) : ProviderScore :=
  {| ps_Name := ps_Name x; ps_Priority := ps_Priority x; ps_BaseScore := ps_BaseScore x;
     ps_HealthPenalty := ps_HealthPenalty x; ps_LatencyPenalty := ps_LatencyPenalty x;
     ps_ErrorPenalty := ps_ErrorPenalty x; ps_RateLimitPenalty := v; ps_LastUpdated :=
     ps_LastUpdated x; ps_LastHealthCheck := ps_LastHealthCheck x; ps_LastOperation :=
     ps_LastOperation x; ps_TotalOperations := ps_TotalOperations x; ps_SuccessfulOps :=
     ps_SuccessfulOps x; ps_FailedOps := ps_FailedOps x; ps_RecentLatencies :=
     ps_RecentLatencies x; ps_LatencyWindowSize := ps_LatencyWindowSize x; ps_history :=
     ps_history x |}.
Definition set_ps_LastUpdated (v : Time) (x : ProviderScore) : ProviderScore :=
  {| ps_Name := ps_Name x; ps_Priority := ps_Priority x; ps_BaseScore := ps_BaseScore x;
     ps_HealthPenalty := ps_HealthPenalty x; ps_LatencyPenalty := ps_LatencyPenalty x;
     ps_ErrorPenalty := ps_ErrorPenalty x; ps_RateLimitPenalty := ps_RateLimitPenalty x;
     ps_LastUpdated := v; ps_LastHealthCheck := ps_LastHealthCheck x; ps_LastOperation :=
     ps_LastOperation x; ps_TotalOperations := ps_TotalOperations x; ps_SuccessfulOps :=
     ps_SuccessfulOps x; ps_FailedOps := ps_FailedOps x; ps_RecentLatencies :=
     ps_RecentLatencies x; ps_LatencyWindowSize := ps_LatencyWindowSize x; ps_history :=
     ps_history x |}.
Definition set_ps_LastHealthCheck (v : Time) (x : ProviderScore) : ProviderScore :=
  {| ps_Name := ps_Name x; ps_Priority := ps_Priority x; ps_BaseScore := ps_BaseScore x;
     ps_HealthPenalty := ps_HealthPenalty x; ps_LatencyPenalty := ps_LatencyPenalty x;
     ps_ErrorPenalty := ps_ErrorPenalty x; ps_RateLimitPenalty := ps_RateLimitPenalty x;
     ps_LastUpdated := ps_LastUpdated x; ps_LastHealthCheck := v; ps_LastOperation :=
     ps_LastOperation x; ps_TotalOperations := ps_TotalOperations x; ps_SuccessfulOps :=
     ps_SuccessfulOps x; ps_FailedOps := ps_FailedOps x; ps_RecentLatencies :=
     ps_RecentLatencies x; ps_LatencyWindowSize := ps_LatencyWindowSize x; ps_history :=
     ps_history x |}.
Definition set_ps_LastOperation (v : Time) (x : ProviderScore) : ProviderScore :=
  {| ps_Name := ps_Name x; ps_Priority := ps_Priority x; ps_BaseScore := ps_BaseScore x;
     ps_HealthPenalty := ps_HealthPenalty x; ps_LatencyPenalty := ps_LatencyPenalty x;
     ps_ErrorPenalty := ps_ErrorPenalty x; ps_RateLimitPenalty := ps_RateLimitPenalty x;
     ps_LastUpdated := ps_LastUpdated x; ps_LastHealthCheck := ps_LastHealthCheck x;
     ps_LastOperation := v; ps_TotalOperations := ps_TotalOperations x; ps_SuccessfulOps :=
     ps_SuccessfulOps x; ps_FailedOps := ps_FailedOps x; ps_RecentLatencies :=
     ps_RecentLatencies x; ps_LatencyWindowSize := ps_LatencyWindowSize x; ps_history :=
     ps_history x |}.
Definition set_ps_TotalOperations (v : Z) (x : ProviderScore) : ProviderScore :=
  {| ps_Name := ps_Name x; ps_Priority := ps_Priority x; ps_BaseScore := ps_BaseScore x;
     ps_HealthPenalty := ps_HealthPenalty x; ps_LatencyPenalty := ps_LatencyPenalty x;
     ps_ErrorPenalty := ps_ErrorPenalty x; ps_RateLimitPenalty := ps_RateLimitPenalty x;
     ps_LastUpdated := ps_LastUpdated x; ps_LastHealthCheck := ps_LastHealthCheck x;
     ps_LastOperation := ps_LastOperation x; ps_TotalOperations := v; ps_SuccessfulOps :=
     ps_SuccessfulOps x; ps_FailedOps := ps_FailedOps x; ps_RecentLatencies :=
     ps_RecentLatencies x; ps_LatencyWindowSize := ps_LatencyWindowSize x; ps_history :=
     ps_history x |}.
Definition set_ps_SuccessfulOps (v : Z) (x : ProviderScore) : ProviderScore :=
  {| ps_Name := ps_Name x; ps_Priority := ps_Priority x; ps_BaseScore := ps_BaseScore x;
     ps_HealthPenalty := ps_HealthPenalty x; ps_LatencyPenalty := ps_LatencyPenalty x;
     ps_ErrorPenalty := ps_ErrorPenalty x; ps_RateLimitPenalty := ps_RateLimitPenalty x;
     ps_LastUpdated := ps_LastUpdated x; ps_LastHealthCheck := ps_LastHealthCheck x;
     ps_LastOperation := ps_LastOperation x; ps_TotalOperations := ps_TotalOperations x;
     ps_SuccessfulOps := v; ps_FailedOps := ps_FailedOps x; ps_RecentLatencies :=
     ps_RecentLatencies x; ps_LatencyWindowSize := ps_LatencyWindowSize x; ps_history :=
     ps_history x |}.
Definition set_ps_FailedOps (v : Z) (x : ProviderScore) : ProviderScore :=
  {| ps_Name := ps_Name x; ps_Priority := ps_Priority x; ps_BaseScore := ps_BaseScore x;
     ps_HealthPenalty := ps_HealthPenalty x; ps_LatencyPenalty := ps_LatencyPenalty x;
     ps_ErrorPenalty := ps_ErrorPenalty x; ps_RateLimitPenalty := ps_RateLimitPenalty x;
     ps_LastUpdated := ps_LastUpdated x; ps_LastHealthCheck := ps_LastHealthCheck x;
     ps_LastOperation := ps_LastOperation x; ps_TotalOperations := ps_TotalOperations x;
     ps_SuccessfulOps := ps_SuccessfulOps x; ps_FailedOps := v; ps_RecentLatencies :=
     ps_RecentLatencies x; ps_LatencyWindowSize := ps_LatencyWindowSize x; ps_history :=
     ps_history x |}.
Definition set_ps_RecentLatencies (v : list Duration) (x : ProviderScore) : ProviderScore :=
  {| ps_Name := ps_Name x; ps_Priority := ps_Priority x; ps_BaseScore := ps_BaseScore x;
     ps_HealthPenalty := ps_HealthPenalty x; ps_LatencyPenalty := ps_LatencyPenalty x;
     ps_ErrorPenalty := ps_ErrorPenalty x; ps_RateLimitPenalty := ps_RateLimitPenalty x;
     ps_LastUpdated := ps_LastUpdated x; ps_LastHealthCheck := ps_LastHealthCheck x;
     ps_LastOperation := ps_LastOperation x; ps_TotalOperations := ps_TotalOperations x;
     ps_SuccessfulOps := ps_SuccessfulOps x; ps_FailedOps := ps_FailedOps x; ps_RecentLatencies
     := v; ps_LatencyWindowSize := ps_LatencyWindowSize x; ps_history := ps_history x |}.
Definition set_ps_history (v : penaltyHistory) (x : ProviderScore) : ProviderScore :=
  {| ps_Name := ps_Name x; ps_Priority := ps_Priority x; ps_BaseScore := ps_BaseScore x;
     ps_HealthPenalty := ps_HealthPenalty x; ps_LatencyPenalty := ps_LatencyPenalty x;
     ps_ErrorPenalty := ps_ErrorPenalty x; ps_RateLimitPenalty := ps_RateLimitPenalty x;
     ps_LastUpdated := ps_LastUpdated x; ps_LastHealthCheck := ps_LastHealthCheck x;
     ps_LastOperation := ps_LastOperation x; ps_TotalOperations := ps_TotalOperations x;
     ps_SuccessfulOps := ps_SuccessfulOps x; ps_FailedOps := ps_FailedOps x; ps_RecentLatencies
     := ps_RecentLatencies x; ps_LatencyWindowSize := ps_LatencyWindowSize x; ps_history := v
     |}.

(** [NewProviderScore]. *)
Definition NewProviderScore (name : string) (priority latencyWindowSize historySize : Z) (now : Time)
    : ProviderScore :=
  let baseScore := f64_sub (f64_of_Z 110) (f64_mul (f64_of_Z priority) (f64_of_Z 10)) in
  let baseScore := if f64_ltb baseScore (f64_of_Z 10) then f64_of_Z 10 else baseScore in
  {| ps_Name := name;
     ps_Priority := priority;
     ps_BaseScore := baseScore;
     ps_HealthPenalty := f64_zero;
     ps_LatencyPenalty := f64_zero;
     ps_ErrorPenalty := f64_zero;
     ps_RateLimitPenalty := f64_zero;
     ps_LastUpdated := now;
     ps_LastHealthCheck := zero_time;
     ps_LastOperation := zero_time;
     ps_TotalOperations := 0;
     ps_SuccessfulOps := 0;
     ps_FailedOps := 0;
     ps_RecentLatencies := [];
     ps_LatencyWindowSize := latencyWindowSize;
     ps_history := newPenaltyHistory historySize |}.

(** The unclamped score, in the order of the source's subtractions. *)
Definition raw_score (ps : ProviderScore) : f64 :=
  f64_sub (f64_sub (f64_sub (f64_sub (ps_BaseScore ps) (ps_HealthPenalty ps))
    (ps_LatencyPenalty ps)) (ps_ErrorPenalty ps)) (ps_RateLimitPenalty ps).

Definition EffectiveScore (ps : ProviderScore) : f64 :=
  let score := raw_score ps in
  if f64_ltb score f64_zero then f64_zero else score.

(** The history entry of a penalty; [DecayFactor] is filled at query time. *)
Definition penalty_entry (now : Time) (cat reason : string) (amount : f64)
    (metadata : option (gmap string string)) : PenaltyRecord :=
  {| pr_Timestamp := now; pr_Category := cat; pr_Reason := reason; pr_Amount := amount;
     pr_Metadata := metadata; pr_DecayFactor := f64_zero |}.

Definition history_add (r : PenaltyRecord) (ps : ProviderScore) : ProviderScore :=
  set_ps_history (ph_add (ps_history ps) r) ps.

Definition AddHealthPenalty (penalty maxPenalty : f64) (reason : string)
    (metadata : option (gmap string string)) (now : Time) (ps : ProviderScore) : ProviderScore :=
  let ps := set_ps_HealthPenalty (f64_add_clamped (ps_HealthPenalty ps) penalty maxPenalty) ps in
  let ps := set_ps_LastHealthCheck now ps in
  let ps := set_ps_LastUpdated now ps in
  history_add (penalty_entry now PenaltyCategoryHealth reason penalty metadata) ps.

Definition AddRateLimitPenalty (penalty maxPenalty : f64) (reason : string)
    (metadata : option (gmap string string)) (now : Time) (ps : ProviderScore) : ProviderScore :=
  let ps := set_ps_RateLimitPenalty (f64_add_clamped (ps_RateLimitPenalty ps) penalty maxPenalty) ps in
  let ps := set_ps_LastUpdated now ps in
  history_add (penalty_entry now PenaltyCategoryRateLimit reason penalty metadata) ps.

Definition AddErrorPenalty (penalty maxPenalty : f64) (reason : string)
    (metadata : option (gmap string string)) (now : Time) (ps : ProviderScore) : ProviderScore :=
  let ps := set_ps_ErrorPenalty (f64_add_clamped (ps_ErrorPenalty ps) penalty maxPenalty) ps in
  let ps := set_ps_FailedOps (wrap64 (ps_FailedOps ps + 1)) ps in
  let ps := set_ps_TotalOperations (wrap64 (ps_TotalOperations ps + 1)) ps in
  let ps := set_ps_LastOperation now ps in
  let ps := set_ps_LastUpdated now ps in
  history_add (penalty_entry now PenaltyCategoryError reason penalty metadata) ps.

(** [RecordSuccess] reads the clock twice. *)
Definition RecordSuccess (successBonus : f64) (now1 now2 : Time) (ps : ProviderScore) : ProviderScore :=
  let ps := if f64_gtb successBonus f64_zero
            then set_ps_ErrorPenalty (f64_sub_clamped (ps_ErrorPenalty ps) successBonus) ps
            else ps in
  let ps := set_ps_SuccessfulOps (wrap64 (ps_SuccessfulOps ps + 1)) ps in
  let ps := set_ps_TotalOperations (wrap64 (ps_TotalOperations ps + 1)) ps in
  let ps := set_ps_LastOperation now1 ps in
  set_ps_LastUpdated now2 ps.

(** Append a sample to a sliding window: [append], then drop the oldest one
    when the window is exceeded (also [LatencyTracker.RecordLatency]). *)
Definition push_window (windowSize : Z) (l : list Duration) (latency : Duration) : list Duration :=
  let l' := l ++ [latency] in
  if windowSize <? zlen l' then drop 1 l' else l'.

Definition RecordLatency (latency : Duration) (ps : ProviderScore) : ProviderScore :=
  set_ps_RecentLatencies (push_window (ps_LatencyWindowSize ps) (ps_RecentLatencies ps) latency) ps.

(** [sum += lat] over a slice of durations, at 64 bits. *)
Definition sum_durations (l : list Duration) : Duration :=
  foldl (fun s x => wrap64 (s + x)) 0 l.

Definition GetAverageLatency (ps : ProviderScore) : Duration :=
  match ps_RecentLatencies ps with
  | [] => 0
  | l => wrap64 (Z.quot (sum_durations l) (zlen l))
  end.

Definition UpdateLatencyPenalty (slownessFactor penaltyPerStdDev : f64) (reason : string)
    (now : Time) (ps : ProviderScore) : ProviderScore :=
  let penalty := f64_mul slownessFactor penaltyPerStdDev in
  let ps := set_ps_LatencyPenalty (if f64_ltb penalty f64_zero then f64_zero else penalty) ps in
  let ps := set_ps_LastUpdated now ps in
  if f64_gtb penalty f64_zero && negb (bool_decide (reason = EmptyString))
  then history_add (penalty_entry now PenaltyCategoryLatency reason penalty None) ps
  else ps.

(** One penalty under decay: scale, then clear what is below 0.01. *)
Definition decay_penalty (decayRate p : f64) : f64 :=
  let p := f64_mul p (f64_sub f64_one decayRate) in
  if f64_ltb p (f64_const 1 100) then f64_zero else p.

Definition ApplyDecay (decayRate : f64) (now : Time) (ps : ProviderScore) : ProviderScore :=
  let ps := set_ps_HealthPenalty (decay_penalty decayRate (ps_HealthPenalty ps)) ps in
  let ps := set_ps_RateLimitPenalty (decay_penalty decayRate (ps_RateLimitPenalty ps)) ps in
  let ps := set_ps_ErrorPenalty (decay_penalty decayRate (ps_ErrorPenalty ps)) ps in
  set_ps_LastUpdated now ps.

Record ProviderScoreStats := {
  st_Name : string;
  st_Priority : Z;
  st_BaseScore : f64;
  st_EffectiveScore : f64;
  st_HealthPenalty : f64;
  st_LatencyPenalty : f64;
  st_ErrorPenalty : f64;
  st_RateLimitPenalty : f64;
  st_TotalOperations : Z;
  st_SuccessfulOps : Z;
  st_FailedOps : Z;
  st_SuccessRate : f64;
  st_AverageLatency : Duration;
  st_LastUpdated : Time;
  st_RecentPenalties : list PenaltyRecord
}.

Definition GetStats (ps : ProviderScore) : ProviderScoreStats :=
  let successRate :=
    if 0 <? ps_TotalOperations ps
    then f64_div (f64_of_Z (ps_SuccessfulOps ps)) (f64_of_Z (ps_TotalOperations ps))
    else f64_zero in
  {| st_Name := ps_Name ps;
     st_Priority := ps_Priority ps;
     st_BaseScore := ps_BaseScore ps;
     st_EffectiveScore := raw_score ps;
     st_HealthPenalty := ps_HealthPenalty ps;
     st_LatencyPenalty := ps_LatencyPenalty ps;
     st_ErrorPenalty := ps_ErrorPenalty ps;
     st_RateLimitPenalty := ps_RateLimitPenalty ps;
     st_TotalOperations := ps_TotalOperations ps;
     st_SuccessfulOps := ps_SuccessfulOps ps;
     st_FailedOps := ps_FailedOps ps;
     st_SuccessRate := successRate;
     st_AverageLatency := GetAverageLatency ps;
     st_LastUpdated := ps_LastUpdated ps;
     st_RecentPenalties := ph_snapshot (ps_history ps) |}.

(** ** Well-formedness

    With penalty weights and a cap that are finite and non-negative, every
    accumulated penalty stays between 0 and the cap, and the effective score
    between 0 and the base score.  The counters add up. *)

Definition penalty_ok (maxPenalty p : f64) : Prop := f64_nn p /\ f64_le p maxPenalty.

Record score_wf (maxPenalty : f64) (ps : ProviderScore) : Prop := {
  wf_base : f64_nn (ps_BaseScore ps);
  wf_health : penalty_ok maxPenalty (ps_HealthPenalty ps);
  wf_error : penalty_ok maxPenalty (ps_ErrorPenalty ps);
  wf_ratelimit : penalty_ok maxPenalty (ps_RateLimitPenalty ps);
  wf_latency : f64_nnx (ps_LatencyPenalty ps)
}.

Lemma penalty_ok_zero m : f64_nn m -> penalty_ok m f64_zero.
Proof. intros Hm. split; [done|]. by apply f64_nn_zero_le. Qed.

Lemma penalty_ok_add m p a : f64_nn m -> f64_nn a -> penalty_ok m p -> penalty_ok m (f64_add_clamped p a m).
Proof. intros Hm Ha [Hp _]. by apply f64_add_clamped_nn. Qed.

Lemma penalty_ok_sub m p a : f64_nn a -> penalty_ok m p -> penalty_ok m (f64_sub_clamped p a).
Proof.
  intros Ha [Hp Hle]. destruct (f64_sub_clamped_nn p a Hp Ha). split; [done|].
  by eapply f64_le_trans.
Qed.

(** Decay by a rate of [0 .. 1] never increases a penalty. *)
Lemma decay_penalty_le r p :
  f64_nn r -> f64_le r f64_one -> f64_nn p ->
  f64_nn (decay_penalty r p) /\ f64_le (decay_penalty r p) p.
Proof.
  intros Hr Hr1 Hp. destruct (f64_one_minus_nn r Hr Hr1) as [Hf Hf1].
  destruct (f64_mul_nn p _ Hp Hf Hf1) as [Hm Hle]. unfold decay_penalty. cbv zeta.
  case_match; [split; [done|by apply f64_nn_zero_le]|done].
Qed.

Lemma penalty_ok_decay m r p :
  f64_nn r -> f64_le r f64_one -> penalty_ok m p -> penalty_ok m (decay_penalty r p).
Proof.
  intros Hr Hr1 [Hp Hle]. destruct (decay_penalty_le r p Hr Hr1 Hp). split; [done|].
  by eapply f64_le_trans.
Qed.

#[export] Hint Resolve penalty_ok_zero penalty_ok_add penalty_ok_sub penalty_ok_decay : golib.

Lemma EffectiveScore_bounds m ps :
  score_wf m ps ->
  f64_nn (EffectiveScore ps) /\ f64_le (EffectiveScore ps) (ps_BaseScore ps).
Proof.
  intros [Hb [Hh _] [He _] [Hr _] Hl].
  assert (f64_below (ps_BaseScore ps) (raw_score ps)) as Hbelow.
  { unfold raw_score. do 2 (apply f64_below_sub; [|done]). apply f64_below_subx; [|done].
    apply f64_below_sub; [|done]. left. split; [done|]. auto with golib. }
  unfold EffectiveScore. cbv zeta. destruct Hbelow as [[H1 H2]|[_ H2]].
  - destruct (f64_nn_zero_le _ H1) as (_ & _ & ->). done.
  - rewrite H2. split; [done|]. auto with golib.
Qed.
