(* ===== verification/ScoringConfig.v ===== *)
(** * Scoring configuration

    [scoring/options.go]: the tunable fields of [ScoringConfig], the functional
    options that set them, the defaults and [Validate].  The process-local
    fields (store, metrics recorder, penalty store) are wired in [Engine]. *)

From Stdlib Require Import Floats.SpecFloat.
From S2P Require Import Prelude GoInt GoFloat.

Record ScoringConfig := {
  sc_HealthCheckFailPenalty : f64;
  sc_RateLimitPenalty : f64;
  sc_AuthFailurePenalty : f64;
  sc_SlowResponsePenalty : f64;
  sc_OperationFailPenalty : f64;
  sc_TimeoutPenalty : f64;
  sc_SuccessBonus : f64;
  sc_DecayInterval : Duration;
  sc_DecayRate : f64;
  sc_MaxPenalty : f64;
  sc_LatencyWindowSize : Z;
  sc_SlowThresholdStdDev : f64;
  sc_MinSamplesForLatencyComparison : Z;
  sc_Enabled : bool;
  sc_PenaltyHistorySize : Z;
  sc_RetentionWindow : Duration;
  sc_PenaltyCleanupInterval : Duration
}.

(** Field assignment. *)
Definition set_sc_HealthCheckFailPenalty (v : f64) (x : ScoringConfig) : ScoringConfig :=
  {| sc_HealthCheckFailPenalty := v; sc_RateLimitPenalty := sc_RateLimitPenalty x;
     sc_AuthFailurePenalty := sc_AuthFailurePenalty x; sc_SlowResponsePenalty :=
     sc_SlowResponsePenalty x; sc_OperationFailPenalty := sc_OperationFailPenalty x;
     sc_TimeoutPenalty := sc_TimeoutPenalty x; sc_SuccessBonus := sc_SuccessBonus x;
     sc_DecayInterval := sc_DecayInterval x; sc_DecayRate := sc_DecayRate x; sc_MaxPenalty :=
     sc_MaxPenalty x; sc_LatencyWindowSize := sc_LatencyWindowSize x; sc_SlowThresholdStdDev :=
     sc_SlowThresholdStdDev x; sc_MinSamplesForLatencyComparison :=
     sc_MinSamplesForLatencyComparison x; sc_Enabled := sc_Enabled x; sc_PenaltyHistorySize :=
     sc_PenaltyHistorySize x; sc_RetentionWindow := sc_RetentionWindow x;
     sc_PenaltyCleanupInterval := sc_PenaltyCleanupInterval x |}.
Definition set_sc_RateLimitPenalty (v : f64) (x : ScoringConfig) : ScoringConfig :=
  {| sc_HealthCheckFailPenalty := sc_HealthCheckFailPenalty x; sc_RateLimitPenalty := v;
     sc_AuthFailurePenalty := sc_AuthFailurePenalty x; sc_SlowResponsePenalty :=
     sc_SlowResponsePenalty x; sc_OperationFailPenalty := sc_OperationFailPenalty x;
     sc_TimeoutPenalty := sc_TimeoutPenalty x; sc_SuccessBonus := sc_SuccessBonus x;
     sc_DecayInterval := sc_DecayInterval x; sc_DecayRate := sc_DecayRate x; sc_MaxPenalty :=
     sc_MaxPenalty x; sc_LatencyWindowSize := sc_LatencyWindowSize x; sc_SlowThresholdStdDev :=
     sc_SlowThresholdStdDev x; sc_MinSamplesForLatencyComparison :=
     sc_MinSamplesForLatencyComparison x; sc_Enabled := sc_Enabled x; sc_PenaltyHistorySize :=
     sc_PenaltyHistorySize x; sc_RetentionWindow := sc_RetentionWindow x;
     sc_PenaltyCleanupInterval := sc_PenaltyCleanupInterval x |}.
Definition set_sc_AuthFailurePenalty (v : f64) (x : ScoringConfig) : ScoringConfig :=
  {| sc_HealthCheckFailPenalty := sc_HealthCheckFailPenalty x; sc_RateLimitPenalty :=
     sc_RateLimitPenalty x; sc_AuthFailurePenalty := v; sc_SlowResponsePenalty :=
     sc_SlowResponsePenalty x; sc_OperationFailPenalty := sc_OperationFailPenalty x;
     sc_TimeoutPenalty := sc_TimeoutPenalty x; sc_SuccessBonus := sc_SuccessBonus x;
     sc_DecayInterval := sc_DecayInterval x; sc_DecayRate := sc_DecayRate x; sc_MaxPenalty :=
     sc_MaxPenalty x; sc_LatencyWindowSize := sc_LatencyWindowSize x; sc_SlowThresholdStdDev :=
     sc_SlowThresholdStdDev x; sc_MinSamplesForLatencyComparison :=
     sc_MinSamplesForLatencyComparison x; sc_Enabled := sc_Enabled x; sc_PenaltyHistorySize :=
     sc_PenaltyHistorySize x; sc_RetentionWindow := sc_RetentionWindow x;
     sc_PenaltyCleanupInterval := sc_PenaltyCleanupInterval x |}.
Definition set_sc_SlowResponsePenalty (v : f64) (x : ScoringConfig) : ScoringConfig :=
  {| sc_HealthCheckFailPenalty := sc_HealthCheckFailPenalty x; sc_RateLimitPenalty :=
     sc_RateLimitPenalty x; sc_AuthFailurePenalty := sc_AuthFailurePenalty x;
     sc_SlowResponsePenalty := v; sc_OperationFailPenalty := sc_OperationFailPenalty x;
     sc_TimeoutPenalty := sc_TimeoutPenalty x; sc_SuccessBonus := sc_SuccessBonus x;
     sc_DecayInterval := sc_DecayInterval x; sc_DecayRate := sc_DecayRate x; sc_MaxPenalty :=
     sc_MaxPenalty x; sc_LatencyWindowSize := sc_LatencyWindowSize x; sc_SlowThresholdStdDev :=
     sc_SlowThresholdStdDev x; sc_MinSamplesForLatencyComparison :=
     sc_MinSamplesForLatencyComparison x; sc_Enabled := sc_Enabled x; sc_PenaltyHistorySize :=
     sc_PenaltyHistorySize x; sc_RetentionWindow := sc_RetentionWindow x;
     sc_PenaltyCleanupInterval := sc_PenaltyCleanupInterval x |}.
Definition set_sc_OperationFailPenalty (v : f64) (x : ScoringConfig) : ScoringConfig :=
  {| sc_HealthCheckFailPenalty := sc_HealthCheckFailPenalty x; sc_RateLimitPenalty :=
     sc_RateLimitPenalty x; sc_AuthFailurePenalty := sc_AuthFailurePenalty x;
     sc_SlowResponsePenalty := sc_SlowResponsePenalty x; sc_OperationFailPenalty := v;
     sc_TimeoutPenalty := sc_TimeoutPenalty x; sc_SuccessBonus := sc_SuccessBonus x;
     sc_DecayInterval := sc_DecayInterval x; sc_DecayRate := sc_DecayRate x; sc_MaxPenalty :=
     sc_MaxPenalty x; sc_LatencyWindowSize := sc_LatencyWindowSize x; sc_SlowThresholdStdDev :=
     sc_SlowThresholdStdDev x; sc_MinSamplesForLatencyComparison :=
     sc_MinSamplesForLatencyComparison x; sc_Enabled := sc_Enabled x; sc_PenaltyHistorySize :=
     sc_PenaltyHistorySize x; sc_RetentionWindow := sc_RetentionWindow x;
     sc_PenaltyCleanupInterval := sc_PenaltyCleanupInterval x |}.
Definition set_sc_TimeoutPenalty (v : f64) (x : ScoringConfig) : ScoringConfig :=
  {| sc_HealthCheckFailPenalty := sc_HealthCheckFailPenalty x; sc_RateLimitPenalty :=
     sc_RateLimitPenalty x; sc_AuthFailurePenalty := sc_AuthFailurePenalty x;
     sc_SlowResponsePenalty := sc_SlowResponsePenalty x; sc_OperationFailPenalty :=
     sc_OperationFailPenalty x; sc_TimeoutPenalty := v; sc_SuccessBonus := sc_SuccessBonus x;
     sc_DecayInterval := sc_DecayInterval x; sc_DecayRate := sc_DecayRate x; sc_MaxPenalty :=
     sc_MaxPenalty x; sc_LatencyWindowSize := sc_LatencyWindowSize x; sc_SlowThresholdStdDev :=
     sc_SlowThresholdStdDev x; sc_MinSamplesForLatencyComparison :=
     sc_MinSamplesForLatencyComparison x; sc_Enabled := sc_Enabled x; sc_PenaltyHistorySize :=
     sc_PenaltyHistorySize x; sc_RetentionWindow := sc_RetentionWindow x;
     sc_PenaltyCleanupInterval := sc_PenaltyCleanupInterval x |}.
Definition set_sc_SuccessBonus (v : f64) (x : ScoringConfig) : ScoringConfig :=
  {| sc_HealthCheckFailPenalty := sc_HealthCheckFailPenalty x; sc_RateLimitPenalty :=
     sc_RateLimitPenalty x; sc_AuthFailurePenalty := sc_AuthFailurePenalty x;
     sc_SlowResponsePenalty := sc_SlowResponsePenalty x; sc_OperationFailPenalty :=
     sc_OperationFailPenalty x; sc_TimeoutPenalty := sc_TimeoutPenalty x; sc_SuccessBonus := v;
     sc_DecayInterval := sc_DecayInterval x; sc_DecayRate := sc_DecayRate x; sc_MaxPenalty :=
     sc_MaxPenalty x; sc_LatencyWindowSize := sc_LatencyWindowSize x; sc_SlowThresholdStdDev :=
     sc_SlowThresholdStdDev x; sc_MinSamplesForLatencyComparison :=
     sc_MinSamplesForLatencyComparison x; sc_Enabled := sc_Enabled x; sc_PenaltyHistorySize :=
     sc_PenaltyHistorySize x; sc_RetentionWindow := sc_RetentionWindow x;
     sc_PenaltyCleanupInterval := sc_PenaltyCleanupInterval x |}.
Definition set_sc_DecayInterval (v : Duration) (x : ScoringConfig) : ScoringConfig :=
  {| sc_HealthCheckFailPenalty := sc_HealthCheckFailPenalty x; sc_RateLimitPenalty :=
     sc_RateLimitPenalty x; sc_AuthFailurePenalty := sc_AuthFailurePenalty x;
     sc_SlowResponsePenalty := sc_SlowResponsePenalty x; sc_OperationFailPenalty :=
     sc_OperationFailPenalty x; sc_TimeoutPenalty := sc_TimeoutPenalty x; sc_SuccessBonus :=
     sc_SuccessBonus x; sc_DecayInterval := v; sc_DecayRate := sc_DecayRate x; sc_MaxPenalty :=
     sc_MaxPenalty x; sc_LatencyWindowSize := sc_LatencyWindowSize x; sc_SlowThresholdStdDev :=
     sc_SlowThresholdStdDev x; sc_MinSamplesForLatencyComparison :=
     sc_MinSamplesForLatencyComparison x; sc_Enabled := sc_Enabled x; sc_PenaltyHistorySize :=
     sc_PenaltyHistorySize x; sc_RetentionWindow := sc_RetentionWindow x;
     sc_PenaltyCleanupInterval := sc_PenaltyCleanupInterval x |}.
Definition set_sc_DecayRate (v : f64) (x : ScoringConfig) : ScoringConfig :=
  {| sc_HealthCheckFailPenalty := sc_HealthCheckFailPenalty x; sc_RateLimitPenalty :=
     sc_RateLimitPenalty x; sc_AuthFailurePenalty := sc_AuthFailurePenalty x;
     sc_SlowResponsePenalty := sc_SlowResponsePenalty x; sc_OperationFailPenalty :=
     sc_OperationFailPenalty x; sc_TimeoutPenalty := sc_TimeoutPenalty x; sc_SuccessBonus :=
     sc_SuccessBonus x; sc_DecayInterval := sc_DecayInterval x; sc_DecayRate := v; sc_MaxPenalty
     := sc_MaxPenalty x; sc_LatencyWindowSize := sc_LatencyWindowSize x; sc_SlowThresholdStdDev
     := sc_SlowThresholdStdDev x; sc_MinSamplesForLatencyComparison :=
     sc_MinSamplesForLatencyComparison x; sc_Enabled := sc_Enabled x; sc_PenaltyHistorySize :=
     sc_PenaltyHistorySize x; sc_RetentionWindow := sc_RetentionWindow x;
     sc_PenaltyCleanupInterval := sc_PenaltyCleanupInterval x |}.
Definition set_sc_MaxPenalty (v : f64) (x : ScoringConfig) : ScoringConfig :=
  {| sc_HealthCheckFailPenalty := sc_HealthCheckFailPenalty x; sc_RateLimitPenalty :=
     sc_RateLimitPenalty x; sc_AuthFailurePenalty := sc_AuthFailurePenalty x;
     sc_SlowResponsePenalty := sc_SlowResponsePenalty x; sc_OperationFailPenalty :=
     sc_OperationFailPenalty x; sc_TimeoutPenalty := sc_TimeoutPenalty x; sc_SuccessBonus :=
     sc_SuccessBonus x; sc_DecayInterval := sc_DecayInterval x; sc_DecayRate := sc_DecayRate x;
     sc_MaxPenalty := v; sc_LatencyWindowSize := sc_LatencyWindowSize x; sc_SlowThresholdStdDev
     := sc_SlowThresholdStdDev x; sc_MinSamplesForLatencyComparison :=
     sc_MinSamplesForLatencyComparison x; sc_Enabled := sc_Enabled x; sc_PenaltyHistorySize :=
     sc_PenaltyHistorySize x; sc_RetentionWindow := sc_RetentionWindow x;
     sc_PenaltyCleanupInterval := sc_PenaltyCleanupInterval x |}.
Definition set_sc_LatencyWindowSize (v : Z) (x : ScoringConfig) : ScoringConfig :=
  {| sc_HealthCheckFailPenalty := sc_HealthCheckFailPenalty x; sc_RateLimitPenalty :=
     sc_RateLimitPenalty x; sc_AuthFailurePenalty := sc_AuthFailurePenalty x;
     sc_SlowResponsePenalty := sc_SlowResponsePenalty x; sc_OperationFailPenalty :=
     sc_OperationFailPenalty x; sc_TimeoutPenalty := sc_TimeoutPenalty x; sc_SuccessBonus :=
     sc_SuccessBonus x; sc_DecayInterval := sc_DecayInterval x; sc_DecayRate := sc_DecayRate x;
     sc_MaxPenalty := sc_MaxPenalty x; sc_LatencyWindowSize := v; sc_SlowThresholdStdDev :=
     sc_SlowThresholdStdDev x; sc_MinSamplesForLatencyComparison :=
     sc_MinSamplesForLatencyComparison x; sc_Enabled := sc_Enabled x; sc_PenaltyHistorySize :=
     sc_PenaltyHistorySize x; sc_RetentionWindow := sc_RetentionWindow x;
     sc_PenaltyCleanupInterval := sc_PenaltyCleanupInterval x |}.
Definition set_sc_SlowThresholdStdDev (v : f64) (x : ScoringConfig) : ScoringConfig :=
  {| sc_HealthCheckFailPenalty := sc_HealthCheckFailPenalty x; sc_RateLimitPenalty :=
     sc_RateLimitPenalty x; sc_AuthFailurePenalty := sc_AuthFailurePenalty x;
     sc_SlowResponsePenalty := sc_SlowResponsePenalty x; sc_OperationFailPenalty :=
     sc_OperationFailPenalty x; sc_TimeoutPenalty := sc_TimeoutPenalty x; sc_SuccessBonus :=
     sc_SuccessBonus x; sc_DecayInterval := sc_DecayInterval x; sc_DecayRate := sc_DecayRate x;
     sc_MaxPenalty := sc_MaxPenalty x; sc_LatencyWindowSize := sc_LatencyWindowSize x;
     sc_SlowThresholdStdDev := v; sc_MinSamplesForLatencyComparison :=
     sc_MinSamplesForLatencyComparison x; sc_Enabled := sc_Enabled x; sc_PenaltyHistorySize :=
     sc_PenaltyHistorySize x; sc_RetentionWindow := sc_RetentionWindow x;
     sc_PenaltyCleanupInterval := sc_PenaltyCleanupInterval x |}.
Definition set_sc_MinSamplesForLatencyComparison (v : Z) (x : ScoringConfig) : ScoringConfig :=
  {| sc_HealthCheckFailPenalty := sc_HealthCheckFailPenalty x; sc_RateLimitPenalty :=
     sc_RateLimitPenalty x; sc_AuthFailurePenalty := sc_AuthFailurePenalty x;
     sc_SlowResponsePenalty := sc_SlowResponsePenalty x; sc_OperationFailPenalty :=
     sc_OperationFailPenalty x; sc_TimeoutPenalty := sc_TimeoutPenalty x; sc_SuccessBonus :=
     sc_SuccessBonus x; sc_DecayInterval := sc_DecayInterval x; sc_DecayRate := sc_DecayRate x;
     sc_MaxPenalty := sc_MaxPenalty x; sc_LatencyWindowSize := sc_LatencyWindowSize x;
     sc_SlowThresholdStdDev := sc_SlowThresholdStdDev x; sc_MinSamplesForLatencyComparison := v;
     sc_Enabled := sc_Enabled x; sc_PenaltyHistorySize := sc_PenaltyHistorySize x;
     sc_RetentionWindow := sc_RetentionWindow x; sc_PenaltyCleanupInterval :=
     sc_PenaltyCleanupInterval x |}.
Definition set_sc_Enabled (v : bool) (x : ScoringConfig) : ScoringConfig :=
  {| sc_HealthCheckFailPenalty := sc_HealthCheckFailPenalty x; sc_RateLimitPenalty :=
     sc_RateLimitPenalty x; sc_AuthFailurePenalty := sc_AuthFailurePenalty x;
     sc_SlowResponsePenalty := sc_SlowResponsePenalty x; sc_OperationFailPenalty :=
     sc_OperationFailPenalty x; sc_TimeoutPenalty := sc_TimeoutPenalty x; sc_SuccessBonus :=
     sc_SuccessBonus x; sc_DecayInterval := sc_DecayInterval x; sc_DecayRate := sc_DecayRate x;
     sc_MaxPenalty := sc_MaxPenalty x; sc_LatencyWindowSize := sc_LatencyWindowSize x;
     sc_SlowThresholdStdDev := sc_SlowThresholdStdDev x; sc_MinSamplesForLatencyComparison :=
     sc_MinSamplesForLatencyComparison x; sc_Enabled := v; sc_PenaltyHistorySize :=
     sc_PenaltyHistorySize x; sc_RetentionWindow := sc_RetentionWindow x;
     sc_PenaltyCleanupInterval := sc_PenaltyCleanupInterval x |}.
Definition set_sc_PenaltyHistorySize (v : Z) (x : ScoringConfig) : ScoringConfig :=
  {| sc_HealthCheckFailPenalty := sc_HealthCheckFailPenalty x; sc_RateLimitPenalty :=
     sc_RateLimitPenalty x; sc_AuthFailurePenalty := sc_AuthFailurePenalty x;
     sc_SlowResponsePenalty := sc_SlowResponsePenalty x; sc_OperationFailPenalty :=
     sc_OperationFailPenalty x; sc_TimeoutPenalty := sc_TimeoutPenalty x; sc_SuccessBonus :=
     sc_SuccessBonus x; sc_DecayInterval := sc_DecayInterval x; sc_DecayRate := sc_DecayRate x;
     sc_MaxPenalty := sc_MaxPenalty x; sc_LatencyWindowSize := sc_LatencyWindowSize x;
     sc_SlowThresholdStdDev := sc_SlowThresholdStdDev x; sc_MinSamplesForLatencyComparison :=
     sc_MinSamplesForLatencyComparison x; sc_Enabled := sc_Enabled x; sc_PenaltyHistorySize :=
     v; sc_RetentionWindow := sc_RetentionWindow x; sc_PenaltyCleanupInterval :=
     sc_PenaltyCleanupInterval x |}.
Definition set_sc_RetentionWindow (v : Duration) (x : ScoringConfig) : ScoringConfig :=
  {| sc_HealthCheckFailPenalty := sc_HealthCheckFailPenalty x; sc_RateLimitPenalty :=
     sc_RateLimitPenalty x; sc_AuthFailurePenalty := sc_AuthFailurePenalty x;
     sc_SlowResponsePenalty := sc_SlowResponsePenalty x; sc_OperationFailPenalty :=
     sc_OperationFailPenalty x; sc_TimeoutPenalty := sc_TimeoutPenalty x; sc_SuccessBonus :=
     sc_SuccessBonus x; sc_DecayInterval := sc_DecayInterval x; sc_DecayRate := sc_DecayRate x;
     sc_MaxPenalty := sc_MaxPenalty x; sc_LatencyWindowSize := sc_LatencyWindowSize x;
     sc_SlowThresholdStdDev := sc_SlowThresholdStdDev x; sc_MinSamplesForLatencyComparison :=
     sc_MinSamplesForLatencyComparison x; sc_Enabled := sc_Enabled x; sc_PenaltyHistorySize :=
     sc_PenaltyHistorySize x; sc_RetentionWindow := v; sc_PenaltyCleanupInterval :=
     sc_PenaltyCleanupInterval x |}.
Definition set_sc_PenaltyCleanupInterval (v : Duration) (x : ScoringConfig) : ScoringConfig :=
  {| sc_HealthCheckFailPenalty := sc_HealthCheckFailPenalty x; sc_RateLimitPenalty :=
     sc_RateLimitPenalty x; sc_AuthFailurePenalty := sc_AuthFailurePenalty x;
     sc_SlowResponsePenalty := sc_SlowResponsePenalty x; sc_OperationFailPenalty :=
     sc_OperationFailPenalty x; sc_TimeoutPenalty := sc_TimeoutPenalty x; sc_SuccessBonus :=
     sc_SuccessBonus x; sc_DecayInterval := sc_DecayInterval x; sc_DecayRate := sc_DecayRate x;
     sc_MaxPenalty := sc_MaxPenalty x; sc_LatencyWindowSize := sc_LatencyWindowSize x;
     sc_SlowThresholdStdDev := sc_SlowThresholdStdDev x; sc_MinSamplesForLatencyComparison :=
     sc_MinSamplesForLatencyComparison x; sc_Enabled := sc_Enabled x; sc_PenaltyHistorySize :=
     sc_PenaltyHistorySize x; sc_RetentionWindow := sc_RetentionWindow x;
     sc_PenaltyCleanupInterval := v |}.

(** [DefaultScoringConfig]. *)
Definition DefaultScoringConfig : ScoringConfig := {|
  sc_HealthCheckFailPenalty := f64_of_Z 5;
  sc_RateLimitPenalty := f64_of_Z 20;
  sc_AuthFailurePenalty := f64_of_Z 50;
  sc_SlowResponsePenalty := f64_of_Z 2;
  sc_OperationFailPenalty := f64_of_Z 3;
  sc_TimeoutPenalty := f64_of_Z 10;
  sc_SuccessBonus := f64_const 1 2;
  sc_MaxPenalty := f64_of_Z 90;
  sc_DecayInterval := 1 * Minute;
  sc_DecayRate := f64_const 1 10;
  sc_LatencyWindowSize := 100;
  sc_SlowThresholdStdDev := f64_one;
  sc_MinSamplesForLatencyComparison := 10;
  sc_Enabled := true;
  sc_PenaltyHistorySize := 50;
  sc_RetentionWindow := 30 * 24 * Hour;
  sc_PenaltyCleanupInterval := 24 * Hour
|}.

(** ** Options *)

Abbreviation ScoringOption := (ScoringConfig -> ScoringConfig) (only parsing).

Definition WithHealthCheckPenalty (v : f64) : ScoringOption := set_sc_HealthCheckFailPenalty v.
Definition WithRateLimitPenalty (v : f64) : ScoringOption := set_sc_RateLimitPenalty v.
Definition WithAuthFailurePenalty (v : f64) : ScoringOption := set_sc_AuthFailurePenalty v.
Definition WithSlowResponsePenalty (v : f64) : ScoringOption := set_sc_SlowResponsePenalty v.
Definition WithOperationFailPenalty (v : f64) : ScoringOption := set_sc_OperationFailPenalty v.
Definition WithTimeoutPenalty (v : f64) : ScoringOption := set_sc_TimeoutPenalty v.
Definition WithSuccessBonus (v : f64) : ScoringOption := set_sc_SuccessBonus v.
Definition WithMaxPenalty (v : f64) : ScoringOption := set_sc_MaxPenalty v.
Definition WithDecayInterval (v : Duration) : ScoringOption := set_sc_DecayInterval v.
Definition WithSlowThreshold (v : f64) : ScoringOption := set_sc_SlowThresholdStdDev v.
Definition WithMinLatencySamples (v : Z) : ScoringOption := set_sc_MinSamplesForLatencyComparison v.
Definition WithEnabled (v : bool) : ScoringOption := set_sc_Enabled v.

Definition WithDecayRate (rate : f64) : ScoringOption := fun c =>
  let rate := if f64_ltb rate f64_zero then f64_zero else rate in
  let rate := if f64_gtb rate f64_one then f64_one else rate in
  set_sc_DecayRate rate c.

Definition WithLatencyWindow (size : Z) : ScoringOption := fun c =>
  set_sc_LatencyWindowSize (if size <? 10 then 10 else size) c.

Definition WithPenaltyHistorySize (n : Z) : ScoringOption := fun c =>
  if 0 <? n then set_sc_PenaltyHistorySize n c else c.

Definition WithRetentionWindow (d : Duration) : ScoringOption := fun c =>
  if 0 <? d then set_sc_RetentionWindow d c else c.

Definition WithPenaltyCleanupInterval (d : Duration) : ScoringOption := fun c =>
  if 0 <? d then set_sc_PenaltyCleanupInterval d c else c.

(** [for _, opt := range opts { opt(&config) }]. *)
Definition apply_options (opts : list ScoringOption) (c : ScoringConfig) : ScoringConfig :=
  foldl (fun c (opt : ScoringConfig -> ScoringConfig) => opt c) c opts.

(** [Validate] repairs the configuration in place; it never returns an error. *)
Definition Validate (c : ScoringConfig) : ScoringConfig :=
  let c := if f64_ltb (sc_DecayRate c) f64_zero || f64_gtb (sc_DecayRate c) f64_one
           then set_sc_DecayRate (f64_const 1 10) c else c in
  let c := if sc_LatencyWindowSize c <? 10 then set_sc_LatencyWindowSize 10 c else c in
  if sc_DecayInterval c <? 0 then set_sc_DecayInterval (1 * Minute) c else c.

(** ** What [Validate] establishes *)

(** A decay rate between 0 and 1. *)
Definition rate_ok (r : f64) : Prop := f64_nn r /\ f64_le r f64_one.

#[global] Instance rate_ok_dec r : Decision (rate_ok r).
Proof. unfold rate_ok. apply _. Defined.

(** A float that is not NaN and not the negative zero, in canonical form. *)
Definition f64_regular (x : f64) : Prop :=
  f64_valid x = true /\ ~ is_nan x /\ x <> S754_zero true.

Lemma rate_ok_regular r :
  f64_regular r -> f64_ltb r f64_zero = false -> f64_gtb r f64_one = false -> rate_ok r.
Proof.
  intros (Hv & Hn & Hz) H0 H1. split.
  - split; [done|]. destruct r as [[]|[]| |[]]; try done; by vm_compute in H1.
  - apply f64_ltb_false; [by vm_compute|done|done].
Qed.

Lemma Validate_rate c : f64_regular (sc_DecayRate c) -> rate_ok (sc_DecayRate (Validate c)).
Proof.
  intros Hr. unfold Validate.
  destruct (f64_ltb (sc_DecayRate c) f64_zero || f64_gtb (sc_DecayRate c) f64_one) eqn:E; cbn.
  - repeat (case_match; cbn); by vm_compute.
  - apply orb_false_elim in E as [E0 E1].
    repeat (case_match; cbn); by apply rate_ok_regular.
Qed.

Lemma Validate_window c : 10 <= sc_LatencyWindowSize (Validate c).
Proof. unfold Validate. repeat (case_match; cbn in *); go_lia. Qed.

Lemma Validate_interval c : 0 <= sc_DecayInterval (Validate c).
Proof. unfold Validate. unfold Minute, Second, Millisecond. repeat (case_match; cbn in *); go_lia. Qed.
