(* ===== verification/Latency.v ===== *)
(** * Latency tracking

    [scoring/latency.go]: per-provider sliding windows of response times, the
    aggregate statistics over all of them with their cache, and the slowness
    factor of a provider.  The statistics are computed from the samples of all
    providers in the order a map iteration delivers them ([MapRange]). *)

From S2P Require Import Prelude GoInt GoFloat Sorting Penalties Scorer ScoringConfig.

Record LatencyStats := {
  ls_Mean : Duration;
  ls_StdDev : Duration;
  ls_Min : Duration;
  ls_Max : Duration;
  ls_P50 : Duration;
  ls_P75 : Duration;
  ls_P90 : Duration;
  ls_P95 : Duration;
  ls_P99 : Duration;
  ls_SampleCount : Z;
  ls_LastCalculated : Time
}.

(** The zero value, with a calculation time. *)
Definition empty_stats (now : Time) : LatencyStats := {|
  ls_Mean := 0; ls_StdDev := 0; ls_Min := 0; ls_Max := 0; ls_P50 := 0; ls_P75 := 0;
  ls_P90 := 0; ls_P95 := 0; ls_P99 := 0; ls_SampleCount := 0; ls_LastCalculated := now
|}.

Definition ls_set_LastCalculated (now : Time) (s : LatencyStats) : LatencyStats := {|
  ls_Mean := ls_Mean s; ls_StdDev := ls_StdDev s; ls_Min := ls_Min s; ls_Max := ls_Max s;
  ls_P50 := ls_P50 s; ls_P75 := ls_P75 s; ls_P90 := ls_P90 s; ls_P95 := ls_P95 s;
  ls_P99 := ls_P99 s; ls_SampleCount := ls_SampleCount s; ls_LastCalculated := now
|}.

Record LatencyTracker := {
  lt_samples : gmap string (list Duration);
  lt_windowSize : Z;
  lt_globalStats : option LatencyStats;
  lt_statsDirty : bool
}.

Definition NewLatencyTracker (windowSize : Z) : LatencyTracker := {|
  lt_samples := ∅;
  lt_windowSize := if windowSize <=? 0 then 100 else windowSize;
  lt_globalStats := None;
  lt_statsDirty := true
|}.

(** [lt.RecordLatency(provider, latency)]. *)
Definition lt_RecordLatency (provider : string) (latency : Duration) (lt : LatencyTracker)
    : LatencyTracker := {|
  lt_samples :=
    <[provider := push_window (lt_windowSize lt) (default [] (lt_samples lt !! provider)) latency]>
      (lt_samples lt);
  lt_windowSize := lt_windowSize lt;
  lt_globalStats := lt_globalStats lt;
  lt_statsDirty := true
|}.

Section stats.
Context `{GoArch}.

(** Slice indexing: panics out of range. *)
Definition index (l : list Duration) (i : Z) : go Duration :=
  if i <? 0 then None else l !! Z.to_nat i.

(** [percentile(sorted, p)]: linear interpolation between the two nearest
    ranks. *)
Definition percentile (sorted : list Duration) (p : Z) : go Duration :=
  if zlen sorted =? 0 then Some 0
  else if p <=? 0 then index sorted 0
  else if 100 <=? p then index sorted (zlen sorted - 1)
  else
    let rank := f64_mul (f64_div (f64_of_Z p) (f64_of_Z 100)) (f64_of_Z (zlen sorted - 1)) in
    lowerIndex ← f64_floorZ rank;
    upperIndex ← f64_ceilZ rank;
    if lowerIndex =? upperIndex then index sorted lowerIndex
    else
      let weight := f64_sub rank (f64_of_Z lowerIndex) in
      lo ← index sorted lowerIndex;
      up ← index sorted upperIndex;
      let lower := f64_of_Z lo in
      let upper := f64_of_Z up in
      let interpolated := f64_add lower (f64_mul weight (f64_sub upper lower)) in
      Some (f64_to_int interpolated).

(** The variance is accumulated in the order of the samples. *)
Definition variance (samples : list Duration) (mean : Duration) : f64 :=
  f64_div
    (foldl (fun v s => let diff := f64_of_Z (wrap64 (s - mean)) in f64_add v (f64_mul diff diff))
       f64_zero samples)
    (f64_of_Z (zlen samples)).

(** [calculateStats]; [LastCalculated] is left at the zero time. *)
Definition calculateStats (samples : list Duration) : go LatencyStats :=
  if zlen samples =? 0 then Some (empty_stats zero_time)
  else
    let sorted := sortDurations samples in
    let mean := wrap64 (Z.quot (sum_durations samples) (zlen samples)) in
    let stdDev := f64_to_int (f64_sqrt (variance samples mean)) in
    mn ← index sorted 0;
    mx ← index sorted (zlen sorted - 1);
    p50 ← percentile sorted 50;
    p75 ← percentile sorted 75;
    p90 ← percentile sorted 90;
    p95 ← percentile sorted 95;
    p99 ← percentile sorted 99;
    Some {| ls_Mean := mean; ls_StdDev := stdDev; ls_Min := mn; ls_Max := mx;
            ls_P50 := p50; ls_P75 := p75; ls_P90 := p90; ls_P95 := p95; ls_P99 := p99;
            ls_SampleCount := zlen samples; ls_LastCalculated := zero_time |}.

Context `{MapRange}.

Definition all_samples (lt : LatencyTracker) : list Duration :=
  mjoin ((range_kv (lt_samples lt)).*2).

(** [GetGlobalStats]: the cached value when it is clean, otherwise computed
    (and cached unless there is no sample). *)
Definition GetGlobalStats (now : Time) (lt : LatencyTracker) : go (LatencyStats * LatencyTracker) :=
  match lt_statsDirty lt, lt_globalStats lt with
  | false, Some stats => Some (stats, lt)
  | _, _ =>
      let samples := all_samples lt in
      if zlen samples =? 0 then Some (empty_stats now, lt)
      else
        stats ← calculateStats samples;
        let stats := ls_set_LastCalculated now stats in
        Some (stats, {| lt_samples := lt_samples lt; lt_windowSize := lt_windowSize lt;
                        lt_globalStats := Some stats; lt_statsDirty := false |})
  end.

(** [GetProviderSlownessFactor]: deviations of the provider's average from the
    global mean, in standard deviations. *)
Definition GetProviderSlownessFactor (provider : string) (now : Time) (lt : LatencyTracker)
    : go (f64 * LatencyTracker) :=
  match lt_samples lt !! provider with
  | None | Some [] => Some (f64_zero, lt)
  | Some samplesCopy =>
      '(globalStats, lt) ← GetGlobalStats now lt;
      if ls_StdDev globalStats =? 0 then Some (f64_zero, lt)
      else
        let providerAvg := wrap64 (Z.quot (sum_durations samplesCopy) (zlen samplesCopy)) in
        let difference := f64_of_Z (wrap64 (providerAvg - ls_Mean globalStats)) in
        Some (f64_div difference (f64_of_Z (ls_StdDev globalStats)), lt)
  end.

(** [LatencyTracker.GetProviderStats]. *)
Definition lt_GetProviderStats (provider : string) (lt : LatencyTracker) : go LatencyStats :=
  match lt_samples lt !! provider with
  | None | Some [] => Some (empty_stats zero_time)
  | Some samples => calculateStats samples
  end.
End stats.

(** [LatencyTracker.Reset]. *)
Definition lt_Reset (lt : LatencyTracker) : LatencyTracker := {|
  lt_samples := ∅; lt_windowSize := lt_windowSize lt;
  lt_globalStats := None; lt_statsDirty := true
|}.

(** ** Sums and windows *)

Lemma wrap64_add_l a b : wrap64 (wrap64 a + b) = wrap64 (a + b).
Proof.
  unfold wrap64. f_equal.
  replace ((a + 2 ^ 63) mod 2 ^ 64 - 2 ^ 63 + b + 2 ^ 63) with ((a + 2 ^ 63) mod 2 ^ 64 + b) by lia.
  rewrite Zplus_mod_idemp_l. f_equal. lia.
Qed.

Definition zsum (l : list Z) : Z := foldr Z.add 0 l.

(** The accumulated sum is the exact one, reduced once. *)
Lemma sum_durations_zsum l : sum_durations l = wrap64 (zsum l).
Proof.
  assert (forall a, foldl (fun s x => wrap64 (s + x)) (wrap64 a) l = wrap64 (a + zsum l)) as Hgen.
  { induction l as [|x l IH]; intros a; cbn; [by rewrite Z.add_0_r|].
    by rewrite wrap64_add_l, IH, Z.add_assoc. }
  apply (Hgen 0).
Qed.

Lemma zsum_perm l k : l ≡ₚ k -> zsum l = zsum k.
Proof. unfold zsum. induction 1; cbn in *; lia. Qed.

Lemma push_window_last_n w l x h :
  0 < w -> l = last_n (Z.to_nat w) h -> push_window w l x = last_n (Z.to_nat w) (h ++ [x]).
Proof.
  intros Hw ->. unfold push_window. rewrite zlen_app. unfold zlen at 1. rewrite last_n_length.
  change (zlen [x]) with 1. destruct (w <? _) eqn:E; go_bool.
  - rewrite last_n_snoc by lia. rewrite drop_app_le; [done|]. rewrite last_n_length. lia.
  - rewrite !last_n_all; [done|rewrite length_app; cbn; lia|lia].
Qed.

(** ** [calculateStats] never panics *)

Lemma index_in_range (l : list Duration) i : 0 <= i < zlen l -> is_Some (index l i).
Proof.
  intros Hi. unfold index. destruct (i <? 0) eqn:E; [go_lia|].
  apply lookup_lt_is_Some. unfold zlen in Hi. lia.
Qed.

Lemma percent_rate p : 0 <= p <= 100 -> rate_ok (f64_div (f64_of_Z p) (f64_of_Z 100)).
Proof.
  intros Hp. assert (forallb (fun p => bool_decide (rate_ok (f64_div (f64_of_Z p) (f64_of_Z 100))))
    (seqZ 0 101) = true) as Hall by (vm_compute; reflexivity).
  rewrite forallb_forall in Hall. specialize (Hall p). apply bool_decide_eq_true in Hall; [done|].
  apply list_elem_of_In, elem_of_seqZ. lia.
Qed.

Section stats_total.
Context `{GoArch}.

Lemma percentile_total (l : list Duration) p : zlen l < 2 ^ 53 -> is_Some (percentile l p).
Proof.
  intros Hl. unfold percentile. destruct (zlen l =? 0) eqn:E0; [done|].
  pose proof (zlen_nonneg l). apply Z.eqb_neq in E0.
  case_match; [apply index_in_range; lia|]. case_match; [apply index_in_range; lia|].
  destruct (percent_rate p) as [Hr Hr1]; [go_lia|].
  destruct (f64_rate_index _ (zlen l - 1) Hr Hr1) as (lo & up & -> & -> & Hlo & Hup); [lia|].
  cbn [mbind option_bind]. destruct (index_in_range l lo) as [x Hx]; [lia|].
  destruct (index_in_range l up) as [y Hy]; [lia|].
  case_match; [by rewrite Hx|]. by rewrite Hx, Hy.
Qed.

Lemma calculateStats_total (l : list Duration) : zlen l < 2 ^ 53 -> is_Some (calculateStats l).
Proof.
  intros Hl. unfold calculateStats. destruct (zlen l =? 0) eqn:E0; [done|].
  destruct (sortDurations_spec l) as [Hp _]. pose proof (zlen_nonneg l). apply Z.eqb_neq in E0.
  assert (zlen (sortDurations l) = zlen l) as Hlen by (unfold zlen; by rewrite Hp).
  destruct (index_in_range (sortDurations l) 0) as [? ->]; [lia|]. cbn [mbind option_bind].
  destruct (index_in_range (sortDurations l) (zlen (sortDurations l) - 1)) as [? ->]; [lia|].
  cbn [mbind option_bind].
  assert (forall p, is_Some (percentile (sortDurations l) p)) as Hperc
    by (intros p; apply percentile_total; by rewrite Hlen).
  destruct (Hperc 50) as [? ->], (Hperc 75) as [? ->], (Hperc 90) as [? ->],
    (Hperc 95) as [? ->], (Hperc 99) as [? ->]. done.
Qed.
End stats_total.

(** What a computed result was computed from. *)
Lemma calculateStats_inv `{GoArch} (l : list Duration) s :
  (zlen l =? 0) = false -> calculateStats l = Some s ->
  exists mn mx p50 p75 p90 p95 p99,
    index (sortDurations l) 0 = Some mn /\ index (sortDurations l) (zlen (sortDurations l) - 1) = Some mx
    /\ percentile (sortDurations l) 50 = Some p50 /\ percentile (sortDurations l) 75 = Some p75
    /\ percentile (sortDurations l) 90 = Some p90 /\ percentile (sortDurations l) 95 = Some p95
    /\ percentile (sortDurations l) 99 = Some p99
    /\ s = {| ls_Mean := wrap64 (Z.quot (sum_durations l) (zlen l));
              ls_StdDev := f64_to_int (f64_sqrt (variance l (wrap64 (Z.quot (sum_durations l) (zlen l)))));
              ls_Min := mn; ls_Max := mx; ls_P50 := p50; ls_P75 := p75; ls_P90 := p90; ls_P95 := p95; ls_P99 := p99;
              ls_SampleCount := zlen l; ls_LastCalculated := zero_time |}.
Proof.
  unfold calculateStats. intros ->.
  intros (mn & ? & (mx & ? & (p50 & ? & (p75 & ? & (p90 & ? & (p95 & ? & (p99 & ? & [= Hs])%bind_some)%bind_some)%bind_some)%bind_some)%bind_some)%bind_some)%bind_some.
  exists mn, mx, p50, p75, p90, p95, p99. by split_and!.
Qed.

(** ** Order independence

    All the statistics but the standard deviation (whose rounding depends on
    the order of accumulation) are functions of the multiset of samples. *)

Definition same_but_stddev (s t : LatencyStats) : Prop :=
  ls_Mean s = ls_Mean t /\ ls_Min s = ls_Min t /\ ls_Max s = ls_Max t
  /\ ls_P50 s = ls_P50 t /\ ls_P75 s = ls_P75 t /\ ls_P90 s = ls_P90 t
  /\ ls_P95 s = ls_P95 t /\ ls_P99 s = ls_P99 t /\ ls_SampleCount s = ls_SampleCount t.

Lemma calculateStats_perm `{GoArch} (l k : list Duration) s t :
  l ≡ₚ k -> calculateStats l = Some s -> calculateStats k = Some t -> same_but_stddev s t.
Proof.
  intros Hp Hs Ht. destruct (zlen k =? 0) eqn:E0.
  { unfold calculateStats in Hs, Ht. rewrite (zlen_perm l k Hp), E0 in Hs. rewrite E0 in Ht. by injection Hs as <-; injection Ht as <-. }
  apply calculateStats_inv in Ht; [|done]. apply calculateStats_inv in Hs; [|by rewrite (zlen_perm l k Hp)].
  rewrite (sortDurations_proper l k Hp), (zlen_perm l k Hp), !sum_durations_zsum, (zsum_perm l k Hp) in Hs.
  rewrite !sum_durations_zsum in Ht.
  destruct Hs as (? & ? & ? & ? & ? & ? & ? & H1 & H2 & H3 & H4 & H5 & H6 & H7 & ->).
  destruct Ht as (? & ? & ? & ? & ? & ? & ? & K1 & K2 & K3 & K4 & K5 & K6 & K7 & ->).
  unfold same_but_stddev. cbn [ls_Mean ls_Min ls_Max ls_P50 ls_P75 ls_P90 ls_P95 ls_P99 ls_SampleCount].
  split_and!; congruence.
Qed.

(** ** The mean lies between the extremes, when the sum does not overflow *)

Lemma sorted_head_le (l : list Z) x : StronglySorted Z.le l -> l !! 0%nat = Some x -> Forall (Z.le x) l.
Proof.
  destruct l as [|y l]; [done|]. inversion 1; subst. intros [= ->]. constructor; [lia|done].
Qed.

Lemma sorted_last_ge (l : list Z) x :
  StronglySorted Z.le l -> l !! (length l - 1)%nat = Some x -> Forall (fun y => y <= x) l.
Proof.
  induction 1 as [|y l Hl IH Hy]; [done|]. cbn [length]. rewrite Nat.sub_succ, Nat.sub_0_r.
  destruct l as [|z l]; [intros [= ->]; constructor; [lia|constructor]|].
  intros Hx. change ((z :: l) !! length l = Some x) in Hx.
  assert ((z :: l) !! (length (z :: l) - 1)%nat = Some x) as Hx' by (cbn [length]; by rewrite Nat.sub_succ, Nat.sub_0_r).
  specialize (IH Hx'). constructor; [|done]. apply list_elem_of_lookup_2 in Hx.
  rewrite Forall_forall in Hy. by apply Hy.
Qed.

Lemma zsum_bounds (l : list Z) a b :
  Forall (Z.le a) l -> Forall (fun y => y <= b) l -> zlen l * a <= zsum l <= zlen l * b.
Proof.
  induction l as [|x l IH]; intros Ha Hb; [unfold zlen; cbn; lia|].
  change (zsum (x :: l)) with (x + zsum l). apply Forall_cons in Ha as [? Ha], Hb as [? Hb]. rewrite zlen_cons. specialize (IH Ha Hb). lia.
Qed.

Lemma calculateStats_mean `{GoArch} (l : list Duration) s :
  l <> [] -> Forall (Z.le 0) l -> int64_range (zsum l) ->
  calculateStats l = Some s -> ls_Min s <= ls_Mean s <= ls_Max s.
Proof.
  intros Hne Hpos Hsum.
  destruct (zlen l =? 0) eqn:E0; [apply Z.eqb_eq, zlen_nil_inv in E0; congruence|].
  intros (mn & mx & p50 & p75 & p90 & p95 & p99 & Hmin & Hmax & _ & _ & _ & _ & _ & ->)%calculateStats_inv; [|done].
  cbn [ls_Mean ls_Min ls_Max].
  destruct (sortDurations_spec l) as [Hp Hsort]. unfold index in Hmin, Hmax. cbn in Hmin.
  destruct (zlen (sortDurations l) - 1 <? 0); [done|].
  replace (Z.to_nat (zlen (sortDurations l) - 1)) with (length (sortDurations l) - 1)%nat in Hmax
    by (unfold zlen; lia).
  apply sorted_head_le in Hmin; [|done]. apply sorted_last_ge in Hmax; [|done].
  rewrite Hp in Hmin, Hmax. pose proof (zsum_bounds l _ _ Hmin Hmax) as Hb.
  pose proof (zlen_nonneg l). apply Z.eqb_neq in E0.
  assert (0 <= zsum l) by (pose proof (zsum_bounds l 0 _ Hpos Hmax); lia).
  rewrite sum_durations_zsum, (wrap64_id (zsum l)), Z.quot_div_nonneg by (done || lia).
  rewrite wrap64_id.
  - split; [apply Z.div_le_lower_bound; lia|apply Z.div_le_upper_bound; lia].
  - assert (zsum l / zlen l <= zsum l) by (apply Z.div_le_upper_bound; nia).
    pose proof (Z.div_pos (zsum l) (zlen l)). int_range.
Qed.

(** ** The cache is transparent

    A clean cache holds what a fresh computation over the current samples
    gives (up to the time it was computed). *)

Section cache.
Context `{GoArch, MapRange}.

Definition lt_coherent (lt : LatencyTracker) : Prop :=
  lt_statsDirty lt = false ->
  exists s t, lt_globalStats lt = Some s /\ zlen (all_samples lt) <> 0
    /\ calculateStats (all_samples lt) = Some t
    /\ s = ls_set_LastCalculated (ls_LastCalculated s) t.

Lemma NewLatencyTracker_coherent w : lt_coherent (NewLatencyTracker w).
Proof. done. Qed.

Lemma lt_RecordLatency_coherent p d lt : lt_coherent (lt_RecordLatency p d lt).
Proof. done. Qed.

Lemma GetGlobalStats_coherent now lt s lt' :
  lt_coherent lt -> GetGlobalStats now lt = Some (s, lt') ->
  lt_coherent lt' /\ lt_samples lt' = lt_samples lt /\ lt_windowSize lt' = lt_windowSize lt
  /\ if zlen (all_samples lt) =? 0 then s = empty_stats now
     else exists t, calculateStats (all_samples lt) = Some t
                    /\ s = ls_set_LastCalculated (ls_LastCalculated s) t.
Proof.
  intros Hc. unfold GetGlobalStats.
  destruct (lt_statsDirty lt) eqn:Ed; [|destruct (lt_globalStats lt) as [gs|] eqn:Eg].
  2: { intros [= <- <-]. destruct (Hc Ed) as (s0 & t & Hs & Hne & Ht & Heq).
       rewrite Eg in Hs. injection Hs as <-. split_and!; [done..|].
       apply Z.eqb_neq in Hne. rewrite Hne. eauto. }
  all: destruct (zlen (all_samples lt) =? 0) eqn:E0; [by intros [= <- <-]|].
  all: intros (t & Ht & [= <- <-])%bind_some; split_and!; [|done..|eauto].
  all: intros _; exists (ls_set_LastCalculated now t), t; apply Z.eqb_neq in E0; done.
Qed.
End cache.

(** ** Properties *)

Lemma sortDurations_ends (l : list Duration) mn mx :
  index (sortDurations l) 0 = Some mn -> index (sortDurations l) (zlen (sortDurations l) - 1) = Some mx ->
  mn ∈ l /\ mx ∈ l /\ Forall (fun x => mn <= x <= mx) l.
Proof.
  destruct (sortDurations_spec l) as [Hp Hsort]. unfold index. intros Hmin Hmax. cbn in Hmin.
  destruct (zlen (sortDurations l) - 1 <? 0); [done|].
  replace (Z.to_nat (zlen (sortDurations l) - 1)) with (length (sortDurations l) - 1)%nat in Hmax
    by (unfold zlen; lia).
  pose proof (list_elem_of_lookup_2 _ _ _ Hmin) as H1. pose proof (list_elem_of_lookup_2 _ _ _ Hmax) as H2.
  apply sorted_head_le in Hmin; [|done]. apply sorted_last_ge in Hmax; [|done].
  rewrite Hp in H1, H2, Hmin, Hmax. split_and!; [done..|]. rewrite Forall_forall in *. auto.
Qed.

(** The statistics of a non-empty set of non-negative samples (fewer than
    2^53, whose sum fits) are always computed; minimum and maximum are the
    extreme samples, the mean lies between them, the sample count is exact,
    and nothing but the standard deviation depends on the order of arrival. *)
Theorem calculateStats_sound `{GoArch} (l : list Duration) :
  l <> [] -> Forall (Z.le 0) l -> int64_range (zsum l) -> zlen l < 2 ^ 53 ->
  exists s, calculateStats l = Some s
    /\ ls_Min s ∈ l /\ ls_Max s ∈ l /\ Forall (fun x => ls_Min s <= x <= ls_Max s) l
    /\ ls_Min s <= ls_Mean s <= ls_Max s /\ ls_SampleCount s = zlen l
    /\ forall k, l ≡ₚ k -> exists t, calculateStats k = Some t /\ same_but_stddev s t.
Proof.
  intros Hne Hpos Hsum Hlen. destruct (calculateStats_total l Hlen) as [s Hs]. exists s. split; [done|].
  pose proof (calculateStats_mean l s Hne Hpos Hsum Hs) as Hmean.
  assert (ls_Min s ∈ l /\ ls_Max s ∈ l /\ Forall (fun x => ls_Min s <= x <= ls_Max s) l /\ ls_SampleCount s = zlen l)
    as (H1 & H2 & H3 & H4).
  { destruct (zlen l =? 0) eqn:E0; [apply Z.eqb_eq, zlen_nil_inv in E0; congruence|].
    apply calculateStats_inv in Hs as (mn & mx & p50 & p75 & p90 & p95 & p99 & Hmin & Hmax & _ & _ & _ & _ & _ & ->); [|done].
    destruct (sortDurations_ends l mn mx Hmin Hmax) as (? & ? & ?). by split_and!. }
  split_and!; [done..|apply Hmean|apply Hmean|done|]. intros k Hk.
  destruct (calculateStats_total k) as [t Ht]; [by rewrite <-(zlen_perm l k Hk)|].
  exists t. split; [done|]. by apply (calculateStats_perm l k).
Qed.

Lemma calculateStats_sound_witness :
  let _ := arch_amd64 in
  exists s, calculateStats [30; 10; 20] = Some s
    /\ ls_Min s ∈ [30; 10; 20] /\ ls_Max s ∈ [30; 10; 20] /\ Forall (fun x => ls_Min s <= x <= ls_Max s) [30; 10; 20]
    /\ ls_Min s <= ls_Mean s <= ls_Max s /\ ls_SampleCount s = zlen [30; 10; 20]
    /\ forall k, [30; 10; 20] ≡ₚ k -> exists t, calculateStats k = Some t /\ same_but_stddev s t.
Proof.
  intros A. apply (calculateStats_sound [30; 10; 20]); [discriminate| | |reflexivity].
  - repeat constructor; vm_compute; discriminate.
  - split; vm_compute; discriminate.
Defined.

Inductive lt_cmd := LRecord (provider : string) (latency : Duration) | LGlobal (now : Time) | LReset.

Definition lt_step `{GoArch, MapRange} (lt : LatencyTracker) (c : lt_cmd) : go LatencyTracker :=
  match c with
  | LRecord provider latency => Some (lt_RecordLatency provider latency lt)
  | LGlobal now => '(_, lt) ← GetGlobalStats now lt; Some lt
  | LReset => Some (lt_Reset lt)
  end.

Lemma lt_Reset_coherent `{GoArch, MapRange} lt : lt_coherent (lt_Reset lt).
Proof. done. Qed.

Lemma lt_run_coherent `{GoArch, MapRange} l lt lt' :
  lt_coherent lt -> go_foldl lt_step lt l = Some lt' -> lt_coherent lt'.
Proof.
  revert lt. induction l as [|c l IH]; intros lt Hc; [by intros [= <-]|]. cbn [go_foldl].
  intros (lt1 & H1 & H2)%bind_some. apply (IH lt1); [|done]. destruct c as [p d|now|]; cbn in H1.
  - by simplify_eq.
  - apply bind_some in H1 as ([s lt2] & H1 & [= <-]). by apply (GetGlobalStats_coherent _ _ _ _ Hc) in H1 as [? _].
  - by simplify_eq.
Qed.

(** The cached global statistics are transparent: after any sequence of
    recordings, resets and reads, reading gives what a fresh computation over
    the samples currently held gives, up to the time it was computed. *)
Theorem global_stats_cache_transparent `{GoArch, MapRange} w l lt now s lt' :
  go_foldl lt_step (NewLatencyTracker w) l = Some lt -> GetGlobalStats now lt = Some (s, lt') ->
  if zlen (all_samples lt) =? 0 then s = empty_stats now
  else exists t, calculateStats (all_samples lt) = Some t
                 /\ s = ls_set_LastCalculated (ls_LastCalculated s) t.
Proof.
  intros Hrun Hg. apply (lt_run_coherent _ _ _ (NewLatencyTracker_coherent w)) in Hrun.
  by apply (GetGlobalStats_coherent _ _ _ _ Hrun) in Hg as (_ & _ & _ & ?).
Qed.

Definition demo_lt_cmds : list lt_cmd :=
  [LRecord "mempool" (30 * Millisecond); LGlobal Second; LRecord "tatum" (90 * Millisecond)].

Definition demo_tracker : LatencyTracker :=
  let _ := arch_amd64 in let _ := canonical_range in
  default (NewLatencyTracker 100) (go_foldl lt_step (NewLatencyTracker 100) demo_lt_cmds).

Definition demo_global : LatencyStats :=
  let _ := arch_amd64 in let _ := canonical_range in
  default (empty_stats 0) (fst <$> GetGlobalStats (2 * Second) demo_tracker).

Definition demo_tracker' : LatencyTracker :=
  let _ := arch_amd64 in let _ := canonical_range in
  default (NewLatencyTracker 100) (snd <$> GetGlobalStats (2 * Second) demo_tracker).

Lemma global_stats_cache_transparent_witness :
  let _ := arch_amd64 in let _ := canonical_range in
  ls_Mean demo_global = 60 * Millisecond
  /\ if zlen (all_samples demo_tracker) =? 0 then demo_global = empty_stats (2 * Second)
     else exists t, calculateStats (all_samples demo_tracker) = Some t
                    /\ demo_global = ls_set_LastCalculated (ls_LastCalculated demo_global) t.
Proof.
  intros A M. split; [vm_compute; reflexivity|].
  apply (global_stats_cache_transparent 100 demo_lt_cmds demo_tracker (2 * Second) demo_global demo_tracker');
    vm_compute; reflexivity.
Defined.
