(* ===== verification/Events.v ===== *)
(** * Scoring events

    [scoring/events.go]: the events that affect a score, and the classification
    of health-check and operation results. *)

From S2P Require Import Prelude GoInt GoString.

Inductive ScoreEventType :=
  | EventHealthCheckFailed
  | EventHealthCheck429
  | EventHealthCheckAuthFail
  | EventHealthCheckTimeout
  | EventOperationFailed
  | EventOperationAuthFail
  | EventOperationSuccess
  | EventSlowResponse
  | EventRateLimited.

#[global] Instance ScoreEventType_eq_dec : EqDecision ScoreEventType.
Proof. solve_decision. Defined.

Definition event_string (t : ScoreEventType) : string :=
  match t with
  | EventHealthCheckFailed => "healthcheck_failed"
  | EventHealthCheck429 => "healthcheck_429"
  | EventHealthCheckAuthFail => "healthcheck_auth"
  | EventHealthCheckTimeout => "healthcheck_timeout"
  | EventOperationFailed => "operation_failed"
  | EventOperationAuthFail => "operation_auth_fail"
  | EventOperationSuccess => "operation_success"
  | EventSlowResponse => "slow_response"
  | EventRateLimited => "rate_limited"
  end.

(** [Metadata] holds the printed form of its values: every producer in the
    program stores strings. *)
Record ScoreEvent := {
  ev_Type : ScoreEventType;
  ev_Provider : string;
  ev_Timestamp : Time;
  ev_ResponseTime : Duration;
  ev_HTTPStatus : Z;
  ev_Error : option error;
  ev_Metadata : gmap string string
}.

(** ** Substring search *)

(** [findSubstring]: the loop over start positions. *)
Definition findSubstring (s substr : string) : bool :=
  existsb (fun i => bool_decide (String.substring i (String.length substr) s = substr))
    (seq 0 (String.length s - String.length substr + 1)).

Definition contains (s substr : string) : bool :=
  (String.length substr <=? String.length s)%nat &&
  (bool_decide (s = substr)
   || (String.length substr <? String.length s)%nat && findSubstring s substr).

Definition auth_indicators : list string :=
  [ "authentication failed"; "unauthorized"; "invalid client"; "invalid credentials";
    "access denied"; "not found in the allow list"; "api key"; "invalid api key";
    "missing api key"; "forbidden"; "HTTP 401"; "HTTP 403" ]%string.

Definition containsAuthFailureIndicator (errMsg : string) : bool :=
  existsb (contains errMsg) auth_indicators.

Definition rate_indicators : list string :=
  [ "rate limit"; "too many requests"; "429"; "quota exceeded"; "throttled" ]%string.

Definition containsRateLimitIndicator (errMsg : string) : bool :=
  existsb (contains errMsg) rate_indicators.

(** ** Classification *)

Definition StatusUnauthorized : Z := 401.
Definition StatusForbidden : Z := 403.
Definition StatusTooManyRequests : Z := 429.

Definition is_some_err (e : option error) : bool := bool_decide (is_Some e).

Definition ClassifyHealthCheckEvent (providerName : string) (httpStatus : Z)
    (responseTime : Duration) (err : option error) (now : Time) : ScoreEvent :=
  let ty :=
    if httpStatus =? StatusTooManyRequests then EventHealthCheck429
    else if (httpStatus =? StatusUnauthorized) || (httpStatus =? StatusForbidden)
    then EventHealthCheckAuthFail
    else if match err with Some e => errors_is e ContextDeadlineExceeded | None => false end
    then EventHealthCheckTimeout
    else if (400 <=? httpStatus) || is_some_err err then EventHealthCheckFailed
    else EventOperationSuccess in
  {| ev_Type := ty; ev_Provider := providerName; ev_Timestamp := now;
     ev_ResponseTime := responseTime; ev_HTTPStatus := httpStatus; ev_Error := err;
     ev_Metadata := ∅ |}.

Definition ClassifyOperationEvent (providerName : string) (responseTime : Duration)
    (err : option error) (now : Time) : ScoreEvent :=
  let ty :=
    match err with
    | Some e =>
        let errMsg := err_msg e in
        if containsAuthFailureIndicator errMsg then EventOperationAuthFail
        else if containsRateLimitIndicator errMsg then EventRateLimited
        else EventOperationFailed
    | None => EventOperationSuccess
    end in
  {| ev_Type := ty; ev_Provider := providerName; ev_Timestamp := now;
     ev_ResponseTime := responseTime; ev_HTTPStatus := 0; ev_Error := err;
     ev_Metadata := ∅ |}.

(** ** [contains] is the (case-sensitive) substring test *)

Lemma substring_0 a b : String.substring 0 (String.length a) (a +:+ b) = a.
Proof.
  induction a as [|c a IH]; [by destruct b|]. rewrite append_cons. cbn. by rewrite IH.
Qed.

Lemma substring_app a m b :
  String.substring (String.length a) (String.length m) (a +:+ m +:+ b) = m.
Proof.
  induction a as [|c a IH]; [apply (substring_0 m b)|]. rewrite append_cons. cbn. exact IH.
Qed.

Lemma substring_0_prefix n s : exists b, s = (String.substring 0 n s +:+ b)%string.
Proof.
  revert n. induction s as [|c s IH]; intros n.
  - exists EmptyString. by destruct n.
  - destruct n as [|n]; [by exists (String c s)|]. destruct (IH n) as [b Hb]. exists b.
    cbn. rewrite append_cons. by f_equal.
Qed.

(** A substring of the requested length is a factor of the string. *)
Lemma substring_factor i n s m :
  String.substring i n s = m -> String.length m = n -> exists a b, s = (a +:+ m +:+ b)%string.
Proof.
  revert i n m. induction s as [|c s IH]; intros i n m Hs Hl.
  - exists EmptyString, EmptyString. destruct i, n; cbn in Hs; subst m; done.
  - destruct i as [|i].
    + subst m. exists EmptyString. apply substring_0_prefix.
    + destruct (IH i n m Hs Hl) as (a & b & ->). by exists (String c a), b.
Qed.

Lemma length_append a b : String.length (a +:+ b) = (String.length a + String.length b)%nat.
Proof. induction a as [|c a IH]; [done|]. rewrite append_cons. cbn. by rewrite IH. Qed.

Lemma contains_factor s substr :
  contains s substr = true <-> exists a b, s = (a +:+ substr +:+ b)%string.
Proof.
  unfold contains, findSubstring. rewrite andb_true_iff, orb_true_iff, andb_true_iff, existsb_exists.
  rewrite Nat.leb_le, Nat.ltb_lt, bool_decide_eq_true. split.
  - intros [Hl [->|[Hlt (i & _ & Hi%bool_decide_eq_true)]]].
    + exists EmptyString, EmptyString. rewrite append_nil. clear. induction substr as [|c s IH]; [done|].
      by rewrite append_cons, <-IH.
    + by eapply substring_factor.
  - intros (a & b & ->). rewrite !length_append. split; [lia|].
    destruct a as [|c a]; [destruct b as [|d b]|]; cycle 1.
    + right. cbn. split; [lia|]. exists 0%nat. split; [apply in_seq; lia|].
      apply bool_decide_eq_true, (substring_app EmptyString).
    + right. cbn. split; [lia|]. exists (String.length (String c a)). split; [apply in_seq; cbn; lia|].
      apply bool_decide_eq_true, substring_app.
    + left. rewrite append_nil. clear. induction substr as [|c s IH]; [done|].
      by rewrite append_cons, IH.
Qed.

(** The hand-written search agrees with [strings.Contains]. *)
Lemma contains_str_contains s substr : contains s substr = str_contains substr s.
Proof.
  apply eq_true_iff_eq. by rewrite contains_factor, str_contains_spec.
Qed.
