(* ===== verification/Decay.v ===== *)
(** * The decay manager

    [scoring/decay.go]: the background process that periodically reduces the
    penalties.  The score map is shared with the engine (the engine hands its
    own map over), so [applyDecay] works on the engine's scores.

    A ticker is its interval; [time.NewTicker] panics unless the interval is
    positive.  Closing the stop channel twice panics. *)

From Stdlib Require Import Floats.SpecFloat.
From S2P Require Import Prelude GoInt GoFloat Scorer ScoringConfig.

Record DecayManager := {
  dm_config : ScoringConfig;
  dm_ticker : option Duration;
  dm_stopClosed : bool;
  dm_running : bool
}.

Definition NewDecayManager (config : ScoringConfig) : DecayManager :=
  {| dm_config := config; dm_ticker := None; dm_stopClosed := false; dm_running := false |}.

Definition new_ticker (d : Duration) : go Duration := if d <=? 0 then None else Some d.

(** [Start]: the caller's part; the loop itself is [dm_run_step]. *)
Definition dm_Start (dm : DecayManager) : go DecayManager :=
  if dm_running dm then Some dm
  else
    t ← new_ticker (sc_DecayInterval (dm_config dm));
    Some {| dm_config := dm_config dm; dm_ticker := Some t;
            dm_stopClosed := dm_stopClosed dm; dm_running := true |}.

Definition dm_Stop (dm : DecayManager) : go DecayManager :=
  if negb (dm_running dm) then Some dm
  else if dm_stopClosed dm then None
  else Some {| dm_config := dm_config dm; dm_ticker := dm_ticker dm;
               dm_stopClosed := true; dm_running := false |}.

(** [UpdateConfig]: restarts the ticker when the interval changed. *)
Definition dm_UpdateConfig (config : ScoringConfig) (dm : DecayManager) : go DecayManager :=
  let oldInterval := sc_DecayInterval (dm_config dm) in
  if dm_running dm && negb (oldInterval =? sc_DecayInterval config) then
    t ← new_ticker (sc_DecayInterval config);
    Some {| dm_config := config; dm_ticker := Some t;
            dm_stopClosed := dm_stopClosed dm; dm_running := dm_running dm |}
  else Some {| dm_config := config; dm_ticker := dm_ticker dm;
               dm_stopClosed := dm_stopClosed dm; dm_running := dm_running dm |}.

(** [applyDecay] on the shared score map; every score reads the clock once,
    so the reading is per provider. *)
Definition applyDecay (clk : string -> Time) (dm : DecayManager) (scores : gmap string ProviderScore)
    : gmap string ProviderScore :=
  map_imap (fun name ps => Some (ApplyDecay (sc_DecayRate (dm_config dm)) (clk name) ps)) scores.

(** What the [select] of the loop goroutine can take next.  A closed stop
    channel is always ready, and the loop returns when it takes it. *)
Inductive dm_event := DmCtxDone | DmStopped | DmTick (clk : string -> Time).

(** One iteration of [run]: [None] when the event is not ready; the boolean
    tells whether the goroutine goes on. *)
Definition dm_run_step (ev : dm_event) (dm : DecayManager) (scores : gmap string ProviderScore)
    : option (go (bool * DecayManager * gmap string ProviderScore)) :=
  match ev with
  | DmCtxDone => Some (dm' ← dm_Stop dm; Some (false, dm', scores))
  | DmStopped => if dm_stopClosed dm then Some (Some (false, dm, scores)) else None
  | DmTick clk =>
      match dm_ticker dm with
      | Some _ => Some (Some (true, dm, applyDecay clk dm scores))
      | None => None
      end
  end.

(** ** Properties *)

Lemma dm_Start_Stop_once c :
  0 < sc_DecayInterval c ->
  (dm_Start (NewDecayManager c) ≫= dm_Stop)
  = Some {| dm_config := c; dm_ticker := Some (sc_DecayInterval c);
            dm_stopClosed := true; dm_running := false |}.
Proof.
  intros Hi. unfold dm_Start, new_ticker. cbn.
  destruct (sc_DecayInterval c <=? 0) eqn:E; [go_lia|]. done.
Qed.

(** The second [Stop] of a start/stop/start/stop sequence closes a closed
    channel. *)
Lemma dm_restart_panics c :
  (((dm_Start (NewDecayManager c) ≫= dm_Stop) ≫= dm_Start) ≫= dm_Stop) = None.
Proof.
  unfold dm_Start, new_ticker. cbn. destruct (sc_DecayInterval c <=? 0) eqn:E; [done|].
  cbn. rewrite E. done.
Qed.

Lemma applyDecay_lookup clk dm scores name :
  applyDecay clk dm scores !! name
  = ApplyDecay (sc_DecayRate (dm_config dm)) (clk name) <$> scores !! name.
Proof. unfold applyDecay. rewrite map_lookup_imap. by destruct (scores !! name). Qed.

Lemma ApplyDecay_wf m r now ps :
  f64_nn m -> rate_ok r -> score_wf m ps -> score_wf m (ApplyDecay r now ps).
Proof. intros Hm [Hr Hr1] [? ? ? ? ?]. constructor; cbn; auto with golib. Qed.

Lemma applyDecay_wf clk dm scores m :
  f64_nn m -> rate_ok (sc_DecayRate (dm_config dm)) ->
  map_Forall (fun _ => score_wf m) scores -> map_Forall (fun _ => score_wf m) (applyDecay clk dm scores).
Proof.
  intros Hm Hr Hwf name ps. rewrite applyDecay_lookup.
  intros (ps0 & Hps & ->)%fmap_Some. apply ApplyDecay_wf; [done..|]. by eapply Hwf.
Qed.

(** ** Recovery

    Under the default rate every penalty up to the default cap is gone after a
    bounded number of ticks.  [decay_bounds] is a decreasing chain of floats
    from the cap down, each at least 0.9 times its predecessor. *)

Fixpoint iter_decay (n : nat) (r p : f64) : f64 :=
  match n with O => p | S n => iter_decay n r (decay_penalty r p) end.

Lemma decay_penalty_zero r : rate_ok r -> decay_penalty r f64_zero = f64_zero.
Proof.
  intros [Hr Hr1]. destruct (f64_one_minus_nn r Hr Hr1) as [[_ Hf] _]. unfold decay_penalty.
  by destruct (f64_sub f64_one r) as [[]|[]| |[]].
Qed.

Lemma iter_decay_zero n r : rate_ok r -> iter_decay n r f64_zero = f64_zero.
Proof. intros Hr. induction n as [|n IH]; [done|]. cbn. by rewrite decay_penalty_zero. Qed.

(** [mul_below f y z]: the exact product of [f] and [y] is at most [z]. *)
Definition mul_below (f y z : f64) : bool :=
  match f, y, z with
  | S754_finite false mf ef, S754_finite false my ey, S754_finite false mz ez =>
      let k := Z.min (ey + ef) ez in
      f64_valid f && f64_valid y && f64_valid z &&
      (Z.pos (my * mf) * 2 ^ (ey + ef - k) <=? Z.pos mz * 2 ^ (ez - k))
  | _, _, _ => false
  end.

Lemma decay_penalty_below r p y z :
  rate_ok r -> f64_nn p -> f64_le p y -> mul_below (f64_sub f64_one r) y z = true ->
  f64_nn (decay_penalty r p) /\ f64_le (decay_penalty r p) z.
Proof.
  intros [Hr Hr1] Hp Hpy Hb. unfold mul_below in Hb.
  destruct (f64_sub f64_one r) as [?|?| |[] mf ef] eqn:Ef; try done.
  destruct y as [?|?| |[] my ey]; try done. destruct z as [?|?| |[] mz ez]; try done.
  rewrite !andb_true_iff, Z.leb_le in Hb. destruct Hb as [[[Hvf Hvy] Hvz] Hle].
  assert (f64_nn (f64_mul p (f64_sub f64_one r)) /\ f64_le (f64_mul p (f64_sub f64_one r)) (S754_finite false mz ez))
    as [Hnn Hbz].
  { rewrite Ef. destruct Hp as [Hvp Hsp]. destruct p as [?|?| |? mp ep]; try done; subst; [done|].
    apply f64_mul_le_bound; [done..|].
    apply (val_le_trans _ _ (Z.pos (my * mf)) (ey + ef)).
    - apply f64_le_val in Hpy; [|done..]. set (k := Z.min ep ey).
      specialize (Hpy k ltac:(lia) ltac:(lia)).
      apply (val_le_scale _ _ _ _ (k + ef)); [lia..|]. rewrite !Pos2Z.inj_mul.
      replace (ep + ef - (k + ef)) with (ep - k) by lia.
      replace (ey + ef - (k + ef)) with (ey - k) by lia. nia.
    - apply (val_le_scale _ _ _ _ (Z.min (ey + ef) ez)); lia. }
  unfold decay_penalty. cbv zeta. case_match; [|done]. split; [done|].
  by apply f64_nn_zero_le.
Qed.

Lemma last_default {A} (x : A) l d d' : List.last (x :: l) d = List.last (x :: l) d'.
Proof. revert x. induction l as [|y l IH]; intros x; [done|]. apply (IH y). Qed.

Lemma last_shift {A} (x : A) l d : List.last (x :: l) d = List.last l x.
Proof. destruct l as [|y l]; [done|]. apply (last_default y l). Qed.

(** A chain of bounds, each at least the decayed previous one. *)
Fixpoint decay_chain (f y : f64) (n : nat) : list f64 :=
  match n with
  | O => []
  | S n => let z := SFsucc 53 1024 (f64_mul y f) in z :: decay_chain f z n
  end.

Fixpoint chain_ok (f y : f64) (l : list f64) : bool :=
  match l with
  | [] => true
  | z :: l => mul_below f y z && chain_ok f z l
  end.

Lemma iter_decay_chain r l p y :
  rate_ok r -> f64_nn p -> f64_le p y -> chain_ok (f64_sub f64_one r) y l = true ->
  f64_nn (iter_decay (length l) r p) /\ f64_le (iter_decay (length l) r p) (List.last l y).
Proof.
  intros Hr. revert p y. induction l as [|z l IH]; intros p y Hp Hpy; [done|].
  cbn [chain_ok length iter_decay]. rewrite andb_true_iff. intros [Hb Hc].
  destruct (decay_penalty_below r p y z Hr Hp Hpy Hb) as [Hp' Hz].
  destruct (IH _ _ Hp' Hz Hc) as [H1 H2]. split; [done|].
  by rewrite last_shift.
Qed.

Lemma f64_le_ltb_trans x y z : f64_le x y -> f64_ltb y z = true -> f64_ltb x z = true.
Proof.
  intros (Hx & Hy & Hle)%f64_le_key Hlt. apply f64_ltb_notnan in Hlt as Hn.
  apply f64_ltb_key in Hlt; [|apply Hn..]. apply f64_ltb_key; [done|apply Hn|].
  by destruct (key_lt_negtrans _ x _ Hlt).
Qed.

Lemma decay_penalty_small r p :
  rate_ok r -> f64_nn p -> f64_ltb p (f64_const 1 100) = true -> decay_penalty r p = f64_zero.
Proof.
  intros [Hr Hr1] Hp Hlt. destruct (f64_one_minus_nn r Hr Hr1) as [Hf Hf1].
  destruct (f64_mul_nn p _ Hp Hf Hf1) as [Hm Hle]. unfold decay_penalty. cbv zeta.
  by rewrite (f64_le_ltb_trans _ _ _ Hle Hlt).
Qed.

Lemma iter_decay_S n r p : iter_decay (S n) r p = decay_penalty r (iter_decay n r p).
Proof. revert p. induction n as [|n IH]; intros p; [done|]. cbn in *. by rewrite IH. Qed.

Definition default_rate : f64 := sc_DecayRate DefaultScoringConfig.
Definition default_cap : f64 := sc_MaxPenalty DefaultScoringConfig.

Lemma default_decay_clears p :
  f64_nn p -> f64_le p default_cap -> iter_decay 100 default_rate p = f64_zero.
Proof.
  intros Hp Hcap. assert (rate_ok default_rate) as Hr by (split; f64_dec).
  set (l := decay_chain (f64_sub f64_one default_rate) default_cap 99).
  assert (chain_ok (f64_sub f64_one default_rate) default_cap l = true) as Hok by (vm_compute; reflexivity).
  assert (length l = 99%nat) as Hl by (vm_compute; reflexivity).
  assert (f64_ltb (List.last l default_cap) (f64_const 1 100) = true) as Hend by (vm_compute; reflexivity).
  destruct (iter_decay_chain _ _ _ _ Hr Hp Hcap Hok) as [Hnn Hle]. rewrite Hl in *.
  rewrite iter_decay_S. apply decay_penalty_small; [exact Hr|exact Hnn|].
  exact (f64_le_ltb_trans _ _ _ Hle Hend).
Qed.

(** Under the default decay rate (10% per tick, flushed to zero below
    0.01) any penalty up to the default cap of 90 is exactly zero after 100
    ticks: a provider always recovers. *)
Theorem decay_clears_penalty p :
  f64_nn p -> f64_le p default_cap -> iter_decay 100 default_rate p = f64_zero.
Proof. intros Hp Hc. by apply default_decay_clears. Qed.

Lemma decay_clears_penalty_witness : iter_decay 100 default_rate default_cap = f64_zero.
Proof. apply (decay_clears_penalty default_cap); f64_dec. Defined.
