(* ===== verification/Store.v ===== *)
(** * Score stores

    [scoring/store/store.go], [memory.go], [penalty_store.go] and the recorder
    interface of [scoring/metrics/metrics.go].  [ScoreStore] is the Go
    interface; [ScoreStoreLaws] is what its documentation promises of a durable
    store, [ScoreCacheLaws] what is enough of a cache, whose entries may vanish.
    [MemoryStore] satisfies both. *)

From S2P Require Import Prelude GoInt GoFloat GoString.

(** ** Data *)

Record ProviderScoreData := {
  psd_Name : string;
  psd_BaseScore : f64;
  psd_HealthPenalty : f64;
  psd_LatencyPenalty : f64;
  psd_ErrorPenalty : f64;
  psd_RateLimitPenalty : f64;
  psd_TotalOperations : Z;
  psd_SuccessfulOps : Z;
  psd_FailedOps : Z;
  psd_LastUpdated : Time;
  psd_LastHealthCheck : Time;
  psd_LastOperation : Time;
  psd_RecentLatencies : list Z
}.

Record LatencyStatsData := {
  lsd_ProviderSamples : gmap string (list Z);
  lsd_LastUpdated : Time
}.

Record PenaltyRecordData := {
  prd_ProviderName : string;
  prd_Category : string;
  prd_Reason : string;
  prd_Amount : f64;
  prd_CreatedAt : Time;
  prd_Metadata : option (gmap string string)
}.

(** The calls of a [metrics.Recorder], as a log. *)
Inductive metric :=
  | RecordScoreChange (provider scoreType : string) (oldValue newValue : f64)
  | RecordEffectiveScore (provider : string) (score : f64)
  | RecordEventMetric (provider eventType : string) (success : bool)
  | RecordLatencyMetric (provider operation : string) (d : Duration)
  | RecordStoreOperation (store operation : string) (d : Duration) (err : option error)
  | RecordCacheHit (store : string) (hit : bool)
  | RecordProviderRank (provider : string) (rank totalProviders : Z).

(** ** Interfaces *)

(** A pointer argument is an [option]; the outer [option] is a panic. *)
Class ScoreStore (S : Type) := {
  GetScore : clock -> string -> S -> go (result (option ProviderScoreData) * S);
  SetScore : clock -> option ProviderScoreData -> S -> go (result unit * S);
  GetAllScores : clock -> S -> go (result (list (option ProviderScoreData)) * S);
  DeleteScore : clock -> string -> S -> go (result unit * S);
  SetScores : clock -> list (option ProviderScoreData) -> S -> go (result unit * S);
  store_GetLatencyStats : clock -> S -> go (result (option LatencyStatsData) * S);
  store_SetLatencyStats : clock -> option LatencyStatsData -> S -> go (result unit * S);
  store_Close : S -> go (result unit * S);
  store_Ping : S -> go (result unit * S);
  store_Name : S -> string;
  (** the type switch on [*HybridStore] that wires a recorder in *)
  store_SetRecorder : S -> S
}.

Class PenaltyHistoryStore (P : Type) := {
  pen_Append : PenaltyRecordData -> P -> result unit * P;
  pen_GetRecent : string -> Z -> P -> result (list PenaltyRecordData) * P;
  pen_PurgeOld : Duration -> P -> result unit * P;
  pen_Ping : P -> result unit * P;
  pen_Close : P -> result unit * P;
  pen_Name : P -> string
}.

(** ** Contracts *)

Abbreviation score_map := (gmap string ProviderScoreData).

(** A batch of pointers to named scores. *)
Definition valid_batch (ds : list (option ProviderScoreData)) : Prop :=
  Forall (fun o => exists d, o = Some d /\ psd_Name d <> ""%string) ds.

Definition set_one (m : score_map) (o : option ProviderScoreData) : score_map :=
  match o with Some d => <[psd_Name d := d]> m | None => m end.

Definition names_ok (m : score_map) : Prop :=
  map_Forall (fun k d => psd_Name d = k /\ k <> ""%string) m.

Definition batch_of (P : ProviderScoreData -> Prop) (ds : list (option ProviderScoreData)) : Prop :=
  Forall (fun o => match o with Some d => P d | None => True end) ds.

(** [l] holds the scores of [m] and no others, some of them more than once
    perhaps. *)
Definition all_scores_of (l : list (option ProviderScoreData)) (m : score_map) : Prop :=
  forall o, o ∈ l <-> o ∈ Some <$> (map_to_list m).*2.

(** A durable store is a map: a call that returns no error had its effect.  A
    call that returns an error may have had it all the same (the reply was
    lost), and a batch that failed may have written some of its scores.
    [st_storable] and [st_lat_storable] are the data that the store keeps
    exactly as given. *)
Class ScoreStoreLaws (S : Type) `{ScoreStore S} := {
  st_inv : S -> Prop;
  st_view : S -> score_map;
  st_lat : S -> option LatencyStatsData;
  st_storable : ProviderScoreData -> Prop;
  st_lat_storable : LatencyStatsData -> Prop;
  st_names : forall s, st_inv s -> names_ok (st_view s);
  GetScore_law : forall clk n s, st_inv s ->
    let same s' := st_inv s' /\ st_view s' = st_view s /\ st_lat s' = st_lat s in
    outcome (GetScore clk n s) (fun r s' => r = st_view s !! n /\ same s') same;
  SetScore_law : forall clk d s, st_inv s -> psd_Name d <> ""%string -> st_storable d ->
    outcome (SetScore clk (Some d) s)
      (fun _ s' => st_inv s' /\ st_view s' = <[psd_Name d := d]> (st_view s) /\ st_lat s' = st_lat s)
      (fun s' => st_inv s' /\ (st_view s' = st_view s \/ st_view s' = <[psd_Name d := d]> (st_view s))
                 /\ st_lat s' = st_lat s);
  SetScores_law : forall clk ds s, st_inv s -> valid_batch ds -> batch_of st_storable ds ->
    outcome (SetScores clk ds s)
      (fun _ s' => st_inv s' /\ st_view s' = foldl set_one (st_view s) ds /\ st_lat s' = st_lat s)
      (fun s' => st_inv s' /\ (exists ds', ds' `sublist_of` ds /\ st_view s' = foldl set_one (st_view s) ds')
                 /\ st_lat s' = st_lat s);
  GetAllScores_law : forall clk s, st_inv s ->
    let same s' := st_inv s' /\ st_view s' = st_view s /\ st_lat s' = st_lat s in
    outcome (GetAllScores clk s) (fun r s' => all_scores_of r (st_view s) /\ same s') same;
  DeleteScore_law : forall clk n s, st_inv s ->
    outcome (DeleteScore clk n s)
      (fun _ s' => st_inv s' /\ st_view s' = delete n (st_view s) /\ st_lat s' = st_lat s)
      (fun s' => st_inv s' /\ (st_view s' = st_view s \/ st_view s' = delete n (st_view s))
                 /\ st_lat s' = st_lat s);
  GetLatencyStats_law : forall clk s, st_inv s ->
    let same s' := st_inv s' /\ st_view s' = st_view s /\ st_lat s' = st_lat s in
    outcome (store_GetLatencyStats clk s) (fun r s' => r = st_lat s /\ same s') same;
  SetLatencyStats_law : forall clk d s, st_inv s -> st_lat_storable d ->
    outcome (store_SetLatencyStats clk (Some d) s)
      (fun _ s' => st_inv s' /\ st_view s' = st_view s /\ st_lat s' = Some d)
      (fun s' => st_inv s' /\ st_view s' = st_view s /\ (st_lat s' = st_lat s \/ st_lat s' = Some d))
}.
Arguments st_storable S {_ _} _.
Arguments st_lat_storable S {_ _} _.

(** A store whose failed calls had no effect. *)
Class FailedCallsIdle (S : Type) `{ScoreStoreLaws S} := {
  SetScore_idle : forall clk d s, st_inv s -> psd_Name d <> ""%string -> st_storable S d ->
    outcome (SetScore clk (Some d) s) (fun _ _ => True) (fun s' => st_view s' = st_view s);
  SetScores_idle : forall clk ds s, st_inv s -> valid_batch ds -> batch_of (st_storable S) ds ->
    outcome (SetScores clk ds s) (fun _ _ => True) (fun s' => st_view s' = st_view s);
  DeleteScore_idle : forall clk n s, st_inv s ->
    outcome (DeleteScore clk n s) (fun _ _ => True) (fun s' => st_view s' = st_view s);
  SetLatencyStats_idle : forall clk d s, st_inv s -> st_lat_storable S d ->
    outcome (store_SetLatencyStats clk (Some d) s) (fun _ _ => True) (fun s' => st_lat s' = st_lat s)
}.

(** A cache may lose entries at any time and may fail to read or to delete;
    what it does return was written, and its writes succeed. *)
Class ScoreCacheLaws (C : Type) `{ScoreStore C} := {
  ca_inv : C -> Prop;
  ca_view : C -> score_map;
  ca_storable : ProviderScoreData -> Prop;
  ca_GetScore : forall clk n c, ca_inv c ->
    let less c' := ca_inv c' /\ ca_view c' ⊆ ca_view c in
    outcome (GetScore clk n c)
      (fun r c' => (forall d, r = Some d -> ca_view c !! n = Some d) /\ less c') less;
  ca_SetScore : forall clk d c, ca_inv c -> psd_Name d <> ""%string -> ca_storable d ->
    outcome (SetScore clk (Some d) c)
      (fun _ c' => ca_inv c' /\ ca_view c' ⊆ <[psd_Name d := d]> (ca_view c)) (fun _ => False);
  ca_SetScores : forall clk ds c, ca_inv c -> valid_batch ds -> batch_of ca_storable ds ->
    outcome (SetScores clk ds c)
      (fun _ c' => ca_inv c' /\ ca_view c' ⊆ foldl set_one (ca_view c) ds) (fun _ => False);
  ca_DeleteScore : forall clk n c, ca_inv c ->
    let less c' := ca_inv c' /\ ca_view c' ⊆ ca_view c in
    outcome (DeleteScore clk n c) (fun _ => less) less
}.
Arguments ca_storable C {_ _} _.

(** ** The in-memory store *)

Record MemoryStore := {
  ms_scores : score_map;
  ms_latency : option LatencyStatsData
}.

Definition NewMemoryStore : MemoryStore := {| ms_scores := ∅; ms_latency := None |}.

Definition copyScoreData (src : option ProviderScoreData) : option ProviderScoreData :=
  match src with
  | None => None
  | Some src => Some {|
      psd_Name := psd_Name src;
      psd_BaseScore := psd_BaseScore src;
      psd_HealthPenalty := psd_HealthPenalty src;
      psd_LatencyPenalty := psd_LatencyPenalty src;
      psd_ErrorPenalty := psd_ErrorPenalty src;
      psd_RateLimitPenalty := psd_RateLimitPenalty src;
      psd_TotalOperations := psd_TotalOperations src;
      psd_SuccessfulOps := psd_SuccessfulOps src;
      psd_FailedOps := psd_FailedOps src;
      psd_LastUpdated := psd_LastUpdated src;
      psd_LastHealthCheck := psd_LastHealthCheck src;
      psd_LastOperation := psd_LastOperation src;
      psd_RecentLatencies := psd_RecentLatencies src |}
  end.

Definition copyLatencyData (src : option LatencyStatsData) : option LatencyStatsData :=
  match src with
  | None => None
  | Some src => Some {| lsd_ProviderSamples := lsd_ProviderSamples src;
                        lsd_LastUpdated := lsd_LastUpdated src |}
  end.

(** The stored value of a pointer that was checked not to be nil. *)
Definition mem_store (m : score_map) (d : ProviderScoreData) : score_map :=
  match copyScoreData (Some d) with Some c => <[psd_Name d := c]> m | None => m end.

Definition mem_GetScore (name : string) (m : MemoryStore) : result (option ProviderScoreData) :=
  match ms_scores m !! name with
  | Some data => Ok (copyScoreData (Some data))
  | None => Ok None
  end.

Definition mem_SetScore (data : option ProviderScoreData) (m : MemoryStore) : MemoryStore :=
  match data with
  | None => m
  | Some d => if bool_decide (psd_Name d = ""%string) then m
              else {| ms_scores := mem_store (ms_scores m) d; ms_latency := ms_latency m |}
  end.

Definition mem_SetScores (data : list (option ProviderScoreData)) (m : MemoryStore) : MemoryStore :=
  foldl (fun m d => mem_SetScore d m) m data.

Definition mem_DeleteScore (name : string) (m : MemoryStore) : MemoryStore :=
  {| ms_scores := delete name (ms_scores m); ms_latency := ms_latency m |}.

Definition mem_SetLatencyStats (data : option LatencyStatsData) (m : MemoryStore) : MemoryStore :=
  match data with
  | None => m
  | Some _ => {| ms_scores := ms_scores m; ms_latency := copyLatencyData data |}
  end.

Section memory.
Context `{MapRange}.

Definition mem_GetAllScores (m : MemoryStore) : list (option ProviderScoreData) :=
  (fun '(_, d) => copyScoreData (Some d)) <$> range_kv (ms_scores m).

#[export] Instance MemoryStore_store : ScoreStore MemoryStore := {|
  GetScore clk n m := Some (mem_GetScore n m, m);
  SetScore clk d m := Some (Ok tt, mem_SetScore d m);
  GetAllScores clk m := Some (Ok (mem_GetAllScores m), m);
  DeleteScore clk n m := Some (Ok tt, mem_DeleteScore n m);
  SetScores clk ds m := Some (Ok tt, mem_SetScores ds m);
  store_GetLatencyStats clk m := Some (Ok (copyLatencyData (ms_latency m)), m);
  store_SetLatencyStats clk d m := Some (Ok tt, mem_SetLatencyStats d m);
  store_Close m := Some (Ok tt, m);
  store_Ping m := Some (Ok tt, m);
  store_Name m := "memory"%string;
  store_SetRecorder m := m
|}.

Lemma copyScoreData_id d : copyScoreData d = d.
Proof. by destruct d as [[]|]. Qed.

Lemma copyLatencyData_id d : copyLatencyData d = d.
Proof. by destruct d as [[]|]. Qed.

Lemma mem_SetScore_eq d m :
  psd_Name d <> ""%string ->
  mem_SetScore (Some d) m
  = {| ms_scores := <[psd_Name d := d]> (ms_scores m); ms_latency := ms_latency m |}.
Proof. intros Hn. cbn. rewrite bool_decide_eq_false_2 by done. unfold mem_store. by destruct d. Qed.

Lemma mem_SetScores_eq ds m :
  valid_batch ds ->
  mem_SetScores ds m = {| ms_scores := foldl set_one (ms_scores m) ds; ms_latency := ms_latency m |}.
Proof.
  revert m. induction ds as [|o ds IH]; intros m Hv; [by destruct m|].
  apply Forall_cons in Hv as [(d & -> & Hn) Hv].
  change (mem_SetScores (Some d :: ds) m) with (mem_SetScores ds (mem_SetScore (Some d) m)).
  by rewrite mem_SetScore_eq, IH.
Qed.

Lemma names_ok_insert m d : names_ok m -> psd_Name d <> ""%string -> names_ok (<[psd_Name d := d]> m).
Proof. intros Hm Hd. by apply map_Forall_insert_2. Qed.

Lemma names_ok_batch ds m : names_ok m -> valid_batch ds -> names_ok (foldl set_one m ds).
Proof.
  intros Hm Hv. revert m Hm. induction Hv as [|o ds (d & -> & Hn) Hv IH]; intros m Hm; [done|].
  apply IH. by apply names_ok_insert.
Qed.

Lemma mem_GetScore_eq n m : mem_GetScore n m = Ok (ms_scores m !! n).
Proof. unfold mem_GetScore. destruct (ms_scores m !! n); [by rewrite copyScoreData_id|done]. Qed.

Lemma mem_GetAllScores_perm m : mem_GetAllScores m ≡ₚ Some <$> (map_to_list (ms_scores m)).*2.
Proof.
  unfold mem_GetAllScores. rewrite range_kv_perm, <-list_fmap_compose.
  erewrite list_fmap_ext; [done|]. intros _ [k d] _. by rewrite copyScoreData_id.
Qed.

#[export] Program Instance MemoryStore_laws : ScoreStoreLaws MemoryStore := {|
  st_inv m := names_ok (ms_scores m);
  st_view := ms_scores;
  st_lat := ms_latency;
  st_storable d := True;
  st_lat_storable d := True
|}.
Next Obligation. done. Qed.
Next Obligation. intros clk n s Hs. cbn. by rewrite mem_GetScore_eq. Qed.
Next Obligation.
  intros clk d s Hs Hd _. unfold SetScore, MemoryStore_store, outcome. rewrite mem_SetScore_eq by done.
  split_and!; [by apply names_ok_insert|done..].
Qed.
Next Obligation.
  intros clk ds s Hs Hd _. cbn. rewrite mem_SetScores_eq by done.
  split_and!; [by apply names_ok_batch|done..].
Qed.
Next Obligation. intros clk s Hs. cbn. split; [|done]. intros o. by rewrite mem_GetAllScores_perm. Qed.
Next Obligation. intros clk n s Hs. cbn. split_and!; [by apply map_Forall_delete|done..]. Qed.
Next Obligation. intros clk s Hs. cbn. by rewrite copyLatencyData_id. Qed.
Next Obligation. intros clk d s Hs _. cbn. by destruct d. Qed.

#[export] Instance MemoryStore_idle : FailedCallsIdle MemoryStore.
Proof. done. Qed.

#[export] Program Instance MemoryStore_cache : ScoreCacheLaws MemoryStore := {|
  ca_inv m := True;
  ca_view := ms_scores;
  ca_storable d := True
|}.
Next Obligation. intros clk n s _. cbn. rewrite mem_GetScore_eq. cbn. by eauto. Qed.
Next Obligation.
  intros clk d s _ Hd _. unfold SetScore, MemoryStore_store, outcome. by rewrite mem_SetScore_eq.
Qed.
Next Obligation. intros clk ds s _ Hd _. cbn. by rewrite mem_SetScores_eq. Qed.
Next Obligation. intros clk n s _. cbn. split; [done|]. apply delete_subseteq. Qed.
End memory.
