(* ===== verification/StoreJson.v ===== *)
(** * Score data as JSON

    The text the Redis and PostgreSQL stores keep: [ProviderScoreData],
    [LatencyStatsData] and [PenaltyRecordData] of [scoring/store/store.go] and
    [penalty_store.go] by their JSON tags.  Marshalling and unmarshalling give
    back the same data, for names in ASCII, finite scores and times JSON can
    write ([score_roundtrip]). *)

From Stdlib Require Import Ascii SpecFloat.
From S2P Require Import Prelude GoInt GoFloat GoString GoCodec GoNum GoJson GoDecode GoHttp GoTime GoFloatText Store.

(** ** Writing *)

Definition json_int (z : Z) : json := JNumber (format_int z).
Definition json_float (x : f64) : json := JNumber (format_float x).

(** A map is written in the order of its keys. *)
Definition sorted_members {A} (m : gmap string A) : list (string * A) :=
  merge_sort (fun a b => String.le a.1 b.1) (map_to_list m).

Definition json_map {A} (f : A -> json) (m : gmap string A) : json :=
  JObject ((fun '(k, a) => (k, f a)) <$> sorted_members m).

Section times.
Context `{Zone}.

Definition json_time (t : Time) : json := JString (rfc3339 (zone_minutes t) t).

Definition time_writable (t : Time) : bool := json_time_ok (t + zone_minutes t * Minute).

(** [json:"recent_latencies,omitempty"]: left out when empty.  A struct is never
    empty, so [omitempty] has no effect on a time. *)
Definition score_json (d : ProviderScoreData) : json := JObject ([
    ("name"%string, JString (psd_Name d));
    ("base_score"%string, json_float (psd_BaseScore d));
    ("health_penalty"%string, json_float (psd_HealthPenalty d));
    ("latency_penalty"%string, json_float (psd_LatencyPenalty d));
    ("error_penalty"%string, json_float (psd_ErrorPenalty d));
    ("rate_limit_penalty"%string, json_float (psd_RateLimitPenalty d));
    ("total_operations"%string, json_int (psd_TotalOperations d));
    ("successful_ops"%string, json_int (psd_SuccessfulOps d));
    ("failed_ops"%string, json_int (psd_FailedOps d));
    ("last_updated"%string, json_time (psd_LastUpdated d));
    ("last_health_check"%string, json_time (psd_LastHealthCheck d));
    ("last_operation"%string, json_time (psd_LastOperation d))] ++
  match psd_RecentLatencies d with [] => [] | l => [("recent_latencies"%string, JArray (map json_int l))] end).

Definition score_floats (d : ProviderScoreData) : list f64 :=
  [psd_BaseScore d; psd_HealthPenalty d; psd_LatencyPenalty d; psd_ErrorPenalty d; psd_RateLimitPenalty d].

Definition score_times (d : ProviderScoreData) : list Time := [psd_LastUpdated d; psd_LastHealthCheck d; psd_LastOperation d].

(** [json.Marshal(data)]; the floats come before the times. *)
Definition marshal_score (d : ProviderScoreData) : result string :=
  if negb (forallb json_float_ok (score_floats d)) then Err json_float_error
  else if negb (forallb time_writable (score_times d)) then Err json_time_error
  else Ok (print_json (score_json d)).

Definition latency_json (d : LatencyStatsData) : json := JObject [
    ("provider_samples"%string, json_map (fun l => JArray (map json_int l)) (lsd_ProviderSamples d));
    ("last_updated"%string, json_time (lsd_LastUpdated d))].

Definition marshal_latency (d : LatencyStatsData) : result string :=
  if negb (time_writable (lsd_LastUpdated d)) then Err json_time_error else Ok (print_json (latency_json d)).

(** [json:"metadata,omitempty"]: a nil map and an empty one are left out. *)
Definition penalty_json (r : PenaltyRecordData) : json := JObject ([
    ("provider_name"%string, JString (prd_ProviderName r));
    ("category"%string, JString (prd_Category r));
    ("reason"%string, JString (prd_Reason r));
    ("amount"%string, json_float (prd_Amount r));
    ("created_at"%string, json_time (prd_CreatedAt r))] ++
  match prd_Metadata r with
  | Some m => if bool_decide (m = ∅) then [] else [("metadata"%string, json_map JString m)]
  | None => []
  end).

Definition marshal_penalty (r : PenaltyRecordData) : result string :=
  if negb (json_float_ok (prd_Amount r)) then Err json_float_error
  else if negb (time_writable (prd_CreatedAt r)) then Err json_time_error
  else Ok (print_json (penalty_json r)).
End times.

(** ** Reading *)

(** [Time.UnmarshalJSON]. *)
Definition dec_time : decoder Time := fun j old =>
  match j with JNull => Some old | JString s => parse_rfc3339 s | _ => None end.

(** Field assignments. *)
Definition set_psd_Name (v : string) (d : ProviderScoreData) : ProviderScoreData :=
  Build_ProviderScoreData v (psd_BaseScore d) (psd_HealthPenalty d) (psd_LatencyPenalty d)
  (psd_ErrorPenalty d) (psd_RateLimitPenalty d) (psd_TotalOperations d) (psd_SuccessfulOps d)
  (psd_FailedOps d) (psd_LastUpdated d) (psd_LastHealthCheck d) (psd_LastOperation d) (psd_RecentLatencies d).
Definition set_psd_BaseScore (v : f64) (d : ProviderScoreData) : ProviderScoreData :=
  Build_ProviderScoreData (psd_Name d) v (psd_HealthPenalty d) (psd_LatencyPenalty d) (psd_ErrorPenalty d)
  (psd_RateLimitPenalty d) (psd_TotalOperations d) (psd_SuccessfulOps d) (psd_FailedOps d)
  (psd_LastUpdated d) (psd_LastHealthCheck d) (psd_LastOperation d) (psd_RecentLatencies d).
Definition set_psd_HealthPenalty (v : f64) (d : ProviderScoreData) : ProviderScoreData :=
  Build_ProviderScoreData (psd_Name d) (psd_BaseScore d) v (psd_LatencyPenalty d) (psd_ErrorPenalty d)
  (psd_RateLimitPenalty d) (psd_TotalOperations d) (psd_SuccessfulOps d) (psd_FailedOps d)
  (psd_LastUpdated d) (psd_LastHealthCheck d) (psd_LastOperation d) (psd_RecentLatencies d).
Definition set_psd_LatencyPenalty (v : f64) (d : ProviderScoreData) : ProviderScoreData :=
  Build_ProviderScoreData (psd_Name d) (psd_BaseScore d) (psd_HealthPenalty d) v (psd_ErrorPenalty d)
  (psd_RateLimitPenalty d) (psd_TotalOperations d) (psd_SuccessfulOps d) (psd_FailedOps d)
  (psd_LastUpdated d) (psd_LastHealthCheck d) (psd_LastOperation d) (psd_RecentLatencies d).
Definition set_psd_ErrorPenalty (v : f64) (d : ProviderScoreData) : ProviderScoreData :=
  Build_ProviderScoreData (psd_Name d) (psd_BaseScore d) (psd_HealthPenalty d) (psd_LatencyPenalty d) v
  (psd_RateLimitPenalty d) (psd_TotalOperations d) (psd_SuccessfulOps d) (psd_FailedOps d)
  (psd_LastUpdated d) (psd_LastHealthCheck d) (psd_LastOperation d) (psd_RecentLatencies d).
Definition set_psd_RateLimitPenalty (v : f64) (d : ProviderScoreData) : ProviderScoreData :=
  Build_ProviderScoreData (psd_Name d) (psd_BaseScore d) (psd_HealthPenalty d) (psd_LatencyPenalty d)
  (psd_ErrorPenalty d) v (psd_TotalOperations d) (psd_SuccessfulOps d) (psd_FailedOps d) (psd_LastUpdated d)
  (psd_LastHealthCheck d) (psd_LastOperation d) (psd_RecentLatencies d).
Definition set_psd_TotalOperations (v : Z) (d : ProviderScoreData) : ProviderScoreData :=
  Build_ProviderScoreData (psd_Name d) (psd_BaseScore d) (psd_HealthPenalty d) (psd_LatencyPenalty d)
  (psd_ErrorPenalty d) (psd_RateLimitPenalty d) v (psd_SuccessfulOps d) (psd_FailedOps d) (psd_LastUpdated d)
  (psd_LastHealthCheck d) (psd_LastOperation d) (psd_RecentLatencies d).
Definition set_psd_SuccessfulOps (v : Z) (d : ProviderScoreData) : ProviderScoreData :=
  Build_ProviderScoreData (psd_Name d) (psd_BaseScore d) (psd_HealthPenalty d) (psd_LatencyPenalty d)
  (psd_ErrorPenalty d) (psd_RateLimitPenalty d) (psd_TotalOperations d) v (psd_FailedOps d)
  (psd_LastUpdated d) (psd_LastHealthCheck d) (psd_LastOperation d) (psd_RecentLatencies d).
Definition set_psd_FailedOps (v : Z) (d : ProviderScoreData) : ProviderScoreData :=
  Build_ProviderScoreData (psd_Name d) (psd_BaseScore d) (psd_HealthPenalty d) (psd_LatencyPenalty d)
  (psd_ErrorPenalty d) (psd_RateLimitPenalty d) (psd_TotalOperations d) (psd_SuccessfulOps d) v
  (psd_LastUpdated d) (psd_LastHealthCheck d) (psd_LastOperation d) (psd_RecentLatencies d).
Definition set_psd_LastUpdated (v : Time) (d : ProviderScoreData) : ProviderScoreData :=
  Build_ProviderScoreData (psd_Name d) (psd_BaseScore d) (psd_HealthPenalty d) (psd_LatencyPenalty d)
  (psd_ErrorPenalty d) (psd_RateLimitPenalty d) (psd_TotalOperations d) (psd_SuccessfulOps d)
  (psd_FailedOps d) v (psd_LastHealthCheck d) (psd_LastOperation d) (psd_RecentLatencies d).
Definition set_psd_LastHealthCheck (v : Time) (d : ProviderScoreData) : ProviderScoreData :=
  Build_ProviderScoreData (psd_Name d) (psd_BaseScore d) (psd_HealthPenalty d) (psd_LatencyPenalty d)
  (psd_ErrorPenalty d) (psd_RateLimitPenalty d) (psd_TotalOperations d) (psd_SuccessfulOps d)
  (psd_FailedOps d) (psd_LastUpdated d) v (psd_LastOperation d) (psd_RecentLatencies d).
Definition set_psd_LastOperation (v : Time) (d : ProviderScoreData) : ProviderScoreData :=
  Build_ProviderScoreData (psd_Name d) (psd_BaseScore d) (psd_HealthPenalty d) (psd_LatencyPenalty d)
  (psd_ErrorPenalty d) (psd_RateLimitPenalty d) (psd_TotalOperations d) (psd_SuccessfulOps d)
  (psd_FailedOps d) (psd_LastUpdated d) (psd_LastHealthCheck d) v (psd_RecentLatencies d).
Definition set_psd_RecentLatencies (v : list Z) (d : ProviderScoreData) : ProviderScoreData :=
  Build_ProviderScoreData (psd_Name d) (psd_BaseScore d) (psd_HealthPenalty d) (psd_LatencyPenalty d)
  (psd_ErrorPenalty d) (psd_RateLimitPenalty d) (psd_TotalOperations d) (psd_SuccessfulOps d)
  (psd_FailedOps d) (psd_LastUpdated d) (psd_LastHealthCheck d) (psd_LastOperation d) v.

Definition zero_score : ProviderScoreData :=
  Build_ProviderScoreData "" f64_zero f64_zero f64_zero f64_zero f64_zero 0 0 0 zero_time zero_time zero_time [].

Definition score_fields : list (string * decoder ProviderScoreData) := [
  ("name"%string, field psd_Name set_psd_Name dec_string);
  ("base_score"%string, field psd_BaseScore set_psd_BaseScore dec_float);
  ("health_penalty"%string, field psd_HealthPenalty set_psd_HealthPenalty dec_float);
  ("latency_penalty"%string, field psd_LatencyPenalty set_psd_LatencyPenalty dec_float);
  ("error_penalty"%string, field psd_ErrorPenalty set_psd_ErrorPenalty dec_float);
  ("rate_limit_penalty"%string, field psd_RateLimitPenalty set_psd_RateLimitPenalty dec_float);
  ("total_operations"%string, field psd_TotalOperations set_psd_TotalOperations (dec_int 64));
  ("successful_ops"%string, field psd_SuccessfulOps set_psd_SuccessfulOps (dec_int 64));
  ("failed_ops"%string, field psd_FailedOps set_psd_FailedOps (dec_int 64));
  ("last_updated"%string, field psd_LastUpdated set_psd_LastUpdated dec_time);
  ("last_health_check"%string, field psd_LastHealthCheck set_psd_LastHealthCheck dec_time);
  ("last_operation"%string, field psd_LastOperation set_psd_LastOperation dec_time);
  ("recent_latencies"%string, field psd_RecentLatencies set_psd_RecentLatencies (dec_slice 0 (dec_int 64)))].

Definition zero_latency : LatencyStatsData := {| lsd_ProviderSamples := ∅; lsd_LastUpdated := zero_time |}.

Definition latency_fields : list (string * decoder LatencyStatsData) := [
  ("provider_samples"%string,
    field lsd_ProviderSamples (fun v d => {| lsd_ProviderSamples := v; lsd_LastUpdated := lsd_LastUpdated d |})
      (dec_map [] (dec_slice 0 (dec_int 64))));
  ("last_updated"%string,
    field lsd_LastUpdated (fun v d => {| lsd_ProviderSamples := lsd_ProviderSamples d; lsd_LastUpdated := v |}) dec_time)].

Definition zero_penalty : PenaltyRecordData := Build_PenaltyRecordData "" "" "" f64_zero zero_time None.

Definition penalty_fields : list (string * decoder PenaltyRecordData) :=
  let mk := Build_PenaltyRecordData in [
  ("provider_name"%string, field prd_ProviderName (fun v r =>
    mk v (prd_Category r) (prd_Reason r) (prd_Amount r) (prd_CreatedAt r) (prd_Metadata r)) dec_string);
  ("category"%string, field prd_Category (fun v r =>
    mk (prd_ProviderName r) v (prd_Reason r) (prd_Amount r) (prd_CreatedAt r) (prd_Metadata r)) dec_string);
  ("reason"%string, field prd_Reason (fun v r =>
    mk (prd_ProviderName r) (prd_Category r) v (prd_Amount r) (prd_CreatedAt r) (prd_Metadata r)) dec_string);
  ("amount"%string, field prd_Amount (fun v r =>
    mk (prd_ProviderName r) (prd_Category r) (prd_Reason r) v (prd_CreatedAt r) (prd_Metadata r)) dec_float);
  ("created_at"%string, field prd_CreatedAt (fun v r =>
    mk (prd_ProviderName r) (prd_Category r) (prd_Reason r) (prd_Amount r) v (prd_Metadata r)) dec_time);
  ("metadata"%string, field prd_Metadata (fun v r =>
    mk (prd_ProviderName r) (prd_Category r) (prd_Reason r) (prd_Amount r) (prd_CreatedAt r) v)
    (dec_ptr ∅ (dec_map ""%string dec_string)))].

Section unmarshal.
Context `{JsonErrors}.

Definition unmarshal_score (text : string) : result ProviderScoreData := Unmarshal (dec_struct score_fields) zero_score text.
Definition unmarshal_latency (text : string) : result LatencyStatsData := Unmarshal (dec_struct latency_fields) zero_latency text.
Definition unmarshal_penalty (text : string) : result PenaltyRecordData := Unmarshal (dec_struct penalty_fields) zero_penalty text.
End unmarshal.

(** ** What can be written and read back *)

Definition float_ok (x : f64) : Prop := f64_valid x = true /\ json_float_ok x = true.

Lemma json_int_back z old : int64_range z -> dec_int 64 (json_int z) old = Some z.
Proof.
  intros Hz. cbn. unfold parse_int. rewrite parse_format_int by done. cbn [mbind option_bind].
  change (2 ^ (64 - 1)) with (2 ^ 63). unfold int64_range, min_int64, max_int64 in Hz.
  by rewrite (proj2 (Z.leb_le _ _)), (proj2 (Z.ltb_lt _ _)) by lia.
Qed.

Lemma float_ok_text x : float_ok x ->
  parse_float (format_float x) = FloatOk x /\ scan_number (format_float x) = Some (format_float x, EmptyString).
Proof. intros [Hv Hj]. by apply parse_format_float; [done|destruct x|destruct x]. Qed.

Lemma json_float_back x old : float_ok x -> dec_float (json_float x) old = Some x.
Proof. intros Hx. cbn. by destruct (float_ok_text x Hx) as [-> _]. Qed.

Lemma json_time_back `{Zone} t old : time_writable t = true -> dec_time (json_time t) old = Some t.
Proof. intros Ht. cbn. apply rfc3339_roundtrip; [apply zone_range|done]. Qed.

Lemma json_ints_back l : Forall int64_range l -> dec_slice 0 (dec_int 64) (JArray (map json_int l)) [] = Some l.
Proof.
  cbn [dec_slice]. induction 1 as [|z l Hz Hl IH]; [done|]. cbn [map dec_elements hd tl].
  rewrite json_int_back by done. cbn [mbind option_bind]. by rewrite IH.
Qed.

Lemma sorted_members_perm {A} (m : gmap string A) : sorted_members m ≡ₚ map_to_list m.
Proof. apply merge_sort_Permutation. Qed.

(** The members of a map come back in any order. *)
Lemma dec_members_back {A} (f : A -> json) zero (d : decoder A) (m : gmap string A) l :
  map_Forall (fun _ a => d (f a) zero = Some a) m -> l ≡ₚ map_to_list m ->
  dec_map zero d (JObject ((fun '(k, a) => (k, f a)) <$> l)) ∅ = Some m.
Proof.
  intros Hm Hp. cbn [dec_map].
  assert (forall l m0, Forall (fun kv => d (f kv.2) zero = Some kv.2) l ->
    foldl (fun (m : option (gmap string A)) kv => m ← m; a ← d kv.2 zero; Some (<[kv.1 := a]> m)) (Some m0) ((fun '(k, a) => (k, f a)) <$> l)
    = Some (foldl (fun (m : gmap string A) kv => <[kv.1 := kv.2]> m) m0 l)) as Hgo.
  { clear l Hp. intros l m0 Hl. revert m0. induction Hl as [|[k a] l Ha Hl IH]; intros m0; [done|].
    cbn [fmap list_fmap foldl fst snd mbind option_bind] in *. rewrite Ha. cbn [mbind option_bind]. apply IH. }
  rewrite Hgo.
  2: { rewrite Hp. apply Forall_forall. intros [k a] Hk%elem_of_map_to_list. by apply (Hm k). }
  f_equal. clear Hgo Hm. assert (NoDup l.*1) as Hnd by (rewrite Hp; apply NoDup_fst_map_to_list).
  rewrite <-(list_to_map_to_list m), <-(list_to_map_proper _ _ Hnd Hp). clear Hp.
  assert (forall m0, foldl (fun m (kv : string * A) => <[kv.1 := kv.2]> m) m0 l = list_to_map l ∪ m0) as ->;
    [|by rewrite (right_id_L ∅ (∪))].
  induction l as [|[k a] l IH]; intros m0; [cbn; by rewrite (left_id_L ∅ (∪))|].
  cbn [foldl fst snd list_to_map]. apply NoDup_cons in Hnd as [Hk Hnd]. rewrite IH by done. cbn.
  rewrite <-insert_union_r by (by apply not_elem_of_list_to_map_1). by rewrite insert_union_l.
Qed.

Lemma json_map_back {A} (f : A -> json) zero (d : decoder A) (m : gmap string A) :
  map_Forall (fun _ a => d (f a) zero = Some a) m -> dec_map zero d (json_map f m) ∅ = Some m.
Proof. intros Hm. apply dec_members_back; [done|apply sorted_members_perm]. Qed.

(** The field of an exact key. *)
Lemma find_field_exact {F} (fields : list (string * F)) k f :
  NoDup fields.*1 -> (k, f) ∈ fields -> find_field fields k = Some f.
Proof.
  intros Hnd Hin. unfold find_field. enough (List.find (fun f => bool_decide (f.1 = k)) fields = Some (k, f)) as -> by done.
  induction fields as [|[k' f'] fields IH]; [by apply not_elem_of_nil in Hin|]. cbn [fmap list_fmap fst List.find] in *.
  apply NoDup_cons in Hnd as [Hk Hnd]. apply elem_of_cons in Hin as [[= <- <-]|Hin]; [by rewrite bool_decide_true|].
  rewrite bool_decide_false; [by apply IH|]. intros ->. apply Hk, list_elem_of_fmap. by exists (k, f).
Qed.

(** A struct is decoded member by member. *)
Lemma dec_struct_cons {A} (fields : list (string * decoder A)) k d j l a a' :
  NoDup fields.*1 -> (k, d) ∈ fields -> d j a = Some a' ->
  dec_struct fields (JObject ((k, j) :: l)) a = dec_struct fields (JObject l) a'.
Proof.
  intros Hnd Hin Hd. cbn [dec_struct foldl fst snd mbind option_bind]. rewrite (find_field_exact _ _ d) by done. by rewrite Hd.
Qed.

Lemma field_back {S A} (get : S -> A) set (d : decoder A) j s a : d j (get s) = Some a -> field get set d j s = Some (set a s).
Proof. intros Hd. unfold field. by rewrite Hd. Qed.

(** Decode one more member of a struct, with [back] for its value. *)
Ltac decode_member back :=
  erewrite dec_struct_cons;
    [|refine (bool_decide_unpack _ _); vm_compute; exact I
     |repeat first [apply list_elem_of_here|apply list_elem_of_further]
     |apply field_back; back].

Section roundtrips.
Context `{Zone, JsonErrors}.

(** What is written in full and read back as it was. *)
Definition score_storable (d : ProviderScoreData) : Prop :=
  str_all is_ascii (psd_Name d) = true /\ Forall float_ok (score_floats d)
  /\ Forall int64_range [psd_TotalOperations d; psd_SuccessfulOps d; psd_FailedOps d]
  /\ Forall (fun t => time_writable t = true) (score_times d) /\ Forall int64_range (psd_RecentLatencies d).

Definition latency_storable (d : LatencyStatsData) : Prop :=
  time_writable (lsd_LastUpdated d) = true
  /\ map_Forall (fun k l => str_all is_ascii k = true /\ Forall int64_range l) (lsd_ProviderSamples d).

(** An empty map of metadata is read back as nil. *)
Definition penalty_storable (r : PenaltyRecordData) : Prop :=
  Forall (fun s => str_all is_ascii s = true) [prd_ProviderName r; prd_Category r; prd_Reason r]
  /\ float_ok (prd_Amount r) /\ time_writable (prd_CreatedAt r) = true
  /\ match prd_Metadata r with
     | Some m => m <> ∅ /\ map_Forall (fun k v => str_all is_ascii k = true /\ str_all is_ascii v = true) m
     | None => True
     end.

Lemma plain_float x : float_ok x -> plain_json (json_float x) = true.
Proof. intros Hx. apply bool_decide_eq_true. by apply float_ok_text. Qed.

Lemma plain_json_int z : plain_json (json_int z) = true.
Proof. apply plain_int. Qed.

Lemma fixed_ascii n z a : str_all is_ascii a = true -> str_all is_ascii (fixed_digits n z a) = true.
Proof.
  revert z a. induction n as [|n IH]; intros z a Ha; [done|]. cbn [fixed_digits]. apply IH. cbn. rewrite Ha, andb_true_r.
  unfold is_ascii, digit. pose proof (Z.mod_pos_bound z 10 ltac:(lia)). rewrite code_char_of by (unfold is_byte; lia).
  apply Z.ltb_lt. lia.
Qed.

Lemma rfc3339_ascii off t : str_all is_ascii (rfc3339 off t) = true.
Proof.
  unfold rfc3339, date_text, clock_text, fraction_text, zone_text. destruct (civil_of_days _) as [[y m] d].
  destruct (trim_zeros 9 _) as [[|k] v]; destruct (off =? 0); try destruct (off <? 0);
    rewrite !str_all_app, !fixed_ascii by done; done.
Qed.

Lemma plain_time t : plain_json (json_time t) = true.
Proof. apply rfc3339_ascii. Qed.

Lemma plain_ints l : plain_json (JArray (map json_int l)) = true /\ json_depth (JArray (map json_int l)) = 1.
Proof.
  cbn [plain_json json_depth]. split.
  - induction l as [|z l IH]; [done|]. cbn [map forallb]. by rewrite plain_json_int, IH.
  - rewrite map_map. assert (foldr Z.max 0 (map (fun x => json_depth (json_int x)) l) = 0) as ->; [|done].
    induction l as [|z l IH]; [done|]. cbn [map foldr]. by rewrite IH.
Qed.

Lemma plain_members {A} (f : A -> json) m n : 0 <= n ->
  map_Forall (fun k a => str_all is_ascii k = true /\ plain_json (f a) = true /\ json_depth (f a) <= n) m ->
  plain_json (json_map f m) = true /\ json_depth (json_map f m) <= n + 1.
Proof.
  intros Hn Hm. unfold json_map. cbn [plain_json json_depth].
  assert (Forall (fun '(k, a) => str_all is_ascii k = true /\ plain_json (f a) = true /\ json_depth (f a) <= n) (sorted_members m)) as Hf.
  { rewrite sorted_members_perm. apply Forall_forall. intros [k a] Hk%elem_of_map_to_list. by apply Hm in Hk. }
  induction Hf as [|[k a] l (Hk & Ha & Hd) Hf IH]; [cbn; lia|]. destruct IH as [IH1 IH2].
  cbn [fmap list_fmap map forallb foldr fst snd]. rewrite Hk, Ha. split; [exact IH1|]. cbn [fmap list_fmap] in IH2. lia.
Qed.

Lemma plain_score d : score_storable d -> plain_json (score_json d) = true /\ json_depth (score_json d) <= max_depth.
Proof.
  intros (Hn & Hf & _ & _ & _). unfold score_floats in Hf.
  repeat match goal with H : Forall float_ok (_ :: _) |- _ => apply Forall_cons in H as [? H] end.
  unfold score_json. set (tail := match _ with [] => _ | _ => _ end).
  assert (forallb (fun kv : string * json => str_all is_ascii kv.1 && plain_json kv.2) tail = true
    /\ foldr Z.max 0 (map (fun kv => json_depth kv.2) tail) <= 1) as [Hp Hd].
  { subst tail. destruct (psd_RecentLatencies d) as [|z l]; [done|]. destruct (plain_ints (z :: l)) as [Hp Hd].
    generalize dependent (JArray (map json_int (z :: l))). intros j Hp Hd. cbn [forallb map foldr fst snd]. by rewrite Hp, Hd. }
  clearbody tail. cbn [plain_json json_depth app forallb map foldr fst snd].
  rewrite !plain_float, !plain_json_int, !plain_time by done. change (plain_json (JString (psd_Name d))) with (str_all is_ascii (psd_Name d)).
  rewrite Hn, Hp. split; [done|]. cbn [json_depth json_float json_int json_time]. unfold max_depth. lia.
Qed.

Lemma Unmarshal_print {A} (dec : decoder A) zero j a :
  plain_json j = true -> json_depth j <= max_depth -> dec j zero = Some a -> Unmarshal dec zero (print_json j) = Ok a.
Proof. intros Hp Hd Ha. unfold Unmarshal. by rewrite parse_print, Ha. Qed.

Lemma forallb_all {A} (f : A -> bool) l : Forall (fun x => f x = true) l -> forallb f l = true.
Proof. induction 1 as [|x l Hx _ IH]; [done|]. cbn. by rewrite Hx, IH. Qed.

Lemma score_back d : score_storable d -> dec_struct score_fields (score_json d) zero_score = Some d.
Proof.
  intros (Hn & Hf & Hi & Ht & Hl). unfold score_floats, score_times in *.
  repeat match goal with H : Forall _ (_ :: _) |- _ => apply Forall_cons in H as [? H] end.
  unfold score_json. cbn [app].
  decode_member ltac:(reflexivity).
  do 5 (decode_member ltac:(by apply json_float_back)).
  do 3 (decode_member ltac:(by apply json_int_back)).
  do 3 (decode_member ltac:(by apply json_time_back)).
  destruct (psd_RecentLatencies d) as [|z lat] eqn:El; [destruct d; cbn in El; by subst|].
  decode_member ltac:(by apply json_ints_back). destruct d; cbn in El; by subst.
Qed.

Lemma score_roundtrip d : score_storable d -> exists text, marshal_score d = Ok text /\ unmarshal_score text = Ok d.
Proof.
  intros Hs. exists (print_json (score_json d)). split.
  - destruct Hs as (_ & Hf & _ & Ht & _). unfold marshal_score.
    assert (forallb json_float_ok (score_floats d) = true) as ->.
    { apply forallb_all, (Forall_impl _ _ _ Hf). by intros x [_ Hx]. }
    by rewrite (forallb_all _ _ Ht).
  - destruct (plain_score d Hs). apply Unmarshal_print; [done|done|by apply score_back].
Qed.

Lemma latency_roundtrip d : latency_storable d -> exists text, marshal_latency d = Ok text /\ unmarshal_latency text = Ok d.
Proof.
  intros [Ht Hm]. exists (print_json (latency_json d)). unfold marshal_latency. rewrite Ht. split; [done|].
  destruct (plain_members (fun l => JArray (map json_int l)) (lsd_ProviderSamples d) 1) as [Hp Hd]; [done| |].
  { intros k l Hk. apply Hm in Hk as [Hk _]. destruct (plain_ints l) as [-> ->]. by split_and!. }
  apply Unmarshal_print.
  - unfold latency_json. cbn [plain_json forallb fst snd]. by rewrite Hp, plain_time.
  - unfold latency_json. cbn [json_depth map foldr fst snd]. cbn [json_time json_depth]. unfold max_depth. lia.
  - unfold latency_json.
    assert (dec_map [] (dec_slice 0 (dec_int 64)) (json_map (fun l => JArray (map json_int l)) (lsd_ProviderSamples d)) ∅
      = Some (lsd_ProviderSamples d)) as Hback.
    { apply json_map_back. intros k l Hk. apply json_ints_back. by apply Hm in Hk as [_ ?]. }
    decode_member ltac:(exact Hback).
    decode_member ltac:(by apply json_time_back). by destruct d.
Qed.

Lemma json_ptr_back {A} j (zero : A) d a : j <> JNull -> d j zero = Some a -> dec_ptr zero d j None = Some (Some a).
Proof. intros Hj Hd. unfold dec_ptr. cbn [default from_option]. rewrite Hd. by destruct j. Qed.

Lemma penalty_roundtrip r : penalty_storable r -> exists text, marshal_penalty r = Ok text /\ unmarshal_penalty text = Ok r.
Proof.
  intros (Hs & Ha & Ht & Hm). exists (print_json (penalty_json r)). unfold marshal_penalty. rewrite (proj2 Ha), Ht. split; [done|].
  apply Forall_cons in Hs as [Hs1 Hs]. apply Forall_cons in Hs as [Hs2 Hs]. apply Forall_cons in Hs as [Hs3 _].
  unfold penalty_json. destruct (prd_Metadata r) as [m|] eqn:Em; [rewrite bool_decide_false by apply Hm|]; cbn [app].
  - destruct Hm as [_ Hm]. destruct (plain_members JString m 0) as [Hp Hd]; [done| |].
    { intros k v Hk. apply Hm in Hk as [-> Hv]. by split_and!. }
    assert (dec_ptr ∅ (dec_map ""%string dec_string) (json_map JString m) None = Some (Some m)) as Hb.
    { by apply json_ptr_back; [|apply (json_map_back JString)]. }
    generalize dependent (json_map JString m). intros j Hp Hd Hb. apply Unmarshal_print.
    + cbn. cbn in *. rewrite Hs1, Hs2, Hs3, Hp. pose proof (plain_float _ Ha) as Hf. cbn in Hf. rewrite Hf. by rewrite rfc3339_ascii.
    + cbn. unfold max_depth. lia.
    + do 3 (decode_member ltac:(reflexivity)). decode_member ltac:(by apply json_float_back).
      decode_member ltac:(by apply json_time_back). decode_member ltac:(exact Hb). destruct r; cbn in Em; by subst.
  - apply Unmarshal_print.
    + cbn. cbn in *. rewrite Hs1, Hs2, Hs3. pose proof (plain_float _ Ha) as Hf. cbn in Hf. rewrite Hf. by rewrite rfc3339_ascii.
    + cbn. unfold max_depth. lia.
    + do 3 (decode_member ltac:(reflexivity)). decode_member ltac:(by apply json_float_back).
      decode_member ltac:(by apply json_time_back). destruct r; cbn in Em; by subst.
Qed.
End roundtrips.
