(* ===== verification/Hybrid.v ===== *)
(** * Composed stores

    [scoring/store/hybrid.go]: a primary store with a cache in front of it.
    [scoring/store/instrumented.go]: a store that reports every call to a
    recorder.  [scoring/store/composite_penalty.go]: the same idea for penalty
    records.

    A write the code hands to a goroutine ([AsyncWrite]) is queued in
    [hs_pending] and runs at [hs_run_pending], in any order.

    With synchronous cache writes the hybrid store is a lawful score store
    whose contents are the primary's ([HybridStore_laws]): a cache read never
    differs from the primary. *)

From S2P Require Import Prelude GoInt GoFloat GoString Store.

(** ** HybridStore *)

Inductive cache_write :=
  | PendSet (d : option ProviderScoreData)
  | PendSetMany (ds : list (option ProviderScoreData)).

Record HybridStore (P C : Type) := {
  hs_primary : P;
  hs_cache : C;
  hs_CacheTTL : Duration;
  hs_WriteThrough : bool;
  hs_AsyncWrite : bool;
  hs_InvalidateOnWrite : bool;
  hs_recorder : option (list metric);
  hs_cacheTime : gmap string Time;
  hs_pending : list cache_write
}.
Arguments hs_primary {_ _} _.
Arguments hs_cache {_ _} _.
Arguments hs_CacheTTL {_ _} _.
Arguments hs_WriteThrough {_ _} _.
Arguments hs_AsyncWrite {_ _} _.
Arguments hs_InvalidateOnWrite {_ _} _.
Arguments hs_recorder {_ _} _.
Arguments hs_cacheTime {_ _} _.
Arguments hs_pending {_ _} _.

Record HybridConfig (P C : Type) := {
  hcf_Primary : option P;
  hcf_Cache : option C;
  hcf_CacheTTL : Duration;
  hcf_WriteThrough : bool;
  hcf_AsyncWrite : bool;
  hcf_InvalidateOnWrite : bool
}.
Arguments hcf_Primary {_ _} _.
Arguments hcf_Cache {_ _} _.
Arguments hcf_CacheTTL {_ _} _.
Arguments hcf_WriteThrough {_ _} _.
Arguments hcf_AsyncWrite {_ _} _.
Arguments hcf_InvalidateOnWrite {_ _} _.

Section hybrid.
Context {P C : Type}.
Implicit Types h : HybridStore P C.

(** Field assignments. *)
Definition hs_with (p : P) (c : C) (rec : option (list metric)) (ct : gmap string Time)
    (pend : list cache_write) h : HybridStore P C :=
  {| hs_primary := p; hs_cache := c; hs_CacheTTL := hs_CacheTTL h;
     hs_WriteThrough := hs_WriteThrough h; hs_AsyncWrite := hs_AsyncWrite h;
     hs_InvalidateOnWrite := hs_InvalidateOnWrite h; hs_recorder := rec;
     hs_cacheTime := ct; hs_pending := pend |}.

Definition hs_set_primary p h := hs_with p (hs_cache h) (hs_recorder h) (hs_cacheTime h) (hs_pending h) h.
Definition hs_set_cache c h := hs_with (hs_primary h) c (hs_recorder h) (hs_cacheTime h) (hs_pending h) h.
Definition hs_set_recorder r h := hs_with (hs_primary h) (hs_cache h) r (hs_cacheTime h) (hs_pending h) h.
Definition hs_set_cacheTime t h := hs_with (hs_primary h) (hs_cache h) (hs_recorder h) t (hs_pending h) h.
Definition hs_set_pending p h := hs_with (hs_primary h) (hs_cache h) (hs_recorder h) (hs_cacheTime h) p h.

Definition NewHybridStore (config : HybridConfig P C) : result (HybridStore P C) :=
  match hcf_Primary config, hcf_Cache config with
  | None, _ => Err (errOther "primary store is required")
  | _, None => Err (errOther "cache store is required")
  | Some p, Some c => Ok {|
      hs_primary := p; hs_cache := c;
      hs_CacheTTL := if hcf_CacheTTL config =? 0 then 5 * Minute else hcf_CacheTTL config;
      hs_WriteThrough := hcf_WriteThrough config;
      hs_AsyncWrite := hcf_AsyncWrite config;
      hs_InvalidateOnWrite := hcf_InvalidateOnWrite config;
      hs_recorder := None;
      hs_cacheTime := ∅;
      hs_pending := [] |}
  end.

Definition isCacheFresh (now : Time) (name : string) h : bool :=
  match hs_cacheTime h !! name with
  | Some t => time_sub now t <? hs_CacheTTL h
  | None => false
  end.

Definition markCacheFresh (now : Time) (name : string) h : HybridStore P C :=
  hs_set_cacheTime (<[name:=now]> (hs_cacheTime h)) h.

Definition invalidateCache (name : string) h : HybridStore P C :=
  hs_set_cacheTime (delete name (hs_cacheTime h)) h.

Definition InvalidateAll h : HybridStore P C := hs_set_cacheTime ∅ h.

Context `{ScoreStore P, ScoreStore C}.

Definition hs_Name h : string :=
  ("hybrid(" +:+ store_Name (hs_primary h) +:+ "+" +:+ store_Name (hs_cache h) +:+ ")")%string.

(** [if h.recorder != nil { h.recorder.RecordCacheHit(...) }]. *)
Definition hs_record (hit : bool) h : HybridStore P C :=
  match hs_recorder h with
  | Some l => hs_set_recorder (Some (l ++ [RecordCacheHit (hs_Name h) hit])) h
  | None => h
  end.

(** [_ = h.cache.SetScore(...)], synchronously or in a goroutine. *)
Definition hs_cache_set (clk : clock) (d : ProviderScoreData) h : go (HybridStore P C) :=
  if hs_AsyncWrite h then Some (hs_set_pending (hs_pending h ++ [PendSet (Some d)]) h)
  else '(_, c) ← SetScore clk (Some d) (hs_cache h); Some (hs_set_cache c h).

(** The part of [GetScore] after a cache miss. *)
Definition hs_read_primary (clk : clock) (name : string) h
    : go (result (option ProviderScoreData) * HybridStore P C) :=
  let h := hs_record false h in
  '(r, p) ← GetScore (clk_skip 2 clk) name (hs_primary h);
  let h := hs_set_primary p h in
  match r with
  | Err e => Some (Err (errWrap "primary store get failed: " e ""), h)
  | Ok None => Some (Ok None, h)
  | Ok (Some d) =>
      h ← hs_cache_set (clk_skip 2 clk) d h;
      Some (Ok (Some d), markCacheFresh (clk 1%nat) name h)
  end.

Definition hs_GetScore (clk : clock) (name : string) h
    : go (result (option ProviderScoreData) * HybridStore P C) :=
  if isCacheFresh (clk 0%nat) name h then
    '(r, c) ← GetScore (clk_skip 2 clk) name (hs_cache h);
    let h := hs_set_cache c h in
    match r with
    | Ok (Some d) => Some (Ok (Some d), hs_record true h)
    | _ => hs_read_primary clk name h
    end
  else hs_read_primary clk name h.

Definition hs_SetScore (clk : clock) (data : option ProviderScoreData) h
    : go (result unit * HybridStore P C) :=
  match data with
  | None => Some (Err (errOther "data cannot be nil"), h)
  | Some d =>
      '(r, p) ← SetScore (clk_skip 1 clk) (Some d) (hs_primary h);
      let h := hs_set_primary p h in
      match r with
      | Err e => Some (Err (errWrap "primary store set failed: " e ""), h)
      | Ok _ =>
          if hs_InvalidateOnWrite h then
            let h := invalidateCache (psd_Name d) h in
            '(_, c) ← DeleteScore (clk_skip 1 clk) (psd_Name d) (hs_cache h);
            Some (Ok tt, hs_set_cache c h)
          else if hs_WriteThrough h then
            h ← hs_cache_set (clk_skip 1 clk) d h;
            Some (Ok tt, markCacheFresh (clk 0%nat) (psd_Name d) h)
          else Some (Ok tt, invalidateCache (psd_Name d) h)
      end
  end.

(** The loops over a batch; a nil element is dereferenced. *)
Fixpoint hs_mark_all (clk : clock) (ds : list (option ProviderScoreData)) h : go (HybridStore P C) :=
  match ds with
  | [] => Some h
  | None :: _ => None
  | Some d :: ds => hs_mark_all (clk_skip 1 clk) ds (markCacheFresh (clk 0%nat) (psd_Name d) h)
  end.

Fixpoint hs_invalidate_all (ds : list (option ProviderScoreData)) h : go (HybridStore P C) :=
  match ds with
  | [] => Some h
  | None :: _ => None
  | Some d :: ds => hs_invalidate_all ds (invalidateCache (psd_Name d) h)
  end.

Fixpoint hs_delete_all (clk : clock) (ds : list (option ProviderScoreData)) h : go (HybridStore P C) :=
  match ds with
  | [] => Some h
  | None :: _ => None
  | Some d :: ds =>
      let h := invalidateCache (psd_Name d) h in
      '(_, c) ← DeleteScore clk (psd_Name d) (hs_cache h);
      hs_delete_all (clk_skip 1 clk) ds (hs_set_cache c h)
  end.

Definition hs_SetScores (clk : clock) (data : list (option ProviderScoreData)) h
    : go (result unit * HybridStore P C) :=
  if zlen data =? 0 then Some (Ok tt, h)
  else
    '(r, p) ← SetScores clk data (hs_primary h);
    let h := hs_set_primary p h in
    match r with
    | Err e => Some (Err (errWrap "primary store batch set failed: " e ""), h)
    | Ok _ =>
        h ← (if hs_InvalidateOnWrite h then hs_delete_all clk data h
             else if hs_WriteThrough h then
               h ← (if hs_AsyncWrite h
                    then Some (hs_set_pending (hs_pending h ++ [PendSetMany data]) h)
                    else '(_, c) ← SetScores clk data (hs_cache h); Some (hs_set_cache c h));
               hs_mark_all clk data h
             else hs_invalidate_all data h);
        Some (Ok tt, h)
    end.

Definition hs_GetAllScores (clk : clock) h
    : go (result (list (option ProviderScoreData)) * HybridStore P C) :=
  '(r, p) ← GetAllScores clk (hs_primary h);
  let h := hs_set_primary p h in
  match r with
  | Err e => Some (Err (errWrap "primary store get all failed: " e ""), h)
  | Ok data => Some (Ok data, h)
  end.

Definition hs_DeleteScore (clk : clock) (name : string) h : go (result unit * HybridStore P C) :=
  '(r, p) ← DeleteScore clk name (hs_primary h);
  let h := hs_set_primary p h in
  match r with
  | Err e => Some (Err (errWrap "primary store delete failed: " e ""), h)
  | Ok _ =>
      '(_, c) ← DeleteScore clk name (hs_cache h);
      Some (Ok tt, invalidateCache name (hs_set_cache c h))
  end.

Definition hs_GetLatencyStats (clk : clock) h
    : go (result (option LatencyStatsData) * HybridStore P C) :=
  '(r, p) ← store_GetLatencyStats clk (hs_primary h);
  let h := hs_set_primary p h in
  match r with
  | Err e => Some (Err (errWrap "primary store get latency stats failed: " e ""), h)
  | Ok data => Some (Ok data, h)
  end.

Definition hs_SetLatencyStats (clk : clock) (data : option LatencyStatsData) h
    : go (result unit * HybridStore P C) :=
  '(r, p) ← store_SetLatencyStats clk data (hs_primary h);
  let h := hs_set_primary p h in
  match r with
  | Err e => Some (Err (errWrap "primary store set latency stats failed: " e ""), h)
  | Ok _ => Some (Ok tt, h)
  end.

(** [Close]: both stores are closed whatever the first one returned.  The
    message joins the errors the way [%v] prints a slice. *)
Definition hs_Close h : go (result unit * HybridStore P C) :=
  '(rc, c) ← store_Close (hs_cache h);
  '(rp, p) ← store_Close (hs_primary h);
  let h := hs_set_primary p (hs_set_cache c h) in
  let ec := match rc with Err e => [("cache close: " +:+ err_msg e)%string] | Ok _ => [] end in
  let ep := match rp with Err e => [("primary close: " +:+ err_msg e)%string] | Ok _ => [] end in
  match ec ++ ep with
  | [] => Some (Ok tt, h)
  | errs => Some (Err (errOther ("close errors: [" +:+ String.concat " " errs +:+ "]")), h)
  end.

Definition hs_Ping h : go (result unit * HybridStore P C) :=
  '(rp, p) ← store_Ping (hs_primary h);
  let h := hs_set_primary p h in
  match rp with
  | Err e => Some (Err (errWrap "primary store ping failed: " e ""), h)
  | Ok _ =>
      '(rc, c) ← store_Ping (hs_cache h);
      let h := hs_set_cache c h in
      match rc with
      | Err e => Some (Err (errWrap "cache store ping failed: " e ""), h)
      | Ok _ => Some (Ok tt, h)
      end
  end.

Definition WarmCache (clk : clock) h : go (result unit * HybridStore P C) :=
  '(r, p) ← GetAllScores clk (hs_primary h);
  let h := hs_set_primary p h in
  match r with
  | Err e => Some (Err (errWrap "failed to get scores from primary: " e ""), h)
  | Ok scores =>
      if 0 <? zlen scores then
        '(r, c) ← SetScores clk scores (hs_cache h);
        let h := hs_set_cache c h in
        match r with
        | Err e => Some (Err (errWrap "failed to populate cache: " e ""), h)
        | Ok _ => h ← hs_mark_all clk scores h; Some (Ok tt, h)
        end
      else Some (Ok tt, h)
  end.

(** The goroutine of the [i]-th queued cache write runs. *)
Definition hs_run_pending (clk : clock) (i : nat) h : go (HybridStore P C) :=
  match hs_pending h !! i with
  | None => Some h
  | Some w =>
      let h := hs_set_pending (take i (hs_pending h) ++ drop (S i) (hs_pending h)) h in
      '(_, c) ← match w with
                | PendSet d => SetScore clk d (hs_cache h)
                | PendSetMany ds => SetScores clk ds (hs_cache h)
                end;
      Some (hs_set_cache c h)
  end.

#[export] Instance HybridStore_store : ScoreStore (HybridStore P C) := {|
  GetScore := hs_GetScore;
  SetScore := hs_SetScore;
  GetAllScores := hs_GetAllScores;
  DeleteScore := hs_DeleteScore;
  SetScores := hs_SetScores;
  store_GetLatencyStats := hs_GetLatencyStats;
  store_SetLatencyStats := hs_SetLatencyStats;
  store_Close := hs_Close;
  store_Ping := hs_Ping;
  store_Name := hs_Name;
  store_SetRecorder h := hs_set_recorder (Some []) h
|}.
End hybrid.

(** ** The hybrid store is a lawful store *)

(** On the names [D], what the cache holds is what the primary holds. *)
Definition agree (D : string -> Prop) (c p : score_map) : Prop :=
  forall n d, D n -> c !! n = Some d -> p !! n = Some d.

Lemma agree_weaken (D D' : string -> Prop) c c' p :
  agree D c p -> c' ⊆ c -> (forall n, D' n -> D n) -> agree D' c' p.
Proof. intros Ha Hc HD n d Hn Hd. apply Ha; [by apply HD|]. by eapply lookup_weaken. Qed.

Lemma agree_set D c p d :
  agree D c p -> agree (fun n => n = psd_Name d \/ D n) (<[psd_Name d:=d]> c) (<[psd_Name d:=d]> p).
Proof.
  intros Ha n e Hn. destruct (decide (n = psd_Name d)) as [->|Hne]; [by rewrite !lookup_insert_eq|].
  rewrite !lookup_insert_ne by done. destruct Hn; [done|]. by apply Ha.
Qed.

Lemma agree_skip (D : string -> Prop) c p n v :
  agree D c p -> agree (fun m => m <> n /\ D m) c (partial_alter v n p).
Proof. intros Ha m e [Hne Hm] Hc. rewrite lookup_partial_alter_ne by done. by apply Ha. Qed.

Definition batch_name (n : string) (ds : list (option ProviderScoreData)) : Prop :=
  Exists (fun o => exists d, o = Some d /\ psd_Name d = n) ds.

Lemma agree_batch (D : string -> Prop) c p ds :
  agree D c p ->
  agree (fun n => batch_name n ds \/ D n) (foldl set_one c ds) (foldl set_one p ds).
Proof.
  revert c p D. induction ds as [|o ds IH]; intros c p D Ha.
  { eapply agree_weaken; [done|done|]. intros n [Hb|]; [by apply Exists_nil in Hb|done]. }
  cbn [foldl]. destruct o as [d|].
  - eapply agree_weaken; [apply IH, agree_set, Ha|done|].
    intros n [[(d' & [= <-] & Hn)|?]%Exists_cons|?]; auto.
  - eapply agree_weaken; [apply IH, Ha|done|].
    intros n [[(d' & ? & Hn)|?]%Exists_cons|?]; auto; done.
Qed.

Lemma agree_skip_batch (D : string -> Prop) c p ds :
  agree D c p -> agree (fun n => ~ batch_name n ds /\ D n) c (foldl set_one p ds).
Proof.
  revert p D. induction ds as [|o ds IH]; intros p D Ha.
  { eapply agree_weaken; [done|done|]. by intros n [_ ?]. }
  cbn [foldl]. destruct o as [d|].
  - eapply agree_weaken; [apply IH, agree_skip, Ha|done|].
    intros n [Hb Hn]. split_and!; [intros Hex|intros ->|done]; apply Hb.
    + by apply Exists_cons_tl.
    + apply Exists_cons_hd. eauto.
  - eapply agree_weaken; [apply IH, Ha|done|].
    intros n [Hb Hn]. split; [|done]. intros Hex. apply Hb. by apply Exists_cons_tl.
Qed.

Section laws.
Context {P C : Type} `{Hp : FailedCallsIdle P, Hc : ScoreCacheLaws C}.
Implicit Types h : HybridStore P C.

(** A primary that holds only scores the cache keeps exactly. *)
Definition cacheable (m : score_map) : Prop := map_Forall (fun _ => ca_storable C) m.

Definition primary_ok (p : P) : Prop := st_inv p /\ cacheable (st_view p).

Definition hs_storable (d : ProviderScoreData) : Prop := st_storable P d /\ ca_storable C d.

Lemma hs_storable_batch ds :
  batch_of hs_storable ds -> batch_of (st_storable P) ds /\ batch_of (ca_storable C) ds.
Proof. intros Hd. split; eapply Forall_impl; try exact Hd; intros [d|]; cbn; done || by intros []. Qed.

Lemma cacheable_batch ds m : cacheable m -> batch_of (ca_storable C) ds -> cacheable (foldl set_one m ds).
Proof.
  intros Hm Hd. revert m Hm. induction Hd as [|[d|] ds Ho Hd IH]; intros m Hm; [done| |by apply IH].
  apply IH. by apply map_Forall_insert_2.
Qed.

Definition marked h (n : string) : Prop := is_Some (hs_cacheTime h !! n).

Record hs_inv h : Prop := {
  hs_inv_primary : primary_ok (hs_primary h);
  hs_inv_cache : ca_inv (hs_cache h);
  hs_inv_sync : hs_AsyncWrite h = false;
  hs_inv_agree : agree (marked h) (ca_view (hs_cache h)) (st_view (hs_primary h))
}.

Definition hs_view h : score_map := st_view (hs_primary h).
Definition hs_lat h : option LatencyStatsData := st_lat (hs_primary h).

(** What every operation keeps apart from its effect on the primary. *)
Definition hs_same h h' : Prop := hs_inv h' /\ hs_view h' = hs_view h /\ hs_lat h' = hs_lat h.

Lemma hs_record_eq b h : exists r, hs_record b h = hs_set_recorder r h.
Proof. unfold hs_record. destruct (hs_recorder h) as [l|] eqn:E; [eauto|]. exists None. rewrite <-E. by destruct h. Qed.

Lemma hs_record_inv b h : hs_inv h -> hs_same h (hs_record b h).
Proof. intros []. destruct (hs_record_eq b h) as [r ->]. by split_and!. Qed.

Lemma hs_same_trans h1 h2 h3 : hs_same h1 h2 -> hs_same h2 h3 -> hs_same h1 h3.
Proof. intros (_ & Hv & Hl) (? & Hv' & Hl'). unfold hs_same. by rewrite Hv', Hl', Hv, Hl. Qed.

Lemma hs_set_cache_inv c h :
  hs_inv h -> ca_inv c -> ca_view c ⊆ ca_view (hs_cache h) -> hs_same h (hs_set_cache c h).
Proof. intros [Hip Hic Hs Ha] Hcc Hsub. split_and!; [split|done..]; try done. by eapply agree_weaken. Qed.

Lemma marked_mark now name h n : marked (markCacheFresh now name h) n <-> n = name \/ marked h n.
Proof.
  unfold marked. cbn. destruct (decide (n = name)) as [->|Hne].
  - rewrite lookup_insert_eq. split; [by left|by eauto].
  - rewrite lookup_insert_ne by done. tauto.
Qed.

Lemma marked_invalidate name h n : marked (invalidateCache name h) n <-> n <> name /\ marked h n.
Proof.
  unfold marked. cbn. destruct (decide (n = name)) as [->|Hne].
  - rewrite lookup_delete_eq. split; [by intros []|tauto].
  - rewrite lookup_delete_ne by done. tauto.
Qed.

(** Writing a score the primary holds to the cache, and marking it fresh. *)
Lemma hs_cache_set_mark clk now d h :
  primary_ok (hs_primary h) -> ca_inv (hs_cache h) -> hs_AsyncWrite h = false ->
  psd_Name d <> ""%string -> hs_view h !! psd_Name d = Some d ->
  agree (fun n => n <> psd_Name d /\ marked h n) (ca_view (hs_cache h)) (hs_view h) ->
  exists h', hs_cache_set clk d h = Some h' /\ hs_same h (markCacheFresh now (psd_Name d) h').
Proof.
  intros Hip Hic Hs Hn Hd Ha. unfold hs_cache_set. rewrite Hs.
  pose proof (ca_SetScore clk d (hs_cache h) Hic Hn (proj2 Hip _ _ Hd)) as Hcs.
  destruct (SetScore clk (Some d) (hs_cache h)) as [[[]]|]; cbn in Hcs; [|done..].
  destruct Hcs as [Hic' Hsub]. eexists. split; [done|]. split_and!; [split|done..]; try done.
  intros n e Hm He. apply marked_mark in Hm. cbn in He.
  eapply lookup_weaken in He; [|done]. destruct (decide (n = psd_Name d)) as [->|Hne].
  - rewrite lookup_insert_eq in He. injection He as <-. exact Hd.
  - rewrite lookup_insert_ne in He by done. apply Ha; [|done]. tauto.
Qed.

Lemma view_name h n d : hs_inv h -> hs_view h !! n = Some d -> psd_Name d = n /\ n <> ""%string.
Proof. intros [[Hip _] _ _ _] Hd. exact (st_names _ Hip n d Hd). Qed.

Lemma hs_set_primary_inv p h :
  hs_inv h -> st_inv p -> st_view p = hs_view h -> hs_inv (hs_set_primary p h).
Proof. intros [[Hip Hca] Hic Hs Ha] Hp' Hv. split; [split; [done|]|done..|]; cbn; by rewrite Hv. Qed.

Lemma hs_set_primary_same p h :
  hs_inv h -> st_inv p -> st_view p = hs_view h -> st_lat p = hs_lat h -> hs_same h (hs_set_primary p h).
Proof. intros Hi Hp' Hv Hl. by split; [apply hs_set_primary_inv|]. Qed.

Lemma hs_read_primary_law clk n h :
  hs_inv h ->
  outcome (hs_read_primary clk n h) (fun r h' => r = hs_view h !! n /\ hs_same h h') (hs_same h).
Proof.
  intros Hi. destruct (hs_record_inv false h Hi) as (Hi1 & Hv1 & Hl1). unfold hs_read_primary.
  revert Hi1 Hv1 Hl1. generalize (hs_record false h). intros h1 Hi1 Hv1 Hl1. rewrite <-Hv1.
  pose proof (GetScore_law (clk_skip 2 clk) n (hs_primary h1) (proj1 (hs_inv_primary _ Hi1))) as Hg.
  destruct (GetScore _ n (hs_primary h1)) as [[[r|e] p]|]; cbn in Hg |- *; [| |done].
  2: { destruct Hg as (Hip & Hv & Hl). eapply hs_same_trans; [by split_and!|].
       by apply hs_set_primary_same. }
  destruct Hg as (-> & Hip & Hv & Hl). change (st_view (hs_primary h1)) with (hs_view h1).
  destruct (hs_set_primary_same p h1 Hi1 Hip Hv Hl) as (Hi2 & Hv2 & Hl2).
  assert (hs_same h (hs_set_primary p h1)) as Hs2 by (apply (hs_same_trans _ h1); by split_and!).
  destruct (hs_view h1 !! n) as [d|] eqn:Ed; cbn; [|done].
  destruct (view_name _ _ _ Hi1 Ed) as [<- Hn]. rewrite <-Hv2 in Ed.
  destruct (hs_cache_set_mark (clk_skip 2 clk) (clk 1%nat) d (hs_set_primary p h1)) as (h3 & -> & Hs3).
  - apply Hi2.
  - apply Hi2.
  - apply Hi2.
  - done.
  - done.
  - eapply agree_weaken; [apply Hi2|done|tauto].
  - cbn. split; [done|]. by eapply hs_same_trans.
Qed.

Lemma hs_GetScore_law clk n h :
  hs_inv h ->
  outcome (hs_GetScore clk n h) (fun r h' => r = hs_view h !! n /\ hs_same h h') (hs_same h).
Proof.
  intros Hi. unfold hs_GetScore, isCacheFresh.
  destruct (hs_cacheTime h !! n) as [t|] eqn:Et; [|by apply hs_read_primary_law].
  destruct (_ <? _); [|by apply hs_read_primary_law].
  pose proof (ca_GetScore (clk_skip 2 clk) n (hs_cache h) (hs_inv_cache _ Hi)) as Hg.
  destruct (GetScore _ n (hs_cache h)) as [[[[d|]|e] c]|]; cbn in Hg |- *; [..|done].
  - destruct Hg as (Hd & Hic & Hsub). pose proof (hs_set_cache_inv c h Hi Hic Hsub) as Hs.
    split.
    + symmetry. apply (hs_inv_agree _ Hi); [by exists t|by apply Hd].
    + eapply hs_same_trans; [done|]. apply hs_record_inv, Hs.
  - destruct Hg as (_ & Hic & Hsub). pose proof (hs_set_cache_inv c h Hi Hic Hsub) as Hs.
    eapply outcome_mono; [apply hs_read_primary_law, Hs|..]; cbn.
    + intros r h' [-> Hs']. split; [apply (f_equal (.!! n)), Hs|by apply (hs_same_trans _ _ _ Hs)].
    + intros h'. by apply hs_same_trans.
  - destruct Hg as (Hic & Hsub). pose proof (hs_set_cache_inv c h Hi Hic Hsub) as Hs.
    eapply outcome_mono; [apply hs_read_primary_law, Hs|..]; cbn.
    + intros r h' [-> Hs']. split; [apply (f_equal (.!! n)), Hs|by apply (hs_same_trans _ _ _ Hs)].
    + intros h'. by apply hs_same_trans.
Qed.

(** The state after the primary took a write of the names [W]: the cache
    agrees with it on the other names. *)
Definition hs_wrote (W : string -> Prop) (v : score_map) h h' : Prop :=
  primary_ok (hs_primary h') /\ ca_inv (hs_cache h') /\ hs_AsyncWrite h' = false
  /\ hs_view h' = v /\ hs_lat h' = hs_lat h
  /\ agree (fun n => ~ W n /\ marked h' n) (ca_view (hs_cache h')) (hs_view h').

Definition hs_effect (v : score_map) h h' : Prop :=
  hs_inv h' /\ hs_view h' = v /\ hs_lat h' = hs_lat h.

Lemma hs_wrote_done (W : string -> Prop) v h h' :
  hs_wrote W v h h' -> (forall n, marked h' n -> ~ W n) -> hs_effect v h h'.
Proof.
  intros (? & ? & ? & ? & ? & Ha) HW. split_and!; [split|done..]; try done.
  eapply agree_weaken; [exact Ha|done|].
  intros n Hm. split; [by apply HW|done].
Qed.

Lemma hs_wrote_drop (W : string -> Prop) v h h' c n :
  hs_wrote W v h h' -> ca_inv c -> ca_view c ⊆ ca_view (hs_cache h') ->
  hs_wrote W v h (hs_set_cache c (invalidateCache n h')).
Proof.
  intros (? & ? & ? & ? & ? & Ha) Hc' Hsub. split_and!; try done.
  eapply agree_weaken; [exact Ha|done|]. intros m [HW [_ Hm]%marked_invalidate]. done.
Qed.

Lemma hs_wrote_invalidate (W : string -> Prop) v h h' n :
  hs_wrote W v h h' -> hs_wrote W v h (invalidateCache n h').
Proof.
  intros (? & ? & ? & ? & ? & Ha). split_and!; try done.
  eapply agree_weaken; [exact Ha|done|]. intros m [HW [_ Hm]%marked_invalidate]. done.
Qed.

Lemma hs_SetScore_law clk d h :
  hs_inv h -> psd_Name d <> ""%string -> hs_storable d ->
  outcome (hs_SetScore clk (Some d) h)
    (fun _ => hs_effect (<[psd_Name d:=d]> (hs_view h)) h) (hs_same h).
Proof.
  intros Hi Hn [Hst Hca]. unfold hs_SetScore.
  pose proof (SetScore_law (clk_skip 1 clk) d (hs_primary h) (proj1 (hs_inv_primary _ Hi)) Hn Hst) as Hs.
  pose proof (SetScore_idle (clk_skip 1 clk) d (hs_primary h) (proj1 (hs_inv_primary _ Hi)) Hn Hst) as Hat.
  destruct (SetScore _ _ (hs_primary h)) as [[[[]|e] p]|]; cbn in Hs, Hat; [| |done].
  2: { cbn. destruct Hs as (? & _ & ?). by apply hs_set_primary_same. }
  destruct Hs as (Hip & Hv & Hl).
  assert (hs_wrote (fun n => n = psd_Name d) (<[psd_Name d:=d]> (hs_view h)) h (hs_set_primary p h)) as Hw.
  { destruct Hi as [[_ Hm] ? ? Ha]. split_and!; try done.
    - split; [done|]. cbn. rewrite Hv. by apply map_Forall_insert_2.
    - unfold hs_view. cbn. rewrite Hv. apply agree_skip, Ha. }
  cbn [mbind option_bind]. cbv zeta beta iota.
  generalize dependent (hs_set_primary p h). clear p Hip Hv Hl. intros h1 Hw.
  destruct (hs_InvalidateOnWrite h1); [|destruct (hs_WriteThrough h1)].
  - cbn. pose proof Hw as (? & Hic & _).
    pose proof (ca_DeleteScore (clk_skip 1 clk) (psd_Name d) (hs_cache h1) Hic) as Hd.
    destruct (DeleteScore _ _ (hs_cache h1)) as [[r c]|]; [|done]. cbn.
    assert (ca_inv c /\ ca_view c ⊆ ca_view (hs_cache h1)) as [? ?] by (by destruct r).
    eapply hs_wrote_done; [by apply hs_wrote_drop|]. by intros n [? _]%marked_invalidate.
  - pose proof Hw as (? & ? & ? & Hv & Hl & Ha).
    destruct (hs_cache_set_mark (clk_skip 1 clk) (clk 0%nat) d h1) as (h2 & -> & Hs2); try done.
    { rewrite Hv. by rewrite lookup_insert_eq. }
    cbn. destruct Hs2 as (? & Hv2 & Hl2). split_and!; [done|by rewrite Hv2|by rewrite Hl2].
  - cbn. eapply hs_wrote_done; [by apply hs_wrote_invalidate|]. by intros n [? _]%marked_invalidate.
Qed.

Lemma hs_DeleteScore_law clk n h :
  hs_inv h -> outcome (hs_DeleteScore clk n h) (fun _ => hs_effect (delete n (hs_view h)) h) (hs_same h).
Proof.
  intros Hi. unfold hs_DeleteScore.
  pose proof (DeleteScore_law clk n (hs_primary h) (proj1 (hs_inv_primary _ Hi))) as Hs.
  pose proof (DeleteScore_idle clk n (hs_primary h) (proj1 (hs_inv_primary _ Hi))) as Hat.
  destruct (DeleteScore _ _ (hs_primary h)) as [[[[]|e] p]|]; cbn in Hs, Hat |- *; [| |done].
  2: { destruct Hs as (? & _ & ?). by apply hs_set_primary_same. }
  destruct Hs as (Hip & Hv & Hl).
  pose proof (ca_DeleteScore clk n (hs_cache h) (hs_inv_cache _ Hi)) as Hd.
  destruct (DeleteScore _ _ (hs_cache h)) as [[r c]|]; [|done]. cbn.
  assert (ca_inv c /\ ca_view c ⊆ ca_view (hs_cache h)) as [? ?] by (by destruct r).
  assert (hs_wrote (fun m => m = n) (delete n (hs_view h)) h (hs_set_primary p h)) as Hw.
  { destruct Hi as [[_ Hm] ? ? Ha]. split_and!; try done.
    - split; [done|]. cbn. rewrite Hv. by apply map_Forall_delete.
    - unfold hs_view. cbn. rewrite Hv. apply agree_skip, Ha. }
  eapply (hs_wrote_done _ _ _ (hs_set_cache c (invalidateCache n (hs_set_primary p h)))).
  - by apply hs_wrote_drop.
  - by intros m [? _]%marked_invalidate.
Qed.

Lemma marked_batch_cons (h : HybridStore P C) d ds n :
  batch_name n (Some d :: ds) <-> n = psd_Name d \/ batch_name n ds.
Proof.
  unfold batch_name. rewrite Exists_cons. split.
  - intros [(d' & [= <-] & <-)|?]; auto.
  - intros [->|?]; eauto.
Qed.

Lemma hs_mark_all_spec clk ds h :
  valid_batch ds ->
  exists t, hs_mark_all clk ds h = Some (hs_set_cacheTime t h)
    /\ forall n, is_Some (t !! n) <-> batch_name n ds \/ marked h n.
Proof.
  intros Hv. revert clk h. induction Hv as [|o ds (d & -> & Hn) Hv IH]; intros clk h; cbn.
  { exists (hs_cacheTime h). split; [by destruct h|]. intros n. split; [by right|].
    intros [Hb|?]; [by apply Exists_nil in Hb|done]. }
  destruct (IH (clk_skip 1 clk) (markCacheFresh (clk 0%nat) (psd_Name d) h)) as (t & -> & Ht).
  exists t. split; [done|]. intros n.
  rewrite Ht, marked_mark, (marked_batch_cons h). tauto.
Qed.

Lemma hs_invalidate_all_spec ds h :
  valid_batch ds ->
  exists t, hs_invalidate_all ds h = Some (hs_set_cacheTime t h)
    /\ forall n, is_Some (t !! n) <-> ~ batch_name n ds /\ marked h n.
Proof.
  intros Hv. revert h. induction Hv as [|o ds (d & -> & Hn) Hv IH]; intros h; cbn.
  { exists (hs_cacheTime h). split; [by destruct h|]. intros n. split; [|by intros [_ ?]].
    split; [|done]. intros Hb. by apply Exists_nil in Hb. }
  destruct (IH (invalidateCache (psd_Name d) h)) as (t & -> & Ht).
  exists t. split; [done|]. intros n. rewrite Ht, marked_invalidate, (marked_batch_cons h). tauto.
Qed.

Lemma hs_delete_all_spec clk ds W v h h' :
  valid_batch ds -> hs_wrote W v h h' ->
  exists h'', hs_delete_all clk ds h' = Some h'' /\ hs_wrote W v h h''
    /\ forall n, marked h'' n -> ~ batch_name n ds /\ marked h' n.
Proof.
  intros Hv. revert clk h'. induction Hv as [|o ds (d & -> & Hn) Hv IH]; intros clk h' Hw; cbn.
  { exists h'. split_and!; [done..|]. intros n Hm. split; [|done].
    intros Hb. by apply Exists_nil in Hb. }
  pose proof Hw as (? & Hic & _).
  pose proof (ca_DeleteScore clk (psd_Name d) (hs_cache h') Hic) as Hd.
  destruct (DeleteScore _ _ (hs_cache h')) as [[r c]|]; [|done]. cbn.
  assert (ca_inv c /\ ca_view c ⊆ ca_view (hs_cache h')) as [? ?] by (by destruct r).
  destruct (IH (clk_skip 1 clk) (hs_set_cache c (invalidateCache (psd_Name d) h')))
    as (h'' & -> & Hw'' & Hm); [by apply hs_wrote_drop|].
  exists h''. split_and!; [done..|]. intros n [Hb [? ?]%marked_invalidate]%Hm.
  rewrite (marked_batch_cons h). tauto.
Qed.

Lemma hs_SetScores_write clk ds h h1 :
  valid_batch ds -> batch_of (ca_storable C) ds -> hs_inv h -> hs_wrote (fun n => batch_name n ds) (foldl set_one (hs_view h) ds) h h1 ->
  agree (marked h1) (ca_view (hs_cache h1)) (hs_view h) ->
  outcome (h ← (if hs_InvalidateOnWrite h1 then hs_delete_all clk ds h1
                else if hs_WriteThrough h1 then
                  h ← (if hs_AsyncWrite h1
                       then Some (hs_set_pending (hs_pending h1 ++ [PendSetMany ds]) h1)
                       else '(_, c) ← SetScores clk ds (hs_cache h1); Some (hs_set_cache c h1));
                  hs_mark_all clk ds h
                else hs_invalidate_all ds h1);
           Some (Ok tt, h))
    (fun _ => hs_effect (foldl set_one (hs_view h) ds) h) (hs_same h).
Proof.
  intros Hv Hca Hi Hw Hold. pose proof Hw as (? & Hic & Has & Hview & Hl & _).
  destruct (hs_InvalidateOnWrite h1); [|destruct (hs_WriteThrough h1)].
  - destruct (hs_delete_all_spec clk ds _ _ _ _ Hv Hw) as (h2 & -> & Hw2 & Hm). cbn.
    eapply hs_wrote_done; [done|]. by intros n [? _]%Hm.
  - rewrite Has. pose proof (ca_SetScores clk ds (hs_cache h1) Hic Hv Hca) as Hs.
    destruct (SetScores _ _ (hs_cache h1)) as [[[[]|] c]|]; cbn in Hs; [|done..].
    destruct Hs as [Hc' Hsub]. cbn [mbind option_bind].
    destruct (hs_mark_all_spec clk ds (hs_set_cache c h1) Hv) as (t & -> & Ht). cbn.
    split_and!; [split|done..]; try done. cbn. change (st_view (hs_primary h1)) with (hs_view h1).
    rewrite Hview. eapply agree_weaken; [apply agree_batch, Hold|done|]. intros n Hn. by apply Ht.
  - destruct (hs_invalidate_all_spec ds h1 Hv) as (t & -> & Ht). cbn.
    split_and!; [split|done..]; try done. destruct Hw as (_ & _ & _ & _ & _ & Ha).
    eapply agree_weaken; [exact Ha|done|]. intros n Hn. by apply Ht.
Qed.

Lemma hs_SetScores_law clk ds h :
  hs_inv h -> valid_batch ds -> batch_of hs_storable ds ->
  outcome (hs_SetScores clk ds h) (fun _ => hs_effect (foldl set_one (hs_view h) ds) h) (hs_same h).
Proof.
  intros Hi Hv [Hst Hca]%hs_storable_batch. unfold hs_SetScores. destruct (zlen ds =? 0) eqn:E.
  { apply Z.eqb_eq, zlen_nil_inv in E as ->. by split_and!. }
  pose proof (SetScores_law clk ds (hs_primary h) (proj1 (hs_inv_primary _ Hi)) Hv Hst) as Hs.
  pose proof (SetScores_idle clk ds (hs_primary h) (proj1 (hs_inv_primary _ Hi)) Hv Hst) as Hat.
  destruct (SetScores _ _ (hs_primary h)) as [[[[]|e] p]|]; cbn in Hs, Hat; [| |done].
  2: { cbn. destruct Hs as (? & _ & ?). by apply hs_set_primary_same. }
  destruct Hs as (Hip & Hv' & Hl). destruct Hi as [[Hp0 Hm] ? ? Ha].
  apply hs_SetScores_write; [done..| |exact Ha].
  split_and!; try done.
  - split; [done|]. cbn. rewrite Hv'. by apply cacheable_batch.
  - unfold hs_view. cbn. rewrite Hv'. apply agree_skip_batch, Ha.
Qed.

#[export] Program Instance HybridStore_laws : ScoreStoreLaws (HybridStore P C) := {|
  st_inv := hs_inv;
  st_view := hs_view;
  st_lat := hs_lat;
  st_storable := hs_storable;
  st_lat_storable := st_lat_storable P
|}.
Next Obligation. intros h Hi. apply st_names, Hi. Qed.
Next Obligation. intros clk n h Hi. by apply hs_GetScore_law. Qed.
Next Obligation.
  intros clk d h Hi Hn Hs. eapply outcome_mono; [by apply hs_SetScore_law|done|].
  intros h' (? & ? & ?). by auto.
Qed.
Next Obligation.
  intros clk ds h Hi Hv Hs. eapply outcome_mono; [by apply hs_SetScores_law|done|].
  cbn. intros h' (? & Hv' & ?). split_and!; [done| |done].
  exists []. split; [apply sublist_nil_l|done].
Qed.
Next Obligation.
  intros clk h Hi. cbn. unfold hs_GetAllScores.
  pose proof (GetAllScores_law clk (hs_primary h) (proj1 (hs_inv_primary _ Hi))) as Hg.
  destruct (GetAllScores clk (hs_primary h)) as [[[l|e] p]|]; cbn in Hg |- *; [| |done].
  - destruct Hg as (Hl & ? & ? & ?). split; [done|]. by apply hs_set_primary_same.
  - destruct Hg as (? & ? & ?). by apply hs_set_primary_same.
Qed.
Next Obligation.
  intros clk n h Hi. eapply outcome_mono; [by apply hs_DeleteScore_law|done|].
  intros h' (? & ? & ?). by auto.
Qed.
Next Obligation.
  intros clk h Hi. cbn. unfold hs_GetLatencyStats.
  pose proof (GetLatencyStats_law clk (hs_primary h) (proj1 (hs_inv_primary _ Hi))) as Hg.
  destruct (store_GetLatencyStats clk (hs_primary h)) as [[[l|e] p]|]; cbn in Hg |- *; [| |done].
  - destruct Hg as (Hl & ? & ? & ?). split; [done|]. by apply hs_set_primary_same.
  - destruct Hg as (? & ? & ?). by apply hs_set_primary_same.
Qed.
Next Obligation.
  intros clk d h Hi Hs. cbn. unfold hs_SetLatencyStats.
  pose proof (SetLatencyStats_law clk d (hs_primary h) (proj1 (hs_inv_primary _ Hi)) Hs) as Hg.
  destruct (store_SetLatencyStats clk _ (hs_primary h)) as [[[l|e] p]|]; cbn in Hg |- *; [| |done].
  - destruct Hg as (? & Hv & ?). split; [by apply hs_set_primary_inv|done].
  - destruct Hg as (? & Hv & ?). split; [by apply hs_set_primary_inv|done].
Qed.

#[export] Instance HybridStore_idle : FailedCallsIdle (HybridStore P C).
Proof.
  split.
  - intros clk d h Hi Hn Hs. eapply outcome_mono; [by apply hs_SetScore_law|done|]. by intros h' (_ & ? & _).
  - intros clk ds h Hi Hv Hs. eapply outcome_mono; [by apply hs_SetScores_law|done|]. by intros h' (_ & ? & _).
  - intros clk n h Hi. eapply outcome_mono; [by apply hs_DeleteScore_law|done|]. by intros h' (_ & ? & _).
  - intros clk d h Hi Hs. cbn. unfold hs_SetLatencyStats.
    pose proof (SetLatencyStats_idle clk d (hs_primary h) (proj1 (hs_inv_primary _ Hi)) Hs) as Hg.
    by destruct (store_SetLatencyStats clk _ (hs_primary h)) as [[[l|e] p]|].
Qed.
End laws.

(** ** Sequences of calls

    Any sequence of calls on a lawful store behaves like the same sequence on
    one map: a read that succeeds returns what the last successful write left
    there. *)

Inductive store_cmd :=
  | CmdGet (name : string)
  | CmdSet (d : ProviderScoreData)
  | CmdSetMany (ds : list (option ProviderScoreData))
  | CmdDelete (name : string)
  | CmdGetAll.

Inductive cmd_ret :=
  | RetScore (d : option ProviderScoreData)
  | RetAll (l : list (option ProviderScoreData))
  | RetNone.

Definition cmd_valid (storable : ProviderScoreData -> Prop) (c : store_cmd) : Prop :=
  match c with
  | CmdSet d => psd_Name d <> ""%string /\ storable d
  | CmdSetMany ds => valid_batch ds /\ batch_of storable ds
  | _ => True
  end.

Definition run_cmd {S} `{ScoreStore S} (clk : clock) (c : store_cmd) (s : S) : go (result cmd_ret * S) :=
  let ret {A} (f : A -> cmd_ret) (o : go (result A * S)) : go (result cmd_ret * S) :=
    '(r, s) ← o; Some (match r with Ok a => Ok (f a) | Err e => Err e end, s) in
  match c with
  | CmdGet n => ret RetScore (GetScore clk n s)
  | CmdSet d => ret (fun _ => RetNone) (SetScore clk (Some d) s)
  | CmdSetMany ds => ret (fun _ => RetNone) (SetScores clk ds s)
  | CmdDelete n => ret (fun _ => RetNone) (DeleteScore clk n s)
  | CmdGetAll => ret RetAll (GetAllScores clk s)
  end.

Fixpoint run_cmds {S} `{ScoreStore S} (l : list (clock * store_cmd)) (s : S)
    : go (list (result cmd_ret) * S) :=
  match l with
  | [] => Some ([], s)
  | (clk, c) :: l =>
      '(r, s) ← run_cmd clk c s;
      '(rs, s) ← run_cmds l s;
      Some (r :: rs, s)
  end.

(** The same command on a map: its effect, and what it may return. *)
Definition spec_cmd (c : store_cmd) (m : score_map) : score_map :=
  match c with
  | CmdGet _ | CmdGetAll => m
  | CmdSet d => <[psd_Name d := d]> m
  | CmdSetMany ds => foldl set_one m ds
  | CmdDelete n => delete n m
  end.

Definition spec_ret (c : store_cmd) (m : score_map) (r : cmd_ret) : Prop :=
  match c with
  | CmdGet n => r = RetScore (m !! n)
  | CmdGetAll => exists l, r = RetAll l /\ all_scores_of l m
  | _ => r = RetNone
  end.

(** What a command that failed may have done: all of its effect, none of it, or
    a part of a batch. *)
Definition failed_cmd (c : store_cmd) (m m' : score_map) : Prop :=
  match c with
  | CmdSetMany ds => exists ds', ds' `sublist_of` ds /\ m' = foldl set_one m ds'
  | _ => m' = m \/ m' = spec_cmd c m
  end.

(** The results [rs] are those of the map [m]; a failed call goes from one map
    to another as [failed] allows. *)
Fixpoint trace_of (failed : store_cmd -> score_map -> score_map -> Prop) (m : score_map)
    (l : list (clock * store_cmd)) (rs : list (result cmd_ret)) : Prop :=
  match l, rs with
  | [], [] => True
  | (_, c) :: l, Ok r :: rs => spec_ret c m r /\ trace_of failed (spec_cmd c m) l rs
  | (_, c) :: l, Err _ :: rs => exists m', failed c m m' /\ trace_of failed m' l rs
  | _, _ => False
  end.

(** A failed call changes nothing. *)
Definition spec_trace : score_map -> list (clock * store_cmd) -> list (result cmd_ret) -> Prop :=
  trace_of (fun _ m m' => m' = m).

Lemma run_cmd_law {S} `{ScoreStoreLaws S} clk c (s : S) :
  st_inv s -> cmd_valid (st_storable S) c ->
  outcome (run_cmd clk c s)
    (fun r s' => st_inv s' /\ spec_ret c (st_view s) r /\ st_view s' = spec_cmd c (st_view s))
    (fun s' => st_inv s' /\ failed_cmd c (st_view s) (st_view s')).
Proof.
  intros Hi Hv. destruct c; cbn in *.
  - pose proof (GetScore_law clk name s Hi) as Hg.
    destruct (GetScore _ _ s) as [[[] ?]|]; cbn in *; [..|done]; destruct_and?; subst; auto.
  - pose proof (SetScore_law clk d s Hi (proj1 Hv) (proj2 Hv)) as Hg.
    destruct (SetScore _ _ s) as [[[] ?]|]; cbn in *; [..|done]; destruct_and?; subst; auto.
  - pose proof (SetScores_law clk ds s Hi (proj1 Hv) (proj2 Hv)) as Hg.
    destruct (SetScores _ _ s) as [[[] ?]|]; cbn in *; [..|done]; destruct_and?; subst; auto.
  - pose proof (DeleteScore_law clk name s Hi) as Hg.
    destruct (DeleteScore _ _ s) as [[[] ?]|]; cbn in *; [..|done]; destruct_and?; subst; auto.
  - pose proof (GetAllScores_law clk s Hi) as Hg.
    destruct (GetAllScores _ s) as [[[l|e] ?]|]; cbn in *; [..|done]; destruct_and?; subst; eauto.
Qed.

Lemma run_cmd_idle {S} `{FailedCallsIdle S} clk c (s : S) :
  st_inv s -> cmd_valid (st_storable S) c ->
  outcome (run_cmd clk c s) (fun _ _ => True) (fun s' => st_view s' = st_view s).
Proof.
  intros Hi Hv. destruct c; cbn in *.
  - pose proof (GetScore_law clk name s Hi) as Hg.
    destruct (GetScore _ _ s) as [[[] ?]|]; cbn in *; [..|done]; tauto.
  - pose proof (SetScore_idle clk d s Hi (proj1 Hv) (proj2 Hv)) as Hg. by destruct (SetScore _ _ s) as [[[] ?]|].
  - pose proof (SetScores_idle clk ds s Hi (proj1 Hv) (proj2 Hv)) as Hg. by destruct (SetScores _ _ s) as [[[] ?]|].
  - pose proof (DeleteScore_idle clk name s Hi) as Hg. by destruct (DeleteScore _ _ s) as [[[] ?]|].
  - pose proof (GetAllScores_law clk s Hi) as Hg.
    destruct (GetAllScores _ s) as [[[] ?]|]; cbn in *; [..|done]; tauto.
Qed.

Lemma run_cmds_trace {S} `{ScoreStoreLaws S} (failed : store_cmd -> score_map -> score_map -> Prop) l (s : S) :
  (forall clk c (s : S), st_inv s -> cmd_valid (st_storable S) c ->
     outcome (run_cmd clk c s) (fun _ _ => True) (fun s' => failed c (st_view s) (st_view s'))) ->
  st_inv s -> Forall (fun p => cmd_valid (st_storable S) p.2) l ->
  exists rs s', run_cmds l s = Some (rs, s') /\ trace_of failed (st_view s) l rs.
Proof.
  intros Hf Hi Hl. revert s Hi. induction Hl as [|[clk c] l Hc Hl IH]; intros s Hi; [by repeat eexists|].
  cbn [run_cmds]. pose proof (run_cmd_law clk c s Hi Hc) as Hr. specialize (Hf clk c s Hi Hc).
  destruct (run_cmd clk c s) as [[[r|e] s1]|]; cbn in Hr, Hf; [| |done].
  - destruct Hr as (Hi1 & Hret & Hv). destruct (IH s1 Hi1) as (rs & s2 & Hrun & Hs). cbn.
    rewrite Hrun. repeat eexists; [done|]. by rewrite <-Hv.
  - destruct Hr as (Hi1 & _). destruct (IH s1 Hi1) as (rs & s2 & Hrun & Hs). cbn.
    rewrite Hrun. repeat eexists; eauto.
Qed.

Lemma run_cmds_refines {S} `{FailedCallsIdle S} l (s : S) :
  st_inv s -> Forall (fun p => cmd_valid (st_storable S) p.2) l ->
  exists rs s', run_cmds l s = Some (rs, s') /\ spec_trace (st_view s) l rs.
Proof. apply run_cmds_trace. intros clk c s0. apply run_cmd_idle. Qed.

Lemma run_cmds_lawful {S} `{ScoreStoreLaws S} l (s : S) :
  st_inv s -> Forall (fun p => cmd_valid (st_storable S) p.2) l ->
  exists rs s', run_cmds l s = Some (rs, s') /\ trace_of failed_cmd (st_view s) l rs.
Proof.
  apply run_cmds_trace. intros clk c s0 Hi Hv. eapply outcome_mono; [by apply run_cmd_law|done|].
  by intros s' [_ ?].
Qed.

(** C6: a hybrid store built from a lawful primary whose failed calls have no
    effect and a cache that may lose entries, for scores that both keep
    exactly, behaves, under synchronous cache writes and for every clock,
    every TTL and each of its three write modes, exactly like one map started
    from the primary's contents: no call panics, each read that returns no
    error returns the last successful write, and a failed call changes
    nothing.  The cache is never visible in the results. *)
Theorem hybrid_refines_map {P C} `{FailedCallsIdle P, ScoreCacheLaws C}
    (config : HybridConfig P C) p c h l :
  hcf_Primary config = Some p -> hcf_Cache config = Some c -> hcf_AsyncWrite config = false ->
  st_inv p -> map_Forall (fun _ => ca_storable C) (st_view p) -> ca_inv c ->
  NewHybridStore config = Ok h ->
  Forall (fun q => cmd_valid (st_storable (HybridStore P C)) q.2) l ->
  exists rs h', run_cmds l h = Some (rs, h') /\ spec_trace (st_view p) l rs.
Proof.
  unfold NewHybridStore. intros -> -> Ha Hp Hca Hc Hh Hl.
  assert (st_inv h /\ hs_primary h = p) as [Hi <-].
  { injection Hh as <-. split; [|done]. constructor; [by split|done|done|]. by intros n d [? Hm]. }
  by destruct (run_cmds_refines (S := HybridStore P C) l h Hi Hl) as (rs & h' & ? & ?); eauto.
Qed.

(** A score to write, for concrete runs. *)
Definition demo_score (name : string) (ops : Z) : ProviderScoreData := {|
  psd_Name := name; psd_BaseScore := f64_of_Z 100; psd_HealthPenalty := f64_zero;
  psd_LatencyPenalty := f64_zero; psd_ErrorPenalty := f64_zero; psd_RateLimitPenalty := f64_zero;
  psd_TotalOperations := ops; psd_SuccessfulOps := ops; psd_FailedOps := 0;
  psd_LastUpdated := zero_time; psd_LastHealthCheck := zero_time; psd_LastOperation := zero_time;
  psd_RecentLatencies := [] |}.

Definition demo_hybrid (async : bool) : HybridConfig MemoryStore MemoryStore := {|
  hcf_Primary := Some NewMemoryStore; hcf_Cache := Some NewMemoryStore; hcf_CacheTTL := 0;
  hcf_WriteThrough := true; hcf_AsyncWrite := async; hcf_InvalidateOnWrite := false |}.

Definition demo_clk : clock := fun n => Z.of_nat n * Second.

Definition demo_hybrid_store (async : bool) : HybridStore MemoryStore MemoryStore :=
  match NewHybridStore (demo_hybrid async) with
  | Ok h => h
  | Err _ => {| hs_primary := NewMemoryStore; hs_cache := NewMemoryStore; hs_CacheTTL := 0;
                hs_WriteThrough := false; hs_AsyncWrite := false; hs_InvalidateOnWrite := false;
                hs_recorder := None; hs_cacheTime := ∅; hs_pending := [] |}
  end.

Lemma hybrid_refines_map_witness :
  let _ := canonical_range in
  let l := [(demo_clk, CmdSet (demo_score "mempool" 1)); (demo_clk, CmdGet "mempool");
            (demo_clk, CmdDelete "mempool"); (demo_clk, CmdGet "mempool")]%string in
  exists rs h', run_cmds l (demo_hybrid_store false) = Some (rs, h')
    /\ spec_trace (st_view NewMemoryStore) l rs.
Proof.
  intros R l. apply (hybrid_refines_map (demo_hybrid false) NewMemoryStore NewMemoryStore); try reflexivity.
  - exact (map_Forall_empty _).
  - exact (map_Forall_empty _).
  - repeat constructor. done.
Defined.

(** Asynchronous cache writes are not coherent: the score is marked fresh
    before the goroutine wrote it, and two goroutines may run in either
    order. *)
Lemma hybrid_async_stale :
  let _ := canonical_range in
  let a := demo_score "mempool" 1 in
  let b := demo_score "mempool" 2 in
  exists h, (h ← ('(_, h) ← hs_SetScore demo_clk (Some a) (demo_hybrid_store true);
                  '(_, h) ← hs_SetScore demo_clk (Some b) h;
                  h ← hs_run_pending demo_clk 1 h; hs_run_pending demo_clk 0 h);
             hs_GetScore demo_clk "mempool" h) = Some (Ok (Some a), h)
    /\ ms_scores (hs_primary h) !! "mempool"%string = Some b.
Proof. intros R a b. eexists. split; vm_compute; reflexivity. Qed.

(** A cache whose writes fail keeps its old entry, and the entry is marked
    fresh all the same: the next read returns the value before the write. *)
Definition failing_cache : ScoreStore MemoryStore :=
  let _ := canonical_range in {|
  GetScore clk n m := Some (mem_GetScore n m, m);
  SetScore clk d m := Some (Err (errOther "cache unavailable"), m);
  GetAllScores clk m := Some (Ok (mem_GetAllScores m), m);
  DeleteScore clk n m := Some (Ok tt, mem_DeleteScore n m);
  SetScores clk ds m := Some (Err (errOther "cache unavailable"), m);
  store_GetLatencyStats clk m := Some (Ok None, m);
  store_SetLatencyStats clk d m := Some (Ok tt, m);
  store_Close m := Some (Ok tt, m);
  store_Ping m := Some (Ok tt, m);
  store_Name m := "memory"%string;
  store_SetRecorder m := m
|}.

Lemma hybrid_cache_error_stale :
  let _ := canonical_range in
  let old := demo_score "mempool" 1 in
  let new := demo_score "mempool" 2 in
  let h0 := hs_set_cache (mem_SetScore (Some old) NewMemoryStore) (demo_hybrid_store false) in
  exists h h', @hs_SetScore _ _ MemoryStore_store failing_cache demo_clk (Some new) h0 = Some (Ok tt, h)
    /\ @hs_GetScore _ _ MemoryStore_store failing_cache demo_clk "mempool" h = Some (Ok (Some old), h').
Proof. intros R old new h0. repeat eexists; vm_compute; reflexivity. Qed.

(** ** InstrumentedStore *)

Record InstrumentedStore (S : Type) := {
  is_inner : S;
  is_recorder : list metric
}.
Arguments is_inner {_} _.
Arguments is_recorder {_} _.

Definition NewInstrumentedStore {S} (inner : S) : InstrumentedStore S :=
  {| is_inner := inner; is_recorder := [] |}.

Section instrumented.
Context {S : Type} `{ScoreStore S}.

(** Every method: read the clock, call, report the duration and the error. *)
Definition instrument {A} (op : string) (clk : clock) (call : clock -> S -> go (result A * S))
    (s : InstrumentedStore S) : go (result A * InstrumentedStore S) :=
  let start := clk 0%nat in
  '(r, inner) ← call (clk_skip 2 clk) (is_inner s);
  let err := match r with Ok _ => None | Err e => Some e end in
  Some (r, {| is_inner := inner;
              is_recorder := is_recorder s
                ++ [RecordStoreOperation (store_Name inner) op (time_sub (clk 1%nat) start) err] |}).

Definition is_forward {A} (call : S -> go (result A * S)) (s : InstrumentedStore S)
    : go (result A * InstrumentedStore S) :=
  '(r, inner) ← call (is_inner s); Some (r, {| is_inner := inner; is_recorder := is_recorder s |}).

#[export] Instance InstrumentedStore_store : ScoreStore (InstrumentedStore S) := {|
  GetScore clk n := instrument "get_score" clk (fun clk => GetScore clk n);
  SetScore clk d := instrument "set_score" clk (fun clk => SetScore clk d);
  GetAllScores clk := instrument "get_all_scores" clk GetAllScores;
  DeleteScore clk n := instrument "delete_score" clk (fun clk => DeleteScore clk n);
  SetScores clk ds := instrument "set_scores" clk (fun clk => SetScores clk ds);
  store_GetLatencyStats clk := instrument "get_latency_stats" clk store_GetLatencyStats;
  store_SetLatencyStats clk d := instrument "set_latency_stats" clk (fun clk => store_SetLatencyStats clk d);
  store_Close := is_forward store_Close;
  store_Ping := is_forward store_Ping;
  store_Name s := ("instrumented/" +:+ store_Name (is_inner s))%string;
  store_SetRecorder s := s
|}.

Lemma instrument_outcome {A} op clk (call : clock -> S -> go (result A * S)) s ok bad :
  outcome (call (clk_skip 2 clk) (is_inner s)) ok bad ->
  outcome (instrument op clk call s) (fun r s' => ok r (is_inner s')) (fun s' => bad (is_inner s')).
Proof. unfold instrument. by destruct (call _ _) as [[[] ?]|]. Qed.

#[export] Program Instance InstrumentedStore_laws `{!ScoreStoreLaws S} : ScoreStoreLaws (InstrumentedStore S) := {|
  st_inv s := st_inv (is_inner s);
  st_view s := st_view (is_inner s);
  st_lat s := st_lat (is_inner s);
  st_storable := st_storable S;
  st_lat_storable := st_lat_storable S
|}.
Next Obligation. intros L s. apply st_names. Qed.
Next Obligation. intros L clk n s Hi. by apply (instrument_outcome _ _ _ _ _ _ (GetScore_law _ n _ Hi)). Qed.
Next Obligation. intros L clk d s Hi Hn Hs. by apply (instrument_outcome _ _ _ _ _ _ (SetScore_law _ d _ Hi Hn Hs)). Qed.
Next Obligation. intros L clk ds s Hi Hn Hs. by apply (instrument_outcome _ _ _ _ _ _ (SetScores_law _ ds _ Hi Hn Hs)). Qed.
Next Obligation. intros L clk s Hi. by apply (instrument_outcome _ _ _ _ _ _ (GetAllScores_law _ _ Hi)). Qed.
Next Obligation. intros L clk n s Hi. by apply (instrument_outcome _ _ _ _ _ _ (DeleteScore_law _ n _ Hi)). Qed.
Next Obligation. intros L clk s Hi. by apply (instrument_outcome _ _ _ _ _ _ (GetLatencyStats_law _ _ Hi)). Qed.
Next Obligation. intros L clk d s Hi Hs. by apply (instrument_outcome _ _ _ _ _ _ (SetLatencyStats_law _ d _ Hi Hs)). Qed.

#[export] Instance InstrumentedStore_idle `{!ScoreStoreLaws S, !FailedCallsIdle S} :
  FailedCallsIdle (InstrumentedStore S).
Proof.
  split.
  - intros clk d s Hi Hn Hs. exact (instrument_outcome _ _ _ _ _ _ (SetScore_idle (S := S) _ d _ Hi Hn Hs)).
  - intros clk ds s Hi Hv Hs. exact (instrument_outcome _ _ _ _ _ _ (SetScores_idle (S := S) _ ds _ Hi Hv Hs)).
  - intros clk n s Hi. exact (instrument_outcome _ _ _ _ _ _ (DeleteScore_idle (S := S) _ n _ Hi)).
  - intros clk d s Hi Hs. exact (instrument_outcome _ _ _ _ _ _ (SetLatencyStats_idle (S := S) _ d _ Hi Hs)).
Qed.
End instrumented.

(** ** CompositePenaltyStore *)

Record CompositePenaltyStore (P C : Type) := {
  cp_primary : P;
  cp_cache : C;
  (** records handed to the background goroutines *)
  cp_pending : list PenaltyRecordData
}.
Arguments cp_primary {_ _} _.
Arguments cp_cache {_ _} _.
Arguments cp_pending {_ _} _.

Section composite.
Context {P C : Type} `{PenaltyHistoryStore P, PenaltyHistoryStore C}.
Implicit Types c : CompositePenaltyStore P C.

Definition NewCompositePenaltyStore (primary : P) (cache : C) : CompositePenaltyStore P C :=
  {| cp_primary := primary; cp_cache := cache; cp_pending := [] |}.

Definition cp_Append (r : PenaltyRecordData) c : result unit * CompositePenaltyStore P C :=
  let '(res, p) := pen_Append r (cp_primary c) in
  match res with
  | Err e => (Err e, {| cp_primary := p; cp_cache := cp_cache c; cp_pending := cp_pending c |})
  | Ok _ => (Ok tt, {| cp_primary := p; cp_cache := cp_cache c; cp_pending := cp_pending c ++ [r] |})
  end.

Definition cp_GetRecent (name : string) (limit : Z) c
    : result (list PenaltyRecordData) * CompositePenaltyStore P C :=
  let '(r, ca) := pen_GetRecent name limit (cp_cache c) in
  let c := {| cp_primary := cp_primary c; cp_cache := ca; cp_pending := cp_pending c |} in
  let fallback :=
    let '(r, p) := pen_GetRecent name limit (cp_primary c) in
    (r, {| cp_primary := p; cp_cache := cp_cache c; cp_pending := cp_pending c |}) in
  match r with
  | Ok records => if 0 <? zlen records then (Ok records, c) else fallback
  | Err _ => fallback
  end.

Definition cp_PurgeOld (w : Duration) c : result unit * CompositePenaltyStore P C :=
  let '(r, p) := pen_PurgeOld w (cp_primary c) in
  (r, {| cp_primary := p; cp_cache := cp_cache c; cp_pending := cp_pending c |}).

Definition cp_Ping c : result unit * CompositePenaltyStore P C :=
  let '(r, p) := pen_Ping (cp_primary c) in
  let c := {| cp_primary := p; cp_cache := cp_cache c; cp_pending := cp_pending c |} in
  match r with
  | Err e => (Err e, c)
  | Ok _ => let '(r, ca) := pen_Ping (cp_cache c) in
            (r, {| cp_primary := cp_primary c; cp_cache := ca; cp_pending := cp_pending c |})
  end.

Definition cp_Close c : result unit * CompositePenaltyStore P C :=
  let '(primaryErr, p) := pen_Close (cp_primary c) in
  let '(cacheErr, ca) := pen_Close (cp_cache c) in
  (match primaryErr with Err e => Err e | Ok _ => cacheErr end,
   {| cp_primary := p; cp_cache := ca; cp_pending := cp_pending c |}).

#[export] Instance CompositePenaltyStore_store : PenaltyHistoryStore (CompositePenaltyStore P C) := {|
  pen_Append := cp_Append;
  pen_GetRecent := cp_GetRecent;
  pen_PurgeOld := cp_PurgeOld;
  pen_Ping := cp_Ping;
  pen_Close := cp_Close;
  pen_Name c := ("composite_penalty(" +:+ pen_Name (cp_primary c) +:+ "+"
                 +:+ pen_Name (cp_cache c) +:+ ")")%string
|}.
End composite.
