(* ===== verification/StoreConvert.v ===== *)
(** * Scores as store data

    [scoring/store_convert.go]: what of a score is persisted, and what a load
    brings back.  A store keeps everything the effective score depends on; the
    static priority, the penalty history and the latency window size are not
    stored.  Window sizes come from a validated configuration and are positive
    (a negative capacity would panic). *)

From S2P Require Import Prelude GoInt GoFloat GoString Penalties Scorer Latency Store.

Definition ToStoreData (ps : ProviderScore) : ProviderScoreData := {|
  psd_Name := ps_Name ps;
  psd_BaseScore := ps_BaseScore ps;
  psd_HealthPenalty := ps_HealthPenalty ps;
  psd_LatencyPenalty := ps_LatencyPenalty ps;
  psd_ErrorPenalty := ps_ErrorPenalty ps;
  psd_RateLimitPenalty := ps_RateLimitPenalty ps;
  psd_TotalOperations := ps_TotalOperations ps;
  psd_SuccessfulOps := ps_SuccessfulOps ps;
  psd_FailedOps := ps_FailedOps ps;
  psd_LastUpdated := ps_LastUpdated ps;
  psd_LastHealthCheck := ps_LastHealthCheck ps;
  psd_LastOperation := ps_LastOperation ps;
  psd_RecentLatencies := ps_RecentLatencies ps
|}.

(** The fields the literal leaves out have their zero value. *)
Definition FromStoreData (data : ProviderScoreData) (latencyWindowSize historySize : Z) : ProviderScore := {|
  ps_Name := psd_Name data;
  ps_Priority := 0;
  ps_BaseScore := psd_BaseScore data;
  ps_HealthPenalty := psd_HealthPenalty data;
  ps_LatencyPenalty := psd_LatencyPenalty data;
  ps_ErrorPenalty := psd_ErrorPenalty data;
  ps_RateLimitPenalty := psd_RateLimitPenalty data;
  ps_LastUpdated := psd_LastUpdated data;
  ps_LastHealthCheck := psd_LastHealthCheck data;
  ps_LastOperation := psd_LastOperation data;
  ps_TotalOperations := psd_TotalOperations data;
  ps_SuccessfulOps := psd_SuccessfulOps data;
  ps_FailedOps := psd_FailedOps data;
  ps_RecentLatencies := psd_RecentLatencies data;
  ps_LatencyWindowSize := latencyWindowSize;
  ps_history := newPenaltyHistory historySize
|}.

(** Providers without samples are left out. *)
Definition LatencyTrackerToStoreData (now : Time) (lt : LatencyTracker) : LatencyStatsData := {|
  lsd_ProviderSamples := filter (fun '(_, samples) => 0 < zlen samples) (lt_samples lt);
  lsd_LastUpdated := now
|}.

Definition LatencyTrackerFromStoreData (data : option LatencyStatsData) (windowSize : Z) : LatencyTracker :=
  match data with
  | None => NewLatencyTracker windowSize
  | Some data =>
      let lt := NewLatencyTracker windowSize in
      {| lt_samples := filter (fun '(_, samples) => 0 < zlen samples) (lsd_ProviderSamples data);
         lt_windowSize := lt_windowSize lt; lt_globalStats := lt_globalStats lt;
         lt_statsDirty := lt_statsDirty lt |}
  end.

Section convert.
Context `{MapRange}.

Definition AllScoresToStoreData (scores : gmap string ProviderScore) : list (option ProviderScoreData) :=
  (fun '(_, ps) => Some (ToStoreData ps)) <$> range_kv scores.
End convert.

(** The loop of [AllScoresFromStoreData], and of the engine's load: unnamed
    entries are skipped, later entries win. *)
Definition load_scores (latencyWindowSize historySize : Z) (scores : gmap string ProviderScore)
    (data : list (option ProviderScoreData)) : gmap string ProviderScore :=
  foldl (fun scores d =>
    match d with
    | Some d => if bool_decide (psd_Name d = ""%string) then scores
                else <[psd_Name d := FromStoreData d latencyWindowSize historySize]> scores
    | None => scores
    end) scores data.

Definition AllScoresFromStoreData (data : list (option ProviderScoreData)) (latencyWindowSize historySize : Z)
    : gmap string ProviderScore :=
  load_scores latencyWindowSize historySize ∅ data.

(** ** Properties *)

Lemma ToStoreData_FromStoreData d w h : ToStoreData (FromStoreData d w h) = d.
Proof. by destruct d. Qed.

Lemma FromStoreData_EffectiveScore ps w h :
  EffectiveScore (FromStoreData (ToStoreData ps) w h) = EffectiveScore ps.
Proof. done. Qed.

Lemma load_scores_lookup w h scores ds n :
  valid_batch ds ->
  load_scores w h scores ds !! n
  = match foldl set_one ∅ ds !! n with
    | Some d => Some (FromStoreData d w h)
    | None => scores !! n
    end.
Proof.
  intros Hv. unfold load_scores. induction ds as [|o ds IH] using rev_ind; [done|].
  apply Forall_app in Hv as [Hv1 Hv2]. rewrite !foldl_app. cbn [foldl].
  apply Forall_singleton in Hv2 as (d & -> & Hn). rewrite bool_decide_eq_false_2 by done.
  cbn [set_one]. destruct (decide (n = psd_Name d)) as [->|Hne].
  - by rewrite !lookup_insert_eq.
  - rewrite !lookup_insert_ne by done. by apply IH.
Qed.

(** A key is what the last score of its name in the batch says. *)
Lemma foldl_set_one_lookup m ds n :
  foldl set_one m ds !! n = m !! n /\ (forall d, Some d ∈ ds -> psd_Name d <> n)
  \/ exists d, Some d ∈ ds /\ psd_Name d = n /\ foldl set_one m ds !! n = Some d.
Proof.
  induction ds as [|o ds IH] using rev_ind.
  { left. split; [done|]. by intros d ?%not_elem_of_nil. }
  rewrite foldl_app. cbn [foldl]. destruct o as [d|]; cbn [set_one].
  - destruct (decide (psd_Name d = n)) as [<-|Hne].
    + right. exists d. split_and!; [set_solver|done|by rewrite lookup_insert_eq].
    + rewrite lookup_insert_ne by done. destruct IH as [[-> Hn]|(d' & Hin & Hn & ->)].
      * left. split; [done|]. intros d' [?|[= ->]%list_elem_of_singleton]%elem_of_app; [by apply Hn|done].
      * right. exists d'. split_and!; [set_solver|done|done].
  - destruct IH as [[-> Hn]|(d' & Hin & Hn & ->)].
    + left. split; [done|]. intros d' [?|?%list_elem_of_singleton]%elem_of_app; [by apply Hn|done].
    + right. exists d'. split_and!; [set_solver|done|done].
Qed.

(** The scores of a map, in a batch, are that map. *)
Lemma foldl_set_one_all (m : score_map) ds : names_ok m -> all_scores_of ds m -> foldl set_one ∅ ds = m.
Proof.
  intros Hm Hall. assert (forall d, Some d ∈ ds <-> m !! psd_Name d = Some d) as Hin.
  { intros d. rewrite (Hall (Some d)), list_elem_of_fmap. split.
    - intros (d' & [= <-] & ([k e] & -> & Hk%elem_of_map_to_list)%list_elem_of_fmap). by apply Hm in Hk as Hke; destruct Hke as [<- _].
    - intros Hd. exists d. split; [done|]. apply list_elem_of_fmap. exists (psd_Name d, d). split; [done|]. by apply elem_of_map_to_list. }
  apply map_eq. intros n. destruct (foldl_set_one_lookup ∅ ds n) as [[-> Hn]|(d & Hd & <- & ->)].
  - rewrite lookup_empty. destruct (m !! n) as [d|] eqn:E; [|done]. apply Hm in E as Hk. destruct Hk as [<- _].
    exfalso. by eapply Hn; [apply Hin|].
  - symmetry. by apply Hin.
Qed.

Lemma all_scores_perm ds (m : score_map) : ds ≡ₚ Some <$> (map_to_list m).*2 -> all_scores_of ds m.
Proof. intros Hp o. by rewrite Hp. Qed.
