(* ===== verification/Engine.v ===== *)
(** * The scoring engine

    [scoring/engine.go]: registration, the handling of events, the latency
    comparison, the ranking, the background processes and the persistence.

    The engine is generic in its score store [S] and its penalty history store
    [P].  A penalty record handed to a goroutine ([persistPenalty]) waits in
    [eng_pending] until [run_pending_penalty].  The calls to the metrics
    recorder are logged in [eng_metrics].  The score map of the decay manager is
    the engine's own. *)

From Stdlib Require Import Floats.SpecFloat.
From stdpp Require Import pretty.
From S2P Require Import Prelude GoInt GoFloat GoString Sorting Penalties Scorer ScoringConfig.
From S2P Require Import Latency Events Decay Store Hybrid StoreConvert.

(** ** Formatting *)

(** The decimal digits of an integer, [%d]. *)
Definition fmt_int (z : Z) : string := pretty z.

(** [%.1f]: the exact value rounded to one decimal, ties to even. *)
Definition fmt_f1 (x : f64) : string :=
  match x with
  | S754_nan => "NaN"
  | S754_infinity s => if s then "-Inf" else "+Inf"
  | S754_zero s => if s then "-0.0" else "0.0"
  | S754_finite s m e =>
      let n := Z.pos m * 10 in
      let q := if 0 <=? e then n * 2 ^ e
               else
                 let d := 2 ^ (- e) in
                 let q := n / d in
                 let r := n mod d in
                 if (2 * r >? d) || ((2 * r =? d) && Z.odd q) then q + 1 else q in
      ((if s then "-" else "") +:+ fmt_int (q / 10) +:+ "." +:+ fmt_int (q mod 10))%string
  end.

(** The reason recorded for a latency penalty. *)
Definition slow_reason (ratio : f64) (providerP95ms globalP95ms : Z) : string :=
  (fmt_f1 ratio +:+ "x slower than peers (provider P95: " +:+ fmt_int providerP95ms
   +:+ "ms, global P95: " +:+ fmt_int globalP95ms +:+ "ms)")%string.

Lemma append_cons_r_ne a c b : (a +:+ String c b)%string <> ""%string.
Proof. by destruct a. Qed.

Lemma slow_reason_nonempty r p g : slow_reason r p g <> ""%string.
Proof. apply append_cons_r_ne. Qed.

(** [Duration.Seconds()]. *)
Definition duration_seconds (d : Duration) : f64 :=
  f64_add (f64_of_Z (Z.quot d Second)) (f64_div (f64_of_Z (Z.rem d Second)) (f64_of_Z 1000000000)).

(** [math.Pow], of which nothing is assumed. *)
Class GoMath := math_Pow : f64 -> f64 -> f64.

(** ** State *)

(** The configured store, wrapped when a metrics recorder is configured. *)
Inductive engine_store (S : Type) :=
  | PlainStore (s : S)
  | WrappedStore (s : InstrumentedStore S).
Arguments PlainStore {_} _.
Arguments WrappedStore {_} _.

Record Engine (S P : Type) := {
  eng_config : ScoringConfig;
  eng_scores : gmap string ProviderScore;
  eng_latencyTracker : LatencyTracker;
  eng_decayManager : DecayManager;
  eng_store : option (engine_store S);
  eng_penaltyHistoryStore : option P;
  eng_metrics : list metric;
  eng_cleanup : option Duration;
  eng_pending : list PenaltyRecordData;
  eng_started : bool
}.
Arguments eng_config {_ _} _.
Arguments eng_scores {_ _} _.
Arguments eng_latencyTracker {_ _} _.
Arguments eng_decayManager {_ _} _.
Arguments eng_store {_ _} _.
Arguments eng_penaltyHistoryStore {_ _} _.
Arguments eng_metrics {_ _} _.
Arguments eng_cleanup {_ _} _.
Arguments eng_pending {_ _} _.
Arguments eng_started {_ _} _.

Section engine.
Context {S P : Type}.

(** Field assignment. *)
Definition set_eng_config (v : ScoringConfig) (e : Engine S P) : Engine S P :=
  {| eng_config := v; eng_scores := eng_scores e; eng_latencyTracker := eng_latencyTracker e;
     eng_decayManager := eng_decayManager e; eng_store := eng_store e; eng_penaltyHistoryStore
     := eng_penaltyHistoryStore e; eng_metrics := eng_metrics e; eng_cleanup := eng_cleanup e;
     eng_pending := eng_pending e; eng_started := eng_started e |}.
Definition set_eng_scores (v : gmap string ProviderScore) (e : Engine S P) : Engine S P :=
  {| eng_config := eng_config e; eng_scores := v; eng_latencyTracker := eng_latencyTracker e;
     eng_decayManager := eng_decayManager e; eng_store := eng_store e; eng_penaltyHistoryStore
     := eng_penaltyHistoryStore e; eng_metrics := eng_metrics e; eng_cleanup := eng_cleanup e;
     eng_pending := eng_pending e; eng_started := eng_started e |}.
Definition set_eng_latencyTracker (v : LatencyTracker) (e : Engine S P) : Engine S P :=
  {| eng_config := eng_config e; eng_scores := eng_scores e; eng_latencyTracker := v;
     eng_decayManager := eng_decayManager e; eng_store := eng_store e; eng_penaltyHistoryStore
     := eng_penaltyHistoryStore e; eng_metrics := eng_metrics e; eng_cleanup := eng_cleanup e;
     eng_pending := eng_pending e; eng_started := eng_started e |}.
Definition set_eng_decayManager (v : DecayManager) (e : Engine S P) : Engine S P :=
  {| eng_config := eng_config e; eng_scores := eng_scores e; eng_latencyTracker :=
     eng_latencyTracker e; eng_decayManager := v; eng_store := eng_store e;
     eng_penaltyHistoryStore := eng_penaltyHistoryStore e; eng_metrics := eng_metrics e;
     eng_cleanup := eng_cleanup e; eng_pending := eng_pending e; eng_started := eng_started e
     |}.
Definition set_eng_store (v : option (engine_store S)) (e : Engine S P) : Engine S P :=
  {| eng_config := eng_config e; eng_scores := eng_scores e; eng_latencyTracker :=
     eng_latencyTracker e; eng_decayManager := eng_decayManager e; eng_store := v;
     eng_penaltyHistoryStore := eng_penaltyHistoryStore e; eng_metrics := eng_metrics e;
     eng_cleanup := eng_cleanup e; eng_pending := eng_pending e; eng_started := eng_started e
     |}.
Definition set_eng_penaltyHistoryStore (v : option P) (e : Engine S P) : Engine S P :=
  {| eng_config := eng_config e; eng_scores := eng_scores e; eng_latencyTracker :=
     eng_latencyTracker e; eng_decayManager := eng_decayManager e; eng_store := eng_store e;
     eng_penaltyHistoryStore := v; eng_metrics := eng_metrics e; eng_cleanup := eng_cleanup e;
     eng_pending := eng_pending e; eng_started := eng_started e |}.
Definition set_eng_metrics (v : list metric) (e : Engine S P) : Engine S P :=
  {| eng_config := eng_config e; eng_scores := eng_scores e; eng_latencyTracker :=
     eng_latencyTracker e; eng_decayManager := eng_decayManager e; eng_store := eng_store e;
     eng_penaltyHistoryStore := eng_penaltyHistoryStore e; eng_metrics := v; eng_cleanup :=
     eng_cleanup e; eng_pending := eng_pending e; eng_started := eng_started e |}.
Definition set_eng_cleanup (v : option Duration) (e : Engine S P) : Engine S P :=
  {| eng_config := eng_config e; eng_scores := eng_scores e; eng_latencyTracker :=
     eng_latencyTracker e; eng_decayManager := eng_decayManager e; eng_store := eng_store e;
     eng_penaltyHistoryStore := eng_penaltyHistoryStore e; eng_metrics := eng_metrics e;
     eng_cleanup := v; eng_pending := eng_pending e; eng_started := eng_started e |}.
Definition set_eng_pending (v : list PenaltyRecordData) (e : Engine S P) : Engine S P :=
  {| eng_config := eng_config e; eng_scores := eng_scores e; eng_latencyTracker :=
     eng_latencyTracker e; eng_decayManager := eng_decayManager e; eng_store := eng_store e;
     eng_penaltyHistoryStore := eng_penaltyHistoryStore e; eng_metrics := eng_metrics e;
     eng_cleanup := eng_cleanup e; eng_pending := v; eng_started := eng_started e |}.
Definition set_eng_started (v : bool) (e : Engine S P) : Engine S P :=
  {| eng_config := eng_config e; eng_scores := eng_scores e; eng_latencyTracker :=
     eng_latencyTracker e; eng_decayManager := eng_decayManager e; eng_store := eng_store e;
     eng_penaltyHistoryStore := eng_penaltyHistoryStore e; eng_metrics := eng_metrics e;
     eng_cleanup := eng_cleanup e; eng_pending := eng_pending e; eng_started := v |}.

Implicit Types e : Engine S P.

Definition eng_record (l : list metric) e : Engine S P := set_eng_metrics (eng_metrics e ++ l) e.

(** A method call on the score of a registered provider. *)
Definition on_score (name : string) (f : ProviderScore -> ProviderScore) e : Engine S P :=
  set_eng_scores (alter f name (eng_scores e)) e.

(** ** Registration *)

Definition RegisterProvider (name : string) (priority : Z) (now : Time) e : Engine S P :=
  match eng_scores e !! name with
  | Some _ => e
  | None =>
      let score := NewProviderScore name priority (sc_LatencyWindowSize (eng_config e))
                     (sc_PenaltyHistorySize (eng_config e)) now in
      set_eng_scores (<[name:=score]> (eng_scores e)) e
  end.

Definition UnregisterProvider (name : string) e : Engine S P :=
  set_eng_scores (delete name (eng_scores e)) e.

Definition eng_HasProvider (name : string) e : bool := bool_decide (is_Some (eng_scores e !! name)).

Definition GetProviderCount e : Z := Z.of_nat (size (eng_scores e)).

(** ** Events *)

Definition stringifyMetadata (m : gmap string string) : option (gmap string string) :=
  if (size m =? 0)%nat then None else Some m.

Definition persistPenalty (provider cat reason : string) (amount : f64) (ts : Time)
    (metadata : option (gmap string string)) e : Engine S P :=
  match eng_penaltyHistoryStore e with
  | None => e
  | Some _ =>
      let record := {| prd_ProviderName := provider; prd_Category := cat; prd_Reason := reason;
                       prd_Amount := amount; prd_CreatedAt := ts; prd_Metadata := metadata |} in
      set_eng_pending (eng_pending e ++ [record]) e
  end.

Context `{GoArch, MapRange}.

(** The slowness above the threshold and the diagnostic reason. *)
Definition slowness_penalty (config : ScoringConfig) (slownessFactor : f64)
    (globalStats providerStats : LatencyStats) : f64 * string :=
  if f64_ltb slownessFactor (sc_SlowThresholdStdDev config) then (f64_zero, ""%string)
  else
    let slownessFactor := f64_sub slownessFactor (sc_SlowThresholdStdDev config) in
    let ratio := if 0 <? ls_P95 globalStats
                 then f64_div (f64_of_Z (ls_P95 providerStats)) (f64_of_Z (ls_P95 globalStats))
                 else f64_zero in
    let globalP95ms := if 0 <? ls_P95 globalStats then duration_ms (ls_P95 globalStats) else 0 in
    let providerP95ms := if 0 <? ls_P95 providerStats then duration_ms (ls_P95 providerStats) else 0 in
    (slownessFactor, slow_reason ratio providerP95ms globalP95ms).

(** [updateLatencyPenalty], with the clock readings it takes. *)
Definition updateLatencyPenalty (providerName : string) (clk : clock) e : go (Engine S P) :=
  '(globalStats, lt) ← GetGlobalStats (clk 0%nat) (eng_latencyTracker e);
  let e := set_eng_latencyTracker lt e in
  if ls_SampleCount globalStats <? sc_MinSamplesForLatencyComparison (eng_config e) then Some e
  else
    providerStats ← lt_GetProviderStats providerName (eng_latencyTracker e);
    '(slownessFactor, lt) ← GetProviderSlownessFactor providerName (clk 1%nat) (eng_latencyTracker e);
    let e := set_eng_latencyTracker lt e in
    let '(slownessFactor, reason) := slowness_penalty (eng_config e) slownessFactor globalStats providerStats in
    match eng_scores e !! providerName with
    | None => Some e
    | Some _ =>
        let e := on_score providerName
          (UpdateLatencyPenalty slownessFactor (sc_SlowResponsePenalty (eng_config e)) reason (clk 2%nat)) e in
        if f64_gtb slownessFactor f64_zero && negb (bool_decide (reason = ""%string)) then
          let penalty := f64_mul slownessFactor (sc_SlowResponsePenalty (eng_config e)) in
          Some (persistPenalty providerName PenaltyCategoryLatency reason penalty (clk 3%nat) None e)
        else Some e
    end.

(** The [switch event.Type]: the penalty on the score and its persistent
    record.  [now] and [now2] are the readings the score methods take. *)
Definition apply_event (event : ScoreEvent) (ts now now2 : Time) e : Engine S P :=
  let c := eng_config e in
  let p := ev_Provider event in
  let meta := stringifyMetadata (ev_Metadata event) in
  let health (reason : string) (amount : f64) (m : option (gmap string string)) :=
    persistPenalty p PenaltyCategoryHealth reason amount ts m
      (on_score p (AddHealthPenalty amount (sc_MaxPenalty c) reason m now) e) in
  let ratelimit (reason : string) (m : option (gmap string string)) :=
    persistPenalty p PenaltyCategoryRateLimit reason (sc_RateLimitPenalty c) ts m
      (on_score p (AddRateLimitPenalty (sc_RateLimitPenalty c) (sc_MaxPenalty c) reason m now) e) in
  match ev_Type event with
  | EventHealthCheckFailed => health "health check failed"%string (sc_HealthCheckFailPenalty c) None
  | EventHealthCheck429 => ratelimit "rate limit during health check (HTTP 429)"%string None
  | EventHealthCheckAuthFail => health "authentication failure (HTTP 401/403)"%string (sc_AuthFailurePenalty c) None
  | EventOperationAuthFail => health "operation authentication failure"%string (sc_AuthFailurePenalty c) meta
  | EventHealthCheckTimeout => health "health check timed out"%string (sc_TimeoutPenalty c) None
  | EventOperationFailed =>
      let reason := match ev_Error event with Some err => err_msg err | None => "operation failed"%string end in
      persistPenalty p PenaltyCategoryError reason (sc_OperationFailPenalty c) ts meta
        (on_score p (AddErrorPenalty (sc_OperationFailPenalty c) (sc_MaxPenalty c) reason meta now) e)
  | EventRateLimited => ratelimit "rate limited (HTTP 429)"%string meta
  | EventOperationSuccess => on_score p (RecordSuccess (sc_SuccessBonus c) now now2) e
  | EventSlowResponse => e
  end.

Definition RecordEvent (event : ScoreEvent) (clk : clock) e : go (Engine S P) :=
  if negb (sc_Enabled (eng_config e)) then Some e
  else
    match eng_scores e !! ev_Provider event with
    | None => Some e
    | Some _ =>
        let p := ev_Provider event in
        e ← (if 0 <? ev_ResponseTime event then
               let e := set_eng_latencyTracker
                          (lt_RecordLatency p (ev_ResponseTime event) (eng_latencyTracker e)) e in
               let e := on_score p (RecordLatency (ev_ResponseTime event)) e in
               let e := eng_record [RecordLatencyMetric p (event_string (ev_Type event)) (ev_ResponseTime event)] e in
               updateLatencyPenalty p clk e
             else Some e);
        let success := match ev_Error event with None => true | Some _ => false end in
        let ts := if time_is_zero (ev_Timestamp event) then clk 4%nat else ev_Timestamp event in
        let e := apply_event event ts (clk 5%nat) (clk 6%nat) e in
        let score := match eng_scores e !! p with Some ps => EffectiveScore ps | None => f64_zero end in
        Some (eng_record [RecordEventMetric p (event_string (ev_Type event)) success;
                          RecordEffectiveScore p score] e)
    end.

(** ** Queries *)

Definition GetEffectiveScore (providerName : string) e : f64 :=
  match eng_scores e !! providerName with
  | None => f64_zero
  | Some score => EffectiveScore score
  end.

Definition eng_GetProviderStats (providerName : string) e : option ProviderScoreStats :=
  match eng_scores e !! providerName with
  | None => None
  | Some score => Some (GetStats score)
  end.

Definition GetAllProviderStats e : list ProviderScoreStats :=
  (fun '(_, score) => GetStats score) <$> range_kv (eng_scores e).

(** [GetSortedProviders]: the exchange sort by effective score, descending,
    and the ranks it reports. *)
Definition score_below (a b : string * f64) : bool := f64_ltb a.2 b.2.

Definition ranked_providers e : list (string * f64) :=
  exchange_sort score_below ((fun '(name, score) => (name, EffectiveScore score)) <$> range_kv (eng_scores e)).

Definition GetSortedProviders e : list string * Engine S P :=
  let providers := ranked_providers e in
  let names := providers.*1 in
  (names,
   eng_record (imap (fun i name => RecordProviderRank name (Z.of_nat i + 1) (zlen providers)) names) e).

Definition GetLatencyStats (now : Time) e : go (LatencyStats * Engine S P) :=
  '(s, lt) ← GetGlobalStats now (eng_latencyTracker e); Some (s, set_eng_latencyTracker lt e).

Definition GetProviderLatencyStats (providerName : string) e : go LatencyStats :=
  lt_GetProviderStats providerName (eng_latencyTracker e).

Context `{GoMath}.

Definition computeDecayFactor (ts : Time) (decayRate : f64) (decayInterval : Duration) (now : Time) : f64 :=
  if (decayInterval <=? 0) || f64_leb decayRate f64_zero then f64_one
  else
    let elapsed := time_sub now ts in
    if elapsed <=? 0 then f64_one
    else
      let intervals := f64_div (duration_seconds elapsed) (duration_seconds decayInterval) in
      let f := math_Pow (f64_sub f64_one decayRate) intervals in
      let f := if f64_ltb f f64_zero then f64_zero else f in
      if f64_gtb f f64_one then f64_one else f.

Definition pr_set_DecayFactor (f : f64) (r : PenaltyRecord) : PenaltyRecord :=
  {| pr_Timestamp := pr_Timestamp r; pr_Category := pr_Category r; pr_Reason := pr_Reason r;
     pr_Amount := pr_Amount r; pr_Metadata := pr_Metadata r; pr_DecayFactor := f |}.

(** The two [continue] guards of the query loop. *)
Definition penalty_selected (since : Time) (category : string) (r : PenaltyRecord) : bool :=
  (time_is_zero since || negb (time_before (pr_Timestamp r) since))
  && (bool_decide (category = ""%string) || bool_decide (pr_Category r = category)).

(** [limit] after defaulting and capping. *)
Definition history_limit (limit : Z) : Z :=
  let limit := if limit <=? 0 then 50 else limit in
  if 200 <? limit then 200 else limit.

(** The query loop; [now k] is the reading at the [k]-th selected record. *)
Fixpoint history_loop (limit : Z) (since : Time) (category : string) (config : ScoringConfig)
    (clk : clock) (all out : list PenaltyRecord) : list PenaltyRecord :=
  match all with
  | [] => out
  | r :: all =>
      if limit <=? zlen out then out
      else if penalty_selected since category r then
        let r := pr_set_DecayFactor (computeDecayFactor (pr_Timestamp r) (sc_DecayRate config)
                   (sc_DecayInterval config) (clk (length out))) r in
        history_loop limit since category config clk all (out ++ [r])
      else history_loop limit since category config clk all out
  end.

Definition GetPenaltyHistory (name : string) (limit : Z) (since : Time) (category : string)
    (clk : clock) e : option (list PenaltyRecord) :=
  match eng_scores e !! name with
  | None => None
  | Some score =>
      let all := reverse (ph_snapshot (ps_history score)) in
      Some (history_loop (history_limit limit) since category (eng_config e) clk all [])
  end.

(** ** Configuration *)

Definition Reset (clk : string -> Time) e : Engine S P :=
  let reset (name : string) (score : ProviderScore) :=
    Some (set_ps_history (newPenaltyHistory (Z.of_nat (ph_cap (ps_history score))))
      (set_ps_LastUpdated (clk name)
      (set_ps_RecentLatencies []
      (set_ps_FailedOps 0
      (set_ps_SuccessfulOps 0
      (set_ps_TotalOperations 0
      (set_ps_RateLimitPenalty f64_zero
      (set_ps_ErrorPenalty f64_zero
      (set_ps_LatencyPenalty f64_zero
      (set_ps_HealthPenalty f64_zero score)))))))))) in
  set_eng_latencyTracker (lt_Reset (eng_latencyTracker e))
    (set_eng_scores (map_imap reset (eng_scores e)) e).

Definition eng_UpdateConfig (opts : list ScoringOption) e : go (Engine S P) :=
  let config := Validate (apply_options opts (eng_config e)) in
  dm ← dm_UpdateConfig config (eng_decayManager e);
  Some (set_eng_decayManager dm (set_eng_config config e)).

Definition IsEnabled e : bool := sc_Enabled (eng_config e).

Definition SetEnabled (enabled : bool) e : Engine S P :=
  set_eng_config (set_sc_Enabled enabled (eng_config e)) e.

(** A tick of the decay goroutine. *)
Definition decay_tick (clk : string -> Time) e : Engine S P :=
  set_eng_scores (applyDecay clk (eng_decayManager e) (eng_scores e)) e.
End engine.
