(* ===== verification/EngineStore.v ===== *)
(** * Lifecycle and persistence of the engine

    The rest of [scoring/engine.go]: construction, start and stop with the
    penalty history warm-up, loading from and saving to the configured score
    store, the penalty goroutines. *)

From S2P Require Import Prelude GoInt GoFloat GoString Penalties Scorer ScoringConfig Latency.
From S2P Require Import Decay Store Hybrid StoreConvert Engine.

Section lifecycle.
Context {S P : Type} `{ScoreStore S, PenaltyHistoryStore P, MapRange}.
Implicit Types e : Engine S P.

(** Method calls on the configured store. *)
Definition store_call {A} (plain : S -> go (result A * S))
    (wrapped : InstrumentedStore S -> go (result A * InstrumentedStore S)) (st : engine_store S)
    : go (result A * engine_store S) :=
  match st with
  | PlainStore s => '(r, s) ← plain s; Some (r, PlainStore s)
  | WrappedStore s => '(r, s) ← wrapped s; Some (r, WrappedStore s)
  end.

(** [loadFromStoreUnsafe]. *)
Definition LoadFromStore (clk : clock) e : go (result unit * Engine S P) :=
  match eng_store e with
  | None => Some (Ok tt, e)
  | Some st =>
      '(r, st) ← store_call (GetAllScores clk) (GetAllScores clk) st;
      let e := set_eng_store (Some st) e in
      match r with
      | Err err => Some (Err (errWrap "failed to load scores from store: " err ""), e)
      | Ok data =>
          let e := set_eng_scores (load_scores (sc_LatencyWindowSize (eng_config e))
                     (sc_PenaltyHistorySize (eng_config e)) (eng_scores e) data) e in
          '(r, st) ← store_call (store_GetLatencyStats clk) (store_GetLatencyStats clk) st;
          let e := set_eng_store (Some st) e in
          match r with
          | Err err => Some (Err (errWrap "failed to load latency stats from store: " err ""), e)
          | Ok None => Some (Ok tt, e)
          | Ok latencyData =>
              Some (Ok tt, set_eng_latencyTracker
                (LatencyTrackerFromStoreData latencyData (sc_LatencyWindowSize (eng_config e))) e)
          end
      end
  end.

Definition SaveToStore (clk : clock) e : go (result unit * Engine S P) :=
  match eng_store e with
  | None => Some (Ok tt, e)
  | Some st =>
      let data := AllScoresToStoreData (eng_scores e) in
      '(r, st) ← store_call (SetScores clk data) (SetScores clk data) st;
      let e := set_eng_store (Some st) e in
      match r with
      | Err err => Some (Err (errWrap "failed to save scores to store: " err ""), e)
      | Ok _ =>
          let latencyData := Some (LatencyTrackerToStoreData (clk 0%nat) (eng_latencyTracker e)) in
          '(r, st) ← store_call (store_SetLatencyStats (clk_skip 1 clk) latencyData)
                                (store_SetLatencyStats (clk_skip 1 clk) latencyData) st;
          let e := set_eng_store (Some st) e in
          match r with
          | Err err => Some (Err (errWrap "failed to save latency stats to store: " err ""), e)
          | Ok _ => Some (Ok tt, e)
          end
      end
  end.

Definition PersistScore (providerName : string) (clk : clock) e : go (result unit * Engine S P) :=
  match eng_scores e !! providerName with
  | None => Some (Err (errOther ("provider " +:+ providerName +:+ " not found")), e)
  | Some ps =>
      match eng_store e with
      | None => Some (Ok tt, e)
      | Some st =>
          let data := Some (ToStoreData ps) in
          '(r, st) ← store_call (SetScore clk data) (SetScore clk data) st;
          let e := set_eng_store (Some st) e in
          match r with
          | Err err => Some (Err (errWrap ("failed to persist score for " +:+ providerName +:+ ": ") err ""), e)
          | Ok _ => Some (Ok tt, e)
          end
      end
  end.

Definition SetStore (s : option S) (clk : clock) e : go (result unit * Engine S P) :=
  let e := set_eng_store (PlainStore <$> s) e in
  match s with
  | None => Some (Ok tt, e)
  | Some _ => LoadFromStore clk e
  end.

(** [NewEngine]; [store], [penaltyStore] and [withMetrics] are the
    process-local options.  A load error is dropped, a panic is not. *)
Definition NewEngine (opts : list ScoringOption) (store : option S) (penaltyStore : option P)
    (withMetrics : bool) (clk : clock) : go (Engine S P) :=
  let config := Validate (apply_options opts DefaultScoringConfig) in
  let st := match store with
            | Some s => Some (if withMetrics then WrappedStore (NewInstrumentedStore (store_SetRecorder s))
                              else PlainStore s)
            | None => None
            end in
  let e := {| eng_config := config; eng_scores := ∅;
              eng_latencyTracker := NewLatencyTracker (sc_LatencyWindowSize config);
              eng_decayManager := NewDecayManager config; eng_store := st;
              eng_penaltyHistoryStore := penaltyStore; eng_metrics := []; eng_cleanup := None;
              eng_pending := []; eng_started := false |} in
  match st with
  | None => Some e
  | Some _ => '(_, e) ← LoadFromStore clk e; Some e
  end.

(** ** Penalty history *)

Definition record_of_data (r : PenaltyRecordData) : PenaltyRecord :=
  {| pr_Timestamp := prd_CreatedAt r; pr_Category := prd_Category r; pr_Reason := prd_Reason r;
     pr_Amount := prd_Amount r; pr_Metadata := prd_Metadata r; pr_DecayFactor := f64_zero |}.

(** One iteration of the loop of [warmPenaltyHistory]. *)
Definition warm_one (limit : Z) (acc : gmap string ProviderScore * P) (kv : string * ProviderScore)
    : gmap string ProviderScore * P :=
  let '(scores, p) := acc in
  let '(name, score) := kv in
  let '(r, p) := pen_GetRecent name limit p in
  match r with
  | Err _ => (scores, p)
  | Ok records =>
      (<[name := foldl (fun ps r => history_add (record_of_data r) ps) score records]> scores, p)
  end.

Definition warmPenaltyHistory e : Engine S P :=
  match eng_penaltyHistoryStore e with
  | None => e
  | Some p =>
      let '(scores, p) := foldl (warm_one (sc_PenaltyHistorySize (eng_config e)))
                            (eng_scores e, p) (range_kv (eng_scores e)) in
      set_eng_penaltyHistoryStore (Some p) (set_eng_scores scores e)
  end.

(** The goroutine of the [i]-th queued penalty record runs. *)
Definition run_pending_penalty (i : nat) e : Engine S P :=
  match eng_penaltyHistoryStore e, eng_pending e !! i with
  | Some p, Some r =>
      set_eng_penaltyHistoryStore (Some (pen_Append r p).2)
        (set_eng_pending (take i (eng_pending e) ++ drop (Datatypes.S i) (eng_pending e)) e)
  | _, _ => e
  end.

(** A tick of the cleanup goroutine. *)
Definition cleanup_tick e : Engine S P :=
  match eng_penaltyHistoryStore e, eng_cleanup e with
  | Some p, Some _ =>
      set_eng_penaltyHistoryStore (Some (pen_PurgeOld (sc_RetentionWindow (eng_config e)) p).2) e
  | _, _ => e
  end.

(** ** Start and stop *)

Definition eng_Start e : go (Engine S P) :=
  if eng_started e then Some e
  else
    let e := set_eng_started true e in
    dm ← dm_Start (eng_decayManager e);
    let e := warmPenaltyHistory (set_eng_decayManager dm e) in
    match eng_penaltyHistoryStore e with
    | Some _ =>
        if 0 <? sc_PenaltyCleanupInterval (eng_config e)
        then Some (set_eng_cleanup (Some (sc_PenaltyCleanupInterval (eng_config e))) e)
        else Some e
    | None => Some e
    end.

Definition eng_Stop e : go (Engine S P) :=
  if negb (eng_started e) then Some e
  else
    let e := set_eng_started false e in
    dm ← dm_Stop (eng_decayManager e);
    Some (set_eng_cleanup None (set_eng_decayManager dm e)).
End lifecycle.
