(* ===== verification/DecayShared.v ===== *)
(** * The score map that the engine and the decay manager share

    [Engine] and [Decay] take for granted that the decay manager works on the
    engine's own scores.  Here the maps and the scores are objects of a store,
    the engine and the manager hold references to a map ([Engine.scores],
    [DecayManager.scores]), and a map holds references to scores: with the
    aliasing of [scoring/engine.go] and [scoring/decay.go] written out, the
    functional model is what an observer of the engine sees. *)

From S2P Require Import Prelude GoInt GoFloat GoString Penalties Scorer ScoringConfig Latency.
From S2P Require Import Decay Store Hybrid StoreConvert Engine EngineStore.

Abbreviation loc := nat (only parsing).

(** [ob_engine] and [ob_decay] are the two references to a map. *)
Record objects := {
  ob_maps : gmap loc (gmap string loc);
  ob_scores : gmap loc ProviderScore;
  ob_next : loc;
  ob_engine : loc;
  ob_decay : loc
}.

Definition score_map_at (l : loc) (o : objects) : gmap string loc := default ∅ (ob_maps o !! l).

Definition with_map (l : loc) (m : gmap string loc) (o : objects) : objects := {|
  ob_maps := <[l := m]> (ob_maps o); ob_scores := ob_scores o; ob_next := ob_next o; ob_engine := ob_engine o;
  ob_decay := ob_decay o |}.

Definition with_scores (s : gmap loc ProviderScore) (o : objects) : objects := {|
  ob_maps := ob_maps o; ob_scores := s; ob_next := ob_next o; ob_engine := ob_engine o; ob_decay := ob_decay o |}.

(** [e.scores[name] = score] for a new score. *)
Definition assign_new (name : string) (score : ProviderScore) (o : objects) : objects := {|
  ob_maps := <[ob_engine o := <[name := ob_next o]> (score_map_at (ob_engine o) o)]> (ob_maps o);
  ob_scores := <[ob_next o := score]> (ob_scores o);
  ob_next := S (ob_next o); ob_engine := ob_engine o; ob_decay := ob_decay o |}.

(** [dm.scores = scores]. *)
Definition UpdateScores (scores : loc) (o : objects) : objects := {|
  ob_maps := ob_maps o; ob_scores := ob_scores o; ob_next := ob_next o; ob_engine := ob_engine o; ob_decay := scores |}.

(** [scores := make(...)]; [NewDecayManager(config, scores)]; [&Engine{scores: scores}]. *)
Definition new_objects : objects := {|
  ob_maps := {[0%nat := ∅]}; ob_scores := ∅; ob_next := 0; ob_engine := 0; ob_decay := 0 |}.

Section shared.
Context {S P : Type} `{MapRange}.
Implicit Types (e : Engine S P) (o : objects).

Definition ob_RegisterProvider (name : string) (priority : Z) (now : Time) e o : objects :=
  match score_map_at (ob_engine o) o !! name with
  | Some _ => o
  | None =>
      let o := assign_new name (NewProviderScore name priority (sc_LatencyWindowSize (eng_config e))
                                 (sc_PenaltyHistorySize (eng_config e)) now) o in
      UpdateScores (ob_engine o) o
  end.

Definition ob_UnregisterProvider (name : string) o : objects :=
  let o := with_map (ob_engine o) (delete name (score_map_at (ob_engine o) o)) o in
  UpdateScores (ob_engine o) o.

(** The loop of [loadFromStoreUnsafe]; [complete] says whether it is reached by
    the call at the end, which an error of the latency samples skips. *)
Definition ob_load (data : list (option ProviderScoreData)) (complete : bool) e o : objects :=
  let o := foldl (fun o d =>
    match d with
    | Some d => if bool_decide (psd_Name d = ""%string) then o
                else assign_new (psd_Name d) (FromStoreData d (sc_LatencyWindowSize (eng_config e)) (sc_PenaltyHistorySize (eng_config e))) o
    | None => o
    end) o data in
  if complete then UpdateScores (ob_engine o) o else o.

(** A method of a registered score, through its reference. *)
Definition ob_on_score (name : string) (f : ProviderScore -> ProviderScore) o : objects :=
  match score_map_at (ob_engine o) o !! name with
  | Some p => with_scores (alter f p (ob_scores o)) o
  | None => o
  end.

(** The loop of [applyDecay] over the manager's map. *)
Definition ob_applyDecay (clk : string -> Time) (rate : f64) o : objects :=
  with_scores (foldl (fun s '(name, p) => alter (ApplyDecay rate (clk name)) p s) (ob_scores o)
                (range_kv (score_map_at (ob_decay o) o))) o.

(** ** What an observer of the engine sees *)

Definition engine_sees o : gmap string ProviderScore := omap (fun p => ob_scores o !! p) (score_map_at (ob_engine o) o).

Inductive share_op :=
  | OpRegister (name : string) (priority : Z) (now : Time)
  | OpUnregister (name : string)
  | OpLoad (data : list (option ProviderScoreData)) (complete : bool)
  | OpScore (name : string) (f : ProviderScore -> ProviderScore)
  | OpDecay (clk : string -> Time).

Definition ob_step (op : share_op) e o : objects :=
  match op with
  | OpRegister name priority now => ob_RegisterProvider name priority now e o
  | OpUnregister name => ob_UnregisterProvider name o
  | OpLoad data complete => ob_load data complete e o
  | OpScore name f => ob_on_score name f o
  | OpDecay clk => ob_applyDecay clk (sc_DecayRate (dm_config (eng_decayManager e))) o
  end.

(** The same in the functional model. *)
Definition eng_step (op : share_op) e : Engine S P :=
  match op with
  | OpRegister name priority now => RegisterProvider name priority now e
  | OpUnregister name => UnregisterProvider name e
  | OpLoad data _ => set_eng_scores (load_scores (sc_LatencyWindowSize (eng_config e)) (sc_PenaltyHistorySize (eng_config e))
                                       (eng_scores e) data) e
  | OpScore name f => on_score name f e
  | OpDecay clk => decay_tick clk e
  end.

(** Both run; the rest of the engine does not depend on the objects. *)
Fixpoint share_run (l : list share_op) e o : Engine S P * objects :=
  match l with
  | [] => (e, o)
  | op :: l => share_run l (eng_step op e) (ob_step op e o)
  end.

(** ** The aliasing *)

(** One map, referred to by both; every name has a score of its own. *)
Record shared_ok o : Prop := {
  so_same : ob_decay o = ob_engine o;
  so_known : forall n p, score_map_at (ob_engine o) o !! n = Some p -> is_Some (ob_scores o !! p) /\ (p < ob_next o)%nat;
  so_own : forall n n' p, score_map_at (ob_engine o) o !! n = Some p -> score_map_at (ob_engine o) o !! n' = Some p -> n = n'
}.

Lemma score_map_at_insert l m o : score_map_at l (with_map l m o) = m.
Proof. unfold score_map_at, with_map. cbn. by rewrite lookup_insert_eq. Qed.

Lemma assign_new_map name ps o :
  score_map_at (ob_engine o) (assign_new name ps o) = <[name := ob_next o]> (score_map_at (ob_engine o) o).
Proof. unfold score_map_at at 1, assign_new. cbn. by rewrite lookup_insert_eq. Qed.

Lemma assign_new_ok name ps o :
  shared_ok o -> shared_ok (assign_new name ps o) /\ engine_sees (assign_new name ps o) = <[name := ps]> (engine_sees o).
Proof.
  intros [Hs Hk Ho]. unfold engine_sees. change (ob_engine (assign_new name ps o)) with (ob_engine o). rewrite assign_new_map.
  assert (forall n p, score_map_at (ob_engine o) o !! n = Some p -> p <> ob_next o) as Hne
    by (intros n p [_ ?]%Hk ->; lia).
  split; [split; [exact Hs|..]|].
  - change (ob_engine (assign_new name ps o)) with (ob_engine o). rewrite assign_new_map. intros n p. cbn.
    intros [[<- <-]|[Hn Hp]]%lookup_insert_Some; [split; [|lia]; by rewrite lookup_insert_eq|].
    rewrite lookup_insert_ne by (intros E; by eapply Hne). apply Hk in Hp as [? ?]. split; [done|lia].
  - change (ob_engine (assign_new name ps o)) with (ob_engine o). rewrite assign_new_map. intros n n' p.
    intros [[<- <-]|[Hn Hp]]%lookup_insert_Some [[<- E]|[Hn' Hp']]%lookup_insert_Some; [done| | |by eapply Ho].
    + by apply Hne in Hp'.
    + subst. by apply Hne in Hp.
  - apply map_eq. intros n. rewrite lookup_omap. cbn [assign_new ob_scores]. destruct (decide (n = name)) as [->|Hn].
    + rewrite !lookup_insert_eq. cbn. by rewrite lookup_insert_eq.
    + rewrite !lookup_insert_ne, lookup_omap by done. destruct (score_map_at (ob_engine o) o !! n) as [p|] eqn:Ep; [|done].
      cbn. rewrite lookup_insert_ne; [done|]. intros E. by eapply Hne.
Qed.

Lemma UpdateScores_ok o : shared_ok o -> shared_ok (UpdateScores (ob_engine o) o) /\ engine_sees (UpdateScores (ob_engine o) o) = engine_sees o.
Proof. intros [_ Hk Ho]. by split. Qed.

(** Changing scores in place. *)
Lemma with_scores_ok s o : shared_ok o -> dom s = dom (ob_scores o) -> shared_ok (with_scores s o).
Proof.
  intros [Hs Hk Ho] Hd. split; [done| |done]. intros n p Hp. apply Hk in Hp as [Hp Hn]. split; [|done].
  apply elem_of_dom. cbn. rewrite Hd. by apply elem_of_dom.
Qed.

Lemma decay_loop clk rate (l : list (string * loc)) (s : gmap loc ProviderScore) :
  NoDup l.*2 ->
  let s' := foldl (fun s '(name, p) => alter (ApplyDecay rate (clk name)) p s) s l in
  dom s' = dom s /\ (forall n p, (n, p) ∈ l -> s' !! p = ApplyDecay rate (clk n) <$> s !! p)
  /\ (forall p, p ∉ l.*2 -> s' !! p = s !! p).
Proof.
  revert s. induction l as [|[n p] l IH]; intros s Hl; [by split_and!; [..|intros n p ?%elem_of_nil|]|].
  cbn in Hl. apply NoDup_cons in Hl as [Hp Hl]. destruct (IH (alter (ApplyDecay rate (clk n)) p s) Hl) as (Hd & Hin & Hout).
  cbn. split_and!.
  - rewrite Hd. apply dom_alter_L.
  - intros n' p' [[= -> ->]|Hin']%elem_of_cons; [by rewrite Hout, lookup_alter_eq|]. rewrite (Hin n' p' Hin').
    rewrite lookup_alter_ne; [done|]. intros ->. apply Hp. apply list_elem_of_fmap. by exists (n', p').
  - intros p' [Hne Hp']%not_elem_of_cons. by rewrite Hout, lookup_alter_ne.
Qed.

(** What [ob_step_ok] shows of one operation. *)
Definition sees (o : objects) (m : gmap string ProviderScore) : Prop := shared_ok o /\ engine_sees o = m.

Lemma ob_RegisterProvider_ok name prio now e o : sees o (eng_scores e) ->
  sees (ob_RegisterProvider name prio now e o) (eng_scores (RegisterProvider name prio now e)).
Proof.
  intros [Hok Hv]. unfold ob_RegisterProvider, RegisterProvider. rewrite <-Hv. unfold engine_sees at 1. rewrite lookup_omap.
  destruct (score_map_at (ob_engine o) o !! name) as [p|] eqn:Ep; cbn.
  - destruct (proj1 (so_known _ Hok _ _ Ep)) as [ps ->]. by split.
  - match goal with |- context [assign_new name ?ps o] => destruct (assign_new_ok name ps o Hok) as [Hok' <-] end.
    by apply (UpdateScores_ok (assign_new _ _ o)).
Qed.

Lemma ob_UnregisterProvider_ok name o m : sees o m -> sees (ob_UnregisterProvider name o) (delete name m).
Proof.
  intros [[Hs Hk Ho] <-]. unfold ob_UnregisterProvider. set (o' := with_map _ _ o).
  assert (score_map_at (ob_engine o') o' = delete name (score_map_at (ob_engine o) o)) as Hm by apply score_map_at_insert.
  assert (sees o' (delete name (engine_sees o))) as [Hok' <-]; [|by apply UpdateScores_ok].
  split; [split; [done|..]; rewrite Hm|].
  - intros n p [_ Hp]%lookup_delete_Some. by apply Hk in Hp.
  - intros n n' p [_ Hp]%lookup_delete_Some [_ Hp']%lookup_delete_Some. by eapply Ho.
  - unfold engine_sees. rewrite Hm. apply map_eq. intros n. rewrite lookup_omap. destruct (decide (n = name)) as [->|Hn].
    + by rewrite !lookup_delete_eq.
    + by rewrite !lookup_delete_ne, lookup_omap by done.
Qed.

Lemma ob_load_ok data complete e o m : sees o m ->
  sees (ob_load data complete e o) (load_scores (sc_LatencyWindowSize (eng_config e)) (sc_PenaltyHistorySize (eng_config e)) m data).
Proof.
  intros Ho. unfold ob_load, load_scores.
  match goal with |- context [foldl ?f o data] => set (step := f) end.
  match goal with |- context [foldl ?f m data] => set (step' := f) end.
  assert (sees (foldl step o data) (foldl step' m data)) as [Hok <-].
  { revert o m Ho. induction data as [|[d|] data IH]; intros o m Ho; [done| |by apply IH].
    cbn [foldl]. apply IH. unfold step, step'. case_bool_decide; [done|]. destruct Ho as [Hok <-]. by apply assign_new_ok. }
  destruct complete; [by apply UpdateScores_ok|done].
Qed.

Lemma ob_on_score_ok name f o m : sees o m -> sees (ob_on_score name f o) (alter f name m).
Proof.
  intros [Hok <-]. unfold ob_on_score. destruct (score_map_at (ob_engine o) o !! name) as [p|] eqn:Ep.
  - split; [by apply with_scores_ok; [|apply dom_alter_L]|]. unfold engine_sees. apply map_eq. intros n.
    change (score_map_at _ (with_scores _ o)) with (score_map_at (ob_engine o) o). cbn [with_scores ob_scores].
    destruct (decide (n = name)) as [->|Hn].
    + rewrite lookup_alter_eq, !lookup_omap, Ep. cbn. apply lookup_alter_eq.
    + rewrite lookup_alter_ne, !lookup_omap by done. destruct (_ !! n) as [p'|] eqn:Ep'; [|done]. cbn.
      rewrite lookup_alter_ne; [done|]. intros <-. by apply Hn; eapply (so_own _ Hok).
  - split; [done|]. symmetry. apply map_eq. intros n. destruct (decide (n = name)) as [->|Hn]; [|by rewrite lookup_alter_ne].
    rewrite lookup_alter_eq. unfold engine_sees. by rewrite lookup_omap, Ep.
Qed.

Lemma ob_applyDecay_ok clk dm o m : sees o m -> sees (ob_applyDecay clk (sc_DecayRate (dm_config dm)) o) (applyDecay clk dm m).
Proof.
  intros [Hok <-]. unfold ob_applyDecay. rewrite (so_same _ Hok).
  destruct (decay_loop clk (sc_DecayRate (dm_config dm)) (range_kv (score_map_at (ob_engine o) o)) (ob_scores o)) as (Hd & Hin & _).
  { rewrite range_kv_perm. apply NoDup_fmap_2_strong; [|apply NoDup_map_to_list].
    intros [n p] [n' p'] Hn%elem_of_map_to_list Hn'%elem_of_map_to_list. cbn. intros ->. by rewrite (so_own _ Hok n n' p' Hn Hn'). }
  split; [by apply with_scores_ok|]. unfold engine_sees. apply map_eq. intros n. rewrite applyDecay_lookup.
  change (score_map_at _ (with_scores _ o)) with (score_map_at (ob_engine o) o). cbn [with_scores ob_scores]. rewrite !lookup_omap.
  destruct (score_map_at (ob_engine o) o !! n) as [p|] eqn:Ep; [|done]. cbn. apply (Hin n p). by apply elem_of_range_kv.
Qed.

Lemma ob_step_ok op e o : sees o (eng_scores e) -> sees (ob_step op e o) (eng_scores (eng_step op e)).
Proof.
  intros Ho. destruct op as [name prio now|name|data complete|name f|clk]; cbn [ob_step eng_step].
  - by apply ob_RegisterProvider_ok.
  - by apply ob_UnregisterProvider_ok.
  - by apply ob_load_ok.
  - by apply ob_on_score_ok.
  - by apply ob_applyDecay_ok.
Qed.

(** After any sequence of registrations, removals, loads, events and decay
    ticks, whatever the order in which the decay ranges over its map, the
    engine sees through its references exactly the scores of the functional
    model, and the decay manager still holds the engine's own map. *)
Theorem shared_scores_refine l e :
  eng_scores e = ∅ ->
  let '(e', o) := share_run l e new_objects in
  engine_sees o = eng_scores e' /\ ob_decay o = ob_engine o.
Proof.
  intros He. assert (sees new_objects (eng_scores e)) as Ho by (rewrite He; by split; [split|]).
  revert Ho. generalize new_objects. clear He. revert e. induction l as [|op l IH]; intros e o Ho; [by split; apply Ho|].
  cbn [share_run]. by apply IH, ob_step_ok.
Qed.
End shared.

(** A provider that is registered, penalised, decayed, loaded anew and removed,
    next to one that stays. *)
Definition demo_share_ops : list share_op := [
  OpRegister "tatum" 1 Second; OpRegister "mempool" 2 Second; OpScore "tatum" (AddHealthPenalty (f64_of_Z 10) (f64_of_Z 50) "down" None Second);
  OpDecay (fun _ => 2 * Second); OpLoad [Some (demo_score "tatum" 3)] true; OpUnregister "mempool"; OpDecay (fun _ => 3 * Second)]%string.

Definition demo_share_engine : Engine MemoryStore unit :=
  {| eng_config := DefaultScoringConfig; eng_scores := ∅; eng_latencyTracker := NewLatencyTracker 100;
     eng_decayManager := NewDecayManager DefaultScoringConfig; eng_store := None; eng_penaltyHistoryStore := None;
     eng_metrics := []; eng_cleanup := None; eng_pending := []; eng_started := false |}.

Lemma shared_scores_refine_witness :
  let _ := canonical_range in
  let '(e', o) := share_run demo_share_ops demo_share_engine new_objects in
  engine_sees o = eng_scores e' /\ ob_decay o = ob_engine o.
Proof. intros M. by apply (shared_scores_refine demo_share_ops demo_share_engine). Defined.

Example demo_share_sees :
  let _ := canonical_range in
  let '(e', o) := share_run demo_share_ops demo_share_engine new_objects in
  dom (engine_sees o) = {["tatum"%string]} /\ ob_next o = 3%nat.
Proof. vm_compute. by split. Qed.
