(* ===== verification/EngineInv.v ===== *)
(** * Invariants of the engine

    Under weights that are finite and non-negative (with a positive slowness
    threshold and latency weight) every sequence of registrations, events,
    decay ticks, resets and switches keeps every score well formed, and none of
    them panics; the ranking is a descending permutation of the providers. *)

From Stdlib Require Import Floats.SpecFloat.
From S2P Require Import Prelude GoInt GoFloat GoString Sorting Penalties Scorer ScoringConfig.
From S2P Require Import Latency Events Decay Store Hybrid StoreConvert Engine EngineStore.

(** ** Configurations the theorems cover *)

Definition f64_pos (x : f64) : Prop := f64_nn x /\ f64_ltb f64_zero x = true.

Record cfg_ok (c : ScoringConfig) : Prop := {
  ok_health : f64_nn (sc_HealthCheckFailPenalty c);
  ok_rate : f64_nn (sc_RateLimitPenalty c);
  ok_auth : f64_nn (sc_AuthFailurePenalty c);
  ok_slow : f64_pos (sc_SlowResponsePenalty c);
  ok_op : f64_nn (sc_OperationFailPenalty c);
  ok_timeout : f64_nn (sc_TimeoutPenalty c);
  ok_bonus : f64_nn (sc_SuccessBonus c);
  ok_max : f64_nn (sc_MaxPenalty c);
  ok_threshold : f64_pos (sc_SlowThresholdStdDev c);
  ok_decay : rate_ok (sc_DecayRate c)
}.

#[global] Instance f64_pos_dec x : Decision (f64_pos x).
Proof. unfold f64_pos. apply _. Defined.

Lemma DefaultScoringConfig_ok : cfg_ok DefaultScoringConfig.
Proof. split; try f64_dec; split; f64_dec. Qed.

(** The base score of a priority an [int] of reasonable size can hold. *)
Lemma NewProviderScore_base name p w h now :
  0 <= p <= 1000 -> f64_nn (ps_BaseScore (NewProviderScore name p w h now)).
Proof.
  intros Hp. unfold NewProviderScore. cbn [ps_BaseScore].
  assert (forallb (fun p =>
    let b := f64_sub (f64_of_Z 110) (f64_mul (f64_of_Z p) (f64_of_Z 10)) in
    bool_decide (f64_nn (if f64_ltb b (f64_of_Z 10) then f64_of_Z 10 else b))) (seqZ 0 1001) = true) as Hall
    by (vm_compute; reflexivity).
  rewrite forallb_forall in Hall. specialize (Hall p). apply bool_decide_eq_true in Hall; [done|].
  apply list_elem_of_In, elem_of_seqZ. lia.
Qed.

(** ** Scores under events *)

Section score_events.
Context (m : f64) (Hm : f64_nn m).

Lemma AddHealthPenalty_wf a reason meta now ps :
  f64_nn a -> score_wf m ps -> score_wf m (AddHealthPenalty a m reason meta now ps).
Proof. intros Ha []. constructor; cbn; auto with golib. Qed.

Lemma AddRateLimitPenalty_wf a reason meta now ps :
  f64_nn a -> score_wf m ps -> score_wf m (AddRateLimitPenalty a m reason meta now ps).
Proof. intros Ha []. constructor; cbn; auto with golib. Qed.

Lemma AddErrorPenalty_wf a reason meta now ps :
  f64_nn a -> score_wf m ps -> score_wf m (AddErrorPenalty a m reason meta now ps).
Proof. intros Ha []. constructor; cbn; auto with golib. Qed.

Lemma RecordSuccess_wf b now now2 ps :
  f64_nn b -> score_wf m ps -> score_wf m (RecordSuccess b now now2 ps).
Proof. intros Hb []. unfold RecordSuccess. destruct (f64_gtb b f64_zero); constructor; cbn; auto with golib. Qed.

Lemma UpdateLatencyPenalty_wf f w reason now ps :
  f64_nnx (f64_mul f w) -> score_wf m ps -> score_wf m (UpdateLatencyPenalty f w reason now ps).
Proof.
  intros Hp []. assert (f64_ltb (f64_mul f w) f64_zero = false) as Hlt.
  { destruct Hp as [->|Hp]; [done|]. by destruct (f64_nn_zero_le _ Hp) as (_ & _ & ?). }
  unfold UpdateLatencyPenalty. cbv zeta. rewrite Hlt. case_match; constructor; cbn; auto with golib.
Qed.
End score_events.

(** ** The latency part *)

Section latency.
Context `{GoArch, MapRange}.

(** Fewer than [n] samples, and a cached deviation that is an [int64]. *)
Definition lt_ok (n : Z) (lt : LatencyTracker) : Prop :=
  zlen (all_samples lt) <= n
  /\ (forall s, lt_globalStats lt = Some s -> int64_range (ls_StdDev s)).

Lemma all_samples_perm lt : all_samples lt ≡ₚ mjoin ((map_to_list (lt_samples lt)).*2).
Proof. unfold all_samples. by rewrite range_kv_perm. Qed.

Lemma zlen_push_window w l x : zlen (push_window w l x) <= zlen l + 1.
Proof.
  unfold push_window. case_match; rewrite ?zlen_app; [|change (zlen [x]) with 1; lia].
  unfold zlen. rewrite length_drop, length_app. cbn. lia.
Qed.

(** The number of samples of a map of windows. *)
Definition total (m : gmap string (list Duration)) : Z := zlen (mjoin (map_to_list m).*2).

Lemma all_samples_total lt : zlen (all_samples lt) = total (lt_samples lt).
Proof. apply zlen_perm, all_samples_perm. Qed.

Lemma total_insert m p l : m !! p = None -> total (<[p:=l]> m) = zlen l + total m.
Proof.
  intros Hp. unfold total. rewrite <-zlen_app. apply zlen_perm.
  by rewrite map_to_list_insert.
Qed.

Lemma total_delete m p : total m = zlen (default [] (m !! p)) + total (delete p m).
Proof.
  destruct (m !! p) as [l|] eqn:E; cbn.
  - rewrite <-(insert_delete_id m p l) at 1 by done. apply total_insert, lookup_delete_eq.
  - by rewrite delete_id.
Qed.

(** Recording a latency adds at most one sample. *)
Lemma lt_RecordLatency_samples p d lt :
  zlen (all_samples (lt_RecordLatency p d lt)) <= zlen (all_samples lt) + 1.
Proof.
  rewrite !all_samples_total. cbn [lt_samples lt_RecordLatency].
  rewrite <-insert_delete_eq, total_insert, (total_delete (lt_samples lt) p) by apply lookup_delete_eq.
  pose proof (zlen_push_window (lt_windowSize lt) (default [] (lt_samples lt !! p)) d). lia.
Qed.

Lemma calculateStats_stddev l s : calculateStats l = Some s -> int64_range (ls_StdDev s).
Proof.
  destruct (zlen l =? 0) eqn:E; [unfold calculateStats; rewrite E; by intros [= <-]|].
  intros (? & ? & ? & ? & ? & ? & ? & _ & _ & _ & _ & _ & _ & _ & ->)%calculateStats_inv; [apply f64_to_int_range|done].
Qed.

Lemma lt_ok_mono n n' lt : n <= n' -> lt_ok n lt -> lt_ok n' lt.
Proof. intros Hn [? ?]. split; [lia|done]. Qed.

Lemma lt_RecordLatency_ok n p d lt : lt_ok n lt -> lt_ok (n + 1) (lt_RecordLatency p d lt).
Proof. intros [Hn Hs]. split; [|done]. pose proof (lt_RecordLatency_samples p d lt). lia. Qed.

Lemma GetGlobalStats_ok n now lt :
  lt_ok n lt -> n < 2 ^ 53 ->
  exists s lt', GetGlobalStats now lt = Some (s, lt') /\ lt_ok n lt' /\ lt_samples lt' = lt_samples lt
    /\ int64_range (ls_StdDev s).
Proof.
  intros [Hn Hs] Hb. unfold GetGlobalStats.
  destruct (calculateStats_total (all_samples lt)) as [t Et]; [lia|]. pose proof (calculateStats_stddev _ _ Et) as Hr.
  assert (exists s lt', (if zlen (all_samples lt) =? 0 then Some (empty_stats now, lt)
    else stats ← calculateStats (all_samples lt);
      Some (ls_set_LastCalculated now stats,
            {| lt_samples := lt_samples lt; lt_windowSize := lt_windowSize lt;
               lt_globalStats := Some (ls_set_LastCalculated now stats); lt_statsDirty := false |})) = Some (s, lt')
    /\ lt_ok n lt' /\ lt_samples lt' = lt_samples lt /\ int64_range (ls_StdDev s)) as Hmiss.
  { destruct (zlen (all_samples lt) =? 0).
    - exists (empty_stats now), lt. by split_and!.
    - rewrite Et. eexists _, _. split_and!; [done|split|done|done]; [done|]. by intros s [= <-]. }
  destruct (lt_statsDirty lt); [done|]. destruct (lt_globalStats lt) as [s|] eqn:Eg; [|done].
  exists s, lt. split_and!; [done|split; [done|by rewrite Eg]|done|by apply Hs].
Qed.

(** The samples of one provider are among all samples. *)
Lemma provider_samples_le lt p l : lt_samples lt !! p = Some l -> zlen l <= zlen (all_samples lt).
Proof.
  intros Hl. rewrite all_samples_total, (total_delete _ p), Hl. cbn.
  pose proof (zlen_nonneg (mjoin (map_to_list (delete p (lt_samples lt))).*2)). unfold total. lia.
Qed.

Lemma lt_GetProviderStats_ok n p lt : lt_ok n lt -> n < 2 ^ 53 -> is_Some (lt_GetProviderStats p lt).
Proof.
  intros [Hn _] Hb. unfold lt_GetProviderStats. destruct (lt_samples lt !! p) as [[|x l]|] eqn:E; [done| |done].
  apply calculateStats_total. pose proof (provider_samples_le _ _ _ E). lia.
Qed.

(** The slowness factor is a valid float, never NaN. *)
Lemma GetProviderSlownessFactor_ok n p now lt :
  lt_ok n lt -> n < 2 ^ 53 ->
  exists f lt', GetProviderSlownessFactor p now lt = Some (f, lt') /\ lt_ok n lt'
    /\ f64_valid f = true /\ ~ is_nan f.
Proof.
  intros Hok Hb. unfold GetProviderSlownessFactor.
  destruct (lt_samples lt !! p) as [[|x l]|]; [by exists f64_zero, lt| |by exists f64_zero, lt].
  destruct (GetGlobalStats_ok n now lt Hok Hb) as (s & lt' & -> & Hok' & _ & Hr). cbn [mbind option_bind].
  destruct (ls_StdDev s =? 0) eqn:E0; [by exists f64_zero, lt'|].
  exists (f64_div (f64_of_Z (wrap64 (wrap64 (Z.quot (sum_durations (x :: l)) (zlen (x :: l))) - ls_Mean s)))
           (f64_of_Z (ls_StdDev s))), lt'.
  split; [done|]. split; [done|].
  destruct (f64_div_ints (wrap64 (wrap64 (Z.quot (sum_durations (x :: l)) (zlen (x :: l))) - ls_Mean s)) (ls_StdDev s))
    as (? & ? & _); [..|done].
  - by apply Z.eqb_neq.
  - pose proof (wrap64_range (wrap64 (Z.quot (sum_durations (x :: l)) (zlen (x :: l))) - ls_Mean s)) as Hw.
    unfold int64_range, min_int64, max_int64 in Hw. lia.
  - unfold int64_range, min_int64, max_int64 in Hr. lia.
Qed.
End latency.

(** ** The invariant *)

Section invariant.
Context {S P : Type} `{GoArch, MapRange}.
Implicit Types e : Engine S P.

Definition scores_ok (m : f64) (scores : gmap string ProviderScore) : Prop :=
  map_Forall (fun name ps => ps_Name ps = name /\ score_wf m ps) scores.

Record engine_inv (n : Z) e : Prop := {
  inv_cfg : cfg_ok (eng_config e);
  inv_rate : rate_ok (sc_DecayRate (dm_config (eng_decayManager e)));
  inv_scores : scores_ok (sc_MaxPenalty (eng_config e)) (eng_scores e);
  inv_latency : lt_ok n (eng_latencyTracker e)
}.

(** A score operation that keeps the name and well-formedness. *)
Definition score_op (m : f64) (f : ProviderScore -> ProviderScore) : Prop :=
  forall ps, score_wf m ps -> score_wf m (f ps) /\ ps_Name (f ps) = ps_Name ps.

Lemma scores_ok_alter m f name scores :
  score_op m f -> scores_ok m scores -> scores_ok m (alter f name scores).
Proof.
  intros Hf Hs k ps. rewrite lookup_alter_Some. intros [(<- & ps0 & Hk & ->)|[_ Hk]]; [|by apply Hs].
  apply Hs in Hk as [Hn Hwf]. destruct (Hf _ Hwf) as [? ->]. done.
Qed.

Lemma on_score_inv n name f e :
  engine_inv n e -> score_op (sc_MaxPenalty (eng_config e)) f -> engine_inv n (on_score name f e).
Proof. intros [] Hf. split; try done. by apply scores_ok_alter. Qed.

Lemma persistPenalty_inv n p cat reason a ts meta e :
  engine_inv n e -> engine_inv n (persistPenalty p cat reason a ts meta e).
Proof. intros []. unfold persistPenalty. by destruct (eng_penaltyHistoryStore e). Qed.

Lemma set_tracker_inv n n' lt e :
  engine_inv n e -> lt_ok n' lt -> engine_inv n' (set_eng_latencyTracker lt e).
Proof. intros [] Hlt. by split. Qed.

Lemma apply_event_inv n event ts now now2 e :
  engine_inv n e -> engine_inv n (apply_event event ts now now2 e).
Proof.
  intros He. pose proof (inv_cfg _ _ He) as []. unfold apply_event.
  destruct (ev_Type event); cbv zeta; try apply persistPenalty_inv; try (apply on_score_inv; [done|]);
    try done; intros ps Hps; split; try done;
    auto using AddHealthPenalty_wf, AddRateLimitPenalty_wf, AddErrorPenalty_wf, RecordSuccess_wf.
  unfold RecordSuccess. by case_match.
Qed.

Lemma slowness_penalty_nnx c f g p :
  cfg_ok c -> f64_valid f = true -> ~ is_nan f ->
  f64_nnx (f64_mul (slowness_penalty c f g p).1 (sc_SlowResponsePenalty c)).
Proof.
  intros [] Hv Hn. destruct ok_slow0 as [? ?], ok_threshold0 as [? ?]. unfold slowness_penalty.
  destruct (f64_ltb f (sc_SlowThresholdStdDev c)) eqn:E; cbn [fst]; apply f64_mul_nnx; try done.
  - by right.
  - by apply f64_not_below.
Qed.

Lemma UpdateLatencyPenalty_name f w reason now ps :
  ps_Name (UpdateLatencyPenalty f w reason now ps) = ps_Name ps.
Proof. unfold UpdateLatencyPenalty. cbv zeta. by case_match. Qed.

Lemma updateLatencyPenalty_inv n p clk e :
  engine_inv n e -> n < 2 ^ 53 ->
  exists e', updateLatencyPenalty p clk e = Some e' /\ engine_inv n e'.
Proof.
  intros He Hb. unfold updateLatencyPenalty.
  destruct (GetGlobalStats_ok n (clk 0%nat) _ (inv_latency _ _ He) Hb) as (g & lt & -> & Hlt & _ & _).
  cbn [mbind option_bind]. pose proof (set_tracker_inv _ _ lt _ He Hlt) as He1.
  set (e1 := set_eng_latencyTracker lt e) in *. clearbody e1. clear He Hlt.
  case_match; [by exists e1|].
  destruct (lt_GetProviderStats_ok n p _ (inv_latency _ _ He1) Hb) as [ps ->]. cbn [mbind option_bind].
  destruct (GetProviderSlownessFactor_ok n p (clk 1%nat) _ (inv_latency _ _ He1) Hb)
    as (f & lt2 & -> & Hlt2 & Hv & Hn). cbn [mbind option_bind].
  pose proof (set_tracker_inv _ _ lt2 _ He1 Hlt2) as He2.
  set (e2 := set_eng_latencyTracker lt2 e1) in *. clearbody e2. clear He1 Hlt2.
  pose proof (slowness_penalty_nnx _ f g ps (inv_cfg _ _ He2) Hv Hn) as Hx.
  destruct (slowness_penalty (eng_config e2) f g ps) as [sf reason]. cbn [fst] in Hx.
  destruct (eng_scores e2 !! p); [|by exists e2].
  assert (engine_inv n (on_score p
    (UpdateLatencyPenalty sf (sc_SlowResponsePenalty (eng_config e2)) reason (clk 2%nat)) e2)) as He3.
  { apply on_score_inv; [done|]. intros ps0 Hps0. split; [|apply UpdateLatencyPenalty_name].
    by apply UpdateLatencyPenalty_wf. }
  case_match; eexists; (split; [done|]); [by apply persistPenalty_inv|done].
Qed.

Lemma RecordEvent_inv n event clk e :
  engine_inv n e -> n + 1 < 2 ^ 53 ->
  exists e', RecordEvent event clk e = Some e' /\ engine_inv (n + 1) e'.
Proof.
  intros He Hb. assert (engine_inv (n + 1) e) as He1.
  { destruct He. split; try done. eapply lt_ok_mono; [|done]. lia. }
  unfold RecordEvent. destruct (negb _); [by exists e|].
  destruct (eng_scores e !! ev_Provider event); [|by exists e]. cbv zeta.
  assert (exists e2, (if 0 <? ev_ResponseTime event
    then updateLatencyPenalty (ev_Provider event) clk
      (eng_record [RecordLatencyMetric (ev_Provider event) (event_string (ev_Type event)) (ev_ResponseTime event)]
        (on_score (ev_Provider event) (RecordLatency (ev_ResponseTime event))
          (set_eng_latencyTracker
            (lt_RecordLatency (ev_Provider event) (ev_ResponseTime event) (eng_latencyTracker e)) e)))
    else Some e) = Some e2 /\ engine_inv (n + 1) e2) as (e2 & -> & He2).
  { case_match; [|by exists e]. apply updateLatencyPenalty_inv; [|done].
    assert (forall l x, engine_inv (n + 1) x -> engine_inv (n + 1) (eng_record l x)) as Hr
      by (intros l x []; by split).
    apply Hr, on_score_inv; [|by intros ps []; split].
    eapply set_tracker_inv; [done|]. apply lt_RecordLatency_ok, He. }
  cbn [mbind option_bind]. eexists. split; [done|].
  pose proof (apply_event_inv (n + 1) event
    (if time_is_zero (ev_Timestamp event) then clk 4%nat else ev_Timestamp event) (clk 5%nat) (clk 6%nat) e2 He2) as [].
  by split.
Qed.
End invariant.

(** ** Traces *)

Section traces.
Context {S P : Type} `{ScoreStore S, PenaltyHistoryStore P, GoArch, MapRange}.
Implicit Types e : Engine S P.

Inductive engine_cmd :=
  | ERegister (name : string) (priority : Z) (now : Time)
  | EUnregister (name : string)
  | EEvent (event : ScoreEvent) (clk : clock)
  | EDecay (clk : string -> Time)
  | EReset (clk : string -> Time)
  | ESetEnabled (enabled : bool).

Definition engine_step e (c : engine_cmd) : go (Engine S P) :=
  match c with
  | ERegister name priority now => Some (RegisterProvider name priority now e)
  | EUnregister name => Some (UnregisterProvider name e)
  | EEvent event clk => RecordEvent event clk e
  | EDecay clk => Some (decay_tick clk e)
  | EReset clk => Some (Reset clk e)
  | ESetEnabled b => Some (SetEnabled b e)
  end.

Definition engine_cmd_ok (c : engine_cmd) : Prop :=
  match c with ERegister _ priority _ => 0 <= priority <= 1000 | _ => True end.

Lemma engine_inv_mono n n' e : n <= n' -> engine_inv n e -> engine_inv n' e.
Proof. intros Hn []. split; try done. by eapply lt_ok_mono. Qed.

Lemma RegisterProvider_inv n name priority now e :
  0 <= priority <= 1000 -> engine_inv n e -> engine_inv n (RegisterProvider name priority now e).
Proof.
  intros Hp He. unfold RegisterProvider. destruct (eng_scores e !! name); [done|].
  destruct He as [Hc ? Hs ?]. split; try done. cbn. apply map_Forall_insert_2; [|done].
  split; [done|]. destruct Hc. split; cbn; auto with golib; [|by right].
  by apply (NewProviderScore_base name priority 0 0 now).
Qed.

Lemma Reset_inv n clk e : 0 <= n -> engine_inv n e -> engine_inv n (Reset clk e).
Proof.
  intros Hn [Hc ? Hs ?]. split; try done.
  - intros k ps. cbn. rewrite map_lookup_imap. intros (ps0 & Hk & [= <-])%bind_Some.
    apply Hs in Hk as [? []]. split; [done|]. destruct Hc. split; cbn; auto with golib. by right.
  - split; [|done]. rewrite all_samples_total. cbn. unfold total. by rewrite map_to_list_empty.
Qed.

Lemma engine_step_inv n c e :
  0 <= n -> n + 1 < 2 ^ 53 -> engine_cmd_ok c -> engine_inv n e ->
  exists e', engine_step e c = Some e' /\ engine_inv (n + 1) e'.
Proof.
  intros Hn0 Hb Hc He. destruct c; cbn [engine_step].
  3: by apply RecordEvent_inv.
  all: eexists; (split; [done|]); apply (engine_inv_mono n); [lia|].
  - by apply RegisterProvider_inv.
  - destruct He. split; try done. by apply map_Forall_delete.
  - destruct He as [Hcfg ? Hs ?]. split; try done. intros k ps. cbn. rewrite applyDecay_lookup.
    intros (ps0 & Hk & ->)%fmap_Some. apply Hs in Hk as [? ?]. split; [done|].
    apply ApplyDecay_wf; [apply Hcfg|done|done].
  - by apply Reset_inv.
  - destruct He as [[] ? ? ?]. by split.
Qed.

Lemma engine_run_inv n l e :
  0 <= n -> n + zlen l < 2 ^ 53 -> Forall engine_cmd_ok l -> engine_inv n e ->
  exists e', go_foldl engine_step e l = Some e' /\ engine_inv (n + zlen l) e'.
Proof.
  intros Hn Hb Hl. revert n e Hn Hb. induction Hl as [|c l Hc Hl IH]; intros n e Hn Hb He.
  { exists e. split; [done|]. by rewrite Z.add_0_r. }
  rewrite zlen_cons in *. pose proof (zlen_nonneg l).
  destruct (engine_step_inv n c e) as (e1 & He1 & Hi1); [lia|lia|done|done|].
  cbn. rewrite He1. cbn. destruct (IH (n + 1) e1) as (e2 & He2 & Hi2); [lia|lia|done|].
  exists e2. split; [done|]. by replace (n + (1 + zlen l)) with (n + 1 + zlen l) by lia.
Qed.

Lemma NewEngine_inv opts (p : option P) metrics clk :
  cfg_ok (Validate (apply_options opts DefaultScoringConfig)) ->
  exists e : Engine S P, NewEngine opts None p metrics clk = Some e /\ engine_inv 0 e.
Proof.
  intros Hc. eexists. split; [done|]. split; cbn; [done|apply Hc|done|].
  split; [|done]. rewrite all_samples_total. cbn. unfold total. by rewrite map_to_list_empty.
Qed.
End traces.

(** C4: starting from a new engine without a score store whose options give
    finite non-negative weights (positive ones for slow responses and their
    threshold) and a decay rate between 0 and 1, any sequence of fewer than 2^53 registrations (priority 0 to
    1000), removals, events, decay ticks, resets and enable switches runs
    without a panic, and afterwards every provider's effective score lies
    between 0 and its base score while each accumulated penalty lies between 0
    and the configured maximum. *)
Theorem engine_scores_bounded {S P} `{ScoreStore S, PenaltyHistoryStore P, GoArch, MapRange}
    opts (p : option P) metrics clk l :
  cfg_ok (Validate (apply_options opts DefaultScoringConfig)) ->
  Forall engine_cmd_ok l -> zlen l < 2 ^ 53 ->
  exists e e' : Engine S P,
    NewEngine opts None p metrics clk = Some e /\ go_foldl engine_step e l = Some e'
    /\ forall name ps, eng_scores e' !! name = Some ps ->
         f64_le f64_zero (GetEffectiveScore name e')
         /\ f64_le (GetEffectiveScore name e') (ps_BaseScore ps)
         /\ penalty_ok (sc_MaxPenalty (eng_config e')) (ps_HealthPenalty ps)
         /\ penalty_ok (sc_MaxPenalty (eng_config e')) (ps_ErrorPenalty ps)
         /\ penalty_ok (sc_MaxPenalty (eng_config e')) (ps_RateLimitPenalty ps).
Proof.
  intros Hc Hl Hb. destruct (NewEngine_inv (S := S) opts p metrics clk Hc) as (e & He & Hi).
  destruct (engine_run_inv 0 l e) as (e' & He' & Hi'); [lia|lia|done|done|].
  exists e, e'. split_and!; [done..|]. intros name ps Hps. unfold GetEffectiveScore. rewrite Hps.
  apply (inv_scores _ _ Hi') in Hps as [_ Hwf]. destruct (EffectiveScore_bounds _ _ Hwf) as [Hnn Hle].
  split_and!; [by apply f64_nn_zero_le|done|apply Hwf..].
Qed.

(** A penalty store for concrete runs: it keeps nothing. *)
Definition null_penalty_store : PenaltyHistoryStore unit := {|
  pen_Append r p := (Ok tt, p); pen_GetRecent n k p := (Ok [], p); pen_PurgeOld d p := (Ok tt, p);
  pen_Ping p := (Ok tt, p); pen_Close p := (Ok tt, p); pen_Name p := "null"%string |}.

Definition demo_event (t : ScoreEventType) (p : string) (d : Duration) : ScoreEvent := {|
  ev_Type := t; ev_Provider := p; ev_Timestamp := zero_time; ev_ResponseTime := d;
  ev_HTTPStatus := 0; ev_Error := None; ev_Metadata := ∅ |}.

Definition demo_engine_cmds : list engine_cmd :=
  [ERegister "mempool" 1 0; ERegister "blockchair" 2 0;
   EEvent (demo_event EventOperationFailed "mempool" (2 * Second)) demo_clk;
   EEvent (demo_event EventRateLimited "mempool" 0) demo_clk; EDecay (fun _ => 0)]%string.

Lemma engine_scores_bounded_witness :
  let _ := canonical_range in let _ := null_penalty_store in let _ := arch_amd64 in
  exists e e' : Engine MemoryStore unit,
    NewEngine [] None None false demo_clk = Some e /\ go_foldl engine_step e demo_engine_cmds = Some e'
    /\ forall name ps, eng_scores e' !! name = Some ps ->
         f64_le f64_zero (GetEffectiveScore name e')
         /\ f64_le (GetEffectiveScore name e') (ps_BaseScore ps)
         /\ penalty_ok (sc_MaxPenalty (eng_config e')) (ps_HealthPenalty ps)
         /\ penalty_ok (sc_MaxPenalty (eng_config e')) (ps_ErrorPenalty ps)
         /\ penalty_ok (sc_MaxPenalty (eng_config e')) (ps_RateLimitPenalty ps).
Proof.
  intros R N A. apply engine_scores_bounded.
  - split; try f64_dec; split; f64_dec.
  - repeat constructor; cbn; lia.
  - vm_compute. reflexivity.
Defined.

(** ** Ranking *)

(** Comparison of scores that are not NaN is a strict weak order. *)
Lemma exchange_sort_scores {A} (score : A -> f64) (l : list A) :
  Forall (fun x => ~ is_nan (score x)) l ->
  StronglySorted (fun x y => f64_le (score y) (score x))
    (exchange_sort (fun x y => f64_ltb (score x) (score y)) l).
Proof.
  intros Hl. assert (forall a b, ~ is_nan a -> ~ is_nan b -> f64_ltb a b = false <-> ~ key_lt a b) as Hk.
  { intros a b Ha Hb. rewrite <-(f64_ltb_key a b) by done. by destruct (f64_ltb a b). }
  assert (StronglySorted (fun x y => f64_ltb (score x) (score y) = false)
    (exchange_sort (fun x y => f64_ltb (score x) (score y)) l)) as Hs.
  { apply (exchange_sort_sorted _ (fun x => ~ is_nan (score x))); [..|done].
    - intros ? _. apply f64_ltb_irrefl.
    - intros x y Hx Hy. rewrite f64_ltb_key by done. intros Hlt. apply Hk; [done..|]. by apply key_lt_asym.
    - intros x y z Hx Hy Hz. rewrite !Hk by done. intros H1 H2 H3.
      by destruct (key_lt_negtrans _ (score y) _ H3). }
  assert (Forall (fun x => ~ is_nan (score x))
    (exchange_sort (fun x y => f64_ltb (score x) (score y)) l)) as Hok by (by rewrite exchange_sort_perm).
  revert Hok. induction Hs as [|x k Hs IH Hx]; [constructor|].
  intros Hok. apply Forall_cons in Hok as [Hnx Hok]. constructor; [by apply IH|].
  apply Forall_forall. intros y Hy. rewrite Forall_forall in Hx, Hok.
  apply f64_ltb_false; [done|by apply Hok|by apply Hx].
Qed.

(** C32: the ranking of a well-formed engine lists every registered provider
    exactly once, in descending order of effective score, and reports the
    ranks 1 to n in that order to the metrics recorder. *)
Theorem GetSortedProviders_ranked {S P} `{GoArch, MapRange} n (e : Engine S P) :
  engine_inv n e ->
  let names := (GetSortedProviders e).1 in
  names ≡ₚ (map_to_list (eng_scores e)).*1
  /\ StronglySorted (fun a b => f64_le (GetEffectiveScore b e) (GetEffectiveScore a e)) names
  /\ eng_metrics (GetSortedProviders e).2
     = eng_metrics e ++ imap (fun i name => RecordProviderRank name (Z.of_nat i + 1) (zlen names)) names.
Proof.
  intros He names. set (l := (fun '(name, score) => (name, EffectiveScore score)) <$> range_kv (eng_scores e)).
  assert (Forall (fun x : string * f64 => GetEffectiveScore x.1 e = x.2 /\ ~ is_nan x.2) l) as Hl.
  { apply Forall_fmap, Forall_forall. intros [k ps] Hk%elem_of_range_kv. cbn. unfold GetEffectiveScore.
    rewrite Hk. split; [done|]. apply (inv_scores _ _ He) in Hk as [_ Hwf].
    apply f64_nn_notnan, (EffectiveScore_bounds _ _ Hwf). }
  pose proof (exchange_sort_perm score_below l) as Hp. split_and!.
  - subst names. cbn. unfold ranked_providers. fold l. rewrite Hp. subst l.
    rewrite <-list_fmap_compose, range_kv_perm.
    apply reflexive_eq, list_fmap_ext. by intros _ [k ps] _.
  - subst names. cbn. unfold ranked_providers. fold l.
    assert (StronglySorted (fun x y : string * f64 => f64_le y.2 x.2) (exchange_sort score_below l)) as Hs.
    { apply (exchange_sort_scores snd). eapply Forall_impl; [exact Hl|]. intros x [_ Hx]. exact Hx. }
    rewrite <-Hp in Hl. clear Hp. revert Hl. induction Hs as [|x k Hs IH Hx]; intros Hl; [constructor|].
    apply Forall_cons in Hl as [[Hsx _] Hl]. cbn. constructor; [by apply IH|].
    apply Forall_fmap, Forall_forall. intros y Hy. cbn. rewrite Forall_forall in Hx, Hl.
    destruct (Hl y Hy) as [-> _]. rewrite Hsx. by apply Hx.
  - cbn. subst names. cbn. unfold zlen. by rewrite length_fmap.
Qed.

Lemma GetSortedProviders_ranked_witness :
  let _ := canonical_range in let _ := null_penalty_store in let _ := arch_amd64 in
  exists e : Engine MemoryStore unit,
    (e ← NewEngine [] None None false demo_clk; go_foldl engine_step e demo_engine_cmds) = Some e
    /\ let names := (GetSortedProviders e).1 in
       names ≡ₚ (map_to_list (eng_scores e)).*1
       /\ StronglySorted (fun a b => f64_le (GetEffectiveScore b e) (GetEffectiveScore a e)) names
       /\ eng_metrics (GetSortedProviders e).2
          = eng_metrics e ++ imap (fun i name => RecordProviderRank name (Z.of_nat i + 1) (zlen names)) names.
Proof.
  intros R N A.
  assert (cfg_ok (Validate (apply_options [] DefaultScoringConfig))) as Hc
    by (split; try f64_dec; split; f64_dec).
  destruct (NewEngine_inv (S := MemoryStore) (P := unit) [] None false demo_clk Hc) as (e & He & Hi).
  destruct (engine_run_inv 0 demo_engine_cmds e) as (e' & He' & Hi'); [lia| | |done|].
  - vm_compute. reflexivity.
  - repeat constructor; cbn; lia.
  - exists e'. split; [by rewrite He|]. exact (GetSortedProviders_ranked _ e' Hi').
Defined.
