(* ===== verification/EngineSave.v ===== *)
(** * Saving and loading scores

    What [SaveToStore] writes, [LoadFromStore] brings back: for any lawful
    store, instrumented or not, the providers of the engine that loads have the
    scores and counters of the engine that saved, and the same latency
    samples. *)

From S2P Require Import Prelude GoInt GoFloat GoString Penalties Scorer ScoringConfig Latency.
From S2P Require Import Decay Store Hybrid StoreConvert Engine EngineStore EngineInv.

Section save_load.
Context {S P : Type} `{ScoreStoreLaws S, PenaltyHistoryStore P, MapRange}.
Implicit Types e : Engine S P.

(** The user's store inside the configured one. *)
Definition es_inner (st : engine_store S) : S :=
  match st with PlainStore s => s | WrappedStore w => is_inner w end.

Lemma store_call_law {A} op clk (call : clock -> S -> go (result A * S)) st ok bad :
  (forall clk, outcome (call clk (es_inner st)) ok bad) ->
  outcome (store_call (call clk) (instrument op clk call) st)
    (fun r st' => ok r (es_inner st')) (fun st' => bad (es_inner st')).
Proof.
  intros Hc. destruct st as [s|w]; cbn in *.
  - specialize (Hc clk). by destruct (call clk s) as [[[] ?]|].
  - pose proof (instrument_outcome op clk call w ok bad (Hc _)) as Hw.
    by destruct (instrument op clk call w) as [[[] ?]|].
Qed.

(** Every score is kept under its own, non-empty name. *)
Definition scores_named (scores : gmap string ProviderScore) : Prop :=
  map_Forall (fun k ps => ps_Name ps = k /\ k <> ""%string) scores.

Lemma ToStoreData_valid scores : scores_named scores -> valid_batch (AllScoresToStoreData scores).
Proof.
  intros Hs. apply Forall_fmap, Forall_forall. intros [k ps] Hk%elem_of_range_kv.
  apply Hs in Hk as [<- Hne]. exists (ToStoreData ps). by split.
Qed.

Lemma foldl_set_one_union (m : score_map) ds n :
  valid_batch ds -> foldl set_one m ds !! n = foldl set_one ∅ ds !! n ∪ m !! n.
Proof.
  intros Hv. induction ds as [|o ds IH] using rev_ind; [cbn; rewrite lookup_empty; by destruct (m !! n)|].
  apply Forall_app in Hv as [Hv1 Hv2]. apply Forall_singleton in Hv2 as (d & -> & _).
  rewrite !foldl_app. cbn. destruct (decide (n = psd_Name d)) as [->|Hne].
  - rewrite !lookup_insert_eq. by rewrite union_Some_l.
  - rewrite !lookup_insert_ne by done. by apply IH.
Qed.

(** The batch of all scores, as a map. *)
Lemma save_batch_lookup scores name :
  scores_named scores ->
  foldl set_one ∅ (AllScoresToStoreData scores) !! name = ToStoreData <$> scores !! name.
Proof.
  intros Hs. rewrite <-lookup_fmap. f_equal. apply foldl_set_one_all.
  - intros k d. rewrite lookup_fmap. intros (ps & Hk & ->)%fmap_Some. by apply Hs in Hk.
  - apply all_scores_perm. unfold AllScoresToStoreData. rewrite map_to_list_fmap, range_kv_perm, <-!list_fmap_compose.
    apply reflexive_eq, list_fmap_ext. by intros _ [k ps] _.
Qed.

(** Everything the engine would save is data the store keeps exactly. *)
Definition saveable (clk : clock) e : Prop :=
  map_Forall (fun _ ps => st_storable S (ToStoreData ps)) (eng_scores e)
  /\ st_lat_storable S (LatencyTrackerToStoreData (clk 0%nat) (eng_latencyTracker e)).

Lemma ToStoreData_storable scores :
  map_Forall (fun _ ps => st_storable S (ToStoreData ps)) scores ->
  batch_of (st_storable S) (AllScoresToStoreData scores).
Proof.
  intros Hs. apply Forall_fmap, Forall_forall. intros [k ps] Hk%elem_of_range_kv. exact (Hs _ _ Hk).
Qed.

(** What the store holds after a save: the saved scores over the old ones, and
    the samples. *)
Definition saved (clk : clock) (s0 : S) e (s : S) : Prop :=
  st_inv s
  /\ (forall name, st_view s !! name = (ToStoreData <$> eng_scores e !! name) ∪ st_view s0 !! name)
  /\ st_lat s = Some (LatencyTrackerToStoreData (clk 0%nat) (eng_latencyTracker e)).

Lemma SaveToStore_saved clk e st :
  eng_store e = Some st -> st_inv (es_inner st) -> scores_named (eng_scores e) ->
  saveable clk e ->
  outcome (SaveToStore clk e)
    (fun _ e' => exists st', eng_store e' = Some st' /\ saved clk (es_inner st) e (es_inner st'))
    (fun _ => True).
Proof.
  intros Hst Hi Hn [Hsc Hla]. unfold SaveToStore. rewrite Hst. pose proof (ToStoreData_valid _ Hn) as Hv.
  apply ToStoreData_storable in Hsc.
  set (ds := AllScoresToStoreData (eng_scores e)) in *.
  pose proof (store_call_law "set_scores" clk (fun clk => SetScores clk ds) st _ _
    (fun clk => SetScores_law clk ds _ Hi Hv Hsc)) as Hc.
  change (instrument "set_scores" clk (fun clk => SetScores clk ds)) with (@SetScores (InstrumentedStore S) _ clk ds) in Hc.
  destruct (store_call _ _ st) as [[[[]|err] st1]|]; [|done|done]. destruct Hc as (Hi1 & Hv1 & _).
  cbn [mbind option_bind]. set (lat := LatencyTrackerToStoreData _ _).
  pose proof (store_call_law "set_latency_stats" (clk_skip 1 clk) (fun clk => store_SetLatencyStats clk (Some lat)) st1 _ _
    (fun clk => SetLatencyStats_law clk lat _ Hi1 Hla)) as Hc.
  change (instrument "set_latency_stats" (clk_skip 1 clk) (fun clk => store_SetLatencyStats clk (Some lat)))
    with (@store_SetLatencyStats (InstrumentedStore S) _ (clk_skip 1 clk) (Some lat)) in Hc.
  destruct (store_call _ _ st1) as [[[[]|err] st2]|]; [|done|done]. destruct Hc as (Hi2 & Hv2 & Hl2).
  cbn. exists st2. split; [done|]. split_and!; [done| |done].
  intros name. rewrite Hv2, Hv1, foldl_set_one_union by done. subst ds. by rewrite save_batch_lookup.
Qed.

Lemma st_batch_valid s l :
  st_inv s -> all_scores_of l (st_view s) -> valid_batch l.
Proof.
  intros Hi Hl. apply Forall_forall. intros o (d & -> & ([k d'] & -> & Hk%elem_of_map_to_list)%list_elem_of_fmap)%Hl%list_elem_of_fmap.
  apply (st_names _ Hi) in Hk as [<- Hne]. cbn. eauto.
Qed.

Lemma LoadFromStore_loaded clk e st :
  eng_store e = Some st -> st_inv (es_inner st) ->
  outcome (LoadFromStore clk e)
    (fun _ e' =>
       (forall name d, st_view (es_inner st) !! name = Some d ->
          eng_scores e' !! name = Some (FromStoreData d (sc_LatencyWindowSize (eng_config e))
                                         (sc_PenaltyHistorySize (eng_config e))))
       /\ forall d, st_lat (es_inner st) = Some d ->
          eng_latencyTracker e' = LatencyTrackerFromStoreData (Some d) (sc_LatencyWindowSize (eng_config e)))
    (fun _ => True).
Proof.
  intros Hst Hi. unfold LoadFromStore. rewrite Hst.
  pose proof (store_call_law "get_all_scores" clk GetAllScores st _ _
    (fun clk => GetAllScores_law clk _ Hi)) as Hc.
  change (instrument "get_all_scores" clk GetAllScores) with (@GetAllScores (InstrumentedStore S) _ clk) in Hc.
  destruct (store_call _ _ st) as [[[l|err] st1]|]; [|done|done]. destruct Hc as (Hl & Hi1 & Hv1 & Hl1).
  cbn [mbind option_bind].
  pose proof (store_call_law "get_latency_stats" clk store_GetLatencyStats st1 _ _
    (fun clk => GetLatencyStats_law clk _ Hi1)) as Hc.
  change (instrument "get_latency_stats" clk store_GetLatencyStats)
    with (@store_GetLatencyStats (InstrumentedStore S) _ clk) in Hc.
  destruct (store_call _ _ st1) as [[[ol|err] st2]|]; [|done|done]. destruct Hc as (-> & _).
  assert (forall name d, st_view (es_inner st) !! name = Some d ->
    load_scores (sc_LatencyWindowSize (eng_config e)) (sc_PenaltyHistorySize (eng_config e)) (eng_scores e) l !! name
    = Some (FromStoreData d (sc_LatencyWindowSize (eng_config e)) (sc_PenaltyHistorySize (eng_config e)))) as Hs.
  { intros name d Hd. rewrite load_scores_lookup by (by apply (st_batch_valid (es_inner st))).
    rewrite (foldl_set_one_all _ _ (st_names _ Hi) Hl). by rewrite Hd. }
  cbn [mbind option_bind]. rewrite Hl1. destruct (st_lat (es_inner st)) as [d|]; cbn; (split; [done|]); [|done].
  by intros d' [= <-].
Qed.
End save_load.

(** C33: after a save that reports no error, an engine that loads from the same
    store without an error (whatever it held before) has, for every provider
    of the saving engine, the same effective score, the same counters and the
    same recent latencies, and the non-empty latency windows of every
    provider; neither operation panics. *)
Theorem save_load_roundtrip {S P} `{ScoreStoreLaws S, PenaltyHistoryStore P, MapRange}
    clk clk' (e e2 : Engine S P) st :
  eng_store e = Some st -> st_inv (es_inner st) -> scores_named (eng_scores e) -> saveable clk e ->
  outcome (SaveToStore clk e)
    (fun _ e1 => eng_store e2 = eng_store e1 ->
       outcome (LoadFromStore clk' e2)
         (fun _ e3 =>
            (forall name ps, eng_scores e !! name = Some ps ->
               exists ps', eng_scores e3 !! name = Some ps' /\ EffectiveScore ps' = EffectiveScore ps
                 /\ ToStoreData ps' = ToStoreData ps)
            /\ lt_samples (eng_latencyTracker e3)
               = filter (fun '(_, samples) => 0 < zlen samples) (lt_samples (eng_latencyTracker e)))
         (fun _ => True))
    (fun _ => True).
Proof.
  intros Hst Hi Hn Hsv. eapply outcome_mono; [by apply (SaveToStore_saved clk e st)| |done].
  cbn. intros _ e1 (st1 & Hst1 & Hi1 & Hv1 & Hl1) He2. rewrite Hst1 in He2.
  eapply outcome_mono; [by apply (LoadFromStore_loaded clk' e2 st1)| |done].
  cbn. intros _ e3 [Hs Hl]. split.
  - intros name ps Hps. specialize (Hv1 name). rewrite Hps in Hv1. cbn in Hv1.
    rewrite union_Some_l in Hv1. rewrite (Hs _ _ Hv1). eexists. split_and!; [done..|].
    by rewrite ToStoreData_FromStoreData.
  - rewrite (Hl _ Hl1). cbn. apply map_eq. intros k. apply option_eq. intros v. rewrite !map_lookup_filter_Some. tauto.
Qed.

(** The engine of the concrete run, with a memory store attached. *)
Definition demo_saved_engine : Engine MemoryStore unit :=
  let _ := canonical_range in let _ := null_penalty_store in let _ := arch_amd64 in
  match (e ← NewEngine [] (Some NewMemoryStore) None true demo_clk; go_foldl engine_step e demo_engine_cmds) with
  | Some e => e
  | None => {| eng_config := DefaultScoringConfig; eng_scores := ∅; eng_latencyTracker := NewLatencyTracker 1;
               eng_decayManager := NewDecayManager DefaultScoringConfig; eng_store := None;
               eng_penaltyHistoryStore := None; eng_metrics := []; eng_cleanup := None;
               eng_pending := []; eng_started := false |}
  end.

Lemma save_load_roundtrip_witness :
  let _ := canonical_range in let _ := null_penalty_store in
  size (eng_scores demo_saved_engine) = 2%nat
  /\ exists st, eng_store demo_saved_engine = Some st
    /\ outcome (SaveToStore demo_clk demo_saved_engine)
    (fun _ e1 => eng_store (set_eng_scores ∅ e1) = eng_store e1 ->
       outcome (LoadFromStore demo_clk (set_eng_scores ∅ e1))
         (fun _ e3 =>
            (forall name ps, eng_scores demo_saved_engine !! name = Some ps ->
               exists ps', eng_scores e3 !! name = Some ps' /\ EffectiveScore ps' = EffectiveScore ps
                 /\ ToStoreData ps' = ToStoreData ps)
            /\ lt_samples (eng_latencyTracker e3)
               = filter (fun '(_, samples) => 0 < zlen samples) (lt_samples (eng_latencyTracker demo_saved_engine)))
         (fun _ => True))
    (fun _ => True).
Proof.
  intros R N. split; [vm_compute; reflexivity|].
  assert (exists st, eng_store demo_saved_engine = Some st /\ st_inv (es_inner st)) as (st & Hst & Hi).
  { eexists. split; [vm_compute; reflexivity|]. exact (map_Forall_empty _). }
  exists st. split; [exact Hst|].
  assert (scores_named (eng_scores demo_saved_engine)) as Hn.
  { unfold scores_named. refine (bool_decide_unpack _ _). vm_compute. exact I. }
  assert (saveable demo_clk demo_saved_engine) as Hsv by (split; [intros k ps _|]; exact I).
  pose proof (fun e2 => save_load_roundtrip demo_clk demo_clk demo_saved_engine e2 st Hst Hi Hn Hsv) as Hall.
  destruct (SaveToStore demo_clk demo_saved_engine) as [[[] e1]|]; [|exact I|exact (Hall demo_saved_engine)].
  exact (Hall (set_eng_scores ∅ e1)).
Defined.
