(* ===== verification/Redis.v ===== *)
(** * The Redis score store

    [scoring/store/redis.go]: scores and latency samples as JSON texts under
    prefixed keys of a Redis database, with publication of updates, expiring
    scores and a distributed lock.

    The Redis client ([github.com/redis/go-redis]) and the server behind it are
    the parameter [RedisClient]: a state [W] and one function per command.
    What is known of the commands is in [RedisLaws]. *)

From Stdlib Require Import Ascii.
From S2P Require Import Prelude GoInt GoFloat GoString GoCodec GoNum GoJson GoDecode GoHttp GoTime GoFloatText Store StoreJson.

(** ** The client *)

(** The reply of a command: [redis.Nil], a value or another error. *)
Inductive reply (A : Type) := RNil | ROk (a : A) | RErr (e : error).
Arguments RNil {_}.
Arguments ROk {_} _.
Arguments RErr {_} _.

(** The commands the stores put in a pipeline. *)
Inductive redis_cmd :=
  | PipeSet (key value : string) (ttl : Duration)
  | PipeRPush (key value : string)
  | PipeLTrim (key : string) (start stop : Z)
  | PipeExpire (key : string) (ttl : Duration).

Record RedisOptions := {
  ro_Addr : string;
  ro_Password : string;
  ro_DB : Z;
  ro_PoolSize : Z;
  ro_MinIdleConns : Z
}.

(** [redis_SetNX] is [SetArgs] in mode NX, [redis_Exec] runs a pipeline.
    [redis_scan_bound] is not a command: it bounds how many calls of SCAN an
    iteration that starts now may take. *)
Class RedisClient (W : Type) := {
  (** [None]: it panics on a pool size it cannot make *)
  redis_NewClient : RedisOptions -> go W;
  redis_Ping : W -> result unit * W;
  redis_Close : W -> result unit * W;
  redis_Get : string -> W -> reply string * W;
  redis_Set : string -> string -> Duration -> W -> result unit * W;
  redis_SetNX : string -> string -> Duration -> W -> reply string * W;
  redis_Del : string -> W -> result unit * W;
  redis_Scan : Z -> string -> Z -> W -> result (list string * Z) * W;
  redis_MGet : list string -> W -> result (list (option string)) * W;
  redis_LRange : string -> Z -> Z -> W -> reply (list string) * W;
  redis_Exec : list redis_cmd -> W -> result unit * W;
  redis_Publish : string -> string -> W -> W;
  redis_Eval : string -> list string -> list string -> W -> W;
  redis_scan_bound : W -> nat
}.

(** ** The store *)

Definition defaultRedisKeyPrefix : string := "chainkit:scoring:".
Definition scoreKeyPattern : string := "score:".
Definition latencyKeyName : string := "latency".
Definition lockKeyPattern : string := "lock:".
Definition eventChannelName : string := "events".

Record RedisConfig := {
  rc_Addr : string;
  rc_Password : string;
  rc_DB : Z;
  rc_PoolSize : Z;
  rc_MinIdleConns : Z;
  rc_ScoreTTL : Duration;
  rc_KeyPrefix : string
}.

(** [rs_pending] are the payloads handed to goroutines that publish them. *)
Record RedisStore (W : Type) := {
  rs_client : W;
  rs_config : RedisConfig;
  rs_keyPrefix : string;
  rs_pending : list string
}.
Arguments rs_client {_} _.
Arguments rs_config {_} _.
Arguments rs_keyPrefix {_} _.
Arguments rs_pending {_} _.

(** The prefix of the configuration, closed with a colon. *)
Definition key_prefix (deflt configured : string) : string :=
  if bool_decide (configured = ""%string) then deflt
  else if bool_decide (String.get (String.length configured - 1) configured = Some ":"%char) then configured
  else (configured +:+ ":")%string.

Definition redis_defaults (config : RedisConfig) : RedisConfig := {|
  rc_Addr := rc_Addr config; rc_Password := rc_Password config; rc_DB := rc_DB config;
  rc_PoolSize := if rc_PoolSize config =? 0 then 10 else rc_PoolSize config;
  rc_MinIdleConns := if rc_MinIdleConns config =? 0 then 2 else rc_MinIdleConns config;
  rc_ScoreTTL := rc_ScoreTTL config; rc_KeyPrefix := rc_KeyPrefix config |}.

Section redis.
Context {W : Type} `{RedisClient W, Zone, JsonErrors}.
Implicit Types s : RedisStore W.

(** A failed connection check closes the client, whose state is returned. *)
Definition NewRedisStore (config : RedisConfig) : go (result (RedisStore W) * W) :=
  let config := redis_defaults config in
  client ← redis_NewClient {|
    ro_Addr := rc_Addr config; ro_Password := rc_Password config; ro_DB := rc_DB config;
    ro_PoolSize := rc_PoolSize config; ro_MinIdleConns := rc_MinIdleConns config |};
  let '(r, client) := redis_Ping client in
  Some match r with
  | Err e => let '(_, client) := redis_Close client in (Err (errWrap "redis connection failed: " e ""), client)
  | Ok _ =>
      (Ok {| rs_client := client; rs_config := config;
             rs_keyPrefix := key_prefix defaultRedisKeyPrefix (rc_KeyPrefix config); rs_pending := [] |}, client)
  end.

Definition rs_set_client (w : W) s : RedisStore W :=
  {| rs_client := w; rs_config := rs_config s; rs_keyPrefix := rs_keyPrefix s; rs_pending := rs_pending s |}.
Definition rs_set_pending (p : list string) s : RedisStore W :=
  {| rs_client := rs_client s; rs_config := rs_config s; rs_keyPrefix := rs_keyPrefix s; rs_pending := p |}.

Definition scoreKey (providerName : string) s : string := (rs_keyPrefix s +:+ scoreKeyPattern +:+ providerName)%string.
Definition latencyKey s : string := (rs_keyPrefix s +:+ latencyKeyName)%string.
Definition lockKey (providerName : string) s : string := (rs_keyPrefix s +:+ lockKeyPattern +:+ providerName)%string.
Definition eventChannel s : string := (rs_keyPrefix s +:+ eventChannelName)%string.

Definition rs_GetScore (providerName : string) s : result (option ProviderScoreData) * RedisStore W :=
  let '(r, w) := redis_Get (scoreKey providerName s) (rs_client s) in
  let s := rs_set_client w s in
  match r with
  | RNil => (Ok None, s)
  | RErr e => (Err (errWrap "redis get: " e ""), s)
  | ROk data =>
      match unmarshal_score data with
      | Err e => (Err (errWrap "unmarshal score: " e ""), s)
      | Ok score => (Ok (Some score), s)
      end
  end.

(** [SetScore] and [SetScoreWithTTL] differ in the expiration and the error. *)
Definition rs_set_score (what : string) (ttl : Duration) (data : option ProviderScoreData) s
    : result unit * RedisStore W :=
  match data with
  | None => (Ok tt, s)
  | Some d =>
      if bool_decide (psd_Name d = ""%string) then (Ok tt, s)
      else
        match marshal_score d with
        | Err e => (Err (errWrap "marshal score: " e ""), s)
        | Ok bytes =>
            let '(r, w) := redis_Set (scoreKey (psd_Name d) s) bytes ttl (rs_client s) in
            let s := rs_set_client w s in
            match r with
            | Err e => (Err (errWrap what e ""), s)
            | Ok _ => (Ok tt, rs_set_pending (rs_pending s ++ [bytes]) s)
            end
        end
  end.

Definition rs_SetScore (data : option ProviderScoreData) s : result unit * RedisStore W :=
  rs_set_score "redis set: " (rc_ScoreTTL (rs_config s)) data s.

Definition rs_SetScoreWithTTL (data : option ProviderScoreData) (ttl : Duration) s : result unit * RedisStore W :=
  rs_set_score "redis set with ttl: " ttl data s.

(** The values of a batch: missing ones and invalid ones are skipped. *)
Definition decode_scores (values : list (option string)) : list (option ProviderScoreData) :=
  omap (fun v => text ← v; match unmarshal_score text with Ok d => Some (Some d) | Err _ => None end) values.

(** The loop over SCAN; it does not return ([None]) when the bound is not enough. *)
Fixpoint scan_scores (fuel : nat) (pattern : string) (cursor : Z) (scores : list (option ProviderScoreData)) s
    : go (result (list (option ProviderScoreData)) * RedisStore W) :=
  match fuel with
  | O => None
  | Datatypes.S fuel =>
      let '(r, w) := redis_Scan cursor pattern 100 (rs_client s) in
      let s := rs_set_client w s in
      match r with
      | Err e => Some (Err (errWrap "redis scan: " e ""), s)
      | Ok (keys, nextCursor) =>
          let '(r, s) :=
            if 0 <? zlen keys then
              let '(r, w) := redis_MGet keys (rs_client s) in
              let s := rs_set_client w s in
              match r with
              | Err e => (Err (errWrap "redis mget: " e ""), s)
              | Ok values => (Ok (scores ++ decode_scores values), s)
              end
            else (Ok scores, s) in
          match r with
          | Err e => Some (Err e, s)
          | Ok scores => if nextCursor =? 0 then Some (Ok scores, s) else scan_scores fuel pattern nextCursor scores s
          end
      end
  end.

Definition rs_GetAllScores s : go (result (list (option ProviderScoreData)) * RedisStore W) :=
  scan_scores (redis_scan_bound (rs_client s)) (rs_keyPrefix s +:+ scoreKeyPattern +:+ "*")%string 0 [] s.

Definition rs_DeleteScore (providerName : string) s : result unit * RedisStore W :=
  let '(r, w) := redis_Del (scoreKey providerName s) (rs_client s) in
  let s := rs_set_client w s in
  match r with Err e => (Err (errWrap "redis del: " e ""), s) | Ok _ => (Ok tt, s) end.

(** The pipeline of a batch. *)
Fixpoint batch_cmds (data : list (option ProviderScoreData)) s : result (list redis_cmd) :=
  match data with
  | [] => Ok []
  | None :: data => batch_cmds data s
  | Some d :: data =>
      if bool_decide (psd_Name d = ""%string) then batch_cmds data s
      else
        match marshal_score d with
        | Err e => Err (errWrap ("marshal score " +:+ psd_Name d +:+ ": ") e "")
        | Ok bytes =>
            match batch_cmds data s with
            | Err e => Err e
            | Ok cmds => Ok (PipeSet (scoreKey (psd_Name d) s) bytes (rc_ScoreTTL (rs_config s)) :: cmds)
            end
        end
  end.

Definition rs_SetScores (data : list (option ProviderScoreData)) s : result unit * RedisStore W :=
  if zlen data =? 0 then (Ok tt, s)
  else
    match batch_cmds data s with
    | Err e => (Err e, s)
    | Ok cmds =>
        let '(r, w) := redis_Exec cmds (rs_client s) in
        let s := rs_set_client w s in
        match r with Err e => (Err (errWrap "redis pipeline exec: " e ""), s) | Ok _ => (Ok tt, s) end
    end.

Definition rs_GetLatencyStats s : result (option LatencyStatsData) * RedisStore W :=
  let '(r, w) := redis_Get (latencyKey s) (rs_client s) in
  let s := rs_set_client w s in
  match r with
  | RNil => (Ok None, s)
  | RErr e => (Err (errWrap "redis get latency: " e ""), s)
  | ROk data =>
      match unmarshal_latency data with
      | Err e => (Err (errWrap "unmarshal latency stats: " e ""), s)
      | Ok stats => (Ok (Some stats), s)
      end
  end.

Definition rs_SetLatencyStats (data : option LatencyStatsData) s : result unit * RedisStore W :=
  match data with
  | None => (Ok tt, s)
  | Some d =>
      match marshal_latency d with
      | Err e => (Err (errWrap "marshal latency stats: " e ""), s)
      | Ok bytes =>
          let '(r, w) := redis_Set (latencyKey s) bytes (rc_ScoreTTL (rs_config s)) (rs_client s) in
          let s := rs_set_client w s in
          match r with Err e => (Err (errWrap "redis set latency: " e ""), s) | Ok _ => (Ok tt, s) end
      end
  end.

Definition rs_Close s : result unit * RedisStore W :=
  let '(r, w) := redis_Close (rs_client s) in (r, rs_set_client w s).

Definition rs_Ping s : result unit * RedisStore W :=
  let '(r, w) := redis_Ping (rs_client s) in (r, rs_set_client w s).

#[export] Instance RedisStore_store : ScoreStore (RedisStore W) := {|
  GetScore clk n s := Some (rs_GetScore n s);
  SetScore clk d s := Some (rs_SetScore d s);
  GetAllScores clk s := rs_GetAllScores s;
  DeleteScore clk n s := Some (rs_DeleteScore n s);
  SetScores clk ds s := Some (rs_SetScores ds s);
  store_GetLatencyStats clk s := Some (rs_GetLatencyStats s);
  store_SetLatencyStats clk d s := Some (rs_SetLatencyStats d s);
  store_Close s := Some (rs_Close s);
  store_Ping s := Some (rs_Ping s);
  store_Name s := "redis"%string;
  store_SetRecorder s := s
|}.

(** ** Publication and watching *)

(** The goroutine of the [i]-th pending publication runs. *)
Definition publishScoreUpdate (i : nat) s : RedisStore W :=
  match rs_pending s !! i with
  | None => s
  | Some payload =>
      rs_set_client (redis_Publish (eventChannel s) payload (rs_client s))
        (rs_set_pending (take i (rs_pending s) ++ drop (S i) (rs_pending s)) s)
  end.

(** What the [select] of [Watch] receives. *)
Inductive watch_event := WatchDone (ctxErr : error) | WatchMessage (payload : string) | WatchClosed.

(** [Watch] on the events it receives: the calls of the callback, and the error
    it returns, [None] while it waits for more. *)
Fixpoint watch_loop (events : list watch_event) : list (string * ProviderScoreData) * option error :=
  match events with
  | [] => ([], None)
  | WatchDone e :: _ => ([], Some e)
  | WatchClosed :: _ => ([], Some (errOther "pubsub channel closed"))
  | WatchMessage payload :: events =>
      match unmarshal_score payload with
      | Err _ => watch_loop events
      | Ok data => let '(calls, r) := watch_loop events in ((psd_Name data, data) :: calls, r)
      end
  end.

(** What goes over the connection of the watcher's client: publications, and
    the end of the context or of the connection. *)
Inductive bus_event := BusPublished (channel payload : string) | BusDone (ctxErr : error) | BusClosed.

(** A subscription to a channel receives what is published there. *)
Definition subscription (channel : string) (bus : list bus_event) : list watch_event :=
  omap (fun e => match e with
                 | BusPublished c payload => if bool_decide (c = channel) then Some (WatchMessage payload) else None
                 | BusDone e => Some (WatchDone e)
                 | BusClosed => Some WatchClosed
                 end) bus.

(** [confirmed] is the answer to the subscription. *)
Definition Watch (confirmed : result unit) (bus : list bus_event) s
    : list (string * ProviderScoreData) * option error :=
  match confirmed with
  | Err e => ([], Some (errWrap "subscribe failed: " e ""))
  | Ok _ => watch_loop (subscription (eventChannel s) bus)
  end.

(** ** The lock *)

Definition lockValue (now : Time) : string := format_int (time_UnixNano now).

(** [Lock]: the value to unlock with, or an error. *)
Definition Lock (clk : clock) (providerName : string) (ttl : Duration) s : result string * RedisStore W :=
  let value := lockValue (clk 0%nat) in
  let '(r, w) := redis_SetNX (lockKey providerName s) value ttl (rs_client s) in
  let s := rs_set_client w s in
  let held := Err (errOther ("lock already held for provider " +:+ providerName)) in
  let result := match r with ROk v => v | _ => ""%string end in
  match r with
  | RNil => (held, s)
  | RErr e => if bool_decide (result = ""%string) then (held, s) else (Err (errWrap "redis set: " e ""), s)
  | ROk _ => if bool_decide (result = ""%string) then (held, s) else (Ok value, s)
  end.

Definition nl : string := String "010"%char EmptyString.
Definition tabs (n : nat) : string := String.concat EmptyString (repeat (String "009"%char EmptyString) n).
Definition quoted (t : string) : string := String dquote (t +:+ String dquote EmptyString).

Definition unlock_script : string :=
  (nl +:+ tabs 3 +:+ "if redis.call(" +:+ quoted "get" +:+ ", KEYS[1]) == ARGV[1] then"
   +:+ nl +:+ tabs 4 +:+ "return redis.call(" +:+ quoted "del" +:+ ", KEYS[1])"
   +:+ nl +:+ tabs 3 +:+ "else"
   +:+ nl +:+ tabs 4 +:+ "return 0"
   +:+ nl +:+ tabs 3 +:+ "end"
   +:+ nl +:+ tabs 2)%string.

(** The function that [Lock] returns. *)
Definition unlock (providerName value : string) s : RedisStore W :=
  rs_set_client (redis_Eval unlock_script [lockKey providerName s] [value] (rs_client s)) s.
End redis.
