(* ===== verification/RedisLaws.v ===== *)
(** * What a Redis server promises

    The database behind a [RedisClient], as the documentation of the commands
    describes it: keys hold strings or lists, a key with a deadline is not
    removed before it, and a full iteration of SCAN returns every key that is
    there from its start to its end, some keys more than once perhaps.

    The client repeats a command whose reply did not arrive, up to a number of
    times that it is configured with (three by default in go-redis, which the
    stores keep): a call is a series of attempts, each of
    which the server executed or not, a pipeline perhaps in part; when the call
    reports no error, the last attempt was executed and answered.  No attempt is
    executed after the call has returned. *)

From Stdlib Require Import Ascii.
From S2P Require Import Prelude GoInt GoFloat GoString GoCodec GoJson Store StoreJson Redis.

(** ** The database *)

Inductive rvalue := RString (text : string) | RList (items : list string).

(** [re_deadline] is when the key expires. *)
Record rentry := { re_value : rvalue; re_deadline : option Time }.

Abbreviation database := (gmap string rentry).

Definition lasts (now : Time) (e : rentry) : Prop :=
  match re_deadline e with Some t => now < t | None => True end.

(** Some keys whose deadline has passed are gone. *)
Definition expired (now : Time) (m m' : database) : Prop :=
  m' ⊆ m /\ forall k e, m !! k = Some e -> lasts now e -> m' !! k = Some e.

Lemma expired_refl now m : expired now m m.
Proof. by split. Qed.

(** ** The commands *)

(** The client sends whole milliseconds, or whole seconds, and at least one. *)
Definition whole (unit ttl : Duration) : Duration := if ttl <? unit then unit else ttl - ttl mod unit.

(** SET: an expiration of -1 keeps the deadline, other ones below 1 mean none. *)
Definition db_set (k v : string) (ttl : Duration) (now : Time) (m : database) : database :=
  let deadline := if 0 <? ttl then Some (now + whole Millisecond ttl)
                  else if ttl =? -1 then m !! k ≫= re_deadline else None in
  <[k := {| re_value := RString v; re_deadline := deadline |}]> m.

(** SET NX. *)
Definition db_set_nx (k v : string) (ttl : Duration) (now : Time) (m : database) : database :=
  match m !! k with None => db_set k v (Z.max 0 ttl) now m | Some _ => m end.

Definition db_del (k : string) (now : Time) (m : database) : database := delete k m.

(** RPUSH on a key that is no list is an error. *)
Definition db_rpush (k v : string) (m : database) : database :=
  match m !! k with
  | None => <[k := {| re_value := RList [v]; re_deadline := None |}]> m
  | Some {| re_value := RList l; re_deadline := t |} => <[k := {| re_value := RList (l ++ [v]); re_deadline := t |}]> m
  | Some _ => m
  end.

(** The items from [start] to [stop], both counted from the end when negative. *)
Definition list_range (start stop : Z) (l : list string) : list string :=
  let n := zlen l in
  let start := if start <? 0 then Z.max 0 (n + start) else start in
  let stop := if stop <? 0 then n + stop else stop in
  if stop <? start then [] else take (Z.to_nat (stop - start + 1)) (drop (Z.to_nat start) l).

Definition db_ltrim (k : string) (start stop : Z) (m : database) : database :=
  match m !! k with
  | Some {| re_value := RList l; re_deadline := t |} =>
      match list_range start stop l with
      | [] => delete k m
      | l => <[k := {| re_value := RList l; re_deadline := t |}]> m
      end
  | _ => m
  end.

(** EXPIRE: the client sends seconds; none or fewer delete the key. *)
Definition db_expire (k : string) (ttl : Duration) (now : Time) (m : database) : database :=
  match m !! k with
  | Some e => if 0 <? ttl then <[k := {| re_value := re_value e; re_deadline := Some (now + whole Second ttl) |}]> m else delete k m
  | None => m
  end.

Definition db_pipe (now : Time) (m : database) (c : redis_cmd) : database :=
  match c with
  | PipeSet k v ttl => db_set k v ttl now m
  | PipeRPush k v => db_rpush k v m
  | PipeLTrim k start stop => db_ltrim k start stop m
  | PipeExpire k ttl => db_expire k ttl now m
  end.

Definition db_pipeline (cmds : list redis_cmd) (now : Time) (m : database) : database := foldl (db_pipe now) m cmds.

(** The unlock script. *)
Definition db_unlock (k v : string) (now : Time) (m : database) : database :=
  match m !! k with
  | Some {| re_value := RString v' |} => if bool_decide (v' = v) then delete k m else m
  | _ => m
  end.

Definition db_string (m : database) (k : string) : option string :=
  match m !! k with Some {| re_value := RString v |} => Some v | _ => None end.

(** A prefix in which no character is special in a pattern. *)
Definition no_glob (p : string) : bool :=
  str_all (fun c => negb (bool_decide (c = "*"%char \/ c = "?"%char \/ c = "["%char \/ c = backslash))) p.

(** ** The laws *)

(** Time passes. *)
Definition keep (t : Time) (m : database) : database := m.
Definition any (m : database) : Prop := True.

(** An execution of a command with effect [f], from a database and time of the
    server to another: keys may have expired before and after, and [Q] held of
    the database it ran on. *)
Definition executed (f : Time -> database -> database) (Q : database -> Prop) (s s' : database * Time) : Prop :=
  exists t m, s.2 <= t <= s'.2 /\ expired t s.1 m /\ expired s'.2 (f t m) s'.1 /\ Q m.

(** An attempt at a command whose executions have the effects [E]: it was
    executed or not. *)
Definition attempt (E : (Time -> database -> database) -> Prop) (s s' : database * Time) : Prop :=
  exists f, (f = keep \/ E f) /\ executed f any s s'.

(** The one effect [f], and those of a part of a pipeline. *)
Definition effect (f g : Time -> database -> database) : Prop := g = f.
Definition part_of (cmds : list redis_cmd) (g : Time -> database -> database) : Prop :=
  exists cmds', cmds' `sublist_of` cmds /\ g = db_pipeline cmds'.

Lemma executed_time f Q s s' : executed f Q s s' -> s.2 <= s'.2.
Proof. intros (t & m & ? & _). lia. Qed.

Lemma attempt_time E s s' : attempt E s s' -> s.2 <= s'.2.
Proof. intros (f & _ & Hf). by eapply executed_time. Qed.

Lemma attempts_time E s s' : rtc (attempt E) s s' -> s.2 <= s'.2.
Proof. induction 1 as [s|s s1 s' Ha _ IH]; [done|]. apply attempt_time in Ha. lia. Qed.

(** What one attempt preserves, a series of attempts preserves. *)
Lemma attempts_keep E (I : database * Time -> Prop) s s' :
  (forall a b, I a -> attempt E a b -> I b) -> I s -> rtc (attempt E) s s' -> I s'.
Proof. intros HI Hs Hr. induction Hr as [s|s s1 s' Ha _ IH]; [done|]. apply IH. by eapply HI. Qed.

(** No more than [n] attempts. *)
Definition attempts (n : nat) (E : (Time -> database -> database) -> Prop) (s s' : database * Time) : Prop :=
  exists k, (k <= n)%nat /\ nsteps (attempt E) k s s'.

Lemma attempts_rtc n E s s' : attempts n E s s' -> rtc (attempt E) s s'.
Proof. intros (k & _ & Hk). by eapply rtc_nsteps_2. Qed.

Section reach.
Context {W : Type} (db : W -> database) (now : W -> Time) (retries : nat).

Definition server (w : W) : database * Time := (db w, now w).

(** The command was executed once. *)
Definition ran (f : Time -> database -> database) (Q : database -> Prop) (w w' : W) : Prop :=
  exists t m, now w <= t <= now w' /\ expired t (db w) m /\ expired (now w') (f t m) (db w') /\ Q m.

(** It was attempted, and repeated at most [retries] times, the last attempt
    being an execution of [f]. *)
Definition retried (E : (Time -> database -> database) -> Prop) (f : Time -> database -> database)
    (Q : database -> Prop) (w w' : W) : Prop :=
  exists s, attempts retries E (server w) s /\ executed f Q s (server w').

(** It was attempted, and repeated at most [retries] times. *)
Definition attempted (E : (Time -> database -> database) -> Prop) (w w' : W) : Prop :=
  attempts (S retries) E (server w) (server w').

Lemma ran_executed f Q w w' : ran f Q w w' <-> executed f Q (server w) (server w').
Proof. done. Qed.

Lemma ran_retried E f Q w w' : ran f Q w w' -> retried E f Q w w'.
Proof. intros Hr. exists (server w). split; [exists 0%nat; split; [lia|constructor]|exact Hr]. Qed.

Lemma ran_attempted E f Q w w' : E f \/ f = keep -> ran f Q w w' -> attempted E w w'.
Proof.
  intros HE (t & m & ? & ? & ? & _). exists 1%nat. split; [lia|]. apply nsteps_once. exists f. split; [tauto|]. by exists t, m.
Qed.

Lemma retried_rtc E f Q w w' : retried E f Q w w' -> exists s, rtc (attempt E) (server w) s /\ executed f Q s (server w').
Proof. intros (s & Hs & Hx). exists s. split; [by eapply attempts_rtc|done]. Qed.

Lemma attempted_rtc E w w' : attempted E w w' -> rtc (attempt E) (server w) (server w').
Proof. apply attempts_rtc. Qed.
End reach.

(** [scan_left w c p k]: an iteration at the cursor [c] with the pattern [p] has
    the key [k] still to return; [scan_steps] is how many calls it may yet take. *)
Class RedisLaws (W : Type) `{RedisClient W} := {
  redis_db : W -> database;
  redis_now : W -> Time;
  (** how often the client repeats a command *)
  redis_retries : nat;
  scan_left : W -> Z -> string -> string -> Prop;
  scan_steps : W -> Z -> string -> nat;
  Get_law : forall k w,
    match redis_Get k w with
    | (ROk v, w') => ran redis_db redis_now keep (fun m => db_string m k = Some v) w w'
    | (RNil, w') => ran redis_db redis_now keep (fun m => m !! k = None) w w'
    | (RErr _, w') => ran redis_db redis_now keep any w w'
    end;
  Set_law : forall k v ttl w,
    match redis_Set k v ttl w with
    | (Ok _, w') => retried redis_db redis_now redis_retries (effect (db_set k v ttl)) (db_set k v ttl) any w w'
    | (Err _, w') => attempted redis_db redis_now redis_retries (effect (db_set k v ttl)) w w'
    end;
  SetNX_law : forall k v ttl w,
    match redis_SetNX k v ttl w with
    | (ROk _, w') => retried redis_db redis_now redis_retries (effect (db_set_nx k v ttl)) (db_set_nx k v ttl) (fun m => m !! k = None) w w'
    | (RNil, w') => retried redis_db redis_now redis_retries (effect (db_set_nx k v ttl)) keep (fun m => is_Some (m !! k)) w w'
    | (RErr _, w') => attempted redis_db redis_now redis_retries (effect (db_set_nx k v ttl)) w w'
    end;
  Del_law : forall k w,
    match redis_Del k w with
    | (Ok _, w') => retried redis_db redis_now redis_retries (effect (db_del k)) (db_del k) any w w'
    | (Err _, w') => attempted redis_db redis_now redis_retries (effect (db_del k)) w w'
    end;
  MGet_law : forall ks w,
    match redis_MGet ks w with
    | (Ok vs, w') => ran redis_db redis_now keep (fun m => vs = db_string m <$> ks) w w'
    | (Err _, w') => ran redis_db redis_now keep any w w'
    end;
  LRange_law : forall k start stop w,
    match redis_LRange k start stop w with
    | (ROk vs, w') => ran redis_db redis_now keep
        (fun m => match m !! k with
                  | Some {| re_value := RList l |} => vs = list_range start stop l
                  | Some _ => False
                  | None => vs = []
                  end) w w'
    | (_, w') => ran redis_db redis_now keep any w w'
    end;
  Exec_law : forall cmds w,
    match redis_Exec cmds w with
    | (Ok _, w') => retried redis_db redis_now redis_retries (part_of cmds) (db_pipeline cmds) any w w'
    | (Err _, w') => attempted redis_db redis_now redis_retries (part_of cmds) w w'
    end;
  Publish_law : forall c p w, ran redis_db redis_now keep any w (redis_Publish c p w);
  Unlock_law : forall k v w,
    attempted redis_db redis_now redis_retries (effect (db_unlock k v)) w (redis_Eval unlock_script [k] [v] w);
  Ping_law : forall w, ran redis_db redis_now keep any w (redis_Ping w).2;
  Close_law : forall w, ran redis_db redis_now keep any w (redis_Close w).2;
  Scan_keeps : forall c p count w, ran redis_db redis_now keep any w (redis_Scan c p count w).2;
  Scan_law : forall c p count w, no_glob p = true ->
    match redis_Scan c (p +:+ "*") count w with
    | (Ok (keys, c'), w') =>
        Forall (fun k => String.prefix p k = true) keys
        /\ (forall k, scan_left w c (p +:+ "*") k -> is_Some (redis_db w' !! k) ->
              k ∈ keys \/ (c' <> 0 /\ scan_left w' c' (p +:+ "*") k))
        /\ (c' <> 0 -> (scan_steps w' c' (p +:+ "*") < scan_steps w c (p +:+ "*"))%nat)
    | (Err _, w') => True
    end;
  scan_starts : forall p w k, no_glob p = true -> String.prefix p k = true -> is_Some (redis_db w !! k) ->
    scan_left w 0 (p +:+ "*") k;
  scan_bounded : forall p w, no_glob p = true -> (scan_steps w 0 (p +:+ "*") < redis_scan_bound w)%nat;
  (** reading values does not disturb an iteration *)
  scan_MGet : forall ks c p k w, scan_left w c p k -> scan_left (redis_MGet ks w).2 c p k;
  scan_MGet_steps : forall ks c p w, (scan_steps (redis_MGet ks w).2 c p <= scan_steps w c p)%nat
}.

(** A server that takes every write. *)
Class RedisReliable (W : Type) `{RedisClient W} := {
  Set_reliable : forall k v ttl w, exists w', redis_Set k v ttl w = (Ok tt, w');
  Exec_reliable : forall cmds w, exists w', redis_Exec cmds w = (Ok tt, w')
}.
