(* ===== verification/RedisToy.v ===== *)
(** * A small Redis server

    An instance of [RedisClient] for concrete runs: one map in memory, a clock
    that stands still, and a SCAN that returns one key at a time.  It satisfies
    [RedisLaws], so the laws can hold. *)

From Stdlib Require Import Ascii.
From S2P Require Import Prelude GoInt GoFloat GoString GoCodec GoJson Events Store StoreJson Redis RedisLaws.

Record toy := { toy_db : database; toy_now : Time }.

Definition toy_with (m : database) (w : toy) : toy := {| toy_db := m; toy_now := toy_now w |}.

(** The keys with the prefix of a pattern that ends in a star. *)
Definition toy_keys (pattern : string) (w : toy) : list string :=
  List.filter (fun k => String.prefix (String.substring 0 (String.length pattern - 1) pattern) k)
    (map_to_list (toy_db w)).*1.

Definition toy_Scan (c : Z) (pattern : string) (count : Z) (w : toy) : result (list string * Z) * toy :=
  let keys := toy_keys pattern w in
  let c' := Z.max 0 c + 1 in
  (Ok (option_list (keys !! Z.to_nat c), if c' <? zlen keys then c' else 0), w).

Definition toy_LRange (k : string) (start stop : Z) (w : toy) : reply (list string) :=
  match toy_db w !! k with
  | None => ROk []
  | Some {| re_value := RList l |} => ROk (list_range start stop l)
  | Some _ => RErr (errOther "WRONGTYPE")
  end.

#[export] Instance toy_client : RedisClient toy := {|
  redis_NewClient o := if 0 <? ro_PoolSize o then Some {| toy_db := ∅; toy_now := 0 |} else None;
  redis_Ping w := (Ok tt, w);
  redis_Close w := (Ok tt, w);
  redis_Get k w := (match db_string (toy_db w) k with
                    | Some v => ROk v
                    | None => match toy_db w !! k with None => RNil | _ => RErr (errOther "WRONGTYPE") end
                    end, w);
  redis_Set k v ttl w := (Ok tt, toy_with (db_set k v ttl (toy_now w) (toy_db w)) w);
  redis_SetNX k v ttl w :=
    match toy_db w !! k with
    | None => (ROk "OK"%string, toy_with (db_set_nx k v ttl (toy_now w) (toy_db w)) w)
    | Some _ => (RNil, w)
    end;
  redis_Del k w := (Ok tt, toy_with (db_del k (toy_now w) (toy_db w)) w);
  redis_Scan := toy_Scan;
  redis_MGet ks w := (Ok (db_string (toy_db w) <$> ks), w);
  redis_LRange k start stop w := (toy_LRange k start stop w, w);
  redis_Exec cmds w := (Ok tt, toy_with (db_pipeline cmds (toy_now w) (toy_db w)) w);
  redis_Publish c p w := w;
  redis_Eval script ks vs w :=
    match ks, vs with
    | [k], [v] => toy_with (db_unlock k v (toy_now w) (toy_db w)) w
    | _, _ => w
    end;
  redis_scan_bound w := S (S (length (map_to_list (toy_db w))))
|}.

Lemma toy_ran (f : Time -> database -> database) (Q : database -> Prop) w :
  Q (toy_db w) -> ran toy_db toy_now f Q w (toy_with (f (toy_now w) (toy_db w)) w).
Proof.
  intros HQ. exists (toy_now w), (toy_db w). cbn.
  split_and!; [lia|lia|apply expired_refl|apply expired_refl|exact HQ].
Qed.

Lemma toy_kept (Q : database -> Prop) w : Q (toy_db w) -> ran toy_db toy_now keep Q w w.
Proof. intros HQ. pose proof (toy_ran keep Q w HQ) as Hr. by destruct w. Qed.

Definition toy_left (w : toy) (c : Z) (p k : string) : Prop :=
  exists i, (Z.to_nat c <= i)%nat /\ toy_keys p w !! i = Some k.

Definition toy_steps (w : toy) (c : Z) (p : string) : nat := (S (length (toy_keys p w)) - Z.to_nat c)%nat.

Lemma toy_keys_prefix p w k : k ∈ toy_keys (p +:+ "*") w <-> String.prefix p k = true /\ is_Some (toy_db w !! k).
Proof.
  unfold toy_keys. assert (String.substring 0 (String.length (p +:+ "*") - 1) (p +:+ "*") = p)%string as ->.
  { rewrite length_app_str, Nat.add_sub. apply substring_0. }
  rewrite list_elem_of_In, filter_In, <-list_elem_of_In. rewrite list_elem_of_fmap. split.
  - intros [([k' e] & -> & He%elem_of_map_to_list) Hp]. split; [done|]. by exists e.
  - intros [Hp [e He]]. split; [|done]. exists (k, e). by rewrite elem_of_map_to_list.
Qed.

#[export] Program Instance toy_laws : RedisLaws toy := {|
  redis_db := toy_db;
  redis_now := toy_now;
  redis_retries := 0;
  scan_left := toy_left;
  scan_steps := toy_steps
|}.
Next Obligation.
  intros k w. cbn. destruct (db_string (toy_db w) k) eqn:E; [by apply toy_kept|].
  destruct (toy_db w !! k) eqn:E'; by apply toy_kept.
Qed.
Next Obligation. intros k v ttl w. cbn. by apply ran_retried, toy_ran. Qed.
Next Obligation.
  intros k v ttl w. cbn. destruct (toy_db w !! k) as [e|] eqn:E; apply ran_retried.
  - apply toy_kept. by exists e.
  - by apply (toy_ran (db_set_nx k v ttl)).
Qed.
Next Obligation. intros k w. cbn. by apply ran_retried, (toy_ran (db_del k)). Qed.
Next Obligation. intros ks w. cbn. by apply toy_kept. Qed.
Next Obligation.
  intros k start stop w. cbn. unfold toy_LRange. destruct (toy_db w !! k) as [[[] ?]|] eqn:E; apply toy_kept; try done.
  all: by rewrite E.
Qed.
Next Obligation. intros cmds w. cbn. by apply ran_retried, toy_ran. Qed.
Next Obligation. intros c p w. by apply toy_kept. Qed.
Next Obligation. intros k v w. by apply (ran_attempted _ _ _ _ (db_unlock k v) any); [left|apply (toy_ran (db_unlock k v))]. Qed.
Next Obligation. intros w. by apply toy_kept. Qed.
Next Obligation. intros w. by apply toy_kept. Qed.
Next Obligation. intros c p count w. by apply toy_kept. Qed.
Next Obligation.
  intros c p count w Hp. cbn. split_and!.
  - destruct (toy_keys _ w !! Z.to_nat c) as [k|] eqn:E; [|constructor].
    apply list_elem_of_lookup_2, toy_keys_prefix in E as [? _]. by repeat constructor.
  - intros k (i & Hi & Hk) _. destruct (decide (i = Z.to_nat c)) as [->|Hne].
    + left. rewrite Hk. apply list_elem_of_here.
    + right. pose proof (lookup_lt_Some _ _ _ Hk) as Hlt. destruct (Z.max 0 c + 1 <? zlen _) eqn:E; go_bool; unfold zlen in *.
      * split; [lia|]. exists i. split; [lia|done].
      * exfalso. lia.
  - intros Hc. unfold toy_steps. destruct (Z.max 0 c + 1 <? zlen _) eqn:E; [|done]. go_bool. unfold zlen in *. lia.
Qed.
Next Obligation.
  intros p w k Hp Hk Hs. destruct (list_elem_of_lookup_1 _ _ (proj2 (toy_keys_prefix p w k) (conj Hk Hs))) as [i Hi].
  exists i. split; [lia|done].
Qed.
Next Obligation.
  intros p w Hp. unfold toy_steps, toy_keys. cbn. rewrite Nat.sub_0_r. apply le_n_S.
  etransitivity; [apply le_n_S, filter_length_le|]. rewrite length_fmap. done.
Qed.
Next Obligation. done. Qed.
Next Obligation. done. Qed.

#[export] Instance toy_reliable : RedisReliable toy.
Proof. split; intros; by eexists. Qed.
