(* ===== verification/RedisProps.v ===== *)
(** * The Redis score store is a lawful score store

    With scores that do not expire, [RedisStore] satisfies [ScoreStoreLaws]: its
    contents are the scores that can be read under the score keys.  With any
    expiration, and a server that takes every write, it is a lawful cache. *)

From Stdlib Require Import Ascii.
From S2P Require Import Prelude GoInt GoFloat GoString GoCodec GoJson GoDecode GoHttp GoTime Store StoreJson Hybrid Redis RedisLaws RedisToy.

(** ** The keys under a prefix *)

Definition under {A B} (pre : string) (f : A -> option B) (m : gmap string A) : gmap string B :=
  list_to_map (omap (fun '(k, a) => n ← strip_prefix pre k; b ← f a; Some (n, b)) (map_to_list m)).

Lemma append_inj p a b : (p +:+ a)%string = (p +:+ b)%string -> a = b.
Proof. induction p as [|c p IH]; [done|]. cbn. intros [= ?]. by apply IH. Qed.

Lemma under_lookup {A B} pre (f : A -> option B) m n : under pre f m !! n = m !! (pre +:+ n)%string ≫= f.
Proof.
  unfold under. apply option_eq. intros b.
  rewrite <-elem_of_list_to_map.
  - rewrite list_elem_of_omap. split.
    + intros ([k a] & Hk%elem_of_map_to_list & Hb). apply bind_some in Hb as (n' & Hn & Hb).
      apply bind_some in Hb as (b' & Hb & [= <- <-]). apply strip_prefix_spec in Hn as ->. by rewrite Hk.
    + intros (a & Ha & Hb)%bind_some. exists ((pre +:+ n)%string, a). rewrite elem_of_map_to_list. split; [done|].
      by rewrite (proj2 (strip_prefix_spec pre _ n) eq_refl); cbn; rewrite Hb.
  - pose proof (NoDup_fst_map_to_list m) as Hnd. induction (map_to_list m) as [|[k a] l IH]; [constructor|].
    cbn [fmap list_fmap fst] in Hnd. apply NoDup_cons in Hnd as [Hk Hnd]. specialize (IH Hnd). cbn [omap list_omap].
    destruct (strip_prefix pre k) as [n'|] eqn:En; [|done]. cbn. destruct (f a) as [b'|]; [|done]. cbn.
    apply NoDup_cons. split; [|done]. intros ([n2 b2] & -> & ([k2 a2] & Hin & Hb)%list_elem_of_omap)%list_elem_of_fmap.
    apply bind_some in Hb as (n3 & Hn & Hb). apply bind_some in Hb as (b3 & _ & [= <- _]). apply Hk.
    apply strip_prefix_spec in En, Hn. subst. apply list_elem_of_fmap. by exists ((pre +:+ n3)%string, a2).
Qed.

Lemma under_mono {A B} pre (f : A -> option B) m m' : m ⊆ m' -> under pre f m ⊆ under pre f m'.
Proof.
  intros Hm. apply map_subseteq_spec. intros n b. rewrite !under_lookup.
  intros (a & Ha & Hb)%bind_some. by rewrite (lookup_weaken _ _ _ _ Ha Hm).
Qed.

Section views.
Context `{Zone, JsonErrors} (pre : string).

Definition score_key (n : string) : string := (pre +:+ scoreKeyPattern +:+ n)%string.
Definition latency_key : string := (pre +:+ latencyKeyName)%string.

Definition ok_value {A} (r : result A) : option A := match r with Ok a => Some a | Err _ => None end.

Definition entry_text (e : rentry) : option string := match re_value e with RString t => Some t | RList _ => None end.
Definition entry_score (e : rentry) : option ProviderScoreData := t ← entry_text e; ok_value (unmarshal_score t).
Definition entry_latency (e : rentry) : option LatencyStatsData := t ← entry_text e; ok_value (unmarshal_latency t).

Definition db_scores (m : database) : score_map := under (pre +:+ scoreKeyPattern) entry_score m.
Definition db_latency (m : database) : option LatencyStatsData := m !! latency_key ≫= entry_latency.

(** Every score is readable, under its own name, and stays. *)
Record db_ok (m : database) : Prop := {
  db_ok_prefix : no_glob pre = true;
  db_ok_scores : forall n e, m !! score_key n = Some e ->
    re_deadline e = None /\ n <> ""%string /\ exists d, entry_score e = Some d /\ psd_Name d = n;
  db_ok_latency : forall e, m !! latency_key = Some e -> re_deadline e = None /\ is_Some (entry_latency e)
}.

Lemma db_scores_lookup m n : db_scores m !! n = m !! score_key n ≫= entry_score.
Proof. unfold db_scores. rewrite under_lookup. unfold score_key. by rewrite append_assoc. Qed.

Lemma score_latency_key n : score_key n <> latency_key.
Proof. intros Heq%append_inj. discriminate. Qed.

Lemma score_key_inj n n' : score_key n = score_key n' -> n = n'.
Proof. intros Heq%append_inj. by apply append_inj in Heq. Qed.

(** Two databases with the same scores and samples. *)
Definition db_agree (m m' : database) : Prop :=
  (forall n, m' !! score_key n = m !! score_key n) /\ m' !! latency_key = m !! latency_key.

Lemma db_agree_ok m m' : db_agree m m' -> db_ok m ->
  db_ok m' /\ db_scores m' = db_scores m /\ db_latency m' = db_latency m.
Proof.
  intros [Hs Hl] [Hp Hms Hml]. split_and!.
  - split; [done|..]; [setoid_rewrite Hs|rewrite Hl]; done.
  - apply map_eq. intros n. by rewrite !db_scores_lookup, Hs.
  - unfold db_latency. by rewrite Hl.
Qed.

Lemma expired_agree now m m' : expired now m m' -> db_ok m -> db_agree m m'.
Proof.
  intros [Hsub Hkeep] [_ Hms Hml].
  assert (forall k, (forall e, m !! k = Some e -> re_deadline e = None) -> m' !! k = m !! k) as Hk.
  { intros k Hnone. destruct (m !! k) as [e|] eqn:E.
    - apply Hkeep; [done|]. unfold lasts. by rewrite (Hnone e eq_refl).
    - destruct (m' !! k) eqn:E'; [|done]. by rewrite (lookup_weaken _ _ _ _ E' Hsub) in E. }
  split; [intros n|]; apply Hk; intros e He; [by apply Hms in He as [? _]|by apply Hml in He as [? _]].
Qed.

Lemma expired_ok now m m' : expired now m m' -> db_ok m ->
  db_ok m' /\ db_scores m' = db_scores m /\ db_latency m' = db_latency m.
Proof. intros Hx Hm. apply db_agree_ok; [by eapply expired_agree|done]. Qed.

(** *** Effects *)

Lemma db_scores_insert n e d m :
  entry_score e = Some d -> db_scores (<[score_key n := e]> m) = <[n := d]> (db_scores m).
Proof.
  intros He. apply map_eq. intros n'. rewrite db_scores_lookup. destruct (decide (n' = n)) as [->|Hne].
  - by rewrite !lookup_insert_eq.
  - rewrite !lookup_insert_ne by (done || by intros ?%score_key_inj). by rewrite db_scores_lookup.
Qed.

Lemma db_scores_delete n m : db_scores (delete (score_key n) m) = delete n (db_scores m).
Proof.
  apply map_eq. intros n'. rewrite db_scores_lookup. destruct (decide (n' = n)) as [->|Hne].
  - by rewrite !lookup_delete_eq.
  - rewrite !lookup_delete_ne by (done || by intros ?%score_key_inj). by rewrite db_scores_lookup.
Qed.

Lemma db_set_score now d t m :
  db_ok m -> psd_Name d <> ""%string -> unmarshal_score t = Ok d ->
  let m' := db_set (score_key (psd_Name d)) t 0 now m in
  db_ok m' /\ db_scores m' = <[psd_Name d := d]> (db_scores m) /\ db_latency m' = db_latency m.
Proof.
  intros [Hp Hms Hml] Hn Ht. unfold db_set. cbn.
  set (e := {| re_value := RString t; re_deadline := None |}).
  assert (entry_score e = Some d) as He by (unfold entry_score; cbn; by rewrite Ht).
  split_and!.
  - split; [done|..].
    + intros n e'. destruct (decide (n = psd_Name d)) as [->|Hne].
      * rewrite lookup_insert_eq. intros [= <-]. eauto.
      * rewrite lookup_insert_ne by (by intros ?%score_key_inj). apply Hms.
    + rewrite lookup_insert_ne by apply score_latency_key. done.
  - by apply db_scores_insert.
  - unfold db_latency. by rewrite lookup_insert_ne by apply score_latency_key.
Qed.

Lemma db_del_score now n m :
  db_ok m ->
  let m' := db_del (score_key n) now m in
  db_ok m' /\ db_scores m' = delete n (db_scores m) /\ db_latency m' = db_latency m.
Proof.
  intros [Hp Hms Hml]. unfold db_del. cbn. split_and!.
  - split; [done|..].
    + intros n' e [_ He]%lookup_delete_Some. by apply Hms.
    + intros e [_ He]%lookup_delete_Some. by apply Hml.
  - apply db_scores_delete.
  - unfold db_latency. by rewrite lookup_delete_ne by apply score_latency_key.
Qed.

Lemma db_set_latency now d t m :
  db_ok m -> unmarshal_latency t = Ok d ->
  let m' := db_set latency_key t 0 now m in
  db_ok m' /\ db_scores m' = db_scores m /\ db_latency m' = Some d.
Proof.
  intros [Hp Hms Hml] Ht. unfold db_set. cbn. pose proof score_latency_key as Hne.
  assert (forall n m' e, <[latency_key := e]> m' !! score_key n = (m' : database) !! score_key n) as Hs.
  { intros n m' e. rewrite lookup_insert_ne; [done|]. intros Heq. by apply (Hne n). }
  split_and!.
  - split; [done|..].
    + intros n e. rewrite Hs. apply Hms.
    + intros e. rewrite lookup_insert_eq. intros [= <-]. split; [done|]. exists d. unfold entry_latency. cbn. by rewrite Ht.
  - apply map_eq. intros n. by rewrite !db_scores_lookup, Hs.
  - unfold db_latency. rewrite lookup_insert_eq. unfold entry_latency. cbn. by rewrite Ht.
Qed.
End views.

(** ** The store *)

Section store.
Context {W : Type} `{RedisLaws W, Zone, JsonErrors}.
Implicit Types s : RedisStore W.

Definition rs_db s : database := redis_db (rs_client s).
Definition rs_view s : score_map := db_scores (rs_keyPrefix s) (rs_db s).
Definition rs_lat s : option LatencyStatsData := db_latency (rs_keyPrefix s) (rs_db s).

Definition rs_inv s : Prop := rc_ScoreTTL (rs_config s) = 0 /\ db_ok (rs_keyPrefix s) (rs_db s).

(** The state [s] with a new client and other pending publications. *)
Definition rs_moved s w' s' : Prop :=
  rs_client s' = w' /\ rs_config s' = rs_config s /\ rs_keyPrefix s' = rs_keyPrefix s.

Definition rs_after (v : score_map) (l : option LatencyStatsData) s' : Prop :=
  rs_inv s' /\ rs_view s' = v /\ rs_lat s' = l.

(** A command on a database that is fine, with effect [f] on it. *)
Lemma ran_after f Q s w' v l :
  rs_inv s -> ran redis_db redis_now f Q (rs_client s) w' ->
  (forall t m, db_ok (rs_keyPrefix s) m -> db_scores (rs_keyPrefix s) m = rs_view s ->
     db_latency (rs_keyPrefix s) m = rs_lat s -> Q m ->
     db_ok (rs_keyPrefix s) (f t m) /\ db_scores (rs_keyPrefix s) (f t m) = v
     /\ db_latency (rs_keyPrefix s) (f t m) = l) ->
  forall s', rs_moved s w' s' -> rs_after v l s'.
Proof.
  intros [Httl Hok] (t & m & _ & Hx1 & Hx2 & HQ) Hf s' (Hw & Hc & Hp).
  destruct (expired_ok _ _ _ _ Hx1 Hok) as (Hok1 & Hv1 & Hl1).
  destruct (Hf t m Hok1 Hv1 Hl1 HQ) as (Hok2 & Hv2 & Hl2).
  destruct (expired_ok _ _ _ _ Hx2 Hok2) as (Hok3 & Hv3 & Hl3).
  unfold rs_after, rs_inv, rs_view, rs_lat, rs_db. rewrite Hw, Hc, Hp. split_and!; [done|done|congruence|congruence].
Qed.

(** A command that changes nothing, and what it saw. *)
Lemma ran_same Q s w' :
  rs_inv s -> ran redis_db redis_now keep Q (rs_client s) w' ->
  (forall s', rs_moved s w' s' -> rs_after (rs_view s) (rs_lat s) s')
  /\ exists m, db_ok (rs_keyPrefix s) m /\ db_scores (rs_keyPrefix s) m = rs_view s
       /\ db_latency (rs_keyPrefix s) m = rs_lat s /\ Q m.
Proof.
  intros Hi Hr. split; [by eapply ran_after; eauto|].
  destruct Hi as [_ Hok], Hr as (t & m & _ & Hx & _ & HQ).
  destruct (expired_ok _ _ _ _ Hx Hok) as (? & ? & ?). by exists m.
Qed.

Lemma moved_refl s w : rs_moved s w (rs_set_client w s).
Proof. done. Qed.

Lemma rs_after_same s s' : rs_after (rs_view s) (rs_lat s) s' -> rs_inv s' /\ rs_view s' = rs_view s /\ rs_lat s' = rs_lat s.
Proof. done. Qed.

Lemma db_string_entry m k v : db_string m k = Some v -> exists e, m !! k = Some e /\ entry_text e = Some v.
Proof. unfold db_string. destruct (m !! k) as [[[] t]|]; [|done..]. intros [= ->]. eexists. by split. Qed.

Lemma rs_GetScore_law n s : rs_inv s ->
  outcome (Some (rs_GetScore n s)) (fun r s' => r = rs_view s !! n /\ rs_after (rs_view s) (rs_lat s) s')
    (rs_after (rs_view s) (rs_lat s)).
Proof.
  intros Hi. unfold rs_GetScore. pose proof (Get_law (scoreKey n s) (rs_client s)) as Hg.
  destruct (redis_Get _ _) as [[|v|e] w']; destruct (ran_same _ s w' Hi Hg) as [Hs (m & Hok & Hv & _ & HQ)];
    specialize (Hs _ (moved_refl s w')).
  - cbn. split; [|done]. rewrite <-Hv, db_scores_lookup. change (score_key (rs_keyPrefix s) n) with (scoreKey n s). by rewrite HQ.
  - destruct (db_string_entry _ _ _ HQ) as (e & He & Ht).
    destruct (db_ok_scores _ _ Hok n e He) as (_ & _ & d & Hd & _).
    assert (unmarshal_score v = Ok d) as ->.
    { unfold entry_score in Hd. rewrite Ht in Hd. cbn in Hd. destruct (unmarshal_score v); [|done]. by injection Hd as ->. }
    cbn. split; [|done]. rewrite <-Hv, db_scores_lookup. change (score_key (rs_keyPrefix s) n) with (scoreKey n s). by rewrite He.
  - exact Hs.
Qed.

Lemma rs_GetLatencyStats_law s : rs_inv s ->
  outcome (Some (rs_GetLatencyStats s)) (fun r s' => r = rs_lat s /\ rs_after (rs_view s) (rs_lat s) s')
    (rs_after (rs_view s) (rs_lat s)).
Proof.
  intros Hi. unfold rs_GetLatencyStats. pose proof (Get_law (latencyKey s) (rs_client s)) as Hg.
  destruct (redis_Get _ _) as [[|v|e] w']; destruct (ran_same _ s w' Hi Hg) as [Hs (m & Hok & _ & Hl & HQ)];
    specialize (Hs _ (moved_refl s w')).
  - cbn. split; [|done]. rewrite <-Hl. unfold db_latency. change (latency_key (rs_keyPrefix s)) with (latencyKey s). by rewrite HQ.
  - destruct (db_string_entry _ _ _ HQ) as (e & He & Ht).
    destruct (db_ok_latency _ _ Hok e He) as (_ & d & Hd).
    assert (unmarshal_latency v = Ok d) as ->.
    { unfold entry_latency in Hd. rewrite Ht in Hd. cbn in Hd. destruct (unmarshal_latency v); [|done]. by injection Hd as ->. }
    cbn. split; [|done]. rewrite <-Hl. unfold db_latency. change (latency_key (rs_keyPrefix s)) with (latencyKey s). by rewrite He.
  - exact Hs.
Qed.

(** *** Attempts at a write *)

Abbreviation view := (score_map * option LatencyStatsData)%type (only parsing).

(** A database that is fine, with its scores and samples. *)
Definition shows (pre : string) (x : view) (m : database) : Prop :=
  db_ok pre m /\ db_scores pre m = x.1 /\ db_latency pre m = x.2.

Lemma shows_expired pre x now m m' : expired now m m' -> shows pre x m -> shows pre x m'.
Proof. intros Hx (Hok & Hv & Hl). destruct (expired_ok _ _ _ _ Hx Hok) as (? & ? & ?). split_and!; congruence. Qed.

Lemma executed_shows pre f Q x y a b :
  executed f Q a b -> shows pre x a.1 -> (forall t m, shows pre x m -> shows pre y (f t m)) -> shows pre y b.1.
Proof.
  intros (t & m & _ & Hx1 & Hx2 & _) Ha Hf. eapply shows_expired; [exact Hx2|]. apply Hf. by eapply shows_expired.
Qed.

(** Attempts whose executions keep to the views [P]. *)
Lemma attempts_show pre E (P : view -> Prop) a b :
  (forall f x t m, E f -> P x -> shows pre x m -> exists y, P y /\ shows pre y (f t m)) ->
  (exists x, P x /\ shows pre x a.1) -> rtc (attempt E) a b -> exists x, P x /\ shows pre x b.1.
Proof.
  intros HE. apply (attempts_keep E (fun c => exists x, P x /\ shows pre x c.1)).
  intros c c' (x & Hx & Hs) (f & Hf & t & m & _ & Hx1 & Hx2 & _).
  pose proof (shows_expired _ _ _ _ _ Hx1 Hs) as Hm. destruct Hf as [->|Hf].
  - exists x. split; [done|]. by eapply shows_expired.
  - destruct (HE f x t m Hf Hx Hm) as (y & Hy & Hfm). exists y. split; [done|]. by eapply shows_expired.
Qed.

Definition rs_shows s : view := (rs_view s, rs_lat s).

Lemma inv_shows s : rs_inv s -> shows (rs_keyPrefix s) (rs_shows s) (rs_db s).
Proof. by intros [_ Hok]. Qed.

Lemma shows_after s w' s' x : rs_inv s -> rs_moved s w' s' -> shows (rs_keyPrefix s) x (redis_db w') -> rs_after x.1 x.2 s'.
Proof.
  intros [Httl _] (Hw & Hc & Hp) (Hok & Hv & Hl). unfold rs_after, rs_inv, rs_view, rs_lat, rs_db. rewrite Hw, Hc, Hp.
  by split_and!.
Qed.

(** A write that may be repeated without harm. *)
Lemma write_after f (g : view -> view) s w' :
  rs_inv s -> (forall x t m, shows (rs_keyPrefix s) x m -> shows (rs_keyPrefix s) (g x) (f t m)) -> (forall x, g (g x) = g x) ->
  (retried redis_db redis_now redis_retries (effect f) f any (rs_client s) w' ->
     forall s', rs_moved s w' s' -> rs_after (g (rs_shows s)).1 (g (rs_shows s)).2 s')
  /\ (attempted redis_db redis_now redis_retries (effect f) (rs_client s) w' ->
     forall s', rs_moved s w' s' ->
       rs_after (rs_view s) (rs_lat s) s' \/ rs_after (g (rs_shows s)).1 (g (rs_shows s)).2 s').
Proof.
  intros Hi Hf Hg. set (P x := x = rs_shows s \/ x = g (rs_shows s)).
  assert (forall b, rtc (attempt (effect f)) (server redis_db redis_now (rs_client s)) b ->
    exists x, P x /\ shows (rs_keyPrefix s) x b.1) as Hall.
  { intros b. apply attempts_show.
    - intros f' x t m -> Hx Hm. exists (g x). split; [|by apply Hf]. right. destruct Hx as [Hx|Hx]; rewrite Hx; [done|by rewrite Hg].
    - exists (rs_shows s). split; [by left|by apply inv_shows]. }
  split.
  - intros (b & Hb & He)%retried_rtc s' Hs'. destruct (Hall b Hb) as (x & Hx & Hs). apply (shows_after s w' s' (g (rs_shows s)) Hi Hs').
    assert (g (rs_shows s) = g x) as -> by (destruct Hx as [Hx|Hx]; rewrite Hx; [done|by rewrite Hg]).
    refine (executed_shows _ _ _ x _ _ _ He Hs _). intros t m. apply Hf.
  - intros Hb%attempted_rtc s' Hs'. destruct (Hall _ Hb) as (x & [-> | ->] & Hs); [left|right];
      [by apply (shows_after s w' s' (rs_shows s))|by apply (shows_after s w' s' (g (rs_shows s)))].
Qed.

Lemma rs_set_score_law what d s : rs_inv s -> psd_Name d <> ""%string -> score_storable d ->
  outcome (Some (rs_set_score what (rc_ScoreTTL (rs_config s)) (Some d) s))
    (fun _ s' => rs_after (<[psd_Name d := d]> (rs_view s)) (rs_lat s) s')
    (fun s' => rs_after (rs_view s) (rs_lat s) s' \/ rs_after (<[psd_Name d := d]> (rs_view s)) (rs_lat s) s').
Proof.
  intros Hi Hn Hst. destruct (score_roundtrip d Hst) as (t & Hm & Hu). unfold rs_set_score.
  rewrite bool_decide_eq_false_2, Hm, (proj1 Hi) by done.
  pose proof (Set_law (scoreKey (psd_Name d) s) t 0 (rs_client s)) as Hs.
  set (g (x : view) := (<[psd_Name d := d]> x.1, x.2)).
  assert (forall w', _) as Hw by (intros w'; refine (write_after (db_set (scoreKey (psd_Name d) s) t 0) g s w' Hi _ _);
    [intros x now m (Hok & Hv & Hl); unfold shows, g; cbn [fst snd]; rewrite <-?Hv, <-?Hl; by apply db_set_score|intros x; unfold g; cbn; by rewrite insert_insert_eq]).
  destruct (redis_Set _ _ _ _) as [[[]|e] w']; cbn; by apply (Hw w').
Qed.

Lemma rs_DeleteScore_law n s : rs_inv s ->
  outcome (Some (rs_DeleteScore n s))
    (fun _ s' => rs_after (delete n (rs_view s)) (rs_lat s) s')
    (fun s' => rs_after (rs_view s) (rs_lat s) s' \/ rs_after (delete n (rs_view s)) (rs_lat s) s').
Proof.
  intros Hi. unfold rs_DeleteScore. pose proof (Del_law (scoreKey n s) (rs_client s)) as Hd.
  set (g (x : view) := (delete n x.1, x.2)).
  assert (forall w', _) as Hw by (intros w'; refine (write_after (db_del (scoreKey n s)) g s w' Hi _ _);
    [intros x now m (Hok & Hv & Hl); unfold shows, g; cbn [fst snd]; rewrite <-?Hv, <-?Hl; by apply db_del_score|intros x; unfold g; cbn; by rewrite delete_delete_eq]).
  destruct (redis_Del _ _) as [[[]|e] w']; cbn; by apply (Hw w').
Qed.

Lemma rs_SetLatencyStats_law d s : rs_inv s -> latency_storable d ->
  outcome (Some (rs_SetLatencyStats (Some d) s))
    (fun _ s' => rs_after (rs_view s) (Some d) s')
    (fun s' => rs_after (rs_view s) (rs_lat s) s' \/ rs_after (rs_view s) (Some d) s').
Proof.
  intros Hi Hst. destruct (latency_roundtrip d Hst) as (t & Hm & Hu). unfold rs_SetLatencyStats.
  rewrite Hm, (proj1 Hi). pose proof (Set_law (latencyKey s) t 0 (rs_client s)) as Hs.
  set (g (x : view) := (x.1, Some d)).
  assert (forall w', _) as Hw by (intros w'; refine (write_after (db_set (latencyKey s) t 0) g s w' Hi _ _);
    [intros x now m (Hok & Hv & Hl); unfold shows, g; cbn [fst snd]; rewrite <-?Hv, <-?Hl; by apply db_set_latency|done]).
  destruct (redis_Set _ _ _ _) as [[[]|e] w']; cbn; by apply (Hw w').
Qed.
(** *** Batches *)

Lemma Forall_sublist {A} (P : A -> Prop) l' l : l' `sublist_of` l -> Forall P l -> Forall P l'.
Proof. induction 1; intros Hl; [done|..]; apply Forall_cons in Hl as [? ?]; [apply Forall_cons|]; auto. Qed.

Lemma sublist_fmap_inv {A B} (f : A -> B) (l : list A) k :
  k `sublist_of` f <$> l -> exists l', k = f <$> l' /\ l' `sublist_of` l.
Proof.
  revert k. induction l as [|x l IH]; intros k; cbn [fmap list_fmap].
  - intros ->%sublist_nil_r. by exists [].
  - intros [(l' & -> & Hl)%IH|(k' & -> & (l' & -> & Hl)%IH)]%sublist_cons_r.
    + exists l'. split; [done|]. by apply sublist_cons.
    + exists (x :: l'). split; [done|]. by apply sublist_skip.
Qed.

Definition batch_cmd s (o : option ProviderScoreData) : redis_cmd :=
  match o with
  | Some d => PipeSet (scoreKey (psd_Name d) s)
                (match marshal_score d with Ok t => t | Err _ => ""%string end) (rc_ScoreTTL (rs_config s))
  | None => PipeSet "" "" 0
  end.

Lemma batch_cmds_eq ds s :
  valid_batch ds -> batch_of score_storable ds -> batch_cmds ds s = Ok (batch_cmd s <$> ds).
Proof.
  intros Hv. induction Hv as [|o ds (d & -> & Hn) Hv IH]; intros Hs; [done|].
  apply Forall_cons in Hs as [Hd Hs]. cbn [batch_cmds]. rewrite bool_decide_eq_false_2 by done.
  destruct (score_roundtrip d Hd) as (t & Ht & _). rewrite Ht, (IH Hs). cbn. by rewrite Ht.
Qed.

Lemma pipeline_batch ds s now m :
  rc_ScoreTTL (rs_config s) = 0 -> valid_batch ds -> batch_of score_storable ds -> db_ok (rs_keyPrefix s) m ->
  let m' := db_pipeline (batch_cmd s <$> ds) now m in
  db_ok (rs_keyPrefix s) m' /\ db_scores (rs_keyPrefix s) m' = foldl set_one (db_scores (rs_keyPrefix s) m) ds
  /\ db_latency (rs_keyPrefix s) m' = db_latency (rs_keyPrefix s) m.
Proof.
  intros Httl Hv. revert m. induction Hv as [|o ds (d & -> & Hn) Hv IH]; intros m Hs Hok; [done|].
  apply Forall_cons in Hs as [Hd Hs]. destruct (score_roundtrip d Hd) as (t & Ht & Hu).
  cbn [fmap list_fmap db_pipeline foldl batch_cmd db_pipe set_one]. rewrite Ht, Httl.
  destruct (db_set_score (rs_keyPrefix s) now d t m Hok Hn Hu) as (Hok1 & Hv1 & Hl1).
  destruct (IH _ Hs Hok1) as (Hok2 & Hv2 & Hl2). cbn in *. split_and!; [exact Hok2| |].
  - etransitivity; [exact Hv2|]. by rewrite <-Hv1.
  - etransitivity; [exact Hl2|exact Hl1].
Qed.

(** A batch overwrites what a part of it wrote before. *)
Lemma set_one_over d ds (m : score_map) :
  psd_Name d ∈ (psd_Name <$> omap id ds) -> foldl set_one (<[psd_Name d := d]> m) ds = foldl set_one m ds.
Proof.
  revert m. induction ds as [|[d'|] ds IH]; intros m; cbn [omap list_omap id fmap list_fmap foldl set_one];
    [by intros ?%elem_of_nil| |apply IH].
  destruct (decide (psd_Name d = psd_Name d')) as [Heq|Hne].
  - intros _. by rewrite <-Heq, insert_insert_eq.
  - intros [?|Hin]%elem_of_cons; [done|]. rewrite insert_insert_ne by done. by apply IH.
Qed.

Lemma set_one_absorb ds' ds (m : score_map) : ds' `sublist_of` ds -> foldl set_one (foldl set_one m ds') ds = foldl set_one m ds.
Proof.
  intros Hsub. assert (Forall (fun o => forall d, o = Some d -> psd_Name d ∈ (psd_Name <$> omap id ds)) ds') as Hall.
  { apply (Forall_sublist _ _ _ Hsub), Forall_forall. intros o Ho d ->. apply list_elem_of_fmap. exists d. split; [done|].
    apply list_elem_of_omap. by exists (Some d). }
  clear Hsub. revert m. induction Hall as [|o ds' Ho Hall IH]; intros m; [done|]. cbn [foldl]. rewrite IH.
  destruct o as [d|]; [|done]. apply set_one_over. by apply Ho.
Qed.

(** Writes of other names commute; a name written again may be left out before. *)
Lemma set_one_later d ds (m : score_map) :
  psd_Name d ∉ (psd_Name <$> omap id ds) -> foldl set_one (<[psd_Name d := d]> m) ds = <[psd_Name d := d]> (foldl set_one m ds).
Proof.
  revert m. induction ds as [|[d'|] ds IH]; intros m; cbn [omap list_omap id fmap list_fmap foldl set_one]; [done| |apply IH].
  intros [Hne Hin]%not_elem_of_cons. rewrite insert_insert_ne by done. by apply IH.
Qed.

Lemma set_one_drop d ds : exists ds', ds' `sublist_of` ds
  /\ (psd_Name d ∉ (psd_Name <$> omap id ds'))
  /\ forall m : score_map, <[psd_Name d := d]> (foldl set_one m ds) = <[psd_Name d := d]> (foldl set_one m ds').
Proof.
  induction ds as [|o ds IH] using rev_ind; [exists []; split_and!; [done|by intros ?%elem_of_nil|done]|].
  destruct IH as (ds' & Hsub & Hn & Heq). destruct o as [d'|].
  2: { exists ds'. split_and!; [by apply sublist_inserts_r|done|]. intros m. rewrite foldl_app. apply Heq. }
  destruct (decide (psd_Name d = psd_Name d')) as [Hd|Hd].
  - exists ds'. split_and!; [by apply sublist_inserts_r|done|]. intros m. rewrite foldl_app. cbn [foldl set_one].
    by rewrite <-Hd, insert_insert_eq, Heq.
  - exists (ds' ++ [Some d']). split_and!; [by apply sublist_app| |].
    + rewrite omap_app, fmap_app. intros [?|Hin]%elem_of_app; [done|]. by apply list_elem_of_singleton in Hin.
    + intros m. rewrite !foldl_app. cbn [foldl set_one]. rewrite !(insert_insert_ne _ (psd_Name d)) by done. by rewrite Heq.
Qed.

(** Two parts of a batch one after the other are as good as one. *)
Lemma set_one_twice ds a b : a `sublist_of` ds -> b `sublist_of` ds ->
  exists c, c `sublist_of` ds /\ forall m : score_map, foldl set_one (foldl set_one m a) b = foldl set_one m c.
Proof.
  revert a b. induction ds as [|x ds IH]; intros a b.
  { intros ->%sublist_nil_r ->%sublist_nil_r. by exists []. }
  assert (forall a, a `sublist_of` x :: ds -> exists a', a' `sublist_of` ds
    /\ (a = a' \/ a = x :: a')) as Hcase by (intros l [?|(l' & -> & ?)]%sublist_cons_r; eauto).
  intros (a' & Ha & Hax)%Hcase (b' & Hb & [-> | ->])%Hcase.
  { destruct (IH a' b' Ha Hb) as (c & Hc & Heq). destruct Hax as [-> | ->]; [exists c|exists (x :: c)];
      (split; [by constructor|]); intros m; cbn [foldl]; apply Heq. }
  assert (exists c, c `sublist_of` ds /\ ((forall m0, foldl set_one (set_one (foldl set_one m0 a') x) b' = foldl set_one m0 c)
    \/ forall m0, foldl set_one (set_one (foldl set_one m0 a') x) b' = foldl set_one (set_one m0 x) c)) as (c & Hc & Heq).
  { destruct x as [d|]; cbn [set_one]; [|destruct (IH a' b' Ha Hb) as (c & Hc & Heq); eauto].
    destruct (decide (psd_Name d ∈ (psd_Name <$> omap id b'))) as [Hin|Hn].
    - destruct (IH a' b' Ha Hb) as (c & Hc & Heq). exists c. split; [done|]. left. intros m0. by rewrite set_one_over.
    - destruct (set_one_drop d a') as (a1 & Ha1 & Hn1 & Hdrop).
      destruct (IH a1 b' ltac:(by etrans) Hb) as (c & Hc & Heq). exists c. split; [done|]. right. intros m0.
      by rewrite Hdrop, <-set_one_later, Heq. }
  assert (forall m, set_one (set_one m x) x = set_one m x) as Hxx
    by (intros m; destruct x; [apply insert_insert_eq|done]).
  destruct Heq as [Heq|Heq], Hax as [-> | ->]; [exists c|exists (x :: c)..];
    (split; [by constructor|]); intros m; cbn [foldl]; rewrite Heq, ?Hxx; done.
Qed.

Lemma rs_SetScores_law ds s : rs_inv s -> valid_batch ds -> batch_of score_storable ds ->
  outcome (Some (rs_SetScores ds s))
    (fun _ s' => rs_after (foldl set_one (rs_view s) ds) (rs_lat s) s')
    (fun s' => exists ds', ds' `sublist_of` ds /\ rs_after (foldl set_one (rs_view s) ds') (rs_lat s) s').
Proof.
  intros Hi Hv Hs. unfold rs_SetScores. destruct (zlen ds =? 0) eqn:E.
  { apply Z.eqb_eq, zlen_nil_inv in E as ->. done. }
  rewrite batch_cmds_eq by done. pose proof (Exec_law (batch_cmd s <$> ds) (rs_client s)) as He.
  set (g (ds' : list (option ProviderScoreData)) := (foldl set_one (rs_view s) ds', rs_lat s)).
  assert (forall ds0 ds1 t m, ds1 `sublist_of` ds -> shows (rs_keyPrefix s) (g ds0) m ->
    shows (rs_keyPrefix s) (g (ds0 ++ ds1)) (db_pipeline (batch_cmd s <$> ds1) t m)) as Hstep.
  { intros ds0 ds1 t m Hsub (Hok & Hv0 & Hl0). unfold g in *. cbn [fst snd] in *.
    destruct (pipeline_batch ds1 s t m (proj1 Hi)) as (? & Hv1 & Hl1);
      [by apply (Forall_sublist _ _ _ Hsub)|by apply (Forall_sublist _ _ _ Hsub)|done|].
    unfold shows. cbn [fst snd]. rewrite foldl_app, <-Hv0, <-Hl0. by split_and!. }
  set (P x := exists ds', ds' `sublist_of` ds /\ x = g ds').
  assert (forall b, rtc (attempt (part_of (batch_cmd s <$> ds))) (server redis_db redis_now (rs_client s)) b ->
    exists x, P x /\ shows (rs_keyPrefix s) x b.1) as Hall.
  { intros b. apply attempts_show.
    - intros f x t m (cmds & (ds1 & -> & Hsub)%sublist_fmap_inv & ->) (ds0 & Hsub0 & ->) Hm.
      destruct (set_one_twice ds ds0 ds1 Hsub0 Hsub) as (ds2 & Hsub2 & Heq). exists (g ds2). split; [by exists ds2|].
      pose proof (Hstep ds0 ds1 t m Hsub Hm) as Hs1. unfold g in *. by rewrite foldl_app, Heq in Hs1.
    - exists (g []). split; [exists []; split; [apply sublist_nil_l|done]|by apply inv_shows]. }
  destruct (redis_Exec _ _) as [[[]|e] w']; cbn.
  - apply retried_rtc in He as (b & Hb & He). destruct (Hall b Hb) as (x & (ds0 & Hsub0 & ->) & Hx).
    apply (shows_after s w' _ (g ds) Hi (moved_refl s w')).
    refine (executed_shows _ _ _ (g ds0) _ _ _ He Hx _). intros t m Hm.
    pose proof (Hstep ds0 ds t m ltac:(reflexivity) Hm) as Hs1. unfold g in *. by rewrite foldl_app, set_one_absorb in Hs1.
  - apply attempted_rtc in He. destruct (Hall _ He) as (x & (ds' & Hsub & ->) & Hx). exists ds'. split; [done|].
    by apply (shows_after s w' _ (g ds') Hi (moved_refl s w')).
Qed.
(** *** The scan *)

Definition held (v : score_map) (o : option ProviderScoreData) : Prop := exists n d, v !! n = Some d /\ o = Some d.

Lemma all_scores_of_held l v : all_scores_of l v <-> forall o, o ∈ l <-> held v o.
Proof.
  unfold all_scores_of, held. apply forall_proper. intros o.
  enough (o ∈ Some <$> (map_to_list v).*2 <-> exists n d, v !! n = Some d /\ o = Some d) as ->; [done|].
  rewrite list_elem_of_fmap. setoid_rewrite list_elem_of_fmap. split.
  - intros (d & -> & [k d'] & -> & Hk%elem_of_map_to_list). eauto.
  - intros (n & d & Hn & ->). exists d. split; [done|]. exists (n, d). by rewrite elem_of_map_to_list.
Qed.

Definition score_prefix s : string := (rs_keyPrefix s +:+ scoreKeyPattern)%string.

Lemma score_prefix_key s n : score_key (rs_keyPrefix s) n = (score_prefix s +:+ n)%string.
Proof. unfold score_prefix. by rewrite append_assoc. Qed.

Lemma score_prefix_glob s : rs_inv s -> no_glob (score_prefix s) = true.
Proof. intros [_ [Hp _ _]]. unfold no_glob, score_prefix in *. by rewrite str_all_app, Hp. Qed.

(** The readable values of some keys. *)
Lemma decode_keys s m keys v :
  db_ok (rs_keyPrefix s) m -> db_scores (rs_keyPrefix s) m = v ->
  Forall (fun k => String.prefix (score_prefix s) k = true) keys ->
  forall o, o ∈ decode_scores (db_string m <$> keys)
    <-> exists n d, v !! n = Some d /\ o = Some d /\ score_key (rs_keyPrefix s) n ∈ keys.
Proof.
  intros Hok <- Hkeys o. unfold decode_scores. rewrite list_elem_of_omap. split.
  - intros (v & (k & -> & Hk)%list_elem_of_fmap & Ho). apply bind_some in Ho as (t & Ht & Ho).
    destruct (unmarshal_score t) as [d|] eqn:Eu; [|done]. injection Ho as <-.
    destruct (proj1 (str_prefix_spec _ _) (proj1 (Forall_forall _ _) Hkeys k Hk)) as [n ->].
    rewrite <-score_prefix_key in *. destruct (db_string_entry _ _ _ Ht) as (e & He & Hte). exists n, d. split_and!; [|done|done].
    rewrite db_scores_lookup, He. cbn. unfold entry_score. rewrite Hte. cbn. by rewrite Eu.
  - intros (n & d & Hd & -> & Hk). rewrite db_scores_lookup in Hd. apply bind_some in Hd as (e & He & Hd).
    unfold entry_score in Hd. apply bind_some in Hd as (t & Ht & Hd). exists (Some t). split.
    + apply list_elem_of_fmap. exists (score_key (rs_keyPrefix s) n). split; [|done]. unfold db_string. rewrite He.
      unfold entry_text in Ht. destruct e as [[] ?]; cbn in *; congruence.
    + cbn. unfold ok_value in Hd. destruct (unmarshal_score t); [|done]. by injection Hd as ->.
Qed.

Definition scan_pattern s : string := (score_prefix s +:+ "*")%string.

(** Every score is read already or its key is still to come. *)
Definition scanning (v : score_map) (c : Z) (acc : list (option ProviderScoreData)) s : Prop :=
  (forall o, o ∈ acc -> held v o)
  /\ forall n d, v !! n = Some d ->
       Some d ∈ acc \/ scan_left (rs_client s) c (scan_pattern s) (score_key (rs_keyPrefix s) n).

Lemma view_present s n d : rs_view s !! n = Some d -> is_Some (rs_db s !! score_key (rs_keyPrefix s) n).
Proof. unfold rs_view. rewrite db_scores_lookup. intros (e & He & _)%bind_some. eauto. Qed.

(** A round of the loop that reads the keys SCAN returned. *)
Lemma scanning_read c c' acc keys s s1 s2 m :
  rs_inv s1 -> rs_view s1 = rs_view s -> rs_keyPrefix s1 = rs_keyPrefix s -> rs_keyPrefix s2 = rs_keyPrefix s ->
  db_ok (rs_keyPrefix s) m -> db_scores (rs_keyPrefix s) m = rs_view s ->
  Forall (fun k => String.prefix (score_prefix s) k = true) keys ->
  (forall k, scan_left (rs_client s) c (scan_pattern s) k -> is_Some (rs_db s1 !! k) ->
     k ∈ keys \/ (c' <> 0 /\ scan_left (rs_client s1) c' (scan_pattern s) k)) ->
  (forall k, scan_left (rs_client s1) c' (scan_pattern s) k -> scan_left (rs_client s2) c' (scan_pattern s) k) ->
  scanning (rs_view s) c acc s ->
  let acc' := acc ++ decode_scores (db_string m <$> keys) in
  scanning (rs_view s) c' acc' s2 /\ (c' = 0 -> all_scores_of acc' (rs_view s)).
Proof.
  intros Hi1 Hv1 Hp1 Hp2 Hok Hm Hkeys Hleft Hkeep [Hsound Hall] acc'.
  pose proof (decode_keys s m keys _ Hok Hm Hkeys) as Hdec.
  assert (forall o, o ∈ acc' -> held (rs_view s) o) as Hs'.
  { intros o [Ho|(n & d & Hd & -> & _)%Hdec]%elem_of_app; [by apply Hsound|]. by exists n, d. }
  assert (forall n d, rs_view s !! n = Some d -> Some d ∈ acc'
    \/ (c' <> 0 /\ scan_left (rs_client s1) c' (scan_pattern s) (score_key (rs_keyPrefix s) n))) as Ha'.
  { intros n d Hd. destruct (Hall n d Hd) as [Hin|Hl]; [left; apply elem_of_app; by left|].
    destruct (Hleft _ Hl) as [Hk|Hk]; [|left; apply elem_of_app; right; apply Hdec; by exists n, d|by right].
    rewrite <-Hp1. apply (view_present s1 n d). by rewrite Hv1. }
  split; [split; [done|]|].
  - intros n d Hd. unfold scan_pattern, score_prefix. rewrite Hp2. destruct (Ha' n d Hd) as [|[_ Hl]]; [by left|].
    right. by apply Hkeep.
  - intros Hz. apply all_scores_of_held. intros o. split; [by apply Hs'|].
    intros (n & d & Hd & ->). destruct (Ha' n d Hd) as [|[? _]]; done.
Qed.
(** The reading half of a round. *)
Definition read_keys (keys : list string) (acc : list (option ProviderScoreData)) s
    : result (list (option ProviderScoreData)) * RedisStore W :=
  if 0 <? zlen keys then
    let '(r, w) := redis_MGet keys (rs_client s) in
    let s := rs_set_client w s in
    match r with
    | Err e => (Err (errWrap "redis mget: " e ""), s)
    | Ok values => (Ok (acc ++ decode_scores values), s)
    end
  else (Ok acc, s).

Lemma read_keys_law keys acc s :
  rs_inv s ->
  let '(r, s') := read_keys keys acc s in
  rs_after (rs_view s) (rs_lat s) s' /\ rs_keyPrefix s' = rs_keyPrefix s
  /\ (forall c p k, scan_left (rs_client s) c p k -> scan_left (rs_client s') c p k)
  /\ (forall c p, (scan_steps (rs_client s') c p <= scan_steps (rs_client s) c p)%nat)
  /\ match r with
     | Ok acc' => exists m, db_ok (rs_keyPrefix s) m /\ db_scores (rs_keyPrefix s) m = rs_view s
                    /\ acc' = acc ++ decode_scores (db_string m <$> keys)
     | Err _ => True
     end.
Proof.
  intros Hi. unfold read_keys. destruct (0 <? zlen keys) eqn:E.
  - pose proof (MGet_law keys (rs_client s)) as Hm.
    pose proof (fun c p k => scan_MGet keys c p k (rs_client s)) as Hl.
    pose proof (fun c p => scan_MGet_steps keys c p (rs_client s)) as Hst.
    destruct (redis_MGet keys (rs_client s)) as [[vs|e] w']; destruct (ran_same _ s w' Hi Hm) as [Hs (m & Hok & Hv & _ & HQ)];
      (split_and!; [by apply Hs|done|done|done|]); [|done].
    exists m. by rewrite HQ.
  - split_and!; [done|done|done|done|]. exists (rs_db s). split_and!; [apply Hi|done|].
    assert (keys = []) as -> by (destruct keys; [done|]; rewrite zlen_cons in E; pose proof (zlen_nonneg keys); go_lia).
    by rewrite app_nil_r.
Qed.

Lemma scan_scores_law fuel c acc s :
  rs_inv s -> (scan_steps (rs_client s) c (scan_pattern s) < fuel)%nat -> scanning (rs_view s) c acc s ->
  outcome (scan_scores fuel (scan_pattern s) c acc s)
    (fun r s' => all_scores_of r (rs_view s) /\ rs_after (rs_view s) (rs_lat s) s')
    (rs_after (rs_view s) (rs_lat s)).
Proof.
  revert c acc s. induction fuel as [|fuel IH]; intros c acc s Hi Hfuel Hsc; [lia|]. cbn [scan_scores].
  pose proof (Scan_law c (score_prefix s) 100 (rs_client s) (score_prefix_glob s Hi)) as Hscan.
  pose proof (Scan_keeps c (scan_pattern s) 100 (rs_client s)) as Hran.
  change (score_prefix s +:+ "*")%string with (scan_pattern s) in Hscan.
  destruct (redis_Scan _ _ _ _) as [[[keys c']|e] w1]; cbn in Hran; [|by apply (proj1 (ran_same _ s w1 Hi Hran))].
  destruct Hscan as (Hkeys & Hleft & Hsteps).
  destruct (proj1 (ran_same _ s w1 Hi Hran) _ (moved_refl s w1)) as (Hi1 & Hv1 & Hl1).
  change (if 0 <? zlen keys then _ else _) with (read_keys keys acc (rs_set_client w1 s)).
  pose proof (read_keys_law keys acc _ Hi1) as Hread.
  destruct (read_keys keys acc (rs_set_client w1 s)) as [[acc'|e] s2]; rewrite Hv1, Hl1 in Hread; [|by destruct Hread as [? _]].
  destruct Hread as (Hs2 & Hp2 & Hkeep & Hst & m & Hok & Hm & ->).
  destruct (scanning_read c c' acc keys s (rs_set_client w1 s) s2 m) as [Hsc' Hdone]; try done.
  { intros k. apply Hkeep. }
  destruct (c' =? 0) eqn:Ec; [cbn; split; [apply Hdone; by apply Z.eqb_eq in Ec|done]|].
  destruct Hs2 as (Hi2 & Hv2 & Hl2). rewrite <-Hv2, <-Hl2.
  assert (scan_pattern s2 = scan_pattern s) as Hpat by (unfold scan_pattern, score_prefix; by rewrite Hp2).
  rewrite <-Hpat. apply IH; [done| |by rewrite Hv2]. rewrite Hpat. eapply Nat.le_lt_trans; [apply Hst|]. cbn. go_bool.
  specialize (Hsteps Ec). lia.
Qed.

Lemma rs_GetAllScores_law s : rs_inv s ->
  outcome (rs_GetAllScores s)
    (fun r s' => all_scores_of r (rs_view s) /\ rs_after (rs_view s) (rs_lat s) s')
    (rs_after (rs_view s) (rs_lat s)).
Proof.
  intros Hi. unfold rs_GetAllScores. rewrite <-append_assoc. apply scan_scores_law; [done|..].
  - apply scan_bounded. by apply score_prefix_glob.
  - split; [by intros o ?%elem_of_nil|]. intros n d Hd. right. apply scan_starts; [by apply score_prefix_glob| |].
    + rewrite score_prefix_key. apply str_prefix_spec. by eexists.
    + by apply (view_present s n d).
Qed.

#[export] Program Instance RedisStore_laws : ScoreStoreLaws (RedisStore W) := {|
  st_inv := rs_inv;
  st_view := rs_view;
  st_lat := rs_lat;
  st_storable := score_storable;
  st_lat_storable := latency_storable
|}.
Next Obligation.
  intros s [_ Hok] n d Hd. unfold rs_view in Hd. rewrite db_scores_lookup in Hd. apply bind_some in Hd as (e & He & Hd).
  destruct (db_ok_scores _ _ Hok n e He) as (_ & Hn & d' & Hd' & <-). rewrite Hd in Hd'. injection Hd' as <-. done.
Qed.
Next Obligation. intros clk n s Hi. by apply rs_GetScore_law. Qed.
Next Obligation.
  intros clk d s Hi Hn Hs. eapply outcome_mono; [by apply rs_set_score_law|done|].
  intros s' [(? & ? & ?)|(? & ? & ?)]; auto.
Qed.
Next Obligation.
  intros clk ds s Hi Hv Hs. eapply outcome_mono; [by apply rs_SetScores_law|done|].
  intros s' (ds' & ? & ? & ? & ?). eauto.
Qed.
Next Obligation. intros clk s Hi. by apply rs_GetAllScores_law. Qed.
Next Obligation.
  intros clk n s Hi. eapply outcome_mono; [by apply rs_DeleteScore_law|done|].
  intros s' [(? & ? & ?)|(? & ? & ?)]; auto.
Qed.
Next Obligation. intros clk s Hi. by apply rs_GetLatencyStats_law. Qed.
Next Obligation.
  intros clk d s Hi Hs. eapply outcome_mono; [by apply rs_SetLatencyStats_law|done|].
  intros s' [(? & ? & ?)|(? & ? & ?)]; auto.
Qed.
End store.

(** ** The store as a cache *)

Section cache.
Context {W : Type} `{RedisLaws W, Zone, JsonErrors}.
Implicit Types s : RedisStore W.

(** An execution leaves no more than its effect on what was there. *)
Lemma executed_within pre f Q v v' a b :
  executed f Q a b -> db_scores pre a.1 ⊆ v -> (forall t m, db_scores pre m ⊆ v -> db_scores pre (f t m) ⊆ v') ->
  db_scores pre b.1 ⊆ v'.
Proof.
  intros (t & m & _ & [Hm _] & [Hm' _] & _) Ha Hf. etransitivity; [by apply under_mono|]. apply Hf.
  etransitivity; [by apply under_mono|done].
Qed.

Lemma attempts_within pre E (P : score_map -> Prop) a b :
  (forall f v t m, E f -> P v -> db_scores pre m ⊆ v -> exists v', P v' /\ db_scores pre (f t m) ⊆ v') ->
  (exists v, P v /\ db_scores pre a.1 ⊆ v) -> rtc (attempt E) a b -> exists v, P v /\ db_scores pre b.1 ⊆ v.
Proof.
  intros HE. apply (attempts_keep E (fun c => exists v, P v /\ db_scores pre c.1 ⊆ v)).
  intros c c' (v & Hv & Hc) (f & Hf & t & m & _ & [Hm _] & [Hm' _] & _).
  assert (db_scores pre m ⊆ v) as Hmv by (etransitivity; [by apply under_mono|done]).
  destruct Hf as [->|Hf].
  - exists v. split; [done|]. etransitivity; [by apply under_mono|done].
  - destruct (HE f v t m Hf Hv Hmv) as (v' & Hv' & Hfm). exists v'. split; [done|]. etransitivity; [by apply under_mono|done].
Qed.

Lemma kept_within Q s w' :
  ran redis_db redis_now keep Q (rs_client s) w' ->
  rs_view (rs_set_client w' s) ⊆ rs_view s /\ exists m, m ⊆ rs_db s /\ Q m.
Proof.
  intros (t & m & _ & [Hm _] & [Hm' _] & HQ). split; [|by exists m]. etransitivity; [|by apply under_mono]. by apply under_mono.
Qed.

Lemma db_set_within pre n t ttl now m d :
  unmarshal_score t = Ok d ->
  db_scores pre (db_set (score_key pre n) t ttl now m) = <[n := d]> (db_scores pre m).
Proof. intros Hu. apply db_scores_insert. unfold entry_score. cbn. by rewrite Hu. Qed.

Lemma pipeline_within pre s ds now m :
  pre = rs_keyPrefix s -> batch_of score_storable ds -> valid_batch ds ->
  db_scores pre (db_pipeline (batch_cmd s <$> ds) now m) = foldl set_one (db_scores pre m) ds.
Proof.
  intros -> Hs Hv. revert m. induction Hv as [|o ds (d & -> & Hn) Hv IH]; intros m; [done|].
  apply Forall_cons in Hs as [Hd Hs]. destruct (score_roundtrip d Hd) as (t & Ht & Hu).
  cbn [fmap list_fmap db_pipeline foldl batch_cmd db_pipe set_one]. rewrite Ht.
  etransitivity; [by apply IH|]. f_equal. by apply (db_set_within (rs_keyPrefix s) (psd_Name d)).
Qed.

Lemma foldl_set_one_mono ds (m m' : score_map) : m ⊆ m' -> foldl set_one m ds ⊆ foldl set_one m' ds.
Proof.
  revert m m'. induction ds as [|[d|] ds IH]; intros m m' Hm; [done| |by apply IH].
  apply IH. cbn. by apply insert_mono.
Qed.

#[export] Program Instance RedisStore_cache `{!RedisReliable W} : ScoreCacheLaws (RedisStore W) := {|
  ca_inv s := True;
  ca_view := rs_view;
  ca_storable := score_storable
|}.
Next Obligation.
  intros R clk n s _. cbn. unfold rs_GetScore. pose proof (Get_law (scoreKey n s) (rs_client s)) as Hg.
  destruct (redis_Get _ _) as [[|v|e] w']; destruct (kept_within _ s w' Hg) as [Hs (m & Hm & HQ)]; cbn; [by split|..|by split].
  destruct (unmarshal_score v) as [d|e] eqn:Eu; cbn; [|by split]. split; [|by split]. intros d' [= <-].
  destruct (db_string_entry _ _ _ HQ) as (e & He & Ht). apply (lookup_weaken (db_scores (rs_keyPrefix s) m)); [|by apply under_mono].
  rewrite db_scores_lookup. change (score_key (rs_keyPrefix s) n) with (scoreKey n s). rewrite He. cbn.
  unfold entry_score. rewrite Ht. cbn. by rewrite Eu.
Qed.
Next Obligation.
  intros R clk d s _ Hn Hst. cbn. unfold rs_SetScore, rs_set_score.
  destruct (score_roundtrip d Hst) as (t & Hm & Hu). rewrite bool_decide_eq_false_2, Hm by done.
  set (ttl := rc_ScoreTTL _). pose proof (Set_law (scoreKey (psd_Name d) s) t ttl (rs_client s)) as Hs.
  destruct (Set_reliable (scoreKey (psd_Name d) s) t ttl (rs_client s)) as [w' Hw]. rewrite Hw in Hs |- *. cbn.
  split; [done|]. apply retried_rtc in Hs as (b & Hb & He). set (v' := <[psd_Name d := d]> (rs_view s)).
  change (scoreKey (psd_Name d) s) with (score_key (rs_keyPrefix s) (psd_Name d)) in *.
  assert (<[psd_Name d := d]> v' = v') as Hidem by apply insert_insert_eq.
  assert (exists v, (v = rs_view s \/ v = v') /\ db_scores (rs_keyPrefix s) b.1 ⊆ v) as (v & Hv & Hsub).
  { refine (attempts_within _ _ (fun v => v = rs_view s \/ v = v') _ _ _ _ Hb); [|exists (rs_view s); by split; [left|]].
    intros f v now m -> Hv Hsub. exists v'. split; [by right|]. rewrite (db_set_within _ _ _ _ _ _ d) by done.
    assert (v' = <[psd_Name d := d]> v) as -> by (by destruct Hv as [-> | ->]). by apply insert_mono. }
  apply (executed_within _ _ _ _ v' _ _ He Hsub). intros now m Hm'. rewrite (db_set_within _ _ _ _ _ _ d) by done.
  assert (v' = <[psd_Name d := d]> v) as -> by (by destruct Hv as [-> | ->]). by apply insert_mono.
Qed.
Next Obligation.
  intros R clk ds s _ Hv Hst. cbn. unfold rs_SetScores. destruct (zlen ds =? 0) eqn:E.
  { by apply Z.eqb_eq, zlen_nil_inv in E as ->. }
  rewrite batch_cmds_eq by done. pose proof (Exec_law (batch_cmd s <$> ds) (rs_client s)) as Hs.
  destruct (Exec_reliable (batch_cmd s <$> ds) (rs_client s)) as [w' Hw]. rewrite Hw in Hs |- *. cbn.
  split; [done|]. apply retried_rtc in Hs as (b & Hb & He).
  assert (exists v, (exists ds', ds' `sublist_of` ds /\ v = foldl set_one (rs_view s) ds') /\ db_scores (rs_keyPrefix s) b.1 ⊆ v)
    as (v & (ds0 & Hsub0 & ->) & Hsub).
  { refine (attempts_within _ _ (fun v => exists ds', ds' `sublist_of` ds /\ v = foldl set_one (rs_view s) ds') _ _ _ _ Hb).
    2: { exists (rs_view s). split; [|done]. exists []. split; [apply sublist_nil_l|done]. }
    intros f v now m (cmds & (ds1 & -> & Hsub1)%sublist_fmap_inv & ->) (ds0 & Hsub0 & ->) Hm.
    destruct (set_one_twice ds ds0 ds1 Hsub0 Hsub1) as (ds2 & Hsub2 & Heq). exists (foldl set_one (rs_view s) ds2).
    split; [by exists ds2|]. assert (valid_batch ds1) as Hv1 by exact (Forall_sublist _ _ _ Hsub1 Hv).
    assert (batch_of score_storable ds1) as Hst1 by exact (Forall_sublist _ _ _ Hsub1 Hst).
    rewrite <-Heq, pipeline_within by done. exact (foldl_set_one_mono ds1 _ _ Hm). }
  apply (executed_within _ _ _ _ (foldl set_one (rs_view s) ds) _ _ He Hsub). intros now m Hm'. rewrite pipeline_within by done.
  rewrite <-(set_one_absorb ds0 ds (rs_view s)) by done. exact (foldl_set_one_mono ds _ _ Hm').
Qed.
Next Obligation.
  intros R clk n s _. cbn. unfold rs_DeleteScore. pose proof (Del_law (scoreKey n s) (rs_client s)) as Hd.
  assert (forall t m v, db_scores (rs_keyPrefix s) m ⊆ v -> db_scores (rs_keyPrefix s) (db_del (scoreKey n s) t m) ⊆ v) as Hdel.
  { intros t m v Hm. unfold db_del. change (scoreKey n s) with (score_key (rs_keyPrefix s) n). rewrite db_scores_delete.
    etransitivity; [apply delete_subseteq|done]. }
  assert (forall b, rtc (attempt (effect (db_del (scoreKey n s)))) (server redis_db redis_now (rs_client s)) b ->
    db_scores (rs_keyPrefix s) b.1 ⊆ rs_view s) as Hall.
  { intros b Hb. assert (exists v, v = rs_view s /\ db_scores (rs_keyPrefix s) b.1 ⊆ v) as (v & -> & Hv); [|exact Hv].
    refine (attempts_within _ _ (fun v => v = rs_view s) _ _ _ _ Hb); [|by exists (rs_view s)].
    intros f v t m -> -> Hm. exists (rs_view s). split; [done|]. by apply Hdel. }
  destruct (redis_Del _ _) as [[[]|e] w']; cbn; (split; [done|]).
  - apply retried_rtc in Hd as (b & Hb & He). apply (executed_within _ _ _ _ (rs_view s) _ _ He (Hall b Hb)). intros t m Hm. by apply Hdel.
  - exact (Hall _ (attempted_rtc _ _ _ _ _ _ Hd)).
Qed.
End cache.

(** ** Sequences of calls *)

(** C7: over any server that keeps the promises of the Redis commands, a store
    that [NewRedisStore] opened with scores that do not expire, on a database
    whose keys under its prefix, in which no character is special in a pattern,
    it can read, behaves like one map for every sequence of the five score calls
    with scores JSON keeps exactly: none of them panics or loops forever (the scan of all
    keys included), each read that returns no error returns what the last
    writes left there, and a call that failed had its effect, none of it, or
    that of a part of its batch. *)
Theorem redis_refines_map {W} `{RedisLaws W, Zone, JsonErrors} config (s : RedisStore W) w l :
  NewRedisStore config = Some (Ok s, w) -> rc_ScoreTTL config = 0 -> db_ok (rs_keyPrefix s) (redis_db w) ->
  Forall (fun q => cmd_valid score_storable q.2) l ->
  exists rs s', run_cmds l s = Some (rs, s') /\ trace_of failed_cmd (rs_view s) l rs.
Proof.
  unfold NewRedisStore. intros Hnew Httl Hok Hl. destruct (redis_NewClient _) as [w0|]; [|done]. cbn [mbind option_bind] in Hnew.
  destruct (redis_Ping _) as [[[]|e] w1].
  - injection Hnew as Hs Hw. subst w1. assert (rs_inv s) as Hi by (by subst s).
    exact (run_cmds_lawful (S := RedisStore W) l s Hi Hl).
  - by destruct (redis_Close w1).
Qed.

Definition demo_redis_config : RedisConfig := {|
  rc_Addr := "localhost:6379"; rc_Password := ""; rc_DB := 0; rc_PoolSize := 0; rc_MinIdleConns := 0;
  rc_ScoreTTL := 0; rc_KeyPrefix := "demo" |}.

Definition demo_redis : RedisStore toy := {|
  rs_client := {| toy_db := ∅; toy_now := 0 |}; rs_config := redis_defaults demo_redis_config;
  rs_keyPrefix := "demo:"; rs_pending := [] |}.

Definition demo_redis_cmds : list (clock * store_cmd) := [
  (demo_clk, CmdSet (demo_score "mempool" 1)); (demo_clk, CmdSet (demo_score "tatum" 2)); (demo_clk, CmdGet "mempool");
  (demo_clk, CmdGetAll); (demo_clk, CmdDelete "mempool"); (demo_clk, CmdGet "mempool")]%string.

Lemma demo_score_storable `{Zone} name ops :
  str_all is_ascii name = true -> int64_range ops -> time_writable zero_time = true -> score_storable (demo_score name ops).
Proof.
  intros Hn Ho Ht. split_and!; [done| | | |constructor].
  - repeat (apply Forall_cons; split; [split; vm_compute; reflexivity|]). constructor.
  - cbn [demo_score psd_TotalOperations psd_SuccessfulOps psd_FailedOps].
    repeat (apply Forall_cons; split; [first [exact Ho|unfold int64_range, min_int64, max_int64; lia]|]). constructor.
  - cbn [score_times demo_score]. repeat (apply Forall_cons; split; [exact Ht|]). constructor.
Qed.

Lemma redis_refines_map_witness :
  let _ := utc_zone in let _ := plain_json_errors in
  (exists w, NewRedisStore demo_redis_config = Some (Ok demo_redis, w))
  /\ exists rs s', run_cmds demo_redis_cmds demo_redis = Some (rs, s')
       /\ trace_of failed_cmd (rs_view demo_redis) demo_redis_cmds rs.
Proof.
  intros Z J. split; [by eexists|].
  apply (redis_refines_map demo_redis_config demo_redis (rs_client demo_redis)); [reflexivity|reflexivity| |].
  - change (db_ok "demo:" ∅). split; [reflexivity|by intros n e ?%lookup_empty_Some|by intros e ?%lookup_empty_Some].
  - assert (time_writable zero_time = true) as Ht by (vm_compute; reflexivity).
    repeat (apply Forall_cons; split; [|]); try constructor; try done;
      apply demo_score_storable; try done; unfold int64_range, min_int64, max_int64; lia.
Defined.

(** The same run, evaluated. *)
Example demo_redis_run :
  let _ := utc_zone in let _ := plain_json_errors in
  fst <$> run_cmds demo_redis_cmds demo_redis
  = Some [Ok RetNone; Ok RetNone; Ok (RetScore (Some (demo_score "mempool" 1)));
          Ok (RetAll [Some (demo_score "mempool" 1); Some (demo_score "tatum" 2)]); Ok RetNone; Ok (RetScore None)]%string.
Proof. vm_compute. reflexivity. Qed.

(** ** Watching *)

Lemma watch_loop_app `{JsonErrors} before after calls :
  watch_loop before = (calls, None) ->
  watch_loop (before ++ after) = (calls ++ (watch_loop after).1, (watch_loop after).2).
Proof.
  revert calls. induction before as [|[e|payload|] before IH]; intros calls Hb; cbn in *; [|done| |done].
  - injection Hb as <-. by destruct (watch_loop after).
  - destruct (unmarshal_score payload) as [data|e]; [|by apply IH].
    destruct (watch_loop before) as [calls' [e|]]; [done|]. injection Hb as <-. by rewrite (IH _ eq_refl).
Qed.

(** C34: a score that JSON keeps exactly ([score_storable]) and that was set
    reaches the watchers: a successful [SetScore] or
    [SetScoreWithTTL] starts one announcement on the channel of the store, and
    the callback of every watcher under the same prefix whose connection it
    reaches is called once for it, with the name and exactly the data that was
    set, after the calls for what was published on that channel before and
    before those for what is published there later (publications on other
    channels call nothing). *)
Theorem redis_watch_delivers {W} `{RedisClient W, Zone, JsonErrors} ttl d (s s' : RedisStore W) :
  psd_Name d <> ""%string -> score_storable d ->
  rs_SetScore (Some d) s = (Ok tt, s') \/ rs_SetScoreWithTTL (Some d) ttl s = (Ok tt, s') ->
  exists payload, rs_pending s' = rs_pending s ++ [payload]
    /\ publishScoreUpdate (length (rs_pending s)) s'
       = rs_set_client (redis_Publish (eventChannel s) payload (rs_client s')) (rs_set_pending (rs_pending s) s')
    /\ forall (watcher : RedisStore W) before after calls, rs_keyPrefix watcher = rs_keyPrefix s ->
         let heard := subscription (eventChannel s) in
         watch_loop (heard before) = (calls, None) ->
         Watch (Ok tt) (before ++ BusPublished (eventChannel s) payload :: after) watcher
         = (calls ++ (psd_Name d, d) :: (watch_loop (heard after)).1, (watch_loop (heard after)).2).
Proof.
  intros Hn Hst Hset. destruct (score_roundtrip d Hst) as (t & Hm & Hu). exists t.
  assert (exists what ttl', rs_set_score what ttl' (Some d) s = (Ok tt, s')) as (what & ttl' & Hs)
    by (destruct Hset; by eexists _, _).
  unfold rs_set_score in Hs. rewrite bool_decide_eq_false_2, Hm in Hs by done.
  destruct (redis_Set _ _ _ _) as [[[]|e] w']; [|done]. injection Hs as <-. cbn. split; [done|]. split.
  - unfold publishScoreUpdate. cbn. rewrite lookup_app_r, Nat.sub_diag by done. cbn.
    rewrite take_app_length, drop_ge by (rewrite length_app; cbn; lia). by rewrite app_nil_r.
  - intros watcher before after calls Hp. set (heard := subscription (eventChannel s)). intros Hb. unfold Watch.
    assert (eventChannel watcher = eventChannel s) as -> by (unfold eventChannel; by rewrite Hp). fold heard.
    assert (heard (before ++ BusPublished (eventChannel s) t :: after) = heard before ++ WatchMessage t :: heard after) as ->.
    { unfold heard, subscription. rewrite omap_app. cbn [omap list_omap]. by rewrite bool_decide_eq_true_2. }
    rewrite (watch_loop_app _ _ _ Hb). cbn [watch_loop]. rewrite Hu. by destruct (watch_loop (heard after)).
Qed.

Lemma redis_watch_delivers_witness :
  let _ := utc_zone in let _ := plain_json_errors in
  let d := demo_score "tatum" 1 in
  exists s' payload, rs_SetScore (Some d) demo_redis = (Ok tt, s') /\ rs_pending s' = [payload]
    /\ Watch (Ok tt) [BusPublished "demo:events" "{"; BusPublished "other:events" payload; BusPublished "demo:events" payload;
                      BusDone (errSentinel ContextCanceled)] demo_redis
       = ([("tatum"%string, d)], Some (errSentinel ContextCanceled)).
Proof.
  intros Z J d. assert (score_storable d) as Hst by (apply demo_score_storable; done || (unfold int64_range, min_int64, max_int64; lia)).
  destruct (rs_SetScore (Some d) demo_redis) as [r s'] eqn:E. assert (r = Ok tt) as -> by (vm_compute in E; by injection E as <- _).
  destruct (redis_watch_delivers 0 d demo_redis s' ltac:(done) Hst (or_introl E)) as (payload & Hp & _ & Hw).
  exists s', payload. split; [done|]. split; [exact Hp|].
  by apply (Hw demo_redis [BusPublished "demo:events" "{"; BusPublished "other:events" payload]
              [BusDone (errSentinel ContextCanceled)] []).
Defined.
