(* ===== verification/RedisLock.v ===== *)
(** * The distributed lock

    [Lock] of [scoring/store/redis.go] excludes: while the lock of one process
    has not expired, and whatever other processes do to the same Redis under the
    same prefix (their own attempts to lock, their unlocks, and every operation
    of the store), no other attempt succeeds. *)

From S2P Require Import Prelude GoInt GoFloat GoString GoCodec GoNum GoJson GoDecode GoTime Store StoreJson Hybrid.
From S2P Require Import Redis RedisLaws RedisToy RedisProps.

Section lock.
Context {W : Type} `{RedisLaws W, Zone, JsonErrors} (pre n v : string).
Implicit Types (s : RedisStore W) (w : W).

Definition lock_key : string := (pre +:+ lockKeyPattern +:+ n)%string.

(** The lock is taken with the value [v], for all times before [lim]. *)
Definition locked_db (lim : option Time) (m : database) : Prop :=
  exists e, m !! lock_key = Some e /\ re_value e = RString v
    /\ match re_deadline e, lim with Some t, Some u => u <= t | Some _, None => False | None, _ => True end.

Definition locked (lim : option Time) w : Prop := locked_db lim (redis_db w).

Definition before (t : Time) (lim : option Time) : Prop := match lim with Some u => t < u | None => True end.

Lemma expired_locked now lim m m' : expired now m m' -> before now lim -> locked_db lim m -> locked_db lim m'.
Proof.
  intros [_ Hkeep] Hb (e & He & Hv & Ht). exists e. split; [|done]. apply Hkeep; [done|].
  unfold lasts. destruct (re_deadline e), lim; cbn in *; try done; lia.
Qed.

(** An effect that spares the lock. *)
Definition spares (f : Time -> database -> database) : Prop := forall t m e, m !! lock_key = Some e ->
  re_value e = RString v -> f t m !! lock_key = Some e.

Lemma ran_locked f Q lim w w' :
  spares f -> ran redis_db redis_now f Q w w' -> before (redis_now w') lim -> locked lim w ->
  locked lim w' /\ exists m, locked_db lim m /\ Q m.
Proof.
  intros Hf (t & m & [Ht1 Ht2] & Hx1 & Hx2 & HQ) Hb Hl.
  assert (locked_db lim m) as Hm.
  { apply (expired_locked t lim _ _ Hx1); [|done]. destruct lim; cbn in *; [lia|done]. }
  split; [|by exists m]. apply (expired_locked (redis_now w') lim _ _ Hx2 Hb).
  destruct Hm as (e & He & Hv & Hd). exists e. split; [|done]. by apply Hf.
Qed.

Lemma spares_keep : spares keep.
Proof. by intros t m e. Qed.

Lemma ran_now f Q w w' : ran redis_db redis_now f Q w w' -> redis_now w <= redis_now w'.
Proof. intros (t & m & [? ?] & _). lia. Qed.

Lemma before_le t t' lim : t <= t' -> before t' lim -> before t lim.
Proof. destruct lim; cbn; lia. Qed.

(** An execution, and attempts, that spare the lock. *)
Lemma executed_locked f Q lim a b :
  spares f -> executed f Q a b -> before b.2 lim -> locked_db lim a.1 ->
  locked_db lim b.1 /\ exists m, locked_db lim m /\ Q m.
Proof.
  intros Hf (t & m & [Ht1 Ht2] & Hx1 & Hx2 & HQ) Hb Hl.
  assert (locked_db lim m) as Hm by (apply (expired_locked t lim _ _ Hx1); [by eapply before_le|done]).
  split; [|by exists m]. apply (expired_locked b.2 lim _ _ Hx2 Hb).
  destruct Hm as (e & He & Hv & Hd). exists e. split; [|done]. by apply Hf.
Qed.

Lemma attempts_locked E lim a b :
  (forall f, E f -> spares f) -> rtc (attempt E) a b -> before b.2 lim -> locked_db lim a.1 -> locked_db lim b.1.
Proof.
  intros HE Hr Hb. revert a b Hr Hb.
  enough (forall a b, rtc (attempt E) a b -> (before a.2 lim -> locked_db lim a.1) -> before b.2 lim -> locked_db lim b.1) as Hgen
    by (intros a b Hr Hb Hl; by apply (Hgen a b)).
  intros a b Hr Ha. revert Hr. refine (attempts_keep E (fun c => before c.2 lim -> locked_db lim c.1) _ _ _ Ha).
  intros c c' Hc Hatt Hb. pose proof (attempt_time _ _ _ Hatt) as Ht. destruct Hatt as (f & Hf & Hx).
  apply (executed_locked f any lim c c'); [destruct Hf as [->|Hf]; [apply spares_keep|by apply HE]|done|done|].
  apply Hc. by eapply before_le.
Qed.

(** What a step of another process does to the server: the lock is spared as
    long as it has not expired, and time goes on. *)
Definition harmless w w' : Prop :=
  redis_now w <= redis_now w' /\ forall lim, before (redis_now w') lim -> locked lim w -> locked lim w'.

Lemma harmless_refl w : harmless w w.
Proof. by split. Qed.

Lemma harmless_trans w1 w2 w3 : harmless w1 w2 -> harmless w2 w3 -> harmless w1 w3.
Proof.
  intros [Hn1 Hl1] [Hn2 Hl2]. split; [lia|]. intros lim Hb Hl. apply Hl2; [done|]. apply Hl1; [|done].
  destruct lim; cbn in *; [lia|done].
Qed.

Lemma ran_harmless f Q w w' : spares f -> ran redis_db redis_now f Q w w' -> harmless w w'.
Proof. intros Hf Hr. split; [by eapply ran_now|]. intros lim Hb Hl. by apply (ran_locked _ _ _ _ _ Hf Hr). Qed.

Lemma attempted_harmless E w w' :
  (forall f, E f -> spares f) -> attempted redis_db redis_now redis_retries E w w' -> harmless w w'.
Proof.
  intros HE Hr%attempted_rtc. split; [exact (attempts_time _ _ _ Hr)|]. intros lim Hb Hl. by apply (attempts_locked _ _ _ _ HE Hr).
Qed.

Lemma retried_locked E f Q lim w w' :
  (forall f, E f -> spares f) -> retried redis_db redis_now redis_retries E f Q w w' -> before (redis_now w') lim -> locked lim w ->
  exists m, locked_db lim m /\ Q m.
Proof.
  intros HE (b & Hr & t & m & [Ht1 Ht2] & Hx1 & _ & HQ)%retried_rtc Hb Hl. exists m. split; [|done].
  apply (expired_locked t lim _ _ Hx1); [by eapply before_le|]. apply (attempts_locked _ _ _ _ HE Hr); [|done].
  eapply before_le; [|exact Hb]. cbn in *. lia.
Qed.

Lemma retried_harmless E f Q w w' :
  (forall f, E f -> spares f) -> spares f -> retried redis_db redis_now redis_retries E f Q w w' -> harmless w w'.
Proof.
  intros HE Hf (b & Hr & Hx)%retried_rtc. pose proof (attempts_time _ _ _ Hr). pose proof (executed_time _ _ _ _ Hx). cbn in *.
  split; [lia|]. intros lim Hb Hl.
  apply (executed_locked f Q lim b (server redis_db redis_now w') Hf Hx Hb). apply (attempts_locked _ _ _ _ HE Hr); [|done].
  by eapply before_le.
Qed.

(** The same effect at every attempt. *)
Lemma write_harmless f w w' : spares f ->
  (retried redis_db redis_now redis_retries (effect f) f any w w' -> harmless w w')
  /\ (attempted redis_db redis_now redis_retries (effect f) w w' -> harmless w w').
Proof. intros Hf. split; [apply retried_harmless|apply attempted_harmless]; try done; by intros g ->. Qed.

(** *** Commands *)

Lemma spares_set k t ttl : k <> lock_key -> spares (db_set k t ttl).
Proof. intros Hk now m e He _. unfold db_set. by rewrite lookup_insert_ne. Qed.

Lemma spares_set_nx k t ttl : spares (db_set_nx k t ttl).
Proof.
  intros now m e He Hv. unfold db_set_nx. destruct (decide (k = lock_key)) as [->|Hk]; [by rewrite He|].
  destruct (m !! k); [done|]. by apply (spares_set k t (Z.max 0 ttl)).
Qed.

Lemma spares_del k : k <> lock_key -> spares (db_del k).
Proof. intros Hk now m e He _. unfold db_del. by rewrite lookup_delete_ne. Qed.

Lemma spares_unlock k v' : k <> lock_key \/ v' <> v -> spares (db_unlock k v').
Proof.
  intros Hk now m e He Hv. unfold db_unlock. destruct (decide (k = lock_key)) as [->|Hne].
  - destruct Hk as [|Hk]; [done|]. rewrite He. destruct e as [[t|] ?]; cbn in *; [|done]. injection Hv as ->.
    by rewrite bool_decide_eq_false_2 by done.
  - destruct (m !! k) as [[[t|] ?]|]; [|done|done]. case_bool_decide; [by rewrite lookup_delete_ne|done].
Qed.

Lemma spares_pipeline cmds :
  Forall (fun c => match c with PipeSet k _ _ => k <> lock_key | _ => False end) cmds -> spares (db_pipeline cmds).
Proof.
  induction 1 as [|c cmds Hc _ IH]; intros now m e He Hv; [done|]. cbn [db_pipeline foldl].
  apply IH; [|done]. destruct c; try done. by apply spares_set.
Qed.

Lemma score_lock_key n' : score_key pre n' <> lock_key.
Proof. intros Heq%append_inj. discriminate. Qed.

Lemma latency_lock_key : latency_key pre <> lock_key.
Proof. intros Heq%append_inj. discriminate. Qed.

Lemma Get_harmless k w : harmless w (redis_Get k w).2.
Proof.
  pose proof (Get_law k w) as Hr. destruct (redis_Get k w) as [[] w']; by eapply ran_harmless; [apply spares_keep|].
Qed.

Lemma Set_harmless k t ttl w : k <> lock_key -> harmless w (redis_Set k t ttl w).2.
Proof.
  intros Hk. pose proof (Set_law k t ttl w) as Hr.
  destruct (write_harmless _ w (redis_Set k t ttl w).2 (spares_set k t ttl Hk)).
  destruct (redis_Set k t ttl w) as [[] w']; auto.
Qed.

Lemma MGet_harmless ks w : harmless w (redis_MGet ks w).2.
Proof.
  pose proof (MGet_law ks w) as Hr. destruct (redis_MGet ks w) as [[] w']; by eapply ran_harmless; [apply spares_keep|].
Qed.
(** *** Operations of a store under the same prefix *)

Lemma read_keys_harmless keys acc s : harmless (rs_client s) (rs_client (read_keys keys acc s).2).
Proof.
  unfold read_keys. destruct (0 <? zlen keys); [|apply harmless_refl].
  pose proof (MGet_harmless keys (rs_client s)). by destruct (redis_MGet keys (rs_client s)) as [[] w'].
Qed.

Lemma scan_harmless fuel pattern c acc s r s' :
  scan_scores fuel pattern c acc s = Some (r, s') -> harmless (rs_client s) (rs_client s').
Proof.
  revert c acc s. induction fuel as [|fuel IH]; intros c acc s; [done|]. cbn [scan_scores].
  pose proof (ran_harmless _ _ _ _ spares_keep (Scan_keeps c pattern 100 (rs_client s))) as Hs.
  destruct (redis_Scan _ _ _ _) as [[[keys c']|e] w1]; [|by intros [= _ <-]].
  change (if 0 <? zlen keys then _ else _) with (read_keys keys acc (rs_set_client w1 s)).
  pose proof (read_keys_harmless keys acc (rs_set_client w1 s)) as Hr. cbn [rs_client rs_set_client snd] in *.
  destruct (read_keys _ _ _) as [[acc'|e] s2]; cbn [snd] in Hr; [|by intros [= _ <-]; eapply harmless_trans].
  destruct (c' =? 0); [by intros [= _ <-]; eapply harmless_trans|].
  intros Hrun%IH. eapply harmless_trans; [done|]. by eapply harmless_trans.
Qed.

Lemma rs_set_score_harmless what ttl d s : rs_keyPrefix s = pre ->
  harmless (rs_client s) (rs_client (rs_set_score what ttl d s).2).
Proof.
  intros Hp. unfold rs_set_score. destruct d as [d|]; [|apply harmless_refl].
  case_bool_decide; [apply harmless_refl|]. destruct (marshal_score d) as [t|]; [|apply harmless_refl].
  pose proof (Set_harmless (scoreKey (psd_Name d) s) t ttl (rs_client s)) as Hs.
  destruct (redis_Set _ _ _ _) as [[] w']; apply Hs; unfold scoreKey; rewrite Hp; apply score_lock_key.
Qed.

Lemma batch_cmds_spares ds s cmds : rs_keyPrefix s = pre -> batch_cmds ds s = Ok cmds ->
  Forall (fun c => match c with PipeSet k _ _ => k <> lock_key | _ => False end) cmds.
Proof.
  intros Hp. revert cmds. induction ds as [|[d|] ds IH]; intros cmds; cbn [batch_cmds]; [by intros [= <-]| |apply IH].
  case_bool_decide; [apply IH|]. destruct (marshal_score d); [|done]. destruct (batch_cmds ds s); [|done].
  intros [= <-]. apply Forall_cons. split; [|by apply IH]. unfold scoreKey. rewrite Hp. apply score_lock_key.
Qed.

Lemma rs_SetScores_harmless ds s : rs_keyPrefix s = pre -> harmless (rs_client s) (rs_client (rs_SetScores ds s).2).
Proof.
  intros Hp. unfold rs_SetScores. destruct (zlen ds =? 0); [apply harmless_refl|].
  destruct (batch_cmds ds s) as [cmds|] eqn:E; [|apply harmless_refl].
  pose proof (batch_cmds_spares _ _ _ Hp E) as Hcmds. pose proof (Exec_law cmds (rs_client s)) as He.
  assert (forall f, part_of cmds f -> spares f) as Hparts.
  { intros f (cmds' & Hsub & ->). by apply spares_pipeline, (Forall_sublist _ _ _ Hsub). }
  destruct (redis_Exec cmds (rs_client s)) as [[] w']; cbn.
  - eapply retried_harmless; [exact Hparts|by apply spares_pipeline|exact He].
  - by eapply attempted_harmless.
Qed.

Lemma rs_DeleteScore_harmless name s : rs_keyPrefix s = pre ->
  harmless (rs_client s) (rs_client (rs_DeleteScore name s).2).
Proof.
  intros Hp. unfold rs_DeleteScore. pose proof (Del_law (scoreKey name s) (rs_client s)) as Hd.
  assert (scoreKey name s <> lock_key) as Hk by (unfold scoreKey; rewrite Hp; apply score_lock_key).
  destruct (write_harmless _ (rs_client s) (redis_Del (scoreKey name s) (rs_client s)).2 (spares_del _ Hk)).
  destruct (redis_Del _ _) as [[] w']; auto.
Qed.

Lemma rs_SetLatencyStats_harmless d s : rs_keyPrefix s = pre ->
  harmless (rs_client s) (rs_client (rs_SetLatencyStats d s).2).
Proof.
  intros Hp. unfold rs_SetLatencyStats. destruct d as [d|]; [|apply harmless_refl].
  destruct (marshal_latency d) as [t|]; [|apply harmless_refl].
  pose proof (Set_harmless (latencyKey s) t (rc_ScoreTTL (rs_config s)) (rs_client s)) as Hs.
  destruct (redis_Set _ _ _ _) as [[] w']; apply Hs; unfold latencyKey; rewrite Hp; apply latency_lock_key.
Qed.

Lemma rs_read_harmless s : (forall name, harmless (rs_client s) (rs_client (rs_GetScore name s).2))
  /\ harmless (rs_client s) (rs_client (rs_GetLatencyStats s).2).
Proof.
  split; [intros name; unfold rs_GetScore|unfold rs_GetLatencyStats]; match goal with |- context [redis_Get ?k ?w] =>
    pose proof (Get_harmless k w); destruct (redis_Get k w) as [[|t|] w'] end; try done.
  - by destruct (unmarshal_score t).
  - by destruct (unmarshal_latency t).
Qed.

(** An attempt on a lock: it spares the one that is held, and does not get it. *)
Lemma Lock_spares clk name ttl s : rs_keyPrefix s = pre ->
  let '(r, s') := Lock clk name ttl s in
  harmless (rs_client s) (rs_client s')
  /\ (forall lim, name = n -> locked lim (rs_client s) -> before (redis_now (rs_client s')) lim -> exists e, r = Err e).
Proof.
  intros Hp. unfold Lock. set (value := lockValue _). pose proof (SetNX_law (lockKey name s) value ttl (rs_client s)) as Hs.
  assert (forall f, effect (db_set_nx (lockKey name s) value ttl) f -> spares f) as HE by (intros f ->; apply spares_set_nx).
  destruct (redis_SetNX _ _ _ _) as [[|r|e] w']; cbn.
  - split; [|eauto]. by eapply retried_harmless; [exact HE|apply spares_keep|].
  - assert (harmless (rs_client s) w') as Hh by (by eapply retried_harmless; [exact HE|apply spares_set_nx|]).
    case_bool_decide; (split; [done|]); [eauto|]. intros lim -> Hl Hb. exfalso. cbn in Hb.
    destruct (retried_locked _ _ _ _ _ _ HE Hs Hb Hl) as (m & (e & He & _) & HQ).
    assert (lockKey n s = lock_key) as Hk by (unfold lockKey; by rewrite Hp). by rewrite Hk, He in HQ.
  - split; [|eauto]. by eapply attempted_harmless.
Qed.

Lemma unlock_harmless name v' s : rs_keyPrefix s = pre -> name <> n \/ v' <> v ->
  harmless (rs_client s) (rs_client (unlock name v' s)).
Proof.
  intros Hp Hne. unfold unlock. cbn. eapply attempted_harmless; [|apply Unlock_law]. intros f ->. apply spares_unlock.
  destruct Hne as [Hne|]; [left|by right]. unfold lockKey, lock_key. rewrite Hp. by intros ?%append_inj%append_inj.
Qed.

(** ** Other processes *)

(** A step of the server: time passes, or a process with a store under the
    same prefix does something other than unlock with [v]. *)
Inductive other_step : W -> W -> Prop :=
  | step_time w w' : ran redis_db redis_now keep any w w' -> other_step w w'
  | step_get s name : rs_keyPrefix s = pre -> other_step (rs_client s) (rs_client (rs_GetScore name s).2)
  | step_set s d : rs_keyPrefix s = pre -> other_step (rs_client s) (rs_client (rs_SetScore d s).2)
  | step_set_ttl s d ttl : rs_keyPrefix s = pre -> other_step (rs_client s) (rs_client (rs_SetScoreWithTTL d ttl s).2)
  | step_set_many s ds : rs_keyPrefix s = pre -> other_step (rs_client s) (rs_client (rs_SetScores ds s).2)
  | step_get_all s r s' : rs_keyPrefix s = pre -> rs_GetAllScores s = Some (r, s') -> other_step (rs_client s) (rs_client s')
  | step_delete s name : rs_keyPrefix s = pre -> other_step (rs_client s) (rs_client (rs_DeleteScore name s).2)
  | step_get_latency s : rs_keyPrefix s = pre -> other_step (rs_client s) (rs_client (rs_GetLatencyStats s).2)
  | step_set_latency s d : rs_keyPrefix s = pre -> other_step (rs_client s) (rs_client (rs_SetLatencyStats d s).2)
  | step_publish s i : rs_keyPrefix s = pre -> other_step (rs_client s) (rs_client (publishScoreUpdate i s))
  | step_lock s clk name ttl : rs_keyPrefix s = pre -> other_step (rs_client s) (rs_client (Lock clk name ttl s).2)
  | step_unlock s name v' : rs_keyPrefix s = pre -> name <> n \/ v' <> v -> other_step (rs_client s) (rs_client (unlock name v' s)).

Lemma other_step_harmless w w' : other_step w w' -> harmless w w'.
Proof.
  destruct 1 as [w w' Hr|s name Hp|s d Hp|s d ttl Hp|s ds Hp|s r s' Hp Hr|s name Hp|s Hp|s d Hp|s i Hp|s clk name ttl Hp|s name v' Hp Hne].
  - by eapply ran_harmless; [apply spares_keep|].
  - apply rs_read_harmless.
  - by apply rs_set_score_harmless.
  - by apply rs_set_score_harmless.
  - by apply rs_SetScores_harmless.
  - by eapply scan_harmless.
  - by apply rs_DeleteScore_harmless.
  - apply rs_read_harmless.
  - by apply rs_SetLatencyStats_harmless.
  - unfold publishScoreUpdate. destruct (rs_pending s !! i); [|apply harmless_refl]. cbn.
    eapply ran_harmless; [apply spares_keep|apply Publish_law].
  - pose proof (Lock_spares clk name ttl s Hp) as Hl. destruct (Lock clk name ttl s). apply Hl.
  - by apply unlock_harmless.
Qed.

Lemma other_steps_harmless w w' : rtc other_step w w' -> harmless w w'.
Proof. induction 1; [apply harmless_refl|]. by eapply harmless_trans; [apply other_step_harmless|]. Qed.
End lock.

(** When the lock taken at [now] with the time to live [ttl], in whole
    milliseconds, may expire. *)
Definition lock_limit (now : Time) (ttl : Duration) : option Time :=
  if 0 <? ttl then Some (now + whole Millisecond ttl) else None.

Lemma Lock_locks {W} `{RedisLaws W} clk n ttl (s s' : RedisStore W) v :
  Lock clk n ttl s = (Ok v, s') -> before (redis_now (rs_client s')) (lock_limit (redis_now (rs_client s)) ttl) ->
  locked (rs_keyPrefix s) n v (lock_limit (redis_now (rs_client s)) ttl) (rs_client s').
Proof.
  unfold Lock. pose proof (SetNX_law (lockKey n s) (lockValue (clk 0%nat)) ttl (rs_client s)) as Hs.
  destruct (redis_SetNX _ _ _ _) as [[|r|e] w']; cbn; try done.
  case_bool_decide; [done|]. intros [= <- <-] Hb. apply retried_rtc in Hs as (b & Hr & t & m & [Ht1 Ht2] & _ & Hx2 & Hnone).
  pose proof (attempts_time _ _ _ Hr) as Ht0. cbn [server snd] in *.
  apply (expired_locked _ _ _ (redis_now w') _ _ _ Hx2); [done|]. unfold db_set_nx, db_set. rewrite Hnone. eexists. rewrite lookup_insert_eq.
  split; [done|]. split; [done|]. unfold lock_limit. cbn. destruct (0 <? ttl) eqn:E; go_bool.
  - rewrite Z.max_r, (proj2 (Z.ltb_lt _ _)) by lia. lia.
  - rewrite Z.max_l by lia. done.
Qed.

(** C10: after a process took a lock, no attempt to take it succeeds, by any
    process, as long as its time to live (in whole milliseconds, at least one:
    what the client sends) has not passed and it was not unlocked with its own
    value: whatever the other processes did in between with the scores, with
    this and other locks, and with unlocks of their own.  Without a time to live
    it stays taken forever. *)
Theorem redis_lock_exclusive {W} `{RedisLaws W, Zone, JsonErrors} clk clk2 n ttl ttl2 (s s1 s2 s3 : RedisStore W) v w r :
  Lock clk n ttl s = (Ok v, s1) ->
  rtc (other_step (rs_keyPrefix s) n v) (rs_client s1) w ->
  rs_client s2 = w -> rs_keyPrefix s2 = rs_keyPrefix s ->
  Lock clk2 n ttl2 s2 = (r, s3) ->
  before (redis_now (rs_client s3)) (lock_limit (redis_now (rs_client s)) ttl) ->
  exists e, r = Err e.
Proof.
  intros Hlock Hsteps Hw Hp Hagain Hb. destruct (other_steps_harmless _ _ _ _ _ Hsteps) as [Hn1 Hkeep].
  pose proof (Lock_spares (rs_keyPrefix s) n v clk2 n ttl2 s2 Hp) as Hsp. rewrite Hagain in Hsp.
  destruct Hsp as [[Hn2 _] Hfails]. rewrite Hw in *. set (lim := lock_limit _ _) in *.
  assert (forall t, t <= redis_now (rs_client s3) -> before t lim) as Hbefore.
  { intros t Ht. destruct lim; cbn in *; [lia|done]. }
  apply (Hfails lim); [done| |done]. apply Hkeep; [apply Hbefore; lia|]. apply Lock_locks with (clk := clk); [done|].
  apply Hbefore. lia.
Qed.

Lemma redis_lock_exclusive_witness :
  let _ := utc_zone in let _ := plain_json_errors in
  let '(r1, s1) := Lock demo_clk "tatum" Second demo_redis in
  let '(_, s2) := rs_SetScore (Some (demo_score "tatum" 1)) s1 in
  let '(r2, s3) := Lock (clk_skip 1 demo_clk) "tatum" Second s2 in
  exists v e, r1 = Ok v /\ r2 = Err e.
Proof.
  intros Z J. destruct (Lock demo_clk "tatum" Second demo_redis) as [r1 s1] eqn:E1.
  destruct (rs_SetScore (Some (demo_score "tatum" 1)) s1) as [r s2] eqn:E2.
  destruct (Lock (clk_skip 1 demo_clk) "tatum" Second s2) as [r2 s3] eqn:E3.
  assert (exists v, r1 = Ok v) as [v ->] by (vm_compute in E1; injection E1 as <- _; by eexists). exists v.
  assert (rs_keyPrefix s1 = "demo:"%string) as Hp by (vm_compute in E1; injection E1 as _ <-; reflexivity).
  assert (s2 = (rs_SetScore (Some (demo_score "tatum" 1)) s1).2) as Hs2 by (by rewrite E2).
  destruct (redis_lock_exclusive demo_clk (clk_skip 1 demo_clk) "tatum" Second Second demo_redis s1 s2 s3 v (rs_client s2) r2) as [e ->].
  - exact E1.
  - apply rtc_once. rewrite Hs2. by apply step_set.
  - reflexivity.
  - vm_compute in E1. injection E1 as _ <-. vm_compute in E2. injection E2 as _ <-. reflexivity.
  - exact E3.
  - vm_compute in E1. injection E1 as _ <-. vm_compute in E2. injection E2 as _ <-. vm_compute in E3. injection E3 as _ <-. reflexivity.
  - by exists e.
Defined.

(** The value of a lock is the time it was taken at: a process whose lock
    expired and another that took it at the same nanosecond of their clocks
    share a value, and the first one unlocks the second one's. *)
Lemma lock_value_shared :
  let s := demo_redis in
  let stale := lockValue (demo_clk 0%nat) in
  let '(r, s1) := Lock demo_clk "tatum" Second s in
  r = Ok stale /\ redis_db (rs_client (unlock "tatum" stale s1)) = ∅.
Proof. vm_compute. split; reflexivity. Qed.
