(* ===== verification/RedisPenalty.v ===== *)
(** * The Redis penalty history

    [scoring/store/redis_penalty.go]: a list of JSON records per provider,
    trimmed to a number of entries and given a new time to live at every append.
    [GetRecent] returns the most recent records of the provider, oldest first;
    a record whose pipeline the client had to repeat may be there more than once
    ([redis_penalty_recent]). *)

From Stdlib Require Import Ascii.
From S2P Require Import Prelude GoInt GoFloat GoString GoCodec GoJson GoDecode GoHttp GoTime Store StoreJson Hybrid.
From S2P Require Import Redis RedisLaws RedisToy RedisProps.

Definition defaultRedisPenaltyKeyPrefix : string := "chainkit:scoring:".
Definition penaltyKeyPattern : string := "penalty:".
Definition defaultRedisPenaltyTTL : Duration := 7 * 24 * Hour.
Definition defaultRedisPenaltyMaxEntries : Z := 500.

Record RedisPenaltyConfig := {
  rpc_Addr : string;
  rpc_Password : string;
  rpc_DB : Z;
  rpc_KeyPrefix : string;
  rpc_TTL : Duration;
  rpc_MaxEntriesPerProvider : Z;
  rpc_PoolSize : Z;
  rpc_MinIdleConns : Z
}.

Record RedisPenaltyStore (W : Type) := {
  rp_client : W;
  rp_config : RedisPenaltyConfig;
  rp_keyPrefix : string
}.
Arguments rp_client {_} _.
Arguments rp_config {_} _.
Arguments rp_keyPrefix {_} _.

Definition redis_penalty_defaults (config : RedisPenaltyConfig) : RedisPenaltyConfig := {|
  rpc_Addr := rpc_Addr config; rpc_Password := rpc_Password config; rpc_DB := rpc_DB config;
  rpc_KeyPrefix := rpc_KeyPrefix config;
  rpc_TTL := if rpc_TTL config =? 0 then defaultRedisPenaltyTTL else rpc_TTL config;
  rpc_MaxEntriesPerProvider := if rpc_MaxEntriesPerProvider config =? 0 then defaultRedisPenaltyMaxEntries
                               else rpc_MaxEntriesPerProvider config;
  rpc_PoolSize := if rpc_PoolSize config =? 0 then 10 else rpc_PoolSize config;
  rpc_MinIdleConns := if rpc_MinIdleConns config =? 0 then 2 else rpc_MinIdleConns config |}.

Section redis_penalty.
Context {W : Type} `{RedisClient W, Zone, JsonErrors}.
Implicit Types s : RedisPenaltyStore W.

Definition NewRedisPenaltyStore (config : RedisPenaltyConfig) : go (result (RedisPenaltyStore W) * W) :=
  let config := redis_penalty_defaults config in
  client ← redis_NewClient {|
    ro_Addr := rpc_Addr config; ro_Password := rpc_Password config; ro_DB := rpc_DB config;
    ro_PoolSize := rpc_PoolSize config; ro_MinIdleConns := rpc_MinIdleConns config |};
  let '(r, client) := redis_Ping client in
  Some match r with
  | Err e => let '(_, client) := redis_Close client in
             (Err (errWrap "redis penalty store: connection failed: " e ""), client)
  | Ok _ =>
      (Ok {| rp_client := client; rp_config := config;
             rp_keyPrefix := key_prefix defaultRedisPenaltyKeyPrefix (rpc_KeyPrefix config) |}, client)
  end.

Definition rp_set_client (w : W) s : RedisPenaltyStore W :=
  {| rp_client := w; rp_config := rp_config s; rp_keyPrefix := rp_keyPrefix s |}.

Definition penaltyKey (providerName : string) s : string := (rp_keyPrefix s +:+ penaltyKeyPattern +:+ providerName)%string.

Definition append_cmds (key b : string) (config : RedisPenaltyConfig) : list redis_cmd := [
  PipeRPush key b;
  PipeLTrim key (wrap64 (- rpc_MaxEntriesPerProvider config)) (-1);
  PipeExpire key (rpc_TTL config)].

Definition rp_Append (record : option PenaltyRecordData) s : result unit * RedisPenaltyStore W :=
  match record with
  | None => (Ok tt, s)
  | Some r =>
      if bool_decide (prd_ProviderName r = ""%string) then (Ok tt, s)
      else
        match marshal_penalty r with
        | Err e => (Err (errWrap "redis penalty store: marshal: " e ""), s)
        | Ok b =>
            let '(res, w) := redis_Exec (append_cmds (penaltyKey (prd_ProviderName r) s) b (rp_config s)) (rp_client s) in
            let s := rp_set_client w s in
            match res with
            | Err e => (Err (errWrap "redis penalty store: append pipeline: " e ""), s)
            | Ok _ => (Ok tt, s)
            end
        end
  end.

Definition decode_penalties (vals : list string) : list PenaltyRecordData :=
  omap (fun v => match unmarshal_penalty v with Ok rec => Some rec | Err _ => None end) vals.

(** An error comes with no values, so it is taken for an empty list. *)
Definition rp_GetRecent (providerName : string) (limit : Z) s
    : result (list PenaltyRecordData) * RedisPenaltyStore W :=
  if limit <=? 0 then (Ok [], s)
  else
    let '(r, w) := redis_LRange (penaltyKey providerName s) (wrap64 (- limit)) (-1) (rp_client s) in
    let s := rp_set_client w s in
    let vals := match r with ROk vals => vals | _ => [] end in
    match r with
    | RNil => (Ok [], s)
    | _ =>
        if zlen vals =? 0 then (Ok [], s)
        else match r with
             | RErr e => (Err (errWrap "redis penalty store: lrange: " e ""), s)
             | _ => (Ok (decode_penalties vals), s)
             end
    end.

Definition rp_PurgeOld (w : Duration) s : result unit * RedisPenaltyStore W := (Ok tt, s).

Definition rp_Ping s : result unit * RedisPenaltyStore W :=
  let '(r, w) := redis_Ping (rp_client s) in (r, rp_set_client w s).

Definition rp_Close s : result unit * RedisPenaltyStore W :=
  let '(r, w) := redis_Close (rp_client s) in (r, rp_set_client w s).

#[export] Instance RedisPenaltyStore_store : PenaltyHistoryStore (RedisPenaltyStore W) := {|
  pen_Append r := rp_Append (Some r);
  pen_GetRecent := rp_GetRecent;
  pen_PurgeOld := rp_PurgeOld;
  pen_Ping := rp_Ping;
  pen_Close := rp_Close;
  pen_Name s := "redis_penalty"%string
|}.
End redis_penalty.

(** ** The last entries of a list *)

Definition lastn {A} (n : nat) (l : list A) : list A := drop (length l - n) l.

Lemma lastn_fmap {A B} (f : A -> B) n l : lastn n (f <$> l) = f <$> lastn n l.
Proof. unfold lastn. by rewrite length_fmap, fmap_drop. Qed.

Lemma lastn_all {A} n (l : list A) : (length l <= n)%nat -> lastn n l = l.
Proof. intros Hn. unfold lastn. by replace (length l - n)%nat with 0%nat by lia. Qed.

Lemma lastn_app {A} n (l k : list A) : lastn n (lastn n l ++ k) = lastn n (l ++ k).
Proof.
  unfold lastn. rewrite !length_app, length_drop.
  destruct (Nat.le_gt_cases (length l) n) as [Hle|Hgt]; [by replace (length l - n)%nat with 0%nat by lia; rewrite Nat.sub_0_r|].
  rewrite !drop_app, drop_drop, length_drop. f_equal; f_equal; lia.
Qed.

Lemma list_range_lastn (n : Z) (l : list string) : 0 < n -> list_range (- n) (-1) l = lastn (Z.to_nat n) l.
Proof.
  intros Hn. unfold list_range, lastn, zlen. rewrite (proj2 (Z.ltb_lt (- n) 0)) by lia.
  rewrite (proj2 (Z.ltb_lt (-1) 0)) by lia. destruct (_ <? _) eqn:E; go_bool.
  - destruct l; [by rewrite drop_nil|cbn [length] in *; lia].
  - replace (Z.to_nat (Z.max 0 (Z.of_nat (length l) + - n))) with (length l - Z.to_nat n)%nat by lia.
    apply take_ge. rewrite length_drop. lia.
Qed.

Lemma lastn_snoc {A} n (l : list A) x : lastn (S n) (l ++ [x]) = lastn n l ++ [x].
Proof.
  unfold lastn. rewrite length_app, drop_app. cbn. replace (length l + 1 - S n)%nat with (length l - n)%nat by lia.
  f_equal. by replace (length l - n - length l)%nat with 0%nat by lia.
Qed.

Lemma lastn_lastn {A} n k (l : list A) : (n <= k)%nat -> lastn n (lastn k l) = lastn n l.
Proof. intros Hn. unfold lastn. rewrite length_drop, drop_drop. f_equal. lia. Qed.

Lemma lastn_ne {A} n (l : list A) : (0 < n)%nat -> l <> [] -> lastn n l <> [].
Proof. intros Hn Hl E%(f_equal length). unfold lastn in E. rewrite length_drop in E. destruct l; [done|]. cbn in E. lia. Qed.

(** ** The list of a provider *)

Section list.
Context `{Zone, JsonErrors} (pre : string) (lim : Time) (config : RedisPenaltyConfig).
Context (Hmax : 0 < rpc_MaxEntriesPerProvider config <= max_int64) (Httl : 0 < rpc_TTL config).
Implicit Types m : database.

Definition penalty_key (name : string) : string := (pre +:+ penaltyKeyPattern +:+ name)%string.

Definition penalty_text (r : PenaltyRecordData) : string := match marshal_penalty r with Ok t => t | Err _ => ""%string end.

Definition of_provider (name : string) (rs : list PenaltyRecordData) : list PenaltyRecordData :=
  filter (fun r => prd_ProviderName r = name) rs.

Definition max_entries : nat := Z.to_nat (rpc_MaxEntriesPerProvider config).

(** The entry of a key to which the records [rs] were appended: it does not
    expire before [lim] and holds at least as many of the last records as the
    store keeps, exactly as many when it is [tidy]. *)
Definition kept (tidy : bool) (rs : list PenaltyRecordData) (e : option rentry) : Prop :=
  match rs with
  | [] => e = None
  | _ => exists k t, (max_entries <= k)%nat /\ (tidy = true -> k = max_entries)
           /\ e = Some {| re_value := RList (penalty_text <$> lastn k rs); re_deadline := t |}
           /\ match t with Some t => lim <= t | None => True end
  end.

Lemma kept_loose tidy rs e : kept tidy rs e -> kept false rs e.
Proof. destruct rs; [done|]. intros (k & t & ? & _ & ? & ?). by exists k, t. Qed.

Lemma rpush_kept tidy rs k r m : kept tidy rs (m !! k) -> kept false (rs ++ [r]) (db_rpush k (penalty_text r) m !! k).
Proof.
  unfold db_rpush. destruct rs as [|r0 rs].
  - intros E. change (m !! k = None) in E. rewrite E, lookup_insert_eq. exists max_entries, None. split_and!; try done.
    rewrite lastn_all; [done|]. unfold max_entries. cbn. lia.
  - intros (n & t & Hn & _ & -> & Ht). rewrite lookup_insert_eq. exists (S n), t.
    split_and!; [lia|done| |done]. change (r0 :: rs ++ [r]) with ((r0 :: rs) ++ [r]). by rewrite lastn_snoc, fmap_app.
Qed.

Lemma ltrim_kept tidy rs k m :
  kept tidy rs (m !! k) -> kept true rs (db_ltrim k (wrap64 (- rpc_MaxEntriesPerProvider config)) (-1) m !! k).
Proof.
  unfold db_ltrim. destruct rs as [|r rs]; [by cbn; intros E; rewrite !E|]. intros (n & t & Hn & _ & -> & Ht).
  rewrite wrap64_id by (unfold int64_range, min_int64, max_int64 in *; lia).
  rewrite list_range_lastn, lastn_fmap, lastn_lastn by (unfold max_entries in Hn; lia). fold max_entries.
  destruct (penalty_text <$> lastn max_entries (r :: rs)) eqn:E.
  { apply fmap_nil_inv, lastn_ne in E; [done|unfold max_entries; lia|done]. }
  rewrite lookup_insert_eq. exists max_entries, t. by rewrite E.
Qed.

Lemma expire_kept now tidy rs k m : lim <= now + whole Second (rpc_TTL config) ->
  kept tidy rs (m !! k) -> kept tidy rs (db_expire k (rpc_TTL config) now m !! k).
Proof.
  intros Hlim. unfold db_expire. destruct rs as [|r rs]; [by cbn; intros E; rewrite !E|]. intros (n & t & Hn & Ht & -> & _).
  rewrite (proj2 (Z.ltb_lt 0 _)), lookup_insert_eq by done. by exists n, (Some (now + whole Second (rpc_TTL config))).
Qed.

(** ** The lists of all providers *)

(** The database after the records [rs] were appended. *)
Definition holds (tidy : string -> bool) (rs : list PenaltyRecordData) m : Prop :=
  forall name, kept (tidy name) (of_provider name rs) (m !! penalty_key name).

Definition settle (p : string) (b : bool) (tidy : string -> bool) (name : string) : bool :=
  if bool_decide (p = name) then b else tidy name.

Lemma holds_expired now tidy rs m m' : expired now m m' -> now < lim -> holds tidy rs m -> holds tidy rs m'.
Proof.
  intros [Hsub Hkeep] Hn Hm name. specialize (Hm name). unfold kept in *. destruct (of_provider name rs) as [|r l].
  - destruct (m' !! penalty_key name) eqn:E; [|done]. by rewrite (lookup_weaken _ _ _ _ E Hsub) in Hm.
  - destruct Hm as (k & t & ? & ? & Hm & ?). exists k, t. split_and!; try done. apply Hkeep; [done|].
    unfold lasts. cbn. destruct t; [lia|done].
Qed.

Lemma penalty_key_inj name name' : penalty_key name = penalty_key name' -> name = name'.
Proof. by intros ?%append_inj%append_inj. Qed.

Lemma of_provider_app name rs rs' : of_provider name (rs ++ rs') = of_provider name rs ++ of_provider name rs'.
Proof. apply filter_app. Qed.

Lemma of_provider_one name r : of_provider name [r] = if bool_decide (prd_ProviderName r = name) then [r] else [].
Proof. unfold of_provider. case_bool_decide; [by rewrite filter_cons_True|by rewrite filter_cons_False]. Qed.

(** A command on the key of [p] that leaves the other keys alone. *)
Lemma holds_at p b tidy rs rs' m m' :
  (forall name, name <> p -> m' !! penalty_key name = m !! penalty_key name) ->
  (forall name, name <> p -> of_provider name rs' = of_provider name rs) ->
  kept b (of_provider p rs') (m' !! penalty_key p) ->
  holds tidy rs m -> holds (settle p b tidy) rs' m'.
Proof.
  intros Hother Hrs Hp Hh name. unfold settle. case_bool_decide as E; [by subst|]. rewrite Hother, Hrs by done. apply Hh.
Qed.

Lemma holds_loose p tidy rs m : holds tidy rs m -> holds (settle p false tidy) rs m.
Proof. intros Hh. apply (holds_at p false tidy rs rs m m); [done|done| |done]. eapply kept_loose, Hh. Qed.

Lemma pipe_other now m key b c name : c ∈ append_cmds key b config -> penalty_key name <> key ->
  db_pipe now m c !! penalty_key name = m !! penalty_key name.
Proof.
  intros Hc Hne. unfold append_cmds in Hc. rewrite !elem_of_cons in Hc.
  destruct Hc as [->|[->|[->|[]%not_elem_of_nil]]]; cbn [db_pipe]; unfold db_rpush, db_ltrim, db_expire;
    repeat case_match; by rewrite ?lookup_insert_ne, ?lookup_delete_ne by done.
Qed.

(** How often a part of a pipeline pushes. *)
Definition pushes (cmds : list redis_cmd) : nat :=
  length (List.filter (fun c => match c with PipeRPush _ _ => true | _ => false end) cmds).

Lemma pushes_sublist cmds cmds' : cmds `sublist_of` cmds' -> (pushes cmds <= pushes cmds')%nat.
Proof. unfold pushes. induction 1 as [|c cmds cmds' _ IH|c cmds cmds' _ IH]; cbn; [done|..]; destruct c; cbn; lia. Qed.

(** A part of an append adds the record as often as it pushes. *)
Lemma holds_part now tidy rs m r cmds :
  let p := prd_ProviderName r in
  lim <= now + whole Second (rpc_TTL config) ->
  (forall c, c ∈ cmds -> c ∈ append_cmds (penalty_key p) (penalty_text r) config) ->
  holds (settle p false tidy) rs m ->
  holds (settle p false tidy) (rs ++ replicate (pushes cmds) r) (db_pipeline cmds now m).
Proof.
  intros p Hlim. revert rs m. unfold db_pipeline. induction cmds as [|c cmds IH]; intros rs m Hc Hh; [by rewrite app_nil_r|].
  assert (holds (settle p false tidy) (rs ++ replicate (pushes [c]) r) (db_pipe now m c)) as Hn.
  { assert (forall n name, name <> p -> of_provider name (rs ++ replicate n r) = of_provider name rs) as Hr.
    { intros n name Hne. rewrite of_provider_app. replace (of_provider name (replicate n r)) with (@nil PenaltyRecordData); [by rewrite app_nil_r|].
      induction n as [|n IHn]; [done|]. cbn [replicate]. unfold of_provider. by rewrite filter_cons_False. }
    pose proof (Hh p) as Hp. pose proof (Hc c (list_elem_of_here c cmds)) as Hin.
    assert (forall name, name <> p -> db_pipe now m c !! penalty_key name = m !! penalty_key name) as Ho
      by (intros name Hne; apply (pipe_other _ _ _ _ _ _ Hin); by intros ?%penalty_key_inj).
    assert (forall n, kept false (of_provider p (rs ++ replicate n r)) (db_pipe now m c !! penalty_key p) ->
      holds (settle p false tidy) (rs ++ replicate n r) (db_pipe now m c)) as Hat.
    { intros n Hk name. generalize (holds_at p false _ _ _ _ _ Ho (Hr n) Hk Hh name).
      unfold settle. by case_bool_decide. }
    unfold append_cmds in Hin. rewrite !elem_of_cons in Hin. destruct Hin as [->|[->|[->|[]%not_elem_of_nil]]].
    - apply Hat. cbn. rewrite of_provider_app, of_provider_one, bool_decide_eq_true_2 by done. eapply rpush_kept, Hp.
    - apply Hat. rewrite app_nil_r. eapply kept_loose, ltrim_kept, Hp.
    - apply Hat. rewrite app_nil_r. eapply kept_loose, expire_kept; [done|apply Hp]. }
  cbn [foldl]. replace (pushes (c :: cmds)) with (pushes [c] + pushes cmds)%nat by (unfold pushes; by destruct c).
  rewrite replicate_add, app_assoc. apply IH; [|done]. intros c' Hc'. apply Hc. by right.
Qed.

(** The whole of it adds the record and trims the list. *)
Lemma holds_append now tidy rs m r :
  let p := prd_ProviderName r in
  lim <= now + whole Second (rpc_TTL config) -> holds tidy rs m ->
  holds (settle p true tidy) (rs ++ [r]) (db_pipeline (append_cmds (penalty_key p) (penalty_text r) config) now m).
Proof.
  intros p Hlim Hh. apply (holds_at p true _ rs _ m); [| | |done].
  - intros name Hne. assert (penalty_key name <> penalty_key p) as Hk by (by intros ?%penalty_key_inj).
    assert (forall m' c, c ∈ append_cmds (penalty_key p) (penalty_text r) config ->
      db_pipe now m' c !! penalty_key name = m' !! penalty_key name) as Ho
      by (intros m' c Hc; by apply (pipe_other _ _ _ _ _ _ Hc)).
    unfold db_pipeline, append_cmds in *. cbn [foldl]. rewrite !Ho by (rewrite !elem_of_cons; tauto). done.
  - intros name Hne. by rewrite of_provider_app, of_provider_one, bool_decide_eq_false_2, app_nil_r.
  - rewrite of_provider_app, of_provider_one, bool_decide_eq_true_2 by done.
    apply expire_kept; [done|]. eapply ltrim_kept, rpush_kept, Hh.
Qed.
End list.

(** ** A history of appends *)

(** What a client that repeats a pipeline up to [retries] times may have stored
    for the appends [l]: each record once, and once more in a row for each
    repetition at most; one that was refused perhaps. *)
Inductive repeated (retries : nat) : list (PenaltyRecordData * bool) -> list PenaltyRecordData -> Prop :=
  | repeated_none : repeated retries [] []
  | repeated_one l rs r (acked : bool) n : repeated retries l rs -> (acked = true -> (1 <= n)%nat) -> (n <= S retries)%nat ->
      repeated retries (l ++ [(r, acked)]) (rs ++ replicate n r).

(** Without repetitions nothing is stored twice. *)
Lemma repeated_once l rs : repeated 0 l rs -> Forall (fun e => e.2 = true) l -> rs = l.*1.
Proof.
  induction 1 as [|l rs r acked n _ IH Hn Hle]; [done|]. intros [Hl [Ha _]%Forall_cons]%Forall_app. cbn in Ha.
  rewrite (IH Hl), fmap_app. assert (n = 1%nat) as -> by (specialize (Hn Ha); lia). done.
Qed.

(** The last append to the provider was acknowledged. *)
Definition settled (l : list (PenaltyRecordData * bool)) (name : string) : bool :=
  match last (filter (fun e => prd_ProviderName e.1 = name) l) with Some e => e.2 | None => true end.

Lemma settled_one l r acked name : settled (l ++ [(r, acked)]) name = settle (prd_ProviderName r) acked (settled l) name.
Proof.
  unfold settled, settle. rewrite filter_app. case_bool_decide as E.
  - by rewrite filter_cons_True, filter_nil, last_snoc.
  - by rewrite filter_cons_False, filter_nil, app_nil_r.
Qed.

Section appended.
Context {W : Type} `{RedisLaws W, Zone, JsonErrors}.
Implicit Types (s : RedisPenaltyStore W).

(** The records of [l] were appended one after the other, each with whether it
    was acknowledged, while other processes let the time of the server pass. *)
Inductive appended : list (PenaltyRecordData * bool) -> RedisPenaltyStore W -> RedisPenaltyStore W -> Prop :=
  | appended_none s : appended [] s s
  | appended_wait l s s' w : appended l s s' -> ran redis_db redis_now keep any (rp_client s') w ->
      appended l s (rp_set_client w s')
  | appended_one l r res s s' s'' : appended l s s' -> rp_Append (Some r) s' = (res, s'') ->
      appended (l ++ [(r, match res with Ok _ => true | Err _ => false end)]) s s''.

Definition penalty_ok (r : PenaltyRecordData) : Prop := prd_ProviderName r <> ""%string /\ penalty_storable r.

(** What holds of the database before an execution, and of what it does to it,
    holds after it, unless it is undone by time. *)
Lemma executed_keep lim f Q (I J : database -> Prop) (a b : database * Time) :
  (forall now m m', expired now m m' -> now < lim -> I m -> I m') ->
  (forall now m m', expired now m m' -> now < lim -> J m -> J m') ->
  executed f Q a b -> b.2 < lim -> (forall t m, a.2 <= t -> I m -> J (f t m)) -> I a.1 -> J b.1.
Proof.
  intros HI HJ (t & m & [Ht1 Ht2] & Hx1 & Hx2 & _) Hn Hf Ha. apply (HJ _ _ _ Hx2 Hn), Hf; [done|]. apply (HI _ _ _ Hx1); [lia|done].
Qed.

Section attempts.
Context (pre : string) (lim start : Time) (config : RedisPenaltyConfig) (tidy : string -> bool)
  (rs : list PenaltyRecordData) (r : PenaltyRecordData).
Context (Hmax : 0 < rpc_MaxEntriesPerProvider config <= max_int64) (Httl : 0 < rpc_TTL config)
  (Hlim : lim <= start + whole Second (rpc_TTL config)).
Let p := prd_ProviderName r.
Let cmds := append_cmds (penalty_key pre p) (penalty_text r) config.
Let told k m := exists n, (n <= k)%nat /\ holds pre lim config (settle p false tidy) (rs ++ replicate n r) m.

Lemma told_expired k now m m' : expired now m m' -> now < lim -> told k m -> told k m'.
Proof. intros Hx Hn (n & Hle & Hm). exists n. split; [done|]. eapply holds_expired; [exact Hx|exact Hn|exact Hm]. Qed.

Lemma attempt_holds k (a b : database * Time) :
  attempt (part_of cmds) a b -> start <= a.2 -> b.2 < lim -> told k a.1 -> told (S k) b.1.
Proof.
  intros (f & Hf & Hx) Ha Hb. apply (executed_keep lim f any (told k) (told (S k))); [apply told_expired..|done|done|].
  intros t m Htm (n & Hn & Hm). destruct Hf as [->|(cmds' & Hsub & ->)]; [exists n; split; [lia|done]|].
  exists (n + pushes cmds')%nat. split; [pose proof (pushes_sublist _ _ Hsub) as Hp; cbn in Hp; lia|].
  rewrite replicate_add, app_assoc. apply (holds_part pre lim config Hmax Httl); [lia| |done].
  intros c' Hc'. eapply sublist_subseteq; [exact Hsub|exact Hc'].
Qed.

Lemma attempts_hold k (a b : database * Time) :
  attempts k (part_of cmds) a b -> start <= a.2 -> b.2 < lim -> holds pre lim config tidy rs a.1 -> told k b.1.
Proof.
  intros (k' & Hk & Hr) Ha Hb Hh. assert (told 0 a.1) as Ht by (exists 0%nat; rewrite app_nil_r; split; [done|by apply holds_loose]).
  enough (told (0 + k') b.1) as (n & Hn & Hm) by (exists n; split; [lia|done]).
  revert Ht. generalize 0%nat. clear Hh Hk. induction Hr as [a|k' a c b Hac Hcb IH]; intros i Ht; [by rewrite Nat.add_0_r|].
  pose proof (attempt_time _ _ _ Hac). pose proof (attempts_time _ _ _ (rtc_nsteps_2 _ _ _ Hcb)).
  replace (i + S k')%nat with (S i + k')%nat by lia. apply IH; [lia|done|]. apply (attempt_holds _ a); [done|done|lia|done].
Qed.

Lemma exec_holds k (a b c : database * Time) :
  attempts k (part_of cmds) a b -> executed (db_pipeline cmds) any b c -> start <= a.2 -> c.2 < lim ->
  holds pre lim config tidy rs a.1 ->
  exists n, (1 <= n <= S k)%nat /\ holds pre lim config (settle p true tidy) (rs ++ replicate n r) c.1.
Proof.
  intros Hr Hx Ha Hc Hh. pose proof (executed_time _ _ _ _ Hx). pose proof (attempts_time _ _ _ (attempts_rtc _ _ _ _ Hr)).
  destruct (attempts_hold k a b Hr Ha ltac:(lia) Hh) as (n & Hle & Hn). exists (n + 1)%nat. split; [lia|].
  refine (executed_keep lim _ _ _ _ _ _ _ _ Hx Hc _ Hn); [intros ????? ; by eapply holds_expired..|].
  intros t m Ht Hm. pose proof (holds_append pre lim config Hmax Httl t _ _ m r ltac:(lia) Hm) as Hm'.
  rewrite replicate_add, app_assoc. intros name. generalize (Hm' name). unfold settle, p. by case_bool_decide.
Qed.
End attempts.

Lemma appended_config l s s' : appended l s s' -> rp_config s' = rp_config s /\ rp_keyPrefix s' = rp_keyPrefix s.
Proof.
  induction 1 as [|l s s' w _ IH _|l r res s s' s'' _ IH Ha]; [done|done|]. revert Ha. unfold rp_Append.
  case_bool_decide; [by intros [= <- <-]|]. destruct (marshal_penalty r); [|by intros [= <- <-]].
  destruct (redis_Exec _ _) as [[]]; by intros [= <- <-].
Qed.

Lemma rp_Append_ok r s : penalty_ok r ->
  rp_Append (Some r) s
  = let '(res, w) := redis_Exec (append_cmds (penalty_key (rp_keyPrefix s) (prd_ProviderName r)) (penalty_text r) (rp_config s)) (rp_client s) in
    (match res with Err e => Err (errWrap "redis penalty store: append pipeline: " e "") | Ok _ => Ok tt end, rp_set_client w s).
Proof.
  intros [Hne Hst]. unfold rp_Append. rewrite bool_decide_eq_false_2 by done. destruct (penalty_roundtrip r Hst) as (b & Hb & _).
  unfold penalty_text. rewrite Hb. unfold penaltyKey, penalty_key. by destruct (redis_Exec _ _) as [[]].
Qed.

Lemma appended_holds l s s' lim :
  appended l s s' ->
  0 < rpc_MaxEntriesPerProvider (rp_config s) <= max_int64 -> 0 < rpc_TTL (rp_config s) -> Forall penalty_ok l.*1 ->
  lim <= redis_now (rp_client s) + whole Second (rpc_TTL (rp_config s)) -> redis_now (rp_client s') < lim ->
  (forall name, redis_db (rp_client s) !! penalty_key (rp_keyPrefix s) name = None) ->
  redis_now (rp_client s) <= redis_now (rp_client s')
  /\ exists rs, repeated redis_retries l rs /\ holds (rp_keyPrefix s) lim (rp_config s) (settled l) rs (redis_db (rp_client s')).
Proof.
  intros Hap Hmax Httl. revert s Hap Hmax Httl.
  induction 1 as [s|l s s' w Hap IH Hr|l r res s s' s'' Hap IH Ha]; intros Hmax Httl Hok Hlim Hnow Hfresh.
  - split; [done|]. exists []. split; [constructor|]. intros name. apply Hfresh.
  - apply (proj1 (ran_executed _ _ _ _ _ _)) in Hr. cbn in *. pose proof (executed_time _ _ _ _ Hr) as Hle. cbn in Hle.
    destruct (IH Hmax Httl Hok Hlim ltac:(lia) Hfresh) as (Hle' & rs & Hrs & Hh). split; [lia|]. exists rs. split; [done|].
    refine (executed_keep lim _ _ _ _ _ _ _ _ Hr Hnow _ Hh); [intros ?????; by eapply holds_expired..|done].
  - rewrite fmap_app in Hok. apply Forall_app in Hok as [Hok [Hr _]%Forall_cons]. destruct (appended_config _ _ _ Hap) as [Hc Hp].
    rewrite rp_Append_ok, Hc, Hp in Ha by done.
    pose proof (Exec_law (append_cmds (penalty_key (rp_keyPrefix s) (prd_ProviderName r)) (penalty_text r) (rp_config s)) (rp_client s')) as He.
    destruct (redis_Exec _ _) as [[[]|e] w]; injection Ha as <- <-; cbn in Hnow |- *.
    + destruct He as (b & Hrb & Hx). pose proof (executed_time _ _ _ _ Hx) as Ht1. pose proof (attempts_time _ _ _ (attempts_rtc _ _ _ _ Hrb)) as Ht2. cbn in Ht1, Ht2.
      destruct (IH Hmax Httl Hok Hlim ltac:(lia) Hfresh) as (Hle & rs & Hrs & Hh). split; [lia|].
      destruct (exec_holds (rp_keyPrefix s) lim _ (rp_config s) (settled l) rs r Hmax Httl Hlim _ _ _ _ Hrb Hx Hle Hnow Hh) as (n & Hn & Hh').
      exists (rs ++ replicate n r). split; [constructor; [done|done || lia|lia]|]. intros name. rewrite settled_one. apply Hh'.
    + pose proof (attempts_time _ _ _ (attempts_rtc _ _ _ _ He)) as Ht1. cbn in Ht1.
      destruct (IH Hmax Httl Hok Hlim ltac:(lia) Hfresh) as (Hle & rs & Hrs & Hh). split; [lia|].
      destruct (attempts_hold (rp_keyPrefix s) lim _ (rp_config s) (settled l) rs r Hmax Httl Hlim _ _ _ He Hle Hnow Hh) as (n & Hn & Hh').
      exists (rs ++ replicate n r). split; [constructor; [done|done || lia|lia]|]. intros name. rewrite settled_one. apply Hh'.
Qed.

Lemma repeated_in k l rs r : repeated k l rs -> r ∈ rs -> r ∈ l.*1.
Proof.
  induction 1 as [|l rs r' acked n _ IH _ _]; [done|]. rewrite fmap_app, !elem_of_app. intros [Hin|Hin]; [by left; apply IH|].
  right. apply elem_of_replicate_inv in Hin as ->. by left.
Qed.

Lemma decode_texts l : Forall penalty_ok l -> decode_penalties (penalty_text <$> l) = l.
Proof.
  induction 1 as [|r l [_ Hst] Hl IH]; [done|]. destruct (penalty_roundtrip r Hst) as (b & Hb & Hu).
  unfold decode_penalties in *. cbn [fmap list_fmap omap list_omap]. unfold penalty_text at 1. rewrite Hb, Hu. f_equal. exact IH.
Qed.

(** What a read of a list finds. *)
Lemma kept_read pre lim config tidy rs m name vs limit :
  0 < rpc_MaxEntriesPerProvider config <= max_int64 -> 0 < limit <= max_int64 ->
  holds pre lim config tidy rs m ->
  match m !! penalty_key pre name with
  | Some {| re_value := RList l |} => vs = list_range (- limit) (-1) l
  | Some _ => False
  | None => vs = []
  end ->
  exists k, (max_entries config <= k)%nat /\ (tidy name = true -> k = max_entries config)
    /\ vs = penalty_text <$> lastn (Z.to_nat limit) (lastn k (of_provider name rs)).
Proof.
  intros Hmax Hlimit Hh. specialize (Hh name). unfold kept in Hh. destruct (of_provider name rs) as [|r l].
  - rewrite Hh. intros ->. by exists (max_entries config).
  - destruct Hh as (k & t & Hk & Ht & -> & _). intros ->. exists k. rewrite list_range_lastn, lastn_fmap by lia. done.
Qed.
End appended.

(** C36: after records were appended to lists that did not exist before, and
    before the time to live of the first append, in the whole seconds Redis is
    given, has passed, [GetRecent] returns the last [limit] of the provider's
    records, oldest first and as they were appended: of the acknowledged ones,
    each once, and once more in a row for every time at most that the client
    repeated its pipeline (go-redis repeats one whose replies it did not get,
    three times by default, and the repeated RPUSH adds the record again; a
    client that does not repeat stores each exactly once), and possibly of those
    whose append reported an error, as often at most; from no more than the configured number of entries when
    the last append to the provider was acknowledged, and otherwise from at
    least that many.  Or Redis did not answer the read, which the code reports
    as an empty list without an error.  The records have a provider name and are
    ones JSON keeps ([penalty_storable]: ASCII strings, a finite amount, a time
    RFC 3339 can write, and metadata that is nil or not empty). *)
Theorem redis_penalty_recent {W} `{RedisLaws W, Zone, JsonErrors} l (s s' s'' : RedisPenaltyStore W) name limit res :
  appended l s s' ->
  0 < rpc_MaxEntriesPerProvider (rp_config s) <= max_int64 -> 0 < rpc_TTL (rp_config s) -> Forall penalty_ok l.*1 ->
  (forall name, redis_db (rp_client s) !! penalty_key (rp_keyPrefix s) name = None) ->
  0 < limit <= max_int64 ->
  rp_GetRecent name limit s' = (res, s'') ->
  redis_now (rp_client s'') < redis_now (rp_client s) + whole Second (rpc_TTL (rp_config s)) ->
  exists rs k, repeated redis_retries l rs /\ (max_entries (rp_config s) <= k)%nat /\ (settled l name = true -> k = max_entries (rp_config s))
    /\ (res = Ok (lastn (Z.to_nat limit) (lastn k (of_provider name rs)))
        \/ res = Ok [] /\ forall vs w, redis_LRange (penaltyKey name s') (- limit) (-1) (rp_client s') <> (ROk vs, w)).
Proof.
  intros Hap Hmax Httl Hok Hfresh Hlimit Hget Hnow. destruct (appended_config _ _ _ Hap) as [_ Hp]. revert Hget. unfold rp_GetRecent.
  rewrite (proj2 (Z.leb_gt limit 0)), wrap64_id by (unfold int64_range, min_int64, max_int64 in *; lia).
  pose proof (LRange_law (penaltyKey name s') (- limit) (-1) (rp_client s')) as Hr.
  pose proof (appended_holds l s s' _ Hap Hmax Httl Hok ltac:(reflexivity)) as Hh.
  destruct (redis_LRange _ _ _ _) as [v w]. intros Hget.
  assert (s'' = rp_set_client w s') as -> by (destruct v as [|vs|]; [|destruct (zlen vs =? 0)|]; by injection Hget).
  cbn in Hnow. destruct Hh as (_ & rs & Hrs & Hh); [destruct v; apply (proj1 (ran_executed _ _ _ _ _ _)), executed_time in Hr; cbn in Hr; lia|done|].
  exists rs. destruct v as [|vs|e]; cbn in Hget;
    [injection Hget as <-; exists (max_entries (rp_config s)); split_and!; try done; by right|..|injection Hget as <-; exists (max_entries (rp_config s)); split_and!; try done; by right].
  destruct Hr as (t & m & [Ht1 Ht2] & Hx & _ & HQ). eapply holds_expired in Hh; [|exact Hx|lia].
  unfold penaltyKey in HQ. rewrite Hp in HQ. destruct (kept_read _ _ _ _ _ _ name vs limit Hmax Hlimit Hh HQ) as (k & Hk & Ht & Hvs).
  exists k. split_and!; try done. left. subst vs. rewrite decode_texts in Hget.
  - destruct (zlen _ =? 0) eqn:E; injection Hget as <-; [|done]. by apply Z.eqb_eq, zlen_nil_inv, fmap_nil_inv in E as ->.
  - unfold lastn, of_provider. apply Forall_drop, Forall_drop, Forall_forall. intros r [_ Hr']%list_elem_of_filter.
    apply (proj1 (Forall_forall _ _) Hok). by eapply repeated_in.
Qed.

Definition demo_penalty_redis : RedisPenaltyStore toy := {|
  rp_client := {| toy_db := ∅; toy_now := 0 |};
  rp_config := redis_penalty_defaults {|
    rpc_Addr := "localhost:6379"; rpc_Password := ""; rpc_DB := 0; rpc_KeyPrefix := ""; rpc_TTL := 0;
    rpc_MaxEntriesPerProvider := 0; rpc_PoolSize := 0; rpc_MinIdleConns := 0 |};
  rp_keyPrefix := defaultRedisPenaltyKeyPrefix |}.

Definition demo_penalty (provider : string) (amount : Z) : PenaltyRecordData := {|
  prd_ProviderName := provider; prd_Category := "error"; prd_Reason := "timeout"; prd_Amount := f64_of_Z amount;
  prd_CreatedAt := 63000000000 * Second; prd_Metadata := None |}.

Definition demo_appends : list (PenaltyRecordData * bool) :=
  [(demo_penalty "tatum" 5, true); (demo_penalty "mempool" 1, true); (demo_penalty "tatum" 7, true)].

Lemma redis_penalty_recent_witness :
  let _ := utc_zone in let _ := plain_json_errors in
  let s1 := (rp_Append (Some (demo_penalty "tatum" 5)) demo_penalty_redis).2 in
  let s2 := (rp_Append (Some (demo_penalty "mempool" 1)) s1).2 in
  let s3 := (rp_Append (Some (demo_penalty "tatum" 7)) s2).2 in
  let res := (rp_GetRecent "tatum" 1 s3).1 in
  res = Ok [demo_penalty "tatum" 7]
  /\ exists rs k, repeated 0 demo_appends rs /\ (500 <= k)%nat /\ (settled demo_appends "tatum" = true -> k = 500%nat)
     /\ (res = Ok (lastn 1 (lastn k (of_provider "tatum" rs)))
         \/ res = Ok [] /\ forall vs w, redis_LRange (penaltyKey "tatum" s3) (-1) (-1) (rp_client s3) <> (ROk vs, w)).
Proof.
  intros Z J s1 s2 s3 res. split; [vm_compute; reflexivity|].
  assert (appended demo_appends demo_penalty_redis s3) as Hap.
  { apply (appended_one [(demo_penalty "tatum" 5, true); (demo_penalty "mempool" 1, true)]%string _ (Ok tt) _ s2).
    - apply (appended_one [(demo_penalty "tatum" 5, true)]%string _ (Ok tt) _ s1).
      + apply (appended_one [] _ (Ok tt) _ demo_penalty_redis); [constructor|]. vm_compute. reflexivity.
      + vm_compute. reflexivity.
    - vm_compute. reflexivity. }
  assert (forall p a, str_all is_ascii p = true -> f64_valid (f64_of_Z a) = true -> json_float_ok (f64_of_Z a) = true ->
    p <> ""%string -> penalty_ok (demo_penalty p a)) as Hok.
  { intros p a Hp Hv Hf Hne. split; [exact Hne|]. split; [|split; [split; assumption|split; [vm_compute; reflexivity|exact I]]].
    repeat constructor. exact Hp. }
  apply (redis_penalty_recent demo_appends demo_penalty_redis s3 (rp_GetRecent "tatum" 1 s3).2 "tatum" 1 res Hap).
  - split; [reflexivity|discriminate].
  - reflexivity.
  - repeat (apply Forall_cons; split; [apply Hok; [reflexivity|vm_compute; reflexivity|vm_compute; reflexivity|discriminate]|]). constructor.
  - intros name. apply lookup_empty.
  - split; [reflexivity|discriminate].
  - symmetry. apply surjective_pairing.
  - vm_compute. reflexivity.
Defined.
