(* ===== verification/Postgres.v ===== *)
(** * The PostgreSQL score store

    [scoring/store/postgres.go]: the scores as rows of a table, upserted one by
    one or in one transaction, and the latency samples as the single row of
    another table.

    The connection pool ([github.com/jackc/pgx]) and the database behind it are
    the parameter [PgPool]: a state [W], and the statements as texts with their
    arguments.  What is known of the statements is in [PgLaws] of
    [PostgresProps]. *)

From S2P Require Import Prelude GoInt GoFloat GoString GoCodec GoNum GoJson GoDecode GoHttp GoTime Store StoreJson Redis.

(** ** The pool *)

(** Values of arguments and columns; JSON is a text. *)
Inductive pg_value :=
  | VText (t : string)
  | VFloat (x : f64)
  | VInt (z : Z)
  | VTime (t : Time)
  | VJson (text : string)
  | VNull.

Record pg_limits := {
  pl_MaxConns : Z;
  pl_MinConns : option Z;
  pl_MaxConnLifetime : option Duration;
  pl_MaxConnIdleTime : option Duration
}.

(** [pg_QueryRow] is the row of [QueryRow(...).Scan], [RNil] for
    [pgx.ErrNoRows]; [pg_Query] gives the rows and what [rows.Err()] returns after
    them.  [pg_Begin], [pg_TxExec], [pg_Commit] and [pg_Rollback] are the calls of
    one transaction. *)
Class PgPool (W : Type) := {
  pg_config : Type;
  pg_ParseConfig : string -> result pg_config;
  pg_NewWithConfig : pg_config -> pg_limits -> result W;
  pg_Ping : W -> result unit * W;
  pg_Close : W -> W;
  pg_Exec : string -> list pg_value -> W -> result unit * W;
  pg_QueryRow : string -> list pg_value -> W -> reply (list pg_value) * W;
  pg_Query : string -> list pg_value -> W -> result (list (list pg_value) * option error) * W;
  pg_Begin : W -> result unit * W;
  pg_TxExec : string -> list pg_value -> W -> result unit * W;
  pg_Commit : W -> result unit * W;
  pg_Rollback : W -> W;
  (** a column that does not fit its variable *)
  pg_scan_error : error
}.

(** What [json.Unmarshal] leaves in a variable when it reports an error. *)
Class JsonPartial := {
  partial_ints : string -> list Z;
  partial_strings : string -> option (gmap string string)
}.

(** ** Statements *)

Definition migrate_sql (tablePrefix : string) : string :=
  ("
		-- Provider scores table
		CREATE TABLE IF NOT EXISTS " +:+ tablePrefix +:+ "provider_scores (
			provider_name       VARCHAR(255) PRIMARY KEY,
			base_score          DOUBLE PRECISION NOT NULL,
			health_penalty      DOUBLE PRECISION NOT NULL DEFAULT 0,
			latency_penalty     DOUBLE PRECISION NOT NULL DEFAULT 0,
			error_penalty       DOUBLE PRECISION NOT NULL DEFAULT 0,
			rate_limit_penalty  DOUBLE PRECISION NOT NULL DEFAULT 0,
			total_operations    BIGINT NOT NULL DEFAULT 0,
			successful_ops      BIGINT NOT NULL DEFAULT 0,
			failed_ops          BIGINT NOT NULL DEFAULT 0,
			last_health_check   TIMESTAMP WITH TIME ZONE,
			last_operation      TIMESTAMP WITH TIME ZONE,
			recent_latencies    JSONB,
			created_at          TIMESTAMP WITH TIME ZONE DEFAULT NOW(),
			updated_at          TIMESTAMP WITH TIME ZONE DEFAULT NOW()
		);

		-- Latency statistics table (singleton-like table)
		CREATE TABLE IF NOT EXISTS " +:+ tablePrefix +:+ "latency_stats (
			id                  INTEGER PRIMARY KEY DEFAULT 1,
			provider_samples    JSONB NOT NULL,
			updated_at          TIMESTAMP WITH TIME ZONE DEFAULT NOW(),
			CONSTRAINT single_row CHECK (id = 1)
		);

		-- Index for querying by update time
		CREATE INDEX IF NOT EXISTS idx_" +:+ tablePrefix +:+ "provider_scores_updated
			ON " +:+ tablePrefix +:+ "provider_scores(updated_at DESC);

		-- Index for querying by base score (for sorted queries)
		CREATE INDEX IF NOT EXISTS idx_" +:+ tablePrefix +:+ "provider_scores_base
			ON " +:+ tablePrefix +:+ "provider_scores(base_score DESC);
	")%string.

Definition select_score_sql (table : string) : string :=
  ("
		SELECT
			provider_name, base_score, health_penalty, latency_penalty,
			error_penalty, rate_limit_penalty, total_operations,
			successful_ops, failed_ops, last_health_check, last_operation,
			recent_latencies, updated_at
		FROM " +:+ table +:+ "
		WHERE provider_name = $1
	")%string.

Definition upsert_score_sql (table : string) : string :=
  ("
		INSERT INTO " +:+ table +:+ " (
			provider_name, base_score, health_penalty, latency_penalty,
			error_penalty, rate_limit_penalty, total_operations,
			successful_ops, failed_ops, last_health_check, last_operation,
			recent_latencies, updated_at
		) VALUES ($1, $2, $3, $4, $5, $6, $7, $8, $9, $10, $11, $12, $13)
		ON CONFLICT (provider_name) DO UPDATE SET
			base_score = EXCLUDED.base_score,
			health_penalty = EXCLUDED.health_penalty,
			latency_penalty = EXCLUDED.latency_penalty,
			error_penalty = EXCLUDED.error_penalty,
			rate_limit_penalty = EXCLUDED.rate_limit_penalty,
			total_operations = EXCLUDED.total_operations,
			successful_ops = EXCLUDED.successful_ops,
			failed_ops = EXCLUDED.failed_ops,
			last_health_check = EXCLUDED.last_health_check,
			last_operation = EXCLUDED.last_operation,
			recent_latencies = EXCLUDED.recent_latencies,
			updated_at = EXCLUDED.updated_at
	")%string.

Definition select_all_sql (table : string) : string :=
  ("
		SELECT
			provider_name, base_score, health_penalty, latency_penalty,
			error_penalty, rate_limit_penalty, total_operations,
			successful_ops, failed_ops, last_health_check, last_operation,
			recent_latencies, updated_at
		FROM " +:+ table +:+ "
		ORDER BY base_score DESC
	")%string.

Definition select_latency_sql (table : string) : string :=
  ("
		SELECT provider_samples, updated_at
		FROM " +:+ table +:+ "
		WHERE id = 1
	")%string.

Definition upsert_latency_sql (table : string) : string :=
  ("
		INSERT INTO " +:+ table +:+ " (id, provider_samples, updated_at)
		VALUES (1, $1, $2)
		ON CONFLICT (id) DO UPDATE SET
			provider_samples = EXCLUDED.provider_samples,
			updated_at = EXCLUDED.updated_at
	")%string.

Definition delete_score_sql (table : string) : string :=
  ("DELETE FROM " +:+ table +:+ " WHERE provider_name = $1")%string.

(** ** The store *)

Record PostgresConfig := {
  pgc_ConnectionString : string;
  pgc_TablePrefix : string;
  pgc_MaxOpenConns : Z;
  pgc_MaxIdleConns : Z;
  pgc_ConnMaxLifetime : Duration
}.

Record PostgresStore (W : Type) := {
  ps_pool : W;
  ps_config : PostgresConfig;
  ps_tablePrefix : string
}.
Arguments ps_pool {_} _.
Arguments ps_config {_} _.
Arguments ps_tablePrefix {_} _.

Definition postgres_defaults (config : PostgresConfig) : PostgresConfig := {|
  pgc_ConnectionString := pgc_ConnectionString config;
  pgc_TablePrefix := if bool_decide (pgc_TablePrefix config = ""%string) then "chainkit_" else pgc_TablePrefix config;
  pgc_MaxOpenConns := if pgc_MaxOpenConns config =? 0 then 25 else pgc_MaxOpenConns config;
  pgc_MaxIdleConns := if pgc_MaxIdleConns config =? 0 then 5 else pgc_MaxIdleConns config;
  pgc_ConnMaxLifetime := if pgc_ConnMaxLifetime config =? 0 then 5 * Minute else pgc_ConnMaxLifetime config |}.

Definition dec_ints : decoder (list Z) := dec_slice 0 (dec_int 64).
Definition dec_samples : decoder (gmap string (list Z)) := dec_map [] dec_ints.

(** [json.Marshal] of a slice and of a map of slices of integers, which never
    fails.  A nil slice, written as [null], is read back as the empty one is. *)
Definition marshal_ints (l : list Z) : string := print_json (JArray (map json_int l)).
Definition marshal_samples (m : gmap string (list Z)) : string := print_json (json_map (fun l => JArray (map json_int l)) m).

(** A time that is zero is NULL. *)
Definition nullable (t : Time) : pg_value := if time_is_zero t then VNull else VTime t.

Section postgres.
Context {W : Type} `{PgPool W, JsonErrors, JsonPartial}.
Implicit Types s : PostgresStore W.

Definition ps_set_pool (w : W) s : PostgresStore W :=
  {| ps_pool := w; ps_config := ps_config s; ps_tablePrefix := ps_tablePrefix s |}.

Definition scoresTable s : string := (ps_tablePrefix s +:+ "provider_scores")%string.
Definition latencyTable s : string := (ps_tablePrefix s +:+ "latency_stats")%string.

Definition migrate s : result unit * PostgresStore W :=
  let '(r, w) := pg_Exec (migrate_sql (ps_tablePrefix s)) [] (ps_pool s) in
  let s := ps_set_pool w s in
  match r with Err e => (Err (errWrap "execute schema: " e ""), s) | Ok _ => (Ok tt, s) end.

(** On an error the pool, if there is one, is closed, and returned for that. *)
Definition NewPostgresStore (config : PostgresConfig) : result (PostgresStore W) * option W :=
  let config := postgres_defaults config in
  match pg_ParseConfig (pgc_ConnectionString config) with
  | Err e => (Err (errWrap "parse connection string: " e ""), None)
  | Ok poolConfig =>
      match pg_NewWithConfig poolConfig {|
        pl_MaxConns := wrap_bits 32 (pgc_MaxOpenConns config);
        pl_MinConns := Some (wrap_bits 32 (pgc_MaxIdleConns config));
        pl_MaxConnLifetime := Some (pgc_ConnMaxLifetime config);
        pl_MaxConnIdleTime := Some (30 * Minute) |} with
      | Err e => (Err (errWrap "create connection pool: " e ""), None)
      | Ok pool =>
          let '(r, pool) := pg_Ping pool in
          match r with
          | Err e => (Err (errWrap "ping postgres: " e ""), Some (pg_Close pool))
          | Ok _ =>
              let store := {| ps_pool := pool; ps_config := config; ps_tablePrefix := pgc_TablePrefix config |} in
              let '(r, store) := migrate store in
              match r with
              | Err e => (Err (errWrap "migration failed: " e ""), Some (pg_Close (ps_pool store)))
              | Ok _ => (Ok store, Some (ps_pool store))
              end
          end
      end
  end.

(** Scanning the thirteen columns of a score. *)
Definition scan_null_time (v : pg_value) : option (option Time) :=
  match v with VTime t => Some (Some t) | VNull => Some None | _ => None end.

Definition scan_json (v : pg_value) : option string :=
  match v with VJson t => Some t | VNull => Some ""%string | _ => None end.

(** The score of a row but for its latencies, and their JSON text. *)
Definition scan_score (row : list pg_value) : result (ProviderScoreData * string) :=
  match row with
  | [VText name; VFloat base; VFloat health; VFloat latency; VFloat err; VFloat rate; VInt total; VInt successful;
     VInt failed; check; operation; latencies; VTime updated] =>
      match scan_null_time check, scan_null_time operation, scan_json latencies with
      | Some check, Some operation, Some latencies => Ok ({|
          psd_Name := name; psd_BaseScore := base; psd_HealthPenalty := health; psd_LatencyPenalty := latency;
          psd_ErrorPenalty := err; psd_RateLimitPenalty := rate; psd_TotalOperations := total;
          psd_SuccessfulOps := successful; psd_FailedOps := failed; psd_LastUpdated := updated;
          psd_LastHealthCheck := default zero_time check; psd_LastOperation := default zero_time operation;
          psd_RecentLatencies := [] |}, latencies)
      | _, _, _ => Err pg_scan_error
      end
  | _ => Err pg_scan_error
  end.

(** The latencies of a row; [bad] is what becomes of a text that is invalid. *)
Definition with_latencies (bad : string -> list Z) (d : ProviderScoreData * string) : ProviderScoreData :=
  let '(data, latenciesJSON) := d in
  if bool_decide (latenciesJSON = ""%string) then data
  else set_psd_RecentLatencies
         (match Unmarshal dec_ints [] latenciesJSON with Ok l => l | Err _ => bad latenciesJSON end) data.

Definition ps_GetScore (providerName : string) s : result (option ProviderScoreData) * PostgresStore W :=
  let '(r, w) := pg_QueryRow (select_score_sql (scoresTable s)) [VText providerName] (ps_pool s) in
  let s := ps_set_pool w s in
  match r with
  | RNil => (Ok None, s)
  | RErr e => (Err (errWrap "query score: " e ""), s)
  | ROk row =>
      match scan_score row with
      | Err e => (Err (errWrap "query score: " e ""), s)
      | Ok d => (Ok (Some (with_latencies (fun _ => []) d)), s)
      end
  end.

(** The arguments of an upsert; [now] stands for [time.Now()]. *)
Definition score_args (now : Time) (d : ProviderScoreData) : list pg_value := [
  VText (psd_Name d); VFloat (psd_BaseScore d); VFloat (psd_HealthPenalty d); VFloat (psd_LatencyPenalty d);
  VFloat (psd_ErrorPenalty d); VFloat (psd_RateLimitPenalty d); VInt (psd_TotalOperations d);
  VInt (psd_SuccessfulOps d); VInt (psd_FailedOps d); nullable (psd_LastHealthCheck d); nullable (psd_LastOperation d);
  VJson (marshal_ints (psd_RecentLatencies d));
  VTime (if time_is_zero (psd_LastUpdated d) then now else psd_LastUpdated d)].

Definition ps_SetScore (clk : clock) (data : option ProviderScoreData) s : result unit * PostgresStore W :=
  match data with
  | None => (Ok tt, s)
  | Some d =>
      if bool_decide (psd_Name d = ""%string) then (Ok tt, s)
      else
        let '(r, w) := pg_Exec (upsert_score_sql (scoresTable s)) (score_args (clk 0%nat) d) (ps_pool s) in
        let s := ps_set_pool w s in
        match r with Err e => (Err (errWrap "upsert score: " e ""), s) | Ok _ => (Ok tt, s) end
  end.

Fixpoint scan_rows (rows : list (list pg_value)) : result (list (option ProviderScoreData)) :=
  match rows with
  | [] => Ok []
  | row :: rows =>
      match scan_score row with
      | Err e => Err (errWrap "scan row: " e "")
      | Ok d =>
          match scan_rows rows with
          | Err e => Err e
          | Ok scores => Ok (Some (with_latencies partial_ints d) :: scores)
          end
      end
  end.

Definition ps_GetAllScores s : result (list (option ProviderScoreData)) * PostgresStore W :=
  let '(r, w) := pg_Query (select_all_sql (scoresTable s)) [] (ps_pool s) in
  let s := ps_set_pool w s in
  match r with
  | Err e => (Err (errWrap "query all scores: " e ""), s)
  | Ok (rows, err) =>
      match scan_rows rows with
      | Err e => (Err e, s)
      | Ok scores =>
          match err with Some e => (Err (errWrap "rows iteration: " e ""), s) | None => (Ok scores, s) end
      end
  end.

Definition ps_DeleteScore (providerName : string) s : result unit * PostgresStore W :=
  let '(r, w) := pg_Exec (delete_score_sql (scoresTable s)) [VText providerName] (ps_pool s) in
  let s := ps_set_pool w s in
  match r with Err e => (Err (errWrap "delete score: " e ""), s) | Ok _ => (Ok tt, s) end.

(** The upserts of a batch, in the transaction. *)
Fixpoint upsert_all (clk : clock) (sql : string) (data : list (option ProviderScoreData)) (w : W) : result unit * W :=
  match data with
  | [] => (Ok tt, w)
  | None :: data => upsert_all clk sql data w
  | Some d :: data =>
      if bool_decide (psd_Name d = ""%string) then upsert_all clk sql data w
      else
        let '(r, w) := pg_TxExec sql (score_args (clk 0%nat) d) w in
        match r with
        | Err e => (Err (errWrap ("upsert score " +:+ psd_Name d +:+ ": ") e ""), w)
        | Ok _ => upsert_all (clk_skip 1 clk) sql data w
        end
  end.

(** The deferred rollback runs on every path after [Begin]. *)
Definition ps_SetScores (clk : clock) (data : list (option ProviderScoreData)) s : result unit * PostgresStore W :=
  if zlen data =? 0 then (Ok tt, s)
  else
    let '(r, w) := pg_Begin (ps_pool s) in
    match r with
    | Err e => (Err (errWrap "begin transaction: " e ""), ps_set_pool w s)
    | Ok _ =>
        let '(r, w) := upsert_all clk (upsert_score_sql (scoresTable s)) data w in
        match r with
        | Err e => (Err e, ps_set_pool (pg_Rollback w) s)
        | Ok _ =>
            let '(r, w) := pg_Commit w in
            let s := ps_set_pool (pg_Rollback w) s in
            match r with Err e => (Err (errWrap "commit transaction: " e ""), s) | Ok _ => (Ok tt, s) end
        end
    end.

Definition ps_GetLatencyStats s : result (option LatencyStatsData) * PostgresStore W :=
  let '(r, w) := pg_QueryRow (select_latency_sql (latencyTable s)) [] (ps_pool s) in
  let s := ps_set_pool w s in
  match r with
  | RNil => (Ok None, s)
  | RErr e => (Err (errWrap "query latency stats: " e ""), s)
  | ROk [VJson samplesJSON; VTime updated] =>
      if bool_decide (samplesJSON = ""%string)
      then (Ok (Some {| lsd_ProviderSamples := ∅; lsd_LastUpdated := updated |}), s)
      else
        match Unmarshal dec_samples ∅ samplesJSON with
        | Err e => (Err (errWrap "unmarshal provider samples: " e ""), s)
        | Ok samples => (Ok (Some {| lsd_ProviderSamples := samples; lsd_LastUpdated := updated |}), s)
        end
  | ROk _ => (Err (errWrap "query latency stats: " pg_scan_error ""), s)
  end.

Definition ps_SetLatencyStats (clk : clock) (data : option LatencyStatsData) s : result unit * PostgresStore W :=
  match data with
  | None => (Ok tt, s)
  | Some d =>
      let updatedAt := if time_is_zero (lsd_LastUpdated d) then clk 0%nat else lsd_LastUpdated d in
      let '(r, w) := pg_Exec (upsert_latency_sql (latencyTable s))
                       [VJson (marshal_samples (lsd_ProviderSamples d)); VTime updatedAt] (ps_pool s) in
      let s := ps_set_pool w s in
      match r with Err e => (Err (errWrap "upsert latency stats: " e ""), s) | Ok _ => (Ok tt, s) end
  end.

Definition ps_Close s : result unit * PostgresStore W := (Ok tt, ps_set_pool (pg_Close (ps_pool s)) s).

Definition ps_Ping s : result unit * PostgresStore W :=
  let '(r, w) := pg_Ping (ps_pool s) in (r, ps_set_pool w s).

#[export] Instance PostgresStore_store : ScoreStore (PostgresStore W) := {|
  GetScore clk n s := Some (ps_GetScore n s);
  SetScore clk d s := Some (ps_SetScore clk d s);
  GetAllScores clk s := Some (ps_GetAllScores s);
  DeleteScore clk n s := Some (ps_DeleteScore n s);
  SetScores clk ds s := Some (ps_SetScores clk ds s);
  store_GetLatencyStats clk s := Some (ps_GetLatencyStats s);
  store_SetLatencyStats clk d s := Some (ps_SetLatencyStats clk d s);
  store_Close s := Some (ps_Close s);
  store_Ping s := Some (ps_Ping s);
  store_Name s := "postgres"%string;
  store_SetRecorder s := s
|}.
End postgres.
