(* ===== verification/PostgresLaws.v ===== *)
(** * What a PostgreSQL database promises

    The tables behind a [PgPool], as the documentation of the statements and of
    the pgx types describes them: an upsert sets the row of a key, a transaction
    takes effect as a whole at its commit or not at all, a statement that
    reported an error outside of a transaction was executed once or not at all,
    a [timestamptz] keeps microseconds, and JSONB keeps the value of a JSON text
    but not its layout. *)

From S2P Require Import Prelude GoInt GoFloat GoString GoCodec GoNum GoJson GoDecode GoHttp GoTime Events Store StoreJson Redis Postgres.

(** ** Stored values *)

#[local] Set Warnings "-register-all".

(** JSONB may reorder the members of objects. *)
Inductive json_perm : json -> json -> Prop :=
  | jp_refl j : json_perm j j
  | jp_array l l' : Forall2 json_perm l l' -> json_perm (JArray l) (JArray l')
  | jp_object l l1 l' : l.*1 = l1.*1 -> Forall2 json_perm l.*2 l1.*2 -> l1 ≡ₚ l' -> json_perm (JObject l) (JObject l').

(** Integers in their only form; other numbers JSONB may write otherwise. *)
Fixpoint int_json (j : json) : bool :=
  match j with
  | JNumber x => match parse_int 64 x with Some z => bool_decide (x = format_int z) | None => false end
  | JArray l => forallb int_json l
  | JObject l => forallb (fun kv => int_json kv.2) l
  | _ => true
  end.

Definition pg_time (t : Time) : Time := t - t mod 1000.

Abbreviation pg_row := (list pg_value).
Abbreviation pg_table := (gmap string pg_row).

(** A database without the transaction that may be open. *)
Record pg_data := {
  (** the rows of a table of scores, by name and without it *)
  pd_scores : string -> pg_table;
  (** the row of a table of samples *)
  pd_latency : string -> option pg_row
}.

Definition set_scores (t : string) (m : pg_table) (d : pg_data) : pg_data := {|
  pd_scores t' := if bool_decide (t' = t) then m else pd_scores d t'; pd_latency := pd_latency d |}.

Definition set_latency (t : string) (r : pg_row) (d : pg_data) : pg_data := {|
  pd_scores := pd_scores d; pd_latency t' := if bool_decide (t' = t) then Some r else pd_latency d t' |}.

(** Databases with the same tables. *)
Definition pg_same (d d' : pg_data) : Prop :=
  (forall t, pd_scores d' t = pd_scores d t) /\ (forall t, pd_latency d' t = pd_latency d t).

Definition upsert (t n : string) (row : pg_row) (d : pg_data) : pg_data := set_scores t (<[n := row]> (pd_scores d t)) d.
Definition remove (t n : string) (d : pg_data) : pg_data := set_scores t (delete n (pd_scores d t)) d.

(** ** The laws *)

Class PgLaws (W : Type) `{PgPool W} := {
  pg_db : W -> pg_data;
  (** the tables as the open transaction sees them *)
  pg_tx : W -> pg_data;
  pg_jsonb : string -> string;
  pg_stored (v : pg_value) : pg_value :=
    match v with VTime t => VTime (pg_time t) | VJson t => VJson (pg_jsonb t) | v => v end;
  Jsonb_law : forall j, plain_json j = true -> json_depth j <= max_depth -> int_json j = true ->
    exists j', parse_json (pg_jsonb (print_json j)) = Some j' /\ json_perm j j';
  Upsert_law : forall t n cols w, cols <> [] ->
    let f := upsert t n (pg_stored <$> cols) in
    match pg_Exec (upsert_score_sql t) (VText n :: cols) w with
    | (Ok _, w') => pg_same (f (pg_db w)) (pg_db w')
    | (Err _, w') => pg_same (pg_db w) (pg_db w') \/ pg_same (f (pg_db w)) (pg_db w')
    end;
  Delete_law : forall t n w,
    match pg_Exec (delete_score_sql t) [VText n] w with
    | (Ok _, w') => pg_same (remove t n (pg_db w)) (pg_db w')
    | (Err _, w') => pg_same (pg_db w) (pg_db w') \/ pg_same (remove t n (pg_db w)) (pg_db w')
    end;
  UpsertLatency_law : forall t samples u w,
    let cols := [VJson samples; VTime u] in
    let f := set_latency t (pg_stored <$> cols) in
    match pg_Exec (upsert_latency_sql t) cols w with
    | (Ok _, w') => pg_same (f (pg_db w)) (pg_db w')
    | (Err _, w') => pg_same (pg_db w) (pg_db w') \/ pg_same (f (pg_db w)) (pg_db w')
    end;
  Select_law : forall t n w,
    let '(r, w') := pg_QueryRow (select_score_sql t) [VText n] w in
    pg_same (pg_db w) (pg_db w')
    /\ match r with
       | ROk row => exists cols, pd_scores (pg_db w) t !! n = Some cols /\ row = VText n :: cols
       | RNil => pd_scores (pg_db w) t !! n = None
       | RErr _ => True
       end;
  SelectAll_law : forall t w,
    let '(r, w') := pg_Query (select_all_sql t) [] w in
    pg_same (pg_db w) (pg_db w')
    /\ match r with
       | Ok (rows, None) => rows ≡ₚ (fun '(n, cols) => VText n :: cols) <$> map_to_list (pd_scores (pg_db w) t)
       | _ => True
       end;
  SelectLatency_law : forall t w,
    let '(r, w') := pg_QueryRow (select_latency_sql t) [] w in
    pg_same (pg_db w) (pg_db w')
    /\ match r with
       | ROk row => pd_latency (pg_db w) t = Some row
       | RNil => pd_latency (pg_db w) t = None
       | RErr _ => True
       end;
  Begin_law : forall w,
    let '(r, w') := pg_Begin w in
    pg_same (pg_db w) (pg_db w') /\ match r with Ok _ => pg_same (pg_db w) (pg_tx w') | Err _ => True end;
  TxUpsert_law : forall t n cols w, cols <> [] ->
    let '(r, w') := pg_TxExec (upsert_score_sql t) (VText n :: cols) w in
    pg_same (pg_db w) (pg_db w')
    /\ match r with Ok _ => pg_same (upsert t n (pg_stored <$> cols) (pg_tx w)) (pg_tx w') | Err _ => True end;
  Commit_law : forall w,
    match pg_Commit w with
    | (Ok _, w') => pg_same (pg_tx w) (pg_db w')
    | (Err _, w') => pg_same (pg_db w) (pg_db w') \/ pg_same (pg_tx w) (pg_db w')
    end;
  Rollback_law : forall w, pg_same (pg_db w) (pg_db (pg_Rollback w));
  PgPing_law : forall w, pg_same (pg_db w) (pg_db (pg_Ping w).2);
  (** creating what exists already changes nothing *)
  Migrate_law : forall tablePrefix w, pg_same (pg_db w) (pg_db (pg_Exec (migrate_sql tablePrefix) [] w).2)
}.

(** A connection that does not lose replies: what reported an error was not
    executed. *)
Class PgAnswers (W : Type) `{PgLaws W} := {
  Exec_answers : forall sql args w e w', pg_Exec sql args w = (Err e, w') -> pg_same (pg_db w) (pg_db w');
  Commit_answers : forall w e w', pg_Commit w = (Err e, w') -> pg_same (pg_db w) (pg_db w')
}.

#[export] Instance pg_same_equivalence : Equivalence pg_same.
Proof.
  split.
  - by split.
  - intros d d' [Hs Hl]. by split.
  - intros d1 d2 d3 [Hs1 Hl1] [Hs2 Hl2]. split; intros t; [by rewrite Hs2|by rewrite Hl2].
Qed.

#[export] Instance upsert_proper t n row : Proper (pg_same ==> pg_same) (upsert t n row).
Proof. intros d d' [Hs Hl]. split; intros t'; cbn; [case_bool_decide; by rewrite Hs|done]. Qed.

(** ** A small database *)

Record pg_toy := { pt_db : pg_data; pt_tx : pg_data }.

(** The text that two texts start with. *)
Fixpoint common (a b : string) : string :=
  match a, b with
  | String c a, String d b => if bool_decide (c = d) then String c (common a b) else ""%string
  | _, _ => ""%string
  end.

(** The table of a statement: what it has between the texts that are in the
    statement for every table. *)
Definition table_of (f : string -> string) (sql : string) : string :=
  String.substring (String.length (common (f "x"%string) (f "y"%string)))
    (String.length sql - String.length (f ""%string))%nat sql.

Definition has_table (f : string -> string) : Prop := exists a b, forall t, f t = (a +:+ t +:+ b)%string.

Lemma table_of_spec f t : has_table f -> table_of f (f t) = t.
Proof.
  intros (a & b & Hf). unfold table_of. rewrite !Hf. assert (forall u v, common (a +:+ "x" +:+ u) (a +:+ "y" +:+ v) = a)%string as ->.
  { clear. intros u v. induction a as [|c a IH]; [done|].
    rewrite 2 (append_cons c). cbn [common]. by rewrite bool_decide_eq_true_2, IH by done. }
  rewrite !length_app_str. cbn [String.length Nat.add].
  replace (String.length a + (String.length t + String.length b) - (String.length a + String.length b))%nat with (String.length t) by lia.
  apply substring_app.
Qed.

Definition toy_stored (v : pg_value) : pg_value :=
  match v with VTime t => VTime (pg_time t) | VJson t => VJson t | v => v end.

(** The statement of [Exec] by its arguments. *)
Definition toy_exec (sql : string) (args : list pg_value) (d : pg_data) : pg_data :=
  match args with
  | [VText n] => remove (table_of delete_score_sql sql) n d
  | VText n :: cols => upsert (table_of upsert_score_sql sql) n (toy_stored <$> cols) d
  | _ :: _ => set_latency (table_of upsert_latency_sql sql) (toy_stored <$> args) d
  | [] => d
  end.

Definition toy_select (d : pg_data) (sql : string) (args : list pg_value) : reply (list pg_value) :=
  match args with
  | [VText n] => match pd_scores d (table_of select_score_sql sql) !! n with Some cols => ROk (VText n :: cols) | None => RNil end
  | _ => match pd_latency d (table_of select_latency_sql sql) with Some row => ROk row | None => RNil end
  end.

#[export] Instance pg_toy_pool : PgPool pg_toy := {|
  pg_config := unit;
  pg_ParseConfig _ := Ok tt;
  pg_NewWithConfig _ _ := Ok {| pt_db := {| pd_scores _ := ∅; pd_latency _ := None |};
                                pt_tx := {| pd_scores _ := ∅; pd_latency _ := None |} |};
  pg_Ping w := (Ok tt, w);
  pg_Close w := w;
  pg_Exec sql args w := (Ok tt, {| pt_db := toy_exec sql args (pt_db w); pt_tx := pt_tx w |});
  pg_QueryRow sql args w := (toy_select (pt_db w) sql args, w);
  pg_Query sql args w :=
    (Ok ((fun '(n, cols) => VText n :: cols) <$> map_to_list (pd_scores (pt_db w) (table_of select_all_sql sql)), None), w);
  pg_Begin w := (Ok tt, {| pt_db := pt_db w; pt_tx := pt_db w |});
  pg_TxExec sql args w := (Ok tt, {| pt_db := pt_db w; pt_tx := toy_exec sql args (pt_tx w) |});
  pg_Commit w := (Ok tt, {| pt_db := pt_tx w; pt_tx := pt_tx w |});
  pg_Rollback w := w;
  pg_scan_error := errOther "cannot scan"
|}.

Ltac statement := apply table_of_spec; do 2 eexists; intros; reflexivity.

Lemma toy_tables t :
  table_of upsert_score_sql (upsert_score_sql t) = t /\ table_of delete_score_sql (delete_score_sql t) = t
  /\ table_of upsert_latency_sql (upsert_latency_sql t) = t /\ table_of select_score_sql (select_score_sql t) = t
  /\ table_of select_latency_sql (select_latency_sql t) = t /\ table_of select_all_sql (select_all_sql t) = t.
Proof. split_and!; statement. Qed.

#[export] Program Instance pg_toy_laws : PgLaws pg_toy := {|
  pg_db := pt_db;
  pg_tx := pt_tx;
  pg_jsonb t := t
|}.
Next Obligation. intros j Hp Hd _. exists j. split; [by apply parse_print|constructor]. Qed.
Next Obligation.
  intros t n [|v cols] w Hc; [done|]. cbn -[upsert_score_sql]. by rewrite (proj1 (toy_tables t)).
Qed.
Next Obligation. intros t n w. cbn -[delete_score_sql]. by rewrite (proj1 (proj2 (toy_tables t))). Qed.
Next Obligation.
  intros t samples u w. cbn -[upsert_latency_sql]. by rewrite (proj1 (proj2 (proj2 (toy_tables t)))).
Qed.
Next Obligation.
  intros t n w. cbn -[select_score_sql]. destruct (toy_tables t) as (_ & _ & _ & -> & _). split; [done|].
  destruct (pd_scores _ _ !! n) eqn:E; [by eexists|done].
Qed.
Next Obligation. intros t w. cbn -[select_all_sql]. destruct (toy_tables t) as (_ & _ & _ & _ & _ & ->). done. Qed.
Next Obligation.
  intros t w. cbn -[select_latency_sql]. destruct (toy_tables t) as (_ & _ & _ & _ & -> & _). split; [done|].
  by destruct (pd_latency _ _).
Qed.
Next Obligation. by intros w. Qed.
Next Obligation.
  intros t n [|v cols] w Hc; [done|]. cbn -[upsert_score_sql]. by rewrite (proj1 (toy_tables t)).
Qed.
Next Obligation. by intros w. Qed.
Next Obligation. by intros w. Qed.
Next Obligation. by intros w. Qed.
Next Obligation. by intros p w. Qed.

#[export] Instance pg_toy_answers : PgAnswers pg_toy.
Proof. split; by intros. Qed.
