(* ===== verification/PostgresProps.v ===== *)
(** * The PostgreSQL score store is a lawful score store

    For scores whose times are whole microseconds, [PostgresStore] satisfies
    [ScoreStoreLaws]: its contents are the rows of its table.  A batch is written
    in one transaction: as a whole or not at all ([postgres_refines_map]). *)

From S2P Require Import Prelude GoInt GoFloat GoString GoCodec GoNum GoJson GoDecode GoHttp GoTime Store StoreJson Hybrid.
From S2P Require Import Redis Postgres PostgresLaws.

(** ** JSON through JSONB *)

Lemma int_json_int z : int64_range z -> int_json (json_int z) = true.
Proof.
  intros Hz. cbn [int_json json_int]. assert (parse_int 64 (format_int z) = Some z) as ->.
  { unfold parse_int. rewrite parse_format_int by done. cbn [mbind option_bind]. change (2 ^ (64 - 1)) with (2 ^ 63).
    unfold int64_range, min_int64, max_int64 in Hz. by rewrite (proj2 (Z.leb_le _ _)), (proj2 (Z.ltb_lt _ _)) by lia. }
  by apply bool_decide_eq_true_2.
Qed.

Lemma int_json_ints l : Forall int64_range l -> int_json (JArray (map json_int l)) = true.
Proof.
  intros Hl. cbn [int_json]. induction Hl as [|z l Hz Hl IH]; [done|]. cbn [map forallb].
  by rewrite int_json_int, IH by done.
Qed.

Lemma json_perm_int z j : json_perm (json_int z) j -> j = json_int z.
Proof. by inversion 1. Qed.

Lemma json_perm_ints l j : json_perm (JArray (map json_int l)) j -> j = JArray (map json_int l).
Proof.
  inversion 1 as [|l0 l' Hf| ]; subst; [done|]. f_equal. clear H. revert l' Hf.
  induction l as [|z l IH]; intros l'; cbn [map].
  - by intros ->%Forall2_nil_inv_l.
  - intros (j & l1 & Hj%json_perm_int & Hl%IH & ->)%Forall2_cons_inv_l. by subst.
Qed.

(** The members of a map of slices come back permuted. *)
Lemma json_perm_samples (m : gmap string (list Z)) j :
  json_perm (json_map (fun l => JArray (map json_int l)) m) j ->
  exists l, l ≡ₚ map_to_list m /\ j = JObject ((fun '(k, a) => (k, JArray (map json_int a))) <$> l).
Proof.
  unfold json_map. set (sm := sorted_members m). assert (sm ≡ₚ map_to_list m) as Hsm by apply sorted_members_perm.
  inversion 1 as [| |l0 l1 l' Hk Hv Hp]; subst; [by exists sm|].
  assert (l1 = (fun '(k, a) => (k, JArray (map json_int a))) <$> sm) as ->.
  { clear - Hk Hv. revert l1 Hk Hv. induction sm as [|[k a] sm IH]; intros [|[k' j'] l1] Hk Hv; cbn in *; try done.
    injection Hk as <- Hk. apply Forall2_cons_1 in Hv as [Hj%json_perm_ints Hv]. subst. f_equal. by apply IH. }
  symmetry in Hp. apply Permutation_map_inv in Hp as (l & -> & Hl). exists l. split; [|done]. by rewrite <-Hl.
Qed.

Section props.
Context {W : Type} `{PgLaws W, JsonErrors, JsonPartial}.
Implicit Types s : PostgresStore W.

Lemma stored_ints l : Forall int64_range l -> Unmarshal dec_ints [] (pg_jsonb (marshal_ints l)) = Ok l.
Proof.
  intros Hl. destruct (plain_ints l) as [Hp Hd].
  destruct (Jsonb_law (JArray (map json_int l)) Hp ltac:(rewrite Hd; unfold max_depth; lia) (int_json_ints l Hl))
    as (j & Hj & ->%json_perm_ints).
  unfold Unmarshal, marshal_ints. rewrite Hj. unfold dec_ints. by rewrite json_ints_back.
Qed.

Definition samples_ok (m : gmap string (list Z)) : Prop :=
  map_Forall (fun k l => str_all is_ascii k = true /\ Forall int64_range l) m.

Lemma stored_samples m : samples_ok m -> Unmarshal dec_samples ∅ (pg_jsonb (marshal_samples m)) = Ok m.
Proof.
  intros Hm. destruct (plain_members (fun l => JArray (map json_int l)) m 1) as [Hp Hd]; [done| |].
  { intros k l Hk. apply Hm in Hk as [Hk _]. destruct (plain_ints l) as [-> ->]. by split_and!. }
  assert (int_json (json_map (fun l => JArray (map json_int l)) m) = true) as Hi.
  { unfold json_map. cbn [int_json]. apply forallb_all. rewrite Forall_fmap. rewrite sorted_members_perm.
    apply Forall_forall. intros [k l] Hk%elem_of_map_to_list. cbn. apply Hm in Hk as [_ Hl]. by apply int_json_ints. }
  destruct (Jsonb_law _ Hp ltac:(unfold max_depth; lia) Hi) as (j & Hj & (l & Hl & ->)%json_perm_samples).
  unfold Unmarshal, marshal_samples. rewrite Hj. unfold dec_samples. 
  rewrite (dec_members_back (fun l => JArray (map json_int l)) [] dec_ints m l); [done| |done].
  intros k a Hk. unfold dec_ints. apply json_ints_back. by apply Hm in Hk as [_ ?].
Qed.

(** ** The contents of the tables *)

(** The score of a row, if all of it can be read. *)
Definition row_score (n : string) (cols : pg_row) : option ProviderScoreData :=
  match scan_score (VText n :: cols) with
  | Ok (d, text) =>
      match Unmarshal dec_ints [] text with
      | Ok l => Some (set_psd_RecentLatencies l d)
      | Err _ => None
      end
  | Err _ => None
  end.

Definition row_latency (row : pg_row) : option LatencyStatsData :=
  match row with
  | [VJson text; VTime t] =>
      match Unmarshal dec_samples ∅ text with
      | Ok m => Some {| lsd_ProviderSamples := m; lsd_LastUpdated := t |}
      | Err _ => None
      end
  | _ => None
  end.

Lemma Unmarshal_empty {A} (d : decoder A) zero : exists e, Unmarshal d zero ""%string = Err e.
Proof. by eexists. Qed.

Lemma row_score_latencies n cols d bad :
  row_score n cols = Some d ->
  exists r, scan_score (VText n :: cols) = Ok r /\ with_latencies bad r = d.
Proof.
  unfold row_score. destruct (scan_score _) as [[d' text]|]; [|done]. intros Hd. exists (d', text). split; [done|].
  unfold with_latencies. destruct (Unmarshal dec_ints [] text) as [l|] eqn:E; [|done]. injection Hd as <-.
  case_bool_decide; [|done]. subst. by destruct (Unmarshal_empty dec_ints []) as [e He]; rewrite He in E.
Qed.

Definition scores_view (m : pg_table) : score_map := map_imap row_score m.

Record tables_ok (m : pg_table) (lat : option pg_row) : Prop := {
  rows_ok : map_Forall (fun n cols => n <> ""%string /\ is_Some (row_score n cols)) m;
  latency_ok : forall row, lat = Some row -> is_Some (row_latency row)
}.

Definition ps_scores s : pg_table := pd_scores (pg_db (ps_pool s)) (scoresTable s).
Definition ps_latency s : option pg_row := pd_latency (pg_db (ps_pool s)) (latencyTable s).

Definition ps_inv s : Prop := tables_ok (ps_scores s) (ps_latency s).
Definition ps_view s : score_map := scores_view (ps_scores s).
Definition ps_lat s : option LatencyStatsData := ps_latency s ≫= row_latency.

Definition ps_after (v : score_map) (l : option LatencyStatsData) s' : Prop :=
  ps_inv s' /\ ps_view s' = v /\ ps_lat s' = l.

(** Times of whole microseconds, and a time of the last update. *)
Definition pg_storable (d : ProviderScoreData) : Prop :=
  psd_LastUpdated d <> zero_time /\ Forall (fun t => pg_time t = t) (score_times d)
  /\ Forall int64_range (psd_RecentLatencies d).

Definition pg_lat_storable (d : LatencyStatsData) : Prop :=
  lsd_LastUpdated d <> zero_time /\ pg_time (lsd_LastUpdated d) = lsd_LastUpdated d /\ samples_ok (lsd_ProviderSamples d).

Lemma scan_nullable t : pg_time t = t -> scan_null_time (pg_stored (nullable t)) = Some (if time_is_zero t then None else Some t).
Proof. intros Ht. unfold nullable. destruct (time_is_zero t); [done|]. cbn. by rewrite Ht. Qed.

Lemma default_nullable t : default zero_time (if time_is_zero t then None else Some t) = t.
Proof. unfold time_is_zero. destruct (t =? 0) eqn:E; [|done]. apply Z.eqb_eq in E. by subst. Qed.

(** What an upsert stores is the score. *)
Lemma stored_score now d :
  pg_storable d -> exists cols, score_args now d = VText (psd_Name d) :: cols /\ cols <> []
    /\ row_score (psd_Name d) (pg_stored <$> cols) = Some d.
Proof.
  intros (Hu & Ht & Hl). unfold score_times in Ht.
  apply Forall_cons in Ht as [Ht1 [Ht2 [Ht3 _]%Forall_cons]%Forall_cons].
  eexists. split; [reflexivity|]. split; [done|].
  assert (time_is_zero (psd_LastUpdated d) = false) as -> by (by apply Z.eqb_neq).
  unfold row_score. cbn [fmap list_fmap scan_score].
  change (pg_stored (VFloat ?x)) with (VFloat x). change (pg_stored (VInt ?x)) with (VInt x).
  change (pg_stored (VTime ?x)) with (VTime (pg_time x)). change (pg_stored (VJson ?x)) with (VJson (pg_jsonb x)).
  rewrite !scan_nullable by done. cbn [scan_json]. rewrite !default_nullable, stored_ints, Ht1 by done. by destruct d.
Qed.

Lemma view_insert n cols d m : row_score n cols = Some d -> scores_view (<[n := cols]> m) = <[n := d]> (scores_view m).
Proof.
  intros Hd. apply map_eq. intros n'. unfold scores_view. rewrite map_lookup_imap.
  destruct (decide (n' = n)) as [->|Hne]; [by rewrite !lookup_insert_eq|].
  by rewrite !lookup_insert_ne, map_lookup_imap by done.
Qed.

Lemma view_delete n m : scores_view (delete n m) = delete n (scores_view m).
Proof.
  apply map_eq. intros n'. unfold scores_view. rewrite map_lookup_imap.
  destruct (decide (n' = n)) as [->|Hne]; [by rewrite !lookup_delete_eq|].
  by rewrite !lookup_delete_ne, map_lookup_imap by done.
Qed.

Lemma row_name n cols d : row_score n cols = Some d -> psd_Name d = n.
Proof.
  unfold row_score. destruct (scan_score (VText n :: cols)) as [[d' text]|] eqn:E; [|done].
  destruct (Unmarshal _ _ _); [|done]. intros [= <-]. revert E. cbn [scan_score].
  repeat match goal with |- context [match ?x with _ => _ end] => destruct x; try done end. by intros [= <- <-].
Qed.
(** ** The operations *)

(** The tables of the store in a database. *)
Definition db_after (s : PostgresStore W) (d : pg_data) (v : score_map) (l : option LatencyStatsData) : Prop :=
  tables_ok (pd_scores d (scoresTable s)) (pd_latency d (latencyTable s))
  /\ scores_view (pd_scores d (scoresTable s)) = v /\ pd_latency d (latencyTable s) ≫= row_latency = l.

#[local] Instance db_after_proper s : Proper (pg_same ==> eq ==> eq ==> iff) (db_after s).
Proof. intros d d' [Hs Hl] v _ <- l _ <-. unfold db_after. by rewrite Hs, Hl. Qed.

Lemma db_after_self s : ps_inv s -> db_after s (pg_db (ps_pool s)) (ps_view s) (ps_lat s).
Proof. by split. Qed.

Lemma same_after s w : ps_inv s -> pg_same (pg_db (ps_pool s)) (pg_db w) -> ps_after (ps_view s) (ps_lat s) (ps_set_pool w s).
Proof. intros Hi Hs. change (db_after s (pg_db w) (ps_view s) (ps_lat s)). rewrite <-Hs. by apply db_after_self. Qed.

Lemma db_after_upsert s n cols d db v l :
  n <> ""%string -> row_score n cols = Some d -> db_after s db v l ->
  db_after s (upsert (scoresTable s) n cols db) (<[n := d]> v) l.
Proof.
  intros Hn Hd ([Hr Hl] & <- & <-). unfold db_after, upsert. cbn. rewrite bool_decide_eq_true_2 by done.
  split_and!; [split|by apply view_insert|done]; [|done]. apply map_Forall_insert_2; [|done]. by rewrite Hd.
Qed.

Lemma db_after_remove s n db v l :
  db_after s db v l -> db_after s (remove (scoresTable s) n db) (delete n v) l.
Proof.
  intros ([Hr Hl] & <- & <-). unfold db_after, remove. cbn. rewrite bool_decide_eq_true_2 by done.
  split_and!; [split|by apply view_delete|done]; [|done]. by apply map_Forall_delete.
Qed.

Lemma db_after_latency s row d db v l :
  row_latency row = Some d -> db_after s db v l -> db_after s (set_latency (latencyTable s) row db) v (Some d).
Proof.
  intros Hd ([Hr Hl] & <- & <-). unfold db_after, set_latency. cbn. rewrite bool_decide_eq_true_2 by done.
  split_and!; [split; [done|]|done|exact Hd]. intros row' [= <-]. by rewrite Hd.
Qed.

Lemma ps_GetScore_law n s : ps_inv s ->
  let '(r, s') := ps_GetScore n s in
  ps_after (ps_view s) (ps_lat s) s' /\ match r with Ok o => o = ps_view s !! n | Err _ => True end.
Proof.
  intros Hi. unfold ps_GetScore. pose proof (Select_law (scoresTable s) n (ps_pool s)) as Hq.
  destruct (pg_QueryRow _ _ _) as [[|row|e] w]; destruct Hq as [Hs Hr]; apply (same_after s w Hi) in Hs.
  - split; [done|]. unfold ps_view, scores_view, ps_scores. by rewrite map_lookup_imap, Hr.
  - destruct Hr as (cols & Hc & ->). destruct (rows_ok _ _ Hi n cols Hc) as [_ [d Hd]].
    destruct (row_score_latencies n cols d (fun _ => []) Hd) as (r & Hscan & Hw).
    rewrite Hscan, Hw. split; [done|]. unfold ps_view, scores_view, ps_scores. by rewrite map_lookup_imap, Hc.
  - by split.
Qed.

Lemma ps_GetLatencyStats_law s : ps_inv s ->
  let '(r, s') := ps_GetLatencyStats s in
  ps_after (ps_view s) (ps_lat s) s' /\ match r with Ok o => o = ps_lat s | Err _ => True end.
Proof.
  intros Hi. unfold ps_GetLatencyStats. pose proof (SelectLatency_law (latencyTable s) (ps_pool s)) as Hq.
  destruct (pg_QueryRow _ _ _) as [[|row|e] w]; destruct Hq as [Hs Hr]; apply (same_after s w Hi) in Hs.
  - split; [done|]. unfold ps_lat, ps_latency. by rewrite Hr.
  - destruct (latency_ok _ _ Hi row Hr) as [d Hd].
    assert (ps_lat s = Some d) as Hlat by (unfold ps_lat, ps_latency; rewrite Hr; exact Hd). rewrite Hlat in *.
    revert Hd. unfold row_latency. repeat match goal with |- context [match ?x with _ => _ end] => is_var x; destruct x; try done end.
    destruct (Unmarshal dec_samples ∅ text) as [m|] eqn:E; [|done]. intros [= <-].
    case_bool_decide as Ht; [|done]. subst. by destruct (Unmarshal_empty dec_samples ∅) as [e He]; rewrite He in E.
  - by split.
Qed.

Lemma scan_rows_ok (m : pg_table) rows :
  tables_ok m None -> rows ≡ₚ (fun '(n, cols) => VText n :: cols) <$> map_to_list m ->
  exists scores, scan_rows rows = Ok scores /\ all_scores_of scores (scores_view m).
Proof.
  intros [Hr _] (l & -> & Hl)%Permutation_map_inv.
  assert (Forall (fun kv => is_Some (row_score kv.1 kv.2)) l) as Hf.
  { rewrite <-Hl. apply Forall_forall. intros [n cols] Hk%elem_of_map_to_list. by apply Hr in Hk as [_ ?]. }
  exists ((fun kv => row_score kv.1 kv.2) <$> l). split.
  - clear Hl. induction Hf as [|[n cols] l [d Hd] Hf IH]; [done|]. cbn [List.map fmap list_fmap scan_rows fst snd] in *.
    destruct (row_score_latencies n cols d partial_ints Hd) as (r & -> & Hw). rewrite IH, Hw. by rewrite Hd.
  - intros o. rewrite list_elem_of_fmap. setoid_rewrite list_elem_of_fmap. split.
    + intros ([n cols] & -> & Hin). rewrite <-Hl in Hin. apply elem_of_map_to_list in Hin.
      destruct (Hr n cols Hin) as [_ [d Hd]]. cbn. exists d. split; [done|].
      apply list_elem_of_fmap. exists (n, d). split; [done|]. apply elem_of_map_to_list. unfold scores_view.
      by rewrite map_lookup_imap, Hin.
    + intros (d & -> & ([n d'] & -> & Hk%elem_of_map_to_list)%list_elem_of_fmap). unfold scores_view in Hk.
      rewrite map_lookup_imap in Hk. apply bind_some in Hk as (cols & Hc & Hd). exists (n, cols). split; [cbn; by rewrite Hd|].
      rewrite <-Hl. by apply elem_of_map_to_list.
Qed.

Lemma ps_GetAllScores_law s : ps_inv s ->
  let '(r, s') := ps_GetAllScores s in
  ps_after (ps_view s) (ps_lat s) s' /\ match r with Ok l => all_scores_of l (ps_view s) | Err _ => True end.
Proof.
  intros Hi. unfold ps_GetAllScores. pose proof (SelectAll_law (scoresTable s) (ps_pool s)) as Hq.
  destruct (pg_Query _ _ _) as [[[rows err]|e] w]; destruct Hq as [Hs Hr]; apply (same_after s w Hi) in Hs; [|by split].
  destruct err as [e|].
  - by destruct (scan_rows rows).
  - destruct (scan_rows_ok (ps_scores s) rows) as (scores & -> & Hall); [|done|by split].
    split; [apply Hi|done].
Qed.
(** *** Writes *)

(** A write did what it should, or reported an error and did it or nothing. *)
Definition wrote (v v' : score_map) (l l' : option LatencyStatsData) (o : result unit * PostgresStore W) : Prop :=
  match o with
  | (Ok _, s') => ps_after v' l' s'
  | (Err _, s') => ps_after v l s' \/ ps_after v' l' s'
  end.

Lemma ps_SetScore_law clk d s : ps_inv s -> psd_Name d <> ""%string -> pg_storable d ->
  wrote (ps_view s) (<[psd_Name d := d]> (ps_view s)) (ps_lat s) (ps_lat s) (ps_SetScore clk (Some d) s).
Proof.
  intros Hi Hn Hd. unfold ps_SetScore. rewrite bool_decide_eq_false_2 by done.
  destruct (stored_score (clk 0%nat) d Hd) as (cols & -> & Hc & Hrow).
  pose proof (Upsert_law (scoresTable s) (psd_Name d) cols (ps_pool s) Hc) as Hu.
  assert (forall w, pg_same (upsert (scoresTable s) (psd_Name d) (pg_stored <$> cols) (pg_db (ps_pool s))) (pg_db w) ->
    ps_after (<[psd_Name d := d]> (ps_view s)) (ps_lat s) (ps_set_pool w s)) as Hw.
  { intros w Hs. change (db_after s (pg_db w) (<[psd_Name d := d]> (ps_view s)) (ps_lat s)). rewrite <-Hs.
    apply db_after_upsert; [done|done|]. by apply db_after_self. }
  destruct (pg_Exec _ _ _) as [[[]|e] w]; cbn; [by apply Hw|].
  destruct Hu as [Hu|Hu]; [left; by apply same_after|right; by apply Hw].
Qed.

Lemma ps_DeleteScore_law n s : ps_inv s ->
  wrote (ps_view s) (delete n (ps_view s)) (ps_lat s) (ps_lat s) (ps_DeleteScore n s).
Proof.
  intros Hi. unfold ps_DeleteScore. pose proof (Delete_law (scoresTable s) n (ps_pool s)) as Hu.
  assert (forall w, pg_same (remove (scoresTable s) n (pg_db (ps_pool s))) (pg_db w) ->
    ps_after (delete n (ps_view s)) (ps_lat s) (ps_set_pool w s)) as Hw.
  { intros w Hs. change (db_after s (pg_db w) (delete n (ps_view s)) (ps_lat s)). rewrite <-Hs.
    apply db_after_remove. by apply db_after_self. }
  destruct (pg_Exec _ _ _) as [[[]|e] w]; cbn; [by apply Hw|].
  destruct Hu as [Hu|Hu]; [left; by apply same_after|right; by apply Hw].
Qed.

Lemma ps_SetLatencyStats_law clk d s : ps_inv s -> pg_lat_storable d ->
  wrote (ps_view s) (ps_view s) (ps_lat s) (Some d) (ps_SetLatencyStats clk (Some d) s).
Proof.
  intros Hi (Hu & Ht & Hm). unfold ps_SetLatencyStats.
  assert (time_is_zero (lsd_LastUpdated d) = false) as -> by (by apply Z.eqb_neq).
  pose proof (UpsertLatency_law (latencyTable s) (marshal_samples (lsd_ProviderSamples d)) (lsd_LastUpdated d) (ps_pool s)) as Hl.
  set (cols := [VJson _; VTime _]) in *. cbv zeta in Hl. assert (row_latency (pg_stored <$> cols) = Some d) as Hrow.
  { subst cols. cbn [fmap list_fmap]. change (pg_stored (VJson ?x)) with (VJson (pg_jsonb x)).
    change (pg_stored (VTime ?x)) with (VTime (pg_time x)). unfold row_latency. rewrite stored_samples, Ht by done. by destruct d. }
  assert (forall w, pg_same (set_latency (latencyTable s) (pg_stored <$> cols) (pg_db (ps_pool s))) (pg_db w) ->
    ps_after (ps_view s) (Some d) (ps_set_pool w s)) as Hw.
  { intros w Hs. change (db_after s (pg_db w) (ps_view s) (Some d)). rewrite <-Hs.
    eapply db_after_latency; [done|]. by apply db_after_self. }
  destruct (pg_Exec _ _ _) as [[[]|e] w]; cbn; [by apply Hw|].
  destruct Hl as [Hl|Hl]; [left; by apply same_after|right; by apply Hw].
Qed.

(** The upserts of a batch are seen by the transaction alone. *)
Lemma upsert_all_law ds clk s w v l :
  valid_batch ds -> batch_of pg_storable ds -> db_after s (pg_tx w) v l ->
  let '(r, w') := upsert_all clk (upsert_score_sql (scoresTable s)) ds w in
  pg_same (pg_db w) (pg_db w')
  /\ match r with Ok _ => db_after s (pg_tx w') (foldl set_one v ds) l | Err _ => True end.
Proof.
  intros Hv. revert clk w v. induction Hv as [|o ds (d & -> & Hn) Hv IH]; intros clk w v Hs Htx; [by split|].
  apply Forall_cons in Hs as [Hd Hs]. cbn [upsert_all]. rewrite bool_decide_eq_false_2 by done.
  destruct (stored_score (clk 0%nat) d Hd) as (cols & -> & Hc & Hrow).
  pose proof (TxUpsert_law (scoresTable s) (psd_Name d) cols w Hc) as Hu.
  destruct (pg_TxExec _ _ _) as [[[]|e] w1]; destruct Hu as [Hsame Hu]; [|by split].
  specialize (IH (clk_skip 1 clk) w1 (<[psd_Name d := d]> v) Hs). destruct (upsert_all _ _ _ _) as [r w2].
  destruct IH as [Hsame' Hr]; [|split; [by rewrite Hsame|done]]. rewrite <-Hu. by apply db_after_upsert.
Qed.

Lemma ps_SetScores_law clk ds s : ps_inv s -> valid_batch ds -> batch_of pg_storable ds ->
  wrote (ps_view s) (foldl set_one (ps_view s) ds) (ps_lat s) (ps_lat s) (ps_SetScores clk ds s).
Proof.
  intros Hi Hv Hs. unfold ps_SetScores. destruct (zlen ds =? 0) eqn:E.
  { apply Z.eqb_eq, zlen_nil_inv in E as ->. by split. }
  pose proof (Begin_law (ps_pool s)) as Hb. destruct (pg_Begin (ps_pool s)) as [[[]|e] w1]; destruct Hb as [Hb Htx];
    [|left; by apply same_after].
  pose proof (upsert_all_law ds clk s w1 (ps_view s) (ps_lat s) Hv Hs) as Hu.
  destruct (upsert_all _ _ _ _) as [[[]|e] w2].
  - destruct Hu as [Hsame Hdone]; [rewrite <-Htx; by apply db_after_self|].
    pose proof (Commit_law w2) as Hc. destruct (pg_Commit w2) as [[[]|e] w3]; cbn.
    + change (db_after s (pg_db (pg_Rollback w3)) (foldl set_one (ps_view s) ds) (ps_lat s)).
      by rewrite <-Rollback_law, <-Hc.
    + destruct Hc as [Hc|Hc]; [left; apply same_after; [done|]; by rewrite <-Rollback_law, <-Hc, <-Hsame|right].
      change (db_after s (pg_db (pg_Rollback w3)) (foldl set_one (ps_view s) ds) (ps_lat s)).
      by rewrite <-Rollback_law, <-Hc.
  - left. apply same_after; [done|]. rewrite <-Rollback_law. destruct Hu as [Hsame _]; [rewrite <-Htx; by apply db_after_self|].
    by rewrite <-Hsame.
Qed.

Lemma wrote_outcome v v' l l' o :
  wrote v v' l l' o -> outcome (Some o) (fun _ => ps_after v' l') (fun s' => ps_after v l s' \/ ps_after v' l' s').
Proof. by destruct o as [[] s']. Qed.

#[export] Program Instance PostgresStore_laws : ScoreStoreLaws (PostgresStore W) := {|
  st_inv := ps_inv;
  st_view := ps_view;
  st_lat := ps_lat;
  st_storable := pg_storable;
  st_lat_storable := pg_lat_storable
|}.
Next Obligation.
  intros s [Hr _] n d Hd. unfold ps_view, scores_view in Hd. rewrite map_lookup_imap in Hd.
  apply bind_some in Hd as (cols & Hc & Hd). split; [by apply row_name in Hd|by apply Hr in Hc as [? _]].
Qed.
Next Obligation. intros clk n s Hi. pose proof (ps_GetScore_law n s Hi) as Hg. cbn. by destruct (ps_GetScore n s) as [[] s'], Hg. Qed.
Next Obligation.
  intros clk d s Hi Hn Hs. eapply outcome_mono; [by apply wrote_outcome, ps_SetScore_law|done|].
  intros s' [(? & ? & ?)|(? & ? & ?)]; auto.
Qed.
Next Obligation.
  intros clk ds s Hi Hv Hs. eapply outcome_mono; [by apply wrote_outcome, ps_SetScores_law|done|].
  intros s' [(? & ? & ?)|(? & ? & ?)]; split_and!; try done.
  - exists []. split; [apply sublist_nil_l|done].
  - by exists ds.
Qed.
Next Obligation. intros clk s Hi. pose proof (ps_GetAllScores_law s Hi) as Hg. cbn. by destruct (ps_GetAllScores s) as [[] s'], Hg. Qed.
Next Obligation.
  intros clk n s Hi. eapply outcome_mono; [by apply wrote_outcome, ps_DeleteScore_law|done|].
  intros s' [(? & ? & ?)|(? & ? & ?)]; auto.
Qed.
Next Obligation. intros clk s Hi. pose proof (ps_GetLatencyStats_law s Hi) as Hg. cbn. by destruct (ps_GetLatencyStats s) as [[] s'], Hg. Qed.
Next Obligation.
  intros clk d s Hi Hs. eapply outcome_mono; [by apply wrote_outcome, ps_SetLatencyStats_law|done|].
  intros s' [(? & ? & ?)|(? & ? & ?)]; auto.
Qed.

(** *** Without lost replies *)

Context `{!PgAnswers W}.

Lemma exec_idle sql args s f :
  ps_inv s ->
  let '(r, w) := pg_Exec sql args (ps_pool s) in
  outcome (Some (match r with Err e => (Err (f e), ps_set_pool w s) | Ok _ => (Ok tt, ps_set_pool w s) end))
    (fun _ _ => True) (ps_after (ps_view s) (ps_lat s)).
Proof.
  intros Hi. destruct (pg_Exec sql args (ps_pool s)) as [[[]|e] w] eqn:E; [done|].
  apply same_after; [done|]. by eapply Exec_answers.
Qed.

#[export] Instance PostgresStore_idle : FailedCallsIdle (PostgresStore W).
Proof.
  split.
  - intros clk d s Hi Hn _. cbn. unfold ps_SetScore. rewrite bool_decide_eq_false_2 by done.
    pose proof (exec_idle (upsert_score_sql (scoresTable s)) (score_args (clk 0%nat) d) s (fun e => e) Hi) as He.
    destruct (pg_Exec _ _ _) as [[[]|e] w]; [done|]. apply He.
  - intros clk ds s Hi Hv Hs. cbn. unfold ps_SetScores. destruct (zlen ds =? 0); [done|].
    pose proof (Begin_law (ps_pool s)) as Hb. destruct (pg_Begin (ps_pool s)) as [[[]|e] w1]; destruct Hb as [Hb Htx];
      [|by apply same_after].
    pose proof (upsert_all_law ds clk s w1 (ps_view s) (ps_lat s) Hv Hs) as Hu.
    destruct (upsert_all _ _ _ _) as [r w2]. destruct Hu as [Hsame _]; [rewrite <-Htx; by apply db_after_self|].
    assert (ps_after (ps_view s) (ps_lat s) (ps_set_pool (pg_Rollback w2) s)) as Hroll.
    { apply same_after; [done|]. by rewrite <-Rollback_law, <-Hsame. }
    destruct r as [[]|e]; [|apply Hroll]. destruct (pg_Commit w2) as [[[]|e] w3] eqn:Ec; [done|].
    apply Commit_answers in Ec. apply same_after; [done|]. by rewrite <-Rollback_law, <-Ec, <-Hsame.
  - intros clk n s Hi. cbn. unfold ps_DeleteScore.
    pose proof (exec_idle (delete_score_sql (scoresTable s)) [VText n] s (fun e => e) Hi) as He.
    destruct (pg_Exec _ _ _) as [[[]|e] w]; [done|]. apply He.
  - intros clk d s Hi _. cbn. unfold ps_SetLatencyStats. set (args := [_; _]).
    pose proof (exec_idle (upsert_latency_sql (latencyTable s)) args s (fun e => e) Hi) as He.
    destruct (pg_Exec _ _ _) as [[[]|e] w]; [done|]. apply He.
Qed.
End props.

(** ** Sequences of calls *)

(** A failed call did all it should or nothing. *)
Definition all_or_nothing (c : store_cmd) (m m' : score_map) : Prop := m' = m \/ m' = spec_cmd c m.

Lemma run_cmd_atomic {W} `{PgLaws W, JsonErrors, JsonPartial} clk c (s : PostgresStore W) :
  ps_inv s -> cmd_valid pg_storable c ->
  outcome (run_cmd clk c s) (fun _ _ => True) (fun s' => all_or_nothing c (ps_view s) (ps_view s')).
Proof.
  intros Hi Hv.
  assert (forall (o : result unit * PostgresStore W) v' l', wrote (ps_view s) v' (ps_lat s) l' o ->
    outcome ('(r, s') ← Some o; Some (match r with Ok _ => Ok RetNone | Err e => Err e end, s')) (fun _ _ => True)
      (fun s' => ps_view s' = ps_view s \/ ps_view s' = v')) as Hw.
  { intros [[u|e] s'] v' l' Ho; [done|]. destruct Ho as [(_ & ? & _)|(_ & ? & _)]; cbn; auto. }
  destruct c as [n|d|ds|n|]; cbn in Hv.
  - cbn. pose proof (ps_GetScore_law n s Hi) as Hg. destruct (ps_GetScore n s) as [[r|e] s']; [done|].
    destruct Hg as [(_ & ? & _) _]. by left.
  - eapply Hw, ps_SetScore_law; [done|apply Hv|apply Hv].
  - eapply Hw, ps_SetScores_law; [done|apply Hv|apply Hv].
  - by eapply Hw, ps_DeleteScore_law.
  - cbn. pose proof (ps_GetAllScores_law s Hi) as Hg. destruct (ps_GetAllScores s) as [[r|e] s']; [done|].
    destruct Hg as [(_ & ? & _) _]. by left.
Qed.

(** C8: over any database that keeps the promises of its statements, a store
    that [NewPostgresStore] opened on tables it can read behaves like one map for
    every sequence of the five score calls, for scores whose times are whole
    microseconds, the last of them not zero: no call panics, each read that returns no error returns what the last writes
    left, and a call that failed, a batch of any size included, had all of its
    effect or none of it, whatever statement of it failed. *)
Theorem postgres_refines_map {W} `{PgLaws W, JsonErrors, JsonPartial} config (s : PostgresStore W) w l :
  NewPostgresStore config = (Ok s, Some w) ->
  (let tablePrefix := pgc_TablePrefix (postgres_defaults config) in
   tables_ok (pd_scores (pg_db w) (tablePrefix +:+ "provider_scores")%string)
     (pd_latency (pg_db w) (tablePrefix +:+ "latency_stats")%string)) ->
  Forall (fun q => cmd_valid pg_storable q.2) l ->
  exists rs s', run_cmds l s = Some (rs, s') /\ trace_of all_or_nothing (ps_view s) l rs.
Proof.
  unfold NewPostgresStore, migrate. intros Hnew Hok Hl. assert (ps_inv s) as Hi.
  { destruct (pg_ParseConfig _) as [cfg|]; [|done]. destruct (pg_NewWithConfig _ _) as [pool|]; [|done].
    destruct (pg_Ping pool) as [[[]|] p1]; [|done]. destruct (pg_Exec _ _ _) as [[[]|] p2]; [|done].
    by injection Hnew as <- <-. }
  refine (run_cmds_trace (S := PostgresStore W) all_or_nothing l s _ Hi Hl).
  intros clk c s0 Hi0 Hv. by apply run_cmd_atomic.
Qed.

Definition demo_partial : JsonPartial := {| partial_ints _ := []; partial_strings _ := None |}.

Definition demo_postgres_config : PostgresConfig := {|
  pgc_ConnectionString := "postgres://localhost/chainkit"; pgc_TablePrefix := ""; pgc_MaxOpenConns := 0;
  pgc_MaxIdleConns := 0; pgc_ConnMaxLifetime := 0 |}.

Definition demo_pg : pg_toy :=
  {| pt_db := {| pd_scores _ := ∅; pd_latency _ := None |}; pt_tx := {| pd_scores _ := ∅; pd_latency _ := None |} |}.

Definition demo_postgres : PostgresStore pg_toy := {|
  ps_pool := demo_pg; ps_config := postgres_defaults demo_postgres_config; ps_tablePrefix := "chainkit_" |}.

Definition demo_pg_score (name : string) (ops : Z) : ProviderScoreData :=
  set_psd_LastUpdated (63000000000 * Second) (demo_score name ops).

Definition demo_pg_cmds : list (clock * store_cmd) := [
  (demo_clk, CmdSetMany [Some (demo_pg_score "mempool" 1); Some (demo_pg_score "tatum" 2)]);
  (demo_clk, CmdGet "tatum"); (demo_clk, CmdGetAll); (demo_clk, CmdDelete "tatum"); (demo_clk, CmdGet "tatum")]%string.

Lemma demo_pg_storable name ops : pg_storable (demo_pg_score name ops).
Proof. split_and!; [discriminate|repeat constructor|constructor]. Qed.

Lemma postgres_refines_map_witness :
  let _ := plain_json_errors in let _ := demo_partial in
  (exists w, NewPostgresStore demo_postgres_config = (Ok demo_postgres, Some w))
  /\ exists rs s', run_cmds demo_pg_cmds demo_postgres = Some (rs, s')
       /\ trace_of all_or_nothing (ps_view demo_postgres) demo_pg_cmds rs.
Proof.
  intros J P. split; [by eexists|].
  apply (postgres_refines_map demo_postgres_config demo_postgres demo_pg); [reflexivity| |].
  - split; [exact (map_Forall_empty _)|discriminate].
  - repeat (apply Forall_cons; split; [|]); try constructor; try done.
    + repeat (apply Forall_cons; split); [by eexists..|constructor].
    + repeat (apply Forall_cons; split); [apply demo_pg_storable..|constructor].
Defined.

(** The same run, evaluated. *)
Example demo_postgres_run :
  let _ := plain_json_errors in let _ := demo_partial in
  fst <$> run_cmds demo_pg_cmds demo_postgres
  = Some [Ok RetNone; Ok (RetScore (Some (demo_pg_score "tatum" 2)));
          Ok (RetAll [Some (demo_pg_score "mempool" 1); Some (demo_pg_score "tatum" 2)]); Ok RetNone; Ok (RetScore None)]%string.
Proof. vm_compute. reflexivity. Qed.

(** A time between two microseconds is not kept. *)
Example postgres_truncates :
  let _ := plain_json_errors in let _ := demo_partial in
  let d := set_psd_LastUpdated (63000000000 * Second + 1500) (demo_score "tatum" 1) in
  (fst <$> run_cmds [(demo_clk, CmdSet d); (demo_clk, CmdGet "tatum"%string)] demo_postgres)
  = Some [Ok RetNone; Ok (RetScore (Some (set_psd_LastUpdated (63000000000 * Second + 1000) d)))].
Proof. vm_compute. reflexivity. Qed.
