(* ===== verification/PostgresPenalty.v ===== *)
(** * The PostgreSQL penalty history

    [scoring/store/postgres_penalty.go]: penalty records as rows of a table that
    only grows, until old ones are purged.  [GetRecent] returns the most recent
    records of a provider, oldest first, in the form the database stores
    ([postgres_penalty_recent]). *)

From S2P Require Import Prelude GoInt GoFloat GoString GoCodec GoJson GoDecode GoHttp GoTime Store StoreJson Hybrid.
From S2P Require Import Redis RedisPenalty Postgres PostgresLaws PostgresProps.

(** ** Statements *)

Definition penalty_schema_sql (table indexName : string) : string :=
  ("
		CREATE TABLE IF NOT EXISTS " +:+ table +:+ " (
			id            BIGSERIAL    PRIMARY KEY,
			provider_name VARCHAR(255) NOT NULL,
			category      VARCHAR(50)  NOT NULL,
			reason        TEXT         NOT NULL,
			amount        DOUBLE PRECISION NOT NULL,
			created_at    TIMESTAMPTZ  NOT NULL DEFAULT NOW()
		);
		CREATE INDEX IF NOT EXISTS " +:+ indexName +:+ " ON " +:+ table +:+ " (provider_name, created_at DESC);
		ALTER TABLE " +:+ table +:+ " ADD COLUMN IF NOT EXISTS metadata TEXT;
	")%string.

Definition insert_penalty_sql (table : string) : string :=
  ("
		INSERT INTO " +:+ table +:+ " (provider_name, category, reason, amount, created_at, metadata)
		VALUES ($1, $2, $3, $4, $5, $6)
	")%string.

Definition select_recent_sql (table : string) : string :=
  ("
		SELECT provider_name, category, reason, amount, created_at, metadata
		FROM " +:+ table +:+ "
		WHERE provider_name = $1
		ORDER BY created_at DESC
		LIMIT $2
	")%string.

Definition purge_sql (table : string) : string :=
  ("
		DELETE FROM " +:+ table +:+ " WHERE created_at < $1
	")%string.

Record PostgresPenaltyConfig := {
  ppc_ConnectionString : string;
  ppc_TablePrefix : string;
  ppc_MaxOpenConns : Z;
  ppc_MaxIdleConns : Z;
  ppc_ConnMaxLifetime : Duration
}.

Record PostgresPenaltyStore (W : Type) := {
  pp_pool : W;
  pp_tablePrefix : string
}.
Arguments pp_pool {_} _.
Arguments pp_tablePrefix {_} _.

Definition postgres_penalty_defaults (config : PostgresPenaltyConfig) : PostgresPenaltyConfig := {|
  ppc_ConnectionString := ppc_ConnectionString config;
  ppc_TablePrefix := if bool_decide (ppc_TablePrefix config = ""%string) then "chainkit_" else ppc_TablePrefix config;
  ppc_MaxOpenConns := if ppc_MaxOpenConns config =? 0 then 10 else ppc_MaxOpenConns config;
  ppc_MaxIdleConns := ppc_MaxIdleConns config;
  ppc_ConnMaxLifetime := if ppc_ConnMaxLifetime config =? 0 then 5 * Minute else ppc_ConnMaxLifetime config |}.

(** The loop that reverses a slice in place; an index out of range panics. *)
Fixpoint swap_loop {A} (fuel : nat) (i j : Z) (buf : list A) : go (list A) :=
  match fuel with
  | O => Some buf
  | S fuel =>
      if i <? j then
        x ← buf !! Z.to_nat i; y ← buf !! Z.to_nat j;
        swap_loop fuel (i + 1) (j - 1) (<[Z.to_nat j := x]> (<[Z.to_nat i := y]> buf))
      else Some buf
  end.

Definition reverse_in_place {A} (buf : list A) : go (list A) := swap_loop (length buf) 0 (zlen buf - 1) buf.

Section postgres_penalty.
Context {W : Type} `{PgPool W, JsonErrors, JsonPartial}.
Implicit Types s : PostgresPenaltyStore W.

Definition pp_set_pool (w : W) s : PostgresPenaltyStore W := {| pp_pool := w; pp_tablePrefix := pp_tablePrefix s |}.

Definition tableName s : string := (pp_tablePrefix s +:+ "penalty_history")%string.

Definition pp_init s : result unit * PostgresPenaltyStore W :=
  let table := tableName s in
  let indexName := ("idx_" +:+ table +:+ "_provider_time")%string in
  let '(r, w) := pg_Exec (penalty_schema_sql table indexName) [] (pp_pool s) in (r, pp_set_pool w s).

Definition NewPostgresPenaltyStore (config : PostgresPenaltyConfig) : result (PostgresPenaltyStore W) * option W :=
  let config := postgres_penalty_defaults config in
  match pg_ParseConfig (ppc_ConnectionString config) with
  | Err e => (Err (errWrap "postgres penalty store: parse config: " e ""), None)
  | Ok poolCfg =>
      match pg_NewWithConfig poolCfg {|
        pl_MaxConns := wrap_bits 32 (ppc_MaxOpenConns config);
        pl_MinConns := None;
        pl_MaxConnLifetime := if 0 <? ppc_ConnMaxLifetime config then Some (ppc_ConnMaxLifetime config) else None;
        pl_MaxConnIdleTime := None |} with
      | Err e => (Err (errWrap "postgres penalty store: create pool: " e ""), None)
      | Ok pool =>
          let '(r, pool) := pg_Ping pool in
          match r with
          | Err e => (Err (errWrap "postgres penalty store: ping: " e ""), Some (pg_Close pool))
          | Ok _ =>
              let '(r, s) := pp_init {| pp_pool := pool; pp_tablePrefix := ppc_TablePrefix config |} in
              match r with
              | Err e => (Err (errWrap "postgres penalty store: init schema: " e ""), Some (pg_Close (pp_pool s)))
              | Ok _ => (Ok s, Some (pp_pool s))
              end
          end
      end
  end.

Definition marshal_metadata (m : gmap string string) : string := print_json (json_map JString m).

(** A nil map and an empty one are NULL. *)
Definition metadata_value (m : option (gmap string string)) : pg_value :=
  match m with
  | Some m => if bool_decide (m = ∅) then VNull else VText (marshal_metadata m)
  | None => VNull
  end.

Definition penalty_args (now : Time) (r : PenaltyRecordData) : list pg_value := [
  VText (prd_ProviderName r); VText (prd_Category r); VText (prd_Reason r); VFloat (prd_Amount r);
  VTime (if time_is_zero (prd_CreatedAt r) then now else prd_CreatedAt r); metadata_value (prd_Metadata r)].

Definition pp_Append (clk : clock) (record : option PenaltyRecordData) s : result unit * PostgresPenaltyStore W :=
  match record with
  | None => (Ok tt, s)
  | Some r =>
      if bool_decide (prd_ProviderName r = ""%string) then (Ok tt, s)
      else
        let '(res, w) := pg_Exec (insert_penalty_sql (tableName s)) (penalty_args (clk 0%nat) r) (pp_pool s) in
        let s := pp_set_pool w s in
        match res with Err e => (Err (errWrap "postgres penalty store: insert: " e ""), s) | Ok _ => (Ok tt, s) end
  end.

Definition dec_metadata : decoder (option (gmap string string)) := dec_ptr ∅ (dec_map ""%string dec_string).

Definition scan_penalty (row : list pg_value) : option PenaltyRecordData :=
  match row with
  | [VText name; VText category; VText reason; VFloat amount; VTime created; metadata] =>
      let r m := {| prd_ProviderName := name; prd_Category := category; prd_Reason := reason; prd_Amount := amount;
                    prd_CreatedAt := created; prd_Metadata := m |} in
      match metadata with
      | VNull => Some (r None)
      | VText text =>
          if bool_decide (text = ""%string) then Some (r None)
          else Some (r (match Unmarshal dec_metadata None text with Ok m => m | Err _ => partial_strings text end))
      | _ => None
      end
  | _ => None
  end.

Fixpoint scan_penalties (rows : list (list pg_value)) : result (list PenaltyRecordData) :=
  match rows with
  | [] => Ok []
  | row :: rows =>
      match scan_penalty row with
      | None => Err (errWrap "postgres penalty store: scan: " pg_scan_error "")
      | Some r => match scan_penalties rows with Ok buf => Ok (r :: buf) | Err e => Err e end
      end
  end.

Definition pp_GetRecent (providerName : string) (limit : Z) s
    : go (result (list PenaltyRecordData) * PostgresPenaltyStore W) :=
  if limit <=? 0 then Some (Ok [], s)
  else
    let '(r, w) := pg_Query (select_recent_sql (tableName s)) [VText providerName; VInt limit] (pp_pool s) in
    let s := pp_set_pool w s in
    match r with
    | Err e => Some (Err (errWrap "postgres penalty store: query: " e ""), s)
    | Ok (rows, err) =>
        match scan_penalties rows with
        | Err e => Some (Err e, s)
        | Ok buf =>
            match err with
            | Some e => Some (Err (errWrap "postgres penalty store: rows: " e ""), s)
            | None => buf ← reverse_in_place buf; Some (Ok buf, s)
            end
        end
    end.

Definition pp_PurgeOld (clk : clock) (retentionWindow : Duration) s : result unit * PostgresPenaltyStore W :=
  let cutoff := time_add (clk 0%nat) (wrap64 (- retentionWindow)) in
  let '(r, w) := pg_Exec (purge_sql (tableName s)) [VTime cutoff] (pp_pool s) in
  let s := pp_set_pool w s in
  match r with Err e => (Err (errWrap "postgres penalty store: purge: " e ""), s) | Ok _ => (Ok tt, s) end.

Definition pp_Ping s : result unit * PostgresPenaltyStore W :=
  let '(r, w) := pg_Ping (pp_pool s) in (r, pp_set_pool w s).

Definition pp_Close s : result unit * PostgresPenaltyStore W := (Ok tt, pp_set_pool (pg_Close (pp_pool s)) s).
End postgres_penalty.

(** ** The reversal *)

Lemma swap_loop_spec {A} fuel i j (buf : list A) :
  0 <= i -> i + j = zlen buf - 1 -> j - i < Z.of_nat fuel -> exists buf',
    swap_loop fuel i j buf = Some buf' /\ length buf' = length buf
    /\ forall k, buf' !! k = if bool_decide (i <= Z.of_nat k <= j) then buf !! (length buf - 1 - k)%nat else buf !! k.
Proof.
  unfold zlen. revert i j buf. induction fuel as [|fuel IH]; intros i j buf Hi Hs Hf; cbn [swap_loop].
  { exists buf. split_and!; [done|done|]. intros k. rewrite bool_decide_eq_false_2; [done|lia]. }
  destruct (i <? j) eqn:E; go_bool.
  2: { exists buf. split_and!; [done|done|]. intros k. case_bool_decide; [f_equal; lia|done]. }
  destruct (lookup_lt_is_Some_2 buf (Z.to_nat i) ltac:(lia)) as [x Hx].
  destruct (lookup_lt_is_Some_2 buf (Z.to_nat j) ltac:(lia)) as [y Hy]. rewrite Hx, Hy. cbn [mbind option_bind].
  destruct (IH (i + 1) (j - 1) (<[Z.to_nat j := x]> (<[Z.to_nat i := y]> buf))) as (buf' & -> & Hl & Hk);
    rewrite ?length_insert; [lia..|].
  rewrite !length_insert in Hl, Hk. exists buf'. split_and!; [done|done|]. intros k. rewrite Hk.
  destruct (decide (k = Z.to_nat i)) as [->|Hki]; [|destruct (decide (k = Z.to_nat j)) as [->|Hkj]].
  - rewrite bool_decide_eq_false_2, bool_decide_eq_true_2 by lia.
    rewrite list_lookup_insert_ne, list_lookup_insert_eq by lia. rewrite <-Hy. f_equal. lia.
  - rewrite bool_decide_eq_false_2, bool_decide_eq_true_2 by lia.
    rewrite list_lookup_insert_eq by (rewrite length_insert; lia). rewrite <-Hx. f_equal. lia.
  - repeat case_bool_decide; try lia; rewrite !list_lookup_insert_ne by lia; done.
Qed.

Lemma reverse_in_place_spec {A} (buf : list A) : reverse_in_place buf = Some (reverse buf).
Proof.
  unfold reverse_in_place. destruct (swap_loop_spec (length buf) 0 (zlen buf - 1) buf) as (buf' & -> & Hl & Hk);
    [lia|lia|unfold zlen; lia|].
  f_equal. apply list_eq. intros k. rewrite Hk. destruct (decide (k < length buf)%nat) as [Hlt|Hge].
  - rewrite bool_decide_eq_true_2 by (unfold zlen; lia). rewrite reverse_lookup by done. f_equal. lia.
  - rewrite bool_decide_eq_false_2 by (unfold zlen; lia). rewrite !lookup_ge_None_2 by (rewrite ?length_reverse; lia). done.
Qed.

(** ** What the database promises of the statements *)

Definition row_created (row : pg_row) : Time := match row with [_; _; _; _; VTime t; _] => t | _ => zero_time end.
Definition row_provider (row : pg_row) : option string := match row with VText n :: _ => Some n | _ => None end.

(** A row as the table keeps it: times have microseconds. *)
Definition kept_row (cols : pg_row) : pg_row := (fun v => match v with VTime t => VTime (pg_time t) | v => v end) <$> cols.

(** [pen_rows]: the rows of a penalty table in the order of their insertion.  A
    statement that reports an error may have taken effect all the same, when it
    is the answer that was lost. *)
Class PgPenaltyLaws (W : Type) `{PgPool W} := {
  pen_rows : W -> string -> list pg_row;
  Insert_law : forall t cols w, length cols = 6%nat ->
    let '(r, w') := pg_Exec (insert_penalty_sql t) cols w in
    let inserted := pen_rows w' t = pen_rows w t ++ [kept_row cols] in
    match r with Ok _ => inserted | Err _ => inserted \/ pen_rows w' t = pen_rows w t end;
  (** the rows of the provider by decreasing time of creation, cut at the limit *)
  Recent_law : forall t n limit w, 0 < limit ->
    let '(r, w') := pg_Query (select_recent_sql t) [VText n; VInt limit] w in
    pen_rows w' t = pen_rows w t
    /\ match r with
       | Ok (rows, None) => exists l, rows = take (Z.to_nat limit) l
           /\ l ≡ₚ filter (fun row => row_provider row = Some n) (pen_rows w t)
           /\ StronglySorted (fun a b => row_created b <= row_created a) l
       | _ => True
       end;
  Purge_law : forall t cutoff w,
    let '(r, w') := pg_Exec (purge_sql t) [VTime cutoff] w in
    let purged := pen_rows w' t = filter (fun row => pg_time cutoff <= row_created row) (pen_rows w t) in
    match r with Ok _ => purged | Err _ => purged \/ pen_rows w' t = pen_rows w t end
}.

Section props.
Context {W : Type} `{PgPenaltyLaws W, JsonErrors, JsonPartial}.
Implicit Types s : PostgresPenaltyStore W.

(** Metadata whose JSON text gives back the same strings. *)
Definition ascii_metadata (r : PenaltyRecordData) : Prop :=
  match prd_Metadata r with
  | Some m => map_Forall (fun k v => str_all is_ascii k = true /\ str_all is_ascii v = true) m
  | None => True
  end.

(** A record as the table keeps it: the time of the append when it has none, in
    microseconds; no metadata when they are empty. *)
Definition stored (now : Time) (r : PenaltyRecordData) : PenaltyRecordData := {|
  prd_ProviderName := prd_ProviderName r; prd_Category := prd_Category r; prd_Reason := prd_Reason r;
  prd_Amount := prd_Amount r;
  prd_CreatedAt := pg_time (if time_is_zero (prd_CreatedAt r) then now else prd_CreatedAt r);
  prd_Metadata := match prd_Metadata r with
                  | Some m => if bool_decide (m = ∅) then None else Some m
                  | None => None
                  end |}.

Definition stored_ok (r : PenaltyRecordData) : Prop := ascii_metadata r /\ prd_Metadata r <> Some ∅.

Lemma stored_stored_ok now r : ascii_metadata r -> stored_ok (stored now r).
Proof.
  unfold stored_ok, ascii_metadata. cbn. destruct (prd_Metadata r) as [m|]; [|done]. intros Hm.
  case_bool_decide; [done|]. split; [done|congruence].
Qed.

Definition penalty_row (r : PenaltyRecordData) : pg_row := [
  VText (prd_ProviderName r); VText (prd_Category r); VText (prd_Reason r); VFloat (prd_Amount r);
  VTime (prd_CreatedAt r); metadata_value (prd_Metadata r)].

Lemma metadata_back m : m <> ∅ -> map_Forall (fun k v => str_all is_ascii k = true /\ str_all is_ascii v = true) m ->
  marshal_metadata m <> ""%string /\ Unmarshal dec_metadata None (marshal_metadata m) = Ok (Some m).
Proof.
  intros Hne Hm. destruct (plain_members JString m 0) as [Hp Hd]; [done| |].
  { intros k v Hk. apply Hm in Hk as [-> Hv]. by split_and!. }
  split; [by intros Heq; unfold marshal_metadata, json_map in Heq|].
  apply Unmarshal_print; [done|unfold max_depth; lia|]. unfold dec_metadata.
  apply json_ptr_back; [done|]. by apply (json_map_back JString).
Qed.

Lemma scan_penalty_row r : stored_ok r -> scan_penalty (penalty_row r) = Some r.
Proof.
  intros [Hm Hne]. unfold ascii_metadata in Hm. unfold penalty_row, metadata_value.
  destruct (prd_Metadata r) as [m|] eqn:Em.
  - assert (m <> ∅) as Hm0 by congruence. rewrite bool_decide_eq_false_2 by done.
    destruct (metadata_back m Hm0 Hm) as [Ht Hu].
    cbn [scan_penalty]. rewrite bool_decide_eq_false_2, Hu by done. rewrite <-Em. by destruct r.
  - cbn [scan_penalty]. rewrite <-Em. by destruct r.
Qed.

Lemma scan_penalty_rows l : Forall stored_ok l -> scan_penalties (penalty_row <$> l) = Ok l.
Proof.
  induction 1 as [|r l Hr Hl IH]; [done|]. cbn [fmap list_fmap scan_penalties]. rewrite scan_penalty_row by done.
  by rewrite IH.
Qed.

Lemma stored_row now r : kept_row (penalty_args now r) = penalty_row (stored now r).
Proof.
  unfold kept_row, penalty_args, penalty_row, stored. cbn [fmap list_fmap prd_CreatedAt prd_Metadata prd_ProviderName prd_Category prd_Reason prd_Amount].
  repeat f_equal. unfold metadata_value. destruct (prd_Metadata r) as [m|]; [|done]. case_bool_decide; [done|].
  by rewrite bool_decide_eq_false_2.
Qed.

Lemma filter_fmap_iff {A B} (P : B -> Prop) (Q : A -> Prop) `{!forall b, Decision (P b), !forall a, Decision (Q a)} (f : A -> B) (l : list A) :
  (forall a, P (f a) <-> Q a) -> filter P (f <$> l) = f <$> filter Q l.
Proof.
  intros HPQ. induction l as [|a l IH]; [done|]. cbn [fmap list_fmap]. destruct (decide (Q a)) as [Ha|Ha].
  - rewrite !filter_cons_True by (done || by apply HPQ). cbn. by rewrite IH.
  - rewrite !filter_cons_False by (done || by intros ?%HPQ). exact IH.
Qed.

(** ** Sequences of calls *)

Inductive pen_op :=
  | PenAppend (clk : clock) (record : option PenaltyRecordData)
  | PenPurge (clk : clock) (window : Duration)
  | PenRead (name : string) (limit : Z).

Definition pen_op_ok (o : pen_op) : Prop :=
  match o with PenAppend _ (Some r) => ascii_metadata r | _ => True end.

Definition acked {A} (r : result A) : bool := match r with Ok _ => true | Err _ => false end.

(** A call, and whether it reported no error. *)
Definition pen_step (o : pen_op) s : go (bool * PostgresPenaltyStore W) :=
  match o with
  | PenAppend clk record => let '(r, s) := pp_Append clk record s in Some (acked r, s)
  | PenPurge clk window => let '(r, s) := pp_PurgeOld clk window s in Some (acked r, s)
  | PenRead name limit => '(r, s) ← pp_GetRecent name limit s; Some (acked r, s)
  end.

Fixpoint pen_run (ops : list pen_op) s : go (list (pen_op * bool) * PostgresPenaltyStore W) :=
  match ops with
  | [] => Some ([], s)
  | o :: ops => '(b, s) ← pen_step o s; '(l, s) ← pen_run ops s; Some ((o, b) :: l, s)
  end.

(** What a call does to the records kept, by whether it was acknowledged: one
    that reported an error may have taken effect. *)
Definition pen_effect (o : pen_op) (ack : bool) (rs rs' : list PenaltyRecordData) : Prop :=
  let done rs1 := rs' = rs1 \/ (ack = false /\ rs' = rs) in
  match o with
  | PenAppend clk (Some r) => if bool_decide (prd_ProviderName r = ""%string) then rs' = rs else done (rs ++ [stored (clk 0%nat) r])
  | PenAppend _ None | PenRead _ _ => rs' = rs
  | PenPurge clk window =>
      done (filter (fun r => pg_time (time_add (clk 0%nat) (wrap64 (- window))) <= prd_CreatedAt r) rs)
  end.

(** The records kept after a sequence of calls. *)
Inductive pen_course : list PenaltyRecordData -> list (pen_op * bool) -> list PenaltyRecordData -> Prop :=
  | pen_course_nil rs : pen_course rs [] rs
  | pen_course_cons rs o ack rs1 l rs2 :
      pen_effect o ack rs rs1 -> pen_course rs1 l rs2 -> pen_course rs ((o, ack) :: l) rs2.

(** The table holds these records. *)
Definition pen_holds (rs : list PenaltyRecordData) s : Prop :=
  pen_rows (pp_pool s) (tableName s) = penalty_row <$> rs /\ Forall stored_ok rs.

Lemma GetRecent_pool name limit s : exists r s', pp_GetRecent name limit s = Some (r, s')
  /\ tableName s' = tableName s /\ pen_rows (pp_pool s') (tableName s) = pen_rows (pp_pool s) (tableName s).
Proof.
  unfold pp_GetRecent. destruct (limit <=? 0) eqn:E; [by eexists _, _|]. apply Z.leb_gt in E.
  pose proof (Recent_law (tableName s) name limit (pp_pool s) E) as Hr.
  destruct (pg_Query _ _ _) as [[[rows err]|e] w]; destruct Hr as [Hw _]; [|by eexists _, _].
  destruct (scan_penalties rows) as [buf|e]; [|by eexists _, _].
  destruct err; [by eexists _, _|]. rewrite reverse_in_place_spec. by eexists _, _.
Qed.

Lemma append_holds clk record s rs :
  pen_op_ok (PenAppend clk record) -> pen_holds rs s ->
  let '(r, s') := pp_Append clk record s in
  exists rs', pen_effect (PenAppend clk record) (acked r) rs rs' /\ pen_holds rs' s'.
Proof.
  intros Hok [Hrows Hall]. unfold pp_Append. destruct record as [r|]; [|by exists rs]. cbn [pen_effect].
  case_bool_decide; [by exists rs|]. cbn in Hok.
  pose proof (Insert_law (tableName s) (penalty_args (clk 0%nat) r) (pp_pool s) eq_refl) as Hi.
  assert (forall w, pen_rows w (tableName s) = pen_rows (pp_pool s) (tableName s) ++ [kept_row (penalty_args (clk 0%nat) r)] ->
    pen_holds (rs ++ [stored (clk 0%nat) r]) (pp_set_pool w s)) as Hdone.
  { intros w Hw. split; [|apply Forall_app; split; [done|]; constructor; [by apply stored_stored_ok|constructor]].
    cbn. change (tableName (pp_set_pool w s)) with (tableName s). by rewrite Hw, Hrows, stored_row, fmap_app. }
  destruct (pg_Exec _ _ _) as [[u|e] w]; [eexists; split; [by left|by apply Hdone]|].
  destruct Hi as [Hi|Hi]; [eexists; split; [by left|by apply Hdone]|].
  exists rs. split; [by right|]. split; [|done]. cbn. change (tableName (pp_set_pool w s)) with (tableName s). by rewrite Hi.
Qed.

Lemma purge_holds clk window s rs :
  pen_holds rs s ->
  let '(r, s') := pp_PurgeOld clk window s in
  exists rs', pen_effect (PenPurge clk window) (acked r) rs rs' /\ pen_holds rs' s'.
Proof.
  intros [Hrows Hall]. unfold pp_PurgeOld, pen_effect. set (cutoff := time_add _ _).
  pose proof (Purge_law (tableName s) cutoff (pp_pool s)) as Hi.
  assert (forall w, pen_rows w (tableName s) = filter (fun row => pg_time cutoff <= row_created row) (pen_rows (pp_pool s) (tableName s)) ->
    pen_holds (filter (fun r => pg_time cutoff <= prd_CreatedAt r) rs) (pp_set_pool w s)) as Hdone.
  { intros w Hw. split; [|apply Forall_forall; intros r [_ Hr]%list_elem_of_filter; by apply (proj1 (Forall_forall _ _) Hall)].
    cbn. change (tableName (pp_set_pool w s)) with (tableName s). rewrite Hw, Hrows. by apply filter_fmap_iff. }
  destruct (pg_Exec _ _ _) as [[u|e] w]; [eexists; split; [by left|by apply Hdone]|].
  destruct Hi as [Hi|Hi]; [eexists; split; [by left|by apply Hdone]|].
  exists rs. split; [by right|]. split; [|done]. cbn. change (tableName (pp_set_pool w s)) with (tableName s). by rewrite Hi.
Qed.

Lemma pen_step_holds o s rs : pen_op_ok o -> pen_holds rs s ->
  exists ack s' rs', pen_step o s = Some (ack, s') /\ pen_effect o ack rs rs' /\ pen_holds rs' s'.
Proof.
  intros Ho Hs. destruct o as [clk record|clk window|name limit]; cbn [pen_step].
  - pose proof (append_holds clk record s rs Ho Hs) as Ha. destruct (pp_Append _ _ _) as [r s']. destruct Ha as (rs' & ? & ?).
    by eexists _, _, rs'.
  - pose proof (purge_holds clk window s rs Hs) as Ha. destruct (pp_PurgeOld _ _ _) as [r s']. destruct Ha as (rs' & ? & ?).
    by eexists _, _, rs'.
  - destruct (GetRecent_pool name limit s) as (r & s' & -> & Ht & Hp). cbn. destruct Hs as [Hrows Hok].
    eexists _, s', rs. split_and!; [done..|]. split; [|done]. by rewrite Ht, Hp.
Qed.

Lemma pen_run_holds ops s rs : Forall pen_op_ok ops -> pen_holds rs s ->
  exists l s' rs', pen_run ops s = Some (l, s') /\ l.*1 = ops /\ pen_course rs l rs' /\ pen_holds rs' s'.
Proof.
  intros Hops. revert s rs. induction Hops as [|o ops Ho Hops IH]; intros s rs Hs; cbn [pen_run].
  { exists [], s, rs. split_and!; [done..|apply pen_course_nil|done]. }
  destruct (pen_step_holds o s rs Ho Hs) as (ack & s1 & rs1 & -> & He & Hs1). cbn [mbind option_bind].
  destruct (IH s1 rs1 Hs1) as (l & s' & rs' & -> & Hl & Hc & Hs'). cbn [mbind option_bind].
  eexists _, s', rs'. split; [done|]. split; [cbn; by rewrite Hl|]. split; [by eapply pen_course_cons|done].
Qed.

End props.

Lemma StronglySorted_reverse {A} (R : A -> A -> Prop) (l : list A) : StronglySorted (fun a b => R b a) l -> StronglySorted R (reverse l).
Proof.
  induction 1 as [|a l Hl IH Ha]; [constructor|]. rewrite reverse_cons. apply StronglySorted_app_2; [|done|by repeat constructor].
  intros x y Hx Hy%list_elem_of_singleton. subst. rewrite elem_of_reverse in Hx. rewrite Forall_forall in Ha. by apply Ha.
Qed.

(** The read of a table that holds [rs]. *)
Lemma GetRecent_holds {W} `{PgPenaltyLaws W, JsonErrors, JsonPartial} rs (s : PostgresPenaltyStore W) name limit :
  pen_holds rs s -> 0 < limit ->
  outcome (pp_GetRecent name limit s)
    (fun out _ => exists rest, out ++ rest ≡ₚ of_provider name rs
       /\ length out = (Z.to_nat limit `min` length (of_provider name rs))%nat
       /\ StronglySorted (fun a b => prd_CreatedAt a <= prd_CreatedAt b) out
       /\ forall x y, x ∈ rest -> y ∈ out -> prd_CreatedAt x <= prd_CreatedAt y)
    (fun _ => True).
Proof.
  intros [Hrows Hok] Hlim. unfold pp_GetRecent. rewrite (proj2 (Z.leb_gt limit 0)) by lia.
  pose proof (Recent_law (tableName s) name limit (pp_pool s) Hlim) as Hr.
  destruct (pg_Query _ _ _) as [[[rows err]|e] w]; destruct Hr as [_ Hr]; [|done].
  destruct err as [e|]; [by destruct (scan_penalties rows)|]. destruct Hr as (l & -> & Hl & Hsort).
  rewrite Hrows, (filter_fmap_iff _ (fun r => prd_ProviderName r = name)) in Hl.
  2: { intros r. cbn. split; [by intros [= ->]|by intros ->]. }
  apply Permutation_map_inv in Hl as (l0 & -> & Hl0). change (List.map penalty_row l0) with (penalty_row <$> l0) in *.
  assert (Forall stored_ok l0) as Hok0.
  { rewrite <-Hl0. apply Forall_forall. intros r [_ Hr]%list_elem_of_filter. by apply (proj1 (Forall_forall _ _) Hok). }
  rewrite <-fmap_take, scan_penalty_rows, reverse_in_place_spec by (by apply Forall_take). cbn.
  set (n := Z.to_nat limit). exists (drop n l0).
  assert (StronglySorted (fun a b => prd_CreatedAt b <= prd_CreatedAt a) (take n l0 ++ drop n l0)) as Hs0.
  { rewrite take_drop. clear - Hsort. induction l0 as [|r l0 IH]; [constructor|]. cbn [fmap list_fmap] in Hsort.
    apply StronglySorted_inv in Hsort as [Hs Hf]. constructor; [by apply IH|]. exact (proj1 (Forall_fmap penalty_row _ l0) Hf). }
  apply StronglySorted_app in Hs0 as (Hcross & Hfirst & _). split_and!.
  - rewrite reverse_Permutation, take_drop. by symmetry.
  - rewrite length_reverse, length_take. f_equal. by rewrite <-Hl0.
  - by apply StronglySorted_reverse.
  - intros x y Hx Hy. rewrite elem_of_reverse in Hy. by apply Hcross.
Qed.

(** C37: a sequence of appends, purges and reads on an empty table does not
    panic, and leaves the stored form of the records appended (their time, or
    the time of the append when it is zero, truncated to microseconds; no
    metadata when they are empty), in order, less those purged; a call that
    reported an error may have taken effect or not; appending nil or a record
    without a provider does nothing.  [GetRecent] then does not panic, and when
    it reports no error it returns [limit] of these stored records of the
    provider, or all of them when they are fewer, in the order of their stored
    times, and none that is left out has a greater stored time than one that is
    returned (which of those created in the same microsecond are returned, and
    in which order, is up to the database).  Metadata are restricted to ASCII
    keys and values. *)
Theorem postgres_penalty_recent {W} `{PgPenaltyLaws W, JsonErrors, JsonPartial} ops (s : PostgresPenaltyStore W) name limit :
  pen_rows (pp_pool s) (tableName s) = [] -> Forall pen_op_ok ops -> 0 < limit ->
  exists l s' rs, pen_run ops s = Some (l, s') /\ l.*1 = ops /\ pen_course [] l rs
    /\ outcome (pp_GetRecent name limit s')
      (fun out _ => exists rest, out ++ rest ≡ₚ of_provider name rs
         /\ length out = (Z.to_nat limit `min` length (of_provider name rs))%nat
         /\ StronglySorted (fun a b => prd_CreatedAt a <= prd_CreatedAt b) out
         /\ forall x y, x ∈ rest -> y ∈ out -> prd_CreatedAt x <= prd_CreatedAt y)
      (fun _ => True).
Proof.
  intros Hempty Hops Hlim. destruct (pen_run_holds ops s [] Hops) as (l & s' & rs & Hrun & Hl & Hc & Hs); [by split|].
  exists l, s', rs. split_and!; [done..|]. by apply GetRecent_holds.
Qed.

(** ** A small database *)

Abbreviation pen_toy := (string -> list pg_row).

Definition newer_first (a b : pg_row) : Prop := row_created b <= row_created a.

#[local] Instance newer_first_dec : RelDecision newer_first.
Proof. intros a b. unfold newer_first. apply _. Defined.

Definition toy_recent (n : string) (limit : Z) (rows : list pg_row) : list pg_row :=
  take (Z.to_nat limit) (merge_sort newer_first (filter (fun row => row_provider row = Some n) rows)).

Definition pen_set (t : string) (rows : list pg_row) (w : pen_toy) : pen_toy :=
  fun t' => if bool_decide (t' = t) then rows else w t'.

#[local] Instance pen_toy_pool : PgPool pen_toy := {|
  pg_config := unit;
  pg_ParseConfig _ := Ok tt;
  pg_NewWithConfig _ _ := Ok (fun _ => []);
  pg_Ping w := (Ok tt, w);
  pg_Close w := w;
  pg_Exec sql args w :=
    match args with
    | [] => (Ok tt, w)
    | [VTime cutoff] =>
        let t := table_of purge_sql sql in
        (Ok tt, pen_set t (filter (fun row => pg_time cutoff <= row_created row) (w t)) w)
    | cols =>
        let t := table_of insert_penalty_sql sql in
        (Ok tt, pen_set t (w t ++ [kept_row cols]) w)
    end;
  pg_QueryRow _ _ w := (RNil, w);
  pg_Query sql args w :=
    match args with
    | [VText n; VInt limit] => (Ok (toy_recent n limit (w (table_of select_recent_sql sql)), None), w)
    | _ => (Err (errOther "no such statement"), w)
    end;
  pg_Begin w := (Ok tt, w);
  pg_TxExec _ _ w := (Ok tt, w);
  pg_Commit w := (Ok tt, w);
  pg_Rollback w := w;
  pg_scan_error := errOther "cannot scan"
|}.

Lemma toy_recent_ok n limit rows : exists l, toy_recent n limit rows = take (Z.to_nat limit) l
  /\ l ≡ₚ filter (fun row => row_provider row = Some n) rows /\ StronglySorted (fun a b => row_created b <= row_created a) l.
Proof.
  eexists. split; [reflexivity|]. split; [apply merge_sort_Permutation|].
  assert (Transitive newer_first) by (intros a b c; unfold newer_first; lia).
  assert (Total newer_first) by (intros a b; unfold newer_first; lia).
  exact (StronglySorted_merge_sort newer_first _).
Qed.

Lemma pen_tables t :
  table_of insert_penalty_sql (insert_penalty_sql t) = t /\ table_of select_recent_sql (select_recent_sql t) = t
  /\ table_of purge_sql (purge_sql t) = t.
Proof. split_and!; statement. Qed.

#[local] Program Instance pen_toy_laws : PgPenaltyLaws pen_toy := {| pen_rows w := w |}.
Next Obligation.
  intros t [|a [|b cols]] w Hc; [done|done|]. destruct (pen_tables t) as (Ht & _ & _).
  destruct a as [| | | |x|]; cbn -[insert_penalty_sql]; unfold pen_set; rewrite Ht, bool_decide_eq_true_2 by done; done.
Qed.
Next Obligation.
  intros t n limit w _. destruct (pen_tables t) as (_ & Ht & _). cbn -[select_recent_sql]. rewrite Ht.
  split; [done|]. apply toy_recent_ok.
Qed.
Next Obligation.
  intros t cutoff w. destruct (pen_tables t) as (_ & _ & Ht). cbn -[purge_sql]. rewrite Ht. unfold pen_set.
  by rewrite bool_decide_eq_true_2.
Qed.

Definition demo_pg_penalty (provider : string) (amount nanoseconds : Z) : PenaltyRecordData := {|
  prd_ProviderName := provider; prd_Category := "error"; prd_Reason := "timeout"; prd_Amount := f64_of_Z amount;
  prd_CreatedAt := 63000000000 * Second + nanoseconds; prd_Metadata := Some ∅ |}.

Definition demo_pg_penalties : PostgresPenaltyStore pen_toy := {| pp_pool _ := []; pp_tablePrefix := "chainkit_" |}.

Definition demo_pen_ops : list pen_op := [
  PenAppend demo_clk (Some (demo_pg_penalty "tatum" 5 2100)); PenAppend demo_clk (Some (demo_pg_penalty "tatum" 7 1700));
  PenAppend demo_clk None].

Lemma postgres_penalty_recent_witness :
  let _ := plain_json_errors in let _ := demo_partial in
  exists l s' rs, pen_run demo_pen_ops demo_pg_penalties = Some (l, s') /\ l.*1 = demo_pen_ops /\ pen_course [] l rs
    /\ outcome (pp_GetRecent "tatum" 1 s')
      (fun out _ => exists rest, out ++ rest ≡ₚ of_provider "tatum" rs
         /\ length out = (Z.to_nat 1 `min` length (of_provider "tatum" rs))%nat
         /\ StronglySorted (fun a b => prd_CreatedAt a <= prd_CreatedAt b) out
         /\ forall x y, x ∈ rest -> y ∈ out -> prd_CreatedAt x <= prd_CreatedAt y)
      (fun _ => True).
Proof.
  intros J P. assert (Forall pen_op_ok demo_pen_ops) as Hops
    by (unfold demo_pen_ops; rewrite !Forall_cons, Forall_nil; split_and!; try apply map_Forall_empty; done).
  exact (postgres_penalty_recent demo_pen_ops demo_pg_penalties "tatum" 1 eq_refl Hops eq_refl).
Defined.

(** Two records of the same provider, by their stored times: the nanoseconds
    are gone. *)
Example demo_pen_read :
  let _ := plain_json_errors in let _ := demo_partial in
  ('(_, s) ← pen_run demo_pen_ops demo_pg_penalties; '(r, _) ← pp_GetRecent "tatum" 2 s;
   Some (match r with Ok l => map (fun r => prd_CreatedAt r - 63000000000 * Second) l | Err _ => [] end)) = Some [1000; 2000].
Proof. vm_compute. reflexivity. Qed.
