(* ===== verification/Registry.v ===== *)
(** * Choosing a store

    [scoring/store/registry.go]: a store made from a configuration, by the
    factory registered for its type.  The store behind the interface is an
    [any_store]: its kind and the store itself.  [scoring/options.go]: the options
    of the engine that open a score store or a penalty store, with their
    fallbacks.

    The connections that are opened and not handed to the caller are returned
    as they were left, so that [store_setup_tidy] can say that they are
    closed. *)

From S2P Require Import Prelude GoInt GoFloat GoString GoDecode GoTime Store StoreJson Hybrid.
From S2P Require Import Redis RedisToy RedisPenalty Postgres PostgresLaws PostgresProps PostgresPenalty.

(** ** Configurations *)

Definition StoreTypeMemory : string := "memory".
Definition StoreTypeRedis : string := "redis".
Definition StoreTypePostgres : string := "postgres".
Definition StoreTypeHybrid : string := "hybrid".

Inductive StoreConfig := mkStoreConfig {
  stc_Type : string;
  stc_Redis : option RedisConfig;
  stc_Postgres : option PostgresConfig;
  stc_Hybrid : option HybridStoreConfig
}
with HybridStoreConfig := mkHybridStoreConfig {
  hsc_Primary : StoreConfig;
  hsc_Cache : StoreConfig;
  hsc_CacheTTL : Duration;
  hsc_WriteThrough : bool;
  hsc_AsyncWrite : bool;
  hsc_InvalidateOnWrite : bool
}.

(** ** Stores behind the interface *)

Inductive shape := ShMemory | ShRedis | ShPostgres | ShUser | ShHybrid (primary cache : shape).

Section registry.
Context {R P U : Type} `{RedisClient R, PgPool P, US : ScoreStore U, Zone, JsonErrors, JsonPartial, MapRange}.

Fixpoint store_of (sh : shape) : Type :=
  match sh with
  | ShMemory => MemoryStore
  | ShRedis => RedisStore R
  | ShPostgres => PostgresStore P
  | ShUser => U
  | ShHybrid p c => HybridStore (store_of p) (store_of c)
  end.

#[export] Instance shape_store : forall sh, ScoreStore (store_of sh) :=
  fix go sh : ScoreStore (store_of sh) :=
    match sh return ScoreStore (store_of sh) with
    | ShMemory => MemoryStore_store
    | ShRedis => RedisStore_store
    | ShPostgres => PostgresStore_store
    | ShUser => US
    | ShHybrid p c => @HybridStore_store _ _ (go p) (go c)
    end.

Record any_store := AnyStore { as_shape : shape; as_store : store_of as_shape }.

(** A method call on a store of any kind. *)
Definition any_call {A} (f : forall sh, store_of sh -> go (result A * store_of sh)) (s : any_store)
    : go (result A * any_store) :=
  '(r, s') ← f (as_shape s) (as_store s); Some (r, AnyStore (as_shape s) s').

#[export] Instance any_store_store : ScoreStore any_store := {|
  GetScore clk n := any_call (fun sh => GetScore clk n);
  SetScore clk d := any_call (fun sh => SetScore clk d);
  GetAllScores clk := any_call (fun sh => GetAllScores clk);
  DeleteScore clk n := any_call (fun sh => DeleteScore clk n);
  SetScores clk ds := any_call (fun sh => SetScores clk ds);
  store_GetLatencyStats clk := any_call (fun sh => store_GetLatencyStats clk);
  store_SetLatencyStats clk d := any_call (fun sh => store_SetLatencyStats clk d);
  store_Close := any_call (fun sh => store_Close);
  store_Ping := any_call (fun sh => store_Ping);
  store_Name s := store_Name (as_store s);
  store_SetRecorder s := AnyStore (as_shape s) (store_SetRecorder (as_store s))
|}.

(** What was opened and is not part of the result. *)
Inductive abandoned := LeftRedis (w : R) | LeftPostgres (w : P) | LeftStore (s : any_store).

Abbreviation made A := (go (result A * list abandoned)).
Abbreviation factory := (StoreConfig -> made any_store).

Definition redis_factory (c : RedisConfig) : made any_store :=
  '(r, w) ← NewRedisStore c;
  Some match r with
       | Ok s => (Ok (AnyStore ShRedis s), [])
       | Err e => (Err e, [LeftRedis w])
       end.

Definition left_pool (w : option P) : list abandoned := LeftPostgres <$> option_list w.

Definition postgres_factory (c : PostgresConfig) : made any_store :=
  match NewPostgresStore c with
  | (Ok s, _) => Some (Ok (AnyStore ShPostgres s), [])
  | (Err e, w) => Some (Err e, left_pool w)
  end.

Definition hybrid_of (c : HybridStoreConfig) (primary cache : any_store) : result any_store :=
  match NewHybridStore {|
    hcf_Primary := Some (as_store primary); hcf_Cache := Some (as_store cache); hcf_CacheTTL := hsc_CacheTTL c;
    hcf_WriteThrough := hsc_WriteThrough c; hcf_AsyncWrite := hsc_AsyncWrite c;
    hcf_InvalidateOnWrite := hsc_InvalidateOnWrite c |} with
  | Ok h => Ok (AnyStore (ShHybrid (as_shape primary) (as_shape cache)) h)
  | Err e => Err e
  end.

(** [custom] are the factories that [Register] added; one of them may replace a
    built-in one.  The hybrid factory calls [NewStore] for its parts. *)
Fixpoint NewStore (custom : gmap string factory) (config : StoreConfig) {struct config} : made any_store :=
  match custom !! stc_Type config with
  | Some f => f config
  | None =>
      if bool_decide (stc_Type config = StoreTypeMemory) then Some (Ok (AnyStore ShMemory NewMemoryStore), [])
      else if bool_decide (stc_Type config = StoreTypeRedis) then
        match stc_Redis config with
        | None => Some (Err (errOther "redis config is required for redis store"), [])
        | Some c => redis_factory c
        end
      else if bool_decide (stc_Type config = StoreTypePostgres) then
        match stc_Postgres config with
        | None => Some (Err (errOther "postgres config is required for postgres store"), [])
        | Some c => postgres_factory c
        end
      else if bool_decide (stc_Type config = StoreTypeHybrid) then
        match stc_Hybrid config with
        | None => Some (Err (errOther "hybrid config is required for hybrid store"), [])
        | Some hc =>
            '(rp, leftp) ← NewStore custom (hsc_Primary hc);
            match rp with
            | Err e => Some (Err (errWrap "failed to create primary store: " e ""), leftp)
            | Ok primary =>
                '(rc, leftc) ← NewStore custom (hsc_Cache hc);
                match rc with
                | Err e =>
                    '(_, primary) ← store_Close primary;
                    Some (Err (errWrap "failed to create cache store: " e ""), leftp ++ leftc ++ [LeftStore primary])
                | Ok cache => Some (hybrid_of hc primary cache, leftp ++ leftc)
                end
            end
        end
      else Some (Err (errOther ("unknown store type: " +:+ stc_Type config)), [])
  end.

(** ** Options for the score store *)

Inductive RedisStoreOption :=
  | RedisPassword (password : string)
  | RedisDB (db : Z)
  | RedisScoreTTL (ttl : Duration)
  | RedisKeyPrefix (prefix : string)
  | RedisPoolSize (size : Z)
  | RedisMinIdleConns (conns : Z).

Definition redis_option (c : RedisConfig) (o : RedisStoreOption) : RedisConfig :=
  let mk := Build_RedisConfig in
  match o with
  | RedisPassword v => mk (rc_Addr c) v (rc_DB c) (rc_PoolSize c) (rc_MinIdleConns c) (rc_ScoreTTL c) (rc_KeyPrefix c)
  | RedisDB v => mk (rc_Addr c) (rc_Password c) v (rc_PoolSize c) (rc_MinIdleConns c) (rc_ScoreTTL c) (rc_KeyPrefix c)
  | RedisScoreTTL v => mk (rc_Addr c) (rc_Password c) (rc_DB c) (rc_PoolSize c) (rc_MinIdleConns c) v (rc_KeyPrefix c)
  | RedisKeyPrefix v => mk (rc_Addr c) (rc_Password c) (rc_DB c) (rc_PoolSize c) (rc_MinIdleConns c) (rc_ScoreTTL c) v
  | RedisPoolSize v => mk (rc_Addr c) (rc_Password c) (rc_DB c) v (rc_MinIdleConns c) (rc_ScoreTTL c) (rc_KeyPrefix c)
  | RedisMinIdleConns v => mk (rc_Addr c) (rc_Password c) (rc_DB c) (rc_PoolSize c) v (rc_ScoreTTL c) (rc_KeyPrefix c)
  end.

Inductive PostgresStoreOption :=
  | PostgresTablePrefix (prefix : string)
  | PostgresMaxConns (max : Z)
  | PostgresMaxIdleConns (max : Z)
  | PostgresConnMaxLifetime (d : Duration).

Definition postgres_option (c : PostgresConfig) (o : PostgresStoreOption) : PostgresConfig :=
  let mk := Build_PostgresConfig (pgc_ConnectionString c) in
  match o with
  | PostgresTablePrefix v => mk v (pgc_MaxOpenConns c) (pgc_MaxIdleConns c) (pgc_ConnMaxLifetime c)
  | PostgresMaxConns v => mk (pgc_TablePrefix c) v (pgc_MaxIdleConns c) (pgc_ConnMaxLifetime c)
  | PostgresMaxIdleConns v => mk (pgc_TablePrefix c) (pgc_MaxOpenConns c) v (pgc_ConnMaxLifetime c)
  | PostgresConnMaxLifetime v => mk (pgc_TablePrefix c) (pgc_MaxOpenConns c) (pgc_MaxIdleConns c) v
  end.

(** The functions of the last two options are arbitrary. *)
Inductive HybridStoreOption :=
  | HybridCacheTTL (ttl : Duration)
  | HybridWriteThrough (enabled : bool)
  | HybridAsyncWrite (enabled : bool)
  | HybridInvalidateOnWrite (enabled : bool)
  | HybridPrimaryConfig (fn : StoreConfig -> StoreConfig)
  | HybridCacheConfig (fn : StoreConfig -> StoreConfig).

Definition hybrid_option (c : HybridStoreConfig) (o : HybridStoreOption) : HybridStoreConfig :=
  let mk := mkHybridStoreConfig in
  match o with
  | HybridCacheTTL v => mk (hsc_Primary c) (hsc_Cache c) v (hsc_WriteThrough c) (hsc_AsyncWrite c) (hsc_InvalidateOnWrite c)
  | HybridWriteThrough v => mk (hsc_Primary c) (hsc_Cache c) (hsc_CacheTTL c) v (hsc_AsyncWrite c) (hsc_InvalidateOnWrite c)
  | HybridAsyncWrite v => mk (hsc_Primary c) (hsc_Cache c) (hsc_CacheTTL c) (hsc_WriteThrough c) v (hsc_InvalidateOnWrite c)
  | HybridInvalidateOnWrite v => mk (hsc_Primary c) (hsc_Cache c) (hsc_CacheTTL c) (hsc_WriteThrough c) (hsc_AsyncWrite c) v
  | HybridPrimaryConfig fn => mk (fn (hsc_Primary c)) (hsc_Cache c) (hsc_CacheTTL c) (hsc_WriteThrough c) (hsc_AsyncWrite c) (hsc_InvalidateOnWrite c)
  | HybridCacheConfig fn => mk (hsc_Primary c) (fn (hsc_Cache c)) (hsc_CacheTTL c) (hsc_WriteThrough c) (hsc_AsyncWrite c) (hsc_InvalidateOnWrite c)
  end.

(** An option that assigns [c.Store]: the store it leaves there, and what it
    opened otherwise. *)
Abbreviation store_field := (go (option any_store * list abandoned)).

(** [if err != nil { c.Store = NewMemoryStore() } else { c.Store = s }]. *)
Definition or_memory (m : made any_store) : store_field :=
  '(r, rest) ← m;
  Some (Some (match r with Ok s => s | Err _ => AnyStore ShMemory NewMemoryStore end), rest).

Definition WithStore (s : option any_store) : store_field := Some (s, []).

Definition WithMemoryStore : store_field := Some (Some (AnyStore ShMemory NewMemoryStore), []).

Definition default_redis_config (addr : string) : RedisConfig := {|
  rc_Addr := addr; rc_Password := ""; rc_DB := 0; rc_PoolSize := 10; rc_MinIdleConns := 2; rc_ScoreTTL := 0;
  rc_KeyPrefix := "" |}.

Definition WithRedisStore (addr : string) (opts : list RedisStoreOption) : store_field :=
  or_memory (redis_factory (foldl redis_option (default_redis_config addr) opts)).

Definition default_postgres_config (connectionString : string) : PostgresConfig := {|
  pgc_ConnectionString := connectionString; pgc_TablePrefix := "chainkit_"; pgc_MaxOpenConns := 25;
  pgc_MaxIdleConns := 5; pgc_ConnMaxLifetime := 5 * Minute |}.

Definition WithPostgresStore (connectionString : string) (opts : list PostgresStoreOption) : store_field :=
  or_memory (postgres_factory (foldl postgres_option (default_postgres_config connectionString) opts)).

Definition default_hybrid_config (primaryConnString cacheAddr : string) : HybridStoreConfig := {|
  hsc_Primary := {| stc_Type := StoreTypePostgres; stc_Redis := None;
                    stc_Postgres := Some (default_postgres_config primaryConnString); stc_Hybrid := None |};
  hsc_Cache := {| stc_Type := StoreTypeRedis; stc_Redis := Some (default_redis_config cacheAddr);
                  stc_Postgres := None; stc_Hybrid := None |};
  hsc_CacheTTL := 5 * Minute; hsc_WriteThrough := true; hsc_AsyncWrite := false; hsc_InvalidateOnWrite := false |}.

Definition WithHybridStore (custom : gmap string factory) (primaryConnString cacheAddr : string)
    (opts : list HybridStoreOption) : store_field :=
  or_memory (NewStore custom {|
    stc_Type := StoreTypeHybrid; stc_Redis := None; stc_Postgres := None;
    stc_Hybrid := Some (foldl hybrid_option (default_hybrid_config primaryConnString cacheAddr) opts) |}).

Definition WithStoreConfig (custom : gmap string factory) (config : StoreConfig) : store_field :=
  or_memory (NewStore custom config).

(** ** Options for the penalty store *)

Inductive any_penalty :=
  | PenRedis (s : RedisPenaltyStore R)
  | PenPostgres (s : PostgresPenaltyStore P)
  | PenComposite (s : CompositePenaltyStore (PostgresPenaltyStore P) (RedisPenaltyStore R)).

(** The store that the configuration has afterwards, [old] when the option does
    not assign it, and what was opened otherwise. *)
Abbreviation penalty_field := (go (option any_penalty * list abandoned)).

Definition default_redis_penalty (addr : string) : RedisPenaltyConfig := {|
  rpc_Addr := addr; rpc_Password := ""; rpc_DB := 0; rpc_KeyPrefix := ""; rpc_TTL := 0;
  rpc_MaxEntriesPerProvider := 0; rpc_PoolSize := 0; rpc_MinIdleConns := 0 |}.

Definition default_postgres_penalty (connStr : string) : PostgresPenaltyConfig := {|
  ppc_ConnectionString := connStr; ppc_TablePrefix := ""; ppc_MaxOpenConns := 0; ppc_MaxIdleConns := 0;
  ppc_ConnMaxLifetime := 0 |}.

Definition WithRedisPenaltyStore (addr : string) (opts : list (RedisPenaltyConfig -> RedisPenaltyConfig))
    (old : option any_penalty) : penalty_field :=
  '(r, w) ← NewRedisPenaltyStore (foldl (fun c o => o c) (default_redis_penalty addr) opts);
  Some match r with
       | Ok s => (Some (PenRedis s), [])
       | Err _ => (old, [LeftRedis w])
       end.

Definition WithPostgresPenaltyStore (connStr : string) (opts : list (PostgresPenaltyConfig -> PostgresPenaltyConfig))
    (old : option any_penalty) : penalty_field :=
  Some match NewPostgresPenaltyStore (foldl (fun c o => o c) (default_postgres_penalty connStr) opts) with
       | (Ok s, _) => (Some (PenPostgres s), [])
       | (Err _, w) => (old, left_pool w)
       end.

Definition WithCompositePenaltyStore (pgConnStr redisAddr : string) (old : option any_penalty) : penalty_field :=
  match NewPostgresPenaltyStore (default_postgres_penalty pgConnStr) with
  | (Err _, w) => Some (old, left_pool w)
  | (Ok pg, _) =>
      '(r, w) ← NewRedisPenaltyStore (default_redis_penalty redisAddr);
      Some match r with
           | Err _ => let '(_, pg) := pp_Close pg in (old, [LeftPostgres (pp_pool pg); LeftRedis w])
           | Ok red => (Some (PenComposite (NewCompositePenaltyStore pg red)), [])
           end
  end.
End registry.

(** ** Connections *)

(** What [redis.NewClient] takes: it makes channels of the size of the pool, and
    panics when a size is negative or does not fit 32 bits. *)
Definition int32_range (n : Z) : bool := (-2147483648 <=? n) && (n <=? 2147483647).
Definition sizes_ok (size idle : Z) : bool := (0 <=? size) && int32_range size && int32_range idle.

(** Whether a client has its connections open. *)
Class RedisOpen (R : Type) `{RedisClient R} := {
  redis_open : R -> bool;
  open_NewClient : forall o,
    match redis_NewClient o with
    | Some w => sizes_ok (ro_PoolSize o) (ro_MinIdleConns o) = true /\ redis_open w = true
    | None => sizes_ok (ro_PoolSize o) (ro_MinIdleConns o) = false
    end;
  open_Ping : forall w, redis_open (redis_Ping w).2 = redis_open w;
  open_Close : forall w, redis_open (redis_Close w).2 = false
}.

Class PgOpen (P : Type) `{PgPool P} := {
  pg_open : P -> bool;
  open_NewWithConfig : forall c l w, pg_NewWithConfig c l = Ok w -> pg_open w = true;
  open_PgPing : forall w, pg_open (pg_Ping w).2 = pg_open w;
  open_Exec : forall sql args w, pg_open (pg_Exec sql args w).2 = pg_open w;
  open_PgClose : forall w, pg_open (pg_Close w) = false
}.

Section connections.
Context {R P U : Type} `{RedisOpen R, PgOpen P, US : ScoreStore U, Zone, JsonErrors, JsonPartial, MapRange}.

(** The connections of a store, those of the user's own apart. *)
Fixpoint conns (sh : shape) : store_of (R := R) (P := P) (U := U) sh -> list bool :=
  match sh with
  | ShMemory => fun _ => []
  | ShRedis => fun s => [redis_open (rs_client s)]
  | ShPostgres => fun s => [pg_open (ps_pool s)]
  | ShUser => fun _ => []
  | ShHybrid p c => fun s => conns p (hs_primary s) ++ conns c (hs_cache s)
  end.

Definition any_conns (s : any_store (R := R) (P := P) (U := U)) : list bool := conns (as_shape s) (as_store s).

Definition all_open (l : list bool) : Prop := Forall (fun b => b = true) l.
Definition all_closed (l : list bool) : Prop := Forall (fun b => b = false) l.

Definition closed (a : abandoned (R := R) (P := P) (U := U)) : Prop :=
  match a with
  | LeftRedis w => redis_open w = false
  | LeftPostgres w => pg_open w = false
  | LeftStore s => all_closed (any_conns s)
  end.

(** A store was made with its connections open and nothing else open, or it was
    not made and nothing is open. *)
Definition tidy (o : go (result (any_store (R := R) (P := P) (U := U)) * list (abandoned (R := R) (P := P) (U := U)))) : Prop :=
  match o with
  | Some (Ok s, l) => all_open (any_conns s) /\ Forall closed l
  | Some (Err _, l) => Forall closed l
  | None => False
  end.

Definition redis_config_ok (c : RedisConfig) : bool := sizes_ok (rc_PoolSize c) (rc_MinIdleConns c).
Definition redis_penalty_config_ok (c : RedisPenaltyConfig) : bool := sizes_ok (rpc_PoolSize c) (rpc_MinIdleConns c).

(** Every Redis configuration that is part of [config]. *)
Fixpoint config_ok (config : StoreConfig) : bool :=
  match stc_Redis config with Some c => redis_config_ok c | None => true end
  && match stc_Hybrid config with Some hc => config_ok (hsc_Primary hc) && config_ok (hsc_Cache hc) | None => true end.

(** The defaults are sizes that are fine. *)
Lemma sizes_ok_default size idle :
  sizes_ok (if size =? 0 then 10 else size) (if idle =? 0 then 2 else idle) = sizes_ok size idle.
Proof. destruct (size =? 0) eqn:Es, (idle =? 0) eqn:Ei; try apply Z.eqb_eq in Es as ->; try apply Z.eqb_eq in Ei as ->; done. Qed.

Lemma NewRedisStore_open c :
  match NewRedisStore c with
  | Some (Ok s, w) => redis_config_ok c = true /\ redis_open (rs_client s) = true
  | Some (Err _, w) => redis_config_ok c = true /\ redis_open w = false
  | None => redis_config_ok c = false
  end.
Proof.
  unfold NewRedisStore. set (o := Build_RedisOptions _ _ _ _ _). pose proof (open_NewClient o) as Hn.
  subst o. cbn in Hn |- *. rewrite sizes_ok_default in Hn. destruct (redis_NewClient _) as [w0|]; [|done]. cbn. destruct Hn as [Hok Hn].
  pose proof (open_Ping w0) as Hp. destruct (redis_Ping w0) as [[[]|e] w]; [split; [done|cbn in *; congruence]|].
  pose proof (open_Close w) as Hc. by destruct (redis_Close w).
Qed.

Lemma NewRedisPenaltyStore_open c :
  match NewRedisPenaltyStore c with
  | Some (Ok s, w) => redis_penalty_config_ok c = true /\ redis_open (rp_client s) = true
  | Some (Err _, w) => redis_penalty_config_ok c = true /\ redis_open w = false
  | None => redis_penalty_config_ok c = false
  end.
Proof.
  unfold NewRedisPenaltyStore. set (o := Build_RedisOptions _ _ _ _ _). pose proof (open_NewClient o) as Hn.
  subst o. cbn in Hn |- *. rewrite sizes_ok_default in Hn. destruct (redis_NewClient _) as [w0|]; [|done]. cbn. destruct Hn as [Hok Hn].
  pose proof (open_Ping w0) as Hp. destruct (redis_Ping w0) as [[[]|e] w]; [split; [done|cbn in *; congruence]|].
  pose proof (open_Close w) as Hc. by destruct (redis_Close w).
Qed.

Lemma NewPostgresStore_open c :
  match NewPostgresStore c with
  | (Ok s, _) => pg_open (ps_pool s) = true
  | (Err _, w) => Forall (fun w => pg_open w = false) (option_list w)
  end.
Proof.
  unfold NewPostgresStore, migrate. destruct (pg_ParseConfig _) as [cfg|e]; [|constructor].
  destruct (pg_NewWithConfig _ _) as [pool|e] eqn:En; [|constructor]. apply open_NewWithConfig in En.
  pose proof (open_PgPing pool) as Hp. destruct (pg_Ping pool) as [[[]|e] p1]; [|by repeat constructor; apply open_PgClose].
  cbn [ps_tablePrefix ps_pool]. set (sql := migrate_sql _). pose proof (open_Exec sql [] p1) as He.
  destruct (pg_Exec sql [] p1) as [[[]|e] p2]; cbn in *; [congruence|]. repeat constructor. apply open_PgClose.
Qed.

Lemma NewPostgresPenaltyStore_open c :
  match NewPostgresPenaltyStore c with
  | (Ok s, _) => pg_open (pp_pool s) = true
  | (Err _, w) => Forall (fun w => pg_open w = false) (option_list w)
  end.
Proof.
  unfold NewPostgresPenaltyStore, pp_init. destruct (pg_ParseConfig _) as [cfg|e]; [|constructor].
  destruct (pg_NewWithConfig _ _) as [pool|e] eqn:En; [|constructor]. apply open_NewWithConfig in En.
  pose proof (open_PgPing pool) as Hp. destruct (pg_Ping pool) as [[[]|e] p1]; [|by repeat constructor; apply open_PgClose].
  cbn [pp_pool]. set (sql := penalty_schema_sql _ _). pose proof (open_Exec sql [] p1) as He.
  destruct (pg_Exec sql [] p1) as [[[]|e] p2]; cbn in *; [congruence|]. repeat constructor. apply open_PgClose.
Qed.

Lemma left_pool_closed w : Forall (fun w => pg_open w = false) (option_list w) -> Forall closed (left_pool w).
Proof. intros Hw. by apply Forall_fmap. Qed.

(** The factory panics on the sizes the client does not take, and on no others. *)
Lemma redis_factory_tidy c : if redis_config_ok c then tidy (redis_factory c) else redis_factory (P := P) (U := U) c = None.
Proof.
  unfold redis_factory. pose proof (NewRedisStore_open c) as Ho. destruct (NewRedisStore c) as [[[s|e] w]|]; cbn.
  - destruct Ho as [-> Ho]. split; [by repeat constructor|constructor].
  - destruct Ho as [-> Ho]. by repeat constructor.
  - by rewrite Ho.
Qed.

Lemma postgres_factory_tidy c : tidy (postgres_factory c).
Proof.
  unfold postgres_factory. pose proof (NewPostgresStore_open c) as Ho. destruct (NewPostgresStore c) as [[s|e] w]; cbn.
  - split; [by repeat constructor|constructor].
  - by apply left_pool_closed.
Qed.

(** *** Closing *)

Context (user_Close : forall u : U, exists r u', store_Close u = Some (r, u')).

Lemma Close_closes sh (s : store_of sh) : exists r s', store_Close s = Some (r, s') /\ all_closed (conns sh s').
Proof.
  induction sh as [| | | |p IHp c IHc]; cbn [store_of] in s.
  - exists (Ok tt), s. split; [reflexivity|constructor].
  - change (store_Close s) with (Some (rs_Close s)). unfold rs_Close. pose proof (open_Close (rs_client s)) as Hc.
    destruct (redis_Close _) as [r w]. repeat eexists. by repeat constructor.
  - change (store_Close s) with (Some (ps_Close s)). repeat eexists. repeat constructor. apply open_PgClose.
  - destruct (user_Close s) as (r & u & Hu). exists r, u. split; [exact Hu|constructor].
  - destruct (IHc (hs_cache s)) as (rc & c' & Hc & Hcc). destruct (IHp (hs_primary s)) as (rp & p' & Hp & Hpc).
    change (store_Close s) with (hs_Close s). unfold hs_Close. rewrite Hc. cbn [mbind option_bind]. rewrite Hp. cbn [mbind option_bind].
    destruct (_ ++ _); repeat eexists; apply Forall_app; by split.
Qed.

(** ** No connection is left open *)

Abbreviation factories := (gmap string (StoreConfig ->
  go (result (any_store (R := R) (P := P) (U := U)) * list (abandoned (R := R) (P := P) (U := U))))).

(** A registered factory makes tidy stores of the configurations it can be given. *)
Definition tidy_factories (custom : factories) : Prop :=
  map_Forall (fun _ f => forall config, config_ok config = true -> tidy (f config)) custom.

Lemma NewStore_tidy (custom : factories) config :
  tidy_factories custom -> config_ok config = true -> tidy (NewStore custom config).
Proof.
  intros Hcustom. revert config. fix IH 1. intros [ty redis pg hybrid] Hok.
  cbn [NewStore stc_Type stc_Redis stc_Postgres stc_Hybrid].
  destruct (custom !! ty) as [f|] eqn:Ef; [by apply (Hcustom ty f Ef)|].
  case_bool_decide; [by split; constructor|]. cbn in Hok. apply andb_prop in Hok as [Hr Hok].
  case_bool_decide; [destruct redis as [c|]; [pose proof (redis_factory_tidy c) as Ht; by rewrite Hr in Ht|by constructor]|].
  case_bool_decide; [destruct pg; [apply postgres_factory_tidy|by constructor]|].
  case_bool_decide; [|by constructor]. destruct hybrid as [[primary cache ttl wt aw iw]|]; [|by constructor].
  cbn [hsc_Primary hsc_Cache] in *. apply andb_prop in Hok as [Hokp Hokc].
  pose proof (IH primary Hokp) as Hp. pose proof (IH cache Hokc) as Hc. clear IH.
  destruct (NewStore custom primary) as [[[p|e] lp]|]; cbn in Hp |- *; [|done|done]. destruct Hp as [Hop Hlp].
  destruct (NewStore custom cache) as [[[c|e] lc]|]; cbn in Hc |- *; [| |done].
  - destruct Hc as [Hoc Hlc]. split; [|by apply Forall_app]. by apply Forall_app.
  - unfold any_call. destruct (Close_closes (as_shape p) (as_store p)) as (r & p' & -> & Hcl). cbn.
    apply Forall_app. split; [done|]. apply Forall_app. split; [done|]. by repeat constructor.
Qed.

(** *** The options *)

Abbreviation made_store := (go (result (any_store (R := R) (P := P) (U := U)) * list (abandoned (R := R) (P := P) (U := U)))).
Abbreviation set_store := (go (option (any_store (R := R) (P := P) (U := U)) * list (abandoned (R := R) (P := P) (U := U)))).
Abbreviation set_penalty := (go (option (any_penalty (R := R) (P := P)) * list (abandoned (R := R) (P := P) (U := U)))).

(** The engine has the store [m] that was asked for, with its connections open,
    or one in memory when it could not be made; and no other connection is
    open. *)
Definition has_store (m : made_store) (o : set_store) : Prop :=
  match m, o with
  | Some (r, _), Some (Some s, l) =>
      Forall closed l
      /\ match r with
         | Ok made => s = made /\ all_open (any_conns s)
         | Err _ => s = AnyStore ShMemory NewMemoryStore
         end
  | _, _ => False
  end.

Lemma or_memory_has m : tidy m -> has_store m (or_memory m).
Proof. unfold or_memory. destruct m as [[[s|e] l]|]; cbn; [|done|done]. by intros [Ho Hl]. Qed.

Definition penalty_open (p : any_penalty (R := R) (P := P)) : Prop :=
  match p with
  | PenRedis s => redis_open (rp_client s) = true
  | PenPostgres s => pg_open (pp_pool s) = true
  | PenComposite s => pg_open (pp_pool (cp_primary s)) = true /\ redis_open (rp_client (cp_cache s)) = true
  end.

(** The configuration has the penalty store [r] that was made, with its
    connections open, or the one it had when none could be made; and no other
    connection is open. *)
Definition has_penalty (r : result (any_penalty (R := R) (P := P))) (old : option any_penalty) (o : set_penalty) : Prop :=
  exists l, Forall closed l
    /\ match r with
       | Ok p => o = Some (Some p, l) /\ penalty_open p
       | Err _ => o = Some (old, l)
       end.

(** What the constructors made, as a penalty store of the configuration. *)
Definition made_redis (c : RedisPenaltyConfig) (f : RedisPenaltyStore R -> any_penalty (R := R) (P := P)) : option (result any_penalty) :=
  '(r, _) ← NewRedisPenaltyStore c; Some match r with Ok s => Ok (f s) | Err e => Err e end.

Lemma made_redis_open c f :
  match made_redis c f with
  | Some r => redis_penalty_config_ok c = true
  | None => redis_penalty_config_ok c = false
  end.
Proof.
  unfold made_redis. pose proof (NewRedisPenaltyStore_open c) as Ho. destruct (NewRedisPenaltyStore c) as [[[s|e] w]|]; [..|done]; by destruct Ho.
Qed.

Lemma WithRedisPenaltyStore_has addr opts old :
  match made_redis (foldl (fun c o => o c) (default_redis_penalty addr) opts) PenRedis with
  | Some r => has_penalty r old (WithRedisPenaltyStore addr opts old)
  | None => WithRedisPenaltyStore (U := U) addr opts old = None
  end.
Proof.
  unfold WithRedisPenaltyStore, made_redis. set (c := foldl _ _ _). pose proof (NewRedisPenaltyStore_open c) as Ho.
  destruct (NewRedisPenaltyStore c) as [[[s|e] w]|]; [..|done]; eexists; (split; [|by destruct Ho]).
  - constructor.
  - destruct Ho. by repeat constructor.
Qed.

Lemma WithPostgresPenaltyStore_has conn opts old :
  has_penalty (match (NewPostgresPenaltyStore (foldl (fun c o => o c) (default_postgres_penalty conn) opts)).1 with
               | Ok s => Ok (PenPostgres s) | Err e => Err e end) old (WithPostgresPenaltyStore conn opts old).
Proof.
  unfold WithPostgresPenaltyStore. set (c := foldl _ _ _). pose proof (NewPostgresPenaltyStore_open c) as Ho.
  destruct (NewPostgresPenaltyStore c) as [[s|e] w]; eexists; (split; [|done]); [constructor|by apply left_pool_closed].
Qed.

Lemma WithCompositePenaltyStore_has conn addr old :
  match (NewPostgresPenaltyStore (default_postgres_penalty conn)).1 with
  | Err e => has_penalty (Err e) old (WithCompositePenaltyStore conn addr old)
  | Ok pg => exists r, made_redis (default_redis_penalty addr) (fun red => PenComposite (NewCompositePenaltyStore pg red)) = Some r
      /\ has_penalty r old (WithCompositePenaltyStore conn addr old)
  end.
Proof.
  unfold WithCompositePenaltyStore, made_redis. set (c := default_postgres_penalty conn). set (c' := default_redis_penalty addr).
  pose proof (NewPostgresPenaltyStore_open c) as Ho. destruct (NewPostgresPenaltyStore c) as [[pg|e] w]; cbn.
  - pose proof (NewRedisPenaltyStore_open c') as Hr. destruct (NewRedisPenaltyStore c') as [[[red|e] w']|]; [..|done];
      destruct Hr as [_ Hr]; (eexists; split; [reflexivity|]); eexists; (split; [|done]).
    + constructor.
    + repeat constructor; [apply open_PgClose|done].
  - eexists. split; [by apply left_pool_closed|done].
Qed.

(** C11: making a store, however deep its hybrid stores are nested, panics only
    when a Redis configuration in it has a pool size that is negative or does
    not fit 32 bits, which [redis.NewClient] does not take (and which
    [WithRedisStore] and [WithRedisPenaltyStore] then pass on, in these cases
    only).  Otherwise no connection is left behind: a store that is returned
    has all its connections open, and every other connection that was opened on
    the way, by the stores that could not be made and by the primary of a hybrid
    store whose cache failed, is closed (the factories that the user registered
    are assumed to do the same, and his stores to close without a panic).  So
    each option that opens a score store leaves the engine with the store it
    opened, or when that failed with one in memory; and each option that opens a
    penalty store leaves the one it opened, or when that failed the one that was
    configured before. *)
Theorem store_setup_tidy (custom : factories) :
  tidy_factories custom ->
  (forall config, config_ok config = true -> tidy (NewStore custom config))
  /\ (forall addr opts, let c := foldl redis_option (default_redis_config addr) opts in
        if redis_config_ok c then has_store (redis_factory c) (WithRedisStore addr opts)
        else WithRedisStore (P := P) (U := U) addr opts = None)
  /\ (forall conn opts, has_store (postgres_factory (foldl postgres_option (default_postgres_config conn) opts)) (WithPostgresStore conn opts))
  /\ (forall conn addr opts,
        let config := {| stc_Type := StoreTypeHybrid; stc_Redis := None; stc_Postgres := None;
                         stc_Hybrid := Some (foldl hybrid_option (default_hybrid_config conn addr) opts) |} in
        config_ok config = true -> has_store (NewStore custom config) (WithHybridStore custom conn addr opts))
  /\ (forall config, config_ok config = true -> has_store (NewStore custom config) (WithStoreConfig custom config))
  /\ (forall addr opts old, let c := foldl (fun c o => o c) (default_redis_penalty addr) opts in
        match made_redis c PenRedis with
        | Some r => redis_penalty_config_ok c = true /\ has_penalty r old (WithRedisPenaltyStore addr opts old)
        | None => redis_penalty_config_ok c = false /\ WithRedisPenaltyStore (U := U) addr opts old = None
        end)
  /\ (forall conn opts old,
        has_penalty (match (NewPostgresPenaltyStore (foldl (fun c o => o c) (default_postgres_penalty conn) opts)).1 with
                     | Ok s => Ok (PenPostgres s) | Err e => Err e end) old (WithPostgresPenaltyStore conn opts old))
  /\ (forall conn addr old,
        match (NewPostgresPenaltyStore (default_postgres_penalty conn)).1 with
        | Err e => has_penalty (Err e) old (WithCompositePenaltyStore conn addr old)
        | Ok pg => exists r,
            made_redis (default_redis_penalty addr) (fun red => PenComposite (NewCompositePenaltyStore pg red)) = Some r
            /\ has_penalty r old (WithCompositePenaltyStore conn addr old)
        end).
Proof.
  intros Hcustom. split_and!; intros.
  - by apply NewStore_tidy.
  - unfold WithRedisStore. fold c. pose proof (redis_factory_tidy c) as Ht. destruct (redis_config_ok c); [by apply or_memory_has|].
    by rewrite Ht.
  - apply or_memory_has, postgres_factory_tidy.
  - by apply or_memory_has, NewStore_tidy.
  - by apply or_memory_has, NewStore_tidy.
  - pose proof (WithRedisPenaltyStore_has addr opts old) as Hh. fold c in Hh. pose proof (made_redis_open c PenRedis) as Ho.
    by destruct (made_redis c PenRedis).
  - apply WithPostgresPenaltyStore_has.
  - apply WithCompositePenaltyStore_has.
Qed.
End connections.

(** A Redis that nobody answers at, and a PostgreSQL that answers; all that is
    kept of them is whether they are connected. *)
Definition dead_redis : RedisClient bool := {|
  redis_NewClient o := if sizes_ok (ro_PoolSize o) (ro_MinIdleConns o) then Some true else None;
  redis_Ping w := (Err (errOther "connection refused"), w);
  redis_Close w := (Ok tt, false);
  redis_Get _ w := (RErr (errOther "connection refused"), w);
  redis_Set _ _ _ w := (Err (errOther "connection refused"), w);
  redis_SetNX _ _ _ w := (RErr (errOther "connection refused"), w);
  redis_Del _ w := (Err (errOther "connection refused"), w);
  redis_Scan _ _ _ w := (Err (errOther "connection refused"), w);
  redis_MGet _ w := (Err (errOther "connection refused"), w);
  redis_LRange _ _ _ w := (RErr (errOther "connection refused"), w);
  redis_Exec _ w := (Err (errOther "connection refused"), w);
  redis_Publish _ _ w := w;
  redis_Eval _ _ _ w := w;
  redis_scan_bound _ := 1%nat
|}.

Program Definition dead_redis_open : @RedisOpen bool dead_redis := {| redis_open w := w |}.
Next Obligation. intros o. cbn. by destruct (sizes_ok _ _). Qed.
Solve All Obligations with done.

Definition idle_postgres : PgPool bool := {|
  pg_config := unit;
  pg_ParseConfig _ := Ok tt;
  pg_NewWithConfig _ _ := Ok true;
  pg_Ping w := (Ok tt, w);
  pg_Close _ := false;
  pg_Exec _ _ w := (Ok tt, w);
  pg_QueryRow _ _ w := (RNil, w);
  pg_Query _ _ w := (Ok ([], None), w);
  pg_Begin w := (Ok tt, w);
  pg_TxExec _ _ w := (Ok tt, w);
  pg_Commit w := (Ok tt, w);
  pg_Rollback w := w;
  pg_scan_error := errOther "cannot scan"
|}.

Program Definition idle_postgres_open : @PgOpen bool idle_postgres := {| pg_open w := w |}.
Next Obligation. by intros c l w [= <-]. Qed.
Solve All Obligations with done.

(** The hybrid store of [WithHybridStore] on the two: the primary is opened and
    closed again, and the engine gets a store in memory. *)
Lemma store_setup_tidy_witness :
  let _ := dead_redis in let _ := idle_postgres in let _ := dead_redis_open in let _ := idle_postgres_open in
  let _ := canonical_range in let _ := utc_zone in let _ := plain_json_errors in let _ := demo_partial in
  has_store (R := bool) (P := bool) (U := MemoryStore)
    (NewStore ∅ {| stc_Type := StoreTypeHybrid; stc_Redis := None; stc_Postgres := None;
                   stc_Hybrid := Some (default_hybrid_config "postgres://localhost" "localhost:6379") |})
    (WithHybridStore ∅ "postgres://localhost" "localhost:6379" [])
  /\ match WithHybridStore (R := bool) (P := bool) (U := MemoryStore) ∅ "postgres://localhost" "localhost:6379" [] with
     | Some (Some s, l) => as_shape s = ShMemory /\ length l = 2%nat
     | _ => False
     end
  /\ WithRedisStore (R := bool) (P := bool) (U := MemoryStore) "localhost:6379" [RedisPoolSize (-1)] = None.
Proof.
  intros DR IP DO IO M Z J Pa.
  assert (forall u : MemoryStore, exists r u', store_Close u = Some (r, u')) as Hclose by (intros u; by repeat eexists).
  destruct (store_setup_tidy (R := bool) (P := bool) (U := MemoryStore) Hclose ∅ (map_Forall_empty _)) as (_ & Hredis & _ & Hhybrid & _).
  split; [by apply (Hhybrid "postgres://localhost" "localhost:6379" [])%string|].
  split; [vm_compute; split; reflexivity|]. by apply (Hredis "localhost:6379" [RedisPoolSize (-1)])%string.
Defined.
