(* ===== verification/Recorders.v ===== *)
(** * Metrics recorders

    [scoring/metrics/metrics.go], [otel/otel.go] and [prometheus/prometheus.go]:
    the recorders a program can give to the engine, as functions of the calls
    they receive (the [metric] of [Store]).

    The meters of OpenTelemetry and the vectors of Prometheus are third-party
    code: what the recorders do with them is a list of calls, and whether an
    instrument can be created is a parameter. *)

From S2P Require Import Prelude GoInt GoFloat GoString Store.

(** ** Labels and instruments *)

Definition ScoreTypeBase : string := "base".
Definition ScoreTypeHealth : string := "health_penalty".
Definition ScoreTypeLatency : string := "latency_penalty".
Definition ScoreTypeError : string := "error_penalty".
Definition ScoreTypeRateLimit : string := "rate_limit_penalty".
Definition ScoreTypeEffective : string := "effective".

Definition LabelProvider : string := "provider".
Definition LabelOperation : string := "operation".
Definition LabelEventType : string := "event_type".
Definition LabelScoreType : string := "score_type".
Definition LabelStore : string := "store".
Definition LabelSuccess : string := "success".
Definition LabelCacheHit : string := "hit".

Inductive gauge := GaugeScore | GaugeEffective | GaugeRank | GaugeProviders.
Inductive instrument := EventsCounter | LatencyHistogram | StoreOpsCounter | StoreLatencyHist | CacheHitsCounter.

(** One more, or a sample. *)
Inductive measurement := Inc | Observe (x : f64).

#[global] Instance gauge_eq_dec : EqDecision gauge.
Proof. solve_decision. Defined.

(** [d.Seconds()]. *)
Definition duration_seconds (d : Duration) : f64 :=
  f64_add (f64_of_Z (Z.quot d Second)) (f64_div (f64_of_Z (Z.rem d Second)) (f64_of_Z 1000000000)).

(** ** No recorder *)

Definition NoOpRecorder (m : metric) : unit := tt.

(** ** OpenTelemetry *)

Inductive attr := AString (key value : string) | ABool (key : string) (value : bool).

Record OtelConfig := { oc_MeterName : string; oc_MeterProvider : option string }.

Definition otel_DefaultConfig : OtelConfig := {| oc_MeterName := "chainkit.scoring"; oc_MeterProvider := None |}.

(** [or_calls] are the calls on the counters and histograms. *)
Record OtelRecorder := {
  or_scores : gmap string (gmap string f64);
  or_effectiveScores : gmap string f64;
  or_providerRanks : gmap string Z;
  or_totalProviders : Z;
  or_calls : list (instrument * list attr * measurement)
}.

Definition otel_instruments : list string := [
  "chainkit.scoring.score"; "chainkit.scoring.effective_score"; "chainkit.scoring.provider_rank";
  "chainkit.scoring.providers_total"; "chainkit.scoring.events_total"; "chainkit.scoring.latency_seconds";
  "chainkit.scoring.store_operations_total"; "chainkit.scoring.store_latency_seconds";
  "chainkit.scoring.cache_hits_total"]%string.

(** [meter provider name instrument]: the creation of an instrument, by the meter
    of a provider, the global one when it is nil. *)
Definition otel_NewRecorder (meter : option string -> string -> string -> result unit) (config : OtelConfig)
    : result OtelRecorder :=
  let name := if bool_decide (oc_MeterName config = ""%string) then "chainkit.scoring"%string else oc_MeterName config in
  match foldl (fun r i => match r with Ok _ => meter (oc_MeterProvider config) name i | Err e => Err e end) (Ok tt) otel_instruments with
  | Err e => Err e
  | Ok _ => Ok {| or_scores := ∅; or_effectiveScores := ∅; or_providerRanks := ∅; or_totalProviders := 0; or_calls := [] |}
  end.

Definition otel_call (i : instrument) (attrs : list attr) (m : measurement) (r : OtelRecorder) : OtelRecorder :=
  {| or_scores := or_scores r; or_effectiveScores := or_effectiveScores r; or_providerRanks := or_providerRanks r;
     or_totalProviders := or_totalProviders r; or_calls := or_calls r ++ [(i, attrs, m)] |}.

Definition otel_record (r : OtelRecorder) (m : metric) : OtelRecorder :=
  match m with
  | RecordScoreChange provider scoreType _ newValue =>
      {| or_scores := <[provider := <[scoreType := newValue]> (default ∅ (or_scores r !! provider))]> (or_scores r);
         or_effectiveScores := or_effectiveScores r; or_providerRanks := or_providerRanks r;
         or_totalProviders := or_totalProviders r; or_calls := or_calls r |}
  | RecordEffectiveScore provider score =>
      {| or_scores := or_scores r; or_effectiveScores := <[provider := score]> (or_effectiveScores r);
         or_providerRanks := or_providerRanks r; or_totalProviders := or_totalProviders r; or_calls := or_calls r |}
  | RecordEventMetric provider eventType success =>
      otel_call EventsCounter [AString LabelProvider provider; AString LabelEventType eventType; ABool LabelSuccess success] Inc r
  | RecordLatencyMetric provider operation d =>
      otel_call LatencyHistogram [AString LabelProvider provider; AString LabelOperation operation] (Observe (duration_seconds d)) r
  | RecordStoreOperation store operation d err =>
      otel_call StoreLatencyHist [AString LabelStore store; AString LabelOperation operation] (Observe (duration_seconds d))
        (otel_call StoreOpsCounter
           [AString LabelStore store; AString LabelOperation operation; ABool LabelSuccess (bool_decide (err = None))] Inc r)
  | RecordCacheHit store hit => otel_call CacheHitsCounter [AString LabelStore store; ABool LabelCacheHit hit] Inc r
  | RecordProviderRank provider rank totalProviders =>
      {| or_scores := or_scores r; or_effectiveScores := or_effectiveScores r;
         or_providerRanks := <[provider := rank]> (or_providerRanks r); or_totalProviders := totalProviders;
         or_calls := or_calls r |}
  end.

Section observe.
Context `{MapRange}.

(** The callbacks the SDK runs when it collects. *)
Definition observeScores (r : OtelRecorder) : list (f64 * list attr) :=
  range_kv (or_scores r) ≫= fun '(provider, scoresByType) =>
    (fun '(scoreType, value) => (value, [AString LabelProvider provider; AString LabelScoreType scoreType])) <$> range_kv scoresByType.

Definition observeEffectiveScores (r : OtelRecorder) : list (f64 * list attr) :=
  (fun '(provider, score) => (score, [AString LabelProvider provider])) <$> range_kv (or_effectiveScores r).

Definition observeProviderRanks (r : OtelRecorder) : list (Z * list attr) :=
  (fun '(provider, rank) => (rank, [AString LabelProvider provider])) <$> range_kv (or_providerRanks r).

Definition observeTotalProviders (r : OtelRecorder) : Z := or_totalProviders r.
End observe.

(** ** Prometheus *)

Record PromConfig := {
  pmc_Namespace : string;
  pmc_Subsystem : string;
  pmc_Registry : option string;
  pmc_LatencyBuckets : list f64
}.

Definition defaultBuckets : list f64 := [
  f64_const 1 1000; f64_const 5 1000; f64_const 1 100; f64_const 25 1000; f64_const 5 100; f64_const 1 10;
  f64_const 25 100; f64_const 5 10; f64_of_Z 1; f64_const 25 10; f64_of_Z 5; f64_of_Z 10].

Definition DefaultRegisterer : string := "default".

Definition prom_DefaultConfig : PromConfig := {|
  pmc_Namespace := "chainkit"; pmc_Subsystem := "scoring"; pmc_Registry := Some DefaultRegisterer;
  pmc_LatencyBuckets := defaultBuckets |}.

Definition prom_defaults (config : PromConfig) : PromConfig := {|
  pmc_Namespace := if bool_decide (pmc_Namespace config = ""%string) then "chainkit" else pmc_Namespace config;
  pmc_Subsystem := if bool_decide (pmc_Subsystem config = ""%string) then "scoring" else pmc_Subsystem config;
  pmc_Registry := Some (default DefaultRegisterer (pmc_Registry config));
  pmc_LatencyBuckets := match pmc_LatencyBuckets config with [] => defaultBuckets | l => l end |}.

(** Names and labels, in the order they are registered in. *)
Definition prom_metrics : list (string * list string) := [
  ("score", [LabelProvider; LabelScoreType]); ("effective_score", [LabelProvider]);
  ("events_total", [LabelProvider; LabelEventType; LabelSuccess]); ("latency_seconds", [LabelProvider; LabelOperation]);
  ("provider_rank", [LabelProvider]); ("providers_total", []);
  ("store_operations_total", [LabelStore; LabelOperation; LabelSuccess]);
  ("store_latency_seconds", [LabelStore; LabelOperation]); ("cache_hits_total", [LabelStore; LabelCacheHit])]%string.

Inductive prom_call :=
  | PromSet (g : gauge) (labels : list string) (x : f64)
  | PromMeasure (i : instrument) (labels : list string) (m : measurement).

(** [register registry name] registers a metric in a registry, or panics in
    [promauto] when it cannot. *)
Definition prom_NewRecorder (register : string -> string -> bool) (config : PromConfig) : go (list prom_call) :=
  let config := prom_defaults config in
  let full name := (pmc_Namespace config +:+ "_" +:+ pmc_Subsystem config +:+ "_" +:+ name)%string in
  if forallb (fun m => register (default DefaultRegisterer (pmc_Registry config)) (full m.1)) prom_metrics
  then Some [] else None.

Definition boolLabel (v : bool) : string := if v then "true" else "false".

Definition prom_record (log : list prom_call) (m : metric) : list prom_call :=
  log ++
  match m with
  | RecordScoreChange provider scoreType _ newValue => [PromSet GaugeScore [provider; scoreType] newValue]
  | RecordEffectiveScore provider score => [PromSet GaugeEffective [provider] score]
  | RecordEventMetric provider eventType success => [PromMeasure EventsCounter [provider; eventType; boolLabel success] Inc]
  | RecordLatencyMetric provider operation d =>
      [PromMeasure LatencyHistogram [provider; operation] (Observe (duration_seconds d))]
  | RecordStoreOperation store operation d err =>
      [PromMeasure StoreOpsCounter [store; operation; boolLabel (bool_decide (err = None))] Inc;
       PromMeasure StoreLatencyHist [store; operation] (Observe (duration_seconds d))]
  | RecordCacheHit store hit => [PromMeasure CacheHitsCounter [store; boolLabel hit] Inc]
  | RecordProviderRank provider rank totalProviders =>
      [PromSet GaugeRank [provider] (f64_of_Z rank); PromSet GaugeProviders [] (f64_of_Z totalProviders)]
  end.

(** ** The recorders agree *)

(** What a gauge shows: the last value set. *)
Definition gauge_value (g : gauge) (labels : list string) (log : list prom_call) : option f64 :=
  foldl (fun v c => match c with
                    | PromSet g' labels' x => if bool_decide (g' = g /\ labels' = labels) then Some x else v
                    | PromMeasure _ _ _ => v
                    end) None log.

Definition attr_label (a : attr) : string := match a with AString _ v => v | ABool _ b => boolLabel b end.

Definition measures (log : list prom_call) : list (instrument * list string * measurement) :=
  omap (fun c => match c with PromMeasure i l m => Some (i, l, m) | PromSet _ _ _ => None end) log.

Lemma gauge_value_app g labels a b :
  gauge_value g labels (a ++ b)
  = match gauge_value g labels b with Some x => Some x | None => gauge_value g labels a end.
Proof.
  unfold gauge_value. rewrite foldl_app. generalize (foldl (fun v c => match c with
    | PromSet g' labels' x => if bool_decide (g' = g /\ labels' = labels) then Some x else v
    | PromMeasure _ _ _ => v end) None a). intros v.
  induction b as [|c b IH] using rev_ind; [done|]. rewrite !foldl_app, IH. cbn. destruct c; [|done]. by case_bool_decide.
Qed.

(** The state of the OpenTelemetry recorder against the Prometheus log. *)
Record agree_with (r : OtelRecorder) (log : list prom_call) : Prop := {
  ag_scores : forall p t, (or_scores r !! p ≫= fun m => m !! t) = gauge_value GaugeScore [p; t] log;
  ag_effective : forall p, or_effectiveScores r !! p = gauge_value GaugeEffective [p] log;
  ag_ranks : forall p, f64_of_Z <$> (or_providerRanks r !! p) = gauge_value GaugeRank [p] log;
  ag_total : f64_of_Z (or_totalProviders r) = default f64_zero (gauge_value GaugeProviders [] log);
  ag_calls : (fun '(i, attrs, m) => (i, map attr_label attrs, m)) <$> or_calls r = measures log
}.

Lemma gauge_value_none g labels log b :
  gauge_value g labels b = None -> gauge_value g labels (log ++ b) = gauge_value g labels log.
Proof. intros Hb. by rewrite gauge_value_app, Hb. Qed.

Lemma agree_record r log m : agree_with r log -> agree_with (otel_record r m) (prom_record log m).
Proof.
  intros [Hs He Hr Ht Hc].
  assert (forall b, measures (log ++ b) = measures log ++ measures b) as Hm by (intros b; apply omap_app).
  destruct m as [p t old new|p x|p ty ok|p op d|s op d err|s hit|p rank total];
    unfold prom_record; split; cbn [otel_record otel_call or_scores or_effectiveScores or_providerRanks or_totalProviders or_calls];
    intros; rewrite ?Hm, ?fmap_app, ?Hc; try done; try (by rewrite gauge_value_none); try (by rewrite app_nil_r);
    try (by rewrite <-app_assoc).
  - rewrite gauge_value_app. cbn. case_bool_decide as Heq.
    + destruct Heq as [_ [= -> ->]]. rewrite lookup_insert_eq. cbn. by rewrite lookup_insert_eq.
    + rewrite <-Hs. destruct (decide (p0 = p)) as [->|Hne]; [|by rewrite lookup_insert_ne].
      rewrite lookup_insert_eq. cbn. rewrite lookup_insert_ne by (intros ->; by apply Heq). by destruct (or_scores r !! p).
  - rewrite gauge_value_app. cbn. case_bool_decide as Heq.
    + destruct Heq as [_ [= ->]]. by rewrite lookup_insert_eq.
    + rewrite <-He. rewrite lookup_insert_ne; [done|]. intros ->. by apply Heq.
  - rewrite gauge_value_app. cbn.
    rewrite (bool_decide_eq_false_2 (GaugeProviders = GaugeRank /\ _)) by (by intros [? _]). case_bool_decide as Heq.
    + destruct Heq as [_ [= ->]]. by rewrite lookup_insert_eq.
    + rewrite <-Hr. rewrite lookup_insert_ne; [done|]. intros ->. by apply Heq.
  - by rewrite gauge_value_app.
Qed.

Lemma agree_start : agree_with {| or_scores := ∅; or_effectiveScores := ∅; or_providerRanks := ∅; or_totalProviders := 0; or_calls := [] |} [].
Proof. by split. Qed.

Section observations.
Context `{MapRange}.

Lemma elem_of_observe {A} (m : gmap string A) p x :
  (x, [AString LabelProvider p]) ∈ (fun '(provider, a) => (a, [AString LabelProvider provider])) <$> range_kv m <-> m !! p = Some x.
Proof.
  rewrite list_elem_of_fmap. split.
  - intros ([k a] & [= <- <-] & Hk%elem_of_range_kv). exact Hk.
  - intros Hp. exists (p, x). by rewrite elem_of_range_kv.
Qed.

Lemma elem_of_observeRanks r p x :
  x ∈ ((fun '(rank, attrs) => (f64_of_Z rank, attrs)) <$> observeProviderRanks r) /\ x.2 = [AString LabelProvider p]
  <-> exists y, f64_of_Z <$> (or_providerRanks r !! p) = Some y /\ x = (y, [AString LabelProvider p]).
Proof.
  rewrite list_elem_of_fmap. split.
  - intros [([k attrs] & -> & Hin) Hx]. cbn in Hx. subst. apply elem_of_observe in Hin. exists (f64_of_Z k). by rewrite Hin.
  - intros (y & Hy & ->). apply fmap_Some in Hy as (k & Hp & ->). split; [|done].
    exists (k, [AString LabelProvider p]). split; [done|]. by apply elem_of_observe.
Qed.

Lemma elem_of_observeScores r p t x :
  (x, [AString LabelProvider p; AString LabelScoreType t]) ∈ observeScores r <-> (or_scores r !! p ≫= fun m => m !! t) = Some x.
Proof.
  unfold observeScores. rewrite list_elem_of_bind. split.
  - intros ([p' m] & ([t' x'] & [= <- <- <-] & Ht%elem_of_range_kv)%list_elem_of_fmap & Hp%elem_of_range_kv). by rewrite Hp.
  - intros (m & Hp & Ht)%bind_some. exists (p, m). split; [|by apply elem_of_range_kv].
    apply list_elem_of_fmap. exists (t, x). by rewrite elem_of_range_kv.
Qed.

(** Labels made from the keys of a map are all different. *)
Lemma NoDup_labels {A B} (label : string -> list attr) (m : gmap string A) (f : string * A -> B * list attr) :
  (forall k k', label k = label k' -> k = k') -> (forall kv, (f kv).2 = label kv.1) -> NoDup (f <$> range_kv m).*2.
Proof.
  intros Hinj Hf. rewrite <-list_fmap_compose. erewrite (list_fmap_ext _ (label ∘ fst)) by (intros _ kv _; apply Hf).
  rewrite list_fmap_compose. apply NoDup_fmap_2; [exact Hinj|apply range_kv_nodup].
Qed.

Lemma NoDup_observeScores r : NoDup (observeScores r).*2.
Proof.
  unfold observeScores. pose proof (range_kv_nodup (or_scores r)) as Hnd.
  induction (range_kv (or_scores r)) as [|[p m] l IH]; [constructor|]. cbn [fmap list_fmap fst] in Hnd. apply NoDup_cons in Hnd as [Hp Hnd].
  cbn [mbind list_bind]. rewrite fmap_app. apply NoDup_app. split_and!.
  - apply (NoDup_labels (fun t => [AString LabelProvider p; AString LabelScoreType t])); [by intros ?? [=]|by intros []].
  - intros a ([x a'] & -> & ([t y] & [= <- ->] & _)%list_elem_of_fmap)%list_elem_of_fmap
      ([x2 a2] & Ha & ([p2 m2] & ([t2 y2] & [= <- ->] & _)%list_elem_of_fmap & Hin)%list_elem_of_bind)%list_elem_of_fmap.
    cbn in Ha. injection Ha as <- <-. apply Hp. apply list_elem_of_fmap. by exists (p, m2).
  - by apply IH.
Qed.
End observations.

(** C38: after any sequence of calls the two recorders show the same: what an
    OpenTelemetry collection observes is, for every gauge and every provider,
    the last value Prometheus was given for these labels, each set of labels
    once; and the counters and histograms of both received the same
    measurements in the same order. *)
Theorem recorders_agree `{MapRange} meter config register pconfig r log0 l :
  otel_NewRecorder meter config = Ok r -> prom_NewRecorder register pconfig = Some log0 ->
  let r := foldl otel_record r l in
  let log := foldl prom_record log0 l in
  (forall p t x, (x, [AString LabelProvider p; AString LabelScoreType t]) ∈ observeScores r <-> gauge_value GaugeScore [p; t] log = Some x)
  /\ (forall p x, (x, [AString LabelProvider p]) ∈ observeEffectiveScores r <-> gauge_value GaugeEffective [p] log = Some x)
  /\ (forall p x, x ∈ (fun '(rank, attrs) => (f64_of_Z rank, attrs)) <$> observeProviderRanks r /\ x.2 = [AString LabelProvider p]
        <-> exists y, gauge_value GaugeRank [p] log = Some y /\ x = (y, [AString LabelProvider p]))
  /\ f64_of_Z (observeTotalProviders r) = default f64_zero (gauge_value GaugeProviders [] log)
  /\ NoDup (observeScores r).*2 /\ NoDup (observeEffectiveScores r).*2 /\ NoDup (observeProviderRanks r).*2
  /\ (fun '(i, attrs, m) => (i, map attr_label attrs, m)) <$> or_calls r = measures log.
Proof.
  unfold otel_NewRecorder, prom_NewRecorder. intros Hr Hlog.
  destruct (foldl _ (Ok tt) _); [|done]. destruct (forallb _ _); [|done]. injection Hr as <-. injection Hlog as <-.
  pose proof agree_start as Hag. revert Hag. generalize (@nil prom_call) as log0.
  generalize ({| or_scores := ∅; or_effectiveScores := ∅; or_providerRanks := ∅; or_totalProviders := 0; or_calls := [] |}) as r0.
  intros r0 log0 Hag. assert (agree_with (foldl otel_record r0 l) (foldl prom_record log0 l)) as Hl.
  { clear - Hag. revert r0 log0 Hag. induction l as [|m l IH]; intros r0 log0 Hag; [done|]. cbn. by apply IH, agree_record. }
  cbv zeta. revert Hl. generalize (foldl otel_record r0 l), (foldl prom_record log0 l). clear.
  intros r log [Hs He Hr Ht Hc]. split_and!; [..|done].
  - intros p t x. rewrite <-Hs. apply elem_of_observeScores.
  - intros p x. rewrite <-He. apply elem_of_observe.
  - intros p x. rewrite <-Hr. apply elem_of_observeRanks.
  - exact Ht.
  - apply NoDup_observeScores.
  - apply (NoDup_labels (fun p => [AString LabelProvider p])); [by intros ?? [=]|by intros []].
  - apply (NoDup_labels (fun p => [AString LabelProvider p])); [by intros ?? [=]|by intros []].
Qed.

Lemma recorders_agree_witness :
  let _ := canonical_range in
  let l := [RecordEffectiveScore "tatum" f64_one; RecordProviderRank "tatum" 1 2; RecordCacheHit "hybrid" true;
            RecordEffectiveScore "tatum" f64_zero]%string in
  let r := foldl otel_record {| or_scores := ∅; or_effectiveScores := ∅; or_providerRanks := ∅; or_totalProviders := 0; or_calls := [] |} l in
  observeEffectiveScores r = [(f64_zero, [AString LabelProvider "tatum"])]
  /\ gauge_value GaugeEffective ["tatum"]%string (foldl prom_record [] l) = Some f64_zero.
Proof.
  intros M l r. split; [vm_compute; reflexivity|].
  apply (recorders_agree (fun _ _ _ => Ok tt) otel_DefaultConfig (fun _ _ => true) prom_DefaultConfig
    {| or_scores := ∅; or_effectiveScores := ∅; or_providerRanks := ∅; or_totalProviders := 0; or_calls := [] |} [] l eq_refl eq_refl).
  vm_compute. left.
Defined.
