(* ===== verification/StoreCompose.v ===== *)
(** * The stores put together

    What the option [WithHybridStore] of [scoring/options.go] leaves in the
    configuration: PostgreSQL behind a Redis cache, or memory when one of the
    two cannot be opened ([Registry]).  Over the promises of the servers
    ([PostgresLaws], [RedisLaws]) it is one map, through the laws of [Hybrid]. *)

From S2P Require Import Prelude GoInt GoFloat GoString GoCodec GoJson GoDecode GoTime GoHttp Store StoreJson Hybrid.
From S2P Require Import Redis RedisLaws RedisToy RedisProps Postgres PostgresLaws PostgresProps Registry.



Section compose.
Context {R P U : Type} `{RedisLaws R, PgAnswers P, US : ScoreStore U, Zone, JsonErrors, JsonPartial, MapRange}.

Abbreviation any := (any_store (R := R) (P := P) (U := U)).

(** ** Calls through the interface *)



(** ** What a database holds *)









End compose.


