(* ===== verification/Selection.v ===== *)
(** * Selection strategies

    [selection_strategy.go]: the order in which the available providers are
    tried.  [failureInfo] is the part of [manager.go] the least-loaded strategy
    reads; it shares the manager's map, so the map is an argument.  The adaptive
    strategy asks the scoring engine, known here by its interface
    [ScoringEngine]. *)

From S2P Require Import Prelude GoInt GoFloat GoString Config Sorting Events Scorer.
From S2P Require Import Store Engine EngineInv.

(** ** What the manager needs of a scoring engine *)

Class ScoringEngine (E : Type) := {
  se_RecordEvent : ScoreEvent -> clock -> E -> go E;
  se_GetEffectiveScore : string -> E -> f64;
  se_RegisterProvider : string -> Z -> Time -> E -> E;
  se_Reset : (string -> Time) -> E -> E
}.

(** The engine accepts [n] events without a panic while [n] is small, and its
    scores can be compared. *)
Class ScoringEngineLaws (E : Type) `{ScoringEngine E} := {
  se_ok : Z -> E -> Prop;
  se_ok_mono : forall n n' e, n <= n' -> se_ok n e -> se_ok n' e;
  se_RecordEvent_ok : forall n ev clk e, se_ok n e -> n + 1 < 2 ^ 53 ->
    exists e', se_RecordEvent ev clk e = Some e' /\ se_ok (n + 1) e';
  se_score_ok : forall n e name, se_ok n e -> ~ is_nan (se_GetEffectiveScore name e)
}.

Section engine_instance.
Context {S P : Type} `{GoArch, MapRange}.

#[export] Instance Engine_scoring : ScoringEngine (Engine S P) := {|
  se_RecordEvent := RecordEvent;
  se_GetEffectiveScore := GetEffectiveScore;
  se_RegisterProvider := RegisterProvider;
  se_Reset := Reset
|}.

#[export] Program Instance Engine_scoring_laws : ScoringEngineLaws (Engine S P) := {|
  se_ok := engine_inv
|}.
Next Obligation. intros n n' e Hn []. split; try done. by eapply lt_ok_mono. Qed.
Next Obligation. intros n ev clk e He Hn. by apply RecordEvent_inv. Qed.
Next Obligation.
  intros n e name He. cbn. unfold GetEffectiveScore. destruct (eng_scores e !! name) as [ps|] eqn:E; [|done].
  apply (inv_scores _ _ He) in E as [_ Hwf]. apply f64_nn_notnan, (EffectiveScore_bounds _ _ Hwf).
Qed.
End engine_instance.

(** ** State *)

Record failureInfo := {
  fi_ConsecutiveFailures : Z;
  fi_LastFailureTime : Time;
  fi_IsTemporarilyDown : bool;
  fi_TotalFailures : Z;
  fi_TotalSuccesses : Z;
  fi_LastRetryAttempt : Time;
  fi_RetryCount : Z;
  fi_ConsecutiveAuthFailures : Z
}.

(** [math/rand]: the state of a source and the draws the program makes. *)
Class GoRand := {
  rand_Intn : Z -> Z -> Z * Z;
  rand_Intn_range : forall s n, 0 < n -> 0 <= (rand_Intn s n).1 < n;
  rand_Float64 : Z -> f64 * Z
}.

(** A linear congruential source, for evaluation. *)
Program Definition lcg_rand : GoRand := {|
  rand_Intn s n := (s mod n, (s * 1103515245 + 12345) mod 2 ^ 31);
  rand_Float64 s := (f64_div (f64_of_Z (s mod 2 ^ 31)) (f64_of_Z (2 ^ 31)), (s * 1103515245 + 12345) mod 2 ^ 31)
|}.
Next Obligation. intros s n Hn. cbn. apply Z.mod_pos_bound. done. Qed.

(** The selector a manager holds; each carries its own state. *)
Inductive selectionStrategy :=
  | priorityOnlySelector
  | roundRobinSelector (priorityIndexes : gmap Z Z)
  | randomSelector (rng : Z)
  | leastLoadedSelector (activeRequests : gmap string Z)
  | adaptiveSelector.

(** [newSelectionStrategy]; [seed] is the clock reading that seeds the source. *)
Definition newSelectionStrategy (strategy : string) (seed : Z) : result selectionStrategy :=
  if bool_decide (strategy = SelectionStrategyPriorityOnly) then Ok priorityOnlySelector
  else if bool_decide (strategy = SelectionStrategyRoundRobin) then Ok (roundRobinSelector ∅)
  else if bool_decide (strategy = SelectionStrategyRandom) then Ok (randomSelector seed)
  else if bool_decide (strategy = SelectionStrategyLeastLoaded) then Ok (leastLoadedSelector ∅)
  else if bool_decide (strategy = SelectionStrategyAdaptive) then Ok priorityOnlySelector
  else Err (errOther ("unknown selection strategy: " +:+ strategy)).

Definition newAdaptiveSelector (hasEngine : bool) : selectionStrategy :=
  if hasEngine then adaptiveSelector else priorityOnlySelector.

(** ** Ordering *)

Section select.
Context {P : Type}.
Abbreviation pcfg := (providerConfig P).

(** The grouping loop: priorities in order of first appearance, and the
    providers of each. *)
Definition group_step (acc : list Z * gmap Z (list pcfg)) (p : pcfg) : list Z * gmap Z (list pcfg) :=
  let '(priorities, groups) := acc in
  match groups !! pc_Priority p with
  | None => (priorities ++ [pc_Priority p], <[pc_Priority p := [p]]> groups)
  | Some g => (priorities, <[pc_Priority p := g ++ [p]]> groups)
  end.

Definition group_providers (available : list pcfg) : list Z * gmap Z (list pcfg) :=
  foldl group_step ([], ∅) available.

(** The loop over the sorted priorities: a singleton group is appended as it
    is, a larger one is ordered by [order], which may use and change [s]. *)
Fixpoint concat_groups {St} (order : Z -> list pcfg -> St -> go (list pcfg * St))
    (groups : gmap Z (list pcfg)) (priorities : list Z) (result : list pcfg) (s : St)
    : go (list pcfg * St) :=
  match priorities with
  | [] => Some (result, s)
  | priority :: priorities =>
      let group := default [] (groups !! priority) in
      if zlen group =? 1 then concat_groups order groups priorities (result ++ group) s
      else
        '(g, s) ← order priority group s;
        concat_groups order groups priorities (result ++ g) s
  end.

Definition select_grouped {St} (order : Z -> list pcfg -> St -> go (list pcfg * St))
    (available : list pcfg) (s : St) : go (list pcfg * St) :=
  if zlen available =? 0 then Some (available, s)
  else
    let '(priorities, groups) := group_providers available in
    concat_groups order groups (sort_ints priorities) [] s.

(** [rotated[i] = group[(currentIndex + i) % len(group)]]. *)
Definition rotate (idx : Z) (group : list pcfg) : go (list pcfg) :=
  currentIndex ← go_rem idx (zlen group);
  mapM (fun i => j ← go_rem (wrap64 (currentIndex + Z.of_nat i)) (zlen group);
                 if j <? 0 then None else group !! Z.to_nat j) (seq 0 (length group)).

(** The Fisher-Yates loop, from the last index down to 1. *)
Definition shuffle_step `{GoRand} (acc : list pcfg * Z) (i : nat) : list pcfg * Z :=
  let '(s, rng) := acc in
  let '(j, rng) := rand_Intn rng (Z.of_nat i + 1) in
  match s !! i, s !! Z.to_nat j with
  | Some x, Some y => (<[Z.to_nat j := x]> (<[i := y]> s), rng)
  | _, _ => (s, rng)
  end.

Definition shuffle `{GoRand} (group : list pcfg) (rng : Z) : list pcfg * Z :=
  foldl shuffle_step (group, rng) (reverse (seq 1 (length group - 1))).

Definition getLoadScore (stats : gmap string Z) (ft : gmap string failureInfo) (name : string) : f64 :=
  let score := f64_zero in
  let score := match stats !! name with
               | Some active => f64_add score (f64_mul (f64_of_Z active) (f64_of_Z 10))
               | None => score
               end in
  match ft !! name with
  | Some failure =>
      let totalRequests := wrap64 (fi_TotalSuccesses failure + fi_TotalFailures failure) in
      let score :=
        if 0 <? totalRequests then
          let failureRate := f64_div (f64_of_Z (fi_TotalFailures failure)) (f64_of_Z totalRequests) in
          f64_add score (f64_mul failureRate (f64_of_Z 100))
        else score in
      f64_add score (f64_mul (f64_of_Z (fi_ConsecutiveFailures failure)) (f64_of_Z 50))
  | None => score
  end.

Context {E : Type} `{ScoringEngine E, GoRand}.

Definition least_loaded_order (stats : gmap string Z) (ft : gmap string failureInfo) (group : list pcfg)
    : list pcfg :=
  exchange_sort (fun x y => f64_gtb (getLoadScore stats ft (pc_Name x)) (getLoadScore stats ft (pc_Name y))) group.

Definition adaptive_order (e : E) (available : list pcfg) : list pcfg :=
  exchange_sort (fun x y => f64_ltb (se_GetEffectiveScore (pc_Name x) e) (se_GetEffectiveScore (pc_Name y) e))
    available.

(** [SelectProviders]. *)
Definition SelectProviders (ft : gmap string failureInfo) (e : E) (available : list pcfg)
    (s : selectionStrategy) : go (list pcfg * selectionStrategy) :=
  match s with
  | priorityOnlySelector => Some (available, s)
  | roundRobinSelector idx =>
      '(l, _) ← select_grouped (fun priority g u =>
                  g ← rotate (default 0 (idx !! priority)) g; Some (g, u)) available tt;
      Some (l, s)
  | randomSelector rng =>
      '(l, rng) ← select_grouped (fun _ g rng => Some (shuffle g rng)) available rng;
      Some (l, randomSelector rng)
  | leastLoadedSelector stats =>
      '(l, _) ← select_grouped (fun _ g u => Some (least_loaded_order stats ft g, u)) available tt;
      Some (l, s)
  | adaptiveSelector => Some (adaptive_order e available, s)
  end.
End select.

Definition RecordAttempt (priority : Z) (s : selectionStrategy) : selectionStrategy :=
  match s with
  | roundRobinSelector idx =>
      roundRobinSelector (<[priority := wrap64 (default 0 (idx !! priority) + 1)]> idx)
  | _ => s
  end.

(** [Reset] of a selector; the adaptive one resets the shared engine. *)
Definition sel_Reset {E} `{ScoringEngine E} (seed : Z) (clk : string -> Time) (s : selectionStrategy) (e : E)
    : selectionStrategy * E :=
  match s with
  | priorityOnlySelector => (s, e)
  | roundRobinSelector _ => (roundRobinSelector ∅, e)
  | randomSelector _ => (randomSelector seed, e)
  | leastLoadedSelector _ => (leastLoadedSelector ∅, e)
  | adaptiveSelector => (s, se_Reset clk e)
  end.

(** ** Grouping *)

Section grouping.
Context {P : Type}.
Implicit Types available : list (providerConfig P).

Definition of_priority (k : Z) available : list (providerConfig P) :=
  filter (fun p => pc_Priority p = k) available.

Lemma group_providers_spec available :
  let '(ps, gs) := group_providers available in
  NoDup ps /\ (forall k, k ∈ ps <-> is_Some (gs !! k))
  /\ forall k, default [] (gs !! k) = of_priority k available /\ (is_Some (gs !! k) <-> of_priority k available <> []).
Proof.
  unfold group_providers. induction available as [|p l IH] using rev_ind.
  { cbn. split_and!; [constructor| |]; intros k; rewrite lookup_empty; [|by split].
    rewrite elem_of_nil. split; [done|]. by intros []. }
  rewrite foldl_app. cbn. destruct (foldl group_step ([], ∅) l) as [ps gs]. destruct IH as (Hnd & Hin & Hg).
  assert (forall k, of_priority k (l ++ [p]) = of_priority k l ++ (if decide (pc_Priority p = k) then [p] else [])) as Hf.
  { intros k. unfold of_priority. rewrite filter_app. cbn. by destruct (decide _). }
  unfold group_step. destruct (gs !! pc_Priority p) as [g|] eqn:E.
  - split_and!; [done| |].
    + intros k. rewrite Hin. destruct (decide (pc_Priority p = k)) as [<-|Hne];
        [by rewrite lookup_insert_eq, E|by rewrite lookup_insert_ne].
    + intros k. rewrite Hf. destruct (Hg k) as [Hgk Hne'].
      destruct (decide (pc_Priority p = k)) as [<-|Hne].
      * rewrite E in Hgk. cbn in Hgk. subst g. rewrite lookup_insert_eq. split; [done|].
        split; [|done]. by intros _ [_ ?]%app_eq_nil.
      * rewrite lookup_insert_ne, app_nil_r by done. by apply Hg.
  - split_and!.
    + apply NoDup_app. split_and!; [done| |apply NoDup_singleton].
      intros k Hk Hk'. apply list_elem_of_singleton in Hk' as ->. apply Hin in Hk. rewrite E in Hk. by destruct Hk.
    + intros k. rewrite elem_of_app, list_elem_of_singleton, Hin.
      destruct (decide (pc_Priority p = k)) as [<-|Hne].
      * rewrite lookup_insert_eq. split; [by eauto|by right].
      * rewrite lookup_insert_ne by done. split; [by intros [? | ->]|by left].
    + intros k. rewrite Hf. destruct (Hg k) as [Hgk Hne'].
      destruct (decide (pc_Priority p = k)) as [<-|Hne].
      * rewrite E in Hgk. cbn in Hgk. rewrite <-Hgk, lookup_insert_eq. done.
      * rewrite lookup_insert_ne, app_nil_r by done. by apply Hg.
Qed.

(** The groups of pairwise different priorities, together, are the list. *)
Lemma groups_perm ks available :
  NoDup ks -> (forall p, p ∈ available -> pc_Priority p ∈ ks) ->
  mjoin ((fun k => of_priority k available) <$> ks) ≡ₚ available.
Proof.
  intros Hnd. revert available. induction Hnd as [|k ks Hk Hnd IH]; intros l Hin.
  { destruct l as [|p l]; [done|]. exfalso. specialize (Hin p ltac:(left)). by apply elem_of_nil in Hin. }
  cbn. assert (forall j, j ∈ ks -> of_priority j l = of_priority j (filter (fun p => pc_Priority p <> k) l)) as Hf.
  { intros j Hj. unfold of_priority. induction l as [|p l IHl]; [done|]. rewrite !filter_cons.
    specialize (IHl ltac:(intros q Hq; apply Hin; by right)).
    destruct (decide (pc_Priority p = j)) as [<-|Hne], (decide (pc_Priority p <> k)) as [Hk'|Hk']; try done.
    - rewrite filter_cons, decide_True by done. by f_equal.
    - exfalso. apply Hk'. intros Heq. apply Hk. by rewrite <-Heq.
    - rewrite filter_cons, decide_False by done. done. }
  etrans; [|apply (filter_app_complement (fun p => pc_Priority p = k) l)]. apply Permutation_app; [done|].
  erewrite (list_fmap_ext _ (fun j => of_priority j (filter (fun p => pc_Priority p <> k) l)));
    [|intros i j Hij; apply Hf; by eapply list_elem_of_lookup_2].
  apply IH. intros p [Hne Hp]%list_elem_of_filter. apply Hin, elem_of_cons in Hp as [|]; done.
Qed.
End grouping.

(** ** The order within a group *)

Section orders.
Context {P : Type}.
Implicit Types g : list (providerConfig P).

Lemma rotation_lookup {A} (l : list A) c i :
  (c < length l)%nat -> (i < length l)%nat ->
  (drop c l ++ take c l) !! i = l !! ((c + i) mod length l)%nat.
Proof.
  intros Hc Hi. destruct (decide (c + i < length l)%nat) as [H|H].
  - rewrite lookup_app_l by (rewrite length_drop; lia). rewrite lookup_drop, Nat.mod_small by lia. done.
  - rewrite lookup_app_r by (rewrite length_drop; lia). rewrite length_drop.
    replace ((c + i) mod length l)%nat with (i - (length l - c))%nat.
    + by rewrite lookup_take_lt by lia.
    + apply (Nat.mod_unique _ _ 1); lia.
Qed.

(** The index loop is a rotation. *)
Lemma rotate_spec idx g :
  0 <= idx -> 0 < zlen g < 2 ^ 62 ->
  rotate idx g = Some (let c := Z.to_nat (idx mod zlen g) in drop c g ++ take c g).
Proof.
  intros Hi Hg. unfold rotate. rewrite go_rem_pos by lia. cbn [mbind option_bind]. cbv zeta.
  pose proof (Z.mod_pos_bound idx (zlen g) ltac:(lia)) as Hm. set (c := idx mod zlen g) in *.
  apply mapM_Some, Forall2_same_length_lookup_2.
  { rewrite length_seq, length_app, length_drop, length_take. unfold zlen in *. lia. }
  intros i k x [Hk Hlt]%lookup_seq. cbn in Hk. subst k. intros Hx.
  rewrite rotation_lookup in Hx by (unfold zlen in *; lia).
  rewrite wrap64_id by (unfold zlen in *; int_range). rewrite go_rem_pos by lia. cbn [mbind option_bind].
  pose proof (Z.mod_pos_bound (c + Z.of_nat i) (zlen g) ltac:(lia)).
  destruct (_ <? 0) eqn:E; [go_lia|]. rewrite <-Hx. f_equal. unfold zlen.
  rewrite Z2Nat.inj_mod, Nat2Z.id, Z2Nat.inj_add, Nat2Z.id by lia. done.
Qed.

Lemma shuffle_step_perm `{GoRand} g rng i : (shuffle_step (g, rng) i).1 ≡ₚ g.
Proof.
  cbn. destruct (rand_Intn rng (Z.of_nat i + 1)) as [j rng'].
  destruct (g !! i) as [x|] eqn:Ei; [|done]. destruct (g !! Z.to_nat j) as [y|] eqn:Ej; [|done].
  by apply Permutation_insert_swap.
Qed.

Lemma shuffle_perm `{GoRand} g rng : (shuffle g rng).1 ≡ₚ g.
Proof.
  unfold shuffle. generalize (reverse (seq 1 (length g - 1))). intros l. revert g rng.
  induction l as [|i l IH]; intros g rng; [done|]. cbn [foldl].
  pose proof (shuffle_step_perm g rng i) as Hp. destruct (shuffle_step (g, rng) i) as [g' rng'].
  by rewrite IH.
Qed.

(** ** Concatenation

    [R k g c]: the group [g] of priority [k] is emitted as [c]. *)
Context {St : Type} (order : Z -> list (providerConfig P) -> St -> go (list (providerConfig P) * St)).
Context (R : Z -> list (providerConfig P) -> list (providerConfig P) -> Prop).

Lemma concat_groups_spec groups ks res s :
  (forall k x, R k [x] [x]) ->
  (forall k s, k ∈ ks -> exists c s', order k (default [] (groups !! k)) s = Some (c, s')
                                   /\ R k (default [] (groups !! k)) c) ->
  exists cs s', concat_groups order groups ks res s = Some (res ++ mjoin cs, s')
    /\ Forall2 (fun k c => R k (default [] (groups !! k)) c) ks cs.
Proof.
  intros H1. revert res s. induction ks as [|k ks IH]; intros res s Ho; cbn [concat_groups].
  { exists [], s. cbn. by rewrite app_nil_r. }
  assert (forall k' s', k' ∈ ks -> exists c s'', order k' (default [] (groups !! k')) s' = Some (c, s'')
    /\ R k' (default [] (groups !! k')) c) as Ho' by (intros; apply Ho; by right).
  destruct (zlen (default [] (groups !! k)) =? 1) eqn:E.
  - destruct (IH (res ++ default [] (groups !! k)) s Ho') as (cs & s' & -> & Hcs).
    exists (default [] (groups !! k) :: cs), s'. rewrite <-app_assoc. split; [done|]. constructor; [|done].
    apply Z.eqb_eq in E. destruct (default [] (groups !! k)) as [|x [|? ?]]; [done|done|].
    rewrite !zlen_cons in E. pose proof (zlen_nonneg l). lia.
  - destruct (Ho k s ltac:(left)) as (c & s1 & -> & Hc). cbn [mbind option_bind].
    destruct (IH (res ++ c) s1 Ho') as (cs & s' & -> & Hcs). exists (c :: cs), s'.
    rewrite <-app_assoc. split; [done|]. by constructor.
Qed.

Definition priorities_of (available : list (providerConfig P)) : list Z :=
  sort_ints (group_providers available).1.

Lemma priorities_of_spec available :
  NoDup (priorities_of available) /\ StronglySorted Z.le (priorities_of available)
  /\ forall p, p ∈ available -> pc_Priority p ∈ priorities_of available.
Proof.
  unfold priorities_of. pose proof (group_providers_spec available) as Hg.
  destruct (group_providers available) as [ps gs]. destruct Hg as (Hnd & Hin & Hg). cbn.
  split_and!; [by rewrite sort_ints_perm|apply sort_ints_sorted|].
  intros p Hp. rewrite sort_ints_perm, Hin. apply Hg. unfold of_priority. intros Hnil.
  assert (p ∈ filter (fun q => pc_Priority q = pc_Priority p) available) as Hpf by (by apply list_elem_of_filter).
  rewrite Hnil in Hpf. by apply elem_of_nil in Hpf.
Qed.

(** The result of a grouped strategy: the groups in ascending priority. *)
Lemma select_grouped_spec available s :
  (forall k x, R k [x] [x]) ->
  (forall k s, of_priority k available <> [] -> exists c s', order k (of_priority k available) s = Some (c, s')
                                   /\ R k (of_priority k available) c) ->
  exists cs s', select_grouped order available s = Some (mjoin cs, s')
    /\ Forall2 (fun k c => R k (of_priority k available) c) (priorities_of available) cs.
Proof.
  intros H1 Ho. unfold select_grouped. destruct (zlen available =? 0) eqn:E.
  { apply Z.eqb_eq, zlen_nil_inv in E as ->. exists [], s. split; [done|]. constructor. }
  unfold priorities_of. pose proof (group_providers_spec available) as Hg.
  destruct (group_providers available) as [ps gs]. destruct Hg as (_ & Hin & Hg). cbn [fst].
  destruct (concat_groups_spec gs (sort_ints ps) [] s) as (cs & s' & -> & Hcs); [done| |].
  - intros k s0. rewrite sort_ints_perm, Hin. destruct (Hg k) as [-> Hne]. intros Hk. by apply Ho, Hne.
  - exists cs, s'. split; [done|]. eapply Forall2_impl; [done|]. cbn. intros k c. by rewrite (proj1 (Hg k)).
Qed.
End orders.

(** Groups emitted as permutations of themselves, in ascending priority, give
    a permutation ordered by priority. *)
Lemma grouped_perm {P} (available : list (providerConfig P)) cs :
  Forall2 (fun k c => c ≡ₚ of_priority k available) (priorities_of available) cs ->
  mjoin cs ≡ₚ available /\ StronglySorted (fun p q => pc_Priority p <= pc_Priority q) (mjoin cs).
Proof.
  intros Hcs. destruct (priorities_of_spec available) as (Hnd & Hs & Hin). split.
  - etrans; [|by apply (groups_perm (priorities_of available))]. clear -Hcs.
    induction Hcs as [|k c ks cs Hc _ IH]; [done|]. cbn. by rewrite Hc, IH.
  - clear Hnd Hin. revert cs Hcs. induction Hs as [|k ks Hs IH Hk]; intros cs Hcs.
    { apply Forall2_nil_inv_l in Hcs as ->. constructor. }
    apply Forall2_cons_inv_l in Hcs as (c & cs' & Hc & Hcs & ->). cbn.
    assert (Forall (fun p => pc_Priority p = k) c) as Hpk.
    { rewrite Hc. unfold of_priority. apply Forall_forall. by intros p [? _]%list_elem_of_filter. }
    assert (Forall (fun p => k <= pc_Priority p) (mjoin cs')) as Hge.
    { clear -Hk Hcs. revert Hk. induction Hcs as [|j c ks cs Hc _ IH]; intros Hk; cbn; [constructor|].
      apply Forall_cons in Hk as [Hj Hk]. apply Forall_app. split; [|by apply IH].
      rewrite Hc. unfold of_priority. apply Forall_forall. by intros p [-> _]%list_elem_of_filter. }
    specialize (IH _ Hcs). clear -Hpk Hge IH. induction Hpk as [|p c Hp Hpk IHc]; [done|]. cbn.
    constructor; [done|]. apply Forall_app. rewrite Hp. split; [|done].
    eapply Forall_impl; [done|]. cbn. lia.
Qed.

(** Selecting one priority out of the concatenation gives its chunk. *)
Lemma of_priority_same {P} k (c : list (providerConfig P)) g : c ≡ₚ of_priority k g -> of_priority k c = c.
Proof.
  intros Hc. unfold of_priority. apply filter_keep_all. rewrite Hc.
  apply Forall_forall. by intros p [? _]%list_elem_of_filter.
Qed.

Lemma of_priority_other {P} k j (c : list (providerConfig P)) g :
  j <> k -> c ≡ₚ of_priority j g -> of_priority k c = [].
Proof.
  intros Hne Hc. unfold of_priority. apply filter_drop_all. rewrite Hc.
  apply Forall_forall. by intros p [-> _]%list_elem_of_filter.
Qed.

Lemma of_priority_app {P} k (a b : list (providerConfig P)) :
  of_priority k (a ++ b) = of_priority k a ++ of_priority k b.
Proof. apply filter_app. Qed.

Lemma of_priority_chunk {P} (available : list (providerConfig P)) ks cs k (Q : Z -> list (providerConfig P) -> Prop) :
  NoDup ks -> k ∈ ks ->
  Forall2 (fun k c => c ≡ₚ of_priority k available /\ Q k c) ks cs ->
  of_priority k (mjoin cs) ≡ₚ of_priority k available /\ Q k (of_priority k (mjoin cs)).
Proof.
  intros Hnd Hin Hcs. induction Hcs as [|j c ks cs [Hc HQ] Hcs IH]; [by apply elem_of_nil in Hin|].
  apply NoDup_cons in Hnd as [Hj Hnd]. change (mjoin (c :: cs)) with (c ++ mjoin cs).
  rewrite of_priority_app.
  apply elem_of_cons in Hin as [->|Hin].
  - assert (of_priority j (mjoin cs) = []) as ->.
    { clear -Hj Hcs. induction Hcs as [|i c ks cs [Hc _] Hcs IH]; [done|]. change (mjoin (c :: cs)) with (c ++ mjoin cs).
  rewrite of_priority_app.
      apply not_elem_of_cons in Hj as [Hij Hj].
      by rewrite (of_priority_other j i c available), IH. }
    rewrite app_nil_r, (of_priority_same j c available) by done. done.
  - rewrite (of_priority_other k j c available); [by apply IH|by intros ->|done].
Qed.

Section properties.
Context {P E : Type} `{ScoringEngine E, GoRand}.
Implicit Types available : list (providerConfig P).

(** Round-robin indexes that have not overflowed. *)
Definition sel_ok (s : selectionStrategy) : Prop :=
  match s with
  | roundRobinSelector idx => forall k i, idx !! k = Some i -> 0 <= i
  | _ => True
  end.

Definition grouped (s : selectionStrategy) : bool :=
  match s with
  | roundRobinSelector _ | randomSelector _ | leastLoadedSelector _ => true
  | _ => false
  end.

Lemma of_priority_len k available : zlen (of_priority k available) <= zlen available.
Proof. apply zlen_filter_le. Qed.

(** The round-robin order of a group. *)
Definition rotation (idx : gmap Z Z) (k : Z) (g : list (providerConfig P)) : list (providerConfig P) :=
  let c := Z.to_nat (default 0 (idx !! k) mod zlen g) in drop c g ++ take c g.

Lemma rotation_perm idx k g : rotation idx k g ≡ₚ g.
Proof. unfold rotation. cbv zeta. rewrite Permutation_app_comm. by rewrite take_drop. Qed.

Lemma select_round_robin ft (e : E) idx available :
  (forall k i, idx !! k = Some i -> 0 <= i) -> zlen available < 2 ^ 62 ->
  exists cs, SelectProviders ft e available (roundRobinSelector idx)
             = Some (mjoin cs, roundRobinSelector idx)
    /\ Forall2 (fun k c => c ≡ₚ of_priority k available /\ c = rotation idx k (of_priority k available))
         (priorities_of available) cs.
Proof.
  intros Hidx Hlen.
  destruct (select_grouped_spec (fun priority g (u : unit) =>
    g ← rotate (default 0 (idx !! priority)) g; Some (g, u))
    (fun k g c => c ≡ₚ g /\ c = rotation idx k g) available tt) as (cs & u & Heq & Hcs).
  - intros k x. unfold rotation. cbn [zlen length]. rewrite Z.mod_1_r. done.
  - intros k s Hne. pose proof (of_priority_len k available).
    assert (0 < zlen (of_priority k available)).
    { destruct (of_priority k available); [done|]. rewrite zlen_cons. pose proof (zlen_nonneg l). lia. }
    assert (0 <= default 0 (idx !! k)) by (destruct (idx !! k) eqn:Ei; [by eapply Hidx|done]).
    rewrite rotate_spec by lia.
    eexists _, _. split; [done|]. split; [apply rotation_perm|done].
  - exists cs. split; [|done]. cbn. by rewrite Heq.
Qed.

Lemma select_perm_all ft (e : E) available s :
  sel_ok s -> zlen available < 2 ^ 62 ->
  exists l s', SelectProviders ft e available s = Some (l, s') /\ sel_ok s'
    /\ l ≡ₚ available
    /\ (grouped s = true -> StronglySorted (fun p q => pc_Priority p <= pc_Priority q) l).
Proof.
  intros Hs Hlen. destruct s as [|idx|rng|stats|].
  - by exists available, priorityOnlySelector.
  - destruct (select_round_robin ft e idx available Hs Hlen) as (cs & Heq & Hcs).
    rewrite Heq. eexists _, _. split; [done|]. split; [done|].
    destruct (grouped_perm available cs) as [Hp Hsort]; [|done].
    eapply Forall2_impl; [done|]. by intros k c [? _].
  - destruct (select_grouped_spec (fun _ g rng => Some (shuffle g rng))
      (fun k g c => c ≡ₚ g) available rng) as (cs & rng' & Heq & Hcs); [done| |].
    + intros k r _. destruct (shuffle (of_priority k available) r) as [c r'] eqn:Es.
      eexists _, _. split; [done|]. rewrite <-(shuffle_perm (of_priority k available) r), Es. done.
    + cbn. rewrite Heq. eexists _, _. split; [done|]. split; [done|].
      by destruct (grouped_perm available cs).
  - destruct (select_grouped_spec (fun _ g (u : unit) => Some (least_loaded_order stats ft g, u))
      (fun k g c => c ≡ₚ g) available tt) as (cs & u & Heq & Hcs); [done| |].
    + intros k u _. eexists _, _. split; [done|]. apply exchange_sort_perm.
    + cbn. rewrite Heq. eexists _, _. split; [done|]. split; [done|].
      by destruct (grouped_perm available cs).
  - eexists _, _. split; [done|]. split; [done|]. split; [apply exchange_sort_perm|done].
Qed.

(** C30: whatever the strategy and its state, selection returns a permutation
    of the available providers, no provider lost or duplicated, and the
    round-robin, random and least-loaded strategies list it in ascending
    priority; it panics only when a round-robin counter has overflowed. *)
Theorem SelectProviders_perm ft (e : E) available s :
  sel_ok s -> zlen available < 2 ^ 62 ->
  exists l s', SelectProviders ft e available s = Some (l, s') /\ sel_ok s'
    /\ l ≡ₚ available
    /\ (grouped s = true -> StronglySorted (fun p q => pc_Priority p <= pc_Priority q) l).
Proof. apply select_perm_all. Qed.

(** The adaptive strategy, over an engine whose scores are comparable,
    orders the available providers by descending effective score. *)
Theorem adaptive_descending `{!ScoringEngineLaws E} n (e : E) available :
  se_ok n e ->
  StronglySorted (fun p q => f64_le (se_GetEffectiveScore (pc_Name q) e) (se_GetEffectiveScore (pc_Name p) e))
    (adaptive_order e available).
Proof.
  intros He. apply (exchange_sort_scores (fun p => se_GetEffectiveScore (pc_Name p) e)).
  apply Forall_forall. intros p _. by eapply se_score_ok.
Qed.
End properties.

(** ** Fairness of the round robin *)

Lemma iter_RecordAttempt k j idx :
  Z.of_nat j + default 0 (idx !! k) <= max_int64 -> 0 <= default 0 (idx !! k) ->
  exists idx', Nat.iter j (RecordAttempt k) (roundRobinSelector idx) = roundRobinSelector idx'
    /\ default 0 (idx' !! k) = default 0 (idx !! k) + Z.of_nat j
    /\ forall k', k' <> k -> idx' !! k' = idx !! k'.
Proof.
  intros Hj H0. induction j as [|j IH].
  { exists idx. split_and!; [done|lia|done]. }
  destruct IH as (idx' & Heq & Hk & Hne); [lia|]. rewrite Nat.iter_succ, Heq. cbn. eexists. split; [done|].
  rewrite lookup_insert_eq. cbn. rewrite Hk. split; [rewrite wrap64_id by int_range; lia|].
  intros k' Hk'. by rewrite lookup_insert_ne, Hne.
Qed.

(** C31: with a fixed set of available providers, the round robin puts every
    provider of a priority class first exactly once in any run of as many
    selections as the class has members, each selection being followed by one
    recorded attempt of that class. *)
Theorem round_robin_fair {P E} `{ScoringEngine E, GoRand} ft (e : E)
    (available : list (providerConfig P)) idx k :
  let n := length (of_priority k available) in
  (forall k i, idx !! k = Some i -> 0 <= i) -> zlen available < 2 ^ 62 ->
  default 0 (idx !! k) + Z.of_nat n <= max_int64 ->
  exists firsts,
    Forall2 (fun j p => exists l s',
      SelectProviders ft e available (Nat.iter j (RecordAttempt k) (roundRobinSelector idx)) = Some (l, s')
      /\ head (of_priority k l) = Some p) (seq 0 n) firsts
    /\ firsts ≡ₚ of_priority k available.
Proof.
  intros n Hidx Hlen Hov. set (g := of_priority k available) in *.
  exists (rotation idx k g). split; [|apply rotation_perm].
  apply Forall2_same_length_lookup_2.
  { rewrite length_seq. by rewrite (rotation_perm idx k g). }
  intros j j' p [Hj' Hj]%lookup_seq Hp. cbn in Hj'. subst j'.
  assert (0 <= default 0 (idx !! k)) as Hi0 by (destruct (idx !! k) eqn:Ei; [by eapply Hidx|done]).
  destruct (iter_RecordAttempt k j idx) as (idx' & -> & Hk & Hne); [lia|done|].
  destruct (select_round_robin ft e idx' available) as (cs & -> & Hcs); [|done|].
  { intros k' i Hi. destruct (decide (k' = k)) as [->|Hk']; [rewrite Hi in Hk; cbn in Hk; lia|].
    rewrite Hne in Hi by done. by eapply Hidx. }
  eexists _, _. split; [done|].
  assert (k ∈ priorities_of available) as Hin.
  { destruct (priorities_of_spec available) as (_ & _ & Hin).
    destruct g as [|q g'] eqn:Eg; [cbn in n; lia|].
    assert (q ∈ of_priority k available) as [<- Hq]%list_elem_of_filter by (fold g; rewrite Eg; left).
    by apply Hin. }
  destruct (of_priority_chunk available _ _ k (fun k c => c = rotation idx' k (of_priority k available))
    (proj1 (priorities_of_spec available)) Hin Hcs) as [_ ->].
  fold g. unfold rotation in *. cbv zeta in *. rewrite Hk.
  assert (length g <> 0)%nat as Hnz by (fold n; lia).
  pose proof (Z.mod_pos_bound (default 0 (idx !! k)) (zlen g)) as Hb1.
  pose proof (Z.mod_pos_bound (default 0 (idx !! k) + Z.of_nat j) (zlen g)) as Hb2.
  assert (zlen g = Z.of_nat n) as Hzn by done.
  rewrite rotation_lookup in Hp by (fold n; lia).
  rewrite head_lookup, rotation_lookup by (fold n; lia). rewrite <-Hp, Nat.add_0_r. f_equal.
  rewrite (Nat.mod_small (Z.to_nat _)) by (fold n; lia). fold n. apply Nat2Z.inj.
  rewrite Nat2Z.inj_mod, Nat2Z.inj_add, !Z2Nat.id by lia. rewrite Hzn.
  by rewrite Zplus_mod_idemp_l.
Qed.

(** ** Least loaded *)

(** Failure counters that have not overflowed. *)
Definition fi_counts_ok (f : failureInfo) : Prop :=
  0 <= fi_TotalFailures f /\ 0 <= fi_TotalSuccesses f /\ fi_TotalFailures f + fi_TotalSuccesses f <= max_int64
  /\ 0 <= fi_ConsecutiveFailures f <= max_int64.

Lemma getLoadScore_notnan stats ft name :
  (forall a, stats !! name = Some a -> 0 <= a <= max_int64) ->
  (forall f, ft !! name = Some f -> fi_counts_ok f) -> ~ is_nan (getLoadScore stats ft name).
Proof.
  intros Hst Hft. apply f64_nnx_notnan. unfold getLoadScore. cbv zeta.
  assert (f64_nn (f64_of_Z 10) /\ f64_nn (f64_of_Z 50) /\ f64_nn (f64_of_Z 100)) as (H10 & H50 & H100)
    by (split_and!; f64_dec).
  assert (forall s, f64_nnx s -> f64_nnx (match ft !! name with
    | Some failure =>
        f64_add (if 0 <? wrap64 (fi_TotalSuccesses failure + fi_TotalFailures failure)
                 then f64_add s (f64_mul (f64_div (f64_of_Z (fi_TotalFailures failure))
                        (f64_of_Z (wrap64 (fi_TotalSuccesses failure + fi_TotalFailures failure)))) (f64_of_Z 100))
                 else s) (f64_mul (f64_of_Z (fi_ConsecutiveFailures failure)) (f64_of_Z 50))
    | None => s end)) as Hf.
  { intros s Hs. destruct (ft !! name) as [f|]; [|done]. destruct (Hft f eq_refl) as (? & ? & ? & ?).
    unfold max_int64 in *. rewrite wrap64_id by int_range. apply f64_add_nnx.
    - destruct (0 <? _) eqn:E; [|done]. apply f64_add_nnx; [done|]. apply f64_mul_nnx; [|done|done].
      apply f64_div_nnx; go_lia.
    - apply f64_mul_nnx; [right; apply f64_of_Z_nnx; lia|done|done]. }
  apply Hf. destruct (stats !! name) as [a|]; [|by right]. specialize (Hst a eq_refl).
  apply f64_add_nnx; [by right|]. apply f64_mul_nnx; [right; apply f64_of_Z_nnx|done|done].
  unfold max_int64 in Hst. lia.
Qed.

(** As long as the failure counters have not overflowed, the least-loaded
    strategy orders the providers of one priority by ascending load score. *)
Theorem least_loaded_ascending {P} stats ft (g : list (providerConfig P)) :
  (forall name a, stats !! name = Some a -> 0 <= a <= max_int64) ->
  (forall name f, ft !! name = Some f -> fi_counts_ok f) ->
  StronglySorted (fun p q => f64_le (getLoadScore stats ft (pc_Name p)) (getLoadScore stats ft (pc_Name q)))
    (least_loaded_order stats ft g).
Proof.
  intros Hst Hft. unfold least_loaded_order. set (score (p : providerConfig P) := getLoadScore stats ft (pc_Name p)).
  assert (forall p, ~ is_nan (score p)) as Hn
    by (intros p; apply getLoadScore_notnan; eauto).
  assert (forall l, StronglySorted (fun x y => f64_gtb (score x) (score y) = false) l ->
    StronglySorted (fun x y => f64_le (score x) (score y)) l) as Himp.
  { induction 1 as [|x l Hl IH Hx]; constructor; [done|]. eapply Forall_impl; [exact Hx|].
    intros y Hxy. by apply f64_ltb_false. }
  apply Himp, (exchange_sort_sorted _ (fun _ => True)); unfold f64_gtb.
  - intros x _. apply f64_ltb_irrefl.
  - intros x y _ _. rewrite <-not_true_iff_false, !f64_ltb_key by done. apply key_lt_asym.
  - intros x y z _ _ _. rewrite <-!not_true_iff_false, !f64_ltb_key by done. intros H1 H2 H3.
    by destruct (key_lt_negtrans _ (score y) _ H3).
  - by apply Forall_true.
Qed.

(** ** Concrete selections *)

Definition demo_providers : list (providerConfig nat) :=
  [{| pc_Provider := 0%nat; pc_Priority := 1; pc_Name := "mempool" |};
   {| pc_Provider := 1%nat; pc_Priority := 1; pc_Name := "blockstream" |};
   {| pc_Provider := 2%nat; pc_Priority := 1; pc_Name := "blockchair" |};
   {| pc_Provider := 3%nat; pc_Priority := 2; pc_Name := "own node" |}]%string.

(** An engine without scores: every provider is worth 0. *)
Definition flat_engine : ScoringEngine unit := {|
  se_RecordEvent ev clk e := Some e; se_GetEffectiveScore n e := f64_zero;
  se_RegisterProvider n p t e := e; se_Reset clk e := e |}.

Program Definition flat_engine_laws : @ScoringEngineLaws unit flat_engine := {| se_ok n e := True |}.
Next Obligation. done. Qed.
Next Obligation. by eauto. Qed.
Next Obligation. done. Qed.

Lemma SelectProviders_perm_witness :
  let _ := flat_engine in let _ := lcg_rand in
  exists l s', SelectProviders ∅ tt demo_providers (roundRobinSelector {[1 := 4]}) = Some (l, s') /\ sel_ok s'
    /\ l ≡ₚ demo_providers
    /\ (grouped (roundRobinSelector {[1 := 4]}) = true ->
        StronglySorted (fun p q => pc_Priority p <= pc_Priority q) l).
Proof.
  intros F G. apply SelectProviders_perm.
  - intros k i [_ <-]%lookup_singleton_Some. lia.
  - vm_compute. reflexivity.
Defined.

Lemma adaptive_descending_witness :
  let _ := flat_engine in let _ := flat_engine_laws in
  StronglySorted (fun p q => f64_le (se_GetEffectiveScore (pc_Name q) tt) (se_GetEffectiveScore (pc_Name p) tt))
    (adaptive_order tt demo_providers).
Proof. intros F L. exact (adaptive_descending 0 tt demo_providers I). Defined.

Lemma round_robin_fair_witness :
  let _ := flat_engine in let _ := lcg_rand in
  exists firsts,
    Forall2 (fun j p => exists l s',
      SelectProviders ∅ tt demo_providers (Nat.iter j (RecordAttempt 1) (roundRobinSelector ∅)) = Some (l, s')
      /\ head (of_priority 1 l) = Some p) (seq 0 3) firsts
    /\ firsts ≡ₚ of_priority 1 demo_providers.
Proof.
  intros F G. apply (round_robin_fair ∅ tt demo_providers ∅ 1).
  - intros k i. by rewrite lookup_empty.
  - vm_compute. reflexivity.
  - vm_compute. discriminate.
Defined.

Lemma least_loaded_ascending_witness :
  let ft := {[ "mempool" := {| fi_ConsecutiveFailures := 2; fi_LastFailureTime := 0; fi_IsTemporarilyDown := false;
                 fi_TotalFailures := 2; fi_TotalSuccesses := 1; fi_LastRetryAttempt := 0; fi_RetryCount := 0;
                 fi_ConsecutiveAuthFailures := 0 |} ]}%string in
  StronglySorted (fun p q => f64_le (getLoadScore ∅ ft (pc_Name p)) (getLoadScore ∅ ft (pc_Name q)))
    (least_loaded_order ∅ ft demo_providers).
Proof.
  intros ft. apply least_loaded_ascending.
  - intros name a. by rewrite lookup_empty.
  - intros name f [_ <-]%lookup_singleton_Some. repeat split; vm_compute; discriminate.
Defined.
