(* ===== verification/Manager.v ===== *)
(** * The provider manager

    [manager.go]: one manager per role chain, with its failure tracker, circuit
    breakers, health flags, rate limiters and selection strategy; [opcontext.go]:
    the call-site metadata a failure event carries.

    The scoring engine is shared between managers, so it is threaded as a state
    of its own; [pm_scoringEngine] says whether the manager's pointer is set.
    A semaphore is the capacity of its channel (the code never acquires it). *)

From S2P Require Import Prelude GoInt GoFloat GoString Config RateLimit Sorting Events.
From S2P Require Import Selection.

(** ** State *)

(** The values of [circuitState.State]. *)
Inductive circuit := CLOSED | OPEN | HALF_OPEN.

#[global] Instance circuit_eq_dec : EqDecision circuit.
Proof. solve_decision. Defined.

Definition circuit_string (c : circuit) : string :=
  match c with CLOSED => "CLOSED" | OPEN => "OPEN" | HALF_OPEN => "HALF_OPEN" end.

Record circuitState := {
  cs_State : circuit;
  cs_LastStateChange : Time;
  cs_ConsecutiveFailures : Z;
  cs_ConsecutiveSuccesses : Z;
  cs_HalfOpenCalls : Z;
  cs_LastFailureTime : Time
}.

Record healthState := {
  hs_IsHealthy : bool;
  hs_LastHealthCheck : Time;
  hs_ConsecutiveHealthyChecks : Z;
  hs_ConsecutiveUnhealthyChecks : Z;
  hs_LastError : option error
}.

Record providerManager (P : Type) := {
  pm_providers : list (providerConfig P);
  pm_selectedProvider : string;
  pm_failureTracker : gmap string failureInfo;
  pm_circuitStates : gmap string circuitState;
  pm_healthStates : gmap string healthState;
  pm_rateLimitStates : gmap string rateLimitState;
  pm_config : ChainConfig;
  pm_semaphore : Z;
  pm_selector : selectionStrategy;
  pm_scoringEngine : bool
}.
Arguments pm_providers {_} _.
Arguments pm_selectedProvider {_} _.
Arguments pm_failureTracker {_} _.
Arguments pm_circuitStates {_} _.
Arguments pm_healthStates {_} _.
Arguments pm_rateLimitStates {_} _.
Arguments pm_config {_} _.
Arguments pm_semaphore {_} _.
Arguments pm_selector {_} _.
Arguments pm_scoringEngine {_} _.

Record OperationMetadata := {
  om_Operation : string;
  om_Address : string;
  om_Network : string;
  om_Touchpoint : string;
  om_Extra : gmap string string
}.

(** Field assignment. *)
Definition set_fi_ConsecutiveFailures (v : Z) (x : failureInfo) : failureInfo :=
  {| fi_ConsecutiveFailures := v; fi_LastFailureTime := fi_LastFailureTime x;
     fi_IsTemporarilyDown := fi_IsTemporarilyDown x; fi_TotalFailures := fi_TotalFailures x;
     fi_TotalSuccesses := fi_TotalSuccesses x; fi_LastRetryAttempt := fi_LastRetryAttempt x;
     fi_RetryCount := fi_RetryCount x; fi_ConsecutiveAuthFailures := fi_ConsecutiveAuthFailures
     x |}.
Definition set_fi_LastFailureTime (v : Time) (x : failureInfo) : failureInfo :=
  {| fi_ConsecutiveFailures := fi_ConsecutiveFailures x; fi_LastFailureTime := v;
     fi_IsTemporarilyDown := fi_IsTemporarilyDown x; fi_TotalFailures := fi_TotalFailures x;
     fi_TotalSuccesses := fi_TotalSuccesses x; fi_LastRetryAttempt := fi_LastRetryAttempt x;
     fi_RetryCount := fi_RetryCount x; fi_ConsecutiveAuthFailures := fi_ConsecutiveAuthFailures
     x |}.
Definition set_fi_IsTemporarilyDown (v : bool) (x : failureInfo) : failureInfo :=
  {| fi_ConsecutiveFailures := fi_ConsecutiveFailures x; fi_LastFailureTime :=
     fi_LastFailureTime x; fi_IsTemporarilyDown := v; fi_TotalFailures := fi_TotalFailures x;
     fi_TotalSuccesses := fi_TotalSuccesses x; fi_LastRetryAttempt := fi_LastRetryAttempt x;
     fi_RetryCount := fi_RetryCount x; fi_ConsecutiveAuthFailures := fi_ConsecutiveAuthFailures
     x |}.
Definition set_fi_TotalFailures (v : Z) (x : failureInfo) : failureInfo :=
  {| fi_ConsecutiveFailures := fi_ConsecutiveFailures x; fi_LastFailureTime :=
     fi_LastFailureTime x; fi_IsTemporarilyDown := fi_IsTemporarilyDown x; fi_TotalFailures :=
     v; fi_TotalSuccesses := fi_TotalSuccesses x; fi_LastRetryAttempt := fi_LastRetryAttempt x;
     fi_RetryCount := fi_RetryCount x; fi_ConsecutiveAuthFailures := fi_ConsecutiveAuthFailures
     x |}.
Definition set_fi_TotalSuccesses (v : Z) (x : failureInfo) : failureInfo :=
  {| fi_ConsecutiveFailures := fi_ConsecutiveFailures x; fi_LastFailureTime :=
     fi_LastFailureTime x; fi_IsTemporarilyDown := fi_IsTemporarilyDown x; fi_TotalFailures :=
     fi_TotalFailures x; fi_TotalSuccesses := v; fi_LastRetryAttempt := fi_LastRetryAttempt x;
     fi_RetryCount := fi_RetryCount x; fi_ConsecutiveAuthFailures := fi_ConsecutiveAuthFailures
     x |}.
Definition set_fi_LastRetryAttempt (v : Time) (x : failureInfo) : failureInfo :=
  {| fi_ConsecutiveFailures := fi_ConsecutiveFailures x; fi_LastFailureTime :=
     fi_LastFailureTime x; fi_IsTemporarilyDown := fi_IsTemporarilyDown x; fi_TotalFailures :=
     fi_TotalFailures x; fi_TotalSuccesses := fi_TotalSuccesses x; fi_LastRetryAttempt := v;
     fi_RetryCount := fi_RetryCount x; fi_ConsecutiveAuthFailures := fi_ConsecutiveAuthFailures
     x |}.
Definition set_fi_RetryCount (v : Z) (x : failureInfo) : failureInfo :=
  {| fi_ConsecutiveFailures := fi_ConsecutiveFailures x; fi_LastFailureTime :=
     fi_LastFailureTime x; fi_IsTemporarilyDown := fi_IsTemporarilyDown x; fi_TotalFailures :=
     fi_TotalFailures x; fi_TotalSuccesses := fi_TotalSuccesses x; fi_LastRetryAttempt :=
     fi_LastRetryAttempt x; fi_RetryCount := v; fi_ConsecutiveAuthFailures :=
     fi_ConsecutiveAuthFailures x |}.
Definition set_fi_ConsecutiveAuthFailures (v : Z) (x : failureInfo) : failureInfo :=
  {| fi_ConsecutiveFailures := fi_ConsecutiveFailures x; fi_LastFailureTime :=
     fi_LastFailureTime x; fi_IsTemporarilyDown := fi_IsTemporarilyDown x; fi_TotalFailures :=
     fi_TotalFailures x; fi_TotalSuccesses := fi_TotalSuccesses x; fi_LastRetryAttempt :=
     fi_LastRetryAttempt x; fi_RetryCount := fi_RetryCount x; fi_ConsecutiveAuthFailures := v
     |}.
Definition set_cs_State (v : circuit) (x : circuitState) : circuitState :=
  {| cs_State := v; cs_LastStateChange := cs_LastStateChange x; cs_ConsecutiveFailures :=
     cs_ConsecutiveFailures x; cs_ConsecutiveSuccesses := cs_ConsecutiveSuccesses x;
     cs_HalfOpenCalls := cs_HalfOpenCalls x; cs_LastFailureTime := cs_LastFailureTime x |}.
Definition set_cs_LastStateChange (v : Time) (x : circuitState) : circuitState :=
  {| cs_State := cs_State x; cs_LastStateChange := v; cs_ConsecutiveFailures :=
     cs_ConsecutiveFailures x; cs_ConsecutiveSuccesses := cs_ConsecutiveSuccesses x;
     cs_HalfOpenCalls := cs_HalfOpenCalls x; cs_LastFailureTime := cs_LastFailureTime x |}.
Definition set_cs_ConsecutiveFailures (v : Z) (x : circuitState) : circuitState :=
  {| cs_State := cs_State x; cs_LastStateChange := cs_LastStateChange x; cs_ConsecutiveFailures
     := v; cs_ConsecutiveSuccesses := cs_ConsecutiveSuccesses x; cs_HalfOpenCalls :=
     cs_HalfOpenCalls x; cs_LastFailureTime := cs_LastFailureTime x |}.
Definition set_cs_ConsecutiveSuccesses (v : Z) (x : circuitState) : circuitState :=
  {| cs_State := cs_State x; cs_LastStateChange := cs_LastStateChange x; cs_ConsecutiveFailures
     := cs_ConsecutiveFailures x; cs_ConsecutiveSuccesses := v; cs_HalfOpenCalls :=
     cs_HalfOpenCalls x; cs_LastFailureTime := cs_LastFailureTime x |}.
Definition set_cs_HalfOpenCalls (v : Z) (x : circuitState) : circuitState :=
  {| cs_State := cs_State x; cs_LastStateChange := cs_LastStateChange x; cs_ConsecutiveFailures
     := cs_ConsecutiveFailures x; cs_ConsecutiveSuccesses := cs_ConsecutiveSuccesses x;
     cs_HalfOpenCalls := v; cs_LastFailureTime := cs_LastFailureTime x |}.
Definition set_cs_LastFailureTime (v : Time) (x : circuitState) : circuitState :=
  {| cs_State := cs_State x; cs_LastStateChange := cs_LastStateChange x; cs_ConsecutiveFailures
     := cs_ConsecutiveFailures x; cs_ConsecutiveSuccesses := cs_ConsecutiveSuccesses x;
     cs_HalfOpenCalls := cs_HalfOpenCalls x; cs_LastFailureTime := v |}.

Definition zero_failureInfo : failureInfo := {|
  fi_ConsecutiveFailures := 0; fi_LastFailureTime := zero_time; fi_IsTemporarilyDown := false;
  fi_TotalFailures := 0; fi_TotalSuccesses := 0; fi_LastRetryAttempt := zero_time;
  fi_RetryCount := 0; fi_ConsecutiveAuthFailures := 0
|}.

Definition authFailureCircuitThreshold : Z := 3.
Definition authFailureCircuitTimeout : Duration := 10 * Minute.

Section manager.
Context {P : Type}.

Definition set_pm_providers (v : list (providerConfig P)) (x : providerManager P) : providerManager P :=
  {| pm_providers := v; pm_selectedProvider := pm_selectedProvider x; pm_failureTracker :=
     pm_failureTracker x; pm_circuitStates := pm_circuitStates x; pm_healthStates :=
     pm_healthStates x; pm_rateLimitStates := pm_rateLimitStates x; pm_config := pm_config x;
     pm_semaphore := pm_semaphore x; pm_selector := pm_selector x; pm_scoringEngine :=
     pm_scoringEngine x |}.
Definition set_pm_selectedProvider (v : string) (x : providerManager P) : providerManager P :=
  {| pm_providers := pm_providers x; pm_selectedProvider := v; pm_failureTracker :=
     pm_failureTracker x; pm_circuitStates := pm_circuitStates x; pm_healthStates :=
     pm_healthStates x; pm_rateLimitStates := pm_rateLimitStates x; pm_config := pm_config x;
     pm_semaphore := pm_semaphore x; pm_selector := pm_selector x; pm_scoringEngine :=
     pm_scoringEngine x |}.
Definition set_pm_failureTracker (v : gmap string failureInfo) (x : providerManager P) : providerManager P :=
  {| pm_providers := pm_providers x; pm_selectedProvider := pm_selectedProvider x;
     pm_failureTracker := v; pm_circuitStates := pm_circuitStates x; pm_healthStates :=
     pm_healthStates x; pm_rateLimitStates := pm_rateLimitStates x; pm_config := pm_config x;
     pm_semaphore := pm_semaphore x; pm_selector := pm_selector x; pm_scoringEngine :=
     pm_scoringEngine x |}.
Definition set_pm_circuitStates (v : gmap string circuitState) (x : providerManager P) : providerManager P :=
  {| pm_providers := pm_providers x; pm_selectedProvider := pm_selectedProvider x;
     pm_failureTracker := pm_failureTracker x; pm_circuitStates := v; pm_healthStates :=
     pm_healthStates x; pm_rateLimitStates := pm_rateLimitStates x; pm_config := pm_config x;
     pm_semaphore := pm_semaphore x; pm_selector := pm_selector x; pm_scoringEngine :=
     pm_scoringEngine x |}.
Definition set_pm_healthStates (v : gmap string healthState) (x : providerManager P) : providerManager P :=
  {| pm_providers := pm_providers x; pm_selectedProvider := pm_selectedProvider x;
     pm_failureTracker := pm_failureTracker x; pm_circuitStates := pm_circuitStates x;
     pm_healthStates := v; pm_rateLimitStates := pm_rateLimitStates x; pm_config := pm_config
     x; pm_semaphore := pm_semaphore x; pm_selector := pm_selector x; pm_scoringEngine :=
     pm_scoringEngine x |}.
Definition set_pm_rateLimitStates (v : gmap string rateLimitState) (x : providerManager P) : providerManager P :=
  {| pm_providers := pm_providers x; pm_selectedProvider := pm_selectedProvider x;
     pm_failureTracker := pm_failureTracker x; pm_circuitStates := pm_circuitStates x;
     pm_healthStates := pm_healthStates x; pm_rateLimitStates := v; pm_config := pm_config x;
     pm_semaphore := pm_semaphore x; pm_selector := pm_selector x; pm_scoringEngine :=
     pm_scoringEngine x |}.
Definition set_pm_config (v : ChainConfig) (x : providerManager P) : providerManager P :=
  {| pm_providers := pm_providers x; pm_selectedProvider := pm_selectedProvider x;
     pm_failureTracker := pm_failureTracker x; pm_circuitStates := pm_circuitStates x;
     pm_healthStates := pm_healthStates x; pm_rateLimitStates := pm_rateLimitStates x;
     pm_config := v; pm_semaphore := pm_semaphore x; pm_selector := pm_selector x;
     pm_scoringEngine := pm_scoringEngine x |}.
Definition set_pm_semaphore (v : Z) (x : providerManager P) : providerManager P :=
  {| pm_providers := pm_providers x; pm_selectedProvider := pm_selectedProvider x;
     pm_failureTracker := pm_failureTracker x; pm_circuitStates := pm_circuitStates x;
     pm_healthStates := pm_healthStates x; pm_rateLimitStates := pm_rateLimitStates x;
     pm_config := pm_config x; pm_semaphore := v; pm_selector := pm_selector x;
     pm_scoringEngine := pm_scoringEngine x |}.
Definition set_pm_selector (v : selectionStrategy) (x : providerManager P) : providerManager P :=
  {| pm_providers := pm_providers x; pm_selectedProvider := pm_selectedProvider x;
     pm_failureTracker := pm_failureTracker x; pm_circuitStates := pm_circuitStates x;
     pm_healthStates := pm_healthStates x; pm_rateLimitStates := pm_rateLimitStates x;
     pm_config := pm_config x; pm_semaphore := pm_semaphore x; pm_selector := v;
     pm_scoringEngine := pm_scoringEngine x |}.
Definition set_pm_scoringEngine (v : bool) (x : providerManager P) : providerManager P :=
  {| pm_providers := pm_providers x; pm_selectedProvider := pm_selectedProvider x;
     pm_failureTracker := pm_failureTracker x; pm_circuitStates := pm_circuitStates x;
     pm_healthStates := pm_healthStates x; pm_rateLimitStates := pm_rateLimitStates x;
     pm_config := pm_config x; pm_semaphore := pm_semaphore x; pm_selector := pm_selector x;
     pm_scoringEngine := v |}.

Implicit Types pm : providerManager P.

(** ** Construction *)

(** [make(chan struct{}, n)]: a negative size panics. *)
Definition make_semaphore (n : Z) : go Z := if n <? 0 then None else Some n.

Definition selector_or_priority (r : result selectionStrategy) : selectionStrategy :=
  match r with Ok s => s | Err _ => priorityOnlySelector end.

Definition newProviderManager (config : ChainConfig) (seed : Z) : go (providerManager P) :=
  semaphore ← make_semaphore (cc_MaxConcurrency config);
  Some {| pm_providers := []; pm_selectedProvider := ""; pm_failureTracker := ∅;
          pm_circuitStates := ∅; pm_healthStates := ∅; pm_rateLimitStates := ∅;
          pm_config := config; pm_semaphore := semaphore;
          pm_selector := selector_or_priority (newSelectionStrategy (cc_SelectionStrategy config) seed);
          pm_scoringEngine := false |}.

Definition HasProvider (name : string) pm : bool :=
  existsb (fun p => bool_decide (pc_Name p = name)) (pm_providers pm).

Definition addProvider `{SortSlice} (provider : option P) (priority : Z) (name : string) (clk : clock) pm
    : providerManager P :=
  match provider with
  | None => pm
  | Some provider =>
      let pm := set_pm_providers (pm_providers pm ++
                  [{| pc_Provider := provider; pc_Priority := priority; pc_Name := name |}]) pm in
      let pm := set_pm_failureTracker (<[name := zero_failureInfo]> (pm_failureTracker pm)) pm in
      let pm := set_pm_circuitStates (<[name := {|
                  cs_State := CLOSED; cs_LastStateChange := clk 0%nat; cs_ConsecutiveFailures := 0;
                  cs_ConsecutiveSuccesses := 0; cs_HalfOpenCalls := 0; cs_LastFailureTime := zero_time |}]>
                  (pm_circuitStates pm)) pm in
      let pm := set_pm_healthStates (<[name := {|
                  hs_IsHealthy := true; hs_LastHealthCheck := clk 1%nat; hs_ConsecutiveHealthyChecks := 0;
                  hs_ConsecutiveUnhealthyChecks := 0; hs_LastError := None |}]> (pm_healthStates pm)) pm in
      let pm := set_pm_rateLimitStates
                  (<[name := newRateLimitState (rl_BurstSize (cc_RateLimit (pm_config pm))) (clk 2%nat)]>
                    (pm_rateLimitStates pm)) pm in
      set_pm_providers (sort_slice pc_Priority (pm_providers pm)) pm
  end.

(** ** Availability

    The four checks of [isProviderAvailable], in order; each returns whether to
    go on, with the state it changed. *)

Definition check_failure (name : string) (now : Time) pm : bool * providerManager P :=
  match pm_failureTracker pm !! name with
  | Some failure =>
      if fi_IsTemporarilyDown failure then
        if cb_Timeout (cc_CircuitBreaker (pm_config pm)) <=? time_sub now (fi_LastFailureTime failure) then
          let failure := set_fi_ConsecutiveFailures 0 (set_fi_IsTemporarilyDown false failure) in
          (true, set_pm_failureTracker (<[name := failure]> (pm_failureTracker pm)) pm)
        else (false, pm)
      else (true, pm)
  | None => (true, pm)
  end.

(** The timeout of an open circuit. *)
Definition circuit_timeout (name : string) pm : Duration :=
  match pm_failureTracker pm !! name with
  | Some failure =>
      if authFailureCircuitThreshold <=? fi_ConsecutiveAuthFailures failure
      then authFailureCircuitTimeout
      else cb_Timeout (cc_CircuitBreaker (pm_config pm))
  | None => cb_Timeout (cc_CircuitBreaker (pm_config pm))
  end.

Definition check_circuit (name : string) (now : Time) pm : bool * providerManager P :=
  if negb (cb_Enabled (cc_CircuitBreaker (pm_config pm))) then (true, pm)
  else
    match pm_circuitStates pm !! name with
    | None => (true, pm)
    | Some cs =>
        match cs_State cs with
        | OPEN =>
            if circuit_timeout name pm <=? time_sub now (cs_LastStateChange cs) then
              let cs := set_cs_HalfOpenCalls 0 (set_cs_LastStateChange now (set_cs_State HALF_OPEN cs)) in
              (true, set_pm_circuitStates (<[name := cs]> (pm_circuitStates pm)) pm)
            else (false, pm)
        | HALF_OPEN =>
            (negb (cb_HalfOpenMaxCalls (cc_CircuitBreaker (pm_config pm)) <=? cs_HalfOpenCalls cs), pm)
        | CLOSED => (true, pm)
        end
    end.

Definition check_health (name : string) pm : bool :=
  if hc_Enabled (cc_HealthCheck (pm_config pm)) then
    match pm_healthStates pm !! name with
    | Some hs => hs_IsHealthy hs
    | None => true
    end
  else true.

Definition check_rate (name : string) (now : Time) pm : go (bool * providerManager P) :=
  if rl_Enabled (cc_RateLimit (pm_config pm)) then
    match pm_rateLimitStates pm !! name with
    | Some rls =>
        '(ok, rls) ← CanMakeRequest (cc_RateLimit (pm_config pm)) now rls;
        Some (ok, set_pm_rateLimitStates (<[name := rls]> (pm_rateLimitStates pm)) pm)
    | None => Some (true, pm)
    end
  else Some (true, pm).

Definition isProviderAvailable (name : string) (now : Time) pm : go (bool * providerManager P) :=
  let '(ok, pm) := check_failure name now pm in
  if negb ok then Some (false, pm)
  else
    let '(ok, pm) := check_circuit name now pm in
    if negb ok then Some (false, pm)
    else if negb (check_health name pm) then Some (false, pm)
    else check_rate name now pm.

(** The loop of [getAvailableProviders]. *)
Fixpoint filter_available (now : Time) (l available : list (providerConfig P)) pm
    : go (list (providerConfig P) * providerManager P) :=
  match l with
  | [] => Some (available, pm)
  | provider :: l =>
      '(ok, pm) ← isProviderAvailable (pc_Name provider) now pm;
      filter_available now l (if (ok : bool) then available ++ [provider] else available) pm
  end.

Context {E : Type} `{ScoringEngine E, GoRand}.

Definition getAvailableProviders (now : Time) (e : E) pm : go (list (providerConfig P) * providerManager P) :=
  '(available, pm) ← filter_available now (pm_providers pm) [] pm;
  '(available, selector) ← SelectProviders (pm_failureTracker pm) e available (pm_selector pm);
  Some (available, set_pm_selector selector pm).

(** ** Outcomes *)

Definition success_failure (f : failureInfo) : failureInfo :=
  set_fi_ConsecutiveAuthFailures 0 (set_fi_RetryCount 0
    (set_fi_TotalSuccesses (wrap64 (fi_TotalSuccesses f + 1))
    (set_fi_IsTemporarilyDown false (set_fi_ConsecutiveFailures 0 f)))).

Definition success_circuit (c : CircuitBreakerConfig) (now : Time) (cs : circuitState) : circuitState :=
  let cs := set_cs_ConsecutiveFailures 0 cs in
  let cs := set_cs_ConsecutiveSuccesses (wrap64 (cs_ConsecutiveSuccesses cs + 1)) cs in
  if bool_decide (cs_State cs = HALF_OPEN) && (cb_SuccessThreshold c <=? cs_ConsecutiveSuccesses cs)
  then set_cs_HalfOpenCalls 0 (set_cs_LastStateChange now (set_cs_State CLOSED cs))
  else cs.

Definition success_event (name : string) (ts : Time) (responseTime : Duration) : ScoreEvent := {|
  ev_Type := EventOperationSuccess; ev_Provider := name; ev_Timestamp := ts;
  ev_ResponseTime := responseTime; ev_HTTPStatus := 0; ev_Error := None; ev_Metadata := ∅ |}.

(** An event for the engine, when the manager has one. *)
Definition emit (event : ScoreEvent) (clk : clock) pm (e : E) : go E :=
  if pm_scoringEngine pm then se_RecordEvent event clk e else Some e.

(** The state updates of [recordSuccess], without the event. *)
Definition update_success (name : string) (clk : clock) pm : providerManager P :=
  let pm := set_pm_failureTracker (alter success_failure name (pm_failureTracker pm)) pm in
  let pm := if cb_Enabled (cc_CircuitBreaker (pm_config pm))
            then set_pm_circuitStates
                   (alter (success_circuit (cc_CircuitBreaker (pm_config pm)) (clk 0%nat)) name
                      (pm_circuitStates pm)) pm
            else pm in
  if rl_Enabled (cc_RateLimit (pm_config pm))
  then set_pm_rateLimitStates
         (alter (RecordRequest (cc_RateLimit (pm_config pm)) (clk 1%nat)) name (pm_rateLimitStates pm)) pm
  else pm.

Definition recordSuccess (name : string) (clk : clock) pm (e : E) : go (providerManager P * E) :=
  let pm := update_success name clk pm in
  e ← emit (success_event name (clk 2%nat) 0) (clk_skip 3 clk) pm e;
  Some (pm, e).

Definition failed_failure (threshold : Z) (now : Time) (f : failureInfo) : failureInfo :=
  let f := set_fi_ConsecutiveFailures (wrap64 (fi_ConsecutiveFailures f + 1)) f in
  let f := set_fi_LastFailureTime now f in
  let f := set_fi_TotalFailures (wrap64 (fi_TotalFailures f + 1)) f in
  if threshold <=? fi_ConsecutiveFailures f then set_fi_IsTemporarilyDown true f else f.

Definition failed_circuit (threshold : Z) (now : Time) (cs : circuitState) : circuitState :=
  let cs := set_cs_ConsecutiveFailures (wrap64 (cs_ConsecutiveFailures cs + 1)) cs in
  let cs := set_cs_ConsecutiveSuccesses 0 cs in
  let cs := set_cs_LastFailureTime now cs in
  let cs := if bool_decide (cs_State cs = HALF_OPEN)
            then set_cs_HalfOpenCalls (wrap64 (cs_HalfOpenCalls cs + 1)) cs else cs in
  if threshold <=? cs_ConsecutiveFailures cs then set_cs_LastStateChange now (set_cs_State OPEN cs) else cs.

Definition updateFailureState (name : string) (now : Time) pm : providerManager P :=
  let threshold := cb_FailureThreshold (cc_CircuitBreaker (pm_config pm)) in
  let ft := match pm_failureTracker pm !! name with
            | Some f => <[name := failed_failure threshold now f]> (pm_failureTracker pm)
            | None => <[name := set_fi_TotalFailures 1 (set_fi_LastFailureTime now
                          (set_fi_ConsecutiveFailures 1 zero_failureInfo))]> (pm_failureTracker pm)
            end in
  let pm := set_pm_failureTracker ft pm in
  if cb_Enabled (cc_CircuitBreaker (pm_config pm))
  then set_pm_circuitStates (alter (failed_circuit threshold now) name (pm_circuitStates pm)) pm
  else pm.

Definition handleAuthFailure (name : string) (now : Time) pm : providerManager P :=
  match pm_failureTracker pm !! name with
  | None => pm
  | Some failure =>
      let failure := set_fi_ConsecutiveAuthFailures (wrap64 (fi_ConsecutiveAuthFailures failure + 1)) failure in
      let pm := set_pm_failureTracker (<[name := failure]> (pm_failureTracker pm)) pm in
      if fi_ConsecutiveAuthFailures failure <? authFailureCircuitThreshold then pm
      else if cb_Enabled (cc_CircuitBreaker (pm_config pm))
      then set_pm_circuitStates
             (alter (fun cs => set_cs_LastStateChange now (set_cs_State OPEN cs)) name (pm_circuitStates pm)) pm
      else pm
  end.

(** The metadata map of an event: the named fields, then [Extra]. *)
Definition metadata_map (meta : OperationMetadata) : gmap string string :=
  om_Extra meta ∪
  {[ "operation" := om_Operation meta; "address" := om_Address meta;
     "network" := om_Network meta; "touchpoint" := om_Touchpoint meta ]}%string.

Definition ev_with (ts : Time) (m : gmap string string) (ev : ScoreEvent) : ScoreEvent := {|
  ev_Type := ev_Type ev; ev_Provider := ev_Provider ev; ev_Timestamp := ts;
  ev_ResponseTime := ev_ResponseTime ev; ev_HTTPStatus := ev_HTTPStatus ev;
  ev_Error := ev_Error ev; ev_Metadata := m |}.

Definition failure_event (meta : option OperationMetadata) (name : string) (err : error)
    (responseTime : Duration) (now now2 : Time) : ScoreEvent :=
  let event :=
    if errors_is err ErrAuthFailure then
      {| ev_Type := EventOperationAuthFail; ev_Provider := name; ev_Timestamp := now;
         ev_ResponseTime := responseTime; ev_HTTPStatus := 0; ev_Error := Some err; ev_Metadata := ∅ |}
    else ev_with now ∅ (ClassifyOperationEvent name responseTime (Some err) now2) in
  match meta with
  | Some meta => ev_with (ev_Timestamp event) (metadata_map meta) event
  | None => event
  end.

Definition recordFailureWithError (meta : option OperationMetadata) (name : string) (err : error)
    (responseTime : Duration) (clk : clock) pm (e : E) : go (providerManager P * E) :=
  let now := clk 0%nat in
  let pm := updateFailureState name now pm in
  e ← emit (failure_event meta name err responseTime now (clk 1%nat)) (clk_skip 2 clk) pm e;
  let pm := if errors_is err ErrAuthFailure then handleAuthFailure name now pm else pm in
  Some (pm, e).

(** Records the success and, with an engine, a second success event that
    carries the latency. *)
Definition recordSuccessWithLatency (name : string) (responseTime : Duration) (clk : clock) pm (e : E)
    : go (providerManager P * E) :=
  '(pm, e) ← recordSuccess name clk pm e;
  e ← emit (success_event name (clk 10%nat) responseTime) (clk_skip 11 clk) pm e;
  Some (pm, e).

Definition RecordHealthCheckResult (name : string) (httpStatus : Z) (responseTime : Duration)
    (err : option error) (clk : clock) pm (e : E) : go E :=
  if negb (pm_scoringEngine pm) then Some e
  else se_RecordEvent (ClassifyHealthCheckEvent name httpStatus responseTime err (clk 0%nat)) (clk_skip 1 clk) e.

(** ** Configuration *)

Definition updateChainConfig (config : ChainConfig) (seed : Z) pm : go (providerManager P) :=
  let oldStrategy := cc_SelectionStrategy (pm_config pm) in
  let pm := set_pm_config config pm in
  semaphore ← (if negb (pm_semaphore pm =? cc_MaxConcurrency config)
               then make_semaphore (cc_MaxConcurrency config) else Some (pm_semaphore pm));
  let pm := set_pm_semaphore semaphore pm in
  if negb (bool_decide (oldStrategy = cc_SelectionStrategy config))
  then Some (set_pm_selector (selector_or_priority (newSelectionStrategy (cc_SelectionStrategy config) seed)) pm)
  else Some pm.

Definition SetSelectionStrategy (strategy : string) (seed : Z) pm : result unit * providerManager P :=
  if negb (IsValid strategy)
  then (Err (errOther ("invalid selection strategy: " +:+ strategy)), pm)
  else
    match newSelectionStrategy strategy seed with
    | Err err => (Err err, pm)
    | Ok selector =>
        (Ok tt, set_pm_config (cc_set_SelectionStrategy strategy (pm_config pm)) (set_pm_selector selector pm))
    end.

(** [SetScoringEngine]; [now] gives the registration time of each provider. *)
Definition SetScoringEngine (hasEngine : bool) (now : string -> Time) pm (e : E) : providerManager P * E :=
  let pm := set_pm_scoringEngine hasEngine pm in
  if hasEngine then
    let e := foldl (fun e p => se_RegisterProvider (pc_Name p) (pc_Priority p) (now (pc_Name p)) e) e
               (pm_providers pm) in
    (set_pm_config (cc_set_SelectionStrategy SelectionStrategyAdaptive (pm_config pm))
       (set_pm_selector (newAdaptiveSelector true) pm), e)
  else (pm, e).

Definition findProviderByName (l : list (providerConfig P)) (name : string) : option (providerConfig P) :=
  List.find (fun p => bool_decide (to_lower (pc_Name p) = to_lower name)) l.

Definition GetSelectionStrategy pm : string := cc_SelectionStrategy (pm_config pm).
End manager.

(** ** What a manager reports of a provider *)

(** The values of the [map[string]interface{}]. *)
Inductive stat :=
  | StatInt (z : Z)
  | StatBool (b : bool)
  | StatTime (t : Time)
  | StatTimes (l : list Time)
  | StatText (s : string).

Definition failure_stats (failure : failureInfo) : list (string * stat) := [
  ("consecutive_failures", StatInt (fi_ConsecutiveFailures failure));
  ("total_failures", StatInt (fi_TotalFailures failure));
  ("total_successes", StatInt (fi_TotalSuccesses failure));
  ("is_temporarily_down", StatBool (fi_IsTemporarilyDown failure));
  ("last_failure_time", StatTime (fi_LastFailureTime failure));
  ("retry_count", StatInt (fi_RetryCount failure))]%string.

Definition circuit_stats (cs : circuitState) : list (string * stat) := [
  ("circuit_state", StatText (circuit_string (cs_State cs)));
  ("circuit_consecutive_failures", StatInt (cs_ConsecutiveFailures cs));
  ("circuit_consecutive_successes", StatInt (cs_ConsecutiveSuccesses cs));
  ("circuit_last_state_change", StatTime (cs_LastStateChange cs));
  ("circuit_half_open_calls", StatInt (cs_HalfOpenCalls cs))]%string.

Definition health_stats (hs : healthState) : list (string * stat) := [
  ("is_healthy", StatBool (hs_IsHealthy hs));
  ("last_health_check", StatTime (hs_LastHealthCheck hs));
  ("consecutive_healthy_checks", StatInt (hs_ConsecutiveHealthyChecks hs));
  ("consecutive_unhealthy_checks", StatInt (hs_ConsecutiveUnhealthyChecks hs))]%string
  ++ match hs_LastError hs with Some e => [("last_health_error"%string, StatText (err_msg e))] | None => [] end.

Definition rate_stats (rls : rateLimitState) : list (string * stat) := [
  ("rate_limit_request_times", StatTimes (rls_RequestTimes rls));
  ("rate_limit_burst_tokens", StatInt (rls_BurstTokens rls));
  ("rate_limit_last_refill", StatTime (rls_LastRefill rls))]%string.

Definition set_stats (l : list (string * stat)) (stats : gmap string stat) : gmap string stat :=
  foldl (fun m kv => <[kv.1 := kv.2]> m) stats l.

(** [if s, exists := states[name]; exists { ... }]. *)
Definition reported {S} (f : S -> list (string * stat)) (s : option S) : list (string * stat) :=
  match s with Some s => f s | None => [] end.

Definition GetProviderStats {P} (name : string) (pm : providerManager P) : gmap string stat :=
  set_stats (reported rate_stats (pm_rateLimitStates pm !! name))
    (set_stats (reported health_stats (pm_healthStates pm !! name))
      (set_stats (reported circuit_stats (pm_circuitStates pm !! name))
        (set_stats (reported failure_stats (pm_failureTracker pm !! name)) ∅))).

(** The engine is shared: [e] is the one the manager points to, if it does. *)
Definition pm_GetScoringEngine {P E} (pm : providerManager P) (e : E) : option E :=
  if pm_scoringEngine pm then Some e else None.
