(* ===== verification/ManagerProps.v ===== *)
(** * Circuit breakers and availability

    The circuit breaker of one provider as a state machine, its invariants over
    any sequence of manager operations, and what availability means. *)

From S2P Require Import Prelude GoInt GoFloat GoString Config RateLimit Sorting Events.
From S2P Require Import Selection Manager.

Section circuits.
Context {P : Type}.
Implicit Types pm : providerManager P.

Abbreviation cb pm := (cc_CircuitBreaker (pm_config pm)).

(** ** Frame: an operation on one provider leaves the others alone *)

Definition same_provider (name : string) pm pm' : Prop :=
  pm_failureTracker pm' !! name = pm_failureTracker pm !! name
  /\ pm_circuitStates pm' !! name = pm_circuitStates pm !! name.

Lemma check_rate_frame name now pm ok pm' :
  check_rate name now pm = Some (ok, pm') ->
  pm_failureTracker pm' = pm_failureTracker pm /\ pm_circuitStates pm' = pm_circuitStates pm
  /\ pm_config pm' = pm_config pm /\ pm_providers pm' = pm_providers pm
  /\ pm_selector pm' = pm_selector pm /\ pm_healthStates pm' = pm_healthStates pm
  /\ pm_scoringEngine pm' = pm_scoringEngine pm /\ pm_selectedProvider pm' = pm_selectedProvider pm.
Proof.
  unfold check_rate. destruct (rl_Enabled _); [|by intros [= <- <-]].
  destruct (pm_rateLimitStates pm !! name); [|by intros [= <- <-]].
  by intros ([b rl] & _ & [= <- <-])%bind_some.
Qed.

(** What [isProviderAvailable] can change. *)
Lemma isProviderAvailable_cases name now pm ok pm' :
  isProviderAvailable name now pm = Some (ok, pm') ->
  let pm1 := (check_failure name now pm).2 in
  let pm2 := (check_circuit name now pm1).2 in
  (ok = false /\ (check_failure name now pm).1 = false /\ pm' = pm1)
  \/ (ok = false /\ (check_failure name now pm).1 = true /\ (check_circuit name now pm1).1 = false /\ pm' = pm2)
  \/ ((check_failure name now pm).1 = true /\ (check_circuit name now pm1).1 = true
      /\ ((ok = false /\ check_health name pm2 = false /\ pm' = pm2)
          \/ (check_health name pm2 = true /\ check_rate name now pm2 = Some (ok, pm')))).
Proof.
  unfold isProviderAvailable. destruct (check_failure name now pm) as [[] pm1]; cbn [negb fst snd].
  2: { intros [= <- <-]. by left. }
  destruct (check_circuit name now pm1) as [[] pm2]; cbn [negb fst snd].
  2: { intros [= <- <-]. right. by left. }
  destruct (check_health name pm2); cbn [negb]; [|intros [= <- <-]; right; right; auto 6].
  intros Hr. right. right. auto 6.
Qed.

(** ** Transitions of one breaker *)

(** The edges of the state machine.  A tripped breaker never closes without
    passing through the half-open state. *)
Inductive edge : circuit -> circuit -> Prop :=
  | edge_stay s : edge s s
  | edge_trip : edge CLOSED OPEN
  | edge_probe : edge OPEN HALF_OPEN
  | edge_reopen : edge HALF_OPEN OPEN
  | edge_close : edge HALF_OPEN CLOSED.

Definition circuit_of (name : string) pm : option circuit := cs_State <$> pm_circuitStates pm !! name.

Definition edge_opt (a b : option circuit) : Prop :=
  match a, b with Some x, Some y => edge x y | None, None => True | _, _ => False end.

Lemma edge_opt_refl a : edge_opt a a.
Proof. destruct a; [constructor|done]. Qed.

Lemma success_circuit_edge c now cs : edge (cs_State cs) (cs_State (success_circuit c now cs)).
Proof.
  unfold success_circuit. cbv zeta. destruct (bool_decide _ && _) eqn:Eb; [|constructor].
  apply andb_prop in Eb as [Hs%bool_decide_eq_true _]. cbn in Hs |- *. rewrite Hs. constructor.
Qed.

Lemma failed_circuit_edge t now cs : edge (cs_State cs) (cs_State (failed_circuit t now cs)).
Proof.
  unfold failed_circuit. cbv zeta. destruct (t <=? _); destruct (cs_State cs) eqn:Es; cbn; try constructor;
    destruct (bool_decide _); cbn; rewrite Es; constructor.
Qed.

Lemma check_circuit_edge name now pm m :
  edge_opt (circuit_of m pm) (circuit_of m (check_circuit name now pm).2).
Proof.
  unfold check_circuit. destruct (negb _); [apply edge_opt_refl|].
  destruct (pm_circuitStates pm !! name) as [cs|] eqn:Ecs; [|apply edge_opt_refl].
  destruct (cs_State cs) eqn:Es; [apply edge_opt_refl| |apply edge_opt_refl].
  destruct (_ <=? _); [|apply edge_opt_refl]. unfold circuit_of. cbn.
  destruct (decide (m = name)) as [->|Hne].
  - rewrite lookup_insert_eq, Ecs. cbn. rewrite Es. constructor.
  - rewrite lookup_insert_ne by done. apply edge_opt_refl.
Qed.

Lemma check_failure_frame name now pm :
  let pm' := (check_failure name now pm).2 in
  pm_circuitStates pm' = pm_circuitStates pm /\ pm_config pm' = pm_config pm
  /\ pm_providers pm' = pm_providers pm /\ pm_selector pm' = pm_selector pm
  /\ pm_healthStates pm' = pm_healthStates pm /\ pm_rateLimitStates pm' = pm_rateLimitStates pm
  /\ pm_scoringEngine pm' = pm_scoringEngine pm /\ pm_selectedProvider pm' = pm_selectedProvider pm.
Proof. unfold check_failure. by repeat case_match. Qed.

Lemma check_circuit_frame name now pm :
  let pm' := (check_circuit name now pm).2 in
  pm_failureTracker pm' = pm_failureTracker pm /\ pm_config pm' = pm_config pm
  /\ pm_providers pm' = pm_providers pm /\ pm_selector pm' = pm_selector pm
  /\ pm_healthStates pm' = pm_healthStates pm /\ pm_rateLimitStates pm' = pm_rateLimitStates pm
  /\ pm_scoringEngine pm' = pm_scoringEngine pm /\ pm_selectedProvider pm' = pm_selectedProvider pm.
Proof. unfold check_circuit. by repeat case_match. Qed.
End circuits.

(** ** The invariant of a manager *)

Section invariant.
Context {P : Type}.
Implicit Types pm : providerManager P.

(** A closed breaker is below its threshold and has no half-open calls. *)
Definition circ_ok (T : Z) (cs : circuitState) : Prop :=
  cs_State cs = CLOSED -> cs_ConsecutiveFailures cs < T /\ cs_HalfOpenCalls cs = 0.

Definition tracked pm (p : providerConfig P) : Prop :=
  is_Some (pm_failureTracker pm !! pc_Name p) /\ is_Some (pm_circuitStates pm !! pc_Name p)
  /\ is_Some (pm_healthStates pm !! pc_Name p) /\ is_Some (pm_rateLimitStates pm !! pc_Name p).

Record mgr_inv (m : Z) pm : Prop := {
  mi_rate : rl_Enabled (cc_RateLimit (pm_config pm)) = true -> rl_sane (cc_RateLimit (pm_config pm));
  mi_sel : sel_ok (pm_selector pm);
  mi_len : zlen (pm_providers pm) <= m;
  mi_threshold : 0 < cb_FailureThreshold (cc_CircuitBreaker (pm_config pm));
  mi_circ : map_Forall (fun _ => circ_ok (cb_FailureThreshold (cc_CircuitBreaker (pm_config pm))))
              (pm_circuitStates pm);
  mi_sorted : StronglySorted (fun p q => pc_Priority p <= pc_Priority q) (pm_providers pm);
  mi_tracked : Forall (tracked pm) (pm_providers pm)
}.

(** Same configuration, providers and selector; at least the same tracking. *)
Definition ext pm pm' : Prop :=
  pm_config pm' = pm_config pm /\ pm_providers pm' = pm_providers pm
  /\ pm_selector pm' = pm_selector pm
  /\ pm_scoringEngine pm' = pm_scoringEngine pm /\ pm_selectedProvider pm' = pm_selectedProvider pm
  /\ dom (pm_failureTracker pm) ⊆ dom (pm_failureTracker pm')
  /\ dom (pm_circuitStates pm) ⊆ dom (pm_circuitStates pm')
  /\ dom (pm_healthStates pm) ⊆ dom (pm_healthStates pm')
  /\ dom (pm_rateLimitStates pm) ⊆ dom (pm_rateLimitStates pm').

Lemma ext_refl pm : ext pm pm.
Proof. by split_and!. Qed.

Lemma ext_trans pm1 pm2 pm3 : ext pm1 pm2 -> ext pm2 pm3 -> ext pm1 pm3.
Proof.
  intros (Hc & Hp & Hs & He & Hn & ? & ? & ? & ?) (Hc' & Hp' & Hs' & He' & Hn' & ? & ? & ? & ?).
  split_and!; [congruence..| | | |]; by etrans.
Qed.

Lemma mgr_inv_ext m pm pm' :
  mgr_inv m pm -> ext pm pm' ->
  map_Forall (fun _ => circ_ok (cb_FailureThreshold (cc_CircuitBreaker (pm_config pm)))) (pm_circuitStates pm') ->
  mgr_inv m pm'.
Proof.
  intros [] (Hc & Hp & Hs & _ & _ & H1 & H2 & H3 & H4) Hcirc. split; rewrite ?Hc, ?Hp, ?Hs; try done.
  eapply Forall_impl; [done|]. intros p (? & ? & ? & ?).
  split_and!; apply elem_of_dom; [apply H1|apply H2|apply H3|apply H4]; by apply elem_of_dom.
Qed.

Lemma dom_insert_sub {A} k (v : A) (m : gmap string A) : dom m ⊆ dom (<[k:=v]> m).
Proof. rewrite dom_insert. set_solver. Qed.

Lemma dom_alter_sub {A} f k (m : gmap string A) : dom m ⊆ dom (alter f k m).
Proof. by rewrite dom_alter. Qed.

#[local] Hint Resolve dom_insert_sub dom_alter_sub : core.

Lemma check_failure_ext name now pm : ext pm (check_failure name now pm).2.
Proof. unfold check_failure. repeat case_match; split_and!; cbn; auto. Qed.

Lemma check_circuit_ext name now pm : ext pm (check_circuit name now pm).2.
Proof. unfold check_circuit. repeat case_match; split_and!; cbn; auto. Qed.

Lemma check_rate_ext name now pm ok pm' : check_rate name now pm = Some (ok, pm') -> ext pm pm'.
Proof.
  unfold check_rate. destruct (rl_Enabled _); [|by intros [= <- <-]].
  destruct (pm_rateLimitStates pm !! name); [|by intros [= <- <-]].
  intros ([b rl] & _ & [= <- <-])%bind_some. split_and!; cbn; auto.
Qed.

Lemma check_circuit_circ T name now pm :
  map_Forall (fun _ => circ_ok T) (pm_circuitStates pm) ->
  map_Forall (fun _ => circ_ok T) (pm_circuitStates (check_circuit name now pm).2).
Proof.
  intros Hc. unfold check_circuit. repeat case_match; try done. cbn. by apply map_Forall_insert_2.
Qed.

Lemma isProviderAvailable_inv m name now pm :
  mgr_inv m pm ->
  exists ok pm', isProviderAvailable name now pm = Some (ok, pm') /\ mgr_inv m pm' /\ ext pm pm'.
Proof.
  intros Hi. unfold isProviderAvailable.
  pose proof (check_failure_ext name now pm) as Hx1. pose proof (check_failure_frame name now pm) as (Hcs & _).
  destruct (check_failure name now pm) as [ok1 pm1]. cbn [fst snd] in *.
  assert (mgr_inv m pm1) as Hi1 by (eapply mgr_inv_ext; [done|done|]; rewrite Hcs; apply Hi).
  destruct ok1; cbn [negb]; [|by eauto].
  pose proof (check_circuit_ext name now pm1) as Hx2.
  pose proof (check_circuit_circ _ name now pm1 (mi_circ _ _ Hi1)) as Hc2.
  destruct (check_circuit name now pm1) as [ok2 pm2]. cbn [fst snd] in *.
  assert (mgr_inv m pm2) as Hi2 by (by eapply mgr_inv_ext).
  assert (ext pm pm2) as Hx by (by eapply ext_trans).
  destruct ok2; cbn [negb]; [|by eauto]. destruct (check_health name pm2); cbn [negb]; [|by eauto].
  assert (exists ok pm', check_rate name now pm2 = Some (ok, pm')) as (ok & pm' & Hr).
  { unfold check_rate. destruct (rl_Enabled _) eqn:Er; [|by eauto].
    destruct (pm_rateLimitStates pm2 !! name) as [rls|]; [|by eauto].
    destruct (CanMakeRequest_total (cc_RateLimit (pm_config pm2)) now rls (mi_rate _ _ Hi2 Er)) as [[b rl] ->].
    cbn. by eauto. }
  exists ok, pm'. pose proof (check_rate_ext _ _ _ _ _ Hr) as Hx3.
  split_and!; [done| |by eapply ext_trans]. eapply mgr_inv_ext; [done|done|].
  destruct (check_rate_frame _ _ _ _ _ Hr) as (_ & -> & _). apply Hi2.
Qed.

Lemma filter_available_inv m now l acc pm :
  mgr_inv m pm ->
  exists l' pm', filter_available now l acc pm = Some (acc ++ l', pm') /\ mgr_inv m pm' /\ ext pm pm'
    /\ l' `sublist_of` l.
Proof.
  revert acc pm. induction l as [|p l IH]; intros acc pm Hi; cbn [filter_available].
  { exists [], pm. rewrite app_nil_r. split_and!; [done..|apply ext_refl|done]. }
  destruct (isProviderAvailable_inv m (pc_Name p) now pm Hi) as (ok & pm1 & -> & Hi1 & Hx1).
  cbn [mbind option_bind]. destruct ok.
  - destruct (IH (acc ++ [p]) pm1 Hi1) as (l' & pm' & -> & Hi' & Hx' & Hs).
    exists (p :: l'), pm'. rewrite <-app_assoc. split_and!; [done..|by eapply ext_trans|by constructor].
  - destruct (IH acc pm1 Hi1) as (l' & pm' & -> & Hi' & Hx' & Hs).
    exists l', pm'. split_and!; [done..|by eapply ext_trans|by constructor].
Qed.

Context {E : Type} `{ScoringEngineLaws E, GoRand}.

Lemma getAvailableProviders_inv m now (e : E) pm :
  mgr_inv m pm -> m < 2 ^ 62 ->
  exists l l' pm', getAvailableProviders now e pm = Some (l, pm') /\ mgr_inv m pm'
    /\ l ≡ₚ l' /\ l' `sublist_of` pm_providers pm
    /\ pm_providers pm' = pm_providers pm /\ pm_config pm' = pm_config pm
    /\ pm_scoringEngine pm' = pm_scoringEngine pm
    /\ pm_selectedProvider pm' = pm_selectedProvider pm.
Proof.
  intros Hi Hm. unfold getAvailableProviders.
  destruct (filter_available_inv m now (pm_providers pm) [] pm Hi) as (l' & pm1 & Hf & Hi1 & Hx & Hs).
  rewrite Hf. cbn [mbind option_bind app].
  assert (zlen l' < 2 ^ 62) as Hl by (pose proof (sublist_length _ _ Hs); pose proof (mi_len _ _ Hi); unfold zlen in *; lia).
  destruct (select_perm_all (pm_failureTracker pm1) e l' (pm_selector pm1) (mi_sel _ _ Hi1) Hl)
    as (l & s' & -> & Hs' & Hp & _).
  cbn. exists l, l', (set_pm_selector s' pm1). split_and!; [done| |done|done|apply Hx..].
  destruct Hi1. by split.
Qed.

(** Outcomes keep the invariant. *)
Lemma success_circuit_ok T c now cs : 0 < T -> circ_ok T cs -> circ_ok T (success_circuit c now cs).
Proof.
  intros HT Hc. unfold success_circuit. cbv zeta. case_match; intros Hs; cbn in *; [lia|].
  destruct (Hc Hs). lia.
Qed.

Lemma failed_circuit_ok T now cs : circ_ok T cs -> circ_ok T (failed_circuit T now cs).
Proof.
  intros Hc. unfold failed_circuit. cbv zeta. case_match; intros Hs; [done|].
  destruct (bool_decide _) eqn:Eb in Hs |- *; cbn in *.
  - apply bool_decide_eq_true in Eb. congruence.
  - rewrite bool_decide_eq_false_2 in * by congruence. destruct (Hc Hs). cbn in *. go_lia.
Qed.

Lemma map_Forall_alter {A} (Q : A -> Prop) f k (m : gmap string A) :
  (forall a, Q a -> Q (f a)) -> map_Forall (fun _ => Q) m -> map_Forall (fun _ => Q) (alter f k m).
Proof.
  intros Hf Hm j a. rewrite lookup_alter_Some. intros [(<- & b & Hb & ->)|[_ Ha]]; [|by eapply Hm].
  apply Hf. by eapply Hm.
Qed.

Lemma update_success_inv m name clk pm :
  mgr_inv m pm -> mgr_inv m (update_success name clk pm) /\ ext pm (update_success name clk pm).
Proof.
  intros Hi. assert (ext pm (update_success name clk pm)) as Hx.
  { unfold update_success. repeat case_match; split_and!; cbn; auto. }
  split; [|done]. eapply mgr_inv_ext; [done|done|]. pose proof (mi_circ _ _ Hi) as Hc.
  pose proof (mi_threshold _ _ Hi). unfold update_success.
  repeat case_match; cbn; try done; apply map_Forall_alter; auto using success_circuit_ok.
Qed.

Lemma updateFailureState_inv m name now pm :
  mgr_inv m pm -> mgr_inv m (updateFailureState name now pm) /\ ext pm (updateFailureState name now pm).
Proof.
  intros Hi. assert (ext pm (updateFailureState name now pm)) as Hx.
  { unfold updateFailureState. repeat case_match; split_and!; cbn; auto. }
  split; [|done]. eapply mgr_inv_ext; [done|done|]. pose proof (mi_circ _ _ Hi) as Hc.
  unfold updateFailureState. repeat case_match; cbn; try done; apply map_Forall_alter; auto using failed_circuit_ok.
Qed.

Lemma handleAuthFailure_inv m name now pm :
  mgr_inv m pm -> mgr_inv m (handleAuthFailure name now pm) /\ ext pm (handleAuthFailure name now pm).
Proof.
  intros Hi. assert (ext pm (handleAuthFailure name now pm)) as Hx.
  { unfold handleAuthFailure. repeat case_match; split_and!; cbn; auto. }
  split; [|done]. eapply mgr_inv_ext; [done|done|]. pose proof (mi_circ _ _ Hi) as Hc.
  unfold handleAuthFailure. repeat case_match; cbn; try done. by apply map_Forall_alter.
Qed.

Lemma emit_ok n ev clk pm (e : E) :
  se_ok n e -> n + 1 < 2 ^ 53 -> exists e', emit ev clk pm e = Some e' /\ se_ok (n + 1) e'.
Proof.
  intros He Hn. unfold emit. destruct (pm_scoringEngine pm); [by apply se_RecordEvent_ok|].
  exists e. split; [done|]. eapply se_ok_mono; [|done]. lia.
Qed.

Lemma recordFailureWithError_inv m n meta name err rt clk pm (e : E) :
  mgr_inv m pm -> se_ok n e -> n + 1 < 2 ^ 53 ->
  exists pm' e', recordFailureWithError meta name err rt clk pm e = Some (pm', e')
    /\ mgr_inv m pm' /\ ext pm pm' /\ se_ok (n + 1) e'.
Proof.
  intros Hi He Hn. unfold recordFailureWithError. cbv zeta.
  destruct (updateFailureState_inv m name (clk 0%nat) pm Hi) as [Hi1 Hx1].
  destruct (emit_ok n (failure_event meta name err rt (clk 0%nat) (clk 1%nat)) (clk_skip 2 clk)
    (updateFailureState name (clk 0%nat) pm) e He Hn) as (e' & -> & He'). cbn [mbind option_bind].
  eexists _, e'. split; [done|]. destruct (errors_is err ErrAuthFailure); [|by split_and!].
  destruct (handleAuthFailure_inv m name (clk 0%nat) _ Hi1) as [Hi2 Hx2].
  split_and!; [done|by eapply ext_trans|done].
Qed.

Lemma recordSuccessWithLatency_inv m n name rt clk pm (e : E) :
  mgr_inv m pm -> se_ok n e -> n + 2 < 2 ^ 53 ->
  exists pm' e', recordSuccessWithLatency name rt clk pm e = Some (pm', e')
    /\ mgr_inv m pm' /\ ext pm pm' /\ se_ok (n + 2) e'.
Proof.
  intros Hi He Hn. unfold recordSuccessWithLatency, recordSuccess. cbv zeta.
  destruct (update_success_inv m name clk pm Hi) as [Hi1 Hx1].
  destruct (emit_ok n (success_event name (clk 2%nat) 0) (clk_skip 3 clk) (update_success name clk pm) e He)
    as (e1 & -> & He1); [lia|]. cbn [mbind option_bind].
  destruct (emit_ok (n + 1) (success_event name (clk 10%nat) rt) (clk_skip 11 clk) (update_success name clk pm) e1 He1)
    as (e2 & -> & He2); [lia|]. cbn [mbind option_bind].
  eexists _, _. split_and!; [done..|]. by replace (n + 2) with (n + 1 + 1) by lia.
Qed.

Lemma addProvider_inv `{SortSlice} m provider priority name clk pm :
  mgr_inv m pm -> mgr_inv (m + 1) (addProvider provider priority name clk pm).
Proof.
  intros [Hr Hs Hl Ht Hc Hsort Htr]. destruct provider as [p|]; cbn; [|split; try done; lia].
  split; cbn; try done.
  - rewrite (zlen_perm _ _ (sort_slice_perm _ _)), zlen_app. change (zlen [_]) with 1. lia.
  - apply map_Forall_insert_2; [|done]. intros _. cbn. lia.
  - apply sort_slice_sorted.
  - apply Forall_forall. intros q Hq. rewrite sort_slice_perm in Hq.
    apply elem_of_app in Hq as [Hq | ->%list_elem_of_singleton].
    + rewrite Forall_forall in Htr. destruct (Htr q Hq) as (? & ? & ? & ?).
      split_and!; apply elem_of_dom, dom_insert_sub; by apply elem_of_dom.
    + split_and!; cbn; by rewrite lookup_insert_eq.
Qed.

(** ** Sequences of operations *)

Inductive mgr_cmd :=
  | MAdd (provider : option P) (priority : Z) (name : string) (clk : clock)
  | MAvailable (now : Time)
  | MSuccess (name : string) (rt : Duration) (clk : clock)
  | MFailure (meta : option OperationMetadata) (name : string) (err : error) (rt : Duration) (clk : clock).

Definition mgr_step `{SortSlice} (s : providerManager P * E) (c : mgr_cmd) : go (providerManager P * E) :=
  let '(pm, e) := s in
  match c with
  | MAdd provider priority name clk => Some (addProvider provider priority name clk pm, e)
  | MAvailable now => '(_, pm) ← getAvailableProviders now e pm; Some (pm, e)
  | MSuccess name rt clk => recordSuccessWithLatency name rt clk pm e
  | MFailure meta name err rt clk => recordFailureWithError meta name err rt clk pm e
  end.

Lemma mgr_inv_mono m m' pm : m <= m' -> mgr_inv m pm -> mgr_inv m' pm.
Proof. intros Hm []. split; try done. lia. Qed.

Lemma mgr_step_inv `{SortSlice} m n c pm (e : E) :
  mgr_inv m pm -> se_ok n e -> m < 2 ^ 62 -> n + 2 < 2 ^ 53 ->
  exists pm' e', mgr_step (pm, e) c = Some (pm', e') /\ mgr_inv (m + 1) pm' /\ se_ok (n + 2) e'.
Proof.
  intros Hi He Hm Hn. destruct c; cbn [mgr_step].
  - eexists _, _. split; [done|]. split; [by apply addProvider_inv|]. eapply se_ok_mono; [|done]. lia.
  - destruct (getAvailableProviders_inv m now e pm Hi Hm) as (l & l' & pm' & -> & Hi' & _). cbn.
    eexists _, _. split; [done|]. split; [eapply mgr_inv_mono; [|done]; lia|]. eapply se_ok_mono; [|done]. lia.
  - destruct (recordSuccessWithLatency_inv m n name rt clk pm e Hi He Hn) as (pm' & e' & -> & Hi' & _ & He').
    eexists _, _. split; [done|]. split; [eapply mgr_inv_mono; [|done]; lia|done].
  - destruct (recordFailureWithError_inv m n meta name err rt clk pm e Hi He) as (pm' & e' & -> & Hi' & _ & He'); [lia|].
    eexists _, _. split; [done|]. split; [eapply mgr_inv_mono; [|done]; lia|eapply se_ok_mono; [|done]; lia].
Qed.

Lemma mgr_run_inv `{SortSlice} m n l pm (e : E) :
  mgr_inv m pm -> se_ok n e -> m + zlen l < 2 ^ 62 -> n + 2 * zlen l < 2 ^ 53 ->
  exists pm' e', go_foldl mgr_step (pm, e) l = Some (pm', e')
    /\ mgr_inv (m + zlen l) pm' /\ se_ok (n + 2 * zlen l) e'.
Proof.
  revert m n pm e. induction l as [|c l IH]; intros m n pm e Hi He Hm Hn.
  { exists pm, e. change (zlen []) with 0. by rewrite Z.add_0_r, Z.mul_0_r, Z.add_0_r. }
  rewrite zlen_cons in *. pose proof (zlen_nonneg l).
  destruct (mgr_step_inv m n c pm e Hi He) as (pm1 & e1 & Hs & Hi1 & He1); [lia..|].
  cbn [go_foldl]. rewrite Hs. cbn [mbind option_bind].
  destruct (IH (m + 1) (n + 2) pm1 e1 Hi1 He1) as (pm' & e' & -> & Hi' & He'); [lia..|].
  exists pm', e'. split_and!; [done| |].
  - by replace (m + (1 + zlen l)) with (m + 1 + zlen l) by lia.
  - by replace (n + 2 * (1 + zlen l)) with (n + 2 + 2 * zlen l) by lia.
Qed.

Lemma newProviderManager_inv config seed :
  0 <= cc_MaxConcurrency config -> 0 < cb_FailureThreshold (cc_CircuitBreaker config) ->
  (rl_Enabled (cc_RateLimit config) = true -> rl_sane (cc_RateLimit config)) ->
  exists pm : providerManager P, newProviderManager config seed = Some pm /\ mgr_inv 0 pm.
Proof.
  intros Hm Ht Hr. unfold newProviderManager, make_semaphore.
  destruct (_ <? 0) eqn:Ez; [go_lia|]. cbn. eexists. split; [done|]. split; cbn; try done.
  - unfold newSelectionStrategy, selector_or_priority.
    repeat case_match; simplify_eq; try done; cbn; intros k i; by rewrite lookup_empty.
  - constructor.
Qed.
End invariant.

(** C3: whatever sequence of additions, availability checks, successes and
    failures a new manager goes through (with a sane rate limit), nothing
    panics, its providers stay sorted by priority and fully tracked, and a
    closed breaker always has fewer consecutive failures than the threshold
    and no half-open calls. *)
Theorem manager_invariant {P E} `{ScoringEngineLaws E, GoRand, SortSlice}
    config seed (e : E) (l : list (mgr_cmd (P := P))) :
  0 <= cc_MaxConcurrency config -> 0 < cb_FailureThreshold (cc_CircuitBreaker config) ->
  (rl_Enabled (cc_RateLimit config) = true -> rl_sane (cc_RateLimit config)) ->
  se_ok 0 e -> 2 * zlen l < 2 ^ 53 ->
  exists pm0 pm e', newProviderManager config seed = Some pm0
    /\ go_foldl mgr_step (pm0, e) l = Some (pm, e')
    /\ StronglySorted (fun p q => pc_Priority p <= pc_Priority q) (pm_providers pm)
    /\ Forall (tracked pm) (pm_providers pm)
    /\ map_Forall (fun _ => circ_ok (cb_FailureThreshold (cc_CircuitBreaker (pm_config pm)))) (pm_circuitStates pm).
Proof.
  intros Hm Ht Hr He Hl. destruct (newProviderManager_inv (P := P) config seed Hm Ht Hr) as (pm0 & Hpm0 & Hi).
  destruct (mgr_run_inv 0 0 l pm0 e Hi He) as (pm & e' & Hrun & [] & _); [lia..|].
  by exists pm0, pm, e'.
Qed.

(** The commands of a concrete run: five failures trip the breaker, a check
    after the timeout probes it, one success and three failures follow. *)
Definition at_time (t : Time) : clock := fun _ => t.

Definition demo_fail (t : Time) : mgr_cmd (P := nat) :=
  MFailure None "mempool" (errOther "connection refused") 0 (at_time t).

Definition demo_mgr_cmds : list (mgr_cmd (P := nat)) :=
  [MAdd (Some 0%nat) 1 "mempool" (at_time 0)]
  ++ replicate 5 (demo_fail Second)
  ++ [MAvailable (40 * Second); MSuccess "mempool" 0 (at_time (41 * Second))]
  ++ replicate 3 (demo_fail (42 * Second)).

Lemma manager_invariant_witness :
  let _ := flat_engine in let _ := flat_engine_laws in let _ := lcg_rand in let _ := insertion_sort_slice in
  exists pm0 pm e', newProviderManager (DefaultChainConfig ProviderChainTxBroadcasters) 0 = Some pm0
    /\ go_foldl mgr_step (pm0, tt) demo_mgr_cmds = Some (pm, e')
    /\ StronglySorted (fun p q => pc_Priority p <= pc_Priority q) (pm_providers pm)
    /\ Forall (tracked pm) (pm_providers pm)
    /\ map_Forall (fun _ => circ_ok (cb_FailureThreshold (cc_CircuitBreaker (pm_config pm)))) (pm_circuitStates pm).
Proof.
  intros F L G S. apply manager_invariant; try done; vm_compute; congruence.
Defined.

(** ** Transitions *)

Section transitions.
Context {P : Type}.
Implicit Types pm : providerManager P.

(** An availability check only ever probes. *)
Definition probe_opt (a b : option circuit) : Prop := b = a \/ a = Some OPEN /\ b = Some HALF_OPEN.

Lemma probe_trans a b c : probe_opt a b -> probe_opt b c -> probe_opt a c.
Proof. unfold probe_opt. intros [->|[-> ->]] [->|[Hb ->]]; auto; done. Qed.

Lemma probe_edge a b : probe_opt a b -> edge_opt a b.
Proof. intros [->|[-> ->]]; [apply edge_opt_refl|constructor]. Qed.

Lemma check_circuit_probe name now pm k :
  probe_opt (circuit_of k pm) (circuit_of k (check_circuit name now pm).2).
Proof.
  unfold check_circuit. destruct (negb _); [by left|].
  destruct (pm_circuitStates pm !! name) as [cs|] eqn:Ecs; [|by left].
  destruct (cs_State cs) eqn:Es; [by left| |by left]. destruct (_ <=? _); [|by left].
  unfold circuit_of. cbn. destruct (decide (k = name)) as [->|Hne].
  - right. rewrite lookup_insert_eq, Ecs. cbn. by rewrite Es.
  - left. by rewrite lookup_insert_ne.
Qed.

Lemma isProviderAvailable_probe name now pm ok pm' k :
  isProviderAvailable name now pm = Some (ok, pm') -> probe_opt (circuit_of k pm) (circuit_of k pm').
Proof.
  intros Ha. apply isProviderAvailable_cases in Ha. cbv zeta in Ha.
  pose proof (check_circuit_probe name now (check_failure name now pm).2 k) as Hp.
  assert (circuit_of k (check_failure name now pm).2 = circuit_of k pm) as Hf.
  { unfold circuit_of. destruct (check_failure_frame name now pm) as (-> & _). done. }
  rewrite Hf in Hp. destruct Ha as [(_ & _ & ->)|[(_ & _ & _ & ->)|(_ & _ & [(_ & _ & ->)|[_ Hr]])]]; try done.
  - left. done.
  - unfold circuit_of at 2. destruct (check_rate_frame _ _ _ _ _ Hr) as (_ & -> & _). done.
Qed.

Lemma filter_available_probe now l acc pm r pm' k :
  filter_available now l acc pm = Some (r, pm') -> probe_opt (circuit_of k pm) (circuit_of k pm').
Proof.
  revert acc pm. induction l as [|p l IH]; intros acc pm; cbn [filter_available].
  { intros [= _ <-]. by left. }
  intros ([ok pm1] & H1 & H2)%bind_some. eapply probe_trans; [by eapply isProviderAvailable_probe|by eapply IH].
Qed.

Context {E : Type} `{ScoringEngine E, GoRand, SortSlice}.

Lemma getAvailableProviders_probe now (e : E) pm l pm' k :
  getAvailableProviders now e pm = Some (l, pm') -> probe_opt (circuit_of k pm) (circuit_of k pm').
Proof.
  intros ([l1 pm1] & Hf & ([l2 s] & _ & [= <- <-])%bind_some)%bind_some.
  by eapply filter_available_probe in Hf.
Qed.

Lemma alter_circuit_edge f name pm k :
  (forall cs, edge (cs_State cs) (cs_State (f cs))) ->
  edge_opt (cs_State <$> pm_circuitStates pm !! k) (cs_State <$> alter f name (pm_circuitStates pm) !! k).
Proof.
  intros Hf. destruct (decide (k = name)) as [->|Hne].
  - rewrite lookup_alter_eq. destruct (pm_circuitStates pm !! name); cbn; [apply Hf|done].
  - rewrite lookup_alter_ne by done. apply edge_opt_refl.
Qed.

Lemma update_success_edge name clk pm k : edge_opt (circuit_of k pm) (circuit_of k (update_success name clk pm)).
Proof.
  unfold update_success, circuit_of.
  repeat case_match; cbn; try apply edge_opt_refl; apply alter_circuit_edge; intros; apply success_circuit_edge.
Qed.

Lemma updateFailureState_edge name now pm k :
  edge_opt (circuit_of k pm) (circuit_of k (updateFailureState name now pm)).
Proof.
  unfold updateFailureState, circuit_of.
  repeat case_match; cbn; try apply edge_opt_refl; apply alter_circuit_edge; intros; apply failed_circuit_edge.
Qed.

(** The two updates of an authentication failure compose to one edge. *)
Lemma auth_failure_edge name now pm k :
  edge_opt (circuit_of k pm) (circuit_of k (handleAuthFailure name now (updateFailureState name now pm))).
Proof.
  pose proof (updateFailureState_edge name now pm k) as Hu.
  set (pm1 := updateFailureState name now pm) in *. clearbody pm1.
  assert (circuit_of k (handleAuthFailure name now pm1) = circuit_of k pm1
          \/ is_Some (circuit_of k pm1) /\ circuit_of k (handleAuthFailure name now pm1) = Some OPEN) as [->|[Hs ->]];
    [|done|].
  - unfold handleAuthFailure, circuit_of. repeat case_match; cbn; try (by left).
    destruct (decide (k = name)) as [->|Hne].
    + rewrite lookup_alter_eq. destruct (pm_circuitStates pm1 !! name); cbn; [right; by eauto|by left].
    + rewrite lookup_alter_ne by done. by left.
  - destruct Hs as [c1 Hc1]. rewrite Hc1 in Hu.
    destruct (circuit_of k pm) as [[]|]; cbn in *; [constructor..|done].
Qed.
End transitions.

(** C25: every availability check, success report and failure report moves each
    provider's breaker along an edge of the state machine (trip, probe,
    reopen, close, or stay): an open breaker never closes without first
    becoming half-open, and a closed one never becomes half-open directly. *)
Theorem circuit_transitions {P E} `{ScoringEngine E, GoRand, SortSlice}
    (c : mgr_cmd (P := P)) pm pm' (e e' : E) name :
  mgr_step (pm, e) c = Some (pm', e') -> (forall p k n clk, c <> MAdd p k n clk) ->
  edge_opt (circuit_of name pm) (circuit_of name pm').
Proof.
  intros Hs Hc. destruct c as [p k n clk|now|n rt clk|meta n err rt clk]; cbn in Hs.
  - by destruct (Hc p k n clk).
  - apply bind_some in Hs as ([l pm1] & Ha & [= <- _]). by eapply probe_edge, getAvailableProviders_probe.
  - apply bind_some in Hs as ([pm1 e1] & Hs & (e2 & _ & [= <- _])%bind_some).
    apply bind_some in Hs as (e3 & _ & [= <- _]). apply update_success_edge.
  - apply bind_some in Hs as (e1 & _ & [= <- _]).
    destruct (errors_is err ErrAuthFailure); [apply auth_failure_edge|apply updateFailureState_edge].
Qed.

(** The state after a prefix of the concrete run. *)
Definition demo_run (l : list (mgr_cmd (P := nat))) : go (providerManager nat * unit) :=
  let _ := flat_engine in let _ := lcg_rand in let _ := insertion_sort_slice in
  pm ← newProviderManager (DefaultChainConfig ProviderChainTxBroadcasters) 0;
  go_foldl mgr_step (pm, tt) l.

Definition empty_manager {P} : providerManager P := {|
  pm_providers := []; pm_selectedProvider := ""%string; pm_failureTracker := ∅; pm_circuitStates := ∅;
  pm_healthStates := ∅; pm_rateLimitStates := ∅; pm_config := DefaultChainConfig ProviderChainTxBroadcasters;
  pm_semaphore := 0; pm_selector := priorityOnlySelector; pm_scoringEngine := false |}.

Definition demo_pm (l : list (mgr_cmd (P := nat))) : providerManager nat :=
  match demo_run l with Some (pm, _) => pm | None => empty_manager end.

Lemma circuit_transitions_witness :
  let _ := flat_engine in let _ := lcg_rand in let _ := insertion_sort_slice in
  circuit_of "mempool" (demo_pm (take 6 demo_mgr_cmds)) = Some OPEN
  /\ mgr_step (demo_pm (take 6 demo_mgr_cmds), tt) (MAvailable (40 * Second))
     = Some (demo_pm (take 7 demo_mgr_cmds), tt)
  /\ edge_opt (circuit_of "mempool" (demo_pm (take 6 demo_mgr_cmds)))
       (circuit_of "mempool" (demo_pm (take 7 demo_mgr_cmds))).
Proof.
  intros F G S. split; [vm_compute; reflexivity|].
  assert (mgr_step (demo_pm (take 6 demo_mgr_cmds), tt) (MAvailable (40 * Second))
     = Some (demo_pm (take 7 demo_mgr_cmds), tt)) as Hs by (vm_compute; reflexivity).
  split; [exact Hs|].
  exact (circuit_transitions _ _ _ tt tt "mempool" Hs (fun p k n clk => ltac:(discriminate))).
Defined.

(** ** Opening, blocking, recovering *)

Section breaker.
Context {P : Type}.
Implicit Types pm : providerManager P.

Definition failures (name : string) (ts : list Time) pm : providerManager P :=
  foldl (fun pm t => updateFailureState name t pm) pm ts.

Lemma failures_config name ts pm : pm_config (failures name ts pm) = pm_config pm.
Proof.
  revert pm. induction ts as [|t ts IH]; intros pm; [done|]. cbn. unfold failures in IH. rewrite IH.
  unfold updateFailureState. by repeat case_match.
Qed.

(** After [k] failures both counters are [k], and both times the last one. *)
Definition failed_times (T : Z) (ts : list Time) (f : failureInfo) (cs : circuitState) : Prop :=
  fi_ConsecutiveFailures f = zlen ts /\ cs_ConsecutiveFailures cs = zlen ts
  /\ (forall t, last ts = Some t -> fi_LastFailureTime f = t
        /\ (T <= zlen ts -> fi_IsTemporarilyDown f = true /\ cs_State cs = OPEN /\ cs_LastStateChange cs = t)).

Lemma failed_times_step T ts t f cs :
  zlen ts < max_int64 -> failed_times T ts f cs ->
  failed_times T (ts ++ [t]) (failed_failure T t f) (failed_circuit T t cs).
Proof.
  intros Hlen (Hf & Hc & _). pose proof (zlen_nonneg ts).
  assert (zlen (ts ++ [t]) = zlen ts + 1) as Hn by (rewrite zlen_app; done).
  unfold failed_times. rewrite Hn. split_and!.
  - unfold failed_failure. cbv zeta. case_match; cbn; rewrite Hf; apply wrap64_id; int_range.
  - unfold failed_circuit. cbv zeta. repeat case_match; cbn; rewrite Hc; apply wrap64_id; int_range.
  - intros t' Ht'. rewrite last_snoc in Ht'. injection Ht' as <-. split.
    + unfold failed_failure. cbv zeta. by case_match.
    + intros HT. unfold failed_failure, failed_circuit. cbv zeta. cbn [fi_ConsecutiveFailures
        set_fi_TotalFailures set_fi_LastFailureTime set_fi_ConsecutiveFailures].
      rewrite Hf, wrap64_id by int_range.
      destruct (T <=? zlen ts + 1) eqn:E1; [|go_lia].
      destruct (bool_decide _); cbn; rewrite Hc, wrap64_id, E1 by int_range; done.
Qed.

Lemma failures_spec name ts pm f cs :
  cb_Enabled (cc_CircuitBreaker (pm_config pm)) = true ->
  pm_failureTracker pm !! name = Some f -> pm_circuitStates pm !! name = Some cs ->
  fi_ConsecutiveFailures f = 0 -> cs_ConsecutiveFailures cs = 0 -> zlen ts <= max_int64 ->
  exists f' cs', pm_failureTracker (failures name ts pm) !! name = Some f'
    /\ pm_circuitStates (failures name ts pm) !! name = Some cs'
    /\ fi_ConsecutiveAuthFailures f' = fi_ConsecutiveAuthFailures f
    /\ failed_times (cb_FailureThreshold (cc_CircuitBreaker (pm_config pm))) ts f' cs'.
Proof.
  intros He Hf Hcs H0 H0'. induction ts as [|t ts IH] using rev_ind; intros Hlen.
  { exists f, cs. by split_and!. }
  rewrite zlen_app in Hlen. change (zlen [t]) with 1 in Hlen.
  destruct IH as (f1 & cs1 & Hf1 & Hcs1 & Ha1 & Hft); [lia|]. unfold failures. rewrite foldl_app. cbn [foldl].
  fold (failures name ts pm). unfold updateFailureState. rewrite failures_config, Hf1. cbn. rewrite failures_config, He.
  eexists _, _. cbn. rewrite lookup_insert_eq, lookup_alter_eq, Hcs1. split_and!; [done|done| |].
  - rewrite <-Ha1. unfold failed_failure. cbv zeta. by case_match.
  - apply failed_times_step; [lia|done].
Qed.

(** A provider whose circuit has been open for less than its timeout. *)
Lemma open_blocks name now pm cs :
  cb_Enabled (cc_CircuitBreaker (pm_config pm)) = true ->
  pm_circuitStates pm !! name = Some cs -> cs_State cs = OPEN ->
  time_sub now (cs_LastStateChange cs) < circuit_timeout name pm ->
  exists pm', isProviderAvailable name now pm = Some (false, pm').
Proof.
  intros He Hcs Ho Ht. unfold isProviderAvailable.
  destruct (check_failure name now pm) as [[] pm1] eqn:Ef; cbn [negb]; [|by eauto].
  assert (pm_circuitStates pm1 = pm_circuitStates pm /\ pm_config pm1 = pm_config pm
          /\ circuit_timeout name pm1 = circuit_timeout name pm) as (Hc1 & Hc2 & Hc3).
  { unfold check_failure in Ef. destruct (pm_failureTracker pm !! name) as [f|] eqn:Ff; [|by simplify_eq].
    destruct (fi_IsTemporarilyDown f); [|by simplify_eq]. destruct (_ <=? _); [|by simplify_eq].
    simplify_eq. split_and!; [done..|]. unfold circuit_timeout. cbn. by rewrite lookup_insert_eq, Ff. }
  unfold check_circuit. rewrite Hc2, He, Hc1, Hcs, Ho, Hc3. cbn [negb].
  destruct (_ <=? _) eqn:E; [go_lia|]. cbn. by eauto.
Qed.
End breaker.

(** From a closed breaker without failures, as many consecutive failures as the
    threshold open it. *)
Lemma breaker_opens {P} name ts t (pm : providerManager P) f cs :
  let T := cb_FailureThreshold (cc_CircuitBreaker (pm_config pm)) in
  cb_Enabled (cc_CircuitBreaker (pm_config pm)) = true ->
  pm_failureTracker pm !! name = Some f -> pm_circuitStates pm !! name = Some cs ->
  fi_ConsecutiveFailures f = 0 -> cs_ConsecutiveFailures cs = 0 ->
  T <= zlen ts <= max_int64 -> last ts = Some t ->
  circuit_of name (failures name ts pm) = Some OPEN
  /\ forall now, time_sub now t < circuit_timeout name pm ->
       exists pm', isProviderAvailable name now (failures name ts pm) = Some (false, pm').
Proof.
  intros T He Hf Hcs H0 H0' HT Hlast.
  destruct (failures_spec name ts pm f cs He Hf Hcs H0 H0') as (f' & cs' & Hf' & Hcs' & Ha & _ & _ & Hl); [lia|].
  destruct (Hl t Hlast) as [_ (_ & Ho & Ht)]; [lia|]. split.
  - unfold circuit_of. rewrite Hcs'. cbn. by rewrite Ho.
  - intros now Hnow. apply (open_blocks _ _ _ cs'); [by rewrite failures_config|done|done|]. rewrite Ht.
    unfold circuit_timeout in *. by rewrite Hf', Ha, failures_config, Hf in *.
Qed.

(** The manager state after an authentication failure. *)
Definition auth_failure {P} (name : string) (now : Time) (pm : providerManager P) : providerManager P :=
  handleAuthFailure name now (updateFailureState name now pm).

Lemma recordFailure_auth_state {P E} `{ScoringEngine E} meta name err rt clk (pm pm' : providerManager P) (e e' : E) :
  errors_is err ErrAuthFailure = true ->
  recordFailureWithError meta name err rt clk pm e = Some (pm', e') -> pm' = auth_failure name (clk 0%nat) pm.
Proof. intros Ha (e1 & _ & [= <- _])%bind_some. by rewrite Ha. Qed.

Lemma auth_failure_step {P} name t (pm : providerManager P) f cs :
  cb_Enabled (cc_CircuitBreaker (pm_config pm)) = true ->
  pm_failureTracker pm !! name = Some f -> pm_circuitStates pm !! name = Some cs ->
  0 <= fi_ConsecutiveAuthFailures f < max_int64 ->
  exists f' cs', pm_failureTracker (auth_failure name t pm) !! name = Some f'
    /\ pm_circuitStates (auth_failure name t pm) !! name = Some cs'
    /\ pm_config (auth_failure name t pm) = pm_config pm
    /\ fi_ConsecutiveAuthFailures f' = fi_ConsecutiveAuthFailures f + 1
    /\ (authFailureCircuitThreshold <= fi_ConsecutiveAuthFailures f + 1 ->
        cs_State cs' = OPEN /\ cs_LastStateChange cs' = t).
Proof.
  intros He Hf Hcs Ha. unfold auth_failure, updateFailureState. rewrite Hf. cbn. rewrite He.
  unfold handleAuthFailure. cbn. rewrite lookup_insert_eq. cbn.
  assert (fi_ConsecutiveAuthFailures (failed_failure (cb_FailureThreshold (cc_CircuitBreaker (pm_config pm))) t f)
          = fi_ConsecutiveAuthFailures f) as -> by (unfold failed_failure; cbv zeta; by case_match).
  rewrite wrap64_id by int_range. rewrite He.
  destruct (_ <? authFailureCircuitThreshold) eqn:E; cbn; rewrite lookup_insert_eq, !lookup_alter_eq, Hcs; cbn;
    eexists _, _; (split_and!; [done..|]); [intros; go_lia|done].
Qed.

(** Three authentication failures in a row open the breaker whatever its
    failure threshold, and the provider stays unavailable for the extended
    timeout of ten minutes after the third. *)
Theorem auth_failures_open {P} name t1 t2 t3 (pm : providerManager P) f cs :
  cb_Enabled (cc_CircuitBreaker (pm_config pm)) = true ->
  pm_failureTracker pm !! name = Some f -> pm_circuitStates pm !! name = Some cs ->
  fi_ConsecutiveAuthFailures f = 0 ->
  let pm3 := auth_failure name t3 (auth_failure name t2 (auth_failure name t1 pm)) in
  circuit_of name pm3 = Some OPEN
  /\ forall now, time_sub now t3 < 10 * Minute -> exists pm', isProviderAvailable name now pm3 = Some (false, pm').
Proof.
  intros He Hf Hcs H0.
  destruct (auth_failure_step name t1 pm f cs He Hf Hcs) as (f1 & cs1 & Hf1 & Hcs1 & Hc1 & Ha1 & _); [int_range|].
  rewrite <-Hc1 in He. destruct (auth_failure_step name t2 _ f1 cs1 He Hf1 Hcs1) as (f2 & cs2 & Hf2 & Hcs2 & Hc2 & Ha2 & _);
    [int_range|].
  rewrite <-Hc2 in He. destruct (auth_failure_step name t3 _ f2 cs2 He Hf2 Hcs2) as (f3 & cs3 & Hf3 & Hcs3 & Hc3 & Ha3 & Ho);
    [int_range|].
  destruct Ho as [Ho Ht]; [unfold authFailureCircuitThreshold; lia|]. cbv zeta. split.
  - unfold circuit_of. rewrite Hcs3. cbn. by rewrite Ho.
  - intros now Hnow. eapply open_blocks; [by rewrite Hc3|done|done|]. rewrite Ht. unfold circuit_timeout. rewrite Hf3.
    destruct (_ <=? _) eqn:E; [done|]. unfold authFailureCircuitThreshold in E. go_lia.
Qed.

Lemma auth_failures_open_witness :
  let pm := demo_pm (take 1 demo_mgr_cmds) in
  let pm3 := auth_failure "mempool" 3 (auth_failure "mempool" 2 (auth_failure "mempool" 1 pm)) in
  circuit_of "mempool" pm3 = Some OPEN
  /\ forall now, time_sub now 3 < 10 * Minute -> exists pm', isProviderAvailable "mempool" now pm3 = Some (false, pm').
Proof. intros pm. eapply auth_failures_open; vm_compute; reflexivity. Defined.

(** ** Half-open *)

Section half_open.
Context {P : Type}.
Implicit Types pm : providerManager P.

(** Half-open with its call budget used up. *)
Definition locked (name : string) pm : Prop :=
  cb_Enabled (cc_CircuitBreaker (pm_config pm)) = true
  /\ exists cs, pm_circuitStates pm !! name = Some cs /\ cs_State cs = HALF_OPEN
      /\ cb_HalfOpenMaxCalls (cc_CircuitBreaker (pm_config pm)) <= cs_HalfOpenCalls cs.

(** The availability checks of a provider at successive times. *)
Fixpoint availability_checks (name : string) (nows : list Time) pm : go (list bool * providerManager P) :=
  match nows with
  | [] => Some ([], pm)
  | now :: nows =>
      '(ok, pm) ← isProviderAvailable name now pm;
      '(oks, pm) ← availability_checks name nows pm;
      Some (ok :: oks, pm)
  end.

Lemma locked_check name now pm :
  locked name pm -> exists pm', isProviderAvailable name now pm = Some (false, pm') /\ locked name pm'.
Proof.
  intros (He & cs & Hcs & Hs & Hm). unfold isProviderAvailable.
  pose proof (check_failure_frame name now pm) as (Hc1 & Hc2 & _).
  destruct (check_failure name now pm) as [ok pm1]. cbn [snd] in *.
  assert (locked name pm1) as Hl by (split; [by rewrite Hc2|]; exists cs; by rewrite Hc1, Hc2).
  destruct ok; cbn [negb]; [|by eauto].
  unfold check_circuit. rewrite Hc2, He, Hc1, Hcs, Hs. cbn [negb].
  destruct (_ <=? _) eqn:E; [|go_lia]. cbn. by eauto.
Qed.

Lemma locked_forever name nows pm :
  locked name pm ->
  exists pm', availability_checks name nows pm = Some (replicate (length nows) false, pm') /\ locked name pm'.
Proof.
  revert pm. induction nows as [|now nows IH]; intros pm Hl; [by eauto|].
  destruct (locked_check name now pm Hl) as (pm1 & Ha & Hl1). destruct (IH pm1 Hl1) as (pm2 & Hb & Hl2).
  cbn. rewrite Ha. cbn. rewrite Hb. cbn. by eauto.
Qed.

Definition successes (name : string) (clks : list clock) pm : providerManager P :=
  foldl (fun pm clk => update_success name clk pm) pm clks.

Lemma update_success_circuit name clk pm cs :
  cb_Enabled (cc_CircuitBreaker (pm_config pm)) = true -> pm_circuitStates pm !! name = Some cs ->
  pm_circuitStates (update_success name clk pm) !! name
    = Some (success_circuit (cc_CircuitBreaker (pm_config pm)) (clk 0%nat) cs)
  /\ pm_config (update_success name clk pm) = pm_config pm.
Proof.
  intros He Hcs. unfold update_success. cbn. rewrite He. cbn.
  destruct (rl_Enabled _); cbn; by rewrite lookup_alter_eq, Hcs.
Qed.
End half_open.

(** C27: under the default configuration a breaker can reach a state from which
    its provider is never available again: after one probe that succeeds and
    three that fail, the breaker is still half-open with its call budget used
    up, no counter moves without a call, and every later availability check,
    however late, answers no. *)
Theorem half_open_lockout :
  exists pm, demo_run demo_mgr_cmds = Some (pm, tt)
    /\ pm_config pm = DefaultChainConfig ProviderChainTxBroadcasters
    /\ circuit_of "mempool" pm = Some HALF_OPEN
    /\ forall nows, exists pm',
         availability_checks "mempool" nows pm = Some (replicate (length nows) false, pm')
         /\ circuit_of "mempool" pm' = Some HALF_OPEN.
Proof.
  exists (demo_pm demo_mgr_cmds). split; [vm_compute; reflexivity|]. split; [vm_compute; reflexivity|].
  split; [vm_compute; reflexivity|]. intros nows.
  assert (locked "mempool" (demo_pm demo_mgr_cmds)) as Hl.
  { split; [vm_compute; reflexivity|].
    exists {| cs_State := HALF_OPEN; cs_LastStateChange := 40 * Second; cs_ConsecutiveFailures := 3;
              cs_ConsecutiveSuccesses := 0; cs_HalfOpenCalls := 3; cs_LastFailureTime := 42 * Second |}.
    split_and!; [vm_compute; reflexivity|reflexivity|vm_compute; discriminate]. }
  destruct (locked_forever "mempool" nows _ Hl) as (pm' & Hc & (_ & cs & Hcs & Hs & _)).
  exists pm'. split; [exact Hc|]. unfold circuit_of. rewrite Hcs. cbn. by rewrite Hs.
Qed.

(** From a half-open breaker, as many consecutive successes as the threshold
    close it. *)
Lemma breaker_recovers {P} name clks (pm : providerManager P) cs :
  let c := cc_CircuitBreaker (pm_config pm) in
  cb_Enabled c = true -> pm_circuitStates pm !! name = Some cs ->
  cs_State cs = HALF_OPEN -> cs_ConsecutiveSuccesses cs = 0 ->
  zlen clks = cb_SuccessThreshold c -> 0 < cb_SuccessThreshold c <= max_int64 ->
  exists cs', pm_circuitStates (successes name clks pm) !! name = Some cs'
    /\ cs_State cs' = CLOSED /\ cs_ConsecutiveFailures cs' = 0 /\ cs_HalfOpenCalls cs' = 0.
Proof.
  intros c He Hcs Hs H0 Hlen HT.
  assert (forall ks, zlen ks <= cb_SuccessThreshold c -> ks <> [] ->
    exists cs', pm_circuitStates (successes name ks pm) !! name = Some cs'
      /\ pm_config (successes name ks pm) = pm_config pm /\ cs_ConsecutiveSuccesses cs' = zlen ks
      /\ cs_ConsecutiveFailures cs' = 0
      /\ if zlen ks =? cb_SuccessThreshold c then cs_State cs' = CLOSED /\ cs_HalfOpenCalls cs' = 0
         else cs_State cs' = HALF_OPEN) as Hgen.
  { intros ks. induction ks as [|k ks IH] using rev_ind; intros Hk Hne; [done|].
    rewrite zlen_app in *. change (zlen [k]) with 1 in *. pose proof (zlen_nonneg ks).
    assert (exists cs1, pm_circuitStates (successes name ks pm) !! name = Some cs1
      /\ pm_config (successes name ks pm) = pm_config pm /\ cs_ConsecutiveSuccesses cs1 = zlen ks
      /\ cs_State cs1 = HALF_OPEN) as (cs1 & Hcs1 & Hc1 & Hn1 & Hs1).
    { destruct ks as [|k' ks']; [by exists cs|]. destruct IH as (cs1 & ? & ? & ? & ? & Hb); [lia|done|].
      exists cs1. split_and!; [done..|]. destruct (_ =? _) eqn:E in Hb; [go_lia|done]. }
    unfold successes. rewrite foldl_app. cbn [foldl]. fold (successes name ks pm).
    destruct (update_success_circuit name k (successes name ks pm) cs1) as [-> ->]; [rewrite Hc1; exact He|exact Hcs1|].
    rewrite Hc1. fold c. eexists. split; [done|]. split; [done|].
    unfold success_circuit. cbv zeta. cbn. rewrite Hs1, Hn1, wrap64_id by int_range.
    rewrite bool_decide_eq_true_2 by done. cbn [andb].
    destruct (cb_SuccessThreshold c <=? zlen ks + 1) eqn:E1, (zlen ks + 1 =? cb_SuccessThreshold c) eqn:E2;
      cbn; rewrite ?Hn1, ?wrap64_id by int_range; try (by split_and!); go_lia. }
  destruct (Hgen clks) as (cs' & ? & _ & _ & ? & Hb); [lia|by intros ->; unfold zlen in Hlen; cbn in Hlen; lia|].
  rewrite Hlen, Z.eqb_refl in Hb. exists cs'. by destruct Hb.
Qed.

(** C26: the course of a circuit breaker.  From a breaker without failures, as many
    consecutive failures as the failure threshold open it, and the provider is
    unavailable until the breaker's timeout (10 minutes after repeated
    authentication failures) has passed since the last of them; from a
    half-open breaker, as many consecutive successes as the success threshold,
    counted from the last failure, close it and clear its failure count and its
    half-open budget. *)
Theorem breaker_course {P} name (pm : providerManager P) cs :
  let c := cc_CircuitBreaker (pm_config pm) in
  cb_Enabled c = true -> pm_circuitStates pm !! name = Some cs ->
  (forall ts t f, pm_failureTracker pm !! name = Some f ->
     fi_ConsecutiveFailures f = 0 -> cs_ConsecutiveFailures cs = 0 ->
     cb_FailureThreshold c <= zlen ts <= max_int64 -> last ts = Some t ->
     circuit_of name (failures name ts pm) = Some OPEN
     /\ forall now, time_sub now t < circuit_timeout name pm ->
          exists pm', isProviderAvailable name now (failures name ts pm) = Some (false, pm'))
  /\ (forall clks, cs_State cs = HALF_OPEN -> cs_ConsecutiveSuccesses cs = 0 ->
     zlen clks = cb_SuccessThreshold c -> 0 < cb_SuccessThreshold c <= max_int64 ->
     exists cs', pm_circuitStates (successes name clks pm) !! name = Some cs'
       /\ cs_State cs' = CLOSED /\ cs_ConsecutiveFailures cs' = 0 /\ cs_HalfOpenCalls cs' = 0).
Proof.
  intros c He Hcs. split.
  - intros ts t f Hf H0 H0' HT Hlast. by eapply breaker_opens.
  - intros clks Hs H0 Hlen HT. by eapply breaker_recovers.
Qed.

Lemma breaker_course_witness :
  let pm := demo_pm (take 1 demo_mgr_cmds) in
  let pm' := demo_pm (take 7 demo_mgr_cmds) in
  circuit_of "mempool" (failures "mempool" (replicate 5 Second) pm) = Some OPEN
  /\ (forall now, time_sub now Second < circuit_timeout "mempool" pm ->
       exists pm', isProviderAvailable "mempool" now (failures "mempool" (replicate 5 Second) pm) = Some (false, pm'))
  /\ exists cs', pm_circuitStates (successes "mempool" (replicate 3 (at_time (41 * Second))) pm') !! "mempool"%string = Some cs'
       /\ cs_State cs' = CLOSED /\ cs_ConsecutiveFailures cs' = 0 /\ cs_HalfOpenCalls cs' = 0.
Proof.
  intros pm pm'.
  assert (exists cs f, pm_circuitStates pm !! "mempool"%string = Some cs /\ pm_failureTracker pm !! "mempool"%string = Some f
    /\ fi_ConsecutiveFailures f = 0 /\ cs_ConsecutiveFailures cs = 0) as (cs & f & Hcs & Hf & H0 & H0').
  { eexists _, _. split_and!; vm_compute; reflexivity. }
  destruct (proj1 (breaker_course "mempool" pm cs ltac:(vm_compute; reflexivity) Hcs) (replicate 5 Second) Second f Hf H0 H0')
    as [Ho Hu]; [split; vm_compute; discriminate|reflexivity|]. split; [exact Ho|]. split; [exact Hu|].
  apply (proj2 (breaker_course "mempool" pm'
    {| cs_State := HALF_OPEN; cs_LastStateChange := 40 * Second; cs_ConsecutiveFailures := 5;
       cs_ConsecutiveSuccesses := 0; cs_HalfOpenCalls := 0; cs_LastFailureTime := Second |}
    ltac:(vm_compute; reflexivity) ltac:(vm_compute; reflexivity))); try reflexivity.
  split; vm_compute; [reflexivity|discriminate].
Defined.

(** ** Reports *)

Lemma set_stats_lookup l stats k :
  NoDup l.*1 -> set_stats l stats !! k = match list_to_map (M := gmap string stat) l !! k with Some v => Some v | None => stats !! k end.
Proof.
  revert stats. induction l as [|[k' v] l IH]; intros stats Hl; [done|]. apply NoDup_cons in Hl as [Hk Hl].
  cbn in Hk |- *. fold (set_stats l (<[k' := v]> stats)). rewrite IH by done.
  destruct (decide (k = k')) as [->|Hne].
  - rewrite (not_elem_of_list_to_map_1 l k') by done. by rewrite !lookup_insert_eq.
  - by rewrite !lookup_insert_ne by done.
Qed.

Lemma reported_nodup {P} name (pm : providerManager P) :
  NoDup (reported rate_stats (pm_rateLimitStates pm !! name)).*1 /\ NoDup (reported health_stats (pm_healthStates pm !! name)).*1
  /\ NoDup (reported circuit_stats (pm_circuitStates pm !! name)).*1 /\ NoDup (reported failure_stats (pm_failureTracker pm !! name)).*1.
Proof.
  split_and!; match goal with |- context [reported _ ?o] => destruct o as [x|] end; cbn; try constructor.
  all: try (unfold health_stats; destruct (hs_LastError x)); apply (bool_decide_unpack _); vm_compute; exact I.
Qed.

(** The report of a provider tells the state of its circuit and its counters as
    the availability checks use them, and is empty for a name without any
    state. *)
Theorem GetProviderStats_spec {P} name (pm : providerManager P) :
  GetProviderStats name pm !! "circuit_state"%string = StatText ∘ circuit_string <$> circuit_of name pm
  /\ GetProviderStats name pm !! "consecutive_failures"%string = StatInt ∘ fi_ConsecutiveFailures <$> pm_failureTracker pm !! name
  /\ GetProviderStats name pm !! "is_healthy"%string = StatBool ∘ hs_IsHealthy <$> pm_healthStates pm !! name
  /\ GetProviderStats name pm !! "rate_limit_burst_tokens"%string = StatInt ∘ rls_BurstTokens <$> pm_rateLimitStates pm !! name
  /\ GetProviderStats name pm !! "last_health_error"%string = (pm_healthStates pm !! name ≫= fun hs => StatText ∘ err_msg <$> hs_LastError hs)
  /\ (pm_failureTracker pm !! name = None -> pm_circuitStates pm !! name = None -> pm_healthStates pm !! name = None ->
      pm_rateLimitStates pm !! name = None -> GetProviderStats name pm = ∅).
Proof.
  destruct (reported_nodup name pm) as (H1 & H2 & H3 & H4). unfold GetProviderStats, circuit_of.
  split_and!; [..|by intros -> -> -> ->]; rewrite !set_stats_lookup by done;
    destruct (pm_rateLimitStates pm !! name), (pm_healthStates pm !! name) as [hs|], (pm_circuitStates pm !! name), (pm_failureTracker pm !! name);
    cbn; try destruct (hs_LastError hs); done.
Qed.

(** The report of a provider whose breaker has just opened. *)
Example demo_stats :
  let s := GetProviderStats "mempool" (demo_pm (take 6 demo_mgr_cmds)) in
  s !! "circuit_state"%string = Some (StatText "OPEN") /\ s !! "total_failures"%string = Some (StatInt 5) /\ size s = 18%nat.
Proof. vm_compute. by split_and!. Qed.
