(* ===== verification/RunOp.v ===== *)
(** * Running an operation

    [runOp], [attemptWithRetry] and [retryDelay] of [manager.go]; the context
    values of [opcontext.go], [debug.go] and [provider_types.go];
    [classifyError] of [metrics.go] and [executeWithFallbackAndMetrics] of
    [providers.go].

    The environment of a call (clock, backoff wait, random source, the
    providers' own behaviour) is a state [W] with the operations of [World];
    an operation on a provider is a function on that state which may fail and
    may panic.  One caller is modelled: no other goroutine changes the manager
    while the call runs. *)

From S2P Require Import Prelude GoInt GoFloat GoString Config RateLimit Sorting Events.
From S2P Require Import Engine Selection Manager ManagerProps.

(** ** Environment and context *)

Class World (W : Type) := {
  (** the readings of the clock during one call *)
  w_clock : W -> clock * W;
  (** [select] on the context and [time.After]: the context's error when it is
      done first *)
  w_wait : Duration -> W -> option error * W;
  (** [rand.Float64()] of the global source *)
  w_float64 : W -> f64 * W
}.

(** The values a context carries. *)
Record context := {
  ctx_ProviderName : option string;
  ctx_Metadata : option OperationMetadata
}.

Definition background : context := {| ctx_ProviderName := None; ctx_Metadata := None |}.

Definition WithProviderName (name : string) (ctx : context) : context :=
  {| ctx_ProviderName := Some name; ctx_Metadata := ctx_Metadata ctx |}.

Definition GetProviderName (ctx : context) : option string := ctx_ProviderName ctx.

Definition WithOperationMetadata (meta : OperationMetadata) (ctx : context) : context :=
  {| ctx_ProviderName := ctx_ProviderName ctx; ctx_Metadata := Some meta |}.

Definition extractOperationMetadata (ctx : context) : option OperationMetadata := ctx_Metadata ctx.

(** The debug accumulator [WithDebugContext] attaches, if any. *)
Abbreviation debugState := (option (list string)).

Definition recordFailedProvider (name : string) (dbg : debugState) : debugState :=
  match dbg with Some l => Some (l ++ [name]) | None => None end.

Record DebugInfo := { di_Provider : string; di_FailedProviders : list string; di_ProcessedAt : Time }.

Definition ExtractDebugInfo (ctx : context) (dbg : debugState) (now : Time) : DebugInfo := {|
  di_Provider := default "unknown"%string (GetProviderName ctx);
  di_FailedProviders := default [] dbg;
  di_ProcessedAt := now |}.

(** ** Retry delay *)

Section delay.
Context `{GoArch, GoMath}.

Definition retryDelay (policy : RetryPolicy) (attempt : Z) (rnd : f64) : Duration :=
  let delay := f64_mul (f64_of_Z (rp_InitialDelay policy))
                 (math_Pow (rp_BackoffMultiplier policy) (f64_of_Z (wrap64 (attempt - 1)))) in
  let delay := if (0 <? rp_MaxDelay policy) && (rp_MaxDelay policy <? f64_to_int delay)
               then f64_of_Z (rp_MaxDelay policy) else delay in
  let delay := if rp_Jitter policy
               then f64_mul delay (f64_add f64_one (f64_mul (f64_const 1 5) rnd)) else delay in
  f64_to_int delay.
End delay.

(** ** One provider, with retries *)

Section run.
Context {P E W R : Type} `{ScoringEngine E, GoRand, SortSlice, GoArch, GoMath, World W}.
Context (op : P -> W -> go (result R * W)).

(** The state a call threads: the manager, the shared engine, the
    environment. *)
Record run_state := { rs_pm : providerManager P; rs_eng : E; rs_world : W }.

Definition maxAttempts (policy : RetryPolicy) : Z :=
  if rp_Enabled policy && (1 <? rp_MaxAttempts policy) then rp_MaxAttempts policy else 1.

(** The loop body from [attempt] on, [n] iterations left. *)
Fixpoint attempt_loop (ctx : context) (p : providerConfig P) (policy : RetryPolicy) (n : nat)
    (attempt attempts : Z) (lastErr : option error) (s : run_state)
    : go (option R * Z * option error * run_state) :=
  match n with
  | O => Some (None, attempts, lastErr, s)
  | S n =>
      let '(cancelled, w) :=
        if 0 <? attempt then
          let '(rnd, w) := if rp_Jitter policy then w_float64 (rs_world s) else (f64_zero, rs_world s) in
          w_wait (retryDelay policy attempt rnd) w
        else (None, rs_world s) in
      match cancelled with
      | Some err => Some (None, attempts, Some err, {| rs_pm := rs_pm s; rs_eng := rs_eng s; rs_world := w |})
      | None =>
          let '(clk, w) := w_clock w in
          '(r, w) ← op (pc_Provider p) w;
          let '(clk2, w) := w_clock w in
          let elapsed := time_sub (clk2 0%nat) (clk 0%nat) in
          let attempts := wrap64 (attempts + 1) in
          match r with
          | Ok result =>
              '(pm, e) ← recordSuccessWithLatency (pc_Name p) elapsed (clk_skip 1 clk2) (rs_pm s) (rs_eng s);
              Some (Some result, attempts, None, {| rs_pm := pm; rs_eng := e; rs_world := w |})
          | Err err =>
              '(pm, e) ← recordFailureWithError (extractOperationMetadata ctx) (pc_Name p) err elapsed
                           (clk_skip 1 clk2) (rs_pm s) (rs_eng s);
              attempt_loop ctx p policy n (attempt + 1) attempts (Some err)
                {| rs_pm := pm; rs_eng := e; rs_world := w |}
          end
      end
  end.

Definition attemptWithRetry (ctx : context) (p : providerConfig P) (policy : RetryPolicy) (s : run_state)
    : go (option R * Z * option error * run_state) :=
  attempt_loop ctx p policy (Z.to_nat (maxAttempts policy)) 0 0 None s.

(** ** The provider chain *)

Record run_result := {
  rr_data : option R;
  rr_provider : string;
  rr_duration : Duration;
  rr_attempts : Z;
  rr_err : option error
}.

Definition last_error_msg : string := "all providers failed, last error: ".

(** The loop over the providers. *)
Fixpoint chain_loop (ctx : context) (start : Time) (policy : RetryPolicy) (l : list (providerConfig P))
    (totalAttempts : Z) (lastErr : option error) (dbg : debugState) (s : run_state)
    : go (run_result * debugState * run_state) :=
  match l with
  | [] =>
      let '(clk, w) := w_clock (rs_world s) in
      (* fmt.Errorf with a nil error prints it; the loop always has one *)
      let err := match lastErr with
                 | Some err => errWrap last_error_msg err ""
                 | None => errOther (last_error_msg +:+ "%!w(<nil>)")
                 end in
      Some ({| rr_data := None; rr_provider := ""; rr_duration := time_sub (clk 0%nat) start;
               rr_attempts := totalAttempts; rr_err := Some err |}, dbg,
            {| rs_pm := rs_pm s; rs_eng := rs_eng s; rs_world := w |})
  | p :: l =>
      '(result, attempts, opErr, s) ← attemptWithRetry ctx p policy s;
      let totalAttempts := wrap64 (totalAttempts + attempts) in
      match opErr with
      | None =>
          let pm := set_pm_selector (RecordAttempt (pc_Priority p) (pm_selector (rs_pm s))) (rs_pm s) in
          let '(clk, w) := w_clock (rs_world s) in
          Some ({| rr_data := result; rr_provider := pc_Name p; rr_duration := time_sub (clk 0%nat) start;
                   rr_attempts := totalAttempts; rr_err := None |}, dbg,
                {| rs_pm := pm; rs_eng := rs_eng s; rs_world := w |})
      | Some err =>
          chain_loop ctx start policy l totalAttempts (Some err) (recordFailedProvider (pc_Name p) dbg) s
      end
  end.

(** Narrowing to a pinned provider, or the error of an unavailable pin. *)
Definition pin_providers (ctx : context) (pm : providerManager P) (l : list (providerConfig P))
    : result (list (providerConfig P)) :=
  match GetProviderName ctx with
  | Some name =>
      match findProviderByName l name with
      | Some pinned => Ok [pinned]
      | None => Err (errOther ("context-specified provider " +:+ name +:+ " is not available"))
      end
  | None =>
      let sel := pm_selectedProvider pm in
      if bool_decide (sel = ""%string) then Ok l
      else
        match findProviderByName l sel with
        | Some pinned => Ok [pinned]
        | None => Err (errOther ("selected provider " +:+ sel +:+ " is not available"))
        end
  end.

Definition failed_result (err : error) (d : Duration) : run_result :=
  {| rr_data := None; rr_provider := ""; rr_duration := d; rr_attempts := 0; rr_err := Some err |}.

Definition runOp (ctx : context) (dbg : debugState) (s : run_state)
    : go (run_result * debugState * run_state) :=
  let '(clk, w) := w_clock (rs_world s) in
  let start := clk 0%nat in
  '(providers, pm) ← getAvailableProviders (clk 1%nat) (rs_eng s) (rs_pm s);
  let s := {| rs_pm := pm; rs_eng := rs_eng s; rs_world := w |} in
  if zlen providers =? 0 then
    Some (failed_result (errWrap "" (errSentinel ErrProviderNotConfigured) ": no available providers")
            (time_sub (clk 2%nat) start), dbg, s)
  else
    match pin_providers ctx pm providers with
    | Err err => Some (failed_result err (time_sub (clk 2%nat) start), dbg, s)
    | Ok providers => chain_loop ctx start (cc_RetryPolicy (pm_config pm)) providers 0 None dbg s
    end.
End run.
Arguments run_state : clear implicits.
Arguments run_result : clear implicits.
