(* ===== verification/RunProps.v ===== *)
(** * The fallback chain

    What [runOp] promises, stated on the sequence of calls it makes to the
    providers: [chain_tried] is the abstract specification of a fallback chain
    with retries, and [runOp] refines it without panicking. *)

From S2P Require Import Prelude GoInt GoFloat GoString Config RateLimit Sorting Events.
From S2P Require Import Scorer Store Engine Selection Manager ManagerProps RunOp.

(** ** Specification *)

Section spec.
Context {P R : Type}.

(** A call to a provider and what it returned. *)
Abbreviation call := (P * result R)%type.

Definition refused (p : providerConfig P) (errs : list error) : list call :=
  map (fun e => (pc_Provider p, Err e)) errs.

(** One provider with at most [k] attempts, [cancels] the errors the context
    can stop the retries with. *)
Inductive provider_tried (k : Z) (cancels : error -> Prop) (p : providerConfig P)
    : list call -> result R -> Prop :=
  | tried_ok errs r :
      zlen errs < k -> provider_tried k cancels p (refused p errs ++ [(pc_Provider p, Ok r)]) (Ok r)
  | tried_exhausted errs err :
      zlen errs = k -> last errs = Some err -> provider_tried k cancels p (refused p errs) (Err err)
  | tried_cancelled errs err :
      0 < zlen errs < k -> cancels err -> provider_tried k cancels p (refused p errs) (Err err).

(** The providers in order: the first to succeed ends the chain. *)
Inductive chain_tried (k : Z) (cancels : error -> Prop)
    : list (providerConfig P) -> list call -> list string -> list error -> option (providerConfig P * R) -> Prop :=
  | chain_none : chain_tried k cancels [] [] [] [] None
  | chain_success p l calls r :
      provider_tried k cancels p calls (Ok r) -> chain_tried k cancels (p :: l) calls [] [] (Some (p, r))
  | chain_next p l calls err calls' names errs res :
      provider_tried k cancels p calls (Err err) -> chain_tried k cancels l calls' names errs res ->
      chain_tried k cancels (p :: l) (calls ++ calls') (pc_Name p :: names) (err :: errs) res.

Lemma zlen_refused p errs : zlen (refused p errs) = zlen errs.
Proof. unfold refused, zlen. by rewrite length_map. Qed.

Lemma provider_tried_len k cancels p calls r :
  provider_tried k cancels p calls r -> 0 < k -> 0 < zlen calls <= k.
Proof.
  intros [errs ?| |] Hk; rewrite ?zlen_app, ?zlen_refused; change (@zlen call [_]) with 1; try lia.
  pose proof (zlen_nonneg errs). lia.
Qed.

Lemma provider_tried_cons k cancels p e calls r :
  provider_tried k cancels p calls r -> provider_tried (k + 1) cancels p ((pc_Provider p, Err e) :: calls) r.
Proof.
  intros [errs r' Hlt|errs err Hk Hlast|errs err Hk Hcan].
  - apply (tried_ok _ _ _ (e :: errs)). rewrite zlen_cons. lia.
  - apply (tried_exhausted _ _ _ (e :: errs)); [rewrite zlen_cons; lia|]. by destruct errs.
  - apply (tried_cancelled _ _ _ (e :: errs)); [rewrite zlen_cons; lia|done].
Qed.

Lemma chain_tried_len k cancels l calls names errs res :
  chain_tried k cancels l calls names errs res -> 0 < k -> 0 <= zlen calls <= zlen l * k.
Proof.
  intros Hc Hk. induction Hc as [|p l calls r Hp|p l calls err calls' names errs res Hp Hc IH].
  - change (@zlen call []) with 0. change (@zlen (providerConfig P) []) with 0. lia.
  - pose proof (provider_tried_len _ _ _ _ _ Hp Hk). rewrite zlen_cons. pose proof (zlen_nonneg l). nia.
  - pose proof (provider_tried_len _ _ _ _ _ Hp Hk). rewrite zlen_cons, zlen_app. nia.
Qed.

(** Every call goes to a provider of the list. *)
Lemma chain_tried_members k cancels l calls names errs res :
  chain_tried k cancels l calls names errs res ->
  Forall (fun c => c.1 ∈ map pc_Provider l) calls.
Proof.
  assert (forall p calls r, provider_tried k cancels p calls r -> Forall (fun c => c.1 = pc_Provider p) calls) as Hone.
  { intros p calls0 r []; rewrite ?Forall_app; unfold refused; rewrite Forall_map; try (split; [|by repeat constructor]);
      by apply Forall_true. }
  intros Hc. induction Hc as [|p l calls r Hp|p l calls err calls' names errs res Hp Hc IH]; [constructor| |].
  - eapply Forall_impl; [by eapply Hone|]. intros c ->. cbn. set_solver.
  - apply Forall_app. split.
    + eapply Forall_impl; [by eapply Hone|]. intros c ->. cbn. set_solver.
    + eapply Forall_impl; [exact IH|]. intros c Hmem. cbn. by apply list_elem_of_further.
Qed.

(** The chain succeeds exactly when its last call does, and no call before it
    succeeded. *)
Lemma chain_tried_result k cancels l calls names errs res :
  chain_tried k cancels l calls names errs res ->
  match res with
  | Some (p, r) => exists calls', calls = calls' ++ [(pc_Provider p, Ok r)] /\ Forall (fun c => exists e, c.2 = Err e) calls'
                  /\ p ∈ l
  | None => Forall (fun c => exists e, c.2 = Err e) calls /\ names = map pc_Name l
  end.
Proof.
  assert (forall p errs, Forall (fun c : call => exists e, c.2 = Err e) (refused p errs)) as Hr.
  { intros p errs0. unfold refused. rewrite Forall_map. apply Forall_true. intros e. by exists e. }
  intros Hc. induction Hc as [|p l calls r Hp|p l calls err calls' names errs res Hp Hc IH]; [done| |].
  - inversion Hp; subst. eexists. split_and!; [done|apply Hr|set_solver].
  - assert (Forall (fun c : call => exists e, c.2 = Err e) calls) as Hcalls by (inversion Hp; subst; apply Hr).
    destruct res as [[q r]|].
    + destruct IH as (c' & -> & Hf & Hin). exists (calls ++ c'). rewrite app_assoc, Forall_app.
      split_and!; [done..|set_solver].
    + destruct IH as [Hf ->]. by rewrite Forall_app.
Qed.
End spec.

(** The last of some errors, [err0] when there are none. *)
Fixpoint last_with (err0 : option error) (errs : list error) : option error :=
  match errs with
  | [] => err0
  | err :: errs => last_with (Some err) errs
  end.

(** The last error of a failed chain is that of its last call, or the
    context's. *)
Lemma chain_tried_cause {P R} k cancels err0 (l : list (providerConfig P)) (tr : list (P * result R)) names errs res :
  chain_tried k cancels l tr names errs res -> res = None -> l <> [] ->
  exists cause, last_with err0 errs = Some cause
    /\ (last (map snd tr) = Some (Err cause) \/ cancels cause).
Proof.
  intros Hc. revert err0. induction Hc as [|p l calls r Hp|p l calls err calls' names errs res Hp Hc IH];
    intros err0 Hres Hl; [done..|].
  destruct l as [|q l].
  - inversion Hc; subst. exists err. split; [done|]. rewrite app_nil_r.
    inversion Hp as [|errs0 e _ Hlast|errs0 e _ Hcan]; subst; [left|by right].
    unfold refused. apply last_Some in Hlast as [errs1 ->]. rewrite !map_app. cbn. by rewrite last_snoc.
  - destruct (IH (Some err) Hres) as (cause & Hlast & Hcause); [done|]. exists cause. split; [done|].
    destruct Hcause as [Hcause|]; [left|by right]. by rewrite map_app, last_app, Hcause.
Qed.

(** An environment that remembers the calls made, an operation that does not
    panic on the providers it is meant for. *)
Class LoggedOp {P W R : Type} `{World W} (op : P -> W -> go (result R * W)) := {
  calls_of : W -> list (P * result R);
  callable : P -> Prop;
  calls_clock : forall w, calls_of (w_clock w).2 = calls_of w;
  calls_wait : forall d w, calls_of (w_wait d w).2 = calls_of w;
  calls_float64 : forall w, calls_of (w_float64 w).2 = calls_of w;
  calls_op : forall p w, callable p -> exists r w', op p w = Some (r, w') /\ calls_of w' = calls_of w ++ [(p, r)]
}.

(** The errors a wait can end with. *)
Definition cancels_of (W : Type) `{World W} (err : error) : Prop :=
  exists d (w : W), (w_wait d w).1 = Some err.

(** ** Refinement *)

Lemma maxAttempts_pos policy : 0 < maxAttempts policy.
Proof. unfold maxAttempts. destruct (_ && _) eqn:Eb; go_lia. Qed.

Section refines.
Context {P E W R : Type} `{ScoringEngineLaws E, GoRand, SortSlice, GoArch, GoMath, World W}.
Context (op : P -> W -> go (result R * W)) `{!LoggedOp op}.

Abbreviation calls s := (calls_of (rs_world s)).

(** No round-robin index exceeds [n]. *)
Definition sel_room (n : Z) (s : selectionStrategy) : Prop :=
  match s with
  | roundRobinSelector idx => forall k i, idx !! k = Some i -> 0 <= i <= n
  | _ => True
  end.

Lemma sel_room_mono n n' s : n <= n' -> sel_room n s -> sel_room n' s.
Proof. intros Hn. destruct s; cbn; try done. intros Hr k i Hk. specialize (Hr k i Hk). lia. Qed.

Lemma SelectProviders_room n ft (e : E) (l l' : list (providerConfig P)) s s' :
  SelectProviders ft e l s = Some (l', s') -> sel_room n s -> sel_room n s'.
Proof.
  destruct s as [|idx|rng|stats|]; cbn; intros Hs; try (by simplify_eq);
    apply bind_some in Hs as ([l0 u] & _ & [= _ <-]); done.
Qed.

Lemma RecordAttempt_room n k s :
  0 <= n < 2 ^ 53 -> sel_room n s -> sel_room (n + 1) (RecordAttempt k s) /\ (sel_ok s -> sel_ok (RecordAttempt k s)).
Proof.
  intros Hn. destruct s as [|idx|rng|stats|]; cbn; try done. intros Hr.
  assert (forall j i, <[k:=wrap64 (default 0 (idx !! k) + 1)]> idx !! j = Some i -> 0 <= i <= n + 1) as Hi.
  { intros j i. rewrite lookup_insert_Some. intros [[<- <-]|[_ Hj]]; [|specialize (Hr j i Hj); lia].
    destruct (idx !! k) as [i|] eqn:Ek; cbn; [specialize (Hr k i Ek)|];
      (rewrite wrap64_id; [lia|unfold int64_range, min_int64, max_int64; lia]). }
  split; [done|]. intros _ j i Hj. specialize (Hi j i Hj). lia.
Qed.

(** The state is fit for a call that records at most [k] more events. *)
Definition run_ok (m k : Z) (s : run_state P E W) : Prop :=
  mgr_inv m (rs_pm s) /\ Forall (fun p => callable (pc_Provider p)) (pm_providers (rs_pm s))
  /\ exists n, se_ok n (rs_eng s) /\ sel_room n (pm_selector (rs_pm s)) /\ 0 <= n /\ n + k < 2 ^ 53.

Lemma run_ok_mono m k k' s : k' <= k -> run_ok m k s -> run_ok m k' s.
Proof. intros Hk (Hi & Hcb & n & He & Hr & ? & ?). do 2 (split; [done|]). exists n. split_and!; [done..|lia]. Qed.

(** What [attempt_loop] returns for a provider result. *)
Definition attempt_out (res : result R) (attempts : Z) s : option R * Z * option error * run_state P E W :=
  match res with
  | Ok r => (Some r, attempts, None, s)
  | Err err => (None, attempts, Some err, s)
  end.

Definition success_events (res : result R) : Z := match res with Ok _ => 1 | Err _ => 0 end.

(** Recording one outcome. *)
Lemma failure_run_ok ctx name err rt clk m K s w :
  run_ok m K s -> 1 <= K ->
  exists pm e, recordFailureWithError (extractOperationMetadata ctx) name err rt clk (rs_pm s) (rs_eng s) = Some (pm, e)
    /\ run_ok m (K - 1) {| rs_pm := pm; rs_eng := e; rs_world := w |} /\ ext (rs_pm s) pm.
Proof.
  intros (Hi & Hcb & k & He & Hr & Hk & Hb) HK.
  destruct (recordFailureWithError_inv m k (extractOperationMetadata ctx) name err rt clk _ _ Hi He)
    as (pm & e & -> & Hi' & Hx & He'); [lia|].
  exists pm, e. split_and!; [done| |done]. split; [done|]. destruct Hx as (_ & Hprov & Hsel & _). cbn. rewrite Hprov. split; [done|]. exists (k + 1). cbn. rewrite Hsel.
  split_and!; [done|eapply sel_room_mono; [|done]; lia|lia..].
Qed.

Lemma success_run_ok name rt clk m K s w :
  run_ok m K s -> 2 <= K ->
  exists pm e, recordSuccessWithLatency name rt clk (rs_pm s) (rs_eng s) = Some (pm, e)
    /\ run_ok m (K - 2) {| rs_pm := pm; rs_eng := e; rs_world := w |} /\ ext (rs_pm s) pm.
Proof.
  intros (Hi & Hcb & k & He & Hr & Hk & Hb) HK.
  destruct (recordSuccessWithLatency_inv m k name rt clk _ _ Hi He) as (pm & e & -> & Hi' & Hx & He'); [lia|].
  exists pm, e. split_and!; [done| |done]. split; [done|]. destruct Hx as (_ & Hprov & Hsel & _). cbn. rewrite Hprov. split; [done|]. exists (k + 2). cbn. rewrite Hsel.
  split_and!; [done|eapply sel_room_mono; [|done]; lia|lia..].
Qed.

(** The wait before an attempt makes no call. *)
Lemma backoff_calls policy attempt (w : W) :
  let '(c, w') := (if 0 <? attempt then
      let '(rnd, w) := if rp_Jitter policy then w_float64 w else (f64_zero, w) in
      w_wait (retryDelay policy attempt rnd) w
    else (None, w)) in
  calls_of w' = calls_of w /\ forall err, c = Some err -> 0 < attempt /\ cancels_of W err.
Proof.
  destruct (Z.ltb_spec 0 attempt) as [Ha|Ha]; [|done].
  assert (forall d (w0 : W), let '(c, w') := w_wait d w0 in
    calls_of w' = calls_of w0 /\ forall err, c = Some err -> 0 < attempt /\ cancels_of W err) as Hw.
  { intros d w0. destruct (w_wait d w0) as [c w'] eqn:Ew. pose proof (calls_wait d w0) as Hc. rewrite Ew in Hc.
    split; [done|]. intros err ->. split; [done|]. exists d, w0. by rewrite Ew. }
  destruct (rp_Jitter policy); [|apply Hw].
  pose proof (calls_float64 w) as Hf. destruct (w_float64 w) as [rnd w0]. cbn in Hf. rewrite <-Hf. apply Hw.
Qed.

(** One iteration. *)
Lemma attempt_loop_step ctx p policy n attempt attempts lastErr m K s :
  callable (pc_Provider p) -> run_ok m K s -> 2 <= K -> 0 <= attempts -> attempts + 1 < 2 ^ 62 ->
  let run := attempt_loop op ctx p policy (Datatypes.S n) attempt attempts lastErr s in
  (exists err s', run = Some (None, attempts, Some err, s') /\ run_ok m K s' /\ ext (rs_pm s) (rs_pm s')
      /\ calls s' = calls s /\ 0 < attempt /\ cancels_of W err)
  \/ (exists r s', run = Some (Some r, attempts + 1, None, s') /\ run_ok m (K - 2) s' /\ ext (rs_pm s) (rs_pm s')
      /\ calls s' = calls s ++ [(pc_Provider p, Ok r)])
  \/ (exists err s', run = attempt_loop op ctx p policy n (attempt + 1) (attempts + 1) (Some err) s'
      /\ run_ok m (K - 1) s' /\ ext (rs_pm s) (rs_pm s') /\ calls s' = calls s ++ [(pc_Provider p, Err err)]).
Proof.
  intros Hcall Hok HK Has Hb. cbv zeta. cbn [attempt_loop]. pose proof (backoff_calls policy attempt (rs_world s)) as Hw.
  destruct (if 0 <? attempt then _ else _) as [c w0]. destruct Hw as [Hw0 Hc]. destruct c as [err|].
  { left. eexists err, _. destruct (Hc err eq_refl). split_and!; [done|done|apply ext_refl|done..]. }
  clear Hc. right. pose proof (calls_clock w0) as Hw1. destruct (w_clock w0) as [clk w1]. cbn in Hw1.
  destruct (calls_op (pc_Provider p) w1 Hcall) as (res & w2 & -> & Hw2). cbn [mbind option_bind].
  pose proof (calls_clock w2) as Hw3. destruct (w_clock w2) as [clk2 w3]. cbn in Hw3.
  rewrite wrap64_id by (unfold int64_range, min_int64, max_int64; lia).
  assert (forall x, calls_of w2 = calls_of w1 ++ [x] -> calls_of w3 = calls_of (rs_world s) ++ [x]) as Hcalls.
  { intros x. by rewrite <-Hw0, <-Hw1, <-Hw3. }
  destruct res as [r|err].
  - left. edestruct (success_run_ok (pc_Name p)) as (pm & e & -> & Hok' & Hx); [done|done|]. cbn [mbind option_bind].
    eexists r, _. split_and!; [done|exact Hok'|done|]. cbn. by apply Hcalls.
  - right. edestruct (failure_run_ok ctx (pc_Name p) err) as (pm & e & -> & Hok' & Hx); [done|lia|]. cbn [mbind option_bind].
    eexists err, _. split_and!; [done|exact Hok'|done|]. cbn. by apply Hcalls.
Qed.

Lemma attempt_loop_refines ctx p policy n attempt attempts lastErr m K s :
  callable (pc_Provider p) -> run_ok m K s -> Z.of_nat n + 2 <= K -> 0 <= attempt -> 0 <= attempts -> attempts + Z.of_nat n + 1 < 2 ^ 62 ->
  exists res s' tr,
    attempt_loop op ctx p policy (Datatypes.S n) attempt attempts lastErr s
      = Some (attempt_out res (attempts + zlen tr) s')
    /\ run_ok m (K - zlen tr - success_events res) s' /\ ext (rs_pm s) (rs_pm s')
    /\ calls s' = calls s ++ tr
    /\ (provider_tried (Z.of_nat n + 1) (cancels_of W) p tr res
        \/ 0 < attempt /\ tr = [] /\ exists err, res = Err err /\ cancels_of W err).
Proof.
  intros Hcall. revert attempt attempts lastErr K s. induction n as [|n IH]; intros attempt attempts lastErr K s Hok HK Hat Has Hb.
  - destruct (attempt_loop_step ctx p policy 0 attempt attempts lastErr m K s Hcall Hok)
      as [(err & s' & -> & Hok' & Hx & Hcs & Ha & Hcan)|[(r & s' & -> & Hok' & Hx & Hcs)|(err & s' & -> & Hok' & Hx & Hcs)]]; [lia..| | |].
    + exists (Err err), s', []. change (@zlen _ []) with 0. cbn [attempt_out success_events]. rewrite !Z.add_0_r, !Z.sub_0_r, app_nil_r. eauto 10.
    + exists (Ok r), s', [(pc_Provider p, Ok r)]. split_and!; [done| |done|done|].
      { eapply run_ok_mono; [|exact Hok']. change (zlen [_]) with 1. cbn. lia. }
      left. by apply (tried_ok _ _ _ []).
    + exists (Err err), s', [(pc_Provider p, Err err)]. split_and!; [done| |done|done|].
      { eapply run_ok_mono; [|exact Hok']. change (zlen [_]) with 1. cbn. lia. }
      left. by apply (tried_exhausted _ _ _ [err]).
  - destruct (attempt_loop_step ctx p policy (Datatypes.S n) attempt attempts lastErr m K s Hcall Hok)
      as [(err & s' & -> & Hok' & Hx & Hcs & Ha & Hcan)|[(r & s' & -> & Hok' & Hx & Hcs)|(err & s' & -> & Hok' & Hx & Hcs)]]; [lia..| | |].
    + exists (Err err), s', []. change (@zlen _ []) with 0. cbn [attempt_out success_events]. rewrite !Z.add_0_r, !Z.sub_0_r, app_nil_r. eauto 10.
    + exists (Ok r), s', [(pc_Provider p, Ok r)]. split_and!; [done| |done|done|].
      { eapply run_ok_mono; [|exact Hok']. change (zlen [_]) with 1. cbn. lia. }
      left. apply (tried_ok _ _ _ []). change (@zlen error []) with 0. lia.
    + destruct (IH (attempt + 1) (attempts + 1) (Some err) (K - 1) s' Hok')
        as (res & s'' & tr & -> & Hok'' & Hx' & Hcs' & Htr); [lia..|].
      exists res, s'', ((pc_Provider p, Err err) :: tr). rewrite zlen_cons. split_and!.
      * f_equal. f_equal. lia.
      * by replace (K - (1 + zlen tr) - success_events res) with (K - 1 - zlen tr - success_events res) by lia.
      * by eapply ext_trans.
      * by rewrite Hcs', Hcs, <-app_assoc.
      * left. replace (Z.of_nat (Datatypes.S n) + 1) with (Z.of_nat n + 1 + 1) by lia.
        destruct Htr as [Htr|(_ & -> & e' & -> & Hcan)]; [by apply provider_tried_cons|].
        apply (tried_cancelled _ _ _ [err]); [change (@zlen error [err]) with 1; lia|done].
Qed.

Lemma attemptWithRetry_refines ctx p policy m K s :
  callable (pc_Provider p) -> run_ok m K s -> maxAttempts policy + 1 <= K -> maxAttempts policy < 2 ^ 61 ->
  exists res s' tr,
    attemptWithRetry op ctx p policy s = Some (attempt_out res (zlen tr) s')
    /\ run_ok m (K - zlen tr - success_events res) s' /\ ext (rs_pm s) (rs_pm s')
    /\ calls s' = calls s ++ tr /\ provider_tried (maxAttempts policy) (cancels_of W) p tr res.
Proof.
  intros Hcall Hok HK Hb. unfold attemptWithRetry. pose proof (maxAttempts_pos policy) as Hpos.
  destruct (Z.to_nat (maxAttempts policy)) as [|n] eqn:En; [lia|].
  destruct (attempt_loop_refines ctx p policy n 0 0 None m K s Hcall Hok)
    as (res & s' & tr & -> & Hok' & Hx & Hcs & Htr); [lia..|].
  exists res, s', tr. split_and!; [done..|].
  destruct Htr as [Htr|[? _]]; [|lia]. by replace (maxAttempts policy) with (Z.of_nat n + 1) by lia.
Qed.

(** What a call returns for the result of its chain; [err0] is the last error
    so far. *)
Definition chain_out (err0 : option error) (errs : list error) (res : option (providerConfig P * R))
    (rr : run_result R) : Prop :=
  match res with
  | Some (p, r) => rr_data rr = Some r /\ rr_provider rr = pc_Name p /\ rr_err rr = None
  | None => rr_data rr = None /\ rr_provider rr = ""%string
      /\ rr_err rr = Some (match last_with err0 errs with
                           | Some err => errWrap last_error_msg err ""
                           | None => errOther (last_error_msg +:+ "%!w(<nil>)")
                           end)
  end.

Lemma chain_loop_refines ctx start policy l total err0 dbg m K s :
  Forall (fun p => callable (pc_Provider p)) l ->
  run_ok m K s -> zlen l * maxAttempts policy + 2 <= K -> maxAttempts policy < 2 ^ 61 ->
  0 <= total -> total + zlen l * maxAttempts policy < 2 ^ 62 ->
  exists rr dbg' s' tr names errs res,
    chain_loop op ctx start policy l total err0 dbg s = Some (rr, dbg', s')
    /\ run_ok m (K - zlen tr - 2) s' /\ calls s' = calls s ++ tr
    /\ chain_tried (maxAttempts policy) (cancels_of W) l tr names errs res
    /\ dbg' = (fun failed => failed ++ names) <$> dbg /\ rr_attempts rr = total + zlen tr
    /\ chain_out err0 errs res rr.
Proof.
  pose proof (maxAttempts_pos policy) as Hpos.
  revert total err0 dbg K s. induction l as [|p l IH]; intros total err0 dbg K s Hcall Hok HK Hmax Htot Hb; cbn [chain_loop].
  - pose proof (calls_clock (rs_world s)) as Hc. destruct (w_clock (rs_world s)) as [clk w]. cbn in Hc.
    eexists _, _, _, [], [], [], None. split_and!; [done| |by rewrite app_nil_r, <-Hc|apply chain_none| |by rewrite Z.add_0_r|done].
    + eapply run_ok_mono; [|exact Hok]. change (@zlen (P * result R) []) with 0. lia.
    + destruct dbg; cbn; by rewrite ?app_nil_r.
  - inversion Hcall as [|? ? Hp Hcall']; subst. rewrite zlen_cons in *. pose proof (zlen_nonneg l).
    destruct (attemptWithRetry_refines ctx p policy m K s Hp Hok) as (res & s1 & tr & -> & Hok1 & Hx & Hcs & Htr); [nia|lia|].
    pose proof (provider_tried_len _ _ _ _ _ Htr Hpos) as Hlen.
    destruct res as [r|err]; cbn [mbind option_bind attempt_out success_events] in *;
      rewrite wrap64_id by (unfold int64_range, min_int64, max_int64; nia).
    + pose proof (calls_clock (rs_world s1)) as Hc. destruct (w_clock (rs_world s1)) as [clk w]. cbn in Hc.
      eexists _, _, _, tr, [], [], (Some (p, r)). split_and!; [done| | |by constructor| |done|done].
      * destruct Hok1 as (Hi & Hcb & k & He & Hr & Hk & Hkb).
        destruct (RecordAttempt_room k (pc_Priority p) (pm_selector (rs_pm s1))) as [Hr' Hsel]; [nia|done|].
        split; cbn; [destruct Hi; split; auto|]. split; [done|]. exists (k + 1). split_and!; [|done|lia..]. eapply se_ok_mono; [|done]. lia.
      * cbn. by rewrite Hc.
      * destruct dbg; cbn; by rewrite ?app_nil_r.
    + rewrite Z.sub_0_r in Hok1.
      destruct (IH (total + zlen tr) (Some err) (recordFailedProvider (pc_Name p) dbg) (K - zlen tr) s1 Hcall' Hok1)
        as (rr & dbg' & s' & tr' & names & errs & res & -> & Hok' & Hcs' & Htr' & -> & Hatt & Hout); [nia..|].
      exists rr. eexists _. exists s', (tr ++ tr'), (pc_Name p :: names), (err :: errs), res.
      rewrite zlen_app. split_and!; [done| | |by econstructor| |lia|].
      * eapply run_ok_mono; [|exact Hok']. lia.
      * by rewrite Hcs', Hcs, app_assoc.
      * destruct dbg; cbn; by rewrite <-?app_assoc.
      * destruct res as [[q r]|]; [done|]. exact Hout.
Qed.

Lemma getAvailableProviders_room m now n (e : E) (pm pm' : providerManager P) l :
  mgr_inv m pm -> getAvailableProviders now e pm = Some (l, pm') ->
  sel_room n (pm_selector pm) -> sel_room n (pm_selector pm').
Proof.
  intros Hi. unfold getAvailableProviders.
  destruct (filter_available_inv m now (pm_providers pm) [] pm Hi) as (l' & pm1 & -> & _ & (_ & _ & Hsel & _) & _).
  cbn [mbind option_bind]. intros ([l0 s'] & Hs & [= <- <-])%bind_some Hr. cbn.
  eapply SelectProviders_room; [exact Hs|]. by rewrite Hsel.
Qed.

(** The providers a call may try, or the error that stops it before. *)
Definition candidates ctx pm (avail : list (providerConfig P)) : result (list (providerConfig P)) :=
  if zlen avail =? 0 then Err (errWrap "" (errSentinel ErrProviderNotConfigured) ": no available providers")
  else pin_providers ctx pm avail.

Lemma findProviderByName_in l name (p : providerConfig P) :
  findProviderByName l name = Some p -> p ∈ l /\ to_lower (pc_Name p) = to_lower name.
Proof.
  unfold findProviderByName. intros Hf. apply find_some in Hf as [Hin Hn%bool_decide_eq_true].
  split; [by apply list_elem_of_In|done].
Qed.

Lemma candidates_sub ctx pm avail l :
  candidates ctx pm avail = Ok l -> l ⊆ avail /\ zlen l <= zlen avail /\ l <> [].
Proof.
  unfold candidates, pin_providers. destruct (Z.eqb_spec (zlen avail) 0) as [|Hne]; [done|].
  assert (avail <> []) as Hn by (by intros ->). assert (1 <= zlen avail) by (pose proof (zlen_nonneg avail); lia).
  repeat case_match; intros [= <-]; try done;
    match goal with Hf : findProviderByName _ _ = _ |- _ => apply findProviderByName_in in Hf as [? _] end;
    (split_and!; [by intros ? ->%list_elem_of_singleton|change (zlen [_]) with 1; lia|done]).
Qed.

(** The whole of [runOp]. *)
Lemma runOp_chain ctx dbg m K s :
  let policy := cc_RetryPolicy (pm_config (rs_pm s)) in
  run_ok m K s -> 0 <= m -> m * maxAttempts policy + 2 <= K -> maxAttempts policy < 2 ^ 61 ->
  exists avail pm1 rr dbg' s' tr,
    getAvailableProviders ((w_clock (rs_world s)).1 1%nat) (rs_eng s) (rs_pm s) = Some (avail, pm1)
    /\ avail ⊆ pm_providers (rs_pm s)
    /\ runOp op ctx dbg s = Some (rr, dbg', s') /\ run_ok m (K - zlen tr - 2) s'
    /\ calls s' = calls s ++ tr /\ rr_attempts rr = zlen tr
    /\ match candidates ctx (rs_pm s) avail with
       | Err err => tr = [] /\ dbg' = dbg /\ rr_data rr = None /\ rr_provider rr = ""%string /\ rr_err rr = Some err
       | Ok l => exists names errs res,
           chain_tried (maxAttempts policy) (cancels_of W) l tr names errs res
           /\ dbg' = (fun failed => failed ++ names) <$> dbg /\ chain_out None errs res rr
       end.
Proof.
  intros policy Hok Hm0 HK Hmax. pose proof (maxAttempts_pos policy) as Hpos.
  destruct Hok as (Hi & Hcb & k & He & Hr & Hk & Hkb). unfold runOp.
  pose proof (calls_clock (rs_world s)) as Hc. destruct (w_clock (rs_world s)) as [clk w]. cbn [fst snd] in *.
  destruct (getAvailableProviders_inv m (clk 1%nat) (rs_eng s) (rs_pm s) Hi)
    as (avail & l' & pm1 & Ha & Hi1 & Hp & Hsub & Hpr & Hcfg & _ & Hsel); [nia|].
  pose proof (getAvailableProviders_room m (clk 1%nat) k (rs_eng s) _ _ _ Hi Ha Hr) as Hr1.
  rewrite Ha. cbn [mbind option_bind].
  assert (forall x, pin_providers ctx pm1 x = pin_providers ctx (rs_pm s) x) as Hpin
    by (intros x; unfold pin_providers; by rewrite Hsel).
  assert (avail ⊆ pm_providers (rs_pm s)) as Hav.
  { intros x Hx. rewrite Hp in Hx. by eapply sublist_subseteq. }
  assert (zlen avail <= m) as Hlen.
  { rewrite (zlen_perm _ _ Hp). pose proof (sublist_length _ _ Hsub). pose proof (mi_len _ _ Hi). unfold zlen in *. lia. }
  assert (forall w', run_ok m (K - 0 - 2) {| rs_pm := pm1; rs_eng := rs_eng s; rs_world := w' |}) as Hok1.
  { intros w'. split; [done|]. cbn. rewrite Hpr. split; [done|]. exists k. split_and!; [done..|lia]. }
  exists avail, pm1. unfold candidates. destruct (Z.eqb_spec (zlen avail) 0) as [Hz|Hz].
  { do 3 eexists. exists []. split_and!; [done|done|done|apply Hok1|by rewrite app_nil_r|done..]. }
  rewrite Hpin. destruct (pin_providers ctx (rs_pm s) avail) as [l|err] eqn:El.
  2: { do 3 eexists. exists []. split_and!; [done|done|done|apply Hok1|by rewrite app_nil_r|done..]. }
  assert (l ⊆ avail /\ zlen l <= zlen avail) as [Hsubl Hll].
  { destruct (candidates_sub ctx (rs_pm s) avail l) as (? & ? & _); [|done].
    unfold candidates. by destruct (Z.eqb_spec (zlen avail) 0). }
  rewrite Hcfg. fold policy.
  destruct (chain_loop_refines ctx (clk 0%nat) policy l 0 None dbg m K {| rs_pm := pm1; rs_eng := rs_eng s; rs_world := w |})
    as (rr & dbg' & s' & tr & names & errs & res & -> & Hok' & Hcs & Htr & Hd & Hatt & Hout); [| |nia|lia|lia|nia|].
  { rewrite Forall_forall in *. auto. }
  { split; [done|]. cbn. rewrite Hpr. split; [done|]. exists k. by split_and!. }
  exists rr, dbg', s', tr. split_and!; [done..| |lia|by eauto 10]. cbn in Hcs. by rewrite Hcs, Hc.
Qed.
End refines.

(** ** Properties *)

(** C1: a call of [runOp] never panics, and refines the fallback chain: the
    providers it calls are available ones, narrowed to the pinned one when
    there is a pin, tried in the selector's order with at most [MaxAttempts]
    attempts each; it reports exactly the number of calls made, names the
    failed providers in order in the debug context, and wraps the last error;
    the manager's invariant survives. *)
Theorem runOp_refines_chain {P E W R} `{ScoringEngineLaws E, GoRand, SortSlice, GoArch, GoMath, World W}
    (op : P -> W -> go (result R * W)) `{!LoggedOp op} ctx dbg m K (s : run_state P E W) :
  let policy := cc_RetryPolicy (pm_config (rs_pm s)) in
  run_ok op m K s -> 0 <= m -> m * maxAttempts policy + 2 <= K -> maxAttempts policy < 2 ^ 61 ->
  exists avail pm1 rr dbg' s' tr,
    getAvailableProviders ((w_clock (rs_world s)).1 1%nat) (rs_eng s) (rs_pm s) = Some (avail, pm1)
    /\ avail ⊆ pm_providers (rs_pm s)
    /\ runOp op ctx dbg s = Some (rr, dbg', s') /\ run_ok op m (K - zlen tr - 2) s'
    /\ calls_of (rs_world s') = calls_of (rs_world s) ++ tr /\ rr_attempts rr = zlen tr
    /\ match candidates ctx (rs_pm s) avail with
       | Err err => tr = [] /\ dbg' = dbg /\ rr_data rr = None /\ rr_provider rr = ""%string /\ rr_err rr = Some err
       | Ok l => exists names errs res,
           chain_tried (maxAttempts policy) (cancels_of W) l tr names errs res
           /\ dbg' = (fun failed => failed ++ names) <$> dbg /\ chain_out None errs res rr
       end.
Proof. intros policy Hok Hm HK Hmax. by apply runOp_chain. Qed.

(** C2: [runOp] returns no error exactly when some provider answered; then the
    answer is that of the last call, every call before it failed, and the
    provider named is a configured one.  On failure every call failed. *)
Theorem runOp_first_success {P E W R} `{ScoringEngineLaws E, GoRand, SortSlice, GoArch, GoMath, World W}
    (op : P -> W -> go (result R * W)) `{!LoggedOp op} ctx dbg m K (s : run_state P E W) :
  let policy := cc_RetryPolicy (pm_config (rs_pm s)) in
  run_ok op m K s -> 0 <= m -> m * maxAttempts policy + 2 <= K -> maxAttempts policy < 2 ^ 61 ->
  exists rr dbg' s' tr, runOp op ctx dbg s = Some (rr, dbg', s')
    /\ calls_of (rs_world s') = calls_of (rs_world s) ++ tr
    /\ match rr_err rr with
       | None => exists p r tr', tr = tr' ++ [(pc_Provider p, Ok r)] /\ Forall (fun c => exists e, c.2 = Err e) tr'
           /\ p ∈ pm_providers (rs_pm s) /\ rr_provider rr = pc_Name p /\ rr_data rr = Some r
       | Some _ => Forall (fun c => exists e, c.2 = Err e) tr /\ rr_provider rr = ""%string /\ rr_data rr = None
       end.
Proof.
  intros policy Hok Hm HK Hmax.
  destruct (runOp_chain op ctx dbg m K s Hok Hm HK Hmax)
    as (avail & pm1 & rr & dbg' & s' & tr & _ & Hav & Hrun & _ & Hcs & _ & Hcand).
  exists rr, dbg', s', tr. split_and!; [done..|].
  destruct (candidates ctx (rs_pm s) avail) as [l|err] eqn:Ec.
  2: { destruct Hcand as (-> & _ & Hd & Hp & ->). by split_and!. }
  destruct Hcand as (names & errs & res & Htr & _ & Hout). apply chain_tried_result in Htr.
  apply candidates_sub in Ec as (Hsub & _). destruct res as [[p r]|]; cbn in Hout.
  - destruct Hout as (Hd & Hp & ->). destruct Htr as (tr' & -> & Hf & Hin). exists p, r, tr'.
    split_and!; [done|done|auto|done|done].
  - destruct Hout as (Hd & Hp & ->). destruct Htr as [Hf _]. by split_and!.
Qed.

(** The provider a call is pinned to, if any: the context's, else the
    manager's. *)
Definition pin_of {P} (ctx : context) (pm : providerManager P) : option string :=
  match GetProviderName ctx with
  | Some name => Some name
  | None => if bool_decide (pm_selectedProvider pm = ""%string) then None else Some (pm_selectedProvider pm)
  end.

(** With a pinned provider no other provider is ever called: every call
    goes to a configured provider of that name (up to letter case), at most
    [MaxAttempts] times; there is no fallback. *)
Theorem runOp_pinned {P E W R} `{ScoringEngineLaws E, GoRand, SortSlice, GoArch, GoMath, World W}
    (op : P -> W -> go (result R * W)) `{!LoggedOp op} ctx dbg m K (s : run_state P E W) name :
  let policy := cc_RetryPolicy (pm_config (rs_pm s)) in
  run_ok op m K s -> 0 <= m -> m * maxAttempts policy + 2 <= K -> maxAttempts policy < 2 ^ 61 ->
  pin_of ctx (rs_pm s) = Some name ->
  exists rr dbg' s' tr, runOp op ctx dbg s = Some (rr, dbg', s')
    /\ calls_of (rs_world s') = calls_of (rs_world s) ++ tr
    /\ zlen tr <= maxAttempts policy
    /\ Forall (fun c => exists p, p ∈ pm_providers (rs_pm s) /\ to_lower (pc_Name p) = to_lower name
                          /\ c.1 = pc_Provider p) tr.
Proof.
  intros policy Hok Hm HK Hmax Hpin. pose proof (maxAttempts_pos policy) as Hpos.
  destruct (runOp_chain op ctx dbg m K s Hok Hm HK Hmax)
    as (avail & pm1 & rr & dbg' & s' & tr & _ & Hav & Hrun & _ & Hcs & _ & Hcand).
  exists rr, dbg', s', tr. do 2 (split; [done|]).
  destruct (candidates ctx (rs_pm s) avail) as [l|err] eqn:Ec.
  2: { destruct Hcand as (-> & _). split; [|constructor]. change (zlen (@nil (P * result R))) with 0. lia. }
  destruct Hcand as (names & errs & res & Htr & _).
  assert (exists p, l = [p] /\ p ∈ avail /\ to_lower (pc_Name p) = to_lower name) as (p & -> & Hin & Hname).
  { revert Ec Hpin. unfold candidates, pin_providers, pin_of. destruct (zlen avail =? 0); [done|].
    repeat case_match; intros [= <-] [= <-];
      match goal with Hf : findProviderByName _ _ = Some ?q |- _ => exists q; by apply findProviderByName_in in Hf as [? ?] end. }
  fold policy in Htr. split.
  - pose proof (chain_tried_len _ _ _ _ _ _ _ Htr Hpos). change (zlen [p]) with 1 in *. lia.
  - eapply Forall_impl; [by eapply chain_tried_members|]. intros c. cbn. rewrite list_elem_of_singleton.
    intros ->. exists p. split_and!; auto.
Qed.

(** C28: when no provider is available nothing is called and the error is
    [ErrProviderNotConfigured] with zero attempts; when every provider tried
    failed, the error [errors.Is] whatever the last error is, so that a caller
    can tell an authentication failure or a rate limit from the outside. *)
Theorem runOp_error_cause {P E W R} `{ScoringEngineLaws E, GoRand, SortSlice, GoArch, GoMath, World W}
    (op : P -> W -> go (result R * W)) `{!LoggedOp op} ctx dbg m K (s : run_state P E W) :
  let policy := cc_RetryPolicy (pm_config (rs_pm s)) in
  run_ok op m K s -> 0 <= m -> m * maxAttempts policy + 2 <= K -> maxAttempts policy < 2 ^ 61 ->
  exists avail pm1 rr dbg' s' tr,
    getAvailableProviders ((w_clock (rs_world s)).1 1%nat) (rs_eng s) (rs_pm s) = Some (avail, pm1)
    /\ runOp op ctx dbg s = Some (rr, dbg', s')
    /\ calls_of (rs_world s') = calls_of (rs_world s) ++ tr
    /\ (avail = [] -> tr = [] /\ rr_attempts rr = 0
          /\ exists err, rr_err rr = Some err /\ errors_is err ErrProviderNotConfigured = true)
    /\ (tr <> [] -> forall err, rr_err rr = Some err ->
          exists cause, (last (map snd tr) = Some (Err cause) \/ cancels_of W cause)
            /\ forall target, errors_is err target = errors_is cause target).
Proof.
  intros policy Hok Hm HK Hmax.
  destruct (runOp_chain op ctx dbg m K s Hok Hm HK Hmax)
    as (avail & pm1 & rr & dbg' & s' & tr & Ha & Hav & Hrun & _ & Hcs & Hatt & Hcand).
  exists avail, pm1, rr, dbg', s', tr. do 3 (split; [done|]). split.
  - intros ->. cbn in Hcand. destruct Hcand as (-> & _ & _ & _ & Herr). by eauto.
  - intros Hne err Herr. destruct (candidates ctx (rs_pm s) avail) as [l|err'] eqn:Ec; [|by destruct Hcand].
    destruct Hcand as (names & errs & res & Htr & _ & Hout).
    destruct res as [[p r]|]; cbn in Hout; [destruct Hout as (_ & _ & Hno); congruence|].
    destruct Hout as (_ & _ & Hrr). apply candidates_sub in Ec as (_ & _ & Hl).
    destruct (chain_tried_cause _ _ None _ _ _ _ _ Htr eq_refl Hl) as (cause & Hlast & Hc).
    rewrite Hlast, Herr in Hrr. injection Hrr as ->. by exists cause.
Qed.

(** ** A concrete call

    Two providers: the first always fails, the second answers. *)

Definition demo_world : Type := list (nat * result string).

Definition demo_World : World demo_world := {|
  w_clock w := (at_time 0, w); w_wait _ w := (None, w); w_float64 w := (f64_zero, w) |}.

Definition demo_op (p : nat) (w : demo_world) : go (result string * demo_world) :=
  let r := match p with O => Err (errSentinel ErrAuthFailure) | _ => Ok "pong"%string end in
  Some (r, w ++ [(p, r)]).

Program Definition demo_LoggedOp : @LoggedOp nat demo_world string demo_World demo_op := {|
  calls_of w := w; callable _ := True |}.
Next Obligation. done. Qed.
Next Obligation. done. Qed.
Next Obligation. done. Qed.
Next Obligation. intros p w _. cbn. by eauto. Qed.

Definition two_providers : list (mgr_cmd (P := nat)) :=
  [MAdd (Some 0%nat) 1 "alpha" (at_time 0); MAdd (Some 1%nat) 2 "beta" (at_time 0)].

Definition demo_state (l : list (mgr_cmd (P := nat))) : run_state nat unit demo_world := {|
  rs_pm := demo_pm l; rs_eng := tt; rs_world := [] |}.

Definition demo_ctx (pin : option string) : context := {| ctx_ProviderName := pin; ctx_Metadata := None |}.

Definition zero_pow : GoMath := fun _ _ => f64_one.

Lemma demo_run_ok l :
  demo_run l = Some (demo_pm l, tt) -> 2 * zlen l < 2 ^ 53 -> pm_selector (demo_pm l) = priorityOnlySelector ->
  let _ := flat_engine in let _ := flat_engine_laws in let _ := demo_World in let _ := demo_LoggedOp in
  run_ok demo_op (zlen l) 1000 (demo_state l).
Proof.
  intros Hrun Hl Hsel F L V O. unfold demo_run in Hrun. cbv zeta in Hrun.
  destruct (newProviderManager_inv (P := nat) (DefaultChainConfig ProviderChainTxBroadcasters) 0)
    as (pm0 & Hpm0 & Hi); [by vm_compute..|]. rewrite Hpm0 in Hrun. cbn [mbind option_bind] in Hrun.
  destruct (mgr_run_inv (H0 := flat_engine_laws) (H1 := lcg_rand) (H2 := insertion_sort_slice) 0 0 l pm0 tt Hi I)
    as (pm' & e' & Hrun' & Hi' & _); [lia..|].
  rewrite Hrun in Hrun'. injection Hrun' as <- <-. rewrite Z.add_0_l in Hi'. split; [done|].
  split; [by apply Forall_true|]. exists 0. cbn. rewrite Hsel. split_and!; [done|done|lia|lia].
Qed.

(** The side conditions of the properties at the concrete call. *)
Lemma demo_conditions :
  (let _ := flat_engine in let _ := flat_engine_laws in let _ := demo_World in let _ := demo_LoggedOp in
   run_ok demo_op 2 1000 (demo_state two_providers))
  /\ 0 <= 2 /\ 2 * maxAttempts (cc_RetryPolicy (pm_config (rs_pm (demo_state two_providers)))) + 2 <= 1000
  /\ maxAttempts (cc_RetryPolicy (pm_config (rs_pm (demo_state two_providers)))) < 2 ^ 61.
Proof.
  split; [|by vm_compute]. apply (demo_run_ok two_providers); [vm_compute; reflexivity..].
Qed.

#[local] Existing Instances flat_engine flat_engine_laws lcg_rand insertion_sort_slice arch_amd64 zero_pow
  demo_World demo_LoggedOp.

Lemma runOp_refines_chain_witness :
  exists avail pm1 rr dbg' s' tr,
    getAvailableProviders ((w_clock (rs_world (demo_state two_providers))).1 1%nat) tt (demo_pm two_providers)
      = Some (avail, pm1)
    /\ avail ⊆ pm_providers (demo_pm two_providers)
    /\ runOp demo_op (demo_ctx None) (Some []) (demo_state two_providers) = Some (rr, dbg', s')
    /\ run_ok demo_op 2 (1000 - zlen tr - 2) s'
    /\ calls_of (rs_world s') = [] ++ tr /\ rr_attempts rr = zlen tr
    /\ match candidates (demo_ctx None) (demo_pm two_providers) avail with
       | Err err => tr = [] /\ dbg' = Some [] /\ rr_data rr = None /\ rr_provider rr = ""%string /\ rr_err rr = Some err
       | Ok l => exists names errs res,
           chain_tried (maxAttempts (cc_RetryPolicy (pm_config (demo_pm two_providers)))) (cancels_of demo_world)
             l tr names errs res
           /\ dbg' = (fun failed => failed ++ names) <$> Some [] /\ chain_out None errs res rr
       end.
Proof.
  destruct demo_conditions as (Hok & Hm & HK & Hmax).
  exact (runOp_refines_chain demo_op (demo_ctx None) (Some []) 2 1000 (demo_state two_providers) Hok Hm HK Hmax).
Defined.

(** What the call computes: three attempts on the first provider, one on the
    second. *)
Example demo_call :
  (fun o => match o with
            | Some (rr, dbg, s) => Some (rr_data rr, rr_provider rr, rr_attempts rr, dbg, map fst (rs_world s))
            | None => None
            end)
    (runOp demo_op (demo_ctx None) (Some []) (demo_state two_providers))
  = Some (Some "pong"%string, "beta"%string, 4, Some ["alpha"%string], [0; 0; 0; 1]%nat).
Proof. vm_compute. reflexivity. Qed.

Lemma runOp_first_success_witness :
  exists rr dbg' s' tr, runOp demo_op (demo_ctx None) (Some []) (demo_state two_providers) = Some (rr, dbg', s')
    /\ calls_of (rs_world s') = [] ++ tr
    /\ match rr_err rr with
       | None => exists p r tr', tr = tr' ++ [(pc_Provider p, Ok r)] /\ Forall (fun c => exists e, c.2 = Err e) tr'
           /\ p ∈ pm_providers (demo_pm two_providers) /\ rr_provider rr = pc_Name p /\ rr_data rr = Some r
       | Some _ => Forall (fun c => exists e, c.2 = Err e) tr /\ rr_provider rr = ""%string /\ rr_data rr = None
       end.
Proof.
  destruct demo_conditions as (Hok & Hm & HK & Hmax).
  exact (runOp_first_success demo_op (demo_ctx None) (Some []) 2 1000 (demo_state two_providers) Hok Hm HK Hmax).
Defined.

Lemma runOp_pinned_witness :
  exists rr dbg' s' tr, runOp demo_op (demo_ctx (Some "ALPHA"%string)) None (demo_state two_providers) = Some (rr, dbg', s')
    /\ calls_of (rs_world s') = [] ++ tr
    /\ zlen tr <= maxAttempts (cc_RetryPolicy (pm_config (demo_pm two_providers)))
    /\ Forall (fun c => exists p, p ∈ pm_providers (demo_pm two_providers) /\ to_lower (pc_Name p) = to_lower "ALPHA"
                          /\ c.1 = pc_Provider p) tr.
Proof.
  destruct demo_conditions as (Hok & Hm & HK & Hmax).
  exact (runOp_pinned demo_op (demo_ctx (Some "ALPHA"%string)) None 2 1000 (demo_state two_providers) "ALPHA"
    Hok Hm HK Hmax eq_refl).
Defined.

Lemma runOp_error_cause_witness :
  exists avail pm1 rr dbg' s' tr,
    getAvailableProviders ((w_clock (rs_world (demo_state two_providers))).1 1%nat) tt (demo_pm two_providers)
      = Some (avail, pm1)
    /\ runOp demo_op (demo_ctx (Some "alpha"%string)) None (demo_state two_providers) = Some (rr, dbg', s')
    /\ calls_of (rs_world s') = [] ++ tr
    /\ (avail = [] -> tr = [] /\ rr_attempts rr = 0
          /\ exists err, rr_err rr = Some err /\ errors_is err ErrProviderNotConfigured = true)
    /\ (tr <> [] -> forall err, rr_err rr = Some err ->
          exists cause, (last (map snd tr) = Some (Err cause) \/ cancels_of demo_world cause)
            /\ forall target, errors_is err target = errors_is cause target).
Proof.
  destruct demo_conditions as (Hok & Hm & HK & Hmax).
  exact (runOp_error_cause demo_op (demo_ctx (Some "alpha"%string)) None 2 1000 (demo_state two_providers) Hok Hm HK Hmax).
Defined.

(** ** Backoff *)

(** Converting a small integer to a float and back never exceeds it. *)
Lemma f64_of_Z_to_int_le `{GoArch} k : 0 <= k < 2 ^ 53 -> 0 <= f64_to_int (f64_of_Z k) <= k.
Proof.
  intros Hk. destruct (f64_of_Z_nn k Hk) as [Hnn Hrep].
  destruct (f64_round_bounds (f64_of_Z k) k) as (lo & up & Hlo & _ & H0 & H1); [lia|done| |].
  - destruct (f64_of_Z k) as [|?| |s m e] eqn:E; try done.
    destruct Hrep as [->|(n & f & Hv & Hval & Hle)]; [done|].
    destruct Hnn as [Hvm Hsm]. cbn in Hsm. subst s.
    apply (val_le_trans _ _ (Z.pos n) f); [|done]. by apply f64_le_val.
  - unfold f64_to_int. replace (f64_trunc (f64_of_Z k)) with (Some lo).
    + rewrite decide_True by (unfold int64_range, min_int64, max_int64; lia). lia.
    + rewrite <-Hlo. destruct Hnn as [_ Hs]. destruct (f64_of_Z k) as [|?| |s m e]; try done. by subst s.
Qed.

(** Without jitter the wait before a retry never exceeds a positive
    [MaxDelay] (below 2^53 ns, about 104 days), whatever the multiplier and the
    attempt, and whatever the architecture makes of an overflowing product. *)
Theorem retryDelay_capped `{GoArch, GoMath} policy attempt rnd :
  rp_Jitter policy = false -> 0 < rp_MaxDelay policy < 2 ^ 53 ->
  retryDelay policy attempt rnd <= rp_MaxDelay policy.
Proof.
  intros Hj Hm. unfold retryDelay. cbv zeta. rewrite Hj. destruct (_ && _) eqn:E.
  - apply f64_of_Z_to_int_le. lia.
  - apply andb_false_iff in E as [E|E]; go_lia.
Qed.

Definition steady_policy : RetryPolicy := {|
  rp_Enabled := true; rp_MaxAttempts := 3; rp_InitialDelay := 100 * Millisecond; rp_MaxDelay := 5 * Second;
  rp_BackoffMultiplier := f64_of_Z 2; rp_Jitter := false |}.

Lemma retryDelay_capped_witness :
  rp_Jitter steady_policy = false /\ retryDelay steady_policy 3 f64_zero <= rp_MaxDelay steady_policy.
Proof.
  split; [reflexivity|]. apply (retryDelay_capped steady_policy 3 f64_zero); [reflexivity|].
  split; vm_compute; reflexivity.
Defined.

(** On amd64 the cap does not hold the other way: once the product exceeds
    the range of an [int64] the conversion gives its least value, which passes
    the comparison with [MaxDelay], and the wait is negative: with the default
    delays that is attempt 65 (2^64 times 100 ms). *)
Theorem retryDelay_overflow :
  forall pow : GoMath, math_Pow (f64_of_Z 2) (f64_of_Z 64) = f64_of_Z (2 ^ 64) ->
  let _ := arch_amd64 in retryDelay steady_policy 65 f64_zero = min_int64.
Proof.
  intros pow Hpow A. unfold retryDelay. cbn [steady_policy rp_BackoffMultiplier rp_InitialDelay rp_MaxDelay rp_Jitter].
  change (wrap64 (65 - 1)) with 64. rewrite Hpow. vm_compute. reflexivity.
Qed.

Lemma retryDelay_overflow_witness :
  let pow : GoMath := fun _ y => if f64_eqb y (f64_of_Z 64) then f64_of_Z (2 ^ 64) else f64_one in
  let _ := arch_amd64 in retryDelay steady_policy 65 f64_zero = min_int64.
Proof. intros pow A. apply retryDelay_overflow. vm_compute. reflexivity. Defined.
