(* ===== verification/Bitcoin.v ===== *)
(** * Bitcoin data and local computations

    [bitcoin/types/types.go]: networks, fee tiers, unspent outputs, coin
    tickers and exchange rates; [bitcoin/balance.go], [bitcoin/derive.go] and
    [bitcoin/address.go].  The btcd library is a parameter ([Btcd]).  A
    pointer in a slice of pointers is taken to be non-nil where the code
    dereferences it without a test. *)

From S2P Require Import Prelude GoInt GoFloat GoString Sorting.

(** ** Networks *)

Abbreviation BitcoinNetwork := string (only parsing).

Definition BitcoinNetworkUnknown : BitcoinNetwork := "unknown"%string.
Definition BitcoinNetworkMainnet : BitcoinNetwork := "mainnet"%string.
Definition BitcoinNetworkTestnet3 : BitcoinNetwork := "testnet3"%string.
Definition BitcoinNetworkTestnet4 : BitcoinNetwork := "testnet4"%string.
Definition BitcoinNetworkRegtest : BitcoinNetwork := "regtest"%string.
Definition BitcoinNetworkSimnet : BitcoinNetwork := "simnet"%string.

Definition net_IsValid (n : BitcoinNetwork) : bool :=
  bool_decide (n ∈ [BitcoinNetworkMainnet; BitcoinNetworkTestnet3; BitcoinNetworkTestnet4;
                    BitcoinNetworkRegtest; BitcoinNetworkSimnet]).

Definition net_String (n : BitcoinNetwork) : string :=
  if decide (n = BitcoinNetworkMainnet) then "mainnet"
  else if decide (n = BitcoinNetworkTestnet3) then "testnet3"
  else if decide (n = BitcoinNetworkTestnet4) then "testnet4"
  else if decide (n = BitcoinNetworkRegtest) then "regtest"
  else if decide (n = BitcoinNetworkSimnet) then "simnet"
  else "".

Definition BlockcypherChain (n : BitcoinNetwork) : string * bool :=
  if decide (n = BitcoinNetworkMainnet) then ("main"%string, true)
  else if decide (n = BitcoinNetworkTestnet3 \/ n = BitcoinNetworkTestnet4) then ("test3"%string, true)
  else (""%string, false).

(** What the code uses of btcd: the network parameters, hashes, addresses and
    the wire format. *)
Class Btcd := {
  Params : Type;
  MainNetParams : Params;
  TestNet3Params : Params;
  RegressionNetParams : Params;
  SimNetParams : Params;
  Hash : Type;
  NewHashFromStr : string -> result Hash;
  Address : Type;
  DecodeAddress : string -> Params -> result Address;
  IsForNet : Address -> Params -> bool;
  PayToAddrScript : Address -> result (list Byte.byte);
  (** [wire.MsgTx.Serialize] of a version, inputs and outputs *)
  SerializeTx : Z -> list (Hash * Z) -> list (Z * list Byte.byte) -> result (list Byte.byte);
  HashH : list Byte.byte -> string
}.

(** A toy network for evaluation: an address is its text, a script the empty one. *)
Definition demo_btcd : Btcd := {|
  Params := unit; MainNetParams := tt; TestNet3Params := tt; RegressionNetParams := tt; SimNetParams := tt;
  Hash := string; NewHashFromStr s := Ok s; Address := string; DecodeAddress s _ := Ok s; IsForNet _ _ := true;
  PayToAddrScript _ := Ok []; SerializeTx _ _ _ := Ok []; HashH _ := ""%string |}.

Definition ChaincfgNetwork `{Btcd} (b : BitcoinNetwork) : result Params :=
  if decide (b = BitcoinNetworkMainnet) then Ok MainNetParams
  else if decide (b = BitcoinNetworkTestnet3) then Ok TestNet3Params
  else if decide (b = BitcoinNetworkTestnet4) then Ok TestNet3Params
  else if decide (b = BitcoinNetworkRegtest) then Ok RegressionNetParams
  else if decide (b = BitcoinNetworkSimnet) then Ok SimNetParams
  else Err (errOther ("unknown Bitcoin network: " +:+ net_String b)).

(** [bitcoin.ValidatePublicAddress]. *)
Definition ValidatePublicAddress `{Btcd} (address : string) (network : BitcoinNetwork) : result bool :=
  match ChaincfgNetwork network with
  | Err err => Err err
  | Ok params =>
      match DecodeAddress address params with
      | Err _ => Ok false
      | Ok addr => Ok (IsForNet addr params)
      end
  end.

(** ** Fees *)

Record FeeTier := { ft_FeeRate : Z; ft_TargetBlock : Z }.

Abbreviation FeePriority := Z (only parsing).

Definition FeePriorityFastest : FeePriority := 0.
Definition FeePriorityFast : FeePriority := 1.
Definition FeePriorityMedium : FeePriority := 2.
Definition FeePrioritySlow : FeePriority := 3.
Definition FeePriorityMinimum : FeePriority := 4.

Definition TargetBlock (p : FeePriority) : Z :=
  match p with
  | 0 => 1
  | 1 => 3
  | 2 => 6
  | 3 => 144
  | 4 => 1008
  | _ => 6
  end.

Definition abs (x : Z) : Z := if x <? 0 then wrap64 (- x) else x.

(** The loop over [tiers[1:]]. *)
Definition closest_step (target : Z) (acc : FeeTier * Z) (t : FeeTier) : FeeTier * Z :=
  let '(best, bestDiff) := acc in
  let d := abs (wrap64 (ft_TargetBlock t - target)) in
  if d <? bestDiff then (t, d) else (best, bestDiff).

Definition SelectClosest (p : FeePriority) (tiers : list FeeTier) : FeeTier :=
  match tiers with
  | [] => {| ft_FeeRate := 0; ft_TargetBlock := 0 |}
  | best :: rest =>
      let target := TargetBlock p in
      (foldl (closest_step target) (best, abs (wrap64 (ft_TargetBlock best - target))) rest).1
  end.

(** ** Transactions and unspent outputs *)

(** [TxState] is a struct with one field, the status. *)
Definition TxState := string.
Definition TxStateFailed : TxState := "failed"%string.
Definition TxStatePending : TxState := "pending"%string.
Definition TxStateConfirmed : TxState := "confirmed"%string.
Definition TxStateUnknown : TxState := "unknown"%string.

Record TxOutput := { txo_Address : string; txo_Value : Z }.

Record TxInput := { txi_PreviousTxID : string; txi_OutputIndex : Z }.

Record SignedTx := {
  stx_ID : string;
  stx_Version : Z;
  stx_Inputs : list TxInput;
  stx_Outputs : list TxOutput;
  stx_RawSigned : list Byte.byte;
  stx_Fee : Z;
  stx_Status : TxState
}.

(** A nil script is [None]. *)
Record UTXO := {
  utxo_TxHash : string;
  utxo_Vout : Z;
  utxo_Amount : Z;
  utxo_ScriptPubKey : option (list Byte.byte);
  utxo_Address : string;
  utxo_Confirmed : bool;
  utxo_Confirmations : Z;
  utxo_Spendable : bool;
  utxo_BlockHeight : Z
}.

Definition OutPoint `{Btcd} (u : UTXO) : result (Hash * Z) :=
  match NewHashFromStr (utxo_TxHash u) with
  | Err err => Err err
  | Ok hash => Ok (hash, utxo_Vout u)
  end.

Definition ValueInBTC (u : UTXO) : f64 := f64_div (f64_of_Z (utxo_Amount u)) (f64_of_Z 100000000).

Record UTXOSet := { us_UTXOs : list UTXO; us_Total : Z }.

(** The loop of [Select], which stops as soon as the amount is reached. *)
Fixpoint select_loop (target : Z) (utxos selected : list UTXO) (change : Z) : list UTXO * Z :=
  match utxos with
  | [] => (selected, change)
  | utxo :: utxos =>
      let selected := selected ++ [utxo] in
      let change := wrap64 (change + utxo_Amount utxo) in
      if target <=? change then (selected, change) else select_loop target utxos selected change
  end.

Definition Select (targetAmount : Z) (us : UTXOSet) : result (list UTXO * Z) :=
  let '(selected, change) := select_loop targetAmount (us_UTXOs us) [] 0 in
  if change <? targetAmount then Err (errOther "insufficient funds")
  else Ok (selected, wrap64 (change - targetAmount)).

(** ** Balances *)

Record Balance := { bal_Confirmed : Z; bal_Unconfirmed : Z; bal_Total : Z }.

Definition balance_step (acc : Z * Z) (u : UTXO) : Z * Z :=
  let '(confirmed, unconfirmed) := acc in
  if utxo_Confirmed u then (wrapu64 (confirmed + wrapu64 (utxo_Amount u)), unconfirmed)
  else (confirmed, wrapu64 (unconfirmed + wrapu64 (utxo_Amount u))).

Definition CalculateBalanceFromUTXOs (utxos : list UTXO) : Balance :=
  let '(confirmed, unconfirmed) := foldl balance_step (0, 0) utxos in
  {| bal_Confirmed := confirmed; bal_Unconfirmed := unconfirmed; bal_Total := wrapu64 (confirmed + unconfirmed) |}.

(** ** Serialisation of an unsigned transaction *)

Section serialize.
Context `{Btcd}.

Record Tx := {
  tx_Version : Z;
  tx_Inputs : list TxInput;
  tx_Outputs : list TxOutput;
  tx_Fee : Z;
  tx_Status : TxState;
  tx_Params : option Params
}.

Fixpoint wire_inputs (inputs : list TxInput) : result (list (Hash * Z)) :=
  match inputs with
  | [] => Ok []
  | input :: inputs =>
      match NewHashFromStr (txi_PreviousTxID input) with
      | Err err => Err (errWrap "invalid previous tx id: " err "")
      | Ok prevOut =>
          match wire_inputs inputs with
          | Err err => Err err
          | Ok rest => Ok ((prevOut, txi_OutputIndex input) :: rest)
          end
      end
  end.

(** [%q] of a string that needs no escape. *)
Definition quoted (s : string) : string :=
  String (char_of 34) (s +:+ String (char_of 34) "").

Fixpoint wire_outputs (params : Params) (outputs : list TxOutput) : result (list (Z * list Byte.byte)) :=
  match outputs with
  | [] => Ok []
  | output :: outputs =>
      match DecodeAddress (txo_Address output) params with
      | Err err => Err (errWrap ("invalid output address " +:+ quoted (txo_Address output) +:+ ": ") err "")
      | Ok addr =>
          match PayToAddrScript addr with
          | Err err => Err (errWrap ("failed to build scriptPubKey for " +:+ quoted (txo_Address output) +:+ ": ") err "")
          | Ok pkScript =>
              match wire_outputs params outputs with
              | Err err => Err err
              | Ok rest => Ok ((txo_Value output, pkScript) :: rest)
              end
          end
      end
  end.

Definition Serialize (tx : Tx) : result (list Byte.byte) :=
  match tx_Params tx with
  | None => Err (errOther "Tx.Params must be set to network chaincfg.Params before serializing")
  | Some params =>
      match wire_inputs (tx_Inputs tx) with
      | Err err => Err err
      | Ok ins =>
          match wire_outputs params (tx_Outputs tx) with
          | Err err => Err err
          | Ok outs =>
              match SerializeTx (tx_Version tx) ins outs with
              | Err err => Err (errWrap "failed to serialize transaction: " err "")
              | Ok bytes => Ok bytes
              end
          end
      end
  end.

Definition tx_Hash (tx : Tx) : result string :=
  match Serialize tx with
  | Err err => Err (errWrap "failed to serialize transaction: " err "")
  | Ok serialized => Ok (HashH serialized)
  end.
End serialize.

(** ** Coins and currencies *)

Record CoinTicker := { ct_blockchain : string; ct_coingecko : string; ct_mempool : string }.

#[global] Instance CoinTicker_eq_dec : EqDecision CoinTicker.
Proof. solve_decision. Defined.

Definition CoinTickerBTC : CoinTicker :=
  {| ct_blockchain := "BTC"; ct_coingecko := "Bitcoin"; ct_mempool := "BTC" |}.
Definition CoinTickerUnspecified : CoinTicker :=
  {| ct_blockchain := ""; ct_coingecko := ""; ct_mempool := "" |}.

Definition ct_String (t : CoinTicker) : string :=
  if bool_decide (ct_blockchain t = ""%string) && bool_decide (ct_coingecko t = ""%string)
     && bool_decide (ct_mempool t = ""%string) then "Unknown"
  else if negb (bool_decide (ct_blockchain t = ""%string)) then ct_blockchain t
  else if negb (bool_decide (ct_coingecko t = ""%string)) then ct_coingecko t
  else if negb (bool_decide (ct_mempool t = ""%string)) then ct_mempool t
  else "Unknown".

Definition BlockchainString (t : CoinTicker) : string :=
  if bool_decide (ct_blockchain t = ""%string) then ct_coingecko t else ct_blockchain t.

Definition CoingeckoString (t : CoinTicker) : string :=
  if bool_decide (ct_coingecko t = ""%string) then ct_blockchain t else ct_coingecko t.

Definition MempoolString (t : CoinTicker) : string :=
  if bool_decide (ct_mempool t = ""%string) then ct_blockchain t else ct_mempool t.

Definition CoinTickerFromString (s : string) : result CoinTicker :=
  if decide (s = "COIN_TICKER_BTC"%string \/ s = "BTC"%string \/ s = "Bitcoin"%string) then Ok CoinTickerBTC
  else if decide (s = "COIN_TICKER_UNSPECIFIED"%string \/ s = ""%string) then Ok CoinTickerUnspecified
  else Err (errOther ("unknown coin ticker: " +:+ s)).

(** ** Derivation indices

    [hash/fnv]: the 64-bit FNV-1a hash of the standard library. *)

Definition fnv_offset64 : Z := 14695981039346656037.
Definition fnv_prime64 : Z := 1099511628211.

Definition fnv1a_step (hash c : Z) : Z := wrapu64 (Z.lxor hash c * fnv_prime64).

Fixpoint fnv1a_from (hash : Z) (s : string) : Z :=
  match s with
  | EmptyString => hash
  | String c s => fnv1a_from (fnv1a_step hash (code c)) s
  end.

Definition DeriveHDIndices (data : string) : result (Z * Z) :=
  if bool_decide (data = ""%string) then Err (errOther "data cannot be empty")
  else
    let hash := fnv1a_from fnv_offset64 data in
    let hi := Z.land (Z.shiftr hash 32) (Z.ones 32) in
    let lo := Z.land hash (Z.ones 32) in
    Ok (Z.land hi 2147483647, Z.land lo 2147483647).

(** A known value of the hash: FNV-1a of the one-letter string a. *)
Example fnv1a_a : fnv1a_from fnv_offset64 "a" = 12638187200555641996.
Proof. reflexivity. Qed.

(** ** Properties *)

Definition diff (p : FeePriority) (t : FeeTier) : Z := Z.abs (ft_TargetBlock t - TargetBlock p).

Lemma TargetBlock_range p : 1 <= TargetBlock p <= 1008.
Proof. unfold TargetBlock. repeat case_match; lia. Qed.

Definition tier_ok (t : FeeTier) : Prop := - 2 ^ 62 <= ft_TargetBlock t <= 2 ^ 62.

Lemma abs_diff p t : tier_ok t -> abs (wrap64 (ft_TargetBlock t - TargetBlock p)) = diff p t.
Proof.
  intros Ht. unfold tier_ok in Ht. pose proof (TargetBlock_range p). unfold abs, diff.
  rewrite (wrap64_id (_ - _)) by int_range. case_match; [rewrite wrap64_id by int_range|]; go_lia.
Qed.

(** What the loop keeps: the first of the closest tiers seen so far. *)
Definition closest_in (p : FeePriority) (l : list FeeTier) (best : FeeTier) : Prop :=
  exists l1 l2, l = l1 ++ best :: l2 /\ Forall (fun t => diff p best < diff p t) l1
    /\ Forall (fun t => diff p best <= diff p t) l2.

Lemma closest_step_spec p l best t :
  closest_in p l best -> tier_ok t ->
  exists best', closest_step (TargetBlock p) (best, diff p best) t = (best', diff p best')
    /\ closest_in p (l ++ [t]) best'.
Proof.
  intros (l1 & l2 & -> & H1 & H2) Ht. unfold closest_step. rewrite (abs_diff p t Ht).
  destruct (Z.ltb_spec (diff p t) (diff p best)) as [Hlt|Hle].
  - exists t. split; [done|]. exists (l1 ++ best :: l2), []. split_and!; [done| |done].
    apply Forall_app. split; [|constructor; [done|]]; (eapply Forall_impl; [done|]; cbn; lia).
  - exists best. split; [done|]. exists l1, (l2 ++ [t]). rewrite <-app_assoc. split_and!; [done..|].
    apply Forall_app. split; [done|by repeat constructor].
Qed.

Lemma closest_loop p rest l best :
  closest_in p l best -> Forall tier_ok rest ->
  exists best', foldl (closest_step (TargetBlock p)) (best, diff p best) rest = (best', diff p best')
    /\ closest_in p (l ++ rest) best'.
Proof.
  revert l best. induction rest as [|t rest IH]; intros l best Hb Hr; [exists best; by rewrite app_nil_r|].
  inversion Hr as [|? ? Ht Hr']; subst. destruct (closest_step_spec p l best t Hb Ht) as (b1 & Hs & Hb1).
  destruct (IH (l ++ [t]) b1 Hb1 Hr') as (b2 & Hf & Hb2). exists b2. cbn [foldl]. rewrite Hs, Hf.
  split; [done|]. by rewrite <-app_assoc in Hb2.
Qed.

(** [SelectClosest] returns, of a non-empty list, the first tier whose
    target block is nearest to that of the priority. *)
Theorem SelectClosest_closest p tiers :
  tiers <> [] -> Forall tier_ok tiers ->
  exists l1 l2, tiers = l1 ++ SelectClosest p tiers :: l2
    /\ Forall (fun t => diff p (SelectClosest p tiers) < diff p t) l1
    /\ Forall (fun t => diff p (SelectClosest p tiers) <= diff p t) l2.
Proof.
  intros Hne Hok. destruct tiers as [|best rest]; [done|]. inversion Hok as [|? ? Hb Hr]; subst. cbn [SelectClosest].
  rewrite (abs_diff p best Hb). destruct (closest_loop p rest [best] best) as (b & -> & Hc); [|done|exact Hc].
  exists [], []. by split_and!.
Qed.

Lemma SelectClosest_closest_witness :
  let tiers := [{| ft_FeeRate := 40; ft_TargetBlock := 1 |}; {| ft_FeeRate := 20; ft_TargetBlock := 4 |};
                {| ft_FeeRate := 10; ft_TargetBlock := 8 |}; {| ft_FeeRate := 2; ft_TargetBlock := 144 |}] in
  SelectClosest FeePriorityMedium tiers = {| ft_FeeRate := 20; ft_TargetBlock := 4 |}
  /\ exists l1 l2, tiers = l1 ++ SelectClosest FeePriorityMedium tiers :: l2
    /\ Forall (fun t => diff FeePriorityMedium (SelectClosest FeePriorityMedium tiers) < diff FeePriorityMedium t) l1
    /\ Forall (fun t => diff FeePriorityMedium (SelectClosest FeePriorityMedium tiers) <= diff FeePriorityMedium t) l2.
Proof.
  intros tiers. split; [reflexivity|]. apply (SelectClosest_closest FeePriorityMedium tiers); [discriminate|].
  repeat constructor; vm_compute; discriminate.
Defined.

(** *** Selecting outputs *)

Definition amounts (l : list UTXO) : Z := foldr Z.add 0 (map utxo_Amount l).

Lemma amounts_app l k : amounts (l ++ k) = amounts l + amounts k.
Proof. unfold amounts. induction l as [|u l IH]; [done|]. cbn in *. lia. Qed.

Lemma amounts_nonneg l : Forall (fun u => 0 <= utxo_Amount u) l -> 0 <= amounts l.
Proof. unfold amounts. induction 1; cbn in *; lia. Qed.

Lemma select_loop_spec target utxos selected :
  Forall (fun u => 0 <= utxo_Amount u) (selected ++ utxos) -> amounts (selected ++ utxos) < 2 ^ 63 ->
  (selected = [] \/ amounts selected < target) ->
  exists l rest, select_loop target utxos selected (amounts selected) = (l, amounts l)
    /\ selected ++ utxos = l ++ rest
    /\ (target <= amounts l \/ rest = [])
    /\ (forall l0 u, l = l0 ++ [u] -> l0 = [] \/ amounts l0 < target).
Proof.
  revert selected. induction utxos as [|u utxos IH]; intros selected Hpos Hsum Hsel; cbn [select_loop].
  - exists selected, []. split_and!; [done..|by right|]. intros l0 u Hl. right.
    destruct Hsel as [->|Hsel]; [by destruct l0|]. rewrite app_nil_r in Hpos. subst selected.
    rewrite amounts_app in Hsel. apply Forall_app in Hpos as [_ Hu]. pose proof (amounts_nonneg [u] Hu). lia.
  - assert (amounts (selected ++ [u]) = amounts selected + utxo_Amount u) as Hs.
    { rewrite amounts_app. unfold amounts. cbn. lia. }
    replace (selected ++ u :: utxos) with ((selected ++ [u]) ++ utxos) in * by (by rewrite <-app_assoc).
    pose proof Hpos as Hpos'. apply Forall_app in Hpos' as [H1 H2]. pose proof (amounts_nonneg _ H1).
    pose proof (amounts_nonneg _ H2). pose proof Hsum as Hsum'. rewrite amounts_app in Hsum'.
    rewrite wrap64_id by int_range. rewrite <-Hs.
    destruct (Z.leb_spec target (amounts (selected ++ [u]))) as [Hle|Hlt].
    + exists (selected ++ [u]), utxos. split_and!; [done..|by left|]. intros l0 v [-> _]%app_inj_tail. done.
    + apply IH; [done..|by right].
Qed.

(** For a non-negative target and amounts that do not overflow, [Select]
    fails exactly when the whole set is worth less than the target; otherwise
    it returns the shortest prefix worth the target (one output at least, of a
    non-empty set) and the exact, non-negative change. *)
Theorem Select_spec target us :
  Forall (fun u => 0 <= utxo_Amount u) (us_UTXOs us) -> amounts (us_UTXOs us) < 2 ^ 63 -> 0 <= target < 2 ^ 63 ->
  match Select target us with
  | Ok (l, change) => (exists rest, us_UTXOs us = l ++ rest) /\ change = amounts l - target /\ 0 <= change
      /\ (forall l0 u, l = l0 ++ [u] -> l0 = [] \/ amounts l0 < target)
  | Err _ => amounts (us_UTXOs us) < target
  end.
Proof.
  intros Hpos Hsum Ht. unfold Select.
  destruct (select_loop_spec target (us_UTXOs us) []) as (l & rest & Hl & Heq & Hstop & Hmin); [done..|by left|].
  change (amounts []) with 0 in Hl. rewrite Hl. cbn in Heq. rewrite Heq in *.
  apply Forall_app in Hpos as [H1 H2]. pose proof (amounts_nonneg _ H1). pose proof (amounts_nonneg _ H2).
  rewrite amounts_app in *. destruct (Z.ltb_spec (amounts l) target) as [Hlt|Hge].
  - destruct Hstop as [| ->]; [lia|]. change (amounts []) with 0 in *. lia.
  - rewrite wrap64_id by int_range. split_and!; [by exists rest|done|lia|done].
Qed.

Definition demo_utxo (a : Z) (c : bool) : UTXO := {|
  utxo_TxHash := "aa"; utxo_Vout := 0; utxo_Amount := a; utxo_ScriptPubKey := None; utxo_Address := "tb1q";
  utxo_Confirmed := c; utxo_Confirmations := 6; utxo_Spendable := true; utxo_BlockHeight := 800000 |}.

Lemma Select_spec_witness :
  let us := {| us_UTXOs := [demo_utxo 3000 true; demo_utxo 5000 true; demo_utxo 9000 false]; us_Total := 17000 |} in
  match Select 6000 us with
  | Ok (l, change) => (exists rest, us_UTXOs us = l ++ rest) /\ change = amounts l - 6000 /\ 0 <= change
      /\ (forall l0 u, l = l0 ++ [u] -> l0 = [] \/ amounts l0 < 6000)
  | Err _ => amounts (us_UTXOs us) < 6000
  end.
Proof.
  intros us. apply (Select_spec 6000 us); [repeat constructor; vm_compute; discriminate|vm_compute; reflexivity|].
  split; [vm_compute; discriminate|vm_compute; reflexivity].
Defined.

(** *** Balances *)

Lemma wrapu64_add a b : wrapu64 (wrapu64 a + wrapu64 b) = wrapu64 (a + b).
Proof. unfold wrapu64. by rewrite <-Zplus_mod. Qed.

Definition confirmed_of (c : bool) (l : list UTXO) : list UTXO := filter (fun x => utxo_Confirmed x = c) l.

Lemma balance_fold l c u :
  foldl balance_step (wrapu64 c, wrapu64 u) l
    = (wrapu64 (c + amounts (confirmed_of true l)), wrapu64 (u + amounts (confirmed_of false l))).
Proof.
  revert c u. unfold confirmed_of. induction l as [|x l IH]; intros c u; cbn [foldl].
  { rewrite !filter_nil. change (amounts []) with 0. by rewrite !Z.add_0_r. }
  unfold balance_step at 2. rewrite !wrapu64_add, !filter_cons.
  destruct (utxo_Confirmed x) eqn:Ex; rewrite IH.
  - rewrite (decide_True (P := true = true)), (decide_False (P := true = false)) by done.
    unfold amounts. cbn. f_equal; f_equal; lia.
  - rewrite (decide_False (P := false = true)), (decide_True (P := false = false)) by done.
    unfold amounts. cbn. f_equal; f_equal; lia.
Qed.

(** The balance does not depend on the order of the outputs, its parts are
    the sums of the confirmed and of the unconfirmed amounts modulo 2^64, and
    its total that of all the amounts. *)
Theorem CalculateBalanceFromUTXOs_sums utxos utxos' :
  utxos ≡ₚ utxos' ->
  CalculateBalanceFromUTXOs utxos = CalculateBalanceFromUTXOs utxos'
  /\ bal_Confirmed (CalculateBalanceFromUTXOs utxos) = wrapu64 (amounts (confirmed_of true utxos))
  /\ bal_Unconfirmed (CalculateBalanceFromUTXOs utxos) = wrapu64 (amounts (confirmed_of false utxos))
  /\ bal_Total (CalculateBalanceFromUTXOs utxos) = wrapu64 (amounts utxos).
Proof.
  assert (forall l c, Permutation l c -> amounts l = amounts c) as Hperm.
  { intros l c. unfold amounts. induction 1; cbn; lia. }
  assert (forall l, CalculateBalanceFromUTXOs l = {| bal_Confirmed := wrapu64 (amounts (confirmed_of true l));
    bal_Unconfirmed := wrapu64 (amounts (confirmed_of false l)); bal_Total := wrapu64 (amounts l) |}) as Hall.
  { intros l. unfold CalculateBalanceFromUTXOs. change (0, 0) with (wrapu64 0, wrapu64 0).
    rewrite balance_fold, wrapu64_add. do 2 f_equal. rewrite !Z.add_0_l, <-amounts_app. apply Hperm.
    unfold confirmed_of. rewrite <-(filter_app_complement (fun x => utxo_Confirmed x = true) l) at 3.
    apply Permutation_app; [done|]. apply Permutation_refl', list_filter_iff. intros x. by destruct (utxo_Confirmed x). }
  intros Hp. rewrite !Hall. split_and!; [|done..]. unfold confirmed_of.
  f_equal; f_equal; apply Hperm; [by apply filter_Permutation..|done].
Qed.

Lemma CalculateBalanceFromUTXOs_sums_witness :
  let l := [demo_utxo 3 true; demo_utxo 5 false] in
  let l' := [demo_utxo 5 false; demo_utxo 3 true] in
  CalculateBalanceFromUTXOs l = CalculateBalanceFromUTXOs l'
  /\ bal_Confirmed (CalculateBalanceFromUTXOs l) = wrapu64 (amounts (confirmed_of true l))
  /\ bal_Unconfirmed (CalculateBalanceFromUTXOs l) = wrapu64 (amounts (confirmed_of false l))
  /\ bal_Total (CalculateBalanceFromUTXOs l) = wrapu64 (amounts l).
Proof. intros l l'. apply (CalculateBalanceFromUTXOs_sums l l'). apply perm_swap. Defined.

(** *** Derivation indices *)

(** Derivation fails exactly on empty data, and both indices of any other
    are non-hardened BIP-32 indices, below 2^31. *)
Theorem DeriveHDIndices_bounds data :
  match DeriveHDIndices data with
  | Ok (index, childIndex) => data <> ""%string /\ 0 <= index < 2 ^ 31 /\ 0 <= childIndex < 2 ^ 31
  | Err _ => data = ""%string
  end.
Proof.
  unfold DeriveHDIndices. destruct (bool_decide _) eqn:E; [by apply bool_decide_eq_true in E|].
  apply bool_decide_eq_false in E. split; [done|]. change 2147483647 with (Z.ones 31).
  rewrite !Z.land_ones by lia. split; apply Z.mod_pos_bound; lia.
Qed.

(** *** Coin tickers *)

(** A ticker that [CoinTickerFromString] can produce survives marshalling
    and parsing exactly when it is BTC: the unspecified ticker prints as
    Unknown, which parsing rejects. *)
Theorem CoinTicker_roundtrip s t :
  CoinTickerFromString s = Ok t ->
  (CoinTickerFromString (ct_String t) = Ok t <-> t = CoinTickerBTC)
  /\ (t = CoinTickerBTC \/ t = CoinTickerUnspecified).
Proof.
  unfold CoinTickerFromString at 1. repeat case_decide; intros [= <-]; (split; [|by auto]); by vm_compute.
Qed.

Lemma CoinTicker_roundtrip_witness :
  (CoinTickerFromString (ct_String CoinTickerUnspecified) = Ok CoinTickerUnspecified
    <-> CoinTickerUnspecified = CoinTickerBTC)
  /\ (CoinTickerUnspecified = CoinTickerBTC \/ CoinTickerUnspecified = CoinTickerUnspecified).
Proof. apply (CoinTicker_roundtrip "COIN_TICKER_UNSPECIFIED"). reflexivity. Defined.
