(* ===== verification/Providers.v ===== *)
(** * The mixed provider

    [interfaces.go], [metrics.go], [providers.go] and [provider_selector.go]:
    the capability interfaces, the dispatch of an operation to the chain of its
    role with one metrics event per call, and the pinning wrapper.

    A provider is a value of [P] whose dynamic type may implement some of the
    capability interfaces ([Dynamic]); a type assertion that fails panics.  A pointer result
    is modelled by what it points to. *)

From S2P Require Import Prelude GoInt GoFloat GoString Config RateLimit Sorting Penalties.
From S2P Require Import Scorer ScoringConfig Latency Events Decay Store Engine EngineStore.
From S2P Require Import Selection Manager RunOp Bitcoin.

(** ** Data *)

Record DerivedAddress := { da_PublicKey : string; da_PrivateKey : string }.

Record TxConfirmationStatus := {
  tcs_Confirmed : bool;
  tcs_Confirmations : Z;
  tcs_BlockHeight : Z;
  tcs_BlockHash : string
}.

Abbreviation Currency := string (only parsing).

(** [big.Float]: [m * 2 ^ e], or an infinity. *)
Inductive bigFloat := BigFinite (m e : Z) | BigInf (negative : bool).

Record CoinRate := {
  cr_Rate : bigFloat;
  cr_Timestamp : Time;
  cr_Network : BitcoinNetwork;
  cr_Source : string;
  cr_Currency : Currency;
  cr_Coin : CoinTicker
}.

(** ** Capabilities *)

Section capabilities.
Context (W : Type) `{Btcd}.

(** A provider call: it may fail, panic, and act on the environment. *)
Abbreviation call R := (W -> go (result R * W)).

Record AddressGenerator := { ag_DeriveAddress : context -> string -> Z -> Z -> call DerivedAddress }.
Record AddressValidator := { av_ValidateAddress : context -> string -> call bool }.
Record FeeRecommender := {
  fr_GetTxFees : context -> call (list FeeTier);
  fr_GetTxFee : context -> FeePriority -> call FeeTier
}.
Record FeeEstimator := { fe_CalculateFee : context -> Z -> Z -> call Z }.
Record TxAssembler := { ta_CreateTransaction : context -> list UTXO -> list TxOutput -> call Tx }.
Record TxSizer := { tz_CalculateTransactionSize : context -> SignedTx -> call Z }.
Record TxSigner := { ts_SignTransaction : context -> Tx -> list UTXO -> string -> call SignedTx }.
Record UTXOFetcher := { uf_GetUTXOs : context -> string -> call (list UTXO) }.
Record TxBroadcaster := { tb_PushTx : context -> list Byte.byte -> call string }.
Record TxStatusFetcher := { tf_GetTxStatus : context -> string -> call TxConfirmationStatus }.
Record BalanceFetcher := { bf_GetBalance : context -> string -> call Balance }.
Record RateFetcher := {
  rf_GetExchangeRate : context -> CoinTicker -> Currency -> call CoinRate;
  rf_GetExchangeRates : context -> CoinTicker -> call (list CoinRate)
}.
Record HistoricalRateFetcher := {
  hf_GetHistoricalRates : context -> CoinTicker -> Currency -> Time -> Time -> call (list CoinRate)
}.

(** What the dynamic type of a provider value implements; [as_Name] is
    [BlockchainBaseProvider]. *)
Class Dynamic (P : Type) := {
  as_Name : P -> option string;
  as_AddressGenerator : P -> option AddressGenerator;
  as_AddressValidator : P -> option AddressValidator;
  as_FeeRecommender : P -> option FeeRecommender;
  as_FeeEstimator : P -> option FeeEstimator;
  as_TxAssembler : P -> option TxAssembler;
  as_TxSizer : P -> option TxSizer;
  as_TxSigner : P -> option TxSigner;
  as_UTXOFetcher : P -> option UTXOFetcher;
  as_TxBroadcaster : P -> option TxBroadcaster;
  as_TxStatusFetcher : P -> option TxStatusFetcher;
  as_BalanceFetcher : P -> option BalanceFetcher;
  as_RateFetcher : P -> option RateFetcher;
  as_HistoricalRateFetcher : P -> option HistoricalRateFetcher
}.
End capabilities.
Arguments Dynamic W {_} P.
Arguments as_Name {W _ P _} _.
Arguments as_AddressGenerator {W _ P _} _.
Arguments as_AddressValidator {W _ P _} _.
Arguments as_FeeRecommender {W _ P _} _.
Arguments as_FeeEstimator {W _ P _} _.
Arguments as_TxAssembler {W _ P _} _.
Arguments as_TxSizer {W _ P _} _.
Arguments as_TxSigner {W _ P _} _.
Arguments as_UTXOFetcher {W _ P _} _.
Arguments as_TxBroadcaster {W _ P _} _.
Arguments as_TxStatusFetcher {W _ P _} _.
Arguments as_BalanceFetcher {W _ P _} _.
Arguments as_RateFetcher {W _ P _} _.
Arguments as_HistoricalRateFetcher {W _ P _} _.

(** [provider.(I).Method(...)]: the method [f] of the interface [i]. *)
Definition assert_call {P W I R : Type} (i : P -> option I) (f : I -> W -> go (result R * W))
    (provider : P) (w : W) : go (result R * W) :=
  match i provider with
  | Some impl => f impl w
  | None => None
  end.

(** ** Metrics *)

Record RequestEvent := {
  re_Provider : string;
  re_Operation : string;
  re_Success : bool;
  re_Duration : Duration;
  re_AttemptCount : Z;
  re_ErrorClass : string
}.

(** A recorder by the interface it satisfies. *)
Inductive MetricsRecorder := NoOpMetricsRecorder | SimpleRecorder | RichRecorder.

(** The calls a recorder receives. *)
Inductive recorded :=
  | RecordBlockchainRequest (provider operation : string) (success : bool) (duration : Duration)
  | RecordBlockchainRequestRich (e : RequestEvent).

Definition classifyError (err : option error) : string :=
  match err with
  | None => ""
  | Some err =>
      if errors_is err ErrAuthFailure then "auth"
      else if errors_is err ErrProviderNotConfigured then "config"
      else if errors_is err ContextDeadlineExceeded || errors_is err ContextCanceled then "timeout"
      else
        let msg := to_lower (err_msg err) in
        if str_contains "rate limit" msg || str_contains "429" msg || str_contains "too many requests" msg
        then "rate_limit" else "other"
  end.

(** ** State and dispatch *)

Section mixed.
Context {S Ps P W : Type} `{Btcd, MapRange, GoRand, SortSlice, GoArch, GoMath, World W, !Dynamic W P}.

(** [MixedProviders].  A nil chain is [None]; [mp_engine] is the engine the
    managers share, meaningful when [mp_scoring].  [mp_recorded] is what the
    recorder has been given. *)
Record MixedProviders := {
  mp_managers : ProviderChainType -> option (providerManager P);
  mp_recorder : MetricsRecorder;
  mp_recorded : list recorded;
  mp_scoring : bool;
  mp_engine : Engine S Ps
}.
Implicit Types m : MixedProviders.

(** Assigning one chain. *)
Definition put (chain : ProviderChainType) (pm : providerManager P)
    (f : ProviderChainType -> option (providerManager P)) : ProviderChainType -> option (providerManager P) :=
  fun c => if decide (c = chain) then Some pm else f c.

Definition set_mp_managers (v : ProviderChainType -> option (providerManager P)) m : MixedProviders :=
  {| mp_managers := v; mp_recorder := mp_recorder m; mp_recorded := mp_recorded m;
     mp_scoring := mp_scoring m; mp_engine := mp_engine m |}.
Definition set_mp_engine (v : Engine S Ps) m : MixedProviders :=
  {| mp_managers := mp_managers m; mp_recorder := mp_recorder m; mp_recorded := mp_recorded m;
     mp_scoring := mp_scoring m; mp_engine := v |}.
Definition set_mp_recorded (v : list recorded) m : MixedProviders :=
  {| mp_managers := mp_managers m; mp_recorder := mp_recorder m; mp_recorded := v;
     mp_scoring := mp_scoring m; mp_engine := mp_engine m |}.

(** The recorder call at the end of an operation. *)
Definition record_request (operation provider : string) (duration : Duration) (attempts : Z) (err : option error) m
    : MixedProviders :=
  let success := bool_decide (err = None) in
  match mp_recorder m with
  | NoOpMetricsRecorder => m
  | RichRecorder =>
      set_mp_recorded (mp_recorded m ++ [RecordBlockchainRequestRich {|
        re_Provider := provider; re_Operation := operation; re_Success := success; re_Duration := duration;
        re_AttemptCount := attempts; re_ErrorClass := classifyError err |}]) m
  | SimpleRecorder =>
      set_mp_recorded (mp_recorded m ++ [RecordBlockchainRequest provider operation success duration]) m
  end.

Definition executeWithFallbackAndMetrics {R : Type} (ctx : context) (chain : ProviderChainType)
    (operation : string) (fn : P -> W -> go (result R * W)) (dbg : debugState) m (w : W)
    : go (result R * debugState * MixedProviders * W) :=
  manager ← mp_managers m chain;
  '(rr, dbg, s) ← runOp fn ctx dbg {| rs_pm := manager; rs_eng := mp_engine m; rs_world := w |};
  let m := set_mp_engine (rs_eng s) (set_mp_managers (put chain (rs_pm s) (mp_managers m)) m) in
  let m := record_request operation (rr_provider rr) (rr_duration rr) (rr_attempts rr) (rr_err rr) m in
  match rr_err rr with
  | Some err => Some (Err err, dbg, m, rs_world s)
  | None => result ← rr_data rr; Some (Ok result, dbg, m, rs_world s)
  end.

(** The chains [ProviderExists] looks at. *)
Definition existing_chains : list ProviderChainType :=
  [ProviderChainAddressGenerators; ProviderChainAddressValidators; ProviderChainFeeEstimators;
   ProviderChainFeeRecommenders; ProviderChainTxBroadcasters; ProviderChainUTXOFetchers;
   ProviderChainTxAssemblers; ProviderChainTxSizers; ProviderChainTxSigners;
   ProviderChainTxStatusFetchers; ProviderChainBalanceFetchers; ProviderChainRateFetchers].

Definition ProviderExists (name : string) m : bool :=
  existsb (fun chain => match mp_managers m chain with
                        | Some manager => HasProvider name manager
                        | None => false
                        end) existing_chains.

(** ** The operations *)

Definition DeriveAddress (ctx : context) (xpub : string) (index childIndex : Z) :=
  executeWithFallbackAndMetrics ctx ProviderChainAddressGenerators "DeriveAddress"
    (assert_call as_AddressGenerator (fun p => ag_DeriveAddress W p ctx xpub index childIndex)).

Definition GetTxFees (ctx : context) :=
  executeWithFallbackAndMetrics ctx ProviderChainFeeRecommenders "GetTxFees"
    (assert_call as_FeeRecommender (fun p => fr_GetTxFees W p ctx)).

Definition GetTxFee (ctx : context) (priority : FeePriority) :=
  executeWithFallbackAndMetrics ctx ProviderChainFeeRecommenders "GetTxFee"
    (assert_call as_FeeRecommender (fun p => fr_GetTxFee W p ctx priority)).

Definition CalculateFee (ctx : context) (txSize feePerByte : Z) :=
  executeWithFallbackAndMetrics ctx ProviderChainFeeEstimators "CalculateFee"
    (assert_call as_FeeEstimator (fun p => fe_CalculateFee W p ctx txSize feePerByte)).

Definition PushTx (ctx : context) (rawTx : list Byte.byte) :=
  executeWithFallbackAndMetrics ctx ProviderChainTxBroadcasters "PushTx"
    (assert_call as_TxBroadcaster (fun p => tb_PushTx W p ctx rawTx)).

Definition CreateTransaction (ctx : context) (utxos : list UTXO) (outputs : list TxOutput) :=
  executeWithFallbackAndMetrics ctx ProviderChainTxAssemblers "CreateTransaction"
    (assert_call as_TxAssembler (fun p => ta_CreateTransaction W p ctx utxos outputs)).

Definition CalculateTransactionSize (ctx : context) (tx : SignedTx) :=
  executeWithFallbackAndMetrics ctx ProviderChainTxSizers "CalculateTransactionSize"
    (assert_call as_TxSizer (fun p => tz_CalculateTransactionSize W p ctx tx)).

Definition SignTransaction (ctx : context) (tx : Tx) (utxos : list UTXO) (privWIF : string) :=
  executeWithFallbackAndMetrics ctx ProviderChainTxSigners "SignTransaction"
    (assert_call as_TxSigner (fun p => ts_SignTransaction W p ctx tx utxos privWIF)).

Definition GetUTXOs (ctx : context) (address : string) :=
  executeWithFallbackAndMetrics ctx ProviderChainUTXOFetchers "GetUTXOs"
    (assert_call as_UTXOFetcher (fun p => uf_GetUTXOs W p ctx address)).

Definition GetBalance (ctx : context) (address : string) :=
  executeWithFallbackAndMetrics ctx ProviderChainBalanceFetchers "GetBalance"
    (assert_call as_BalanceFetcher (fun p => bf_GetBalance W p ctx address)).

Definition ValidateAddress (ctx : context) (address : string) :=
  executeWithFallbackAndMetrics ctx ProviderChainAddressValidators "ValidateAddress"
    (assert_call as_AddressValidator (fun p => av_ValidateAddress W p ctx address)).

Definition GetExchangeRate (ctx : context) (coin : CoinTicker) (currency : Currency) :=
  executeWithFallbackAndMetrics ctx ProviderChainRateFetchers "GetExchangeRate"
    (assert_call as_RateFetcher (fun p => rf_GetExchangeRate W p ctx coin currency)).

Definition GetExchangeRates (ctx : context) (coin : CoinTicker) :=
  executeWithFallbackAndMetrics ctx ProviderChainRateFetchers "GetExchangeRates"
    (assert_call as_RateFetcher (fun p => rf_GetExchangeRates W p ctx coin)).

Definition GetHistoricalRates (ctx : context) (coin : CoinTicker) (currency : Currency) (since until : Time) :=
  executeWithFallbackAndMetrics ctx ProviderChainHistoricalRateFetchers "GetHistoricalRates"
    (assert_call as_HistoricalRateFetcher (fun p => hf_GetHistoricalRates W p ctx coin currency since until)).

Definition GetTxStatus (ctx : context) (txID : string) :=
  executeWithFallbackAndMetrics ctx ProviderChainTxStatusFetchers "GetTxStatus"
    (assert_call as_TxStatusFetcher (fun p => tf_GetTxStatus W p ctx txID)).

(** ** Scoring *)

Definition StopScoring m : go MixedProviders :=
  if mp_scoring m then e ← eng_Stop (mp_engine m); Some (set_mp_engine e m) else Some m.

Definition IsScoringEnabled m : bool := mp_scoring m && IsEnabled (mp_engine m).

Definition SetScoringEnabled (enabled : bool) m : MixedProviders :=
  if mp_scoring m then set_mp_engine (SetEnabled enabled (mp_engine m)) m else m.

Definition ResetScoring (clk : string -> Time) m : MixedProviders :=
  if mp_scoring m then set_mp_engine (Reset clk (mp_engine m)) m else m.

Definition GetScoringEngine m : option (Engine S Ps) := if mp_scoring m then Some (mp_engine m) else None.

(** A nil slice and an empty one print alike but differ: [None] is nil. *)
Definition GetScoringStats m : option (list ProviderScoreStats) :=
  if mp_scoring m then Some (GetAllProviderStats (mp_engine m)) else None.

Definition GetProviderScoringStats (providerName : string) m : option ProviderScoreStats :=
  if mp_scoring m then eng_GetProviderStats providerName (mp_engine m) else None.

Definition mp_GetSortedProviders m : option (list string) * MixedProviders :=
  if mp_scoring m then
    let '(l, e) := GetSortedProviders (mp_engine m) in (Some l, set_mp_engine e m)
  else (None, m).
End mixed.
Arguments MixedProviders : clear implicits.

(** ** Pinning *)

(** [ProviderSelector]: the name all calls are pinned to; the wrapped provider
    is the state the operations run on. *)
Record ProviderSelector := { ps_selectedProvider : string }.

Definition NewProviderSelector (selectedProvider : string) : ProviderSelector :=
  {| ps_selectedProvider := selectedProvider |}.

Definition ctxWithProvider (ps : ProviderSelector) (ctx : context) : context :=
  if bool_decide (ps_selectedProvider ps = ""%string) then ctx
  else WithProviderName (ps_selectedProvider ps) ctx.

Section selector.
Context {S Ps P W : Type} `{Btcd, MapRange, GoRand, SortSlice, GoArch, GoMath, World W, !Dynamic W P}.
Context (ps : ProviderSelector).
Abbreviation MP := (MixedProviders S Ps P).

Definition ps_GetBalance (ctx : context) (address : string) (dbg : debugState) (m : MP) (w : W) :=
  GetBalance (ctxWithProvider ps ctx) address dbg m w.

Definition ps_GetUTXOs (ctx : context) (address : string) (dbg : debugState) (m : MP) (w : W) :=
  GetUTXOs (ctxWithProvider ps ctx) address dbg m w.

Definition ps_GetTxFees (ctx : context) (dbg : debugState) (m : MP) (w : W) :=
  GetTxFees (ctxWithProvider ps ctx) dbg m w.

Definition ps_GetTxFee (ctx : context) (priority : FeePriority) (dbg : debugState) (m : MP) (w : W) :=
  GetTxFee (ctxWithProvider ps ctx) priority dbg m w.

Definition ps_CalculateFee (ctx : context) (txSize feePerByte : Z) (dbg : debugState) (m : MP) (w : W) :=
  CalculateFee (ctxWithProvider ps ctx) txSize feePerByte dbg m w.

Definition ps_PushTx (ctx : context) (rawTx : list Byte.byte) (dbg : debugState) (m : MP) (w : W) :=
  PushTx (ctxWithProvider ps ctx) rawTx dbg m w.

Definition ps_CreateTransaction (ctx : context) (utxos : list UTXO) (outputs : list TxOutput)
    (dbg : debugState) (m : MP) (w : W) :=
  CreateTransaction (ctxWithProvider ps ctx) utxos outputs dbg m w.

Definition ps_CalculateTransactionSize (ctx : context) (tx : SignedTx) (dbg : debugState) (m : MP) (w : W) :=
  CalculateTransactionSize (ctxWithProvider ps ctx) tx dbg m w.

Definition ps_SignTransaction (ctx : context) (tx : Tx) (utxos : list UTXO) (privWIF : string)
    (dbg : debugState) (m : MP) (w : W) :=
  SignTransaction (ctxWithProvider ps ctx) tx utxos privWIF dbg m w.

Definition ps_DeriveAddress (ctx : context) (xpub : string) (index childIndex : Z)
    (dbg : debugState) (m : MP) (w : W) :=
  DeriveAddress (ctxWithProvider ps ctx) xpub index childIndex dbg m w.

Definition ps_ValidateAddress (ctx : context) (address : string) (dbg : debugState) (m : MP) (w : W) :=
  ValidateAddress (ctxWithProvider ps ctx) address dbg m w.

Definition ps_GetExchangeRate (ctx : context) (coin : CoinTicker) (currency : Currency)
    (dbg : debugState) (m : MP) (w : W) :=
  GetExchangeRate (ctxWithProvider ps ctx) coin currency dbg m w.

Definition ps_GetExchangeRates (ctx : context) (coin : CoinTicker) (dbg : debugState) (m : MP) (w : W) :=
  GetExchangeRates (ctxWithProvider ps ctx) coin dbg m w.

Definition ps_GetTxStatus (ctx : context) (txID : string) (dbg : debugState) (m : MP) (w : W) :=
  GetTxStatus (ctxWithProvider ps ctx) txID dbg m w.
End selector.
