(* ===== verification/BitcoinJson.v ===== *)
(** * Bitcoin data as JSON, and keys

    The encoders and decoders of [bitcoin/types/types.go] ([Tx.MarshalJSON],
    [CoinRate.MarshalJSON], those of [CoinTicker]), its remaining errors and
    conversions, and [bitcoin/keys.go]. *)

From Stdlib Require Import Ascii SpecFloat.
From S2P Require Import Prelude GoInt GoFloat GoString GoCodec GoNum GoJson GoDecode GoHttp GoTime GoFloatText StoreJson.
From S2P Require Import Bitcoin Providers.

(** ** Errors *)

Definition UnknownConversionError (from to : string) (err : error) : error :=
  errOther ("unknown conversion from " +:+ from +:+ " to " +:+ to +:+ ": " +:+ err_msg err).

Definition InvalidNetworkError (network : BitcoinNetwork) : error :=
  errOther ("invalid Bitcoin network: " +:+ net_String network).

(** ** Coins *)

(** [MarshalJSON] puts quotes around the name and escapes nothing. *)
Definition ct_MarshalJSON (t : CoinTicker) : string := quoted (ct_String t).

Definition ct_UnmarshalJSON `{JsonErrors} (data : string) : result CoinTicker :=
  match Unmarshal dec_string ""%string data with
  | Err err => Err err
  | Ok s => CoinTickerFromString s
  end.

(** ** Transactions *)

Definition tx_input_json (i : TxInput) : json :=
  JObject [("previous_tx_id"%string, JString (txi_PreviousTxID i)); ("output_index"%string, json_int (txi_OutputIndex i))].

Definition tx_output_json (o : TxOutput) : json :=
  JObject [("address"%string, JString (txo_Address o)); ("value"%string, json_int (txo_Value o))].

(** A slice is [null] when it is nil, which a list does not tell from empty. *)
Definition json_slice {A} (f : A -> json) (is_nil : bool) (l : list A) : json :=
  match l with [] => if is_nil then JNull else JArray [] | _ => JArray (map f l) end.

Section transactions.
Context `{Btcd} (nil_inputs nil_outputs : bool).

(** [json:"id,omitempty"]. *)
Definition tx_json (id : string) (tx : Tx) : json := JObject (
  (if bool_decide (id = ""%string) then [] else [("id"%string, JString id)]) ++ [
  ("version"%string, json_int (tx_Version tx));
  ("inputs"%string, json_slice tx_input_json nil_inputs (tx_Inputs tx));
  ("outputs"%string, json_slice tx_output_json nil_outputs (tx_Outputs tx));
  ("fee"%string, json_int (tx_Fee tx));
  ("status"%string, JObject [("status"%string, JString (tx_Status tx))])]).

Definition tx_MarshalJSON (tx : Tx) : result string :=
  match tx_Hash tx with
  | Err err => Err (errWrap "failed to compute transaction hash: " err "")
  | Ok hash => Ok (print_json (tx_json hash tx))
  end.
End transactions.

(** [UTXO.TxInput]: an outpoint with an empty signature script. *)
Definition utxo_TxInput `{Btcd} (u : UTXO) : result (Hash * Z * list Byte.byte) :=
  match OutPoint u with
  | Err err => Err err
  | Ok outpoint => Ok (outpoint, [])
  end.

(** ** Rates *)

(** [big.Float.Float64], rounded to nearest. *)
Definition big_Float64 (x : bigFloat) : f64 :=
  match x with
  | BigFinite m e => binary_normalize 53 1024 m e false
  | BigInf negative => S754_infinity negative
  end.

(** The rate of the outer struct hides the one of the embedded [Alias].  The
    coin is one of the two that other packages can name, whose text needs no
    escape. *)
Definition rate_json `{Zone} (r : CoinRate) : json := JObject [
  ("rate"%string, json_float (big_Float64 (cr_Rate r)));
  ("timestamp"%string, json_time (cr_Timestamp r));
  ("network"%string, JString (cr_Network r));
  ("source"%string, JString (cr_Source r));
  ("currency"%string, JString (cr_Currency r));
  ("coin"%string, JString (ct_String (cr_Coin r)))].

Definition rate_MarshalJSON `{Zone} (r : CoinRate) : result string :=
  if negb (json_float_ok (big_Float64 (cr_Rate r))) then Err json_float_error
  else if negb (time_writable (cr_Timestamp r)) then Err json_time_error
  else Ok (print_json (rate_json r)).

Definition CurrencyUSD : Currency := "USD"%string.
Definition CurrencyEUR : Currency := "EUR"%string.
Definition CurrencyGBP : Currency := "GBP"%string.
Definition CurrencyJPY : Currency := "JPY"%string.
Definition CurrencyCAD : Currency := "CAD"%string.

(** ** Keys *)

(** What [keys.go] uses of btcec; [W] holds the source of randomness. *)
Class Btcec (W : Type) := {
  PrivateKey : Type;
  PublicKey : Type;
  NewPrivateKey : W -> result PrivateKey * W;
  PubKey : PrivateKey -> PublicKey
}.

Definition GenerateKeys {W} `{Btcec W} (w : W) : result (PrivateKey * PublicKey) * W :=
  match NewPrivateKey w with
  | (Err err, w) => (Err err, w)
  | (Ok privKey, w) => (Ok (privKey, PubKey privKey), w)
  end.

(** ** Properties *)

Lemma plain_slice {A} (f : A -> json) is_nil l n :
  0 <= n -> Forall (fun a => plain_json (f a) = true /\ json_depth (f a) <= n) l ->
  plain_json (json_slice f is_nil l) = true /\ json_depth (json_slice f is_nil l) <= n + 1.
Proof.
  intros Hn Hl.
  assert (plain_json (JArray (map f l)) = true /\ json_depth (JArray (map f l)) <= n + 1) as [Hp Hd].
  { cbn [plain_json json_depth]. induction Hl as [|a l [Ha Hda] Hl IH]; [cbn; lia|]. destruct IH as [IH1 IH2].
    cbn [map forallb foldr]. rewrite Ha. split; [exact IH1|lia]. }
  destruct l as [|a l]; [|done]. destruct is_nil; cbn; [|done]. lia.
Qed.

(** The texts of a transaction are ASCII, as hexadecimal and addresses are. *)
Definition tx_ascii `{Btcd} (tx : Tx) : Prop :=
  Forall (fun i => str_all is_ascii (txi_PreviousTxID i) = true) (tx_Inputs tx)
  /\ Forall (fun o => str_all is_ascii (txo_Address o) = true) (tx_Outputs tx)
  /\ str_all is_ascii (tx_Status tx) = true.

(** The JSON of a transaction holds the hash of its serialisation and its own
    fields; a transaction that does not serialise has none. *)
Theorem tx_MarshalJSON_spec `{Btcd} nil_inputs nil_outputs (tx : Tx) :
  tx_ascii tx -> (forall bytes, str_all is_ascii (HashH bytes) = true) ->
  match tx_MarshalJSON nil_inputs nil_outputs tx with
  | Ok text => exists bytes, Serialize tx = Ok bytes
      /\ parse_json text = Some (tx_json nil_inputs nil_outputs (HashH bytes) tx)
  | Err _ => exists e, Serialize tx = Err e
  end.
Proof.
  intros (Hi & Ho & Hs) Hhash. unfold tx_MarshalJSON, tx_Hash. destruct (Serialize tx) as [bytes|e]; [|by eexists].
  exists bytes. split; [done|]. specialize (Hhash bytes). set (id := HashH bytes) in *. clearbody id.
  destruct (plain_slice tx_input_json nil_inputs (tx_Inputs tx) 1) as [Hpi Hdi]; [done| |].
  { eapply Forall_impl; [exact Hi|]. intros i Ha. cbn [tx_input_json plain_json forallb fst snd].
    rewrite plain_json_int, Ha. split; [done|]. by cbn. }
  destruct (plain_slice tx_output_json nil_outputs (tx_Outputs tx) 1) as [Hpo Hdo]; [done| |].
  { eapply Forall_impl; [exact Ho|]. intros o Ha. cbn [tx_output_json plain_json forallb fst snd].
    rewrite plain_json_int, Ha. split; [done|]. by cbn. }
  apply parse_print; unfold tx_json; (case_bool_decide; cbn [app plain_json json_depth forallb map foldr fst snd]).
  - by rewrite !plain_json_int, Hpi, Hpo, Hs.
  - by rewrite !plain_json_int, Hpi, Hpo, Hs, Hhash.
  - cbn [json_depth json_int]. unfold max_depth. lia.
  - cbn [json_depth json_int]. unfold max_depth. lia.
Qed.

Lemma tx_MarshalJSON_spec_witness :
  let _ := demo_btcd in
  let tx := {| tx_Version := 2; tx_Inputs := [{| txi_PreviousTxID := "ab"; txi_OutputIndex := 1 |}];
               tx_Outputs := [{| txo_Address := "bc1q"; txo_Value := 5000 |}]; tx_Fee := 141;
               tx_Status := TxStatePending; tx_Params := Some tt |} in
  exists text, tx_MarshalJSON false false tx = Ok text /\ parse_json text = Some (tx_json false false "" tx).
Proof.
  intros B tx. assert (tx_ascii tx) as Ha by (split_and!; repeat constructor).
  pose proof (tx_MarshalJSON_spec false false tx Ha ltac:(by intros)) as Hs.
  destruct (tx_MarshalJSON false false tx) as [text|e] eqn:E; [|vm_compute in E; discriminate].
  exists text. split; [done|]. by destruct Hs as (bytes & _ & ->).
Defined.

(** Of the two tickers only BTC reads back from its JSON. *)
Example ticker_json : let _ := plain_json_errors in
  ct_UnmarshalJSON (ct_MarshalJSON CoinTickerBTC) = Ok CoinTickerBTC
  /\ ct_UnmarshalJSON (ct_MarshalJSON CoinTickerUnspecified) = Err (errOther "unknown coin ticker: Unknown")
  /\ ct_UnmarshalJSON "null" = Ok CoinTickerUnspecified.
Proof. vm_compute. by split_and!. Qed.

Lemma big_Float64_valid x : f64_valid (big_Float64 x) = true.
Proof. destruct x as [[|m|m] e|b]; cbn; [done|apply binary_round_valid|apply binary_round_valid|by destruct b]. Qed.

(** The rate that is read back from the JSON is the nearest float. *)
Theorem rate_MarshalJSON_spec `{Zone} r text :
  Forall (fun s => str_all is_ascii s = true) [cr_Network r; cr_Source r; cr_Currency r; ct_String (cr_Coin r)] ->
  rate_MarshalJSON r = Ok text ->
  exists rate rest, parse_json text = Some (JObject (("rate"%string, rate) :: rest))
    /\ dec_float rate f64_zero = Some (big_Float64 (cr_Rate r))
    /\ ~ exists j, ("rate"%string, j) ∈ rest.
Proof.
  intros Hs Hm. unfold rate_MarshalJSON in Hm. destruct (json_float_ok _) eqn:Hf; [|done].
  destruct (time_writable _); [|done]. cbn [negb] in Hm.
  assert (text = print_json (rate_json r)) as -> by congruence. clear Hm.
  repeat match goal with H : Forall _ (_ :: _) |- _ => apply Forall_cons in H as [? H] end.
  assert (float_ok (big_Float64 (cr_Rate r))) as Hok by (split; [apply big_Float64_valid|done]).
  exists (json_float (big_Float64 (cr_Rate r))). eexists. split_and!.
  - apply (parse_print (rate_json r)).
    + cbn [rate_json plain_json forallb fst snd]. rewrite plain_float, plain_time by done. cbn [plain_json].
      by repeat match goal with H : str_all is_ascii ?s = true |- context [str_all is_ascii ?s] => rewrite H; clear H end.
    + cbn. unfold max_depth. lia.
  - by apply json_float_back.
  - intros [j Hj]. by repeat (apply elem_of_cons in Hj as [[=]|Hj]); apply elem_of_nil in Hj.
Qed.

Lemma rate_MarshalJSON_spec_witness :
  let _ := utc_zone in
  let r := {| cr_Rate := BigFinite 1 (-1); cr_Timestamp := 63000000000 * Second; cr_Network := BitcoinNetworkMainnet;
              cr_Source := "bitref"; cr_Currency := CurrencyUSD; cr_Coin := CoinTickerBTC |} in
  exists text, rate_MarshalJSON r = Ok text
    /\ exists rate rest, parse_json text = Some (JObject (("rate"%string, rate) :: rest))
         /\ dec_float rate f64_zero = Some (f64_const 1 2) /\ ~ exists j, ("rate"%string, j) ∈ rest.
Proof.
  intros Z r. eexists. split; [vm_compute; reflexivity|].
  apply (rate_MarshalJSON_spec r); [repeat constructor|vm_compute; reflexivity].
Defined.
