(* ===== verification/HttpApi.v ===== *)
(** * Clients of HTTP services

    What the clients under [bitcoin/providers] share: the environment they act
    on (clock, URL parser, HTTP transport), the monad of a call, the error types
    of [bitcoin/types] and the health report of [interfaces.go]. *)

From Stdlib Require Import Ascii SpecFloat.
From S2P Require Import Prelude GoInt GoFloat GoString GoCodec GoNum GoJson GoDecode.
From S2P Require Import Config RateLimit Sorting Penalties Scorer ScoringConfig Latency Events.
From S2P Require Import Decay Store Engine EngineStore Selection Manager RunOp Bitcoin.
From S2P Require Import Providers.

(** ** Calls

    A call acts on a state; it may fail or panic.  On the environment of a
    provider it is the [call] of the capability interfaces. *)

Definition M (S A : Type) : Type := S -> go (result A * S).

#[global] Instance M_ret {S} : MRet (M S) := fun A a s => Some (Ok a, s).
#[global] Instance M_bind {S} : MBind (M S) := fun A B f m s =>
  '(r, s) ← (m s : option (result A * S)); match r with Ok a => f a s | Err e => Some (Err e, s) end.

Definition fail {S A} (e : error) : M S A := fun s => Some (Err e, s).
Definition of_result {S A} (r : result A) : M S A := fun s => Some (r, s).

(** The error of a call and its value, both as a value. *)
Definition try {S A} (m : M S A) : M S (result A) := fun s => '(r, s) ← m s; Some (Ok r, s).

(** [if err != nil { return ..., f(err) }]. *)
Definition map_err {A} (f : error -> error) (r : result A) : result A :=
  match r with Ok a => Ok a | Err e => Err (f e) end.
Definition on_error {S A} (f : error -> error) (m : M S A) : M S A := fun s => '(r, s) ← m s; Some (map_err f r, s).

(** [fmt.Errorf("pre: %w", err)]. *)
Definition wrapping (pre : string) (e : error) : error := errWrap (pre +:+ ": ") e "".

(** ** Errors of bitcoin/types

    A [RequestError] carries its cause without unwrapping to it. *)

Definition RequestError (message : string) (err : option error) : error :=
  match err with
  | Some e => errOther ("request error: " +:+ message +:+ ": " +:+ err_msg e)
  | None => errOther ("request error: " +:+ message)
  end.

Definition CoinNotSupportedError (coin : string) : error := errOther ("coin not supported: " +:+ coin).
Definition CurrencyNotSupportedError (currency : string) : error := errOther ("currency not supported: " +:+ currency).

Definition request_error (message : string) (e : error) : error := RequestError message (Some e).

(** ** The environment *)

(** Header names are as the code spells them.  [hq_Timeout] is the timeout of
    the client that sends the request. *)
Record httpRequest := {
  hq_Timeout : Duration;
  hq_Method : string;
  hq_URL : string;
  hq_Headers : list (string * string);
  hq_Body : string
}.

#[global] Instance httpRequest_eq_dec : EqDecision httpRequest.
Proof. solve_decision. Defined.

(** [hs_BodyErr]: the error that ends the body instead of its regular end. *)
Record httpResponse := {
  hs_StatusCode : Z;
  hs_Status : string;
  hs_Body : string;
  hs_BodyErr : option error
}.

Class HttpWorld (W : Type) := {
  hw_now : W -> Time * W;
  (** [http.NewRequestWithContext]: the error of a URL that does not parse *)
  hw_url : string -> option error;
  (** [Client.Do] *)
  hw_do : context -> httpRequest -> W -> result httpResponse * W
}.

Section http.
Context {W : Type} `{HttpWorld W}.

Definition now : M W Time := fun w => let '(t, w) := hw_now w in Some (Ok t, w).

Definition new_request (url : string) : M W unit :=
  of_result (match hw_url url with Some e => Err e | None => Ok tt end).

Definition client_do (ctx : context) (rq : httpRequest) : M W httpResponse := fun w => Some (hw_do ctx rq w).

Definition ReadAll (resp : httpResponse) : result string :=
  match hs_BodyErr resp with Some e => Err e | None => Ok (hs_Body resp) end.

(** [fmt.Sprintf("HTTP %d: %s", ...)]; the error of reading the body is ignored. *)
Definition http_text (resp : httpResponse) : string :=
  "HTTP " +:+ format_int (hs_StatusCode resp) +:+ ": " +:+ hs_Body resp.
End http.

(** The bytes of a transaction as [hex.EncodeToString] sees them. *)
Definition byte_values (l : list Byte.byte) : list Z := map (fun b => Z.of_N (Byte.to_N b)) l.

(** ** Health *)

Abbreviation HealthLevel := string (only parsing).
Definition HealthLevelHealthy : HealthLevel := "healthy"%string.
Definition HealthLevelDegraded : HealthLevel := "degraded"%string.
Definition HealthLevelDown : HealthLevel := "down"%string.

Record HealthStatus := {
  hh_Status : HealthLevel;
  hh_ResponseTimeMs : Z;
  hh_ResponseTimeUs : Z;
  hh_HTTPStatus : Z;
  hh_Error : string;
  hh_LastChecked : Time;
  hh_AuthValid : option bool;
  hh_AuthError : string;
  hh_IsDegraded : bool
}.

(** A report without authentication. *)
Definition plain_health (status : HealthLevel) (ms us http : Z) (err : string) (checked : Time) : HealthStatus := {|
  hh_Status := status; hh_ResponseTimeMs := ms; hh_ResponseTimeUs := us; hh_HTTPStatus := http; hh_Error := err;
  hh_LastChecked := checked; hh_AuthValid := None; hh_AuthError := ""; hh_IsDegraded := false |}.

Definition with_auth (valid : option bool) (err : string) (degraded : bool) (h : HealthStatus) : HealthStatus := {|
  hh_Status := hh_Status h; hh_ResponseTimeMs := hh_ResponseTimeMs h; hh_ResponseTimeUs := hh_ResponseTimeUs h;
  hh_HTTPStatus := hh_HTTPStatus h; hh_Error := hh_Error h; hh_LastChecked := hh_LastChecked h;
  hh_AuthValid := valid; hh_AuthError := err; hh_IsDegraded := degraded |}.

Definition duration_us (d : Duration) : Z := Z.quot d 1000.

(** The level of an answer and its message. *)
Definition classify_response (status ms : Z) : HealthLevel * string :=
  if 500 <=? status then (HealthLevelDown, "HTTP " +:+ format_int status)
  else if 400 <=? status then (HealthLevelDegraded, "HTTP " +:+ format_int status)
  else if 2000 <? ms then (HealthLevelDegraded, "slow response")
  else (HealthLevelHealthy, "").

(** How a timed request went: it could not be built, it failed, or it was answered. *)
Inductive probed :=
  | ProbeNoRequest (e : error)
  | ProbeFailed (e : error) (ms us : Z)
  | ProbeAnswered (status ms us : Z).

Definition probe {W} `{HttpWorld W} (ctx : context) (rq : httpRequest) (w : W) : probed * W :=
  let '(start, w) := hw_now w in
  match hw_url (hq_URL rq) with
  | Some e => (ProbeNoRequest e, w)
  | None =>
      let '(resp, w) := hw_do ctx rq w in
      let '(stop, w) := hw_now w in
      let d := time_sub stop start in
      (match resp with
       | Err e => ProbeFailed e (duration_ms d) (duration_us d)
       | Ok resp => ProbeAnswered (hs_StatusCode resp) (duration_ms d) (duration_us d)
       end, w)
  end.

Definition probe_report (p : probed) (checked : Time) : HealthStatus :=
  match p with
  | ProbeNoRequest e => plain_health HealthLevelDown 0 0 0 (err_msg e) checked
  | ProbeFailed e ms us => plain_health HealthLevelDown ms us 0 (err_msg e) checked
  | ProbeAnswered status ms us =>
      let '(level, msg) := classify_response status ms in plain_health level ms us status msg checked
  end.

(** The report of one request; most clients follow this course. *)
Definition check_endpoint {W} `{HttpWorld W} (ctx : context) (rq : httpRequest) (w : W) : HealthStatus * W :=
  let '(p, w) := probe ctx rq w in
  let '(t, w) := hw_now w in
  (probe_report p t, w).

(** A client with a public fallback: invalid credentials degrade a healthy
    report, and are part of it. *)
Definition degrade (authValid : option bool) (authErr : option error) (h : HealthStatus) : HealthStatus :=
  let isDegraded := bool_decide (authValid = Some false) in {|
  hh_Status := if isDegraded && bool_decide (hh_Status h = HealthLevelHealthy) then HealthLevelDegraded else hh_Status h;
  hh_ResponseTimeMs := hh_ResponseTimeMs h; hh_ResponseTimeUs := hh_ResponseTimeUs h;
  hh_HTTPStatus := hh_HTTPStatus h; hh_Error := hh_Error h; hh_LastChecked := hh_LastChecked h;
  hh_AuthValid := authValid; hh_AuthError := match authErr with Some e => err_msg e | None => ""%string end;
  hh_IsDegraded := isDegraded |}.

(** ** Capabilities *)

Abbreviation ProviderCapability := string (only parsing).
Definition CapabilityAddressGeneration : ProviderCapability := "address_generation"%string.
Definition CapabilityAddressValidation : ProviderCapability := "address_validation"%string.
Definition CapabilityAPIKeyValidation : ProviderCapability := "api_key_validation"%string.
Definition CapabilityBalanceFetching : ProviderCapability := "balance_fetching"%string.
Definition CapabilityFeeRecommending : ProviderCapability := "fee_recommending"%string.
Definition CapabilityFeeEstimation : ProviderCapability := "fee_estimation"%string.
Definition CapabilityRateFetching : ProviderCapability := "rate_fetching"%string.
Definition CapabilityTxAssembly : ProviderCapability := "tx_assembly"%string.
Definition CapabilityTxBroadcast : ProviderCapability := "tx_broadcast"%string.
Definition CapabilityTxSigning : ProviderCapability := "tx_signing"%string.
Definition CapabilityTxSizing : ProviderCapability := "tx_sizing"%string.
Definition CapabilityTxStatusFetching : ProviderCapability := "tx_status_fetching"%string.
Definition CapabilityUTXOFetching : ProviderCapability := "utxo_fetching"%string.

(** ** Rates *)

(** [big.NewFloat]: it panics on NaN; the sign of a zero is dropped. *)
Definition NewFloat (x : f64) : go bigFloat :=
  match x with
  | S754_nan => None
  | S754_infinity s => Some (BigInf s)
  | S754_zero _ => Some (BigFinite 0 0)
  | S754_finite s m e => Some (BigFinite (cond_Zopp s (Z.pos m)) e)
  end.

(** The call that panics. *)
Definition of_go {S A} (x : go A) : M S A := fun s => a ← x; Some (Ok a, s).

(** ** A recording environment

    The theorems talk about the requests sent: this environment logs them.  An
    answer may depend on the requests before it; [bad] is the URL parser. *)

Record scriptWorld := {
  sw_clock : nat -> Time;
  sw_ticks : nat;
  sw_answer : list httpRequest -> httpRequest -> result httpResponse;
  sw_sent : list httpRequest
}.

Definition sw_tick (w : scriptWorld) : scriptWorld := {|
  sw_clock := sw_clock w; sw_ticks := S (sw_ticks w); sw_answer := sw_answer w; sw_sent := sw_sent w |}.

Definition sw_send (rq : httpRequest) (w : scriptWorld) : scriptWorld := {|
  sw_clock := sw_clock w; sw_ticks := sw_ticks w; sw_answer := sw_answer w; sw_sent := sw_sent w ++ [rq] |}.

(** The answer to the next request. *)
Definition sw_next (w : scriptWorld) (rq : httpRequest) : result httpResponse := sw_answer w (sw_sent w) rq.

Definition script_world (bad : string -> option error) : HttpWorld scriptWorld := {|
  hw_now w := (sw_clock w (sw_ticks w), sw_tick w);
  hw_url := bad;
  hw_do _ rq w := (sw_next w rq, sw_send rq w)
|}.

(** An answer with a status and a body. *)
Definition answer (status : Z) (body : string) : result httpResponse :=
  Ok {| hs_StatusCode := status; hs_Status := format_int status; hs_Body := body; hs_BodyErr := None |}.

(** JSON text with its quotes written as apostrophes. *)
Definition quotes : string -> string := str_map_concat (fun c => String (if bool_decide (c = "'"%char) then dquote else c) "").

(** ** Laws of the monad *)

Lemma M_bind_eq {S A B} (m : M S A) (f : A -> M S B) s :
  (m ≫= f) s = match m s with
               | Some (Ok a, s) => f a s
               | Some (Err e, s) => Some (Err e, s)
               | None => None
               end.
Proof. unfold mbind, M_bind. by destruct (m s) as [[[]]|]. Qed.

Lemma M_ret_eq {S A} (a : A) (s : S) : (mret a : M S A) s = Some (Ok a, s).
Proof. done. Qed.

Lemma on_error_eq {S A} f (m : M S A) s : on_error f m s = '(r, s) ← m s; Some (map_err f r, s).
Proof. done. Qed.

Lemma fail_eq {S A} e (s : S) : (fail e : M S A) s = Some (Err e, s).
Proof. done. Qed.

Lemma of_result_eq {S A} (r : result A) (s : S) : of_result r s = Some (r, s).
Proof. done. Qed.

Lemma try_eq {S A} (m : M S A) s : try m s = '(r, s) ← m s; Some (Ok r, s).
Proof. done. Qed.

(** Run a call one step. *)
Create Rewrite HintDb callrw.
#[export] Hint Rewrite @M_bind_eq @M_ret_eq @on_error_eq @fail_eq @of_result_eq @try_eq : callrw.
Ltac call_step := autorewrite with callrw; cbn [mbind option_bind map_err].
