(* ===== verification/Mempool.v ===== *)
(** * The mempool.space client

    [bitcoin/providers/mempool.go]: prices, balances, fees, broadcast, unspent
    outputs and transaction status from the Esplora-style HTTP API. *)

From S2P Require Import Prelude GoInt GoFloat GoString GoCodec GoNum GoJson GoDecode.
From S2P Require Import Config RateLimit Sorting Penalties Scorer ScoringConfig Latency Events.
From S2P Require Import Decay Store Engine EngineStore Selection Manager RunOp Bitcoin.
From S2P Require Import Providers HttpApi.

Record mempoolProvider := {
  me_network : BitcoinNetwork;
  me_baseURL : string
}.

Definition NewMempool (network : BitcoinNetwork) (baseURL : string) : mempoolProvider :=
  {| me_network := network; me_baseURL := baseURL |}.

(** The client of the provider has a timeout of ten seconds. *)
Definition mempool_get (url : string) : httpRequest := {|
  hq_Timeout := 10 * Second; hq_Method := "GET"; hq_URL := url; hq_Headers := []; hq_Body := "" |}.

Definition mempool_Name (m : mempoolProvider) : string := "Mempool".

(** ** The shapes of the answers *)

Record mempoolPricesResponse := {
  pr_Time : Z; pr_USD : Z; pr_EUR : Z; pr_GBP : Z; pr_CAD : Z; pr_CHF : Z; pr_AUD : Z; pr_JPY : Z
}.

Definition zero_prices : mempoolPricesResponse :=
  {| pr_Time := 0; pr_USD := 0; pr_EUR := 0; pr_GBP := 0; pr_CAD := 0; pr_CHF := 0; pr_AUD := 0; pr_JPY := 0 |}.

Definition dec_prices : decoder mempoolPricesResponse :=
  let mk t u e g ca ch a j := {| pr_Time := t; pr_USD := u; pr_EUR := e; pr_GBP := g; pr_CAD := ca; pr_CHF := ch;
                                 pr_AUD := a; pr_JPY := j |} in
  let int := dec_int 64 in
  dec_struct [
    ("time"%string, field pr_Time (fun v p => mk v (pr_USD p) (pr_EUR p) (pr_GBP p) (pr_CAD p) (pr_CHF p) (pr_AUD p) (pr_JPY p)) int);
    ("USD"%string, field pr_USD (fun v p => mk (pr_Time p) v (pr_EUR p) (pr_GBP p) (pr_CAD p) (pr_CHF p) (pr_AUD p) (pr_JPY p)) int);
    ("EUR"%string, field pr_EUR (fun v p => mk (pr_Time p) (pr_USD p) v (pr_GBP p) (pr_CAD p) (pr_CHF p) (pr_AUD p) (pr_JPY p)) int);
    ("GBP"%string, field pr_GBP (fun v p => mk (pr_Time p) (pr_USD p) (pr_EUR p) v (pr_CAD p) (pr_CHF p) (pr_AUD p) (pr_JPY p)) int);
    ("CAD"%string, field pr_CAD (fun v p => mk (pr_Time p) (pr_USD p) (pr_EUR p) (pr_GBP p) v (pr_CHF p) (pr_AUD p) (pr_JPY p)) int);
    ("CHF"%string, field pr_CHF (fun v p => mk (pr_Time p) (pr_USD p) (pr_EUR p) (pr_GBP p) (pr_CAD p) v (pr_AUD p) (pr_JPY p)) int);
    ("AUD"%string, field pr_AUD (fun v p => mk (pr_Time p) (pr_USD p) (pr_EUR p) (pr_GBP p) (pr_CAD p) (pr_CHF p) v (pr_JPY p)) int);
    ("JPY"%string, field pr_JPY (fun v p => mk (pr_Time p) (pr_USD p) (pr_EUR p) (pr_GBP p) (pr_CAD p) (pr_CHF p) (pr_AUD p) v) int)].

Record txoStats := { ts_FundedTxoSum : Z; ts_SpentTxoSum : Z }.
Definition zero_stats : txoStats := {| ts_FundedTxoSum := 0; ts_SpentTxoSum := 0 |}.

Definition dec_stats : decoder txoStats := dec_struct [
  ("funded_txo_sum"%string,
    field ts_FundedTxoSum (fun v s => {| ts_FundedTxoSum := v; ts_SpentTxoSum := ts_SpentTxoSum s |}) (dec_int 64));
  ("spent_txo_sum"%string,
    field ts_SpentTxoSum (fun v s => {| ts_FundedTxoSum := ts_FundedTxoSum s; ts_SpentTxoSum := v |}) (dec_int 64))].

Record addressStats := { as_ChainStats : txoStats; as_MempoolStats : txoStats }.
Definition zero_address_stats : addressStats := {| as_ChainStats := zero_stats; as_MempoolStats := zero_stats |}.

Definition dec_address_stats : decoder addressStats := dec_struct [
  ("chain_stats"%string,
    field as_ChainStats (fun v s => {| as_ChainStats := v; as_MempoolStats := as_MempoolStats s |}) dec_stats);
  ("mempool_stats"%string,
    field as_MempoolStats (fun v s => {| as_ChainStats := as_ChainStats s; as_MempoolStats := v |}) dec_stats)].

Record recommendedFees := { rf_Fastest : Z; rf_HalfHour : Z; rf_Hour : Z; rf_Economy : Z; rf_Minimum : Z }.
Definition zero_fees : recommendedFees :=
  {| rf_Fastest := 0; rf_HalfHour := 0; rf_Hour := 0; rf_Economy := 0; rf_Minimum := 0 |}.

Definition dec_fees : decoder recommendedFees :=
  let mk a b c d e := {| rf_Fastest := a; rf_HalfHour := b; rf_Hour := c; rf_Economy := d; rf_Minimum := e |} in
  let int := dec_int 64 in
  dec_struct [
    ("fastestFee"%string, field rf_Fastest (fun v f => mk v (rf_HalfHour f) (rf_Hour f) (rf_Economy f) (rf_Minimum f)) int);
    ("halfHourFee"%string, field rf_HalfHour (fun v f => mk (rf_Fastest f) v (rf_Hour f) (rf_Economy f) (rf_Minimum f)) int);
    ("hourFee"%string, field rf_Hour (fun v f => mk (rf_Fastest f) (rf_HalfHour f) v (rf_Economy f) (rf_Minimum f)) int);
    ("economyFee"%string, field rf_Economy (fun v f => mk (rf_Fastest f) (rf_HalfHour f) (rf_Hour f) v (rf_Minimum f)) int);
    ("minimumFee"%string, field rf_Minimum (fun v f => mk (rf_Fastest f) (rf_HalfHour f) (rf_Hour f) (rf_Economy f) v) int)].

(** The status of an output or a transaction; an output's height has 32 bits. *)
Record chainStatus := { cs_Confirmed : bool; cs_BlockHeight : Z; cs_BlockHash : string; cs_BlockTime : Z }.
Definition zero_status : chainStatus :=
  {| cs_Confirmed := false; cs_BlockHeight := 0; cs_BlockHash := ""; cs_BlockTime := 0 |}.

Definition status_fields (height_bits : Z) : list (string * decoder chainStatus) :=
  let mk c h x t := {| cs_Confirmed := c; cs_BlockHeight := h; cs_BlockHash := x; cs_BlockTime := t |} in [
    ("confirmed"%string,
      field cs_Confirmed (fun v s => mk v (cs_BlockHeight s) (cs_BlockHash s) (cs_BlockTime s)) dec_bool);
    ("block_height"%string,
      field cs_BlockHeight (fun v s => mk (cs_Confirmed s) v (cs_BlockHash s) (cs_BlockTime s)) (dec_int height_bits));
    ("block_time"%string,
      field cs_BlockTime (fun v s => mk (cs_Confirmed s) (cs_BlockHeight s) (cs_BlockHash s) v) (dec_int 64))].

Definition hash_field : string * decoder chainStatus :=
  ("block_hash"%string,
    field cs_BlockHash (fun v s => {| cs_Confirmed := cs_Confirmed s; cs_BlockHeight := cs_BlockHeight s;
                                      cs_BlockHash := v; cs_BlockTime := cs_BlockTime s |}) dec_string).

Record apiUTXO := { au_TxID : string; au_Vout : Z; au_Status : chainStatus; au_Value : Z }.
Definition zero_api_utxo : apiUTXO := {| au_TxID := ""; au_Vout := 0; au_Status := zero_status; au_Value := 0 |}.

Definition dec_api_utxo : decoder apiUTXO :=
  let mk i o s v := {| au_TxID := i; au_Vout := o; au_Status := s; au_Value := v |} in
  dec_struct [
    ("txid"%string, field au_TxID (fun v u => mk v (au_Vout u) (au_Status u) (au_Value u)) dec_string);
    ("vout"%string, field au_Vout (fun v u => mk (au_TxID u) v (au_Status u) (au_Value u)) (dec_uint 32));
    ("status"%string, field au_Status (fun v u => mk (au_TxID u) (au_Vout u) v (au_Value u)) (dec_struct (status_fields 32)));
    ("value"%string, field au_Value (fun v u => mk (au_TxID u) (au_Vout u) (au_Status u) v) (dec_int 64))].

(** The transaction's identifier is not used. *)
Record txResponse := { tr_TxID : string; tr_Status : chainStatus }.

Definition dec_tx_response : decoder txResponse := dec_struct [
  ("txid"%string, field tr_TxID (fun v t => {| tr_TxID := v; tr_Status := tr_Status t |}) dec_string);
  ("status"%string, field tr_Status (fun v t => {| tr_TxID := tr_TxID t; tr_Status := v |})
                      (dec_struct (hash_field :: status_fields 64)))].

(** ** Operations *)

Section operations.
Context {W : Type} `{HttpWorld W, JsonErrors, Btcd}.
Implicit Types m : mempoolProvider.

(** [http.NewRequestWithContext] and [Do] with the two messages of most calls. *)
Definition mempool_fetch m (ctx : context) (rq : httpRequest) (what : string) : M W httpResponse :=
  on_error (request_error "failed to create request") (new_request (hq_URL rq));;
  on_error (request_error what) (client_do ctx rq).

Definition fetchPrice m (ctx : context) (currency : string) : M W f64 :=
  let url := me_baseURL m +:+ "/v1/prices" in
  on_error (wrapping "failed to create prices request") (new_request url);;
  resp ← on_error (wrapping "failed to fetch prices") (client_do ctx (mempool_get url));
  if negb (hs_StatusCode resp =? 200) then fail (errOther ("failed to fetch prices: " +:+ hs_Status resp))
  else
    prices ← on_error (wrapping "failed to decode prices")
               (of_result (Decode dec_prices zero_prices (hs_Body resp) (hs_BodyErr resp)));
    if bool_decide (currency = "USD"%string) then mret (f64_of_Z (pr_USD prices))
    else if bool_decide (currency = "EUR"%string) then mret (f64_of_Z (pr_EUR prices))
    else if bool_decide (currency = "GBP"%string) then mret (f64_of_Z (pr_GBP prices))
    else if bool_decide (currency = "CAD"%string) then mret (f64_of_Z (pr_CAD prices))
    else if bool_decide (currency = "CHF"%string) then mret (f64_of_Z (pr_CHF prices))
    else if bool_decide (currency = "AUD"%string) then mret (f64_of_Z (pr_AUD prices))
    else if bool_decide (currency = "JPY"%string) then mret (f64_of_Z (pr_JPY prices))
    else fail (errOther ("unsupported currency: " +:+ currency)).

Definition mempool_GetExchangeRates m (ctx : context) (coin : CoinTicker) : M W (list CoinRate) :=
  if bool_decide (coin = CoinTickerBTC) then
    price ← on_error (request_error "failed to fetch exchange rates") (fetchPrice m ctx "USD");
    rate ← of_go (NewFloat price);
    t ← now;
    mret [{| cr_Rate := rate; cr_Timestamp := t; cr_Network := me_network m; cr_Source := mempool_Name m;
             cr_Currency := "USD"; cr_Coin := CoinTickerBTC |}]
  else fail (CoinNotSupportedError (BlockchainString coin)).

Definition mempool_GetExchangeRate m (ctx : context) (coin : CoinTicker) (currency : Currency) : M W CoinRate :=
  if bool_decide (coin = CoinTickerBTC) then
    price ← on_error (request_error "failed to fetch exchange rate") (fetchPrice m ctx currency);
    t ← now;
    rate ← of_go (NewFloat price);
    mret {| cr_Rate := rate; cr_Timestamp := t; cr_Network := me_network m; cr_Source := mempool_Name m;
            cr_Currency := currency; cr_Coin := coin |}
  else fail (CoinNotSupportedError (BlockchainString coin)).

(** [int64] sums, a negative one set to zero. *)
Definition clamp0 (z : Z) : Z := if z <? 0 then 0 else z.

Definition mempool_balance (r : addressStats) : Balance :=
  let net s := clamp0 (wrap64 (ts_FundedTxoSum s - ts_SpentTxoSum s)) in
  let confirmed := net (as_ChainStats r) in
  let unconfirmed := net (as_MempoolStats r) in
  {| bal_Confirmed := wrapu64 confirmed; bal_Unconfirmed := wrapu64 unconfirmed;
     bal_Total := wrapu64 (wrap64 (confirmed + unconfirmed)) |}.

Definition mempool_GetBalance m (ctx : context) (address : string) : M W Balance :=
  resp ← mempool_fetch m ctx (mempool_get (me_baseURL m +:+ "/address/" +:+ address)) "failed to fetch balance";
  if negb (hs_StatusCode resp =? 200) then fail (RequestError (http_text resp) None)
  else
    r ← on_error (request_error "failed to decode response")
          (of_result (Decode dec_address_stats zero_address_stats (hs_Body resp) (hs_BodyErr resp)));
    mret (mempool_balance r).

Definition mempool_tiers (r : recommendedFees) : list FeeTier :=
  [{| ft_FeeRate := wrapu64 (rf_Fastest r); ft_TargetBlock := 1 |};
   {| ft_FeeRate := wrapu64 (rf_HalfHour r); ft_TargetBlock := 3 |};
   {| ft_FeeRate := wrapu64 (rf_Hour r); ft_TargetBlock := 6 |};
   {| ft_FeeRate := wrapu64 (rf_Economy r); ft_TargetBlock := 144 |};
   {| ft_FeeRate := wrapu64 (rf_Minimum r); ft_TargetBlock := 1008 |}].

Definition mempool_GetTxFees m (ctx : context) : M W (list FeeTier) :=
  resp ← mempool_fetch m ctx (mempool_get (me_baseURL m +:+ "/v1/fees/recommended")) "failed to fetch fees";
  if negb (hs_StatusCode resp =? 200) then fail (RequestError (http_text resp) None)
  else
    r ← on_error (request_error "failed to decode response")
          (of_result (Decode dec_fees zero_fees (hs_Body resp) (hs_BodyErr resp)));
    mret (mempool_tiers r).

Definition mempool_GetTxFee m (ctx : context) (priority : FeePriority) : M W FeeTier :=
  fees ← mempool_GetTxFees m ctx; mret (SelectClosest priority fees).

Definition mempool_PushTx m (ctx : context) (rawTx : list Byte.byte) : M W string :=
  let rq := {| hq_Timeout := 10 * Second; hq_Method := "POST"; hq_URL := me_baseURL m +:+ "/tx";
               hq_Headers := [("Content-Type", "text/plain")]%string; hq_Body := hex_encode (byte_values rawTx) |} in
  resp ← mempool_fetch m ctx rq "failed to broadcast transaction";
  if negb (hs_StatusCode resp =? 200) then fail (RequestError (http_text resp) None)
  else mret (trim_space (hs_Body resp)).

Definition mempool_CheckHealth m (ctx : context) : W -> HealthStatus * W :=
  check_endpoint ctx (mempool_get (me_baseURL m +:+ "/blocks/tip/height")).

Definition mempool_GetCapabilities m : list ProviderCapability :=
  [CapabilityBalanceFetching; CapabilityFeeRecommending; CapabilityRateFetching; CapabilityTxBroadcast;
   CapabilityTxStatusFetching; CapabilityUTXOFetching].

Definition getCurrentBlockHeight m (ctx : context) : M W Z :=
  let url := me_baseURL m +:+ "/blocks/tip/height" in
  new_request url;;
  resp ← client_do ctx (mempool_get url);
  if negb (hs_StatusCode resp =? 200)
  then fail (errOther ("unexpected status code: " +:+ format_int (hs_StatusCode resp)))
  else body ← of_result (ReadAll resp); of_result (Unmarshal (dec_int 64) 0 body).

Definition addressToScriptPubKey m (address : string) : result (list Byte.byte) :=
  match ChaincfgNetwork (me_network m) with
  | Err e => Err (wrapping "failed to get network params" e)
  | Ok params =>
      match DecodeAddress address params with
      | Err e => Err (wrapping "failed to decode address" e)
      | Ok addr =>
          match PayToAddrScript addr with
          | Err e => Err (wrapping "failed to generate script" e)
          | Ok script => Ok script
          end
      end
  end.

(** The depth of a block at [height] below a tip, 1 when the tip is unknown. *)
Definition depth_below (tip : result Z) (confirmed : bool) (height : Z) : Z :=
  if confirmed && (0 <? height) then
    match tip with
    | Ok t => if 0 <? t then wrap64 (t - height + 1) else 1
    | Err _ => 1
    end
  else 0.

Definition mempool_utxo (address : string) (script : list Byte.byte) (tip : result Z) (a : apiUTXO) : UTXO := {|
  utxo_TxHash := au_TxID a; utxo_Vout := au_Vout a; utxo_Amount := au_Value a;
  utxo_ScriptPubKey := Some script; utxo_Address := address; utxo_Confirmed := cs_Confirmed (au_Status a);
  utxo_Confirmations := depth_below tip (cs_Confirmed (au_Status a)) (cs_BlockHeight (au_Status a));
  utxo_Spendable := true; utxo_BlockHeight := cs_BlockHeight (au_Status a) |}.

Definition mempool_GetUTXOs m (ctx : context) (address : string) : M W (list UTXO) :=
  resp ← mempool_fetch m ctx (mempool_get (me_baseURL m +:+ "/address/" +:+ address +:+ "/utxo")) "failed to fetch UTXOs";
  if negb (hs_StatusCode resp =? 200) then fail (RequestError (http_text resp) None)
  else
    script ← on_error (request_error "failed to decode address") (of_result (addressToScriptPubKey m address));
    apiUTXOs ← on_error (request_error "failed to decode response")
                 (of_result (Decode (dec_slice zero_api_utxo dec_api_utxo) [] (hs_Body resp) (hs_BodyErr resp)));
    tip ← try (getCurrentBlockHeight m ctx);
    mret (map (mempool_utxo address script tip) apiUTXOs).

Definition mempool_GetTxStatus m (ctx : context) (txID : string) : M W TxConfirmationStatus :=
  resp ← mempool_fetch m ctx (mempool_get (me_baseURL m +:+ "/tx/" +:+ txID)) "failed to fetch transaction";
  if hs_StatusCode resp =? 404 then fail (RequestError "transaction not found" None)
  else if negb (hs_StatusCode resp =? 200)
  then fail (RequestError ("unexpected status code: " +:+ format_int (hs_StatusCode resp)) None)
  else
    body ← on_error (request_error "failed to read response body") (of_result (ReadAll resp));
    tx ← on_error (request_error "failed to decode response")
           (of_result (Unmarshal dec_tx_response {| tr_TxID := ""; tr_Status := zero_status |} body));
    let s := tr_Status tx in
    tip ← (if cs_Confirmed s && (0 <? cs_BlockHeight s) then try (getCurrentBlockHeight m ctx)
           else mret (Ok 0));
    mret {| tcs_Confirmed := cs_Confirmed s; tcs_Confirmations := depth_below tip (cs_Confirmed s) (cs_BlockHeight s);
            tcs_BlockHeight := cs_BlockHeight s; tcs_BlockHash := cs_BlockHash s |}.
End operations.
