(* ===== verification/MempoolProps.v ===== *)
(** * Properties of the mempool.space client

    Against a recording environment: the requests a call sends, the depth of
    outputs, exact totals, and what its error type hides. *)

From S2P Require Import Prelude GoInt GoFloat GoString GoCodec GoNum GoJson GoDecode.
From S2P Require Import Config RateLimit Sorting Penalties Scorer ScoringConfig Latency Events.
From S2P Require Import Decay Store Engine EngineStore Selection Manager RunOp Bitcoin.
From S2P Require Import Providers HttpApi Mempool.

Section props.
Context (bad : string -> option error) `{JsonErrors, Btcd}.
#[local] Instance recording : HttpWorld scriptWorld := script_world bad.
Implicit Types (m : mempoolProvider) (w : scriptWorld).

(** ** The two steps of a request *)

(** What a fetch returns, and the request it leaves in the log. *)
Lemma mempool_fetch_eq m ctx rq what w :
  mempool_fetch m ctx rq what w =
    match bad (hq_URL rq) with
    | Some e => Some (Err (request_error "failed to create request" e), w)
    | None => Some (map_err (request_error what) (sw_next w rq), sw_send rq w)
    end.
Proof. unfold mempool_fetch, new_request. call_step. cbn. by destruct (bad (hq_URL rq)). Qed.

(** The height of the tip: what the node answers, if anything. *)
Definition tip_height m w : result Z :=
  let url := me_baseURL m +:+ "/blocks/tip/height" in
  match bad url with
  | Some e => Err e
  | None =>
      match sw_next w (mempool_get url) with
      | Err e => Err e
      | Ok resp =>
          if hs_StatusCode resp =? 200 then
            match ReadAll resp with Ok body => Unmarshal (dec_int 64) 0 body | Err e => Err e end
          else Err (errOther ("unexpected status code: " +:+ format_int (hs_StatusCode resp)))
      end
  end.

(** The log after asking for it. *)
Definition tip_sent m w : scriptWorld :=
  let url := me_baseURL m +:+ "/blocks/tip/height" in
  match bad url with Some _ => w | None => sw_send (mempool_get url) w end.

Lemma getCurrentBlockHeight_eq m ctx w : getCurrentBlockHeight m ctx w = Some (tip_height m w, tip_sent m w).
Proof.
  unfold getCurrentBlockHeight, tip_height, tip_sent, new_request, client_do. call_step.
  cbn [hw_url hw_do recording script_world]. destruct (bad _); [done|]. call_step.
  destruct (sw_next w _) as [resp|e]; [|done]. destruct (hs_StatusCode resp =? 200); cbn [negb]; [|done].
  call_step. by destruct (ReadAll resp).
Qed.

(** ** Unspent outputs *)

(** The request for the outputs of an address. *)
Definition utxo_request m (address : string) : httpRequest :=
  mempool_get (me_baseURL m +:+ "/address/" +:+ address +:+ "/utxo").

(** [GetUTXOs] never panics.  It succeeds exactly when the address query
    answers 200 with a decodable list and the address has a script: an unknown
    tip never fails it.  It then returns one output per element, in order, with
    the element's data and the address's script, after one further request
    whatever the number of outputs; an unconfirmed output has depth 0, a confirmed one at
    a height up to the tip has [tip - height + 1], and 1 when the tip is unknown. *)
Theorem mempool_GetUTXOs_spec m ctx address w :
  exists r w', mempool_GetUTXOs m ctx address w = Some (r, w') /\
  match r with
  | Ok us =>
      exists resp apis script tip,
        bad (hq_URL (utxo_request m address)) = None
        /\ sw_next w (utxo_request m address) = Ok resp /\ hs_StatusCode resp = 200
        /\ addressToScriptPubKey m address = Ok script
        /\ Decode (dec_slice zero_api_utxo dec_api_utxo) [] (hs_Body resp) (hs_BodyErr resp) = Ok apis
        /\ tip_height m (sw_send (utxo_request m address) w) = tip
        /\ w' = tip_sent m (sw_send (utxo_request m address) w)
        /\ Forall2 (fun a u =>
             utxo_TxHash u = au_TxID a /\ utxo_Vout u = au_Vout a /\ utxo_Amount u = au_Value a
             /\ utxo_ScriptPubKey u = Some script /\ utxo_Address u = address
             /\ utxo_Confirmed u = cs_Confirmed (au_Status a)
             /\ (utxo_Confirmed u = false -> utxo_Confirmations u = 0)
             /\ (utxo_Confirmed u = true -> 0 < cs_BlockHeight (au_Status a) ->
                 match tip with
                 | Ok t => cs_BlockHeight (au_Status a) <= t <= max_int64 ->
                           utxo_Confirmations u = t - cs_BlockHeight (au_Status a) + 1
                 | Err _ => utxo_Confirmations u = 1
                 end)) apis us
  | Err _ =>
      w' = w /\ is_Some (bad (hq_URL (utxo_request m address)))
      \/ w' = sw_send (utxo_request m address) w
         /\ match sw_next w (utxo_request m address) with
            | Ok resp =>
                hs_StatusCode resp <> 200 \/ (exists e, addressToScriptPubKey m address = Err e)
                \/ exists e, Decode (dec_slice zero_api_utxo dec_api_utxo) [] (hs_Body resp) (hs_BodyErr resp) = Err e
            | Err _ => True
            end
  end.
Proof.
  unfold mempool_GetUTXOs. rewrite M_bind_eq, mempool_fetch_eq. fold (utxo_request m address).
  destruct (bad (hq_URL (utxo_request m address))) as [e|] eqn:Eb.
  { eexists _, _. split; [done|]. left. split; [done|]. by eexists. }
  destruct (sw_next w (utxo_request m address)) as [resp|e] eqn:Er; cbn [map_err].
  2: { eexists _, _. split; [done|]. by right. }
  destruct (hs_StatusCode resp =? 200) eqn:Es; cbn [negb].
  2: { eexists _, _. split; [done|]. right. split; [done|]. left. go_lia. }
  call_step. destruct (addressToScriptPubKey m address) as [script|e] eqn:Ea; cbn [map_err].
  2: { eexists _, _. split; [done|]. right. split; [done|]. right. left. by eexists. }
  call_step. destruct (Decode _ _ _ _) as [apis|e] eqn:Ed; cbn [map_err].
  2: { eexists _, _. split; [done|]. right. split; [done|]. right. right. by eexists. }
  call_step. rewrite getCurrentBlockHeight_eq. call_step. eexists _, _. split; [done|].
  exists resp, apis, script. eexists. split_and!; [done|done|go_lia|done|done|done|done|].
  apply Forall2_fmap_r, Forall_Forall2_diag, Forall_forall. intros a _.
  unfold mempool_utxo.
  cbn [utxo_TxHash utxo_Vout utxo_Amount utxo_ScriptPubKey utxo_Address utxo_Confirmed utxo_Confirmations].
  split_and!; try done; unfold depth_below; cbn [utxo_Confirmed utxo_Confirmations].
  - by intros ->.
  - intros -> Hh. rewrite (proj2 (Z.ltb_lt _ _) Hh). cbn [andb]. destruct (tip_height _ _) as [t|]; [|done].
    intros Ht. rewrite (proj2 (Z.ltb_lt 0 t)) by lia. apply wrap64_id. int_range.
Qed.

(** ** Balances *)

(** A 64-bit difference, a negative one counted as zero. *)
Lemma clamp0_range z : int64_range z -> 0 <= clamp0 z <= max_int64 /\ (0 <= z -> clamp0 z = z).
Proof. unfold clamp0. destruct (z <? 0) eqn:E; int_range. Qed.

(** Whatever sums the service reports, the total of a balance is exactly the
    confirmed plus the unconfirmed part, without overflow; a part is the received minus
    the spent amount, and zero when more is spent than received, so that
    pending spends never reduce the total. *)
Theorem mempool_balance_total r :
  let b := mempool_balance r in
  bal_Total b = bal_Confirmed b + bal_Unconfirmed b /\ 0 <= bal_Total b < 2 ^ 64
  /\ bal_Confirmed b <= bal_Total b
  /\ (forall f s, as_ChainStats r = {| ts_FundedTxoSum := f; ts_SpentTxoSum := s |} ->
        0 <= f <= max_int64 -> 0 <= s <= max_int64 -> bal_Confirmed b = Z.max 0 (f - s))
  /\ (forall f s, as_MempoolStats r = {| ts_FundedTxoSum := f; ts_SpentTxoSum := s |} ->
        0 <= f <= max_int64 -> 0 <= s <= max_int64 -> bal_Unconfirmed b = Z.max 0 (f - s)).
Proof.
  cbn. set (c := clamp0 _). set (u := clamp0 (wrap64 (_ - ts_SpentTxoSum (as_MempoolStats r)))).
  destruct (clamp0_range (wrap64 (ts_FundedTxoSum (as_ChainStats r) - ts_SpentTxoSum (as_ChainStats r)))) as [Hc _]; [apply wrap64_range|].
  destruct (clamp0_range (wrap64 (ts_FundedTxoSum (as_MempoolStats r) - ts_SpentTxoSum (as_MempoolStats r)))) as [Hu _]; [apply wrap64_range|].
  fold c in Hc. fold u in Hu. unfold max_int64 in *.
  rewrite (wrapu64_id c), (wrapu64_id u) by lia.
  assert (wrapu64 (wrap64 (c + u)) = c + u) as ->.
  { destruct (wrap64_congr (c + u)) as [k ->]. unfold wrapu64. rewrite Z.mod_add by lia. apply Z.mod_small. lia. }
  assert (forall f s, 0 <= f <= max_int64 -> 0 <= s <= max_int64 -> clamp0 (wrap64 (f - s)) = Z.max 0 (f - s)) as Hmax.
  { intros f s Hf Hs. rewrite wrap64_id by int_range. unfold clamp0. destruct (f - s <? 0) eqn:E; go_lia. }
  split_and!; [done|lia|lia|lia|..]; intros f s Hr; subst c u; rewrite Hr; apply Hmax.
Qed.

End props.

(** ** What a request error hides *)

(** Every error of the call is a bare message. *)
Definition opaque {S A} (m : M S A) : Prop :=
  forall s e s', m s = Some (Err e, s') -> exists msg, e = errOther msg.

Lemma opaque_bind {S A B} (m : M S A) (f : A -> M S B) : opaque m -> (forall a, opaque (f a)) -> opaque (m ≫= f).
Proof.
  intros Hm Hf s e s'. rewrite M_bind_eq. destruct (m s) as [[[a|e'] s1]|] eqn:E; intros He; [by eapply Hf|simplify_eq; by eapply Hm|done].
Qed.

Lemma opaque_on_error {S A} msg (m : M S A) : opaque (on_error (request_error msg) m).
Proof.
  intros s e s'. rewrite on_error_eq. destruct (m s) as [[[a|e'] s1]|]; cbn; intros He; simplify_eq. by eexists.
Qed.

Lemma opaque_ret {S A} (a : A) : opaque (mret a : M S A).
Proof. intros s e s' He. by rewrite M_ret_eq in He. Qed.

Lemma opaque_fail {S A} msg : opaque (fail (errOther msg) : M S A).
Proof. intros s e s' He. rewrite fail_eq in He. simplify_eq. by eexists. Qed.

Lemma opaque_try {S A} (m : M S A) : opaque (try m).
Proof. intros s e s'. rewrite try_eq. destruct (m s) as [[r s1]|]; cbn; intros He; simplify_eq. Qed.

Lemma opaque_of_go {S A} (x : go A) : opaque (of_go x : M S A).
Proof. intros s e s'. unfold of_go. destruct x; cbn; intros He; simplify_eq. Qed.

Create HintDb opaquedb.
#[export] Hint Resolve opaque_on_error opaque_ret opaque_fail opaque_try opaque_of_go : opaquedb.
#[export] Hint Extern 2 (opaque (_ ≫= _)) => apply opaque_bind : opaquedb.
#[export] Hint Extern 2 (opaque (if _ then _ else _)) => case_match : opaquedb.
#[export] Hint Extern 1 (opaque (fail _)) => apply opaque_fail : opaquedb.

(** A message is classified by its rate-limit keyword, or not at all. *)
Lemma classify_opaque {S A} (m : M S A) s e s' : opaque m -> m s = Some (Err e, s') ->
  classifyError (Some e) = "rate_limit"%string \/ classifyError (Some e) = "other"%string.
Proof. intros Hm He. apply Hm in He as [msg ->]. cbn [classifyError errors_is]. destruct (_ || _ || _); auto. Qed.

Section opaque.
Context {W : Type} `{HttpWorld W, JsonErrors, Btcd}.

Lemma mempool_fetch_opaque m ctx rq what : opaque (mempool_fetch m ctx rq what).
Proof. unfold mempool_fetch. auto with opaquedb. Qed.

Lemma now_opaque : opaque now.
Proof. intros s e s'. unfold now. destruct (hw_now s). intros He. simplify_eq. Qed.
End opaque.
#[export] Hint Resolve mempool_fetch_opaque now_opaque : opaquedb.

(** Whatever made an operation of the client fail, a deadline of the
    caller included, its error is classified as a rate limit or as [other],
    never as a timeout or an authentication failure: the error type does not
    unwrap to its cause. *)
Theorem mempool_errors_opaque {W : Type} `{HttpWorld W, JsonErrors, Btcd} m ctx address raw txID coin currency w :
  let masked {A} (o : go (result A * W)) := match o with
    | Some (Err e, _) => classifyError (Some e) = "rate_limit"%string \/ classifyError (Some e) = "other"%string
    | _ => True
    end in
  masked (mempool_GetBalance m ctx address w) /\ masked (mempool_GetUTXOs m ctx address w)
  /\ masked (mempool_GetTxFees m ctx w) /\ masked (mempool_PushTx m ctx raw w)
  /\ masked (mempool_GetTxStatus m ctx txID w) /\ masked (mempool_GetExchangeRate m ctx coin currency w)
  /\ masked (mempool_GetExchangeRates m ctx coin w).
Proof.
  cbv zeta.
  assert (forall A (c : M W A), opaque c -> match c w with
    | Some (Err e, _) => classifyError (Some e) = "rate_limit"%string \/ classifyError (Some e) = "other"%string
    | _ => True
    end) as Hmask.
  { intros A c Hc. destruct (c w) as [[[a|e] w']|] eqn:E; [done| |done]. by eapply classify_opaque. }
  split_and!; apply Hmask; unfold mempool_GetBalance, mempool_GetUTXOs, mempool_GetTxFees, mempool_PushTx,
    mempool_GetTxStatus, mempool_GetExchangeRate, mempool_GetExchangeRates; auto 20 with opaquedb.
Qed.

(** ** Concrete answers

    The address query answers one confirmed output at height 100; the tip is
    105, or cannot be had. *)

Definition demo_mempool : mempoolProvider := NewMempool BitcoinNetworkMainnet "http://node".
Definition demo_address : string := "bc1qw508d6qejxtdg4y5r3zarvary0c5xw7kv8f3t4".
Definition demo_node (tip : result httpResponse) : scriptWorld := {|
  sw_clock k := Z.of_nat k; sw_ticks := 0; sw_sent := [];
  sw_answer _ rq :=
    if bool_decide (hq_URL rq = "http://node/blocks/tip/height"%string) then tip
    else if bool_decide (hq_URL rq = ("http://node/address/" +:+ demo_address +:+ "/utxo")%string)
    then answer 200 (quotes "[{'txid':'aa','vout':0,'status':{'confirmed':true,'block_height':100},'value':50000}]")
    else answer 404 "not found" |}.

#[local] Existing Instances demo_btcd plain_json_errors.
#[local] Instance demo_http : HttpWorld scriptWorld := script_world (fun _ => None).

Definition demo_depth (tip : result httpResponse) : option Z :=
  '(r, _) ← mempool_GetUTXOs demo_mempool background demo_address (demo_node tip);
  match r with Ok [u] => Some (utxo_Confirmations u) | _ => None end.

Example depth_from_tip : demo_depth (answer 200 "105") = Some 6.
Proof. vm_compute. reflexivity. Qed.

Example depth_without_tip : demo_depth (answer 500 "boom") = Some 1.
Proof. vm_compute. reflexivity. Qed.

(** A node whose tip lags behind the output's block gives a negative depth. *)
Example depth_lagging_tip : demo_depth (answer 200 "90") = Some (-9).
Proof. vm_compute. reflexivity. Qed.
