(* ===== verification/Blockstream.v ===== *)
(** * The Blockstream client

    [bitcoin/providers/blockstream.go]: an Esplora API behind OAuth client
    credentials.  A call carries a cached token; an answer 401 drops the token
    and the call is tried once more.  The state of a call is the client
    (its token) with the environment; the lock of the token makes each
    refresh one section. *)

From Stdlib Require Import SpecFloat.
From S2P Require Import Prelude GoInt GoFloat GoString GoCodec GoNum GoJson GoDecode.
From S2P Require Import Config RateLimit Sorting Penalties Scorer ScoringConfig Latency Events.
From S2P Require Import Decay Store Engine EngineStore Selection Manager RunOp Bitcoin.
From S2P Require Import Providers HttpApi.

(** ** Data *)

Record blockstream := {
  bk_clientID : string;
  bk_clientSecret : string;
  bk_accessToken : string;
  bk_accessTokenExpirationTime : Time;
  bk_baseURL : string;
  bk_loginURL : string
}.

Definition set_token (token : string) (expiry : Time) (p : blockstream) : blockstream := {|
  bk_clientID := bk_clientID p; bk_clientSecret := bk_clientSecret p; bk_accessToken := token;
  bk_accessTokenExpirationTime := expiry; bk_baseURL := bk_baseURL p; bk_loginURL := bk_loginURL p |}.

Record BlockstreamOptions := {
  bo_ClientID : string;
  bo_ClientSecret : string;
  bo_ConfirmationMonitorInterval : Duration;
  bo_ConfirmationMonitorFailedTimesThreshold : Z;
  bo_BaseURL : string;
  bo_LoginURL : string
}.

(** The two monitor options are given their defaults and dropped. *)
Definition NewBlockstream (options : BlockstreamOptions) : result blockstream :=
  if bool_decide (bo_ClientID options = ""%string \/ bo_ClientSecret options = ""%string)
  then Err (errOther "blockstream: API client ID and secret are required")
  else if bool_decide (bo_BaseURL options = ""%string)
  then Err (errOther "blockstream: BaseURL is required; ensure config/providers/blockstream.yaml has an entry for the active network")
  else if bool_decide (bo_LoginURL options = ""%string)
  then Err (errOther "blockstream: LoginURL is required; ensure config/providers/blockstream.yaml has an entry for the active network")
  else Ok {| bk_clientID := bo_ClientID options; bk_clientSecret := bo_ClientSecret options; bk_accessToken := "";
             bk_accessTokenExpirationTime := zero_time; bk_baseURL := bo_BaseURL options; bk_loginURL := bo_LoginURL options |}.

Definition blockstream_Name (p : blockstream) : string := "Blockstream".

(** The answer of the token endpoint. *)
Record tokenResponse := { tk_AccessToken : string; tk_ExpiresIn : Z }.

Definition dec_token : decoder tokenResponse := dec_struct [
  ("access_token"%string, field tk_AccessToken (fun v t => {| tk_AccessToken := v; tk_ExpiresIn := tk_ExpiresIn t |}) dec_string);
  ("expires_in"%string, field tk_ExpiresIn (fun v t => {| tk_AccessToken := tk_AccessToken t; tk_ExpiresIn := v |}) (dec_int 64))].

Record utxoResponse := { ur_TxID : string; ur_Vout : Z; ur_Value : Z; ur_Confirmed : bool }.

(** The nested status has one field. *)
Definition dec_utxo_response : decoder utxoResponse :=
  let mk i o v c := {| ur_TxID := i; ur_Vout := o; ur_Value := v; ur_Confirmed := c |} in
  dec_struct [
    ("txid"%string, field ur_TxID (fun v u => mk v (ur_Vout u) (ur_Value u) (ur_Confirmed u)) dec_string);
    ("vout"%string, field ur_Vout (fun v u => mk (ur_TxID u) v (ur_Value u) (ur_Confirmed u)) (dec_uint 32));
    ("value"%string, field ur_Value (fun v u => mk (ur_TxID u) (ur_Vout u) v (ur_Confirmed u)) (dec_uint 64));
    ("status"%string, field ur_Confirmed (fun v u => mk (ur_TxID u) (ur_Vout u) (ur_Value u) v)
                        (dec_struct [("confirmed"%string, dec_bool)]))].

Record statusResponse := { sr_Confirmed : bool; sr_BlockHeight : Z; sr_BlockHash : string; sr_BlockTime : Z }.

Definition dec_status_response : decoder statusResponse :=
  let mk c h x t := {| sr_Confirmed := c; sr_BlockHeight := h; sr_BlockHash := x; sr_BlockTime := t |} in
  dec_struct [
    ("confirmed"%string, field sr_Confirmed (fun v s => mk v (sr_BlockHeight s) (sr_BlockHash s) (sr_BlockTime s)) dec_bool);
    ("block_height"%string, field sr_BlockHeight (fun v s => mk (sr_Confirmed s) v (sr_BlockHash s) (sr_BlockTime s)) (dec_int 64));
    ("block_hash"%string, field sr_BlockHash (fun v s => mk (sr_Confirmed s) (sr_BlockHeight s) v (sr_BlockTime s)) dec_string);
    ("block_time"%string, field sr_BlockTime (fun v s => mk (sr_Confirmed s) (sr_BlockHeight s) (sr_BlockHash s) v) (dec_int 64))].

(** [math.Round] to at least one. *)
Definition roundFeeRate `{GoArchU} (f : f64) : Z :=
  let r := f64_to_uint64 (f64_round f) in if r <? 1 then 1 else r.

(** ** Operations *)

Section operations.
Context {W : Type} `{HttpWorld W, JsonErrors, GoArchU}.

Abbreviation B := (M (blockstream * W)).

Definition receiver : B blockstream := fun s => Some (Ok s.1, s).
Definition put_token (token : string) (expiry : Time) : B unit := fun s => Some (Ok tt, (set_token token expiry s.1, s.2)).

(** A step of the environment. *)
Definition env {A} (m : M W A) : B A := fun s => '(r, w) ← m s.2; Some (r, (s.1, w)).

(** [p.accessToken != "" && time.Now().Before(p.accessTokenExpirationTime)]. *)
Definition token_valid : B bool :=
  p ← receiver;
  if bool_decide (bk_accessToken p = ""%string) then mret false
  else t ← env now; mret (time_before t (bk_accessTokenExpirationTime p)).

(** The body of the token request; [Encode] sorts the keys. *)
Definition token_form (p : blockstream) : string :=
  "client_id=" +:+ query_escape (bk_clientID p) +:+ "&client_secret=" +:+ query_escape (bk_clientSecret p)
  +:+ "&grant_type=client_credentials".

Definition token_request (p : blockstream) : httpRequest := {|
  hq_Timeout := 30 * Second; hq_Method := "POST";
  hq_URL := bk_loginURL p +:+ "/realms/blockstream-public/protocol/openid-connect/token";
  hq_Headers := [("Content-Type", "application/x-www-form-urlencoded")]%string; hq_Body := token_form p |}.

(** The part of [GetAccessToken] that asks the login server. *)
Definition fetch_token (ctx : context) : B string :=
  p ← receiver;
  if bool_decide (bk_clientID p = ""%string \/ bk_clientSecret p = ""%string)
  then fail (errOther "missing API client ID or secret")
  else
    let rq := token_request p in
    on_error (wrapping "error creating token request") (env (new_request (hq_URL rq)));;
    resp ← on_error (wrapping "error fetching access token") (env (client_do ctx rq));
    let status := hs_StatusCode resp in
    if negb (status =? 200) then
      if (status =? 401) || (status =? 400)
      then fail (errWrap ("token endpoint returned " +:+ format_int status +:+ " (" +:+ trim_space (hs_Body resp) +:+ "): ")
                   (errSentinel ErrAuthFailure) "")
      else fail (errOther ("token endpoint returned " +:+ format_int status +:+ ": " +:+ hs_Body resp))
    else
      t ← on_error (wrapping "error decoding token response")
            (of_result (Decode dec_token {| tk_AccessToken := ""; tk_ExpiresIn := 0 |} (hs_Body resp) (hs_BodyErr resp)));
      n ← env now;
      put_token (tk_AccessToken t) (time_add n (wrap64 (tk_ExpiresIn t * Second)));;
      mret (tk_AccessToken t).

(** The token is looked at under the read lock and again under the write lock. *)
Definition GetAccessToken (ctx : context) : B string :=
  fast ← token_valid;
  if fast : bool then p ← receiver; mret (bk_accessToken p)
  else
    again ← token_valid;
    if again : bool then p ← receiver; mret (bk_accessToken p) else fetch_token ctx.

(** A request of the API. *)
Definition api_request (method url : string) (headers : list (string * string)) (body token : string) : httpRequest := {|
  hq_Timeout := 30 * Second; hq_Method := method; hq_URL := url;
  hq_Headers := ("Authorization", "Bearer " +:+ token)%string :: headers; hq_Body := body |}.

(** The loop of both callers: [rq] is the request under a token; [notFound] and
    [tooMany] are the texts for 404 and 429.  It turns at most twice. *)
Fixpoint api_loop (fuel : nat) (ctx : context) (rq : string -> httpRequest) (notFound tooMany : string)
    (retried : bool) : B string :=
  match fuel with
  | O => fun _ => None
  | S fuel =>
      token ← on_error (wrapping "get access token") (GetAccessToken ctx);
      on_error (wrapping "create request") (env (new_request (hq_URL (rq token))));;
      resp ← on_error (wrapping "request failed") (env (client_do ctx (rq token)));
      let status := hs_StatusCode resp in
      if status =? 200 then on_error (wrapping "read response body") (of_result (ReadAll resp))
      else if status =? 401 then
        if retried
        then fail (errWrap "HTTP 401: unauthorized after token refresh: " (errSentinel ErrAuthFailure) "")
        else p ← receiver; put_token "" (bk_accessTokenExpirationTime p);;
             api_loop fuel ctx rq notFound tooMany true
      else if status =? 404 then fail (errOther notFound)
      else if status =? 429 then fail (errOther tooMany)
      else fail (errOther (http_text resp))
  end.

(** Every caller passes nil parameters. *)
Definition callAPI (ctx : context) (method endpoint : string) : B string :=
  p ← receiver;
  api_loop 2 ctx (api_request method (bk_baseURL p +:+ endpoint) [] "")
    "HTTP 404: not found" "HTTP 429: rate limit exceeded" false.

Definition callAPIWithStringBody (ctx : context) (method endpoint body contentType : string) : B string :=
  p ← receiver;
  api_loop 2 ctx (api_request method (bk_baseURL p +:+ endpoint) [("Content-Type", contentType)]%string body)
    "transaction not found" "rate limit exceeded" false.

Definition blockstream_utxo (address : string) (u : utxoResponse) : UTXO := {|
  utxo_TxHash := ur_TxID u; utxo_Vout := ur_Vout u; utxo_Amount := wrap64 (ur_Value u); utxo_ScriptPubKey := None;
  utxo_Address := address; utxo_Confirmed := ur_Confirmed u; utxo_Confirmations := 0; utxo_Spendable := false;
  utxo_BlockHeight := 0 |}.

Definition blockstream_GetUTXOs (ctx : context) (address : string) : B (list UTXO) :=
  body ← on_error (wrapping ("fetch UTXOs for " +:+ address)) (callAPI ctx "GET" ("/address/" +:+ address +:+ "/utxo"));
  l ← on_error (wrapping "parse UTXO response")
        (of_result (Unmarshal (dec_slice {| ur_TxID := ""; ur_Vout := 0; ur_Value := 0; ur_Confirmed := false |}
                                         dec_utxo_response) [] body));
  mret (map (blockstream_utxo address) l).

(** One step of the sums over the outputs. *)
Definition balance_add (acc : Z * Z) (u : UTXO) : Z * Z :=
  let '(confirmed, unconfirmed) := acc in
  if utxo_Confirmed u then (wrapu64 (confirmed + wrapu64 (utxo_Amount u)), unconfirmed)
  else (confirmed, wrapu64 (unconfirmed + wrapu64 (utxo_Amount u))).

Definition blockstream_GetBalance (ctx : context) (address : string) : B Balance :=
  utxos ← on_error (wrapping "failed to fetch UTXOs") (blockstream_GetUTXOs ctx address);
  let '(confirmed, unconfirmed) := foldl balance_add (0, 0) utxos in
  mret {| bal_Confirmed := confirmed; bal_Unconfirmed := unconfirmed; bal_Total := wrapu64 (confirmed + unconfirmed) |}.

Definition blockstream_ValidateAddress (ctx : context) (address : string) : B bool :=
  r ← try (callAPI ctx "GET" ("/address/" +:+ address));
  match r with
  | Err e => if str_contains "status code: 400" (err_msg e) then mret false else fail e
  | Ok _ => mret true
  end.

Definition blockstream_PushTx (ctx : context) (rawTx : list Byte.byte) : B string :=
  body ← on_error (wrapping "failed to broadcast transaction via Blockstream")
           (callAPIWithStringBody ctx "POST" "/tx" (hex_encode (byte_values rawTx)) "text/plain");
  mret (trim_space body).

Definition blockstream_GetTxStatus (ctx : context) (txID : string) : B TxConfirmationStatus :=
  body ← on_error (wrapping ("fetch tx status " +:+ txID)) (callAPI ctx "GET" ("/tx/" +:+ txID +:+ "/status"));
  st ← on_error (wrapping "parse tx status response")
         (of_result (Unmarshal dec_status_response
            {| sr_Confirmed := false; sr_BlockHeight := 0; sr_BlockHash := ""; sr_BlockTime := 0 |} body));
  confirmations ←
    (if sr_Confirmed st && (0 <? sr_BlockHeight st) then
       tipBody ← try (callAPI ctx "GET" "/blocks/tip/height");
       let n := match tipBody with
                | Ok b => match Unmarshal (dec_int 64) 0 b with
                          | Ok tip => if 0 <? tip then wrap64 (wrap64 (tip - sr_BlockHeight st) + 1) else 0
                          | Err _ => 0
                          end
                | Err _ => 0
                end in
       mret (if n =? 0 then 1 else n)
     else mret 0);
  mret {| tcs_Confirmed := sr_Confirmed st; tcs_Confirmations := confirmations; tcs_BlockHeight := sr_BlockHeight st;
          tcs_BlockHash := sr_BlockHash st |}.

Definition blockstream_CheckHealth (ctx : context) (s : blockstream * W) : HealthStatus * (blockstream * W) :=
  let '(p, w) := s in
  let '(h, w) := check_endpoint ctx {|
    hq_Timeout := 30 * Second; hq_Method := "GET"; hq_URL := bk_baseURL p +:+ "/blocks/tip/height";
    hq_Headers := if bool_decide (bk_clientID p = ""%string) then [] else [("X-Client-Id"%string, bk_clientID p)];
    hq_Body := "" |} w in
  (h, (p, w)).

Definition getFeeEstimates (ctx : context) : B (gmap string f64) :=
  body ← on_error (wrapping "failed to fetch fee estimates from Blockstream") (callAPI ctx "GET" "/fee-estimates");
  on_error (wrapping "failed to parse fee estimates response") (of_result (Unmarshal (dec_map f64_zero dec_float) ∅ body)).

(** The tier of one target, when it has an estimate. *)
Definition estimate_tier (estimates : gmap string f64) (key : string) (target : Z) : list FeeTier :=
  match estimates !! key with
  | Some rate => [{| ft_FeeRate := roundFeeRate rate; ft_TargetBlock := target |}]
  | None => []
  end.

Definition blockstream_GetTxFees (ctx : context) : B (list FeeTier) :=
  estimates ← getFeeEstimates ctx;
  match estimate_tier estimates "1" 1 ++ estimate_tier estimates "6" 6 ++ estimate_tier estimates "144" 144 with
  | [] => fail (errOther "no fee estimates available from Blockstream")
  | tiers => mret tiers
  end.

Definition blockstream_GetTxFee (ctx : context) (priority : FeePriority) : B FeeTier :=
  fees ← blockstream_GetTxFees ctx; mret (SelectClosest priority fees).
End operations.

Definition blockstream_GetCapabilities (p : blockstream) : list ProviderCapability :=
  [CapabilityAddressValidation; CapabilityBalanceFetching; CapabilityFeeRecommending; CapabilityTxBroadcast;
   CapabilityTxStatusFetching; CapabilityUTXOFetching].
