(* ===== verification/BlockstreamProps.v ===== *)
(** * Properties of the Blockstream client

    The token cache, and the whole course of an API call: which requests are
    sent, when a call is repeated, and what it returns. *)

From Stdlib Require Import SpecFloat.
From S2P Require Import Prelude GoInt GoFloat GoString GoCodec GoNum GoJson GoDecode.
From S2P Require Import Config RateLimit Sorting Penalties Scorer ScoringConfig Latency Events.
From S2P Require Import Decay Store Engine EngineStore Selection Manager RunOp Bitcoin.
From S2P Require Import Providers HttpApi Blockstream.

Section props.
Context (bad : string -> option error) `{JsonErrors}.
#[local] Instance recording : HttpWorld scriptWorld := script_world bad.
Implicit Types (p : blockstream) (w : scriptWorld).

(** ** The token *)

(** The reading of the clock and the credentials decide whether a token is at hand. *)
Definition cached p w : bool :=
  bool_decide (bk_accessToken p <> ""%string) && time_before (sw_clock w (sw_ticks w)) (bk_accessTokenExpirationTime p).

Definition has_credentials p : bool := bool_decide (bk_clientID p <> ""%string /\ bk_clientSecret p <> ""%string).

(** The environment after looking at the cache once. *)
Definition looked p w : scriptWorld := if bool_decide (bk_accessToken p = ""%string) then w else sw_tick w.

Lemma looked_same p w : sw_sent (looked p w) = sw_sent w /\ sw_answer (looked p w) = sw_answer w
  /\ sw_clock (looked p w) = sw_clock w.
Proof. unfold looked. by case_bool_decide. Qed.

Lemma token_valid_eq p w : token_valid (p, w) = Some (Ok (cached p w), (p, looked p w)).
Proof.
  unfold token_valid, cached, looked. rewrite M_bind_eq. unfold receiver. cbn [fst snd].
  case_bool_decide as Hn.
  - rewrite bool_decide_false by auto. done.
  - rewrite bool_decide_true by done. done.
Qed.

(** What the login server's answer means. *)
Definition token_answer (a : result httpResponse) : result tokenResponse :=
  match a with
  | Err e => Err (wrapping "error fetching access token" e)
  | Ok resp =>
      let status := hs_StatusCode resp in
      if status =? 200 then
        map_err (wrapping "error decoding token response")
          (Decode dec_token {| tk_AccessToken := ""; tk_ExpiresIn := 0 |} (hs_Body resp) (hs_BodyErr resp))
      else if (status =? 401) || (status =? 400)
      then Err (errWrap ("token endpoint returned " +:+ format_int status +:+ " (" +:+ trim_space (hs_Body resp) +:+ "): ")
                 (errSentinel ErrAuthFailure) "")
      else Err (errOther ("token endpoint returned " +:+ format_int status +:+ ": " +:+ hs_Body resp))
  end.

Lemma fetch_token_eq ctx p w :
  fetch_token ctx (p, w) =
    if has_credentials p then
      match bad (hq_URL (token_request p)) with
      | Some e => Some (Err (wrapping "error creating token request" e), (p, w))
      | None =>
          let w1 := sw_send (token_request p) w in
          match token_answer (sw_next w (token_request p)) with
          | Err e => Some (Err e, (p, w1))
          | Ok t =>
              Some (Ok (tk_AccessToken t),
                    (set_token (tk_AccessToken t)
                       (time_add (sw_clock w (sw_ticks w)) (wrap64 (tk_ExpiresIn t * Second))) p, sw_tick w1))
          end
      end
    else Some (Err (errOther "missing API client ID or secret"), (p, w)).
Proof.
  unfold fetch_token, has_credentials. rewrite M_bind_eq. unfold receiver at 1. cbn [fst snd].
  destruct (decide (bk_clientID p = ""%string \/ bk_clientSecret p = ""%string)) as [Hn|Hn].
  { rewrite bool_decide_true, (bool_decide_false (_ /\ _)) by tauto. done. }
  rewrite bool_decide_false, (bool_decide_true (_ /\ _)) by tauto.
  unfold new_request, client_do, env, put_token. call_step. cbn [snd fst hw_url hw_do recording script_world].
  destruct (bad _); [done|]. call_step. cbn [snd fst].
  destruct (sw_next w (token_request p)) as [resp|e]; cbn [map_err token_answer]; [|done].
  destruct (hs_StatusCode resp =? 200); cbn [negb].
  - call_step. by destruct (Decode _ _ _ _).
  - by destruct (_ || _).
Qed.

(** A token that has not expired is used without a request.  Otherwise the
    login server is asked once (not at all without credentials); a failed
    answer changes nothing and one of 400 or 401 is an authentication failure; a good one
    is kept for as long as it says. *)
Theorem GetAccessToken_spec ctx p w :
  exists r p' w', GetAccessToken ctx (p, w) = Some (r, (p', w')) /\
  if cached p w then r = Ok (bk_accessToken p) /\ p' = p /\ sw_sent w' = sw_sent w
  else if cached p (looked p w) then r = Ok (bk_accessToken p) /\ p' = p /\ sw_sent w' = sw_sent w
  else if has_credentials p && bool_decide (bad (hq_URL (token_request p)) = None) then
    sw_sent w' = sw_sent w ++ [token_request p]
    /\ match sw_next w (token_request p), r with
       | Ok resp, Ok tok =>
           hs_StatusCode resp = 200 /\
           exists t k, Decode dec_token {| tk_AccessToken := ""; tk_ExpiresIn := 0 |} (hs_Body resp) (hs_BodyErr resp) = Ok t
             /\ tok = tk_AccessToken t
             /\ p' = set_token tok (time_add (sw_clock w k) (wrap64 (tk_ExpiresIn t * Second))) p
       | Ok resp, Err e => p' = p /\ (hs_StatusCode resp = 400 \/ hs_StatusCode resp = 401 -> errors_is e ErrAuthFailure = true)
       | Err _, Ok _ => False
       | Err _, Err _ => p' = p
       end
  else p' = p /\ sw_sent w' = sw_sent w /\ exists e, r = Err e.
Proof.
  unfold GetAccessToken. rewrite M_bind_eq, token_valid_eq. destruct (cached p w).
  { eexists _, _, _. split; [done|]. split_and!; [done..|]. apply looked_same. }
  rewrite M_bind_eq, token_valid_eq. destruct (looked_same p w) as (Hs & Ha & Hc).
  set (w1 := looked p w) in *. destruct (looked_same p w1) as (Hs1 & Ha1 & Hc1). set (w2 := looked p w1) in *.
  destruct (cached p w1).
  { eexists _, _, _. split; [done|]. split_and!; [done..|congruence]. }
  rewrite fetch_token_eq. assert (sw_next w2 (token_request p) = sw_next w (token_request p)) as ->.
  { unfold sw_next. congruence. }
  destruct (has_credentials p); cbn [andb].
  2: { eexists _, _, _. split; [done|]. split_and!; [done|congruence|by eexists]. }
  destruct (bad (hq_URL (token_request p))) as [e|] eqn:Eb.
  { rewrite bool_decide_false by done. eexists _, _, _. split; [done|]. split_and!; [done|congruence|by eexists]. }
  rewrite bool_decide_true by done. cbv zeta.
  assert (sw_sent (sw_send (token_request p) w2) = sw_sent w ++ [token_request p]) as Hsent by (cbn; congruence).
  unfold token_answer. destruct (sw_next w (token_request p)) as [resp|e].
  2: { eexists _, _, _. by split. }
  destruct (hs_StatusCode resp =? 200) eqn:E2.
  - apply Z.eqb_eq in E2. destruct (Decode _ _ _ _) as [t|e] eqn:Ed; cbn [map_err].
    + eexists _, _, _. split; [done|]. split; [done|]. split; [done|].
      eexists t, _. split; [done|]. split; [done|]. by rewrite Hc1, Hc.
    + eexists _, _, _. split; [done|]. split; [done|]. split; [done|]. intros []; lia.
  - destruct (_ || _) eqn:E4.
    + eexists _, _, _. split; [done|]. split; [done|]. by split.
    + apply orb_false_iff in E4 as [E1 E4]. eexists _, _, _. split; [done|]. split; [done|]. split; [done|]. intros []; go_lia.
Qed.
(** ** A call of the API *)

(** The requests that obtain a token: none, or one to the login server. *)
Definition token_part p (t : list httpRequest) : Prop := t = [] \/ t = [token_request p].

(** A token that has not expired, at the first or the second look. *)
Definition at_hand p w : bool := cached p w || cached p (looked p w).

(** The login server's answer after the requests [l], and the request it takes. *)
Definition ask p w (l : list httpRequest) : result string :=
  if has_credentials p then
    match bad (hq_URL (token_request p)) with
    | Some e => Err (wrapping "error creating token request" e)
    | None =>
        match token_answer (sw_answer w (sw_sent w ++ l) (token_request p)) with
        | Err e => Err e
        | Ok t => Ok (tk_AccessToken t)
        end
    end
  else Err (errOther "missing API client ID or secret").

Definition asked p : list httpRequest :=
  if has_credentials p && bool_decide (bad (hq_URL (token_request p)) = None) then [token_request p] else [].

Lemma asked_part p : token_part p (asked p).
Proof. unfold asked. case_match; [by right|by left]. Qed.

Lemma ask_Ok p w l tok : ask p w l = Ok tok -> asked p = [token_request p].
Proof. unfold ask, asked. destruct (has_credentials p); [|done]. by destruct (bad _). Qed.

(** The token of the first request, and the requests made to obtain it. *)
Definition first_token p w : result string := if at_hand p w then Ok (bk_accessToken p) else ask p w [].

Definition first_asked p w : list httpRequest := if at_hand p w then [] else asked p.

Lemma first_asked_part p w : token_part p (first_asked p w).
Proof. unfold first_asked. destruct (at_hand p w); [by left|apply asked_part]. Qed.

(** What obtaining a token does to the log and the client. *)
Lemma GetAccessToken_log ctx p w :
  exists p' w', GetAccessToken ctx (p, w) = Some (first_token p w, (p', w'))
    /\ sw_sent w' = sw_sent w ++ first_asked p w /\ sw_answer w' = sw_answer w
    /\ (exists tok expiry, p' = set_token tok expiry p)
    /\ match first_token p w with
       | Ok tok => bk_accessToken p' = tok
       | Err _ => p' = p
       end.
Proof.
  assert (p = set_token (bk_accessToken p) (bk_accessTokenExpirationTime p) p) as Hp by (by destruct p).
  unfold GetAccessToken, first_token, first_asked, at_hand. rewrite M_bind_eq, token_valid_eq. destruct (looked_same p w) as (Hs & Ha & _).
  destruct (cached p w); cbn [orb].
  { eexists p, _. split; [done|]. rewrite app_nil_r. split_and!; [done|done|by eexists _, _|done]. }
  rewrite M_bind_eq, token_valid_eq. set (w1 := looked p w) in *. destruct (looked_same p w1) as (Hs1 & Ha1 & _).
  destruct (cached p w1).
  { eexists p, _. split; [done|]. rewrite app_nil_r. split_and!; [congruence|congruence|by eexists _, _|done]. }
  rewrite fetch_token_eq. unfold ask, asked. destruct (has_credentials p); cbn [andb].
  2: { eexists p, _. split; [done|]. rewrite app_nil_r. split_and!; [congruence|congruence|by eexists _, _|done]. }
  destruct (bad _).
  { eexists p, _. split; [done|]. rewrite app_nil_r. split_and!; [congruence|congruence|by eexists _, _|done]. }
  cbv zeta. rewrite app_nil_r. unfold sw_next. rewrite Hs1, Hs, Ha1, Ha.
  destruct (token_answer _) as [t|e]; eexists _, _; (split; [done|]);
    (split_and!; [cbn; congruence|cbn; congruence|by eexists _, _|done]).
Qed.

(** What the answer to an API request means, the retry aside. *)
Definition api_answer (notFound tooMany : string) (a : result httpResponse) : result string :=
  match a with
  | Err e => Err (wrapping "request failed" e)
  | Ok resp =>
      let status := hs_StatusCode resp in
      if status =? 200 then map_err (wrapping "read response body") (ReadAll resp)
      else if status =? 401 then Err (errWrap "HTTP 401: unauthorized after token refresh: " (errSentinel ErrAuthFailure) "")
      else if status =? 404 then Err (errOther notFound)
      else if status =? 429 then Err (errOther tooMany)
      else Err (errOther (http_text resp))
  end.

Definition unauthorized (a : result httpResponse) : bool :=
  match a with Ok resp => hs_StatusCode resp =? 401 | Err _ => false end.

(** A turn of the loop once its token [tok] is at hand. *)
Lemma api_loop_token n ctx rq notFound tooMany retried p w tok p1 w1 :
  GetAccessToken ctx (p, w) = Some (Ok tok, (p1, w1)) ->
  api_loop (S n) ctx rq notFound tooMany retried (p, w) =
    match bad (hq_URL (rq tok)) with
    | Some e => Some (Err (wrapping "create request" e), (p1, w1))
    | None =>
        let a := sw_next w1 (rq tok) in
        let w2 := sw_send (rq tok) w1 in
        if unauthorized a && negb retried
        then api_loop n ctx rq notFound tooMany true (set_token "" (bk_accessTokenExpirationTime p1) p1, w2)
        else Some (api_answer notFound tooMany a, (p1, w2))
    end.
Proof.
  intros Heq. cbn [api_loop]. rewrite M_bind_eq, on_error_eq, Heq. cbn [mbind option_bind map_err].
  unfold new_request, client_do, env. call_step. cbn [snd fst hw_url hw_do recording script_world].
  destruct (bad _) as [e|]; [done|]. call_step. cbn [snd fst].
  unfold unauthorized, api_answer. destruct (sw_next w1 (rq tok)) as [resp|e]; cbn [map_err andb]; [|done].
  destruct (hs_StatusCode resp =? 200) eqn:E2.
  { apply Z.eqb_eq in E2. rewrite E2. cbn [Z.eqb andb]. call_step. by destruct (ReadAll resp). }
  destruct (hs_StatusCode resp =? 401); cbn [andb negb]; [by destruct retried|].
  by destruct (hs_StatusCode resp =? 404), (hs_StatusCode resp =? 429).
Qed.

Lemma token_request_set tok expiry p : token_request (set_token tok expiry p) = token_request p.
Proof. done. Qed.

(** The loop as a specification: the result and the requests, in order.  A
    token is at hand or asked for; the request is sent under it; after a 401, and
    only then, a token is asked for and the request is sent once more. *)
Definition api_spec (rq : string -> httpRequest) (notFound tooMany : string) p w : result string * list httpRequest :=
  let answered l := sw_answer w (sw_sent w ++ l) in
  let t := first_asked p w in
  match first_token p w with
  | Err e => (Err (wrapping "get access token" e), t)
  | Ok tok =>
      match bad (hq_URL (rq tok)) with
      | Some e => (Err (wrapping "create request" e), t)
      | None =>
          if unauthorized (answered t (rq tok)) then
            let l := t ++ [rq tok] in
            match ask p w l with
            | Err e => (Err (wrapping "get access token" e), l ++ asked p)
            | Ok tok' =>
                match bad (hq_URL (rq tok')) with
                | Some e => (Err (wrapping "create request" e), l ++ asked p)
                | None => (api_answer notFound tooMany (answered (l ++ asked p) (rq tok')), l ++ asked p ++ [rq tok'])
                end
            end
          else (api_answer notFound tooMany (answered t (rq tok)), t ++ [rq tok])
      end
  end.

(** The token cached after a call: that of its last request. *)
Definition last_under (rq : string -> httpRequest) (l : list httpRequest) (tok : string) : Prop :=
  exists l0, l = l0 ++ [rq tok].

(** Without a token, one is asked for. *)
Lemma at_hand_forgotten expiry p w : at_hand (set_token "" expiry p) w = false.
Proof. unfold at_hand, cached. cbn. done. Qed.

Lemma ask_forgotten tok expiry p w w2 l :
  sw_answer w2 = sw_answer w -> sw_sent w2 = sw_sent w ++ l -> ask (set_token tok expiry p) w2 [] = ask p w l.
Proof. intros Ha Hs. unfold ask. rewrite Ha, Hs, app_nil_r. done. Qed.

Lemma api_loop_runs n ctx rq notFound tooMany p w :
  exists p' w', api_loop (S (S n)) ctx rq notFound tooMany false (p, w)
      = Some ((api_spec rq notFound tooMany p w).1, (p', w'))
    /\ sw_sent w' = sw_sent w ++ (api_spec rq notFound tooMany p w).2
    /\ ((exists body, (api_spec rq notFound tooMany p w).1 = Ok body)
        -> last_under rq (api_spec rq notFound tooMany p w).2 (bk_accessToken p')).
Proof.
  destruct (GetAccessToken_log ctx p w) as (p1 & w1 & Heq & Hs & Ha & (tk & ex & Hp) & Hr).
  unfold api_spec. set (t := first_asked p w) in *. destruct (first_token p w) as [tok|e].
  2: { exists p1, w1. split; [cbn [api_loop]; by rewrite M_bind_eq, on_error_eq, Heq|]. split; [done|]. by intros []. }
  rewrite (api_loop_token _ _ _ _ _ _ _ _ _ _ _ Heq).
  destruct (bad (hq_URL (rq tok))) as [e|]; [exists p1, w1; split_and!; [done|done|by intros []]|]. cbv zeta.
  assert (sw_next w1 (rq tok) = sw_answer w (sw_sent w ++ t) (rq tok)) as -> by (unfold sw_next; congruence).
  destruct (unauthorized _); cbn [andb negb].
  2: { exists p1, (sw_send (rq tok) w1). split; [done|]. split; [cbn; by rewrite Hs, app_assoc|]. intros _. exists t. by rewrite Hr. }
  set (p2 := set_token "" _ p1). set (w2 := sw_send (rq tok) w1).
  assert (sw_sent w2 = sw_sent w ++ t ++ [rq tok]) as Hs2 by (cbn; by rewrite Hs, app_assoc).
  destruct (GetAccessToken_log ctx p2 w2) as (p3 & w3 & Heq3 & Hs3 & Ha3 & _ & Hr3).
  assert (at_hand p2 w2 = false) as Hno by apply at_hand_forgotten.
  unfold first_token, first_asked in Heq3, Hs3, Hr3. rewrite Hno in Heq3, Hs3, Hr3.
  assert (ask p2 w2 [] = ask p w (t ++ [rq tok])) as Hask.
  { unfold p2. rewrite Hp. apply (ask_forgotten "" _ p w w2); [cbn; congruence|done]. }
  assert (asked p2 = asked p) as Hasked by (unfold p2; by rewrite Hp).
  rewrite Hask in Heq3, Hr3. rewrite Hasked, Hs2 in Hs3. rewrite <-app_assoc in Hs3.
  destruct (ask p w (t ++ [rq tok])) as [tok'|e].
  2: { exists p3, w3. split; [cbn [api_loop]; by rewrite M_bind_eq, on_error_eq, Heq3|].
       split; [cbn [snd]; by rewrite Hs3, <-!app_assoc|]. by intros []. }
  rewrite (api_loop_token _ _ _ _ _ _ _ _ _ _ _ Heq3).
  destruct (bad (hq_URL (rq tok'))) as [e|]; [exists p3, w3; split_and!; [done|cbn [snd]; by rewrite Hs3, <-!app_assoc|by intros []]|].
  cbv zeta. rewrite andb_false_r.
  assert (sw_next w3 (rq tok') = sw_answer w (sw_sent w ++ (t ++ [rq tok]) ++ asked p) (rq tok')) as ->.
  { unfold sw_next. rewrite Hs3, <-!app_assoc. rewrite Ha3. cbn [sw_answer w2 sw_send]. by rewrite Ha. }
  exists p3, (sw_send (rq tok') w3). split; [done|]. split; [cbn; by rewrite Hs3, <-!app_assoc|].
  intros _. exists ((t ++ [rq tok]) ++ asked p). by rewrite Hr3, <-!app_assoc.
Qed.

(** The loop in cases: no API request, one, or two of which the first was answered 401. *)
Lemma api_loop_course n ctx rq notFound tooMany p w :
  exists r p' w' l, api_loop (S (S n)) ctx rq notFound tooMany false (p, w) = Some (r, (p', w'))
    /\ sw_sent w' = sw_sent w ++ l
    /\ exists t, token_part p t /\
      (l = t /\ (exists e, r = Err e)
       \/ (exists tok, l = t ++ [rq tok]
            /\ unauthorized (sw_answer w (sw_sent w ++ t) (rq tok)) = false
            /\ r = api_answer notFound tooMany (sw_answer w (sw_sent w ++ t) (rq tok)))
       \/ (exists tok, unauthorized (sw_answer w (sw_sent w ++ t) (rq tok)) = true /\
            ((exists t' e, token_part p t' /\ l = t ++ [rq tok] ++ t' /\ r = Err e)
             \/ exists tok', l = t ++ [rq tok; token_request p; rq tok']
                /\ r = api_answer notFound tooMany
                          (sw_answer w (sw_sent w ++ t ++ [rq tok; token_request p]) (rq tok'))))).
Proof.
  destruct (api_loop_runs n ctx rq notFound tooMany p w) as (p' & w' & Heq & Hs & _).
  exists (api_spec rq notFound tooMany p w).1, p', w', (api_spec rq notFound tooMany p w).2. split; [done|]. split; [done|].
  unfold api_spec. pose proof (first_asked_part p w) as Ht. set (t := first_asked p w) in *. exists t. split; [done|].
  destruct (first_token p w) as [tok|e]; [|left; by eauto].
  destruct (bad (hq_URL (rq tok))) as [e|]; [left; by eauto|]. right.
  destruct (unauthorized _) eqn:Eu; [right|left; by eauto]. exists tok. split; [done|].
  destruct (ask p w (t ++ [rq tok])) as [tok'|e] eqn:Ek.
  - pose proof (ask_Ok _ _ _ _ Ek) as Hk. destruct (bad (hq_URL (rq tok'))) as [e|]; [left|right].
    + exists (asked p). eexists. split; [apply asked_part|]. split; [cbn; by rewrite <-app_assoc|done].
    + exists tok'. cbn [fst snd]. rewrite Hk, <-!app_assoc. done.
  - left. exists (asked p). eexists. split; [apply asked_part|]. split; [cbn; by rewrite <-app_assoc|done].
Qed.

Lemma callAPI_loop ctx method endpoint p w :
  callAPI ctx method endpoint (p, w)
    = api_loop 2 ctx (api_request method (bk_baseURL p +:+ endpoint) [] "") "HTTP 404: not found"
        "HTTP 429: rate limit exceeded" false (p, w).
Proof. unfold callAPI. by rewrite M_bind_eq. Qed.

Lemma api_answer_Ok notFound tooMany a body : api_answer notFound tooMany a = Ok body ->
  exists resp, a = Ok resp /\ hs_StatusCode resp = 200 /\ ReadAll resp = Ok body.
Proof.
  unfold api_answer. destruct a as [resp|e]; [|done]. destruct (hs_StatusCode resp =? 200) eqn:E.
  - destruct (ReadAll resp) as [b|e] eqn:Er; cbn; intros ?; simplify_eq. exists resp. split_and!; [done|go_lia|done].
  - by repeat (destruct (_ =? _)).
Qed.

Lemma unauthorized_auth notFound tooMany a : unauthorized a = true ->
  exists e, api_answer notFound tooMany a = Err e /\ errors_is e ErrAuthFailure = true.
Proof.
  unfold unauthorized, api_answer. destruct a as [resp|e]; [|done]. intros E. apply Z.eqb_eq in E. rewrite E. by eexists.
Qed.

(** The requests that are not for a token. *)
Definition api_requests p (l : list httpRequest) : list httpRequest := filter (fun rq => rq <> token_request p) l.

Lemma api_requests_app p a b : api_requests p (a ++ b) = api_requests p a ++ api_requests p b.
Proof. apply filter_app. Qed.

Lemma token_part_requests p t : token_part p t -> api_requests p t = [] /\ (length t <= 1)%nat.
Proof.
  intros [-> | ->]; (split; [|cbn; lia]); [done|]. unfold api_requests. by rewrite filter_cons, decide_False by auto.
Qed.

Lemma api_requests_one p rq : (length (api_requests p [rq]) <= 1)%nat.
Proof. unfold api_requests. etrans; [apply length_filter|done]. Qed.

Definition token_requests p (l : list httpRequest) : list httpRequest := filter (fun rq => rq = token_request p) l.

Lemma token_requests_app p a b : token_requests p (a ++ b) = token_requests p a ++ token_requests p b.
Proof. apply filter_app. Qed.

Lemma token_requests_part p t : token_part p t -> token_requests p t = t.
Proof. intros [-> | ->]; [done|]. unfold token_requests. by rewrite filter_cons, decide_True. Qed.

(** A request of the API is counted as one. *)
Lemma request_counted p rq : rq <> token_request p -> api_requests p [rq] = [rq] /\ token_requests p [rq] = [].
Proof. intros Hne. unfold api_requests, token_requests. by rewrite !filter_cons, decide_True, decide_False. Qed.

(** What the specification's log counts. *)
Lemma api_spec_counts rq notFound tooMany p w :
  (forall tok, rq tok <> token_request p) ->
  let t := first_asked p w in
  let l := (api_spec rq notFound tooMany p w).2 in
  (length (api_requests p l) <= 2)%nat /\ (length (token_requests p l) <= 2)%nat
  /\ (length (api_requests p l) = 2%nat <->
      exists tok tok', first_token p w = Ok tok /\ bad (hq_URL (rq tok)) = None
        /\ unauthorized (sw_answer w (sw_sent w ++ t) (rq tok)) = true
        /\ ask p w (t ++ [rq tok]) = Ok tok' /\ bad (hq_URL (rq tok')) = None).
Proof.
  intros Hrq t l. unfold l, api_spec. fold t. pose proof (first_asked_part p w) as Ht. fold t in Ht.
  pose proof (asked_part p) as Hk. destruct (token_part_requests p t Ht) as [Hta Htl].
  destruct (token_part_requests p _ Hk) as [Hka Hkl].
  pose proof (token_requests_part p t Ht) as Htt. pose proof (token_requests_part p _ Hk) as Hkt.
  assert (forall tok, api_requests p [rq tok] = [rq tok] /\ token_requests p [rq tok] = []) as Hc
    by (intros; by apply request_counted).
  destruct (first_token p w) as [tok|e]; [destruct (bad (hq_URL (rq tok))) as [e|] eqn:Eb;
    [|destruct (unauthorized _) eqn:Eu; [destruct (ask p w (t ++ [rq tok])) as [tok'|e] eqn:Ek;
       [destruct (bad (hq_URL (rq tok'))) as [e|] eqn:Eb'|]|]]|]; cbv zeta; cbn [snd].
  all: rewrite ?api_requests_app, ?token_requests_app, ?Hta, ?Hka, ?Htt, ?Hkt, ?(proj1 (Hc _)), ?(proj2 (Hc _)), ?length_app; cbn [length];
    split; [lia|]; split; [lia|]; (split; [intros Hl; try lia|intros (a & b & ? & ? & ? & ? & ?); simplify_eq; try congruence]).
  - by exists tok, tok'.
  - lia.
Qed.

(** What the specification's result says. *)
Lemma api_spec_Ok rq notFound tooMany p w body :
  (api_spec rq notFound tooMany p w).1 = Ok body ->
  exists l0 tok resp, (api_spec rq notFound tooMany p w).2 = l0 ++ [rq tok]
    /\ sw_answer w (sw_sent w ++ l0) (rq tok) = Ok resp /\ hs_StatusCode resp = 200 /\ ReadAll resp = Ok body.
Proof.
  unfold api_spec. set (t := first_asked p w). destruct (first_token p w) as [tok|e]; [|done].
  destruct (bad (hq_URL (rq tok))) as [e|]; [done|]. destruct (unauthorized _).
  - destruct (ask p w (t ++ [rq tok])) as [tok'|e]; [|done]. destruct (bad (hq_URL (rq tok'))) as [e|]; [done|].
    cbn [fst snd]. intros (resp & Ha & H200 & Hb)%api_answer_Ok. exists ((t ++ [rq tok]) ++ asked p), tok', resp.
    split_and!; [by rewrite <-!app_assoc|done..].
  - cbn [fst snd]. intros (resp & Ha & H200 & Hb)%api_answer_Ok. by exists t, tok, resp.
Qed.

Lemma api_spec_twice rq notFound tooMany p w l0 tok tok' e :
  (forall tok, rq tok <> token_request p) -> token_part p l0 ->
  api_spec rq notFound tooMany p w = (Err e, l0 ++ [rq tok; token_request p; rq tok']) ->
  unauthorized (sw_answer w (sw_sent w ++ l0) (rq tok)) = true
  /\ (unauthorized (sw_answer w (sw_sent w ++ l0 ++ [rq tok; token_request p]) (rq tok')) = true ->
      errors_is e ErrAuthFailure = true).
Proof.
  intros Hrq Hl0 Hspec. pose proof (api_spec_counts rq notFound tooMany p w Hrq) as (_ & _ & Htwice). rewrite Hspec in Htwice.
  cbn [snd] in Htwice. change [rq tok; token_request p; rq tok'] with ([rq tok] ++ [token_request p] ++ [rq tok']) in Htwice.
  rewrite !api_requests_app, (proj1 (token_part_requests p l0 Hl0)), !(fun k => proj1 (request_counted p (rq k) (Hrq k))),
    (proj1 (token_part_requests p [token_request p] ltac:(by right))) in Htwice.
  destruct (proj1 Htwice eq_refl) as (a & b & Hfirst & Hbad & Hu & Hask & Hbad').
  unfold api_spec in Hspec. rewrite Hfirst, Hbad, Hu, Hask, Hbad', (ask_Ok _ _ _ _ Hask) in Hspec.
  injection Hspec as Hr Hl. rewrite <-!app_assoc in Hl. apply app_inj_2 in Hl as [Ht Hl]; [|done]. cbn in Hl.
  injection Hl as Ha Hb. rewrite <-Ht, <-Ha, <-Hb. split; [done|]. intros Hu2. rewrite <-app_assoc in Hr.
  apply (unauthorized_auth notFound tooMany) in Hu2 as (e' & He' & Hauth). cbn in Hr, He'. congruence.
Qed.

(** C21: A call of the API always returns and never panics, with the requests
    and the result of [api_spec]: at most two token requests (none to begin with
    when a token that has not expired is cached) and at most two API requests;
    the API request is sent a second time exactly when the first was answered
    401 and the login server then gave a new token.  The call succeeds with the
    body of an answer 200 to its last request, sent under the token that is
    cached afterwards; a second 401 is an authentication failure. *)
Theorem callAPI_course ctx method endpoint p w :
  let url := (bk_baseURL p +:+ endpoint)%string in
  let rq := api_request method url [] "" in
  let answered l tok := sw_answer w (sw_sent w ++ l) (rq tok) in
  exists r p' w' l, callAPI ctx method endpoint (p, w) = Some (r, (p', w'))
    /\ sw_sent w' = sw_sent w ++ l
    /\ api_spec rq "HTTP 404: not found" "HTTP 429: rate limit exceeded" p w = (r, l)
    /\ (length (api_requests p l) <= 2)%nat /\ (length (token_requests p l) <= 2)%nat
    /\ (length (api_requests p l) = 2%nat <->
        exists tok tok', first_token p w = Ok tok /\ bad url = None
          /\ unauthorized (answered (first_asked p w) tok) = true
          /\ ask p w (first_asked p w ++ [rq tok]) = Ok tok')
    /\ match r with
       | Ok body => exists l0 tok resp, l = l0 ++ [rq tok] /\ answered l0 tok = Ok resp
           /\ hs_StatusCode resp = 200 /\ ReadAll resp = Ok body /\ bk_accessToken p' = tok
       | Err e => forall l0 tok tok', l = l0 ++ [rq tok; token_request p; rq tok'] -> token_part p l0 ->
           unauthorized (answered l0 tok) = true /\
           (unauthorized (answered (l0 ++ [rq tok; token_request p]) tok') = true -> errors_is e ErrAuthFailure = true)
       end.
Proof.
  cbv zeta. rewrite callAPI_loop. set (rq := api_request _ _ _ _).
  assert (forall tok, rq tok <> token_request p) as Hrq by done.
  assert (forall tok, hq_URL (rq tok) = (bk_baseURL p +:+ endpoint)%string) as Hurl by done.
  destruct (api_loop_runs 0 ctx rq "HTTP 404: not found" "HTTP 429: rate limit exceeded" p w) as (p' & w' & Heq & Hs & Hlast).
  destruct (api_spec_counts rq "HTTP 404: not found" "HTTP 429: rate limit exceeded" p w Hrq) as (Hc1 & Hc2 & Htwice).
  pose proof (api_spec_Ok rq "HTTP 404: not found" "HTTP 429: rate limit exceeded" p w) as Hok.
  pose proof (fun l0 tok tok' e => api_spec_twice rq "HTTP 404: not found" "HTTP 429: rate limit exceeded" p w l0 tok tok' e Hrq) as Hbad.
  destruct (api_spec _ _ _ p w) as [r l]. cbn [fst snd] in *.
  exists r, p', w', l. split; [done|]. split; [done|]. split; [done|]. split; [done|]. split; [done|]. split.
  { rewrite Htwice. setoid_rewrite Hurl. split; intros (tok & tok' & ?); exists tok, tok'; tauto. }
  destruct r as [body|e].
  - destruct (Hok body eq_refl) as (l0 & tok & resp & -> & Ha & H200 & Hb). exists l0, tok, resp. split_and!; [done..|].
    destruct (Hlast ltac:(by eexists)) as (l1 & Hl). apply app_inj_tail in Hl as [_ Hl]. by injection Hl as Hl.
  - intros l0 tok tok' -> Hl0. by apply Hbad.
Qed.

(** ** Address validation *)

(** The error text of a status is that of the prefix [HTTP], which the searched one does not start in. *)
Lemma http_text_400 resp : hs_StatusCode resp = 400 ->
  str_contains "status code: 400" (http_text resp) = str_contains "status code: 400" (hs_Body resp).
Proof. intros Hs. unfold http_text. rewrite Hs. reflexivity. Qed.

(** An address the service rejects with 400 is not reported invalid but as an error:
    the code looks for "status code: 400" while the call's error says "HTTP 400". *)
Theorem ValidateAddress_rejected ctx address p w resp :
  let rq := api_request "GET" (bk_baseURL p +:+ "/address/" +:+ address) [] "" (bk_accessToken p) in
  cached p w = true -> bad (hq_URL rq) = None -> sw_next w rq = Ok resp -> hs_StatusCode resp = 400 ->
  str_contains "status code: 400" (hs_Body resp) = false ->
  exists w', blockstream_ValidateAddress ctx address (p, w) = Some (Err (errOther (http_text resp)), (p, w'))
    /\ sw_sent w' = sw_sent w ++ [rq].
Proof.
  intros rq Hc Hb Hr Hs Hbody. unfold blockstream_ValidateAddress.
  assert (GetAccessToken ctx (p, w) = Some (Ok (bk_accessToken p), (p, looked p w))) as Htok.
  { unfold GetAccessToken. by rewrite M_bind_eq, token_valid_eq, Hc. }
  destruct (looked_same p w) as (Hsent & Hans & _).
  rewrite M_bind_eq, try_eq, callAPI_loop, (api_loop_token _ _ _ _ _ _ _ _ _ _ _ Htok). fold rq. rewrite Hb. cbv zeta.
  assert (sw_next (looked p w) rq = Ok resp) as -> by (unfold sw_next in *; congruence).
  unfold unauthorized, api_answer. rewrite Hs. cbn [Z.eqb Pos.eqb andb mbind option_bind err_msg].
  rewrite http_text_400, Hbody by done. eexists. split; [done|]. cbn. by rewrite Hsent.
Qed.
End props.

(** ** Balances and fees *)

(** The sums are those of the UTXO arithmetic of the package. *)
Lemma balance_add_step acc u : balance_add acc u = balance_step acc u.
Proof. by destruct acc. Qed.

Lemma roundFeeRate_range `{GoArchU} f : 1 <= roundFeeRate f < 2 ^ 64.
Proof.
  unfold roundFeeRate. pose proof (f64_to_uint64_range (f64_round f)). destruct (_ <? 1) eqn:E; go_lia.
Qed.

(** A 64-bit count of satoshis survives the signed detour. *)
Lemma satoshis_roundtrip v : 0 <= v < 2 ^ 64 -> wrapu64 (wrap64 v) = v.
Proof.
  intros Hv. destruct (wrap64_congr v) as [k ->]. unfold wrapu64. rewrite Z.mod_add by lia. by apply Z.mod_small.
Qed.

(** ** A concrete session

    The login server gives tokens [t1], [t2] in turn; the API accepts [t2] only. *)

Definition demo_blockstream : blockstream := {|
  bk_clientID := "id"; bk_clientSecret := "secret"; bk_accessToken := "t0"; bk_accessTokenExpirationTime := 100;
  bk_baseURL := "http://api"; bk_loginURL := "http://login" |}.

Definition demo_login : scriptWorld := {|
  sw_clock k := Z.of_nat k; sw_ticks := 0; sw_sent := [];
  sw_answer before rq :=
    if bool_decide (rq = token_request demo_blockstream)
    then answer 200 (quotes "{'access_token':'t2','expires_in':300}")
    else if bool_decide (hq_Headers rq = [("Authorization", "Bearer t2")]%string) then answer 200 "ok"
    else if bool_decide (hq_URL rq = "http://api/address/nonsense"%string) then answer 400 "Invalid Bitcoin address"
    else answer 401 "expired" |}.

#[local] Existing Instance plain_json_errors.
#[local] Instance demo_http : HttpWorld scriptWorld := script_world (fun _ => None).

Example refreshed_session :
  (fun x => match x with
            | Some (Ok body, (p, w)) => Some (body, bk_accessToken p, bk_accessTokenExpirationTime p, map hq_URL (sw_sent w))
            | _ => None
            end) (callAPI background "GET" "/fee-estimates" (demo_blockstream, demo_login))
  = Some ("ok", "t2", 1 + 300 * Second,
          ["http://api/fee-estimates"; "http://login/realms/blockstream-public/protocol/openid-connect/token";
           "http://api/fee-estimates"])%string.
Proof. vm_compute. reflexivity. Qed.

Lemma ValidateAddress_rejected_witness :
  exists w', blockstream_ValidateAddress background "nonsense" (demo_blockstream, demo_login)
      = Some (Err (errOther "HTTP 400: Invalid Bitcoin address"), (demo_blockstream, w'))
    /\ sw_sent w' = [api_request "GET" "http://api/address/nonsense" [] "" "t0"].
Proof.
  apply (ValidateAddress_rejected (fun _ => None) background "nonsense" demo_blockstream demo_login
           {| hs_StatusCode := 400; hs_Status := "400"; hs_Body := "Invalid Bitcoin address"; hs_BodyErr := None |});
    vm_compute; reflexivity.
Defined.
