(* ===== verification/Tatum.v ===== *)
(** * The Tatum client

    [bitcoin/providers/tatum.go]: JSON-RPC to a Bitcoin node behind an API key,
    with the authentication state that [ValidateAPIKey] keeps for the health
    report. *)

From Stdlib Require Import SpecFloat.
From S2P Require Import Prelude GoInt GoFloat GoString GoCodec GoNum GoJson GoDecode.
From S2P Require Import Config RateLimit Sorting Penalties Scorer ScoringConfig Latency Events.
From S2P Require Import Decay Store Engine EngineStore Selection Manager RunOp Bitcoin.
From S2P Require Import Providers HttpApi.

(** ** Data *)

Record tatumProvider := {
  ta_network : BitcoinNetwork;
  ta_baseURL : string;
  ta_apiKey : string;
  ta_authValid : option bool;
  ta_authErr : option error
}.

Definition NewTatum (network : BitcoinNetwork) (baseURL apiKey : string) : tatumProvider := {|
  ta_network := network; ta_baseURL := baseURL; ta_apiKey := apiKey; ta_authValid := None; ta_authErr := None |}.

Definition tatum_Name (t : tatumProvider) : string := "Tatum".

(** [setAuthState]. *)
Definition tatum_setAuthState (valid : bool) (err : option error) (t : tatumProvider) : tatumProvider := {|
  ta_network := ta_network t; ta_baseURL := ta_baseURL t; ta_apiKey := ta_apiKey t;
  ta_authValid := Some valid; ta_authErr := err |}.

Definition tatumRPCRequest (method : string) (params : json) : json :=
  JObject [("method", JString method); ("params", params); ("id", JNumber "1")]%string.

Record rpcError := { re_Code : Z; re_Message : string }.
Record tatumRPCResponse := { rpc_Result : option json; rpc_Error : option rpcError; rpc_ID : Z }.

Definition dec_rpc_error : decoder rpcError := dec_struct [
  ("code"%string, field re_Code (fun v e => {| re_Code := v; re_Message := re_Message e |}) (dec_int 64));
  ("message"%string, field re_Message (fun v e => {| re_Code := re_Code e; re_Message := v |}) dec_string)].

Definition dec_rpc_response : decoder tatumRPCResponse := dec_struct [
  ("result"%string, field rpc_Result (fun v r => {| rpc_Result := v; rpc_Error := rpc_Error r; rpc_ID := rpc_ID r |}) dec_raw);
  ("error"%string, field rpc_Error (fun v r => {| rpc_Result := rpc_Result r; rpc_Error := v; rpc_ID := rpc_ID r |})
                     (dec_ptr {| re_Code := 0; re_Message := "" |} dec_rpc_error));
  ("id"%string, field rpc_ID (fun v r => {| rpc_Result := rpc_Result r; rpc_Error := rpc_Error r; rpc_ID := v |}) (dec_int 64))].

(** A verbose transaction; absent members stay nil. *)
Record rawTransaction := { rt_Confirmations : option Z; rt_BlockHash : option string; rt_BlockHeight : option Z }.

Definition dec_raw_transaction : decoder rawTransaction :=
  let mk c x h := {| rt_Confirmations := c; rt_BlockHash := x; rt_BlockHeight := h |} in
  dec_struct [
    ("confirmations"%string, field rt_Confirmations (fun v t => mk v (rt_BlockHash t) (rt_BlockHeight t)) (dec_ptr 0 (dec_int 64)));
    ("blockhash"%string, field rt_BlockHash (fun v t => mk (rt_Confirmations t) v (rt_BlockHeight t)) (dec_ptr ""%string dec_string));
    ("blockheight"%string, field rt_BlockHeight (fun v t => mk (rt_Confirmations t) (rt_BlockHash t) v) (dec_ptr 0 (dec_int 64)))].

Record smartFee := { sf_FeeRate : f64; sf_Blocks : Z; sf_Errors : list string }.

Definition dec_smart_fee : decoder smartFee :=
  let mk r b e := {| sf_FeeRate := r; sf_Blocks := b; sf_Errors := e |} in
  dec_struct [
    ("feerate"%string, field sf_FeeRate (fun v f => mk v (sf_Blocks f) (sf_Errors f)) dec_float);
    ("blocks"%string, field sf_Blocks (fun v f => mk (sf_FeeRate f) v (sf_Errors f)) (dec_int 64));
    ("errors"%string, field sf_Errors (fun v f => mk (sf_FeeRate f) (sf_Blocks f) v) (dec_slice ""%string dec_string))].

(** ** Operations *)

Section operations.
Context {W : Type} `{HttpWorld W, JsonErrors, GoArchU}.
Implicit Types t : tatumProvider.

(** [Unmarshal] of a raw result; a missing one is the empty text. *)
Definition Unmarshal_raw {A} (d : decoder A) (zero : A) (raw : option json) : result A :=
  match raw with
  | None => Err (json_syntax_error "")
  | Some j => match d j zero with Some a => Ok a | None => Err (json_type_error (print_json j)) end
  end.

Definition tatum_request t (method : string) (params : json) : httpRequest := {|
  hq_Timeout := 30 * Second; hq_Method := "POST"; hq_URL := ta_baseURL t;
  hq_Headers := ("Content-Type", "application/json")%string
    :: if bool_decide (ta_apiKey t = ""%string) then [] else [("x-api-key"%string, ta_apiKey t)];
  hq_Body := print_json (tatumRPCRequest method params) |}.

Definition tatum_call t (ctx : context) (method : string) (params : json) : M W (option json) :=
  let rq := tatum_request t method params in
  on_error (wrapping "create request") (new_request (hq_URL rq));;
  resp ← on_error (wrapping "request failed") (client_do ctx rq);
  respBody ← on_error (wrapping "read response") (of_result (ReadAll resp));
  let status := hs_StatusCode resp in
  let text := "HTTP " +:+ format_int status +:+ ": " +:+ respBody in
  if negb (status =? 200) then
    if (status =? 401) || (status =? 403)
    then fail (errWrap (text +:+ ": ") (errSentinel ErrAuthFailure) "")
    else fail (errOther text)
  else
    rpcResp ← on_error (wrapping "parse RPC response")
                (of_result (Unmarshal dec_rpc_response {| rpc_Result := None; rpc_Error := None; rpc_ID := 0 |} respBody));
    match rpc_Error rpcResp with
    | Some e => fail (errOther ("RPC error " +:+ format_int (re_Code e) +:+ ": " +:+ re_Message e))
    | None => mret (rpc_Result rpcResp)
    end.

Definition tatum_PushTx t (ctx : context) (rawTx : list Byte.byte) : M W string :=
  result ← on_error (wrapping "broadcast transaction")
             (tatum_call t ctx "sendrawtransaction" (JArray [JString (hex_encode (byte_values rawTx))]));
  on_error (wrapping "parse txid") (of_result (Unmarshal_raw dec_string ""%string result)).

Definition tatum_GetTxStatus t (ctx : context) (txID : string) : M W TxConfirmationStatus :=
  result ← on_error (wrapping ("fetch tx status " +:+ txID))
             (tatum_call t ctx "getrawtransaction" (JArray [JString txID; JBool true]));
  tx ← on_error (wrapping "parse tx status response")
         (of_result (Unmarshal_raw dec_raw_transaction
            {| rt_Confirmations := None; rt_BlockHash := None; rt_BlockHeight := None |} result));
  match rt_Confirmations tx with
  | None | Some 0 =>
      mret {| tcs_Confirmed := false; tcs_Confirmations := 0; tcs_BlockHeight := 0; tcs_BlockHash := "" |}
  | Some n =>
      mret {| tcs_Confirmed := true; tcs_Confirmations := n; tcs_BlockHeight := default 0 (rt_BlockHeight tx);
              tcs_BlockHash := default ""%string (rt_BlockHash tx) |}
  end.

(** [authErr.Error()], empty for nil. *)
Definition auth_text (e : option error) : string := match e with Some e => err_msg e | None => "" end.

Definition tatum_CheckHealth t (ctx : context) (w : W) : go (HealthStatus * W) :=
  let '(start, w) := hw_now w in
  '(r, w) ← tatum_call t ctx "getblockchaininfo" (JArray []) w;
  let '(stop, w) := hw_now w in
  let d := time_sub stop start in
  let ms := duration_ms d in
  let us := duration_us d in
  let '(checked, w) := hw_now w in
  let report level http err degraded :=
    with_auth (ta_authValid t) (auth_text (ta_authErr t)) degraded (plain_health level ms us http err checked) in
  Some (
    (if bool_decide (ta_authValid t = Some false)
     then report HealthLevelDown 0 "authentication failed"%string true
     else match r with
     | Err e => report HealthLevelDown 0 (err_msg e) false
     | Ok raw =>
         match Unmarshal_raw (dec_struct [("blocks"%string, dec_int 64)]) 0 raw with
         | Ok blocks =>
             if blocks =? 0 then report HealthLevelDegraded 0 "unexpected getblockchaininfo response"%string false
             else if 2000 <? ms then report HealthLevelDegraded 200 "slow response"%string false
             else report HealthLevelHealthy 200 ""%string false
         | Err _ => report HealthLevelDegraded 0 "unexpected getblockchaininfo response"%string false
         end
     end), w).

Definition tatum_GetCapabilities t : list ProviderCapability :=
  [CapabilityAPIKeyValidation; CapabilityTxBroadcast; CapabilityTxStatusFetching; CapabilityFeeRecommending].

(** On the client and the environment; the client's state changes on 401, 403 and 200 only. *)
Definition tatum_ValidateAPIKey (ctx : context) (s : tatumProvider * W) : option error * (tatumProvider * W) :=
  let '(t, w) := s in
  let rq := tatum_request t "getblockcount" (JArray []) in
  match hw_url (hq_URL rq) with
  | Some e => (Some (wrapping "create request" e), (t, w))
  | None =>
      let '(r, w) := hw_do ctx rq w in
      match r with
      | Err e => (Some (wrapping "validate API key" e), (t, w))
      | Ok resp =>
          let status := hs_StatusCode resp in
          if (status =? 401) || (status =? 403) then
            let authErr := errWrap ("invalid API key or credentials (HTTP " +:+ format_int status +:+ "): ")
                             (errSentinel ErrAuthFailure) "" in
            (Some authErr, (tatum_setAuthState false (Some authErr) t, w))
          else if negb (status =? 200)
          then (Some (errOther ("unexpected HTTP status " +:+ format_int status)), (t, w))
          else (None, (tatum_setAuthState true None t, w))
      end
  end.

(** The rate in satoshis per virtual byte of one in BTC per kilobyte. *)
Definition sat_per_vbyte (rate : f64) : Z :=
  let r := f64_to_uint64 (f64_round (f64_div (f64_mul rate (f64_of_Z 100000000)) (f64_of_Z 1000))) in
  if r <? 1 then 1 else r.

(** The tier of an estimate for a target. *)
Definition smart_tier (targetBlocks : Z) (resp : smartFee) : result FeeTier :=
  match sf_Errors resp with
  | _ :: _ => Err (errOther ("estimatesmartfee: " +:+ String.concat "; " (sf_Errors resp)))
  | [] =>
      if f64_leb (sf_FeeRate resp) f64_zero
      then Err (errOther ("no fee data for target " +:+ format_int targetBlocks +:+ " blocks"))
      else Ok {| ft_FeeRate := sat_per_vbyte (sf_FeeRate resp);
                 ft_TargetBlock := if sf_Blocks resp =? 0 then targetBlocks else sf_Blocks resp |}
  end.

Definition estimateFeeForTarget t (ctx : context) (targetBlocks : Z) : M W FeeTier :=
  result ← on_error (wrapping ("estimate fee for " +:+ format_int targetBlocks +:+ " blocks"))
             (tatum_call t ctx "estimatesmartfee" (JArray [JNumber (format_int targetBlocks)]));
  resp ← on_error (wrapping "parse fee estimate response")
           (of_result (Unmarshal_raw dec_smart_fee {| sf_FeeRate := f64_zero; sf_Blocks := 0; sf_Errors := [] |} result));
  of_result (smart_tier targetBlocks resp).

(** The loop over the priorities; a failed estimate is left out. *)
Fixpoint estimate_loop t (ctx : context) (priorities : list FeePriority) : M W (list FeeTier) :=
  match priorities with
  | [] => mret []
  | p :: priorities =>
      r ← try (estimateFeeForTarget t ctx (TargetBlock p));
      rest ← estimate_loop t ctx priorities;
      mret (match r with Ok tier => tier :: rest | Err _ => rest end)
  end.

Definition tatum_priorities : list FeePriority :=
  [FeePriorityFastest; FeePriorityFast; FeePriorityMedium; FeePrioritySlow; FeePriorityMinimum].

Definition tatum_GetTxFees t (ctx : context) : M W (list FeeTier) :=
  tiers ← estimate_loop t ctx tatum_priorities;
  match tiers with
  | [] => fail (errOther "no fee estimates available: node may lack sufficient data")
  | _ => mret tiers
  end.

Definition tatum_GetTxFee t (ctx : context) (priority : FeePriority) : M W FeeTier :=
  estimateFeeForTarget t ctx (TargetBlock priority).
End operations.

(** ** The requests read back *)

(** The values a request body is made of. *)
Lemma rpc_request_plain method params :
  str_all is_ascii method = true -> plain_json params = true -> plain_json (tatumRPCRequest method params) = true.
Proof. intros Hm Hp. cbn. by rewrite Hm, Hp. Qed.
