(* ===== verification/Rates.v ===== *)
(** * Exchange-rate clients

    [bitcoin/providers/binance.go] and [coingecko.go]. *)

From Stdlib Require Import Ascii SpecFloat.
From S2P Require Import Prelude GoInt GoFloat GoString GoCodec GoNum GoJson GoDecode.
From S2P Require Import Config RateLimit Sorting Penalties Scorer ScoringConfig Latency Events.
From S2P Require Import Decay Store Engine EngineStore Selection Manager RunOp Bitcoin.
From S2P Require Import Providers HttpApi.

Definition CurrencyUSD : Currency := "USD"%string.
Definition CurrencyEUR : Currency := "EUR"%string.

(** A rate without source and network, as these clients leave them. *)
Definition bare_rate (coin : CoinTicker) (currency : Currency) (rate : bigFloat) (t : Time) : CoinRate := {|
  cr_Rate := rate; cr_Timestamp := t; cr_Network := ""%string; cr_Source := ""%string; cr_Currency := currency;
  cr_Coin := coin |}.

(** [time.Unix(0, 0)], in nanoseconds from the zero time. *)
Definition unix_epoch : Time := 62135596800 * Second.

Definition time_Unix (t : Time) : Z := (t - unix_epoch) / Second.
Definition time_UnixMilli (ms : Z) : Time := unix_epoch + ms * Millisecond.

(** The [%v] verb of a time; its layout names the location and is left open. *)
Class TimeText := time_text : Time -> string.

Section binance.
Context {W : Type} `{HttpWorld W, JsonErrors}.

Definition binanceBaseURL : string := "https://api.binance.com".

Definition binance_Name : string := "Binance".

Definition currencyToSymbol (currency : Currency) : option string :=
  if bool_decide (currency = CurrencyUSD) then Some "BTCUSDT"%string
  else if bool_decide (currency = CurrencyEUR) then Some "BTCEUR"%string
  else None.

Definition binance_get (path : string) : httpRequest := {|
  hq_Timeout := 30 * Second; hq_Method := "GET"; hq_URL := binanceBaseURL +:+ path; hq_Headers := []; hq_Body := "" |}.

Record ticker := { tk_Symbol : string; tk_Price : string }.

Definition dec_ticker : decoder ticker := dec_struct [
  ("symbol"%string, field tk_Symbol (fun v t => {| tk_Symbol := v; tk_Price := tk_Price t |}) dec_string);
  ("price"%string, field tk_Price (fun v t => {| tk_Symbol := tk_Symbol t; tk_Price := v |}) dec_string)].

(** [strconv.ParseFloat] with the text of its error. *)
Definition ParseFloat (s : string) : result f64 :=
  match parse_float s with
  | FloatOk x => Ok x
  | FloatRange _ => Err (errOther ("strconv.ParseFloat: parsing " +:+ quote s +:+ ": value out of range"))
  | FloatSyntax => Err (errOther ("strconv.ParseFloat: parsing " +:+ quote s +:+ ": invalid syntax"))
  end.

Definition binance_fetchPrice (ctx : context) (symbol : string) : M W f64 :=
  let rq := binance_get ("/api/v3/ticker/price?symbol=" +:+ symbol) in
  new_request (hq_URL rq);;
  resp ← client_do ctx rq;
  if negb (hs_StatusCode resp =? 200) then fail (errOther (http_text resp))
  else
    t ← of_result (Decode dec_ticker {| tk_Symbol := ""; tk_Price := "" |} (hs_Body resp) (hs_BodyErr resp));
    on_error (wrapping ("failed to parse price " +:+ quote (tk_Price t))) (of_result (ParseFloat (tk_Price t))).

Definition binance_GetExchangeRate (ctx : context) (coin : CoinTicker) (currency : Currency) : M W CoinRate :=
  if negb (bool_decide (coin = CoinTickerBTC)) then fail (CoinNotSupportedError (BlockchainString coin))
  else match currencyToSymbol currency with
  | None => fail (CurrencyNotSupportedError currency)
  | Some symbol =>
      price ← binance_fetchPrice ctx symbol;
      rate ← of_go (NewFloat price);
      t ← now;
      mret (bare_rate coin currency rate t)
  end.

(** The loop over the supported currencies; a failure ends it. *)
Fixpoint binance_loop (ctx : context) (coin : CoinTicker) (supported : list (Currency * string)) : M W (list CoinRate) :=
  match supported with
  | [] => mret []
  | (currency, symbol) :: supported =>
      price ← binance_fetchPrice ctx symbol;
      rate ← of_go (NewFloat price);
      t ← now;
      rest ← binance_loop ctx coin supported;
      mret (bare_rate coin currency rate t :: rest)
  end.

Definition binance_GetExchangeRates (ctx : context) (coin : CoinTicker) : M W (list CoinRate) :=
  if negb (bool_decide (coin = CoinTickerBTC)) then fail (CoinNotSupportedError (BlockchainString coin))
  else binance_loop ctx coin [(CurrencyUSD, "BTCUSDT"%string); (CurrencyEUR, "BTCEUR"%string)].

Definition binance_CheckHealth (ctx : context) : W -> HealthStatus * W := check_endpoint ctx (binance_get "/api/v3/ping").

Definition binance_GetCapabilities : list ProviderCapability := [CapabilityRateFetching].
End binance.

(** ** CoinGecko *)

Record coingecko := {
  cg_baseURL : string;
  cg_apiKey : string;
  cg_authValid : option bool;
  cg_authErr : option error
}.

Definition NewCoingecko (baseURL apiKey : string) : coingecko := {|
  cg_baseURL := if bool_decide (baseURL = ""%string) then "https://api.coingecko.com/api/v3"%string else baseURL;
  cg_apiKey := apiKey; cg_authValid := None; cg_authErr := None |}.

Definition coingecko_Name (s : coingecko) : string := "Coingecko".

Definition coingecko_setAuth (valid : option bool) (err : option error) (s : coingecko) : coingecko := {|
  cg_baseURL := cg_baseURL s; cg_apiKey := cg_apiKey s; cg_authValid := valid; cg_authErr := err |}.

Definition coingecko_get (s : coingecko) (path : string) (headers : list (string * string)) : httpRequest := {|
  hq_Timeout := 30 * Second; hq_Method := "GET"; hq_URL := cg_baseURL s +:+ path;
  hq_Headers := headers
    ++ (if bool_decide (cg_apiKey s = ""%string) then [] else [("x-cg-pro-api-key"%string, cg_apiKey s)]);
  hq_Body := "" |}.

Definition dec_prices_by_coin : decoder (gmap string (gmap string f64)) := dec_map ∅ (dec_map f64_zero dec_float).

(** The quoted currencies of [GetExchangeRates]. *)
Definition coingecko_currencies : string :=
  "usd,eur,gbp,jpy,aud,cad,chf,cny,krw,brl,sgd,sek,nzd,hkd,nok,pln,zar,rub,try".

Section coingecko.
Context {W : Type} `{HttpWorld W, JsonErrors, MapRange, GoArch, TimeText}.
Implicit Types s : coingecko.

(** Send a request and require 200; 401 and 403 are authentication failures. *)
Definition coingecko_fetch (ctx : context) (rq : httpRequest) : M W httpResponse :=
  new_request (hq_URL rq);;
  resp ← client_do ctx rq;
  let status := hs_StatusCode resp in
  if negb (status =? 200) then
    if (status =? 401) || (status =? 403)
    then fail (errWrap (http_text resp +:+ ": ") (errSentinel ErrAuthFailure) "")
    else fail (errOther (http_text resp))
  else mret resp.

(** The inner loop, over the prices of one coin. *)
Fixpoint coin_prices_loop (coin : string) (prices : list (string * f64)) : M W (list CoinRate) :=
  match prices with
  | [] => mret []
  | (currencyName, price) :: prices =>
      rate ← of_go (NewFloat price);
      if bool_decide (coin = "bitcoin"%string) then
        t ← now;
        rest ← coin_prices_loop coin prices;
        mret (bare_rate CoinTickerBTC currencyName rate t :: rest)
      else fail (CoinNotSupportedError coin)
  end.

Fixpoint coins_loop (l : list (string * gmap string f64)) : M W (list CoinRate) :=
  match l with
  | [] => mret []
  | (coin, currency) :: l =>
      rates ← coin_prices_loop coin (range_kv currency);
      rest ← coins_loop l;
      mret (rates ++ rest)
  end.

Definition coingecko_GetExchangeRates s (ctx : context) (coin : CoinTicker) : M W (list CoinRate) :=
  resp ← coingecko_fetch ctx (coingecko_get s ("/simple/price?ids=" +:+ CoingeckoString coin +:+ "&vs_currencies="
                                                +:+ coingecko_currencies) []);
  currencyMap ← of_result (Decode dec_prices_by_coin ∅ (hs_Body resp) (hs_BodyErr resp));
  coins_loop (range_kv currencyMap).

Definition coingecko_GetExchangeRate s (ctx : context) (coin : CoinTicker) (currency : Currency) : M W CoinRate :=
  resp ← coingecko_fetch ctx (coingecko_get s ("/simple/price?ids=" +:+ CoingeckoString coin +:+ "&vs_currencies="
                                                +:+ currency) []);
  priceMap ← of_result (Decode dec_prices_by_coin ∅ (hs_Body resp) (hs_BodyErr resp));
  match priceMap !! CoingeckoString coin with
  | None => fail (CoinNotSupportedError (CoingeckoString coin))
  | Some coinPrices =>
      match coinPrices !! to_lower currency with
      | None => fail (CurrencyNotSupportedError currency)
      | Some price =>
          rate ← of_go (NewFloat price);
          t ← now;
          mret (bare_rate coin currency rate t)
      end
  end.

(** The points of a series; those with fewer than two members are skipped. *)
Fixpoint chart_points (coin : CoinTicker) (currency : Currency) (prices : list (list f64)) : go (list CoinRate) :=
  match prices with
  | [] => Some []
  | (ts :: price :: _) :: prices =>
      rate ← NewFloat price;
      rest ← chart_points coin currency prices;
      Some ({| cr_Rate := rate; cr_Timestamp := time_UnixMilli (f64_to_int ts); cr_Network := ""%string;
               cr_Source := "Coingecko"; cr_Currency := currency; cr_Coin := coin |} :: rest)
  | _ :: prices => chart_points coin currency prices
  end.

Definition coingecko_GetHistoricalRates s (ctx : context) (coin : CoinTicker) (currency : Currency) (since until : Time)
    : M W (list CoinRate) :=
  if time_is_zero since || time_is_zero until || negb (time_before since until)
  then fail (errOther ("coingecko: invalid window since=" +:+ time_text since +:+ " until=" +:+ time_text until))
  else
    resp ← coingecko_fetch ctx (coingecko_get s
             ("/coins/" +:+ to_lower (CoingeckoString coin) +:+ "/market_chart/range?vs_currency=" +:+ to_lower currency
              +:+ "&from=" +:+ format_int (time_Unix since) +:+ "&to=" +:+ format_int (time_Unix until))
             [("User-Agent", "chainkit-sdk/1 (+https://github.com/exapsy/chainkit)")]%string);
    prices ← on_error (wrapping "decode coingecko market_chart")
               (of_result (Decode (dec_struct [("prices"%string, dec_slice [] (dec_slice f64_zero dec_float))]) []
                             (hs_Body resp) (hs_BodyErr resp)));
    of_go (chart_points coin currency prices).

Definition coingecko_CheckHealth s (ctx : context) (w : W) : HealthStatus * W :=
  let '(p, w) := probe ctx (coingecko_get s "/ping" []) w in
  let '(t, w) := hw_now w in
  (match p with
   | ProbeAnswered _ _ _ => degrade (cg_authValid s) (cg_authErr s) (probe_report p t)
   | _ => probe_report p t
   end, w).

Definition coingecko_GetCapabilities s : list ProviderCapability := [CapabilityAPIKeyValidation; CapabilityRateFetching].

(** The error returned is the one kept. *)
Definition coingecko_ValidateAPIKey (ctx : context) (st : coingecko * W) : option error * (coingecko * W) :=
  let '(s, w) := st in
  let reject e w := (Some e, (coingecko_setAuth (Some false) (Some e) s, w)) in
  if bool_decide (cg_apiKey s = ""%string) then (None, (coingecko_setAuth None None s, w))
  else
    let rq := coingecko_get s "/ping" [] in
    match hw_url (hq_URL rq) with
    | Some e => reject (wrapping "create request" e) w
    | None =>
        let '(r, w) := hw_do ctx rq w in
        match r with
        | Err e => reject (wrapping "validate API key" e) w
        | Ok resp =>
            let status := hs_StatusCode resp in
            if (status =? 401) || (status =? 403)
            then reject (errWrap ("invalid API key (HTTP " +:+ format_int status +:+ "): ") (errSentinel ErrAuthFailure) "") w
            else if status =? 429 then reject (errOther "rate limit exceeded") w
            else (None, (coingecko_setAuth (Some true) None s, w))
        end
    end.
End coingecko.
