(* ===== verification/Bitref.v ===== *)
(** * The Bitref.com and Blockchain.com clients

    [bitcoin/providers/bitrefcom.go] and [blockchaincom.go]. *)

From Stdlib Require Import Ascii SpecFloat.
From S2P Require Import Prelude GoInt GoFloat GoString GoCodec GoNum GoJson GoDecode.
From S2P Require Import Config RateLimit Sorting Penalties Scorer ScoringConfig Latency Events.
From S2P Require Import Decay Store Engine EngineStore Selection Manager RunOp Bitcoin.
From S2P Require Import Providers HttpApi.

(** ** Bitref.com *)

Record Bitrefcom := { br_apiKey : string; br_baseURL : string }.

Definition NewBitrefcom (apiKey baseURL : string) : Bitrefcom := {|
  br_apiKey := apiKey;
  br_baseURL := if bool_decide (baseURL = ""%string) then "https://api.bitref.com"%string else baseURL |}.

Definition Bitrefcom_Name (b : Bitrefcom) : string := "Bitrefcom".

(** A request, with its content type when it has a body to post. *)
Definition bitref_request (b : Bitrefcom) (method endpoint : string) (body : option string) : httpRequest := {|
  hq_Timeout := 30 * Second; hq_Method := method; hq_URL := br_baseURL b +:+ endpoint;
  hq_Headers := ("X-Api-Key"%string, br_apiKey b)
    :: match body with
       | Some _ => if bool_decide (method = "POST" \/ method = "PUT")%string
                   then [("Content-Type", "application/json")]%string else []
       | None => []
       end;
  hq_Body := default ""%string body |}.

(** [fmt.Sscanf(s, "%d", &n)]: leading spaces (not newlines), a sign and
    digits; what follows is ignored. *)
Fixpoint scan_spaces (s : string) : option string :=
  match s with
  | String c r =>
      if code c =? 10 then None
      else if is_space c then scan_spaces r
      else Some s
  | EmptyString => None
  end.

Definition Sscanf_d (s : string) : option Z :=
  s ← scan_spaces s;
  match s with
  | String c r =>
      let signed := bool_decide (c = "+"%char \/ c = "-"%char) in
      let digits := (take_digits (if signed then r else s)).1 in
      match digits with
      | EmptyString => None
      | _ => parse_int64 (if signed then String c digits else digits)
      end
  | EmptyString => None
  end.

(** [uint64(math.Round(f))], at least one. *)
Definition at_least_one `{GoArchU} (f : f64) : Z :=
  let r := f64_to_uint64 (f64_round f) in if r <? 1 then 1 else r.

Record feeResponse := { fe_FeeRate : f64; fe_Blocks : Z }.

Definition dec_fee_response : decoder feeResponse := dec_struct [
  ("feerate"%string, field fe_FeeRate (fun v f => {| fe_FeeRate := v; fe_Blocks := fe_Blocks f |}) dec_float);
  ("blocks"%string, field fe_Blocks (fun v f => {| fe_FeeRate := fe_FeeRate f; fe_Blocks := v |}) (dec_int 64))].

Record balanceResponse := { br_ConfirmedBalance : Z; br_UnconfirmedBalance : Z }.

Definition dec_balance_response : decoder balanceResponse := dec_struct [
  ("confirmed_balance"%string,
    field br_ConfirmedBalance (fun v b => {| br_ConfirmedBalance := v; br_UnconfirmedBalance := br_UnconfirmedBalance b |}) (dec_uint 64));
  ("unconfirmed_balance"%string,
    field br_UnconfirmedBalance (fun v b => {| br_ConfirmedBalance := br_ConfirmedBalance b; br_UnconfirmedBalance := v |}) (dec_uint 64))].

Section bitref.
Context {W : Type} `{HttpWorld W, JsonErrors, MapRange, GoArchU}.
Implicit Types b : Bitrefcom.

Definition bitref_callAPI b (ctx : context) (method endpoint : string) (body : option string) : M W string :=
  if bool_decide (br_baseURL b = ""%string) then fail (errOther "base URL not set")
  else if bool_decide (br_apiKey b = ""%string) then fail (errOther "API key not set")
  else if bool_decide (endpoint = ""%string) then fail (errOther "endpoint not set")
  else
    let rq := bitref_request b method endpoint body in
    new_request (hq_URL rq);;
    resp ← client_do ctx rq;
    let status := hs_StatusCode resp in
    if negb (status =? 200) then
      if (status =? 401) || (status =? 403)
      then fail (errWrap (http_text resp +:+ ": ") (errSentinel ErrAuthFailure) "")
      else fail (errOther (http_text resp))
    else of_result (ReadAll resp).

Definition bitref_GetTxFee b (ctx : context) (priority : FeePriority) : M W FeeTier :=
  body ← bitref_callAPI b ctx "GET" ("/v1/fees/estimate/" +:+ format_int (TargetBlock priority)) None;
  resp ← of_result (Unmarshal dec_fee_response {| fe_FeeRate := f64_zero; fe_Blocks := 0 |} body);
  mret {| ft_FeeRate := at_least_one (fe_FeeRate resp); ft_TargetBlock := fe_Blocks resp |}.

(** The tier of one member; a key that is not a number is skipped. *)
Definition bitref_tier (kv : string * f64) : list FeeTier :=
  match Sscanf_d kv.1 with
  | Some blockNum => [{| ft_FeeRate := at_least_one kv.2; ft_TargetBlock := blockNum |}]
  | None => []
  end.

Definition bitref_GetTxFees b (ctx : context) : M W (list FeeTier) :=
  body ← bitref_callAPI b ctx "GET" "/v1/fees/estimates" None;
  resp ← of_result (Unmarshal (dec_map f64_zero dec_float) ∅ body);
  mret (concat (map bitref_tier (range_kv resp))).

Definition broadcast_body (rawTx : list Byte.byte) : json :=
  JObject [("rawTx"%string, JString (hex_encode (byte_values rawTx)))].

Definition bitref_PushTx b (ctx : context) (rawTx : list Byte.byte) : M W string :=
  body ← on_error (wrapping "broadcast transaction")
           (bitref_callAPI b ctx "POST" "/v1/tx/broadcast" (Some (print_json (broadcast_body rawTx))));
  on_error (wrapping "parse response") (of_result (Unmarshal (dec_struct [("txId"%string, dec_string)]) ""%string body)).

Definition fetchBalanceData b (ctx : context) (address : string) : M W balanceResponse :=
  body ← on_error (wrapping "fetch address details")
           (bitref_callAPI b ctx "GET" ("/v1/address/" +:+ address +:+ "/balance") None);
  on_error (wrapping "parse response")
    (of_result (Unmarshal dec_balance_response {| br_ConfirmedBalance := 0; br_UnconfirmedBalance := 0 |} body)).

Definition bitref_GetBalance b (ctx : context) (address : string) : M W Balance :=
  resp ← fetchBalanceData b ctx address;
  mret {| bal_Confirmed := br_ConfirmedBalance resp; bal_Unconfirmed := br_UnconfirmedBalance resp;
          bal_Total := wrapu64 (br_ConfirmedBalance resp + br_UnconfirmedBalance resp) |}.

(** The probe has a client of its own, with a timeout of five seconds. *)
Definition bitref_CheckHealth b (ctx : context) (w : W) : HealthStatus * W :=
  if bool_decide (br_baseURL b = ""%string) then
    let '(_, w) := hw_now w in
    let '(t, w) := hw_now w in
    (plain_health HealthLevelDown 0 0 0 "Bitref.com only supports Bitcoin mainnet" t, w)
  else check_endpoint ctx {|
    hq_Timeout := 5 * Second; hq_Method := "GET"; hq_URL := br_baseURL b +:+ "/v1/fees/estimates";
    hq_Headers := if bool_decide (br_apiKey b = ""%string) then [] else [("X-API-Key"%string, br_apiKey b)];
    hq_Body := "" |} w.

Definition bitref_GetCapabilities b : list ProviderCapability :=
  [CapabilityBalanceFetching; CapabilityFeeRecommending; CapabilityFeeEstimation; CapabilityTxBroadcast].
End bitref.

(** ** Blockchain.com *)

Definition blockchainComBaseURL : string := "https://blockchain.info".

Definition blockchainCom_Name : string := "BlockchainCom".

(** The loop that reverses the bytes in place, from both ends. *)
Fixpoint swap_ends (fuel i j : nat) (l : list Z) : list Z :=
  match fuel with
  | O => l
  | S fuel => if (i <? j)%nat then swap_ends fuel (S i) (j - 1) (<[i := nth j l 0]> (<[j := nth i l 0]> l)) else l
  end.

Definition computeTxID (rawTx : list Byte.byte) : string :=
  let second := sha256 (sha256 (byte_values rawTx)) in
  hex_encode (swap_ends (length second) 0 (length second - 1) second).

Section blockchainCom.
Context {W : Type} `{HttpWorld W}.

Definition blockchainCom_request (method path : string) (headers : list (string * string)) (body : string) : httpRequest := {|
  hq_Timeout := 30 * Second; hq_Method := method; hq_URL := blockchainComBaseURL +:+ path; hq_Headers := headers;
  hq_Body := body |}.

Definition blockchainCom_GetBalance (ctx : context) (address : string) : M W Balance :=
  let rq := blockchainCom_request "GET" ("/q/addressbalance/" +:+ address) [] "" in
  on_error (wrapping "create request") (new_request (hq_URL rq));;
  resp ← on_error (wrapping ("fetch balance for " +:+ address)) (client_do ctx rq);
  if hs_StatusCode resp =? 404 then mret {| bal_Confirmed := 0; bal_Unconfirmed := 0; bal_Total := 0 |}
  else if negb (hs_StatusCode resp =? 200) then fail (errOther (http_text resp))
  else
    body ← on_error (wrapping "read response body") (of_result (ReadAll resp));
    let text := trim_space body in
    match parse_uint 64 text with
    | Some sats => mret {| bal_Confirmed := sats; bal_Unconfirmed := 0; bal_Total := sats |}
    | None =>
        let what := match parse_digits (take_digits text).1 0 with
                    | Some n => if (2 ^ 64 <=? n)%Z then "value out of range" else "invalid syntax"
                    | None => "invalid syntax"
                    end%string in
        fail (wrapping "parse balance" (errOther ("strconv.ParseUint: parsing " +:+ quote text +:+ ": " +:+ what)))
    end.

Definition blockchainCom_PushTx (ctx : context) (rawTx : list Byte.byte) : M W string :=
  let rq := blockchainCom_request "POST" "/pushtx" [("Content-Type", "application/x-www-form-urlencoded")]%string
              ("tx=" +:+ query_escape (hex_encode (byte_values rawTx))) in
  on_error (wrapping "create request") (new_request (hq_URL rq));;
  resp ← on_error (wrapping "broadcast transaction") (client_do ctx rq);
  respBody ← on_error (wrapping "read response body") (of_result (ReadAll resp));
  if negb (hs_StatusCode resp =? 200) then fail (errOther ("HTTP " +:+ format_int (hs_StatusCode resp) +:+ ": " +:+ respBody))
  else if String.prefix "Failed" (trim_space respBody)
  then fail (errOther ("transaction rejected by BlockchainCom: " +:+ trim_space respBody))
  else mret (computeTxID rawTx).

Definition blockchainCom_CheckHealth (ctx : context) : W -> HealthStatus * W :=
  check_endpoint ctx (blockchainCom_request "GET" "/q/getblockcount" [] "").

Definition blockchainCom_GetCapabilities : list ProviderCapability := [CapabilityBalanceFetching; CapabilityTxBroadcast].
End blockchainCom.
