(* ===== verification/Blockcypher.v ===== *)
(** * The BlockCypher client

    [bitcoin/providers/blockcypher.go], over the vendor's client library as a
    parameter, with the authentication state of [ValidateAPIKey]. *)

From Stdlib Require Import Ascii SpecFloat Strings.Byte.
From S2P Require Import Prelude GoInt GoFloat GoString GoCodec GoNum GoJson GoDecode.
From S2P Require Import Config RateLimit Sorting Penalties Scorer ScoringConfig Latency Events.
From S2P Require Import Decay Store Engine EngineStore Selection Manager RunOp Bitcoin.
From S2P Require Import Providers HttpApi.

(** ** The vendor's library *)

(** [gobcy.API]. *)
Record gobcyAPI := { gc_Token : string; gc_Coin : string; gc_Chain : string }.

Record TXRef := {
  xr_TXHash : string;
  xr_TXOutputN : Z;
  xr_Value : Z;
  xr_Spent : bool;
  xr_Confirmations : Z;
  xr_Script : string
}.

Record Addr := { ad_Balance : Z; ad_UnconfirmedBalance : Z; ad_TXRefs : list TXRef }.

Record gobcyTX := { gx_Confirmed : Time; gx_BlockHeight : Z; gx_Confirmations : Z; gx_BlockHash : string }.

(** Its calls act on the environment; the context does not reach them. *)
Class Gobcy (W : Type) := {
  GetAddr : gobcyAPI -> string -> list (string * string) -> W -> result Addr * W;
  PushTX : gobcyAPI -> string -> W -> result string * W;
  GetTX : gobcyAPI -> string -> W -> result gobcyTX * W
}.

(** ** Data *)

Record blockcypher := {
  by_Client : gobcyAPI;
  by_authValid : option bool;
  by_authErr : option error
}.

Definition NewBlockcypher (apiKey : string) (network : BitcoinNetwork) : option blockcypher :=
  let '(chain, ok) := BlockcypherChain network in
  if negb ok then None
  else Some {| by_Client := {| gc_Token := apiKey; gc_Coin := "btc"; gc_Chain := chain |};
               by_authValid := None; by_authErr := None |}.

Definition blockcypher_Name (p : blockcypher) : string := "Blockcypher".

(** [hex.DecodeString] with its error ignored: the bytes before it. *)
Fixpoint hex_decode_prefix (s : string) : list Z :=
  match s with
  | String a (String b s) =>
      match hex_val a, hex_val b with
      | Some x, Some y => 16 * x + y :: hex_decode_prefix s
      | _, _ => []
      end
  | _ => []
  end.

Definition to_bytes (l : list Z) : list Byte.byte := map (fun z => default x00 (Byte.of_N (Z.to_N z))) l.

(** [uint32(n)]. *)
Definition wrapu32_of (n : Z) : Z := n mod 2 ^ 32.

(** The output a reference stands for; inputs and spent outputs are left out. *)
Definition blockcypher_utxo (address : string) (r : TXRef) : list UTXO :=
  if xr_Spent r || (xr_TXOutputN r <? 0) then []
  else [{| utxo_TxHash := xr_TXHash r; utxo_Vout := wrapu32_of (xr_TXOutputN r); utxo_Amount := wrap64 (xr_Value r);
           utxo_ScriptPubKey := Some (to_bytes (hex_decode_prefix (xr_Script r))); utxo_Address := address;
           utxo_Confirmed := 0 <? xr_Confirmations r; utxo_Confirmations := xr_Confirmations r;
           utxo_Spendable := false; utxo_BlockHeight := 0 |}].

(** ** Operations *)

Section operations.
Context {W : Type} `{HttpWorld W, JsonErrors, Gobcy W}.
Implicit Types p : blockcypher.

Definition vendor {A} (f : W -> result A * W) : M W A := fun w => Some (f w).

Definition blockcypher_GetUTXOs p (ctx : context) (address : string) : M W (list UTXO) :=
  addr ← on_error (wrapping ("fetch address " +:+ address))
           (vendor (GetAddr (by_Client p) address [("unspent", "true")]%string));
  mret (concat (map (blockcypher_utxo address) (ad_TXRefs addr))).

Definition blockcypher_ValidateAddress p (ctx : context) (address : string) : M W bool :=
  r ← try (vendor (GetAddr (by_Client p) address []));
  match r with
  | Ok _ => mret true
  | Err e =>
      let text := to_lower (err_msg e) in
      if str_contains "address" text || str_contains "invalid" text || str_contains "not found" text
      then mret false else fail (wrapping ("validate address " +:+ address) e)
  end.

(** [Int64] keeps the low 64 bits. *)
Definition blockcypher_balance (addr : Addr) : Balance :=
  let clamp z := if z <? 0 then 0 else z in
  let confirmed := clamp (wrap64 (ad_Balance addr)) in
  let unconfirmed := clamp (wrap64 (ad_UnconfirmedBalance addr)) in
  {| bal_Confirmed := wrapu64 confirmed; bal_Unconfirmed := wrapu64 unconfirmed;
     bal_Total := wrapu64 (wrap64 (confirmed + unconfirmed)) |}.

Definition blockcypher_GetBalance p (ctx : context) (address : string) : M W Balance :=
  addr ← on_error (wrapping ("fetch balance for " +:+ address)) (vendor (GetAddr (by_Client p) address []));
  mret (blockcypher_balance addr).

Definition blockcypher_PushTx p (ctx : context) (rawTx : list Byte.byte) : M W string :=
  on_error (wrapping "broadcast transaction") (vendor (PushTX (by_Client p) (hex_encode (byte_values rawTx)))).

Definition blockcypher_GetTxStatus p (ctx : context) (txID : string) : M W TxConfirmationStatus :=
  tx ← on_error (wrapping ("fetch tx status " +:+ txID)) (vendor (GetTX (by_Client p) txID));
  mret {| tcs_Confirmed := negb (time_is_zero (gx_Confirmed tx)); tcs_Confirmations := gx_Confirmations tx;
          tcs_BlockHeight := if gx_BlockHeight tx <? 0 then 0 else gx_BlockHeight tx; tcs_BlockHash := gx_BlockHash tx |}.

Definition blockcypher_url p : string :=
  let url := ("https://api.blockcypher.com/v1/" +:+ gc_Coin (by_Client p) +:+ "/" +:+ gc_Chain (by_Client p))%string in
  if bool_decide (gc_Token (by_Client p) = ""%string) then url else url +:+ "?token=" +:+ gc_Token (by_Client p).

(** Here the authentication state is part of every report, and only an answered
    one is degraded by it. *)
Definition blockcypher_CheckHealth p (ctx : context) (w : W) : HealthStatus * W :=
  let isDegraded := bool_decide (by_authValid p = Some false) in
  let text := match by_authErr p with Some e => err_msg e | None => ""%string end in
  if bool_decide (gc_Chain (by_Client p) = ""%string \/ gc_Coin (by_Client p) = ""%string) then
    let '(_, w) := hw_now w in
    let '(t, w) := hw_now w in
    (with_auth (by_authValid p) text isDegraded
       (plain_health HealthLevelDown 0 0 0 "Blockcypher.com only supports Bitcoin mainnet and testnet3" t), w)
  else
    let '(r, w) := probe ctx {| hq_Timeout := 5 * Second; hq_Method := "GET"; hq_URL := blockcypher_url p; hq_Headers := [];
                                hq_Body := "" |} w in
    let '(t, w) := hw_now w in
    (match r with
     | ProbeAnswered _ _ _ => degrade (by_authValid p) (by_authErr p) (probe_report r t)
     | _ => with_auth (by_authValid p) text isDegraded (probe_report r t)
     end, w).

Definition blockcypher_GetCapabilities p : list ProviderCapability :=
  [CapabilityAddressValidation; CapabilityAPIKeyValidation; CapabilityBalanceFetching; CapabilityTxBroadcast;
   CapabilityTxStatusFetching; CapabilityUTXOFetching].

Definition blockcypher_setAuth (valid : bool) (err : option error) p : blockcypher :=
  {| by_Client := by_Client p; by_authValid := Some valid; by_authErr := err |}.

(** Every failure, whatever its cause, is kept as invalid credentials. *)
Definition blockcypher_ValidateAPIKey (ctx : context) (s : blockcypher * W) : option error * (blockcypher * W) :=
  let '(p, w) := s in
  let reject e w := (Some e, (blockcypher_setAuth false (Some e) p, w)) in
  if bool_decide (gc_Token (by_Client p) = ""%string) then reject (errOther "no API token configured") w
  else
    let rq := {| hq_Timeout := 10 * Second; hq_Method := "GET";
                 hq_URL := "https://api.blockcypher.com/v1/tokens/" +:+ gc_Token (by_Client p); hq_Headers := [];
                 hq_Body := "" |} in
    match hw_url (hq_URL rq) with
    | Some e => reject (wrapping "create request" e) w
    | None =>
        let '(r, w) := hw_do ctx rq w in
        match r with
        | Err e => reject (wrapping "validate API key" e) w
        | Ok resp =>
            if 400 <=? hs_StatusCode resp then
              let text := ("invalid API key (HTTP " +:+ format_int (hs_StatusCode resp) +:+ ")")%string in
              match Decode (dec_struct [("error"%string, dec_string)]) ""%string (hs_Body resp) (hs_BodyErr resp) with
              | Ok (String _ _ as msg) => reject (errOther (text +:+ ": " +:+ msg)) w
              | _ => reject (errOther text) w
              end
            else
              match Decode (dec_struct [("token"%string, dec_string)]) ""%string (hs_Body resp) (hs_BodyErr resp) with
              | Err e => reject (wrapping "decode response" e) w
              | Ok token =>
                  if bool_decide (token = ""%string)
                  then reject (errOther "invalid API key: no token in response") w
                  else (None, (blockcypher_setAuth true None p, w))
              end
        end
    end.
End operations.
