(* ===== verification/Metal.v ===== *)
(** * The local wallet

    [bitcoin/providers/metal.go]: key derivation, transaction assembly, signing
    and sizing without a network, over btcd as a parameter.  Signing completes
    the caller's outputs in place, so they are part of its result. *)

From Stdlib Require Import SpecFloat.
From S2P Require Import Prelude GoInt GoFloat GoString GoCodec GoNum GoJson GoDecode.
From S2P Require Import Config RateLimit Sorting Penalties Scorer ScoringConfig Latency Events.
From S2P Require Import Decay Store Engine EngineStore Selection Manager RunOp Bitcoin.
From S2P Require Import Providers HttpApi.

Abbreviation bytes := (list Byte.byte) (only parsing).

(** The script classes the signer knows; another one by its name. *)
Inductive ScriptClass := PubKeyHashTy | WitnessV0PubKeyHashTy | ScriptHashTy | OtherTy (name : string).

(** An input and an output of [wire.MsgTx]. *)
Record TxIn `{Btcd} := { in_PreviousOutPoint : Hash * Z; in_SignatureScript : option bytes; in_Witness : option (list bytes) }.
Record TxOut := { out_Value : Z; out_PkScript : bytes }.
Record MsgTx `{Btcd} := { mt_Version : Z; mt_TxIn : list TxIn; mt_TxOut : list TxOut }.

(** What the wallet uses of btcd beyond [Btcd]. *)
Class BtcdWallet `{Btcd} := {
  ExtendedKey : Type;
  NewKeyFromString : string -> result ExtendedKey;
  SetNet : ExtendedKey -> Params -> ExtendedKey;
  Derive : ExtendedKey -> Z -> result ExtendedKey;
  key_Address : ExtendedKey -> Params -> result Address;
  EncodeAddress : Address -> string;
  PrivateKey : Type;
  ECPrivKey : ExtendedKey -> result PrivateKey;
  (** [errors.Is(err, hdkeychain.ErrNotPrivExtKey)] *)
  is_ErrNotPrivExtKey : error -> bool;
  WIF : Type;
  NewWIF : PrivateKey -> Params -> result WIF;
  WIF_String : WIF -> string;
  DecodeWIF : string -> result WIF;
  WIF_IsForNet : WIF -> Params -> bool;
  WIF_PrivKey : WIF -> PrivateKey;
  SerializePubKey : WIF -> bytes;
  Hash160 : bytes -> bytes;
  GetScriptClass : bytes -> ScriptClass;
  (** the script builder: [OP_0] and a push, or a push alone *)
  script_OP0_data : bytes -> result bytes;
  script_data : bytes -> result bytes;
  (** [SigHashAll] signatures with a compressed key; the previous outputs are those of the fetcher *)
  SignatureScript : MsgTx -> nat -> bytes -> PrivateKey -> result bytes;
  WitnessSignature : MsgTx -> list ((Hash * Z) * TxOut) -> nat -> Z -> bytes -> PrivateKey -> result (list bytes);
  MsgTx_Serialize : MsgTx -> result bytes;
  MsgTx_TxHash : MsgTx -> string
}.

Record metal := { ml_network : BitcoinNetwork }.

Definition NewMetal (network : BitcoinNetwork) : metal := {| ml_network := network |}.

Definition metal_Name (p : metal) : string := "Metal".

Section metal.
Context `{BtcdWallet}.
Implicit Types p : metal.

(** ** Keys and addresses *)

Definition metal_DeriveAddress p (xpub : string) (index childIndex : Z) : result DerivedAddress :=
  match NewKeyFromString xpub with
  | Err e => Err (wrapping "key parsing failed" e)
  | Ok extendedKey =>
  match ChaincfgNetwork (ml_network p) with
  | Err e => Err e
  | Ok net =>
  match Derive (SetNet extendedKey net) index with
  | Err e => Err e
  | Ok childKey =>
  match Derive childKey childIndex with
  | Err e => Err e
  | Ok address =>
  match key_Address address net with
  | Err e => Err e
  | Ok addr =>
  match ECPrivKey address with
  | Err e =>
      if is_ErrNotPrivExtKey e then Ok {| da_PublicKey := EncodeAddress addr; da_PrivateKey := "" |} else Err e
  | Ok privKey =>
  match NewWIF privKey net with
  | Err e => Err e
  | Ok wif => Ok {| da_PublicKey := EncodeAddress addr; da_PrivateKey := WIF_String wif |}
  end end end end end end end.

Definition metal_ValidateAddress p (address : string) : result bool :=
  match ChaincfgNetwork (ml_network p) with
  | Err e => Err e
  | Ok netParams => match DecodeAddress address netParams with Err _ => Ok false | Ok _ => Ok true end
  end.

(** ** Fees and sizes *)

Definition metal_CalculateFee p (signedTxSize feePerByte : Z) : result Z := Ok (wrapu64 (signedTxSize * feePerByte)).

Definition metal_CalculateTransactionSize p (tx : SignedTx) : result Z := Ok (zlen (stx_RawSigned tx)).

(** ** Assembly *)

Definition metal_CreateTransaction p (utxos : list UTXO) (outputs : list TxOutput) : result Tx :=
  match utxos with
  | [] => Err (errOther "no inputs provided")
  | _ =>
      match outputs with
      | [] => Err (errOther "no outputs provided")
      | _ =>
          match ChaincfgNetwork (ml_network p) with
          | Err e => Err e
          | Ok netParams => Ok {|
              tx_Version := 2;
              tx_Inputs := map (fun u => {| txi_PreviousTxID := utxo_TxHash u; txi_OutputIndex := utxo_Vout u |}) utxos;
              tx_Outputs := outputs; tx_Fee := 0; tx_Status := TxStatePending; tx_Params := Some netParams |}
          end
      end
  end.

(** ** Signing *)

(** The inputs of the wire transaction, unsigned. *)
Fixpoint add_inputs (inputs : list TxInput) : result (list TxIn) :=
  match inputs with
  | [] => Ok []
  | input :: inputs =>
      match NewHashFromStr (txi_PreviousTxID input) with
      | Err e => Err (wrapping "invalid previous transaction ID" e)
      | Ok hash =>
          match add_inputs inputs with
          | Err e => Err e
          | Ok rest =>
              Ok ({| in_PreviousOutPoint := (hash, txi_OutputIndex input); in_SignatureScript := None; in_Witness := None |} :: rest)
          end
      end
  end.

Fixpoint add_outputs (netParams : Params) (outputs : list TxOutput) : result (list TxOut) :=
  match outputs with
  | [] => Ok []
  | output :: outputs =>
      match DecodeAddress (txo_Address output) netParams with
      | Err e => Err (wrapping "invalid address" e)
      | Ok addr =>
          match PayToAddrScript addr with
          | Err e => Err e
          | Ok pkScript =>
              match add_outputs netParams outputs with
              | Err e => Err e
              | Ok rest => Ok ({| out_Value := txo_Value output; out_PkScript := pkScript |} :: rest)
              end
          end
      end
  end.

Definition set_script (script : bytes) (u : UTXO) : UTXO := {|
  utxo_TxHash := utxo_TxHash u; utxo_Vout := utxo_Vout u; utxo_Amount := utxo_Amount u;
  utxo_ScriptPubKey := Some script; utxo_Address := utxo_Address u; utxo_Confirmed := utxo_Confirmed u;
  utxo_Confirmations := utxo_Confirmations u; utxo_Spendable := utxo_Spendable u; utxo_BlockHeight := utxo_BlockHeight u |}.

Definition utxo_error (i : nat) (pre address mid : string) (e : error) : error :=
  errWrap ("UTXO " +:+ format_int (Z.of_nat i) +:+ ": " +:+ pre +:+ quote address +:+ mid) e "".

(** The loop that completes missing scripts, from index [i]; what it completed
    stays when it fails. *)
Fixpoint derive_scripts (netParams : Params) (i : nat) (utxos : list UTXO) : option error * list UTXO :=
  match utxos with
  | [] => (None, [])
  | u :: rest =>
      if bool_decide (utxo_ScriptPubKey u = None) && negb (bool_decide (utxo_Address u = ""%string)) then
        match DecodeAddress (utxo_Address u) netParams with
        | Err e => (Some (utxo_error i "cannot derive ScriptPubKey from address " (utxo_Address u) ": " e), u :: rest)
        | Ok addr =>
            match PayToAddrScript addr with
            | Err e => (Some (utxo_error i "failed to build ScriptPubKey for " (utxo_Address u) ": " e), u :: rest)
            | Ok script => let '(r, rest) := derive_scripts netParams (S i) rest in (r, set_script script u :: rest)
            end
        end
      else let '(r, rest) := derive_scripts netParams (S i) rest in (r, u :: rest)
  end.

(** A nil script as the signing functions see it. *)
Definition script_of (u : UTXO) : bytes := default [] (utxo_ScriptPubKey u).

(** The previous outputs by outpoint; a later one replaces an earlier. *)
Definition prev_outs (wireTx : MsgTx) (utxos : list UTXO) : list ((Hash * Z) * TxOut) :=
  reverse (zip_with (fun i u => (in_PreviousOutPoint i, {| out_Value := utxo_Amount u; out_PkScript := script_of u |}))
             (mt_TxIn wireTx) utxos).

Definition set_input (i : nat) (f : TxIn -> TxIn) (wireTx : MsgTx) : MsgTx :=
  {| mt_Version := mt_Version wireTx; mt_TxIn := alter f i (mt_TxIn wireTx); mt_TxOut := mt_TxOut wireTx |}.

Definition put_script (s : bytes) (t : TxIn) : TxIn :=
  {| in_PreviousOutPoint := in_PreviousOutPoint t; in_SignatureScript := Some s; in_Witness := in_Witness t |}.
Definition put_witness (x : list bytes) (t : TxIn) : TxIn :=
  {| in_PreviousOutPoint := in_PreviousOutPoint t; in_SignatureScript := in_SignatureScript t; in_Witness := Some x |}.

(** ["... for input %d: "] *)
Definition input_error (what : string) (i : nat) (e : error) : error :=
  errWrap (what +:+ " " +:+ format_int (Z.of_nat i) +:+ ": ") e "".

(** One turn of the signing loop: input [i], by the class of its script. *)
Definition sign_input (w : WIF) (prevOuts : list ((Hash * Z) * TxOut)) (i : nat) (utxo : UTXO) (wireTx : MsgTx) : result MsgTx :=
  match GetScriptClass (script_of utxo) with
  | PubKeyHashTy =>
      match SignatureScript wireTx i (script_of utxo) (WIF_PrivKey w) with
      | Err e => Err (input_error "failed to sign input" i e)
      | Ok sigScript => Ok (set_input i (put_script sigScript) wireTx)
      end
  | WitnessV0PubKeyHashTy =>
      match WitnessSignature wireTx prevOuts i (utxo_Amount utxo) (script_of utxo) (WIF_PrivKey w) with
      | Err e => Err (input_error "failed to create witness signature for input" i e)
      | Ok witness => Ok (set_input i (put_witness witness) wireTx)
      end
  | ScriptHashTy =>
      match script_OP0_data (Hash160 (SerializePubKey w)) with
      | Err e => Err (input_error "failed to create redeem script for input" i e)
      | Ok redeemScript =>
          match WitnessSignature wireTx prevOuts i (utxo_Amount utxo) redeemScript (WIF_PrivKey w) with
          | Err e => Err (input_error "failed to create witness signature for input" i e)
          | Ok witness =>
              match script_data redeemScript with
              | Err e => Err (input_error "failed to build signature script for input" i e)
              | Ok sigScript => Ok (set_input i (fun t => put_witness witness (put_script sigScript t)) wireTx)
              end
          end
      end
  | OtherTy name => Err (errOther ("unsupported script type for input " +:+ format_int (Z.of_nat i) +:+ ": " +:+ name))
  end.

Fixpoint sign_loop (w : WIF) (prevOuts : list ((Hash * Z) * TxOut)) (i : nat) (utxos : list UTXO) (wireTx : MsgTx) : result MsgTx :=
  match utxos with
  | [] => Ok wireTx
  | u :: utxos =>
      match sign_input w prevOuts i u wireTx with
      | Err e => Err e
      | Ok wireTx => sign_loop w prevOuts (S i) utxos wireTx
      end
  end.

(** The signed transaction, and the caller's outputs afterwards. *)
Definition metal_SignTransaction p (tx : option Tx) (utxos : list UTXO) (privWIF : string) : result SignedTx * list UTXO :=
  match tx with
  | None => (Err (errOther "nil pointer: transaction cannot be nil"), utxos)
  | Some tx =>
  if negb (Nat.eqb (length utxos) (length (tx_Inputs tx)))
  then (Err (errOther ("mismatched inputs and UTXOs: expected " +:+ format_int (zlen (tx_Inputs tx)) +:+ " inputs, got "
                       +:+ format_int (zlen utxos) +:+ " UTXOs")), utxos)
  else
  match DecodeWIF privWIF with
  | Err e => (Err (wrapping "malformed private key" e), utxos)
  | Ok w =>
  match ChaincfgNetwork (ml_network p) with
  | Err e => (Err e, utxos)
  | Ok netParams =>
  if negb (WIF_IsForNet w netParams) then (Err (errOther "private key is not for the specified network"), utxos)
  else
  match add_inputs (tx_Inputs tx) with
  | Err e => (Err e, utxos)
  | Ok ins =>
  match add_outputs netParams (tx_Outputs tx) with
  | Err e => (Err e, utxos)
  | Ok outs =>
  let '(err, utxos) := derive_scripts netParams 0 utxos in
  match err with
  | Some e => (Err e, utxos)
  | None =>
  let wireTx := {| mt_Version := tx_Version tx; mt_TxIn := ins; mt_TxOut := outs |} in
  match sign_loop w (prev_outs wireTx utxos) 0 utxos wireTx with
  | Err e => (Err e, utxos)
  | Ok wireTx =>
  match MsgTx_Serialize wireTx with
  | Err e => (Err (wrapping "failed to serialize transaction" e), utxos)
  | Ok raw =>
      (Ok {| stx_ID := MsgTx_TxHash wireTx; stx_Version := tx_Version tx; stx_Inputs := tx_Inputs tx;
             stx_Outputs := tx_Outputs tx; stx_RawSigned := raw; stx_Fee := tx_Fee tx; stx_Status := tx_Status tx |}, utxos)
  end end end end end end end end.
End metal.

(** ** Health *)

(** The two readings of the clock, and the one of the report. *)
Definition metal_CheckHealth {W} `{HttpWorld W} (p : metal) (w : W) : HealthStatus * W :=
  let '(start, w) := hw_now w in
  let '(stop, w) := hw_now w in
  let d := time_sub stop start in
  let '(t, w) := hw_now w in
  (plain_health HealthLevelHealthy (duration_ms d) (duration_us d) 0 "" t, w).

Definition metal_GetCapabilities (p : metal) : list ProviderCapability :=
  [CapabilityAddressGeneration; CapabilityAddressValidation; CapabilityFeeEstimation; CapabilityTxAssembly;
   CapabilityTxSigning; CapabilityTxSizing].
