(* ===== verification/MetalProps.v ===== *)
(** * Properties of the local wallet

    A signed transaction spends the given outputs, in order, pays the given
    outputs, and each input is signed the way its script asks for. *)

From S2P Require Import Prelude GoInt GoFloat GoString GoCodec GoNum GoJson GoDecode.
From S2P Require Import Config RateLimit Sorting Penalties Scorer ScoringConfig Latency Events.
From S2P Require Import Decay Store Engine EngineStore Selection Manager RunOp Bitcoin.
From S2P Require Import Providers HttpApi Metal.

Section metal.
Context `{!Btcd, !BtcdWallet}.

(** ** Inputs and outputs *)

(** An outpoint by the text of its transaction. *)
Definition outpoint_of (txid : string) (vout : Z) (o : Hash * Z) : Prop :=
  exists hash, NewHashFromStr txid = Ok hash /\ o = (hash, vout).

Definition unsigned (t : TxIn) : Prop := in_SignatureScript t = None /\ in_Witness t = None.

Abbreviation input_of := (fun i => outpoint_of (txi_PreviousTxID i) (txi_OutputIndex i)).

Lemma add_inputs_spec inputs ins : add_inputs inputs = Ok ins ->
  Forall2 input_of inputs (in_PreviousOutPoint <$> ins) /\ Forall unsigned ins.
Proof.
  revert ins. induction inputs as [|i inputs IH]; intros ins; cbn [add_inputs]; [intros [= <-]; by repeat constructor|].
  destruct (NewHashFromStr _) as [h|e] eqn:Eh; [|done]. destruct (add_inputs inputs) as [rest|e]; [|done].
  intros [= <-]. destruct (IH rest eq_refl). split; constructor; [by exists h|done..].
Qed.

(** An output that pays the given one. *)
Definition pays (params : Params) (o : TxOutput) (t : TxOut) : Prop :=
  out_Value t = txo_Value o
  /\ exists addr, DecodeAddress (txo_Address o) params = Ok addr /\ PayToAddrScript addr = Ok (out_PkScript t).

Lemma add_outputs_spec params outputs outs : add_outputs params outputs = Ok outs -> Forall2 (pays params) outputs outs.
Proof.
  revert outs. induction outputs as [|o outputs IH]; intros outs; cbn [add_outputs]; [by intros [= <-]|].
  destruct (DecodeAddress _ _) as [addr|e] eqn:Ea; [|done]. destruct (PayToAddrScript addr) as [script|e] eqn:Es; [|done].
  destruct (add_outputs params outputs) as [rest|e]; [|done]. intros [= <-]. constructor; [|by apply IH].
  split; [done|]. by exists addr.
Qed.

(** ** Missing scripts *)

(** The output with its script: the given one, or the one of its address. *)
Definition completed (params : Params) (u u' : UTXO) : Prop :=
  u' = u /\ (utxo_ScriptPubKey u <> None \/ utxo_Address u = ""%string)
  \/ utxo_ScriptPubKey u = None
     /\ exists addr script, DecodeAddress (utxo_Address u) params = Ok addr /\ PayToAddrScript addr = Ok script
          /\ u' = set_script script u.

Lemma derive_scripts_spec params i utxos utxos' :
  derive_scripts params i utxos = (None, utxos') -> Forall2 (completed params) utxos utxos'.
Proof.
  revert i utxos'. induction utxos as [|u utxos IH]; intros i utxos'; cbn [derive_scripts]; [by intros [= <-]|].
  case_bool_decide as Hs; cbn [andb negb].
  - case_bool_decide as Ha; cbn [negb].
    + destruct (derive_scripts params (S i) utxos) as [r rest] eqn:Er. intros [= -> <-].
      constructor; [left; auto|by eapply IH].
    + destruct (DecodeAddress _ _) as [addr|e] eqn:Ed; [|done]. destruct (PayToAddrScript addr) as [script|e] eqn:Ep; [|done].
      destruct (derive_scripts params (S i) utxos) as [r rest] eqn:Er. intros [= -> <-].
      constructor; [right; split; [done|by exists addr, script]|by eapply IH].
  - destruct (derive_scripts params (S i) utxos) as [r rest] eqn:Er. intros [= -> <-].
    constructor; [left; auto|by eapply IH].
Qed.

(** ** Signatures *)

(** What a signature commits to: everything but the scripts of the inputs. *)
Definition skeleton (t : MsgTx) : Z * list (Hash * Z) * list TxOut :=
  (mt_Version t, in_PreviousOutPoint <$> mt_TxIn t, mt_TxOut t).

(** Input [i] as signed over [t], by the class of the script it spends. *)
Definition signed_input (w : WIF) (prevs : list ((Hash * Z) * TxOut)) (t : MsgTx) (i : nat) (u : UTXO) (t0 t1 : TxIn) : Prop :=
  match GetScriptClass (script_of u) with
  | PubKeyHashTy =>
      exists s, SignatureScript t i (script_of u) (WIF_PrivKey w) = Ok s /\ t1 = put_script s t0
  | WitnessV0PubKeyHashTy =>
      exists x, WitnessSignature t prevs i (utxo_Amount u) (script_of u) (WIF_PrivKey w) = Ok x /\ t1 = put_witness x t0
  | ScriptHashTy =>
      exists redeem x s, script_OP0_data (Hash160 (SerializePubKey w)) = Ok redeem
        /\ WitnessSignature t prevs i (utxo_Amount u) redeem (WIF_PrivKey w) = Ok x
        /\ script_data redeem = Ok s /\ t1 = put_witness x (put_script s t0)
  | OtherTy _ => False
  end.

Lemma set_input_spec i f t t0 :
  mt_TxIn t !! i = Some t0 -> in_PreviousOutPoint (f t0) = in_PreviousOutPoint t0 ->
  skeleton (set_input i f t) = skeleton t
  /\ mt_TxIn (set_input i f t) !! i = Some (f t0)
  /\ forall j, j <> i -> mt_TxIn (set_input i f t) !! j = mt_TxIn t !! j.
Proof.
  intros Hi Hf. unfold skeleton, set_input. cbn. split_and!.
  - f_equal. f_equal. apply list_eq. intros j. rewrite !list_lookup_fmap.
    destruct (decide (j = i)) as [->|Hj]; [|by rewrite list_lookup_alter_ne].
    rewrite list_lookup_alter_eq, Hi. cbn. by rewrite Hf.
  - by rewrite list_lookup_alter_eq, Hi.
  - intros j Hj. by apply list_lookup_alter_ne.
Qed.

Lemma sign_input_spec w prevs i u t t' t0 :
  sign_input w prevs i u t = Ok t' -> mt_TxIn t !! i = Some t0 ->
  exists t1, signed_input w prevs t i u t0 t1 /\ mt_TxIn t' !! i = Some t1
    /\ skeleton t' = skeleton t /\ forall j, j <> i -> mt_TxIn t' !! j = mt_TxIn t !! j.
Proof.
  intros Hs Hi. unfold sign_input, signed_input in *. destruct (GetScriptClass _).
  - destruct (SignatureScript _ _ _ _) as [s|e]; [|done]. injection Hs as <-.
    destruct (set_input_spec i (put_script s) t t0 Hi eq_refl) as (? & ? & ?). exists (put_script s t0). eauto 10.
  - destruct (WitnessSignature _ _ _ _ _ _) as [x|e]; [|done]. injection Hs as <-.
    destruct (set_input_spec i (put_witness x) t t0 Hi eq_refl) as (? & ? & ?). exists (put_witness x t0). eauto 10.
  - destruct (script_OP0_data _) as [redeem|e]; [|done].
    destruct (WitnessSignature _ _ _ _ _ _) as [x|e] eqn:Ex; [|done].
    destruct (script_data redeem) as [s|e] eqn:Es; [|done]. injection Hs as <-.
    destruct (set_input_spec i (fun t => put_witness x (put_script s t)) t t0 Hi eq_refl) as (? & ? & ?).
    exists (put_witness x (put_script s t0)). eauto 15.
  - done.
Qed.

(** The signing loop from input [i] on, over the inputs not signed yet. *)
Lemma sign_loop_spec w prevs utxos i t t' :
  sign_loop w prevs i utxos t = Ok t' -> (i + length utxos <= length (mt_TxIn t))%nat ->
  skeleton t' = skeleton t
  /\ (forall j, (j < i)%nat -> mt_TxIn t' !! j = mt_TxIn t !! j)
  /\ forall j u, utxos !! j = Some u -> exists tb t0 t1,
       skeleton tb = skeleton t /\ mt_TxIn t !! (i + j)%nat = Some t0 /\ mt_TxIn t' !! (i + j)%nat = Some t1
       /\ signed_input w prevs tb (i + j) u t0 t1.
Proof.
  revert i t. induction utxos as [|u utxos IH]; intros i t; cbn [sign_loop length]; [intros [= <-] _; by split_and!|].
  destruct (sign_input w prevs i u t) as [t1|e] eqn:Es; [|done]. intros Hl Hlen.
  destruct (lookup_lt_is_Some_2 (mt_TxIn t) i) as [t0 Hi]; [lia|].
  destruct (sign_input_spec _ _ _ _ _ _ _ Es Hi) as (t1' & Hs & Hi1 & Hk & Hne).
  assert (length (mt_TxIn t1) = length (mt_TxIn t)) as Hlen1.
  { injection Hk as _ Hk _. apply (f_equal length) in Hk. by rewrite !length_fmap in Hk. }
  destruct (IH (S i) t1 Hl) as (Hk' & Hlt & Hrest); [lia|]. split_and!; [by rewrite Hk'| |].
  - intros j Hj. rewrite Hlt by lia. apply Hne. lia.
  - intros [|j] v Hj; cbn in Hj.
    + injection Hj as <-. rewrite Nat.add_0_r. exists t, t0, t1'. by rewrite Hlt by lia.
    + destruct (Hrest j v Hj) as (tb & s0 & s1 & Hkb & Hs0 & Hs1 & Hsig).
      replace (i + S j)%nat with (S i + j)%nat by lia. exists tb, s0, s1. rewrite <-(Hne (S i + j)%nat) by lia.
      rewrite Hkb. by split_and!.
Qed.

Lemma prev_outs_skeleton t t' us : skeleton t' = skeleton t -> prev_outs t' us = prev_outs t us.
Proof.
  intros [= _ Hk _]. unfold prev_outs. f_equal.
  assert (forall l : list TxIn, zip_with (fun i u => (in_PreviousOutPoint i, {| out_Value := utxo_Amount u; out_PkScript := script_of u |})) l us
    = zip_with (fun o u => (o, {| out_Value := utxo_Amount u; out_PkScript := script_of u |})) (in_PreviousOutPoint <$> l) us) as Hz.
  { intros l. by rewrite zip_with_fmap_l. }
  by rewrite !Hz, Hk.
Qed.

(** ** Signing *)

(** A wire transaction that spends the outputs [utxos] and carries their
    signatures: each over a transaction that differs in input scripts only. *)
Definition signs (w : WIF) (utxos : list UTXO) (wire : MsgTx) : Prop :=
  length (mt_TxIn wire) = length utxos
  /\ forall i u, utxos !! i = Some u -> exists t t0 t1,
       skeleton t = skeleton wire /\ unsigned t0 /\ mt_TxIn wire !! i = Some t1
       /\ signed_input w (prev_outs wire utxos) t i u t0 t1.

Lemma metal_SignTransaction_spec p tx utxos wif stx utxos' :
  metal_SignTransaction p (Some tx) utxos wif = (Ok stx, utxos') ->
  exists params w wire,
    ChaincfgNetwork (ml_network p) = Ok params /\ DecodeWIF wif = Ok w /\ WIF_IsForNet w params = true
    /\ MsgTx_Serialize wire = Ok (stx_RawSigned stx) /\ stx_ID stx = MsgTx_TxHash wire
    /\ mt_Version wire = tx_Version tx
    /\ Forall2 input_of (tx_Inputs tx) (in_PreviousOutPoint <$> mt_TxIn wire)
    /\ Forall2 (pays params) (tx_Outputs tx) (mt_TxOut wire)
    /\ Forall2 (completed params) utxos utxos' /\ signs w utxos' wire
    /\ stx_Inputs stx = tx_Inputs tx /\ stx_Outputs stx = tx_Outputs tx.
Proof.
  unfold metal_SignTransaction. destruct (Nat.eqb_spec (length utxos) (length (tx_Inputs tx))) as [Hlen|]; [cbn [negb]|done].
  destruct (DecodeWIF wif) as [w|e]; [|done]. destruct (ChaincfgNetwork _) as [params|e]; [|done].
  destruct (WIF_IsForNet w params) eqn:Enet; [cbn [negb]|done].
  destruct (add_inputs _) as [ins|e] eqn:Ei; [|done]. destruct (add_outputs _ _) as [outs|e] eqn:Eo; [|done].
  destruct (derive_scripts params 0 utxos) as [[e|] us] eqn:Ed; [done|].
  set (t0 := {| mt_Version := _; mt_TxIn := ins; mt_TxOut := outs |}).
  destruct (sign_loop _ _ _ _ _) as [wire|e] eqn:El; [|done]. destruct (MsgTx_Serialize wire) as [raw|e] eqn:Er; [|done].
  intros [= <- <-]. apply add_inputs_spec in Ei as [Hin Huns]. apply add_outputs_spec in Eo. apply derive_scripts_spec in Ed.
  pose proof (Forall2_length _ _ _ Hin) as Hl1. rewrite length_fmap in Hl1. pose proof (Forall2_length _ _ _ Ed) as Hl2.
  destruct (sign_loop_spec w _ us 0 t0 wire El) as (Hk & _ & Hsig); [cbn; lia|].
  exists params, w, wire. injection Hk as Hv Hins Houts. cbn [t0 mt_Version mt_TxIn mt_TxOut] in *.
  split_and!; try done; [by rewrite Hins|by rewrite Houts|]. split.
  { apply (f_equal length) in Hins. rewrite !length_fmap in Hins. lia. }
  intros i u Hu. destruct (Hsig i u Hu) as (tb & s0 & s1 & Hkb & Hs0 & Hs1 & Hsi). exists tb, s0, s1.
  assert (skeleton wire = skeleton t0) as Hkw by (unfold skeleton, t0; cbn; by rewrite Hv, Hins, Houts).
  split_and!; [by rewrite Hkw| |done|by rewrite (prev_outs_skeleton t0)].
  eapply Forall_lookup_1; [exact Huns|exact Hs0].
Qed.
End metal.

(** C20: a transaction assembled from outputs and payments and then signed with
    the same outputs spends exactly those outputs in their order, makes exactly
    those payments in theirs, at version 2, and every input carries a signature,
    made with the given key over this very transaction, of the kind its script
    asks for; the key is for the wallet's network, the identifier and the bytes
    are those of the signed transaction, and the caller's outputs have at most
    received their missing scripts. *)
Theorem assembled_and_signed `{!Btcd, !BtcdWallet} p utxos outputs tx wif stx utxos' :
  metal_CreateTransaction p utxos outputs = Ok tx ->
  metal_SignTransaction p (Some tx) utxos wif = (Ok stx, utxos') ->
  exists params w wire,
    ChaincfgNetwork (ml_network p) = Ok params /\ DecodeWIF wif = Ok w /\ WIF_IsForNet w params = true
    /\ MsgTx_Serialize wire = Ok (stx_RawSigned stx) /\ stx_ID stx = MsgTx_TxHash wire
    /\ mt_Version wire = 2
    /\ Forall2 (fun u => outpoint_of (utxo_TxHash u) (utxo_Vout u)) utxos (in_PreviousOutPoint <$> mt_TxIn wire)
    /\ Forall2 (pays params) outputs (mt_TxOut wire)
    /\ Forall2 (completed params) utxos utxos' /\ signs w utxos' wire.
Proof.
  intros Hc Hs. apply metal_SignTransaction_spec in Hs
    as (params & w & wire & Hnet & Hw & Hfor & Hraw & Hid & Hv & Hins & Houts & Hcomp & Hsig & _).
  exists params, w, wire. unfold metal_CreateTransaction in Hc.
  destruct utxos as [|u utxos]; [done|]. destruct outputs as [|o outputs]; [done|]. rewrite Hnet in Hc. injection Hc as <-.
  cbn [tx_Version tx_Inputs tx_Outputs] in *. split_and!; try done.
  change (Forall2 (fun i => outpoint_of (txi_PreviousTxID i) (txi_OutputIndex i)) ((fun u => {| txi_PreviousTxID := utxo_TxHash u; txi_OutputIndex := utxo_Vout u |}) <$> (u :: utxos))
            (in_PreviousOutPoint <$> mt_TxIn wire)) in Hins.
  by apply Forall2_fmap_l in Hins.
Qed.

(** ** A toy wallet, for evaluation *)

(** One key, for every network; the class of a script is read off its length. *)
Definition demo_script_class (s : list Byte.byte) : ScriptClass :=
  match s with
  | [] => WitnessV0PubKeyHashTy
  | [_] => ScriptHashTy
  | [_; _] => PubKeyHashTy
  | _ => OtherTy "nonstandard"
  end.

Definition demo_wallet : @BtcdWallet demo_btcd := @Build_BtcdWallet demo_btcd
  (* keys *) string (fun s => Ok s) (fun k _ => k) (fun k i => Ok (k +:+ "/" +:+ format_int i)) (fun k _ => Ok k) (fun a => a)
  string (fun k => Ok k) (fun _ => false) string (fun k _ => Ok k) (fun k => k) (fun k => Ok k) (fun _ _ => true) (fun k => k)
  (fun _ => []) (fun b => b) demo_script_class
  (* scripts *) (fun b => Ok (Byte.x00 :: b)) (fun b => Ok (Byte.x01 :: b))
  (* signatures *) (fun _ _ s _ => Ok (Byte.x02 :: s)) (fun _ _ _ _ s _ => Ok [s])
  (* bytes *) (fun t => Ok (default [] (x ← head (mt_TxIn t); in_SignatureScript x))) (fun _ => "id"%string).

#[local] Existing Instances demo_btcd demo_wallet.

Definition demo_metal : metal := NewMetal BitcoinNetworkMainnet.

(** Two outputs to spend: a legacy one, and one whose script is missing. *)
Definition demo_utxos : list UTXO :=
  let u script := {| utxo_TxHash := "aa"; utxo_Vout := 1; utxo_Amount := 5000; utxo_ScriptPubKey := script;
                     utxo_Address := "bc1q"; utxo_Confirmed := true; utxo_Confirmations := 3; utxo_Spendable := true;
                     utxo_BlockHeight := 7 |} in
  [u (Some [Byte.x00; Byte.x01]); u None].

Definition demo_outputs : list TxOutput := [{| txo_Address := "bc1p"; txo_Value := 4000 |}].

Definition demo_tx : Tx :=
  match metal_CreateTransaction demo_metal demo_utxos demo_outputs with
  | Ok t => t
  | Err _ => {| tx_Version := 0; tx_Inputs := []; tx_Outputs := []; tx_Fee := 0; tx_Status := TxStatePending; tx_Params := None |}
  end.

Definition demo_signed : result SignedTx * list UTXO := metal_SignTransaction demo_metal (Some demo_tx) demo_utxos "key".

Definition demo_stx : SignedTx :=
  match demo_signed.1 with
  | Ok t => t
  | Err _ => {| stx_ID := ""; stx_Version := 0; stx_Inputs := []; stx_Outputs := []; stx_RawSigned := []; stx_Fee := 0;
                stx_Status := TxStatePending |}
  end.

Lemma assembled_and_signed_witness :
  exists params w wire,
    ChaincfgNetwork (ml_network demo_metal) = Ok params /\ DecodeWIF "key" = Ok w /\ WIF_IsForNet w params = true
    /\ MsgTx_Serialize wire = Ok (stx_RawSigned demo_stx) /\ stx_ID demo_stx = MsgTx_TxHash wire
    /\ mt_Version wire = 2
    /\ Forall2 (fun u => outpoint_of (utxo_TxHash u) (utxo_Vout u)) demo_utxos (in_PreviousOutPoint <$> mt_TxIn wire)
    /\ Forall2 (pays params) demo_outputs (mt_TxOut wire)
    /\ Forall2 (completed params) demo_utxos demo_signed.2 /\ signs w demo_signed.2 wire.
Proof. apply (assembled_and_signed demo_metal demo_utxos demo_outputs demo_tx "key"); vm_compute; reflexivity. Defined.
