(* ===== verification/Clients.v ===== *)
(** * The clients as providers

    The concrete clients of [bitcoin/providers] under the capability interfaces:
    what each implements, the capabilities it reports, and the environment in which a
    fallback chain runs them.  The Blockstream client changes its token during a call,
    so it lives in the environment; the other clients do not change during the
    operations of these interfaces. *)

From Stdlib Require Import SpecFloat.
From S2P Require Import Prelude GoInt GoFloat GoString GoCodec GoNum GoJson GoDecode.
From S2P Require Import Config RateLimit Sorting Penalties Scorer ScoringConfig Latency Events.
From S2P Require Import Decay Store Engine EngineStore Selection Manager RunOp Bitcoin.
From S2P Require Import Providers HttpApi.
From S2P Require Import Mempool Blockstream Tatum Rates Bitref Blockcypher Metal.

Inductive client :=
  | CMempool (m : mempoolProvider)
  | CBlockstream
  | CBlockcypher (p : blockcypher)
  | CTatum (t : tatumProvider)
  | CBinance
  | CCoingecko (s : coingecko)
  | CBitref (b : Bitrefcom)
  | CBlockchainCom
  | CMetal (p : metal).

Section clients.
Context {W : Type} `{HttpWorld W, JsonErrors, BtcdWallet, Gobcy W, MapRange, GoArch, GoArchU, TimeText}.

(** The environment of a chain: the Blockstream client and the rest. *)
Abbreviation S := (blockstream * W)%type (only parsing).

(** A call that leaves the Blockstream client alone. *)
Abbreviation on_env m := (env m).

(** A local computation. *)
Abbreviation locally r := (of_result (S := S) r).

Definition client_Name (c : client) : string :=
  match c with
  | CMempool m => mempool_Name m
  | CBlockstream => "Blockstream"
  | CBlockcypher p => blockcypher_Name p
  | CTatum t => tatum_Name t
  | CBinance => binance_Name
  | CCoingecko s => coingecko_Name s
  | CBitref b => Bitrefcom_Name b
  | CBlockchainCom => blockchainCom_Name
  | CMetal p => metal_Name p
  end.

Definition client_TxBroadcaster (c : client) : option (TxBroadcaster S) :=
  match c with
  | CMempool m => Some {| tb_PushTx ctx raw := on_env (mempool_PushTx m ctx raw) |}
  | CBlockstream => Some {| tb_PushTx ctx raw := blockstream_PushTx ctx raw |}
  | CBlockcypher p => Some {| tb_PushTx ctx raw := on_env (blockcypher_PushTx p ctx raw) |}
  | CTatum t => Some {| tb_PushTx ctx raw := on_env (tatum_PushTx t ctx raw) |}
  | CBitref b => Some {| tb_PushTx ctx raw := on_env (bitref_PushTx b ctx raw) |}
  | CBlockchainCom => Some {| tb_PushTx ctx raw := on_env (blockchainCom_PushTx ctx raw) |}
  | _ => None
  end.

Definition client_BalanceFetcher (c : client) : option (BalanceFetcher S) :=
  match c with
  | CMempool m => Some {| bf_GetBalance ctx a := on_env (mempool_GetBalance m ctx a) |}
  | CBlockstream => Some {| bf_GetBalance ctx a := blockstream_GetBalance ctx a |}
  | CBlockcypher p => Some {| bf_GetBalance ctx a := on_env (blockcypher_GetBalance p ctx a) |}
  | CBitref b => Some {| bf_GetBalance ctx a := on_env (bitref_GetBalance b ctx a) |}
  | CBlockchainCom => Some {| bf_GetBalance ctx a := on_env (blockchainCom_GetBalance ctx a) |}
  | _ => None
  end.

Definition client_UTXOFetcher (c : client) : option (UTXOFetcher S) :=
  match c with
  | CMempool m => Some {| uf_GetUTXOs ctx a := on_env (mempool_GetUTXOs m ctx a) |}
  | CBlockstream => Some {| uf_GetUTXOs ctx a := blockstream_GetUTXOs ctx a |}
  | CBlockcypher p => Some {| uf_GetUTXOs ctx a := on_env (blockcypher_GetUTXOs p ctx a) |}
  | _ => None
  end.

Definition client_TxStatusFetcher (c : client) : option (TxStatusFetcher S) :=
  match c with
  | CMempool m => Some {| tf_GetTxStatus ctx x := on_env (mempool_GetTxStatus m ctx x) |}
  | CBlockstream => Some {| tf_GetTxStatus ctx x := blockstream_GetTxStatus ctx x |}
  | CBlockcypher p => Some {| tf_GetTxStatus ctx x := on_env (blockcypher_GetTxStatus p ctx x) |}
  | CTatum t => Some {| tf_GetTxStatus ctx x := on_env (tatum_GetTxStatus t ctx x) |}
  | _ => None
  end.

Definition client_FeeRecommender (c : client) : option (FeeRecommender S) :=
  match c with
  | CMempool m => Some {| fr_GetTxFees ctx := on_env (mempool_GetTxFees m ctx);
                          fr_GetTxFee ctx p := on_env (mempool_GetTxFee m ctx p) |}
  | CBlockstream => Some {| fr_GetTxFees ctx := blockstream_GetTxFees ctx;
                            fr_GetTxFee ctx p := blockstream_GetTxFee ctx p |}
  | CTatum t => Some {| fr_GetTxFees ctx := on_env (tatum_GetTxFees t ctx);
                        fr_GetTxFee ctx p := on_env (tatum_GetTxFee t ctx p) |}
  | CBitref b => Some {| fr_GetTxFees ctx := on_env (bitref_GetTxFees b ctx);
                         fr_GetTxFee ctx p := on_env (bitref_GetTxFee b ctx p) |}
  | _ => None
  end.

Definition client_RateFetcher (c : client) : option (RateFetcher S) :=
  match c with
  | CMempool m => Some {| rf_GetExchangeRate ctx x y := on_env (mempool_GetExchangeRate m ctx x y);
                          rf_GetExchangeRates ctx x := on_env (mempool_GetExchangeRates m ctx x) |}
  | CBinance => Some {| rf_GetExchangeRate ctx x y := on_env (binance_GetExchangeRate ctx x y);
                        rf_GetExchangeRates ctx x := on_env (binance_GetExchangeRates ctx x) |}
  | CCoingecko s => Some {| rf_GetExchangeRate ctx x y := on_env (coingecko_GetExchangeRate s ctx x y);
                            rf_GetExchangeRates ctx x := on_env (coingecko_GetExchangeRates s ctx x) |}
  | _ => None
  end.

Definition client_AddressValidator (c : client) : option (AddressValidator S) :=
  match c with
  | CBlockstream => Some {| av_ValidateAddress ctx a := blockstream_ValidateAddress ctx a |}
  | CBlockcypher p => Some {| av_ValidateAddress ctx a := on_env (blockcypher_ValidateAddress p ctx a) |}
  | CMetal p => Some {| av_ValidateAddress ctx a := locally (metal_ValidateAddress p a) |}
  | _ => None
  end.

(** Signing completes the caller's outputs; only the transaction crosses the interface here. *)
#[global] Instance client_dynamic : Dynamic S client := {|
  as_Name c := Some (client_Name c);
  as_AddressGenerator c := match c with
    | CMetal p => Some {| ag_DeriveAddress _ x i j := locally (metal_DeriveAddress p x i j) |}
    | _ => None
    end;
  as_AddressValidator := client_AddressValidator;
  as_FeeRecommender := client_FeeRecommender;
  as_FeeEstimator c := match c with
    | CMetal p => Some {| fe_CalculateFee _ n r := locally (metal_CalculateFee p n r) |}
    | _ => None
    end;
  as_TxAssembler c := match c with
    | CMetal p => Some {| ta_CreateTransaction _ u o := locally (metal_CreateTransaction p u o) |}
    | _ => None
    end;
  as_TxSizer c := match c with
    | CMetal p => Some {| tz_CalculateTransactionSize _ t := locally (metal_CalculateTransactionSize p t) |}
    | _ => None
    end;
  as_TxSigner c := match c with
    | CMetal p => Some {| ts_SignTransaction _ t u k := locally (metal_SignTransaction p (Some t) u k).1 |}
    | _ => None
    end;
  as_UTXOFetcher := client_UTXOFetcher;
  as_TxBroadcaster := client_TxBroadcaster;
  as_TxStatusFetcher := client_TxStatusFetcher;
  as_BalanceFetcher := client_BalanceFetcher;
  as_RateFetcher := client_RateFetcher;
  as_HistoricalRateFetcher c := match c with
    | CCoingecko s => Some {| hf_GetHistoricalRates ctx x y a b := on_env (coingecko_GetHistoricalRates s ctx x y a b) |}
    | _ => None
    end
|}.

(** The clients that can validate an API key. *)
Definition is_APIKeyValidator (c : client) : bool :=
  match c with CBlockcypher _ | CTatum _ | CCoingecko _ => true | _ => false end.

Definition client_GetCapabilities (b : blockstream) (c : client) : list ProviderCapability :=
  match c with
  | CMempool m => mempool_GetCapabilities m
  | CBlockstream => blockstream_GetCapabilities b
  | CBlockcypher p => blockcypher_GetCapabilities p
  | CTatum t => tatum_GetCapabilities t
  | CBinance => binance_GetCapabilities
  | CCoingecko s => coingecko_GetCapabilities s
  | CBitref b => bitref_GetCapabilities b
  | CBlockchainCom => blockchainCom_GetCapabilities
  | CMetal p => metal_GetCapabilities p
  end.

(** The client implements the interface behind the capability. *)
Definition has_capability (c : client) (cap : ProviderCapability) : bool :=
  let implements {I} (i : client -> option I) := bool_decide (is_Some (i c)) in
  if bool_decide (cap = CapabilityAddressGeneration) then implements (as_AddressGenerator (W := S))
  else if bool_decide (cap = CapabilityAddressValidation) then implements (as_AddressValidator (W := S))
  else if bool_decide (cap = CapabilityAPIKeyValidation) then is_APIKeyValidator c
  else if bool_decide (cap = CapabilityBalanceFetching) then implements (as_BalanceFetcher (W := S))
  else if bool_decide (cap = CapabilityFeeRecommending) then implements (as_FeeRecommender (W := S))
  else if bool_decide (cap = CapabilityFeeEstimation) then implements (as_FeeEstimator (W := S))
  else if bool_decide (cap = CapabilityRateFetching) then implements (as_RateFetcher (W := S))
  else if bool_decide (cap = CapabilityTxAssembly) then implements (as_TxAssembler (W := S))
  else if bool_decide (cap = CapabilityTxBroadcast) then implements (as_TxBroadcaster (W := S))
  else if bool_decide (cap = CapabilityTxSigning) then implements (as_TxSigner (W := S))
  else if bool_decide (cap = CapabilityTxSizing) then implements (as_TxSizer (W := S))
  else if bool_decide (cap = CapabilityTxStatusFetching) then implements (as_TxStatusFetcher (W := S))
  else if bool_decide (cap = CapabilityUTXOFetching) then implements (as_UTXOFetcher (W := S))
  else false.

(** C22: A client reports exactly the capabilities whose interfaces it
    implements, except that Bitref.com also reports fee estimation, which it
    does not implement. *)
Theorem capabilities_exact b c cap :
  cap ∈ client_GetCapabilities b c <->
  has_capability c cap = true \/ cap = CapabilityFeeEstimation /\ exists r, c = CBitref r.
Proof.
  split.
  - revert cap. apply Forall_forall. destruct c; repeat (apply List.Forall_cons || apply List.Forall_nil);
      first [left; vm_compute; reflexivity|right; by eauto].
  - intros [Hc|[-> [r ->]]]; [|apply (bool_decide_unpack _); by vm_compute].
    unfold has_capability in Hc.
    repeat (case_bool_decide as Hcap; [clear -Hc Hcap; subst cap; destruct c; vm_compute in Hc;
      first [discriminate Hc|apply (bool_decide_unpack _); vm_compute; exact I]|clear Hcap]).
    discriminate Hc.
Qed.
End clients.
