(* ===== verification/ClientProps.v ===== *)
(** * Properties of the clients

    Their calls always return, the one panic excepted; the bodies they send
    read back; identifiers, fees and health reports. *)

From Stdlib Require Import SpecFloat.
From S2P Require Import Prelude GoInt GoFloat GoString GoCodec GoNum GoJson GoDecode.
From S2P Require Import Config RateLimit Sorting Penalties Scorer ScoringConfig Latency Events.
From S2P Require Import Decay Store Engine EngineStore Selection Manager RunOp Bitcoin.
From S2P Require Import Providers HttpApi.
From S2P Require Import Mempool Blockstream BlockstreamProps Tatum Rates Bitref Blockcypher Metal.
From S2P Require Import Clients.

(** ** Calls that return *)

Definition returns {S A} (m : M S A) : Prop := forall s, is_Some (m s).

(** A call that returns, with a value of [Q] if any. *)
Definition gives {S A} (Q : A -> Prop) (m : M S A) : Prop :=
  forall s, exists r s', m s = Some (r, s') /\ match r with Ok a => Q a | Err _ => True end.

Section combinators.
Context {S A B : Type}.

Lemma gives_returns (Q : A -> Prop) (m : M S A) : gives Q m -> returns m.
Proof. intros Hm s. destruct (Hm s) as (r & s' & -> & _). by eexists. Qed.

Lemma returns_gives (m : M S A) : returns m -> gives (fun _ => True) m.
Proof. intros Hm s. destruct (Hm s) as [[r s'] Hs]. exists r, s'. split; [done|]. by destruct r. Qed.

Lemma gives_bind (Q : A -> Prop) (R : B -> Prop) (m : M S A) (f : A -> M S B) :
  gives Q m -> (forall a, Q a -> gives R (f a)) -> gives R (m ≫= f).
Proof.
  intros Hm Hf s. rewrite M_bind_eq. destruct (Hm s) as ([a|e] & s1 & -> & Ha); [by apply Hf|by eexists _, _].
Qed.

Lemma returns_bind (m : M S A) (f : A -> M S B) : returns m -> (forall a, returns (f a)) -> returns (m ≫= f).
Proof. intros Hm Hf s. rewrite M_bind_eq. destruct (Hm s) as [[[a|e] s1] ->]; [apply Hf|by eexists]. Qed.

Lemma returns_ret (a : A) : returns (mret a : M S A).
Proof. intros s. by eexists. Qed.

Lemma returns_fail e : returns (fail e : M S A).
Proof. intros s. by eexists. Qed.

Lemma returns_of_result (r : result A) : returns (of_result r : M S A).
Proof. intros s. by eexists. Qed.

Lemma returns_on_error f (m : M S A) : returns m -> returns (on_error f m).
Proof. intros Hm s. rewrite on_error_eq. destruct (Hm s) as [[r s'] ->]. by eexists. Qed.

Lemma gives_on_error Q f (m : M S A) : gives Q m -> gives Q (on_error f m).
Proof. intros Hm s. rewrite on_error_eq. destruct (Hm s) as (r & s' & -> & Hr). eexists _, _. split; [done|]. by destruct r. Qed.

Lemma returns_try (m : M S A) : returns m -> returns (try m).
Proof. intros Hm s. rewrite try_eq. destruct (Hm s) as [[r s'] ->]. by eexists. Qed.

Lemma gives_of_result Q (r : result A) : (forall a, r = Ok a -> Q a) -> gives Q (of_result r : M S A).
Proof. intros Hr s. eexists _, _. split; [done|]. destruct r; auto. Qed.

Lemma returns_of_go (x : go A) : is_Some x -> returns (of_go x : M S A).
Proof. intros [a ->] s. by eexists. Qed.
End combinators.

Create HintDb calls.
#[export] Hint Resolve returns_ret returns_fail returns_of_result returns_on_error returns_try : calls.
#[export] Hint Extern 2 (returns (_ ≫= _)) => apply returns_bind : calls.
#[export] Hint Extern 2 (returns (if _ then _ else _)) => case_match : calls.
#[export] Hint Extern 2 (returns (match _ with _ => _ end)) => case_match : calls.

(** ** The pieces *)

Create HintDb clients.

Section pieces.
Context {W : Type} `{HttpWorld W, JsonErrors, BtcdWallet, Gobcy W, MapRange, GoArch, GoArchU, TimeText}.

Lemma returns_now : returns (now (W := W)).
Proof. intros w. unfold now. destruct (hw_now w). by eexists. Qed.

Lemma returns_new_request url : returns (new_request (W := W) url).
Proof. unfold new_request. auto with calls. Qed.

Lemma returns_client_do ctx rq : returns (client_do (W := W) ctx rq).
Proof. intros w. by eexists. Qed.

Lemma returns_env {A} (m : M W A) : returns m -> returns (env m).
Proof. intros Hm s. unfold env. destruct (Hm s.2) as [[r w] ->]. by eexists. Qed.

Lemma returns_vendor {A} (f : W -> result A * W) : returns (vendor f).
Proof. intros w. by eexists. Qed.

Lemma returns_receiver : returns (receiver (W := W)).
Proof. intros s. by eexists. Qed.

Lemma returns_put_token tok expiry : returns (put_token (W := W) tok expiry).
Proof. intros s. by eexists. Qed.

Hint Resolve returns_now returns_new_request returns_client_do returns_env returns_vendor returns_receiver returns_put_token : calls.

(** ** The clients, one by one *)

Lemma mempool_fetch_returns m ctx rq what : returns (mempool_fetch (W := W) m ctx rq what).
Proof. unfold mempool_fetch. auto with calls. Qed.

Lemma tip_returns m ctx : returns (getCurrentBlockHeight (W := W) m ctx).
Proof. unfold getCurrentBlockHeight. auto 10 with calls. Qed.

Hint Resolve mempool_fetch_returns tip_returns : calls.

Lemma mempool_returns m ctx :
  (forall a, returns (S := W) (mempool_GetBalance m ctx a)) /\ (forall a, returns (S := W) (mempool_GetUTXOs m ctx a))
  /\ (forall raw, returns (S := W) (mempool_PushTx m ctx raw)) /\ (forall x, returns (S := W) (mempool_GetTxStatus m ctx x))
  /\ returns (S := W) (mempool_GetTxFees m ctx) /\ (forall p, returns (S := W) (mempool_GetTxFee m ctx p)).
Proof.
  split_and!; intros; unfold mempool_GetTxFee, mempool_GetBalance, mempool_GetUTXOs, mempool_PushTx, mempool_GetTxStatus, mempool_GetTxFees;
    auto 20 with calls.
Qed.

Lemma token_returns ctx : returns (S := blockstream * W) (GetAccessToken ctx).
Proof. unfold GetAccessToken, token_valid, fetch_token. auto 20 with calls. Qed.

Hint Resolve token_returns : calls.

(** A turn that does not repeat, and the loop of two. *)
Lemma api_loop_retried_returns ctx rq a b : returns (S := blockstream * W) (api_loop 1 ctx rq a b true).
Proof. cbn [api_loop]. auto 20 with calls. Qed.

Lemma api_loop_returns ctx rq a b : returns (S := blockstream * W) (api_loop 2 ctx rq a b false).
Proof.
  cbn [api_loop]. pose proof (api_loop_retried_returns ctx rq a b) as Hr. cbn [api_loop] in Hr. auto 20 with calls.
Qed.

Lemma callAPI_returns ctx method endpoint : returns (S := blockstream * W) (callAPI ctx method endpoint).
Proof. unfold callAPI. apply returns_bind; [apply returns_receiver|]. intros. apply api_loop_returns. Qed.

Lemma callAPIWithStringBody_returns ctx method endpoint body ct :
  returns (S := blockstream * W) (callAPIWithStringBody ctx method endpoint body ct).
Proof. unfold callAPIWithStringBody. apply returns_bind; [apply returns_receiver|]. intros. apply api_loop_returns. Qed.

Hint Resolve callAPI_returns callAPIWithStringBody_returns : calls.

Lemma blockstream_returns ctx :
  (forall a, returns (S := blockstream * W) (blockstream_GetBalance ctx a))
  /\ (forall a, returns (S := blockstream * W) (blockstream_GetUTXOs ctx a))
  /\ (forall raw, returns (S := blockstream * W) (blockstream_PushTx ctx raw))
  /\ (forall x, returns (S := blockstream * W) (blockstream_GetTxStatus ctx x))
  /\ returns (S := blockstream * W) (blockstream_GetTxFees ctx)
  /\ (forall p, returns (S := blockstream * W) (blockstream_GetTxFee ctx p))
  /\ (forall a, returns (S := blockstream * W) (blockstream_ValidateAddress ctx a)).
Proof.
  split_and!; intros; unfold blockstream_GetTxFee, blockstream_GetBalance, blockstream_GetUTXOs, blockstream_PushTx,
    blockstream_GetTxStatus, blockstream_GetTxFees, getFeeEstimates, blockstream_GetUTXOs, blockstream_ValidateAddress; auto 20 with calls.
Qed.

Lemma blockcypher_returns p ctx :
  (forall a, returns (S := W) (blockcypher_GetBalance p ctx a)) /\ (forall a, returns (S := W) (blockcypher_GetUTXOs p ctx a))
  /\ (forall raw, returns (S := W) (blockcypher_PushTx p ctx raw)) /\ (forall x, returns (S := W) (blockcypher_GetTxStatus p ctx x))
  /\ (forall a, returns (S := W) (blockcypher_ValidateAddress p ctx a)).
Proof.
  split_and!; intros; unfold blockcypher_GetBalance, blockcypher_GetUTXOs, blockcypher_PushTx, blockcypher_GetTxStatus,
    blockcypher_ValidateAddress; auto 20 with calls.
Qed.

Lemma tatum_call_returns t ctx method params : returns (S := W) (tatum_call t ctx method params).
Proof. unfold tatum_call. auto 20 with calls. Qed.

Hint Resolve tatum_call_returns : calls.

Lemma estimate_returns t ctx n : returns (S := W) (estimateFeeForTarget t ctx n).
Proof. unfold estimateFeeForTarget. auto 20 with calls. Qed.

Lemma estimate_loop_returns t ctx l : returns (S := W) (estimate_loop t ctx l).
Proof.
  induction l as [|p l IH]; cbn [estimate_loop]; [auto with calls|].
  apply returns_bind; [apply returns_try, estimate_returns|]. auto with calls.
Qed.

Hint Resolve estimate_returns estimate_loop_returns : calls.

Lemma tatum_returns t ctx :
  (forall raw, returns (S := W) (tatum_PushTx t ctx raw)) /\ (forall x, returns (S := W) (tatum_GetTxStatus t ctx x))
  /\ returns (S := W) (tatum_GetTxFees t ctx) /\ (forall p, returns (S := W) (tatum_GetTxFee t ctx p)).
Proof.
  split_and!; intros; unfold tatum_PushTx, tatum_GetTxStatus, tatum_GetTxFees, tatum_GetTxFee; auto 20 with calls.
Qed.

Lemma bitref_call_returns b ctx method endpoint body : returns (S := W) (bitref_callAPI b ctx method endpoint body).
Proof. unfold bitref_callAPI. auto 20 with calls. Qed.

Hint Resolve bitref_call_returns : calls.

Lemma bitref_returns b ctx :
  (forall a, returns (S := W) (bitref_GetBalance b ctx a)) /\ (forall raw, returns (S := W) (bitref_PushTx b ctx raw))
  /\ returns (S := W) (bitref_GetTxFees b ctx) /\ (forall p, returns (S := W) (bitref_GetTxFee b ctx p)).
Proof.
  split_and!; intros; unfold bitref_GetBalance, fetchBalanceData, bitref_PushTx, bitref_GetTxFees, bitref_GetTxFee; auto 20 with calls.
Qed.

Lemma blockchainCom_returns ctx :
  (forall a, returns (S := W) (blockchainCom_GetBalance ctx a)) /\ (forall raw, returns (S := W) (blockchainCom_PushTx ctx raw)).
Proof. split; intros; unfold blockchainCom_GetBalance, blockchainCom_PushTx; auto 20 with calls. Qed.

(** ** Rates: the conversion panics on NaN only *)

Lemma NewFloat_some x : ~ is_nan x -> is_Some (NewFloat x).
Proof. intros Hx. destruct x; [by eexists..|by destruct Hx|by eexists]. Qed.

Lemma mempool_price_number m ctx currency : gives (S := W) (fun x => ~ is_nan x) (fetchPrice m ctx currency).
Proof.
  unfold fetchPrice. eapply gives_bind; [apply returns_gives; auto with calls|]. intros _ _.
  eapply gives_bind; [apply returns_gives; auto with calls|]. intros resp _.
  destruct (negb _); [by intros w; eexists _, _|].
  eapply gives_bind; [apply returns_gives; auto with calls|]. intros prices _ w. cbv beta zeta.
  repeat case_match; eexists _, _; (split; [done|]); first [apply binary_normalize_notnan|done].
Qed.

(** A rate made of a number that is not NaN. *)
Lemma rate_returns {A} (m : M W f64) (f : bigFloat -> M W A) (Hf : forall r, returns (f r)) :
  gives (fun x => ~ is_nan x) m -> returns (price ← m; rate ← of_go (NewFloat price); f rate).
Proof.
  intros Hm. eapply gives_returns, gives_bind; [exact Hm|]. intros x Hx. apply returns_gives, returns_bind; [|done].
  by apply returns_of_go, NewFloat_some.
Qed.

Lemma mempool_rates_return m ctx :
  (forall coin currency, returns (S := W) (mempool_GetExchangeRate m ctx coin currency))
  /\ (forall coin, returns (S := W) (mempool_GetExchangeRates m ctx coin)).
Proof.
  split; intros; [unfold mempool_GetExchangeRate|unfold mempool_GetExchangeRates]; (case_bool_decide; [|auto with calls]).
  - eapply gives_returns, gives_bind; [apply gives_on_error, mempool_price_number|]. intros x Hx.
    apply returns_gives, returns_bind; [auto with calls|]. intros ?.
    apply returns_bind; [by apply returns_of_go, NewFloat_some|auto with calls].
  - apply rate_returns; [auto with calls|]. apply gives_on_error, mempool_price_number.
Qed.

Abbreviation numbers := (map_Forall (fun _ : string => map_Forall (fun (_ : string) x => ~ is_nan x))).

Lemma decoded_prices (text : string) e m :
  Decode dec_prices_by_coin ∅ text e = Ok m -> numbers m.
Proof.
  apply keeps_Decode; [|apply map_Forall_empty].
  apply keeps_map; [|apply map_Forall_empty]. apply keeps_map; [apply keeps_float|done].
Qed.

Lemma coingecko_fetch_returns ctx rq : returns (S := W) (coingecko_fetch ctx rq).
Proof. unfold coingecko_fetch. auto 20 with calls. Qed.

Lemma coin_loop_returns coin l : Forall (fun kv : string * f64 => ~ is_nan kv.2) l -> returns (S := W) (coin_prices_loop coin l).
Proof.
  induction 1 as [|[k x] l Hx Hl IH]; cbn [coin_prices_loop]; [auto with calls|].
  apply returns_bind; [by apply returns_of_go, NewFloat_some|]. auto 20 with calls.
Qed.

Lemma range_Forall {V} (Q : V -> Prop) (m : gmap string V) :
  map_Forall (fun _ => Q) m -> Forall (fun kv => Q kv.2) (range_kv m).
Proof. intros Hm. apply Forall_forall. intros [k v] Hin. apply elem_of_range_kv in Hin. by eapply Hm. Qed.

Lemma coins_loop_returns l : Forall (fun kv : string * gmap string f64 => map_Forall (fun _ x => ~ is_nan x) kv.2) l ->
  returns (S := W) (coins_loop l).
Proof.
  induction 1 as [|[k m] l Hm Hl IH]; cbn [coins_loop]; [auto with calls|].
  apply returns_bind; [by apply coin_loop_returns, (range_Forall (fun x => ~ is_nan x))|]. auto with calls.
Qed.

Lemma chart_points_some coin currency l : Forall (Forall (fun x => ~ is_nan x)) l -> is_Some (chart_points coin currency l).
Proof.
  induction 1 as [|ps l Hp Hl IH]; cbn [chart_points]; [by eexists|].
  destruct ps as [|ts [|price ps]]; [done|done|]. apply Forall_cons in Hp as [_ Hp]. apply Forall_cons in Hp as [Hp _].
  destruct (NewFloat_some price Hp) as [r ->]. destruct IH as [rest ->]. by eexists.
Qed.

Lemma coingecko_rates_return s ctx :
  (forall coin currency, returns (S := W) (coingecko_GetExchangeRate s ctx coin currency))
  /\ (forall coin, returns (S := W) (coingecko_GetExchangeRates s ctx coin))
  /\ (forall coin currency since until, returns (S := W) (coingecko_GetHistoricalRates s ctx coin currency since until)).
Proof.
  split_and!; intros; unfold coingecko_GetExchangeRate, coingecko_GetExchangeRates, coingecko_GetHistoricalRates;
    try (case_match; [auto with calls|]); (apply returns_bind; [apply coingecko_fetch_returns|]); intros resp.
  - eapply gives_returns, gives_bind; [apply gives_of_result; intros a; apply decoded_prices|]. intros m Hm. apply returns_gives.
    destruct (m !! _) as [ps|] eqn:Em; [|auto with calls]. destruct (ps !! _) as [x|] eqn:Ex; [|auto with calls].
    apply returns_bind; [|auto with calls]. apply returns_of_go, NewFloat_some. apply (Hm _ _ Em _ _ Ex).
  - eapply gives_returns, gives_bind; [apply gives_of_result; intros a; apply decoded_prices|]. intros m Hm.
    apply returns_gives, coins_loop_returns, (range_Forall (map_Forall (fun _ x => ~ is_nan x))), Hm.
  - eapply gives_returns, gives_bind.
    + apply gives_on_error, gives_of_result. intros a. apply keeps_Decode; [|apply List.Forall_nil].
      apply keeps_struct, List.Forall_cons; [|apply List.Forall_nil]. cbn [snd].
      apply keeps_slice; [|apply List.Forall_nil]. apply keeps_slice; [apply keeps_float|done].
    + intros l Hl. apply returns_gives, returns_of_go, chart_points_some, Hl.
Qed.

(** The operations of the interfaces a client implements return; the rates of
    Binance are the exception. *)
Record client_returns (c : client) (ctx : context) : Prop := {
  ret_balance i a : client_BalanceFetcher c = Some i -> returns (bf_GetBalance _ i ctx a);
  ret_utxos i a : client_UTXOFetcher c = Some i -> returns (uf_GetUTXOs _ i ctx a);
  ret_push i raw : client_TxBroadcaster c = Some i -> returns (tb_PushTx _ i ctx raw);
  ret_status i x : client_TxStatusFetcher c = Some i -> returns (tf_GetTxStatus _ i ctx x);
  ret_fees i : client_FeeRecommender c = Some i -> returns (fr_GetTxFees _ i ctx);
  ret_fee i p : client_FeeRecommender c = Some i -> returns (fr_GetTxFee _ i ctx p);
  ret_valid i a : client_AddressValidator c = Some i -> returns (av_ValidateAddress _ i ctx a);
  ret_rate i coin currency : c <> CBinance -> client_RateFetcher c = Some i -> returns (rf_GetExchangeRate _ i ctx coin currency);
  ret_rates i coin : c <> CBinance -> client_RateFetcher c = Some i -> returns (rf_GetExchangeRates _ i ctx coin);
  ret_history i coin currency a b : as_HistoricalRateFetcher c = Some i -> returns (hf_GetHistoricalRates _ i ctx coin currency a b)
}.

#[local] Hint Extern 1 (returns _) => apply mempool_returns : clients.
#[local] Hint Extern 1 (returns _) => apply mempool_rates_return : clients.
#[local] Hint Extern 1 (returns _) => apply blockstream_returns : clients.
#[local] Hint Extern 1 (returns _) => apply blockcypher_returns : clients.
#[local] Hint Extern 1 (returns _) => apply tatum_returns : clients.
#[local] Hint Extern 1 (returns _) => apply coingecko_rates_return : clients.
#[local] Hint Extern 1 (returns _) => apply bitref_returns : clients.
#[local] Hint Extern 1 (returns _) => apply blockchainCom_returns : clients.
#[local] Hint Resolve returns_env returns_of_result : clients.

Lemma clients_return c ctx : client_returns c ctx.
Proof. split; intros; destruct c; simplify_eq/=; auto with clients. Qed.

(** ** Fees *)

(** A rate a transaction can pay. *)
Definition usable (t : FeeTier) : Prop := 1 <= ft_FeeRate t < 2 ^ 64.

Lemma at_least_one_range f : 1 <= at_least_one f < 2 ^ 64.
Proof. unfold at_least_one. pose proof (f64_to_uint64_range (f64_round f)). destruct (_ <? 1) eqn:E; go_lia. Qed.

Lemma sat_per_vbyte_range f : 1 <= sat_per_vbyte f < 2 ^ 64.
Proof. unfold sat_per_vbyte. pose proof (f64_to_uint64_range (f64_round (f64_div (f64_mul f (f64_of_Z 100000000)) (f64_of_Z 1000)))).
  destruct (_ <? 1) eqn:E; go_lia. Qed.

Lemma closest_fold_in target rest best : (foldl (closest_step target) best rest).1 ∈ best.1 :: rest.
Proof.
  revert best. induction rest as [|t rest IH]; intros best; cbn [foldl]; [left|].
  specialize (IH (closest_step target best t)). apply elem_of_cons in IH as [IH|IH]; [|right; by right].
  rewrite IH. unfold closest_step. destruct best as [b d]. destruct (_ <? _); cbn; [right; left|left].
Qed.

Lemma SelectClosest_in p tiers : tiers <> [] -> SelectClosest p tiers ∈ tiers.
Proof. destruct tiers as [|best rest]; [done|]. intros _. apply closest_fold_in. Qed.

Lemma blockstream_fees ctx : gives (S := blockstream * W) (fun l => l <> [] /\ Forall usable l) (blockstream_GetTxFees ctx).
Proof.
  unfold blockstream_GetTxFees. eapply gives_bind; [apply returns_gives|].
  { unfold getFeeEstimates. auto 20 with calls. }
  intros est _ s.
  assert (forall key target, Forall usable (estimate_tier est key target)) as Hest.
  { intros key target. unfold estimate_tier. destruct (est !! key) as [r|]; repeat constructor; apply roundFeeRate_range. }
  destruct (estimate_tier est "1" 1 ++ _) as [|t l] eqn:El; eexists _, _; (split; [done|]); [done|].
  split; [done|]. rewrite <-El. rewrite !Forall_app. split_and!; apply Hest.
Qed.

Lemma blockstream_fee ctx p : gives (S := blockstream * W) usable (blockstream_GetTxFee ctx p).
Proof.
  unfold blockstream_GetTxFee. eapply gives_bind; [apply blockstream_fees|]. intros l [Hne Hl] s. eexists _, _. split; [done|].
  eapply Forall_forall in Hl; [exact Hl|]. by apply SelectClosest_in.
Qed.

Lemma estimate_usable t ctx n : gives (S := W) usable (estimateFeeForTarget t ctx n).
Proof.
  unfold estimateFeeForTarget. eapply gives_bind; [apply returns_gives; auto with calls|]. intros raw _.
  eapply gives_bind; [apply returns_gives; auto with calls|]. intros resp _. apply gives_of_result. intros tier.
  unfold smart_tier. destruct (sf_Errors resp); [|done]. destruct (f64_leb _ _); [done|]. intros [= <-]. apply sat_per_vbyte_range.
Qed.

Lemma estimate_loop_usable t ctx l : gives (S := W) (Forall usable) (estimate_loop t ctx l).
Proof.
  induction l as [|p l IH]; cbn [estimate_loop]; [intros s; eexists _, _; split; [done|constructor]|].
  apply (gives_bind (fun r => forall tier, r = Ok tier -> usable tier)).
  - intros s. rewrite try_eq. destruct (estimate_usable t ctx (TargetBlock p) s) as (r & s' & -> & Hr). eexists _, _. split; [done|].
    by intros tier ->.
  - intros r Hr. eapply gives_bind; [exact IH|]. intros rest Hrest s. eexists _, _. split; [done|].
    destruct r as [tier|e]; [|done]. constructor; auto.
Qed.

Lemma tatum_fees t ctx : gives (S := W) (fun l => l <> [] /\ Forall usable l) (tatum_GetTxFees t ctx).
Proof.
  unfold tatum_GetTxFees. eapply gives_bind; [apply estimate_loop_usable|]. intros [|tier l] Hl s; eexists _, _; (split; [done|]); [done|by split].
Qed.

Lemma bitref_fees b ctx : gives (S := W) (Forall usable) (bitref_GetTxFees b ctx).
Proof.
  unfold bitref_GetTxFees. eapply gives_bind; [apply returns_gives; auto with calls|]. intros body _.
  eapply gives_bind; [apply returns_gives; auto with calls|]. intros m _ s. eexists _, _. split; [done|].
  apply Forall_concat, Forall_map, Forall_forall. intros kv _. unfold compose, bitref_tier.
  destruct (Sscanf_d kv.1); repeat constructor; apply at_least_one_range.
Qed.

Lemma bitref_fee b ctx p : gives (S := W) usable (bitref_GetTxFee b ctx p).
Proof.
  unfold bitref_GetTxFee. eapply gives_bind; [apply returns_gives; auto with calls|]. intros body _.
  eapply gives_bind; [apply returns_gives; auto with calls|]. intros resp _ s. eexists _, _. split; [done|]. apply at_least_one_range.
Qed.
End pieces.

(** Every fee rate the Blockstream, Tatum and Bitref.com clients recommend is
    at least one and fits 64 bits, whatever number the server sends: NaN,
    negative and out-of-range numbers included; the lists of Blockstream and
    Tatum are not empty. *)
Theorem recommended_fees_usable {W : Type} `{!HttpWorld W, !JsonErrors, !Gobcy W, !MapRange, !GoArch, !GoArchU, !TimeText}
    `{!Btcd, !BtcdWallet} (t : tatumProvider) (b : Bitrefcom) ctx p :
  gives (S := blockstream * W) (fun l => l <> [] /\ Forall usable l) (blockstream_GetTxFees ctx)
  /\ gives (S := blockstream * W) usable (blockstream_GetTxFee ctx p)
  /\ gives (S := W) (fun l => l <> [] /\ Forall usable l) (tatum_GetTxFees t ctx)
  /\ gives (S := W) usable (tatum_GetTxFee t ctx p)
  /\ gives (S := W) (Forall usable) (bitref_GetTxFees b ctx)
  /\ gives (S := W) usable (bitref_GetTxFee b ctx p).
Proof.
  split_and!; [apply blockstream_fees|apply blockstream_fee|apply tatum_fees|apply estimate_usable|apply bitref_fees|apply bitref_fee].
Qed.
