(* ===== verification/ClientDemo.v ===== *)
(** * A concrete environment for the clients

    Toy instances of the libraries the clients use, for evaluation; the
    servers' answers are scripted. *)

From Stdlib Require Import SpecFloat.
From S2P Require Import Prelude GoInt GoFloat GoString GoCodec GoNum GoJson GoDecode.
From S2P Require Import Config RateLimit Sorting Penalties Scorer ScoringConfig Latency Events.
From S2P Require Import Decay Store Engine EngineStore Selection Manager RunOp Bitcoin.
From S2P Require Import Providers HttpApi.
From S2P Require Import Mempool Rates Blockcypher Metal MetalProps.

(** A BlockCypher without any address or transaction. *)
Definition demo_gobcy : Gobcy scriptWorld := {|
  GetAddr _ _ _ w := (Err (errOther "address not found"), w);
  PushTX _ _ w := (Err (errOther "rejected"), w);
  GetTX _ _ w := (Err (errOther "not found"), w)
|}.

Definition demo_time_text : TimeText := format_int.

(** The clock ticks, no wait is cut short, the random number is zero. *)
Definition script_steps : World scriptWorld := {|
  w_clock w := ((fun _ => sw_clock w (sw_ticks w)), sw_tick w);
  w_wait _ w := (None, w);
  w_float64 w := (f64_zero, w)
|}.

(** Every URL parses. *)
Definition demo_http_world : HttpWorld scriptWorld := script_world (fun _ => None).

Module Instances.
#[export] Existing Instances canonical_range lcg_rand insertion_sort_slice arch_amd64 archu_amd64 plain_json_errors.
#[export] Existing Instances demo_btcd demo_wallet demo_gobcy demo_time_text script_steps demo_http_world.
End Instances.

(** ** Behaviours worth knowing *)

Section examples.
Import Instances.

(** A world in which every request is answered 200 with [body], in apostrophes. *)
Definition one_answer (status : Z) (body : string) : scriptWorld := {|
  sw_clock k := Z.of_nat k; sw_ticks := 0; sw_sent := []; sw_answer _ _ := answer status (quotes body) |}.

(** The text NaN is a number to [ParseFloat], and [big.NewFloat] panics on it. *)
Example binance_nan_panics :
  binance_GetExchangeRate background CoinTickerBTC CurrencyUSD (one_answer 200 "{'symbol':'BTCUSDT','price':'NaN'}") = None.
Proof. vm_compute. reflexivity. Qed.

Definition error_text {A W} (x : go (result A * W)) : option string :=
  '(r, _) ← x; match r with Err e => Some (err_msg e) | Ok _ => None end.

(** CoinGecko answers under the identifier in small letters; the single rate is
    looked up under the capitalised one, the list of rates under the right one. *)
Definition coingecko_answer : scriptWorld := one_answer 200 "{'bitcoin':{'usd':67432.5}}".

Example coingecko_rate_missed :
  error_text (coingecko_GetExchangeRate (NewCoingecko "" "") background CoinTickerBTC CurrencyUSD coingecko_answer)
  = Some "coin not supported: Bitcoin"%string.
Proof. vm_compute. reflexivity. Qed.

Example coingecko_rates_found :
  error_text (coingecko_GetExchangeRates (NewCoingecko "" "") background CoinTickerBTC coingecko_answer) = None.
Proof. vm_compute. reflexivity. Qed.

(** A server that is down accepts any key. *)
Example coingecko_down_accepts_key :
  (coingecko_ValidateAPIKey background (NewCoingecko "" "key", one_answer 503 "down")).1 = None.
Proof. vm_compute. reflexivity. Qed.

(** A negative fee in an answer becomes a rate near 2^64. *)
Example mempool_negative_fee :
  (fun x => match x.1 with Ok tiers => map ft_FeeRate tiers | Err _ => [] end)
    <$> mempool_GetTxFees (NewMempool BitcoinNetworkMainnet "http://node") background
          (one_answer 200 "{'fastestFee':-1,'halfHourFee':2,'hourFee':1,'economyFee':1,'minimumFee':1}")
  = Some [2 ^ 64 - 1; 2; 1; 1; 1].
Proof. vm_compute. reflexivity. Qed.
End examples.
