(* ===== verification/KeyCheck.v ===== *)
(** * API keys and health

    The clients with an API key remember the verdict of its last validation and
    show it in their health reports: the reports of a client whose key was
    refused are never healthy. *)

From Stdlib Require Import Ascii SpecFloat.
From S2P Require Import Prelude GoInt GoFloat GoString GoCodec GoNum GoJson GoDecode.
From S2P Require Import Config RateLimit Sorting Penalties Scorer ScoringConfig Latency Events.
From S2P Require Import Decay Store Engine EngineStore Selection Manager RunOp Bitcoin.
From S2P Require Import Providers HttpApi.
From S2P Require Import Tatum Rates Blockcypher.

(** ** Verdicts *)

(** A status that refuses the credentials. *)
Definition refused (status : Z) : bool := (status =? 401) || (status =? 403).

(** What each client concludes from the answer to its validation request; Tatum
    keeps its former verdict when the answer is neither way. *)
Definition tatum_verdict (former : option bool) (a : result httpResponse) : option bool :=
  match a with
  | Ok resp => if refused (hs_StatusCode resp) then Some false
               else if hs_StatusCode resp =? 200 then Some true else former
  | Err _ => former
  end.

Definition coingecko_verdict (a : result httpResponse) : option bool :=
  match a with
  | Ok resp => Some (negb (refused (hs_StatusCode resp) || (hs_StatusCode resp =? 429)))
  | Err _ => Some false
  end.

Definition blockcypher_verdict `{JsonErrors} (a : result httpResponse) : option bool :=
  match a with
  | Ok resp =>
      Some ((hs_StatusCode resp <? 400)
            && match Decode (dec_struct [("token"%string, dec_string)]) ""%string (hs_Body resp) (hs_BodyErr resp) with
               | Ok (String _ _) => true
               | _ => false
               end)
  | Err _ => Some false
  end.

(** The report shows a verdict: it is in the report, and a refused key is
    flagged and never healthy. *)
Definition shows (verdict : option bool) (h : HealthStatus) : Prop :=
  hh_AuthValid h = verdict
  /\ (verdict = Some false -> hh_Status h <> HealthLevelHealthy /\ hh_IsDegraded h = true)
  /\ (verdict <> Some false -> hh_IsDegraded h = false).

Section keys.
Context {W : Type} `{!HttpWorld W, !JsonErrors, !Gobcy W}.

(** ** Reports *)

Lemma degrade_shows valid err h : shows valid (degrade valid err h).
Proof.
  unfold degrade, shows. cbn. split_and!; [done| |by intros Hv; rewrite bool_decide_false].
  intros ->. rewrite bool_decide_true by done. split; [|done]. cbn [andb]. by case_bool_decide.
Qed.

(** What the probe saw, in the report. *)
Definition was_answered (h : HealthStatus) : Prop := hh_HTTPStatus h <> 0.

Lemma coingecko_report s ctx w h w' :
  coingecko_CheckHealth s ctx w = (h, w') -> was_answered h -> shows (cg_authValid s) h.
Proof.
  unfold coingecko_CheckHealth. destruct (probe _ _ _) as [p w1]. destruct (hw_now w1) as [t w2].
  destruct p; intros [= <- <-] Ha; [done|done|apply degrade_shows].
Qed.

Lemma blockcypher_report p ctx w h w' :
  blockcypher_CheckHealth p ctx w = (h, w') -> shows (by_authValid p) h.
Proof.
  unfold blockcypher_CheckHealth. case_bool_decide as Hc.
  - destruct (hw_now w) as [t0 w1]. destruct (hw_now w1) as [t w2]. intros [= <- <-]. unfold shows. cbn.
    split_and!; [done|intros ->; by rewrite bool_decide_true|intros; by rewrite bool_decide_false].
  - destruct (probe _ _ _) as [r w1]. destruct (hw_now w1) as [t w2].
    destruct r; intros [= <- <-]; [..|apply degrade_shows]; unfold shows; cbn;
      (split_and!; [done|intros ->; by rewrite bool_decide_true|intros; by rewrite bool_decide_false]).
Qed.

Lemma tatum_report t ctx w h w' :
  tatum_CheckHealth t ctx w = Some (h, w') -> shows (ta_authValid t) h.
Proof.
  unfold tatum_CheckHealth. destruct (hw_now w) as [start w1]. destruct (tatum_call _ _ _ _ _) as [[r w2]|]; [|done].
  cbn [mbind option_bind]. destruct (hw_now w2) as [stop w3]. destruct (hw_now w3) as [checked w4].
  intros [= <- <-]. unfold shows. case_bool_decide as Hv.
  - rewrite Hv. by split_and!.
  - destruct r as [raw|e]; [|by split_and!]. destruct (Unmarshal_raw _ _ raw) as [n|e]; [|by split_and!].
    by repeat (destruct (_ =? _) || destruct (_ <? _)).
Qed.

(** ** Validation *)

Ltac verdict := simplify_eq/=; split; [done|first [split; congruence|congruence]].

Definition tatum_key_request (t : tatumProvider) : httpRequest := tatum_request t "getblockcount" (JArray []).

Lemma tatum_validated ctx t w e t' w' :
  tatum_ValidateAPIKey ctx (t, w) = (e, (t', w')) -> hw_url (ta_baseURL t) = None ->
  ta_authValid t' = tatum_verdict (ta_authValid t) (hw_do ctx (tatum_key_request t) w).1
  /\ (e = None -> ta_authValid t' = Some true).
Proof.
  unfold tatum_ValidateAPIKey, tatum_key_request. cbn [hq_URL tatum_request]. intros Hv Hu. rewrite Hu in Hv.
  destruct (hw_do _ _ _) as [a w1]. cbn [fst]. destruct a as [resp|err]; [|by verdict]. unfold tatum_verdict, refused.
  destruct (_ || _); [by verdict|]. destruct (hs_StatusCode resp =? 200); by verdict.
Qed.

Definition coingecko_key_request (s : coingecko) : httpRequest := coingecko_get s "/ping" [].

Lemma coingecko_validated ctx s w e s' w' :
  coingecko_ValidateAPIKey ctx (s, w) = (e, (s', w')) -> cg_apiKey s <> ""%string -> hw_url (cg_baseURL s +:+ "/ping") = None ->
  cg_authValid s' = coingecko_verdict (hw_do ctx (coingecko_key_request s) w).1
  /\ (e = None <-> cg_authValid s' = Some true).
Proof.
  unfold coingecko_ValidateAPIKey, coingecko_key_request. intros Hv Hk Hu. rewrite bool_decide_false in Hv by done.
  cbn [hq_URL coingecko_get] in Hv. rewrite Hu in Hv. destruct (hw_do _ _ _) as [a w1]. cbn [fst].
  destruct a as [resp|err]; [|by verdict]. unfold coingecko_verdict, refused.
  destruct (_ || _); [by verdict|]. destruct (hs_StatusCode resp =? 429); by verdict.
Qed.

Definition blockcypher_key_request (p : blockcypher) : httpRequest := {|
  hq_Timeout := 10 * Second; hq_Method := "GET";
  hq_URL := "https://api.blockcypher.com/v1/tokens/" +:+ gc_Token (by_Client p); hq_Headers := []; hq_Body := "" |}.

Lemma blockcypher_validated ctx p w e p' w' :
  blockcypher_ValidateAPIKey ctx (p, w) = (e, (p', w')) -> gc_Token (by_Client p) <> ""%string ->
  hw_url (hq_URL (blockcypher_key_request p)) = None ->
  by_authValid p' = blockcypher_verdict (hw_do ctx (blockcypher_key_request p) w).1
  /\ (e = None <-> by_authValid p' = Some true).
Proof.
  unfold blockcypher_ValidateAPIKey. intros Hv Hk Hu. rewrite bool_decide_false in Hv by done.
  fold (blockcypher_key_request p) in Hv. rewrite Hu in Hv. destruct (hw_do _ _ _) as [a w1]. cbn [fst].
  destruct a as [resp|err]; [|by verdict]. unfold blockcypher_verdict.
  rewrite Z.ltb_antisym. destruct (400 <=? hs_StatusCode resp); cbn [negb andb] in *.
  - destruct (Decode _ _ _ _) as [[|]|]; by verdict.
  - destruct (Decode _ _ _ _) as [[|c s]|]; by verdict.
Qed.
End keys.

(** Validating an API key leaves the verdict of the server's answer with the
    client, and its health reports show that verdict: while the key counts as
    refused no report is healthy and every report is flagged as degraded (those
    of CoinGecko when its server answered).  Tatum keeps its former verdict on
    any other answer than 200, 401 and 403; CoinGecko takes any answer but 401,
    403 and 429 as success; BlockCypher any failure as a refusal. *)
Theorem key_verdict_shown {W : Type} `{!HttpWorld W, !JsonErrors, !Gobcy W} ctx :
  (forall t w e t' w', tatum_ValidateAPIKey ctx (t, w) = (e, (t', w')) -> hw_url (ta_baseURL t) = None ->
     ta_authValid t' = tatum_verdict (ta_authValid t) (hw_do ctx (tatum_key_request t) w).1
     /\ (e = None -> ta_authValid t' = Some true)
     /\ forall w1 h w2, tatum_CheckHealth t' ctx w1 = Some (h, w2) -> shows (ta_authValid t') h)
  /\ (forall s w e s' w', coingecko_ValidateAPIKey ctx (s, w) = (e, (s', w')) -> cg_apiKey s <> ""%string ->
     hw_url (cg_baseURL s +:+ "/ping") = None ->
     cg_authValid s' = coingecko_verdict (hw_do ctx (coingecko_key_request s) w).1
     /\ (e = None <-> cg_authValid s' = Some true)
     /\ forall w1 h w2, coingecko_CheckHealth s' ctx w1 = (h, w2) -> was_answered h -> shows (cg_authValid s') h)
  /\ (forall p w e p' w', blockcypher_ValidateAPIKey ctx (p, w) = (e, (p', w')) -> gc_Token (by_Client p) <> ""%string ->
     hw_url (hq_URL (blockcypher_key_request p)) = None ->
     by_authValid p' = blockcypher_verdict (hw_do ctx (blockcypher_key_request p) w).1
     /\ (e = None <-> by_authValid p' = Some true)
     /\ forall w1 h w2, blockcypher_CheckHealth p' ctx w1 = (h, w2) -> shows (by_authValid p') h).
Proof.
  split; [|split].
  - intros t w e t' w' Hv Hu. destruct (tatum_validated ctx t w e t' w' Hv Hu). split_and!; [done..|]. apply tatum_report.
  - intros s w e s' w' Hv Hk Hu. destruct (coingecko_validated ctx s w e s' w' Hv Hk Hu). split_and!; [done..|].
    apply coingecko_report.
  - intros p w e p' w' Hv Hk Hu. destruct (blockcypher_validated ctx p w e p' w' Hv Hk Hu). split_and!; [done..|].
    apply blockcypher_report.
Qed.
