(* ===== verification/Broadcast.v ===== *)
(** * Broadcasting a transaction

    What the clients that broadcast put on the wire: each posts the hexadecimal
    text of the transaction, in the envelope its service reads, once; the
    Blockstream client a second time when its token is refused.  And the
    identifier that Blockchain.com leaves to the caller. *)

From Stdlib Require Import Ascii.
From S2P Require Import Prelude GoInt GoFloat GoString GoCodec GoNum GoJson GoDecode.
From S2P Require Import Payment.
From S2P Require Import Config RateLimit Sorting Penalties Scorer ScoringConfig Latency Events.
From S2P Require Import Decay Store Engine EngineStore Selection Manager RunOp Bitcoin.
From S2P Require Import Providers HttpApi.
From S2P Require Import Mempool Blockstream BlockstreamProps Tatum Rates Bitref Blockcypher Metal.
From S2P Require Import MetalProps.
From S2P Require Import Clients ClientDemo.

(** ** The envelopes *)

Lemma byte_values_bytes l : Forall is_byte (byte_values l).
Proof.
  unfold byte_values. apply Forall_map, Forall_forall. intros b _. unfold is_byte, compose. pose proof (Byte.to_N_bounded b). lia.
Qed.

Lemma hex_ascii c : is_hex_char c = true -> is_ascii c = true.
Proof. destruct c as [[] [] [] [] [] [] [] []]; vm_compute; congruence. Qed.

Lemma hex_text_ascii raw : str_all is_ascii (hex_encode (byte_values raw)) = true.
Proof. eapply str_all_impl; [apply hex_ascii|apply hex_encode_all, byte_values_bytes]. Qed.

Lemma hex_text_back raw : hex_decode (hex_encode (byte_values raw)) = Some (byte_values raw).
Proof. apply hex_roundtrip, byte_values_bytes. Qed.

(** The transaction a service reads in the body of a broadcast. *)
Definition broadcast_tx (c : client) (body : string) : option (list Z) :=
  match c with
  | CMempool _ | CBlockstream => hex_decode body
  | CTatum _ =>
      match parse_json body with
      | Some (JObject [("method", JString "sendrawtransaction"); ("params", JArray [JString hex]); ("id", JNumber _)]%string) =>
          hex_decode hex
      | _ => None
      end
  | CBitref _ =>
      match parse_json body with
      | Some (JObject [("rawTx", JString hex)]%string) => hex_decode hex
      | _ => None
      end
  | CBlockchainCom => form ← strip_prefix "tx=" body; hex ← query_unescape form; hex_decode hex
  | _ => None
  end.

Lemma tatum_body_back t raw :
  broadcast_tx (CTatum t) (hq_Body (tatum_request t "sendrawtransaction" (JArray [JString (hex_encode (byte_values raw))])))
  = Some (byte_values raw).
Proof.
  unfold broadcast_tx, tatum_request. cbn [hq_Body]. rewrite parse_print; [apply hex_text_back| |vm_compute; discriminate].
  apply rpc_request_plain; [done|]. cbn. by rewrite hex_text_ascii.
Qed.

Lemma bitref_body_back b raw : broadcast_tx (CBitref b) (print_json (broadcast_body raw)) = Some (byte_values raw).
Proof.
  unfold broadcast_tx, broadcast_body. rewrite parse_print; [apply hex_text_back| |vm_compute; discriminate].
  cbn. by rewrite hex_text_ascii.
Qed.

Lemma blockchainCom_body_back raw :
  broadcast_tx CBlockchainCom ("tx=" +:+ query_escape (hex_encode (byte_values raw))) = Some (byte_values raw).
Proof.
  unfold broadcast_tx. rewrite (proj2 (strip_prefix_spec "tx=" _ _) eq_refl). cbn [mbind option_bind].
  rewrite query_escape_roundtrip. apply hex_text_back.
Qed.

(** ** The requests *)

Section props.
Context (bad : string -> option error) `{!JsonErrors, !GoArchU, !MapRange, !Btcd}.
#[local] Instance recording : HttpWorld scriptWorld := script_world bad.

(** A success comes from an answer 200 to the last of the requests [l]. *)
Definition accepted {R} (w : scriptWorld) (l : list httpRequest) (r : result R) : Prop :=
  match r with
  | Ok _ => exists l0 rq resp, l = l0 ++ [rq] /\ sw_answer w (sw_sent w ++ l0) rq = Ok resp /\ hs_StatusCode resp = 200
  | Err _ => True
  end.

(** A call that sends [rq] at most once, and nothing else. *)
Definition sends_once {R} (rq : httpRequest) (m : M scriptWorld R) : Prop :=
  forall w, exists r w' l, m w = Some (r, w') /\ sw_sent w' = sw_sent w ++ l /\ (l = [] \/ l = [rq]) /\ accepted w l r.

(** A call that fails before it sends, or sends [rq] and goes on if the answer is 200. *)
Lemma sends_once_intro {R} (rq : httpRequest) (m : M scriptWorld R) :
  (forall w, (exists e, m w = Some (Err e, w))
     \/ exists r, m w = Some (r, sw_send rq w)
          /\ forall a, r = Ok a -> exists resp, sw_next w rq = Ok resp /\ hs_StatusCode resp = 200) ->
  sends_once rq m.
Proof.
  intros Hm w. destruct (Hm w) as [[e ->]|(r & -> & Hr)].
  - exists (Err e), w, []. rewrite app_nil_r. split_and!; [done|done|by left|done].
  - exists r, (sw_send rq w), [rq]. split_and!; [done|done|by right|]. unfold accepted. destruct r as [a|]; [|done].
    destruct (Hr a eq_refl) as (resp & Ha & H200). exists [], rq, resp. split_and!; [done| |done].
    unfold sw_next in Ha. by rewrite app_nil_r.
Qed.

(** Take the steps of a call in the recording environment. *)
Ltac take_steps := unfold new_request, client_do; call_step; cbn [hw_url hw_do recording script_world hq_URL].

(** The sending ended in an error, or in the state the status allows. *)
Ltac sent resp := right; eexists; (split; [done|]); intros ? Heq;
  first [by simplify_eq|exists resp; split; [done|by apply Z.eqb_eq]].

Lemma mempool_push_once m ctx raw : sends_once
  {| hq_Timeout := 10 * Second; hq_Method := "POST"; hq_URL := me_baseURL m +:+ "/tx";
     hq_Headers := [("Content-Type", "text/plain")]%string; hq_Body := hex_encode (byte_values raw) |}
  (mempool_PushTx m ctx raw).
Proof.
  apply sends_once_intro; intros w. unfold mempool_PushTx, mempool_fetch. take_steps.
  destruct (bad _); [left; by eexists|]. take_steps. destruct (sw_next w _) as [resp|e]; take_steps; [|right; by eexists].
  destruct (hs_StatusCode resp =? 200) eqn:E; sent resp.
Qed.

Lemma tatum_push_once t ctx raw : sends_once
  (tatum_request t "sendrawtransaction" (JArray [JString (hex_encode (byte_values raw))])) (tatum_PushTx t ctx raw).
Proof.
  apply sends_once_intro; intros w. unfold tatum_PushTx, tatum_call. take_steps.
  destruct (bad _); [left; by eexists|]. take_steps. destruct (sw_next w _) as [resp|e]; take_steps; [|right; by eexists].
  destruct (ReadAll resp) as [body|e]; take_steps; [|right; by eexists].
  destruct (hs_StatusCode resp =? 200) eqn:E; cbn [negb]; [|by destruct (_ || _); right; eexists]. take_steps.
  destruct (Unmarshal _ _ _) as [rr|e]; take_steps; [|sent resp].
  destruct (rpc_Error rr); take_steps; sent resp.
Qed.

Lemma bitref_push_once b ctx raw :
  sends_once (bitref_request b "POST" "/v1/tx/broadcast" (Some (print_json (broadcast_body raw)))) (bitref_PushTx b ctx raw).
Proof.
  apply sends_once_intro; intros w. unfold bitref_PushTx, bitref_callAPI. take_steps.
  case_bool_decide; [left; by eexists|]. case_bool_decide; [left; by eexists|]. rewrite bool_decide_false by done. take_steps.
  destruct (bad _); [left; by eexists|]. take_steps. destruct (sw_next w _) as [resp|e]; take_steps; [|right; by eexists].
  destruct (hs_StatusCode resp =? 200) eqn:E; cbn [negb]; [|by destruct (_ || _); right; eexists]. take_steps.
  destruct (ReadAll resp) as [body|e]; take_steps; [sent resp|right; by eexists].
Qed.

Lemma blockchainCom_push_once ctx raw : sends_once
  (blockchainCom_request "POST" "/pushtx" [("Content-Type", "application/x-www-form-urlencoded")]%string
     ("tx=" +:+ query_escape (hex_encode (byte_values raw)))) (blockchainCom_PushTx ctx raw).
Proof.
  apply sends_once_intro; intros w. unfold blockchainCom_PushTx. take_steps.
  destruct (bad _); [left; by eexists|]. take_steps. destruct (sw_next w _) as [resp|e]; take_steps; [|right; by eexists].
  destruct (ReadAll resp) as [body|e]; take_steps; [|right; by eexists].
  destruct (hs_StatusCode resp =? 200) eqn:E; cbn [negb]; [|right; by eexists].
  destruct (String.prefix _ _); take_steps; sent resp.
Qed.

(** ** All clients *)

(** The requests [l] of a broadcast of [raw] by [c], from a log [log]: those that
    are not for a token carry the transaction, and each that is followed by
    another was refused with 401. *)
Record broadcasts (c : client) (p : blockstream) (raw : list Byte.byte) (w : scriptWorld) (l : list httpRequest) : Prop := {
  bc_carries : Forall (fun rq => rq = token_request p
                 \/ hq_Method rq = "POST"%string /\ broadcast_tx c (hq_Body rq) = Some (byte_values raw)) l;
  bc_repeated l0 rq l1 : l = l0 ++ rq :: l1 -> rq <> token_request p -> api_requests p l1 <> [] ->
    unauthorized (sw_answer w (sw_sent w ++ l0) rq) = true;
  bc_count : (length (api_requests p l) <= match c with CBlockstream => 2 | _ => 1 end)%nat
}.

Lemma sends_once_broadcasts {R} c p raw rq (m : M scriptWorld R) w :
  sends_once rq m -> hq_Method rq = "POST"%string -> broadcast_tx c (hq_Body rq) = Some (byte_values raw) ->
  exists r p' w' l, env m (p, w) = Some (r, (p', w')) /\ sw_sent w' = sw_sent w ++ l
    /\ broadcasts c p raw w l /\ accepted w l r.
Proof.
  intros Hm Hpost Hbody. destruct (Hm w) as (r & w' & l & Heq & Hs & Hl & Hacc). exists r, p, w', l.
  unfold env. cbn [fst snd]. rewrite Heq. split_and!; [done|done| |done].
  destruct Hl as [-> | ->].
  - split; [constructor|by intros [] ? ?|cbn; lia].
  - split.
    + apply List.Forall_cons; [by right|constructor].
    + intros [|x l0] rq' l1 Hl; [by injection Hl as <- <-|]. injection Hl as -> Hl. by destruct l0.
    + etrans; [apply api_requests_one|]. destruct c; lia.
Qed.

Definition posts (c : client) (raw : list Byte.byte) (rq : httpRequest) : Prop :=
  hq_Method rq = "POST"%string /\ broadcast_tx c (hq_Body rq) = Some (byte_values raw).

Lemma no_requests p raw w t : token_part p t -> broadcasts CBlockstream p raw w t.
Proof.
  intros Ht. pose proof (token_part_requests p t Ht) as [Hr _]. destruct Ht as [-> | ->]; split; try (rewrite Hr; cbn; lia).
  - constructor.
  - by intros [] ? ?.
  - by repeat constructor.
  - intros [|x l0] rq l1 Hl Hne; [by injection Hl as <- <-|]. injection Hl as _ Hl. by destruct l0.
Qed.

(** One request, and perhaps another after a 401, each behind its token. *)
Lemma course_broadcasts p raw w t a t' rest :
  token_part p t -> token_part p t' -> posts CBlockstream raw a -> a <> token_request p ->
  (rest = [] \/ exists b, rest = [b] /\ posts CBlockstream raw b /\ unauthorized (sw_answer w (sw_sent w ++ t) a) = true) ->
  broadcasts CBlockstream p raw w (t ++ a :: t' ++ rest).
Proof.
  intros Ht Ht' Ha Hne Hrest. pose proof (token_part_requests p t Ht) as [Hr _]. pose proof (token_part_requests p t' Ht') as [Hr' _].
  split.
  - apply Forall_app. split; [destruct Ht as [-> | ->]; repeat constructor|]. apply List.Forall_cons; [by right|].
    apply Forall_app. split; [destruct Ht' as [-> | ->]; repeat constructor|].
    destruct Hrest as [-> |(b & -> & Hb & _)]; [constructor|]. apply List.Forall_cons; [by right|constructor].
  - intros l0 rq l1 Hl Hrq Hl1.
    destruct Hrest as [-> |(b & -> & Hb & Hu)]; [rewrite app_nil_r in Hl; destruct Hl1|];
      destruct Ht as [-> | ->], Ht' as [-> | ->];
      (destruct l0 as [|x0 [|x1 [|x2 [|x3 l0]]]]; cbn [app] in Hl; simplify_eq); try done; by destruct l0.
  - change (a :: t' ++ rest) with ([a] ++ t' ++ rest). rewrite !api_requests_app, Hr, Hr', !length_app.
    pose proof (api_requests_one p a). destruct Hrest as [-> |(b & -> & _)]; [|pose proof (api_requests_one p b)]; cbn in *; lia.
Qed.

Lemma blockstream_push_broadcasts ctx raw p w :
  exists r p' w' l, blockstream_PushTx ctx raw (p, w) = Some (r, (p', w')) /\ sw_sent w' = sw_sent w ++ l
    /\ broadcasts CBlockstream p raw w l /\ accepted w l r.
Proof.
  unfold blockstream_PushTx, callAPIWithStringBody. rewrite M_bind_eq, on_error_eq, M_bind_eq. cbn [receiver fst].
  set (rq := api_request _ _ _ _).
  assert (forall tok, rq tok <> token_request p) as Hne by done.
  assert (forall tok, hq_Method (rq tok) = "POST"%string /\ broadcast_tx CBlockstream (hq_Body (rq tok)) = Some (byte_values raw))
    as Hrq by (intros; split; [done|apply hex_text_back]).
  destruct (api_loop_course bad 0 ctx rq "transaction not found" "rate limit exceeded" p w)
    as (r & p' & w' & l & Heq & Hs & t & Ht & Hcase).
  assert (api_loop 2 ctx rq "transaction not found" "rate limit exceeded" false (p, w) = Some (r, (p', w'))) as -> by exact Heq.
  cbn [mbind option_bind].
  assert (exists r', match map_err (wrapping "failed to broadcast transaction via Blockstream") r with
                     | Ok body => (mret (trim_space body) : M _ _) (p', w')
                     | Err e => Some (Err e, (p', w'))
                     end = Some (r', (p', w')) /\ forall a, r' = Ok a -> exists body, r = Ok body) as (r' & -> & Hr).
  { destruct r as [body|e]; eexists; (split; [done|]); intros ? ?; [by eexists|done]. }
  assert (forall l0 tok, l = l0 ++ [rq tok] -> r = api_answer "transaction not found" "rate limit exceeded" (sw_answer w (sw_sent w ++ l0) (rq tok)) ->
    accepted w l r') as Hacc.
  { intros l0 tok Hl Ha. unfold accepted. destruct r' as [a|]; [|done]. destruct (Hr a eq_refl) as [body ->].
    symmetry in Ha. apply api_answer_Ok in Ha as (resp & Ha & H200 & _). by exists l0, (rq tok), resp. }
  exists r', p', w', l. split; [done|]. split; [done|].
  destruct Hcase as [(-> & e & ->)|[(tok & -> & _ & Ha)|(tok & Hu & [(t' & e & Ht' & -> & ->)|(tok' & -> & Ha)])]].
  - split; [by apply no_requests|]. destruct r' as [a|]; [|done]. by destruct (Hr a eq_refl).
  - split; [|by eapply Hacc]. apply (course_broadcasts p raw w t (rq tok) [] []); [done|by left|apply Hrq|done|by left].
  - split; [|by destruct r' as [a|]; [destruct (Hr a eq_refl)|]]. cbn [app].
    rewrite <-(app_nil_r t'). apply course_broadcasts; [done|done|apply Hrq|done|by left].
  - split; [|eapply (Hacc (t ++ [rq tok; token_request p])); [by rewrite <-app_assoc|done]].
    apply (course_broadcasts p raw w t (rq tok) [token_request p] [rq tok']); [done|by right|apply Hrq|done|].
    right. exists (rq tok'). split_and!; [done|apply Hrq..|done].
Qed.
End props.

(** C19: whichever HTTP client broadcasts, a call posts the transaction at most
    once, in the envelope its service reads back to exactly the given bytes;
    only the Blockstream client posts it a second time, and only after a 401.  A
    success means that the last request was answered 200. *)
Theorem broadcast_once (bad : string -> option error)
    `{!JsonErrors, !GoArchU, !MapRange, !Btcd, !BtcdWallet, !GoArch, !TimeText, !Gobcy scriptWorld} c i ctx raw p w :
  let world := script_world bad in
  client_TxBroadcaster c = Some i -> (forall q, c <> CBlockcypher q) ->
  exists r p' w' l, tb_PushTx _ i ctx raw (p, w) = Some (r, (p', w')) /\ sw_sent w' = sw_sent w ++ l
    /\ broadcasts c p raw w l /\ accepted w l r.
Proof.
  intros world Hi Hc. destruct c as [m| |q|t| |s|b| |q]; simplify_eq/=; try (by destruct (Hc q)).
  - eapply sends_once_broadcasts; [apply (mempool_push_once bad m ctx raw)|done|apply hex_text_back].
  - apply (blockstream_push_broadcasts bad).
  - eapply sends_once_broadcasts; [apply (tatum_push_once bad t ctx raw)|done|apply tatum_body_back].
  - eapply sends_once_broadcasts; [apply (bitref_push_once bad b ctx raw)|done|apply bitref_body_back].
  - eapply sends_once_broadcasts; [apply (blockchainCom_push_once bad ctx raw)|done|apply blockchainCom_body_back].
Qed.

Import ClientDemo.Instances.

Definition demo_raw : list Byte.byte := [Byte.x01; Byte.xab].

(** The login server gives the token [t2], the only one the API accepts. *)
Definition demo_service : scriptWorld := {|
  sw_clock k := Z.of_nat k; sw_ticks := 0; sw_sent := [];
  sw_answer before rq :=
    if bool_decide (rq = token_request demo_blockstream)
    then answer 200 (quotes "{'access_token':'t2','expires_in':300}")
    else if bool_decide (head (hq_Headers rq) = Some ("Authorization", "Bearer t2")%string) then answer 200 "txid"
    else answer 401 "expired" |}.

(** The first post is refused, the second accepted. *)
Example broadcast_twice :
  (fun x => match x with
            | Some (Ok id, (_, w)) => Some (id, map hq_Body (filter (fun rq => hq_URL rq = "http://api/tx"%string) (sw_sent w)))
            | _ => None
            end) (blockstream_PushTx background demo_raw (demo_blockstream, demo_service))
  = Some ("txid", ["01ab"; "01ab"])%string.
Proof. vm_compute. reflexivity. Qed.

Lemma broadcast_once_witness :
  exists r p' w' l, blockstream_PushTx background demo_raw (demo_blockstream, demo_service) = Some (r, (p', w'))
    /\ sw_sent w' = sw_sent demo_service ++ l
    /\ broadcasts CBlockstream demo_blockstream demo_raw demo_service l /\ accepted demo_service l r.
Proof.
  exact (broadcast_once (fun _ => None) CBlockstream {| tb_PushTx ctx raw := blockstream_PushTx ctx raw |} background demo_raw
           demo_blockstream demo_service eq_refl (fun q => ltac:(discriminate))).
Defined.

(** ** The identifier *)

(** The loop exchanges the elements between [i] and [j] that mirror each other. *)
Lemma swap_ends_lookup fuel i j (l : list Z) k :
  (j < i + 2 * fuel)%nat -> (j < length l)%nat ->
  swap_ends fuel i j l !! k = if decide (i <= k <= j)%nat then l !! (i + j - k)%nat else l !! k.
Proof.
  revert i j l. induction fuel as [|fuel IH]; intros i j l Hf Hj; cbn [swap_ends].
  - by rewrite decide_False by lia.
  - destruct (Nat.ltb_spec i j) as [Hij|Hij].
    + rewrite IH by (rewrite ?length_insert; lia).
      destruct (lookup_lt_is_Some_2 l i ltac:(lia)) as [a Ha]. destruct (lookup_lt_is_Some_2 l j ltac:(lia)) as [b Hb].
      rewrite !nth_lookup, Ha, Hb. cbn [default].
      assert (forall n, <[i:=b]> (<[j:=a]> l) !! n = if decide (n = i) then Some b else if decide (n = j) then Some a else l !! n) as Hl.
      { intros n. destruct (decide (n = i)) as [->|Hi]; [rewrite list_lookup_insert_eq; [done|rewrite length_insert; lia]|].
        rewrite list_lookup_insert_ne by done. destruct (decide (n = j)) as [->|Hj']; [by rewrite list_lookup_insert_eq|].
        by rewrite list_lookup_insert_ne by done. }
      rewrite !Hl. repeat case_decide; try lia; subst; try done; first [by replace (i + j - i)%nat with j by lia|
        by replace (i + j - j)%nat with i by lia|f_equal; lia].
    + case_decide; [f_equal; lia|done].
Qed.

(** The identifier computed for Blockchain.com is the hexadecimal text of
    the double SHA-256 of the transaction in reverse byte order: the loop that
    exchanges bytes from both ends reverses the digest. *)
Theorem computeTxID_reversed raw :
  computeTxID raw = hex_encode (reverse (sha256 (sha256 (byte_values raw)))).
Proof.
  unfold computeTxID. cbv zeta. f_equal. generalize (sha256 (sha256 (byte_values raw))) as l. intros l.
  destruct l as [|x l0]; [done|]. set (l := x :: l0). assert (0 < length l)%nat by (cbn; lia).
  apply list_eq. intros k. rewrite swap_ends_lookup by lia. destruct (decide (k < length l)%nat) as [Hk|Hk].
  - rewrite decide_True, reverse_lookup by lia. f_equal. lia.
  - rewrite decide_False, !lookup_ge_None_2 by (rewrite ?length_reverse; lia). done.
Qed.
