(* ===== verification/Agent.v ===== *)
(** * The cloud agent: events, options, identifiers, wire format

    [cloudagent/transport.go] (the event envelope), [options.go], [ids.go],
    [wire.go] and [recorders.go].  A recorder turns each call of the SDK into
    one event for its transport; [buildBatch] turns a slice of events into the
    batch the cloud ingests. *)

From Stdlib Require Import Ascii.
From S2P Require Import Prelude GoInt GoFloat GoString GoCodec GoHttp Store Selection.
From S2P Require Import Providers.

(** ** Events *)

Inductive ScoreEventKind :=
  | ScoreEventKindNone
  | ScoreEventKindScoreChange
  | ScoreEventKindEffective
  | ScoreEventKindEvent
  | ScoreEventKindLatency
  | ScoreEventKindStoreOp
  | ScoreEventKindCacheHit
  | ScoreEventKindProviderRank.

Definition kind_string (k : ScoreEventKind) : string :=
  match k with
  | ScoreEventKindNone => ""
  | ScoreEventKindScoreChange => "score_change"
  | ScoreEventKindEffective => "effective"
  | ScoreEventKindEvent => "event"
  | ScoreEventKindLatency => "latency"
  | ScoreEventKindStoreOp => "store_op"
  | ScoreEventKindCacheHit => "cache_hit"
  | ScoreEventKindProviderRank => "provider_rank"
  end.

Record ScoreEvent := {
  se_Provider : string;
  se_Kind : ScoreEventKind;
  se_EventType : string;
  se_ScoreType : string;
  se_Operation : string;
  se_Store : string;
  se_OldValue : f64;
  se_NewValue : f64;
  se_Score : f64;
  se_Latency : Duration;
  se_Success : bool;
  se_CacheHit : bool;
  se_Rank : Z;
  se_TotalProviders : Z;
  se_StoreErrText : string
}.

Record Event := {
  ev_CapturedAt : Time;
  ev_Request : option RequestEvent;
  ev_Score : option ScoreEvent
}.

(** ** Options *)

Inductive logger := DefaultLogger | CallerLogger (id : nat).

(** [o_OnError] says whether the callback is set. *)
Record Options := {
  o_Endpoint : string;
  o_APIKey : string;
  o_BatchSize : Z;
  o_FlushInterval : Duration;
  o_BufferSize : Z;
  o_SampleRate : f64;
  o_PollInterval : Duration;
  o_MaxBackoff : Duration;
  o_EventTTL : Duration;
  o_Chain : string;
  o_Network : string;
  o_AgentName : string;
  o_HTTPClient : option httpClient;
  o_Logger : option logger;
  o_OnError : bool
}.

Definition DefaultBatchSize : Z := 200.
Definition DefaultFlushInterval : Duration := 5 * Second.
Definition DefaultBufferSize : Z := 10000.
Definition DefaultPollInterval : Duration := 30 * Second.
Definition DefaultMaxBackoff : Duration := 5 * Minute.
Definition DefaultEventTTL : Duration := 10 * Minute.
Definition DefaultSampleRate : f64 := f64_one.
Definition DefaultChain : string := "btc".
Definition DefaultNetwork : string := "mainnet".

Definition or_pos (v d : Z) : Z := if v <=? 0 then d else v.
Definition or_text (v d : string) : string := if bool_decide (v = ""%string) then d else v.

Definition withDefaults (o : Options) : Options := {|
  o_Endpoint := o_Endpoint o;
  o_APIKey := o_APIKey o;
  o_BatchSize := or_pos (o_BatchSize o) DefaultBatchSize;
  o_FlushInterval := or_pos (o_FlushInterval o) DefaultFlushInterval;
  o_BufferSize := or_pos (o_BufferSize o) DefaultBufferSize;
  o_SampleRate := if f64_leb (o_SampleRate o) f64_zero then DefaultSampleRate else o_SampleRate o;
  o_PollInterval := or_pos (o_PollInterval o) DefaultPollInterval;
  o_MaxBackoff := or_pos (o_MaxBackoff o) DefaultMaxBackoff;
  o_EventTTL := or_pos (o_EventTTL o) DefaultEventTTL;
  o_Chain := or_text (o_Chain o) DefaultChain;
  o_Network := or_text (o_Network o) DefaultNetwork;
  o_AgentName := or_text (o_AgentName o) "chainkit-go-sdk/dev cloudagent/v1";
  o_HTTPClient := Some (default (DefaultHTTPClient (10 * Second)) (o_HTTPClient o));
  o_Logger := Some (default DefaultLogger (o_Logger o));
  o_OnError := o_OnError o
|}.

(** ** Identifiers

    The package state: the last millisecond and the last 80 bits of entropy. *)

Record idState := {
  lastMS : Z;
  lastEntropy : list Z
}.

(** The increment of a big-endian byte array, carry by carry from the end. *)
Definition incr_bytes (l : list Z) : list Z :=
  fst (foldr (fun b '(acc, carry) =>
                if (carry : bool) then let b := (b + 1) mod 256 in (b :: acc, b =? 0) else (b :: acc, false))
             ([], true) l).

Definition idAlphabet : string := "0123456789ABCDEFGHJKMNPQRSTVWXYZ".

Definition id_char (d : Z) : ascii := default "0"%char (String.get (Z.to_nat d) idAlphabet).

(** [EncodeToString] without padding: the bits in groups of five, the last
    group filled with zeros. *)
Fixpoint base32_digits (n : nat) (z : Z) (acc : string) : string :=
  match n with
  | O => acc
  | S n => base32_digits n (z / 32) (String (id_char (z mod 32)) acc)
  end.

Definition base32_encode (l : list Z) : string :=
  let bits := (8 * length l)%nat in
  let chars := ((bits + 4) / 5)%nat in
  base32_digits chars (be_word l * 2 ^ Z.of_nat (5 * chars - bits)%nat) "".

(** [newEventID]: [ms] is [uint64(time.Now().UnixMilli())], [entropy] what
    [rand.Read] leaves in the array (ten bytes). *)
Definition newEventID (ms : Z) (entropy : list Z) (s : idState) : string * idState :=
  let s := if ms =? lastMS s then {| lastMS := lastMS s; lastEntropy := incr_bytes (lastEntropy s) |}
           else {| lastMS := ms; lastEntropy := entropy |} in
  (base32_encode (map (fun k => Z.land (Z.shiftr ms k) 255) [40; 32; 24; 16; 8; 0] ++ lastEntropy s), s).

(** ** Wire format *)

Definition schemaV1 : string := "chainkit.ingest.v1".

Record wireRequest := {
  wr_Provider : string;
  wr_Operation : string;
  wr_Chain : string;
  wr_Network : string;
  wr_OK : bool;
  wr_DurMS : Z;
  wr_Attempts : Z;
  wr_Err : string
}.

Record wireScore := {
  ws_Type : string;
  ws_Provider : string;
  ws_EventType : string;
  ws_ScoreType : string;
  ws_Operation : string;
  ws_Store : string;
  ws_OldValue : f64;
  ws_NewValue : f64;
  ws_Score : f64;
  ws_RTMS : Z;
  ws_Success : bool;
  ws_CacheHit : bool;
  ws_Rank : Z;
  ws_TotalProviders : Z;
  ws_StoreErr : string
}.

Record wireEnvelope := {
  we_ID : string;
  we_T : Time;
  we_Kind : string;
  we_Req : option wireRequest;
  we_Score : option wireScore
}.

Record wireBatch := {
  wb_Schema : string;
  wb_Agent : string;
  wb_BatchID : string;
  wb_SentAt : Time;
  wb_Events : list wireEnvelope
}.

(** [int32(d.Milliseconds())] and [int16(n)] keep the low bits. *)
Definition wire_request (opts : Options) (r : RequestEvent) : wireRequest := {|
  wr_Provider := re_Provider r; wr_Operation := re_Operation r; wr_Chain := o_Chain opts;
  wr_Network := o_Network opts; wr_OK := re_Success r; wr_DurMS := wrap_bits 32 (duration_ms (re_Duration r));
  wr_Attempts := wrap_bits 16 (re_AttemptCount r); wr_Err := re_ErrorClass r |}.

Definition wire_score (s : ScoreEvent) : wireScore := {|
  ws_Type := kind_string (se_Kind s); ws_Provider := se_Provider s; ws_EventType := se_EventType s;
  ws_ScoreType := se_ScoreType s; ws_Operation := se_Operation s; ws_Store := se_Store s;
  ws_OldValue := se_OldValue s; ws_NewValue := se_NewValue s; ws_Score := se_Score s;
  ws_RTMS := if 0 <? se_Latency s then wrap_bits 32 (duration_ms (se_Latency s)) else 0;
  ws_Success := se_Success s; ws_CacheHit := se_CacheHit s; ws_Rank := se_Rank s;
  ws_TotalProviders := se_TotalProviders s; ws_StoreErr := se_StoreErrText s |}.

(** One event's envelope; an event without payload has none. *)
Definition envelope (opts : Options) (ev : Event) (id : string) : option wireEnvelope :=
  match ev_Request ev, ev_Score ev with
  | Some r, _ => Some {| we_ID := id; we_T := ev_CapturedAt ev; we_Kind := "req";
                         we_Req := Some (wire_request opts r); we_Score := None |}
  | None, Some s => Some {| we_ID := id; we_T := ev_CapturedAt ev; we_Kind := "score";
                            we_Req := None; we_Score := Some (wire_score s) |}
  | None, None => None
  end.

(** [json.Marshal] of an envelope. *)
Definition score_floats_ok (s : wireScore) : bool :=
  json_float_ok (ws_OldValue s) && json_float_ok (ws_NewValue s) && json_float_ok (ws_Score s).

Definition envelope_error (e : wireEnvelope) : option error :=
  if negb (json_time_ok (we_T e)) then Some json_time_error
  else match we_Score e with
       | Some s => if score_floats_ok s then None else Some json_float_error
       | None => None
       end.

Fixpoint first_error {A} (f : A -> option error) (l : list A) : option error :=
  match l with [] => None | a :: l => match f a with Some e => Some e | None => first_error f l end end.

Definition marshal (wb : wireBatch) : result wireBatch :=
  if negb (json_time_ok (wb_SentAt wb)) then Err json_time_error
  else match first_error envelope_error (wb_Events wb) with Some e => Err e | None => Ok wb end.

Section batch.
Context {G : Type} (idGen : G -> string * G).

(** The generator is called once per event that has a payload. *)
Fixpoint envelopes (opts : Options) (events : list Event) (g : G) : list wireEnvelope * G :=
  match events with
  | [] => ([], g)
  | ev :: events =>
      match envelope opts ev "" with
      | None => envelopes opts events g
      | Some _ =>
          let '(id, g) := idGen g in
          let '(es, g) := envelopes opts events g in
          (option_list (envelope opts ev id) ++ es, g)
      end
  end.

Definition buildBatch (events : list Event) (opts : Options) (batchID : string) (sentAt : Time) (g : G)
    : result wireBatch * G :=
  let '(es, g) := envelopes opts events g in
  (marshal {| wb_Schema := schemaV1; wb_Agent := o_AgentName opts; wb_BatchID := batchID;
              wb_SentAt := sentAt; wb_Events := es |}, g).
End batch.

(** ** Recorders *)

(** [shouldSample] over the source's reading. *)
Definition shouldSample `{GoRand} (rate : f64) (seed : Z) : bool * Z :=
  if f64_leb f64_one rate then (true, seed)
  else if f64_leb rate f64_zero then (false, seed)
  else let '(x, seed) := rand_Float64 seed in (f64_ltb x rate, seed).

Definition request_event (now : Time) (e : RequestEvent) : Event := {|
  ev_CapturedAt := now; ev_Request := Some e; ev_Score := None |}.

(** The event a call of the older interface is turned into. *)
Definition rich_event (r : recorded) : RequestEvent :=
  match r with
  | RecordBlockchainRequest provider operation success duration => {|
      re_Provider := provider; re_Operation := operation; re_Success := success; re_Duration := duration;
      re_AttemptCount := 0; re_ErrorClass := "" |}
  | RecordBlockchainRequestRich e => e
  end.

(** [RecordBlockchainRequest(Rich)]: what is pushed, if the sample is taken. *)
Definition record_blockchain_request `{GoRand} (opts : Options) (r : recorded) (now : Time) (seed : Z)
    : option Event * Z :=
  let '(yes, seed) := shouldSample (o_SampleRate opts) seed in
  (if yes then Some (request_event now (rich_event r)) else None, seed).

(** The score event each method of the scoring recorder pushes. *)
Definition score_event (m : metric) : ScoreEvent :=
  let z := f64_zero in
  let mk provider kind eventType scoreType operation store old new score latency success hit rank total errText := {|
    se_Provider := provider; se_Kind := kind; se_EventType := eventType; se_ScoreType := scoreType;
    se_Operation := operation; se_Store := store; se_OldValue := old; se_NewValue := new; se_Score := score;
    se_Latency := latency; se_Success := success; se_CacheHit := hit; se_Rank := rank;
    se_TotalProviders := total; se_StoreErrText := errText |} in
  match m with
  | RecordScoreChange p t old new =>
      mk p ScoreEventKindScoreChange "" t "" "" old new z 0 false false 0 0 ""
  | RecordEffectiveScore p score =>
      mk p ScoreEventKindEffective "" "effective" "" "" z z score 0 false false 0 0 ""
  | RecordEventMetric p t success =>
      mk p ScoreEventKindEvent t "" "" "" z z z 0 success false 0 0 ""
  | RecordLatencyMetric p operation d =>
      mk p ScoreEventKindLatency "" "" operation "" z z z d false false 0 0 ""
  | RecordStoreOperation store operation d err =>
      mk "" ScoreEventKindStoreOp "" "" operation store z z z d (bool_decide (err = None)) false 0 0
        (if bool_decide (err = None) then "" else "error")
  | RecordCacheHit store hit =>
      mk "" ScoreEventKindCacheHit "" "" "" store z z z 0 false hit 0 0 ""
  | RecordProviderRank p rank total =>
      mk p ScoreEventKindProviderRank "" "" "" "" z z z 0 false false rank total ""
  end%string.

Definition score_push (now : Time) (m : metric) : Event := {|
  ev_CapturedAt := now; ev_Request := None; ev_Score := Some (score_event m) |}.
