(* ===== verification/AgentProps.v ===== *)
(** * Event identifiers sort in emission order

    [newEventID] of [cloudagent/ids.go]: an identifier is the base-32 text of
    a 128-bit number, milliseconds first, and successive numbers increase. *)

From Stdlib Require Import Ascii.
From S2P Require Import Prelude GoInt GoFloat GoString GoCodec GoHttp Agent.

(** ** The order of strings *)

(** Go's [<] on strings: bytewise. *)
Fixpoint str_ltb (a b : string) : bool :=
  match a, b with
  | EmptyString, String _ _ => true
  | String x a, String y b => (code x <? code y) || ((code x =? code y) && str_ltb a b)
  | _, EmptyString => false
  end.

Lemma id_char_lt i j : 0 <= i < j -> j < 32 -> code (id_char i) < code (id_char j).
Proof.
  intros Hi Hj.
  assert (forallb (fun b => forallb (fun a => (b <=? a)%nat || (code (id_char (Z.of_nat a)) <? code (id_char (Z.of_nat b))))
            (seq 0 32)) (seq 0 32) = true) as Hall by reflexivity.
  rewrite forallb_forall in Hall. specialize (Hall (Z.to_nat j) ltac:(apply in_seq; lia)).
  rewrite forallb_forall in Hall. specialize (Hall (Z.to_nat i) ltac:(apply in_seq; lia)).
  apply orb_prop in Hall as [Hle|Hlt]; [apply Nat.leb_le in Hle; lia|].
  rewrite !Z2Nat.id in Hlt by lia. go_lia.
Qed.

Lemma base32_eq n z a b : str_ltb (base32_digits n z a) (base32_digits n z b) = str_ltb a b.
Proof.
  revert z a b. induction n as [|n IH]; intros z a b; [done|]. cbn [base32_digits]. rewrite IH. cbn.
  by rewrite Z.ltb_irrefl, Z.eqb_refl.
Qed.

(** Fixed-width base-32 text is ordered as the numbers are. *)
Lemma base32_lt n x y a b :
  0 <= x < y -> y < 32 ^ Z.of_nat n -> str_ltb (base32_digits n x a) (base32_digits n y b) = true.
Proof.
  revert x y a b. induction n as [|n IH]; intros x y a b Hx Hy; [cbn in Hy; lia|]. cbn [base32_digits].
  rewrite Nat2Z.inj_succ, Z.pow_succ_r in Hy by lia.
  pose proof (Z.div_mod x 32 ltac:(lia)). pose proof (Z.div_mod y 32 ltac:(lia)).
  pose proof (Z.mod_pos_bound x 32 ltac:(lia)). pose proof (Z.mod_pos_bound y 32 ltac:(lia)). assert (0 <= x / 32) by (apply Z.div_pos; lia).
  destruct (Z.lt_trichotomy (x / 32) (y / 32)) as [Hlt|[Heq|Hgt]]; [|rewrite Heq, base32_eq; cbn [str_ltb]|lia].
  - apply IH; [lia|]. apply Z.div_lt_upper_bound; lia.
  - pose proof (id_char_lt (x mod 32) (y mod 32) ltac:(lia) ltac:(lia)). apply orb_true_iff. left. by apply Z.ltb_lt.
Qed.

(** ** Big-endian numbers *)

Lemma be_word_snoc l b : be_word (l ++ [b]) = 256 * be_word l + b.
Proof. unfold be_word. by rewrite foldl_app. Qed.

Lemma be_word_app a b : be_word (a ++ b) = be_word a * 256 ^ zlen b + be_word b.
Proof.
  induction b as [|x b IH] using rev_ind.
  { rewrite app_nil_r. change (256 ^ zlen (@nil Z)) with 1. change (be_word []) with 0. lia. }
  rewrite app_assoc, !be_word_snoc, IH, zlen_app. change (zlen [x]) with 1.
  rewrite Z.pow_add_r by (pose proof (zlen_nonneg b); lia). lia.
Qed.

Lemma be_word_range l : Forall is_byte l -> 0 <= be_word l < 256 ^ zlen l.
Proof.
  unfold is_byte. induction l as [|x l IH] using rev_ind; [by cbn|]. intros [Hl Hx]%Forall_app.
  apply Forall_cons in Hx as [Hx _]. specialize (IH Hl). rewrite be_word_snoc, zlen_app. change (zlen [x]) with 1.
  rewrite Z.pow_add_r by (pose proof (zlen_nonneg l); lia). change (256 ^ 1) with 256. lia.
Qed.

Lemma be_bytes_S n z : be_bytes (S n) z = Z.land (Z.shiftr z (8 * Z.of_nat n)) 255 :: be_bytes n z.
Proof. unfold be_bytes. by rewrite seq_S, rev_app_distr. Qed.

Lemma zlen_be_bytes n z : zlen (be_bytes n z) = Z.of_nat n.
Proof. unfold zlen, be_bytes. by rewrite length_map, length_rev, length_seq. Qed.

Lemma be_word_be_bytes n z : 0 <= z -> be_word (be_bytes n z) = z mod 256 ^ Z.of_nat n.
Proof.
  intros Hz. induction n as [|n IH]; [by rewrite Z.mod_1_r|]. rewrite be_bytes_S.
  change (?x :: be_bytes n z) with ([x] ++ be_bytes n z). rewrite be_word_app, IH, zlen_be_bytes.
  change (be_word [?x]) with (256 * 0 + x). change 255 with (Z.ones 8). rewrite Z.land_ones, Z.shiftr_div_pow2 by lia.
  rewrite Z.pow_mul_r by lia. change (2 ^ 8) with 256. set (p := 256 ^ Z.of_nat n).
  assert (0 < p) by (apply Z.pow_pos_nonneg; lia). rewrite Nat2Z.inj_succ, Z.pow_succ_r by lia. fold p.
  rewrite (Z.mul_comm 256 p), Z.rem_mul_r by lia. lia.
Qed.

(** The increment, with the carry out. *)
Lemma incr_bytes_spec l :
  Forall is_byte l ->
  let r := foldr (fun b '(acc, carry) =>
             if (carry : bool) then let b := (b + 1) mod 256 in (b :: acc, b =? 0) else (b :: acc, false)) ([], true) l in
  Forall is_byte r.1 /\ length r.1 = length l
  /\ be_word r.1 + (if (r.2 : bool) then 256 ^ zlen l else 0) = be_word l + 1.
Proof.
  unfold is_byte. induction 1 as [|b l Hb Hl IH]; [done|]. cbn [foldr].
  destruct (foldr _ _ l) as [acc carry]. cbn [fst snd] in IH. destruct IH as (Hacc & Hlen & Hv).
  assert (Hz : zlen acc = zlen l) by (unfold zlen; by rewrite Hlen).
  assert (Hw : forall x k, be_word (x :: k) = x * 256 ^ zlen k + be_word k).
  { intros x k. change (x :: k) with ([x] ++ k). by rewrite be_word_app. }
  assert (0 < 256 ^ zlen l) by (apply Z.pow_pos_nonneg; [lia|apply zlen_nonneg]).
  rewrite zlen_cons, Z.pow_add_r, Hw by (pose proof (zlen_nonneg l); lia).
  destruct carry; cbn [fst snd length].
  - pose proof (Z.mod_pos_bound (b + 1) 256 ltac:(lia)). split; [by constructor|]. split; [by rewrite Hlen|].
    rewrite Hw, Hz. destruct ((b + 1) mod 256 =? 0) eqn:E; go_bool.
    + assert (b = 255) by (destruct (Z.eq_dec b 255); [done|]; rewrite Z.mod_small in E; lia).
      rewrite E. subst b. change (256 ^ 1) with 256. lia.
    + rewrite Z.mod_small in * by (destruct (Z.eq_dec b 255); [subst b; done|lia]). lia.
  - split; [by constructor|]. split; [by rewrite Hlen|]. rewrite Hw, Hz. lia.
Qed.

(** ** Identifiers as numbers *)

(** A package state with ten bytes of entropy. *)
Definition id_ok (s : idState) : Prop :=
  0 <= lastMS s < 2 ^ 48 /\ Forall is_byte (lastEntropy s) /\ length (lastEntropy s) = 10%nat.

Definition id_value (s : idState) : Z := lastMS s * 2 ^ 80 + be_word (lastEntropy s).

Definition id_text (z : Z) : string := base32_digits 26 (z * 4) "".

Lemma id_value_range s : id_ok s -> 0 <= id_value s < 2 ^ 128.
Proof.
  intros (Hm & Hb & Hl). pose proof (be_word_range _ Hb) as Hr. unfold zlen in Hr. rewrite Hl in Hr.
  change (256 ^ Z.of_nat 10) with (2 ^ 80) in Hr. unfold id_value. lia.
Qed.

Lemma id_text_lt x y : 0 <= x < y -> y < 2 ^ 128 -> str_ltb (id_text x) (id_text y) = true.
Proof. intros Hx Hy. apply base32_lt; [lia|]. change (32 ^ Z.of_nat 26) with (2 ^ 130). lia. Qed.

(** The readings of one call. *)
Definition reading_ok (room : Z) (r : Z * list Z) : Prop :=
  0 <= r.1 < 2 ^ 48 /\ Forall is_byte r.2 /\ length r.2 = 10%nat /\ be_word r.2 + room < 2 ^ 80.

Definition id_room (room : Z) (s : idState) : Prop := id_ok s /\ be_word (lastEntropy s) + room < 2 ^ 80.

Lemma newEventID_spec room ms e s :
  0 < room -> id_room room s -> reading_ok room (ms, e) -> lastMS s <= ms ->
  let '(id, s') := newEventID ms e s in
  id = id_text (id_value s') /\ id_value s < id_value s' /\ id_room (room - 1) s' /\ lastMS s' = ms.
Proof.
  intros Hroom [(Hm & Hb & Hl) Hr] (Hms & Heb & Hel & Her) Hle. cbn [fst snd] in Hms, Heb, Hel, Her. unfold newEventID.
  assert (Hid : forall s', lastMS s' = ms -> id_ok s' ->
    base32_encode (map (fun k => Z.land (Z.shiftr ms k) 255) [40; 32; 24; 16; 8; 0] ++ lastEntropy s')
    = id_text (id_value s')).
  { intros s' Hs' (_ & Hb' & Hl'). change (map _ _) with (be_bytes 6 ms). unfold base32_encode.
    rewrite be_word_app, be_word_be_bytes by lia. rewrite Z.mod_small by (change (256 ^ Z.of_nat 6) with (2 ^ 48); lia).
    unfold zlen. rewrite length_app, Hl'. change (length (be_bytes 6 ms)) with 6%nat. unfold id_text, id_value.
    by rewrite Hs'. }
  destruct (ms =? lastMS s) eqn:E; go_bool.
  - subst ms. pose proof (incr_bytes_spec _ Hb) as (Hb' & Hl' & Hv). unfold incr_bytes.
    set (r := foldr _ _ _) in *. pose proof (be_word_range _ Hb') as Hrange.
    unfold zlen in Hrange, Hv. rewrite Hl', Hl in *. change (256 ^ Z.of_nat 10) with (2 ^ 80) in *.
    assert (Hw : be_word r.1 = be_word (lastEntropy s) + 1) by (destruct r.2; lia).
    set (s' := {| lastMS := lastMS s; lastEntropy := r.1 |}).
    assert (Hok : id_ok s') by (unfold s', id_ok; cbn; by rewrite Hl').
    split; [by apply Hid|]. unfold id_value, id_room.
    change (lastEntropy s') with r.1. change (lastMS s') with (lastMS s). rewrite Hw. split_and!; [lia|done|lia|done].
  - set (s' := {| lastMS := ms; lastEntropy := e |}). assert (Hok : id_ok s') by done.
    split; [by apply Hid|]. pose proof (id_value_range s (conj Hm (conj Hb Hl))). pose proof (be_word_range _ Hb) as H1.
    pose proof (be_word_range _ Heb) as H2. unfold zlen in H1, H2. rewrite Hl in H1. rewrite Hel in H2.
    change (256 ^ Z.of_nat 10) with (2 ^ 80) in *. unfold id_value, id_room.
    change (lastEntropy s') with e. change (lastMS s') with ms. split_and!; [nia|done|lia|done].
Qed.

(** The identifiers of a sequence of calls. *)
Fixpoint new_ids (l : list (Z * list Z)) (s : idState) : list string :=
  match l with
  | [] => []
  | (ms, e) :: l => let '(id, s) := newEventID ms e s in id :: new_ids l s
  end.

Lemma new_ids_values room l s :
  zlen l <= room -> id_room room s -> Forall (reading_ok room) l -> Sorted Z.le (lastMS s :: l.*1) ->
  exists vs, new_ids l s = map id_text vs /\ StronglySorted Z.lt (id_value s :: vs)
    /\ Forall (fun v => 0 <= v < 2 ^ 128) vs.
Proof.
  revert room s. induction l as [|[ms e] l IH]; intros room s Hn Hs Hl Hsort.
  { exists []. split_and!; [done|by repeat constructor|done]. }
  apply Forall_cons in Hl as [Hr Hl]. rewrite zlen_cons in Hn. pose proof (zlen_nonneg l).
  apply Sorted_inv in Hsort as [Hsort Hle]. apply HdRel_inv in Hle. cbn in Hle.
  pose proof (newEventID_spec room ms e s ltac:(lia) Hs Hr Hle) as Hsp. cbn [new_ids].
  destruct (newEventID ms e s) as [id s']. destruct Hsp as (-> & Hlt & Hs' & Hms).
  destruct (IH (room - 1) s') as (vs & -> & Hss & Hvs); [lia|done| |by rewrite Hms|].
  { eapply Forall_impl; [done|]. intros r (? & ? & ? & ?). refine (conj _ (conj _ (conj _ _))); [done..|lia]. }
  exists (id_value s' :: vs). split; [done|]. destruct Hs' as [Hok' _]. split.
  - constructor; [done|]. constructor; [done|]. apply StronglySorted_inv in Hss as [_ Hall].
    eapply Forall_impl; [exact Hall|]. intros x Hx. lia.
  - constructor; [by apply id_value_range|done].
Qed.

(** Identifiers sort in emission order: over any sequence of calls in which
    the clock does not go backwards (milliseconds below 2^48) and the entropy
    of a millisecond has room for the calls, every identifier is, as a
    string, smaller than all later ones; so no two are equal. *)
Theorem newEventID_sorted l s :
  id_ok s -> be_word (lastEntropy s) + zlen l < 2 ^ 80 ->
  Forall (reading_ok (zlen l)) l -> Sorted Z.le (lastMS s :: l.*1) ->
  StronglySorted (fun a b => str_ltb a b = true) (new_ids l s).
Proof.
  intros Hs Hroom Hl Hsort.
  destruct (new_ids_values (zlen l) l s ltac:(lia) (conj Hs Hroom) Hl Hsort) as (vs & -> & Hss & Hvs).
  apply StronglySorted_inv in Hss as [Hss _]. induction Hss as [|v vs Hss IH Hlt]; [constructor|].
  apply Forall_cons in Hvs as [Hv Hvs]. cbn. constructor; [by apply IH|].
  apply Forall_map. rewrite Forall_forall in *. intros x Hx. apply id_text_lt; [split; [lia|by apply Hlt]|by apply Hvs].
Qed.

(** Three calls, two of them in the same millisecond. *)
Definition demo_readings_ok : list (Z * list Z) :=
  [(1704067200000, replicate 10 9); (1704067200000, replicate 10 7); (1704067200001, replicate 10 0)].

Definition initial_ids : idState := {| lastMS := 0; lastEntropy := replicate 10 0 |}.

Example demo_ids :
  new_ids demo_readings_ok initial_ids
  = ["066C4MFM004GJ289144GJ28914"; "066C4MFM004GJ289144GJ28918"; "066C4MFM040000000000000000"]%string.
Proof. by vm_compute. Qed.

Lemma newEventID_sorted_witness :
  StronglySorted (fun a b => str_ltb a b = true) (new_ids demo_readings_ok initial_ids).
Proof.
  apply newEventID_sorted.
  - unfold id_ok, is_byte. apply (bool_decide_unpack _). by vm_compute.
  - by vm_compute.
  - unfold reading_ok, is_byte. apply (bool_decide_unpack _). by vm_compute.
  - repeat constructor; vm_compute; congruence.
Defined.
