(* ===== verification/Transport.v ===== *)
(** * The telemetry transport

    [cloudagent/http_transport.go]: a bounded buffer with drop-oldest overflow,
    a sequential flush loop with backoff, a sticky terminal state and a bounded
    drain at shutdown.

    [Push] runs in any goroutine; every other operation runs in the loop
    goroutine.  Each section under the mutex is one function on the state.  While
    a request is in flight other goroutines may push: [aw_pushed] gives the
    events they pushed.  The environment (clock, identifiers, URL parser, HTTP
    client) is a state [W] with the operations of [AgentWorld]. *)

From S2P Require Import Prelude GoInt GoFloat GoString GoCodec GoHttp Store Selection.
From S2P Require Import Providers Agent.

(** ** State *)

(** What the logger and the [OnError] callback receive. *)
Inductive report :=
  | LogDisabled (e : error)
  | LogFlushFailed (e : error) (next_backoff : Duration)
  | LogDrainFailed (e : error)
  | CallOnError (e : error).

(** [ht_signal]: the size-1 channel holds a signal; [ht_stopped]: [stopCh] is
    closed; [ht_done]: [doneCh] is closed. *)
Record httpTransport := {
  ht_opts : Options;
  ht_url : string;
  ht_buf : list Event;
  ht_inflight : list Event;
  ht_terminalErr : option error;
  ht_drainErr : option error;
  ht_dropped : Z;
  ht_signal : bool;
  ht_stopped : bool;
  ht_done : bool;
  ht_reports : list report
}.

Definition set_ht_queue (buf inflight : list Event) t : httpTransport := {|
  ht_opts := ht_opts t; ht_url := ht_url t; ht_buf := buf; ht_inflight := inflight;
  ht_terminalErr := ht_terminalErr t; ht_drainErr := ht_drainErr t; ht_dropped := ht_dropped t;
  ht_signal := ht_signal t; ht_stopped := ht_stopped t; ht_done := ht_done t; ht_reports := ht_reports t |}.
Definition set_ht_errors (terminal drain : option error) t : httpTransport := {|
  ht_opts := ht_opts t; ht_url := ht_url t; ht_buf := ht_buf t; ht_inflight := ht_inflight t;
  ht_terminalErr := terminal; ht_drainErr := drain; ht_dropped := ht_dropped t;
  ht_signal := ht_signal t; ht_stopped := ht_stopped t; ht_done := ht_done t; ht_reports := ht_reports t |}.
(** [t.dropped.Add(n)]. *)
Definition add_dropped (n : Z) t : httpTransport := {|
  ht_opts := ht_opts t; ht_url := ht_url t; ht_buf := ht_buf t; ht_inflight := ht_inflight t;
  ht_terminalErr := ht_terminalErr t; ht_drainErr := ht_drainErr t; ht_dropped := wrapu64 (ht_dropped t + n);
  ht_signal := ht_signal t; ht_stopped := ht_stopped t; ht_done := ht_done t; ht_reports := ht_reports t |}.
Definition set_ht_channels (signal stopped done : bool) t : httpTransport := {|
  ht_opts := ht_opts t; ht_url := ht_url t; ht_buf := ht_buf t; ht_inflight := ht_inflight t;
  ht_terminalErr := ht_terminalErr t; ht_drainErr := ht_drainErr t; ht_dropped := ht_dropped t;
  ht_signal := signal; ht_stopped := stopped; ht_done := done; ht_reports := ht_reports t |}.
Definition add_reports (l : list report) t : httpTransport := {|
  ht_opts := ht_opts t; ht_url := ht_url t; ht_buf := ht_buf t; ht_inflight := ht_inflight t;
  ht_terminalErr := ht_terminalErr t; ht_drainErr := ht_drainErr t; ht_dropped := ht_dropped t;
  ht_signal := ht_signal t; ht_stopped := ht_stopped t; ht_done := ht_done t; ht_reports := ht_reports t ++ l |}.

Definition newHTTPTransport (opts : Options) : httpTransport := {|
  ht_opts := opts; ht_url := o_Endpoint opts +:+ "/v1/ingest"; ht_buf := []; ht_inflight := [];
  ht_terminalErr := None; ht_drainErr := None; ht_dropped := 0; ht_signal := false; ht_stopped := false;
  ht_done := false; ht_reports := [] |}.

(** A logger record, and the callback when there is one. *)
Definition notify (log : report) (err : error) t : httpTransport :=
  add_reports (log :: if o_OnError (ht_opts t) then [CallOnError err] else []) t.

(** ** The sections under the mutex *)

Definition isTerminal t : bool := bool_decide (is_Some (ht_terminalErr t)).

(** [Push]: slicing an empty buffer panics, which takes a negative or zero
    [BufferSize]. *)
Definition Push (e : Event) t : go httpTransport :=
  if isTerminal t then Some (add_dropped 1 t)
  else
    t ← (if o_BufferSize (ht_opts t) <=? zlen (ht_buf t) then
           match ht_buf t with
           | [] => None
           | _ :: buf => Some (add_dropped 1 (set_ht_queue buf (ht_inflight t) t))
           end
         else Some t);
    let t := set_ht_queue (ht_buf t ++ [e]) (ht_inflight t) t in
    let needsFlush := o_BatchSize (ht_opts t) <=? zlen (ht_buf t) in
    Some (if needsFlush then set_ht_channels true (ht_stopped t) (ht_done t) t else t).

Definition setTerminal (err : error) t : httpTransport :=
  if isTerminal t then t
  else
    let discarded := zlen (ht_buf t) + zlen (ht_inflight t) in
    let t := set_ht_queue [] [] (set_ht_errors (Some err) (ht_drainErr t) t) in
    let t := if 0 <? discarded then add_dropped discarded t else t in
    notify (LogDisabled err) err t.

Definition Dropped t : Z := ht_dropped t.

(** The events at the head that are older than the cutoff. *)
Fixpoint stale_prefix (cutoff : Time) (buf : list Event) : nat :=
  match buf with
  | e :: buf => if time_before (ev_CapturedAt e) cutoff then S (stale_prefix cutoff buf) else O
  | [] => O
  end.

Definition pruneStale (now : Time) t : httpTransport :=
  let cutoff := time_add now (wrap64 (- o_EventTTL (ht_opts t))) in
  let n := stale_prefix cutoff (ht_buf t) in
  if (0 <? n)%nat then add_dropped (Z.of_nat n) (set_ht_queue (drop n (ht_buf t)) (ht_inflight t) t) else t.

(** [takeInflight]: a negative [BatchSize] makes the slice expression panic. *)
Definition takeInflight t : go httpTransport :=
  if negb (zlen (ht_inflight t) =? 0) then Some t
  else
    let n := zlen (ht_buf t) in
    let n := if o_BatchSize (ht_opts t) <? n then o_BatchSize (ht_opts t) else n in
    if n =? 0 then Some t
    else if n <? 0 then None
    else Some (set_ht_queue (drop (Z.to_nat n) (ht_buf t)) (take (Z.to_nat n) (ht_buf t)) t).

Definition discardInflight t : httpTransport := set_ht_queue (ht_buf t) [] t.

(** The batch counted as dropped and cleared. *)
Definition drop_batch t : httpTransport := discardInflight (add_dropped (zlen (ht_inflight t)) t).

Definition returnInflightToHead t : go httpTransport :=
  if zlen (ht_inflight t) =? 0 then Some t
  else
    let combined := ht_inflight t ++ ht_buf t in
    let n := zlen combined - o_BufferSize (ht_opts t) in
    if 0 <? n then
      if zlen combined <? n then None
      else Some (add_dropped n (set_ht_queue (drop (Z.to_nat n) combined) [] t))
    else Some (set_ht_queue combined [] t).

(** ** Flushing *)

Record agentRequest := {
  ar_URL : string;
  ar_Headers : list (string * string);
  ar_Client : option httpClient;
  ar_Body : wireBatch;
  ar_Deadline : bool
}.

Class AgentWorld (W : Type) := {
  aw_now : W -> Time * W;
  aw_id : W -> string * W;
  (** [http.NewRequestWithContext]: the error of a URL that does not parse *)
  aw_url : string -> option error;
  (** [Client.Do]: the status, once the body is drained *)
  aw_do : agentRequest -> W -> result Z * W;
  (** the events pushed by other goroutines during the request *)
  aw_pushed : W -> list Event * W
}.

(** The verdict on an answer. *)
Definition terminal_error (status : Z) : error :=
  errOther ("chainkit rejected the API key (status " +:+ format_int status
            +:+ "): telemetry will not be delivered — check cloudagent.Options.APIKey").

Definition poison_error (status dropped : Z) : error :=
  errOther ("non-retryable status " +:+ format_int status +:+ " (dropped " +:+ format_int dropped +:+ " events)").

Definition handle_response (r : result Z) t : go (bool * option error * httpTransport) :=
  match r with
  | Err e => t ← returnInflightToHead t; Some (false, Some (errWrap "post: " e ""), t)
  | Ok status =>
      if status_ok status then Some (true, None, discardInflight t)
      else if (status =? 429) || (500 <=? status) then
        t ← returnInflightToHead t;
        Some (false, Some (errOther ("retryable status " +:+ format_int status)), t)
      else if (status =? 401) || (status =? 403) then
        let err := terminal_error status in
        Some (false, Some err, setTerminal err (drop_batch t))
      else
        let n := zlen (ht_inflight t) in
        Some (false, Some (poison_error status n), drop_batch t)
  end.

Definition batch_request (deadline : bool) (body : wireBatch) t : agentRequest := {|
  ar_URL := ht_url t;
  ar_Headers := [("Content-Type", "application/json"); ("Authorization", "Bearer " +:+ o_APIKey (ht_opts t));
                 ("User-Agent", o_AgentName (ht_opts t))]%string;
  ar_Client := o_HTTPClient (ht_opts t); ar_Body := body; ar_Deadline := deadline |}.

Section flush.
Context {W : Type} `{AgentWorld W}.

(** [flushOnce]; [deadline] says whether the context carries the drain deadline. *)
Definition flushOnce (deadline : bool) t (w : W) : go (bool * option error * httpTransport * W) :=
  if isTerminal t then Some (false, None, t, w)
  else
    t ← takeInflight t;
    if zlen (ht_inflight t) =? 0 then Some (false, None, t, w)
    else
      let '(id, w) := aw_id w in
      let '(now, w) := aw_now w in
      let '(body, w) := buildBatch aw_id (ht_inflight t) (ht_opts t) id now w in
      match body with
      | Err e => Some (false, Some (errWrap "serialise: " e ""), drop_batch t, w)
      | Ok body =>
          match aw_url (ht_url t) with
          | Some e => t ← returnInflightToHead t; Some (false, Some (errWrap "build request: " e ""), t, w)
          | None =>
              let '(resp, w) := aw_do (batch_request deadline body t) w in
              let '(events, w) := aw_pushed w in
              t ← go_foldl (fun t e => Push e t) t events;
              '(ok, err, t) ← handle_response resp t;
              Some (ok, err, t, w)
          end
      end.

(** ** Backoff *)

Definition minBackoff : Duration := 250 * Millisecond.

(** [nextBackoff]; [int63n] and [coin] are the readings of the random source.
    [rand.Int63n] panics unless its argument is positive. *)
Definition nextBackoff (int63n : Z -> Z) (coin : Z) (current max : Duration) : go Duration :=
  let current := if current <=? 0 then minBackoff else wrap64 (current * 2) in
  let current := if max <? current then max else current in
  let fifth := Z.quot current 5 in
  if fifth <=? 0 then None
  else
    let jitter := int63n fifth in
    Some (if coin =? 0 then wrap64 (current - jitter) else wrap64 (current + jitter)).

(** ** The loop *)

Definition pending t : Z := zlen (ht_buf t) + zlen (ht_inflight t).

Definition drain_error (n : Z) (err : error) : error :=
  errWrap (format_int n +:+ " telemetry events undelivered at shutdown: ") err "".

(** [drainAndExit]: [None] of the inner option is running out of fuel. *)
Fixpoint drainAndExit (fuel : nat) t (w : W) : go (option (httpTransport * W)) :=
  match fuel with
  | O => Some None
  | S fuel =>
      let n := pending t in
      if n =? 0 then Some (Some (t, w))
      else
        '(ok, err, t, w) ← flushOnce true t w;
        if (ok : bool) then drainAndExit fuel t w
        else if isTerminal t then Some (Some (t, w))
        else
          match err with
          | None => drainAndExit fuel t w
          | Some err =>
              let e := drain_error n err in
              Some (Some (notify (LogDrainFailed e) e (set_ht_errors (ht_terminalErr t) (Some e) t), w))
          end
  end.

(** What woke the loop up. *)
Inductive wake := WakeStop | WakeTicker | WakeSignal.

(** The loop goroutine returns: [doneCh] is closed. *)
Definition loop_exit (fuel : nat) t (w : W) : go (option (httpTransport * W)) :=
  r ← drainAndExit fuel t w;
  Some ('(t, w) ← r; Some (set_ht_channels (ht_signal t) (ht_stopped t) true t, w)).

(** The backoff after a flush, with what is reported. *)
Definition after_flush (ok : bool) (err : option error) (int63n : Z -> Z) (coin : Z) (backoff : Duration) t
    : go (Duration * httpTransport) :=
  if ok then Some (0, t)
  else
    match err with
    | None => Some (0, t)
    | Some err =>
        if isTerminal t then Some (0, t)
        else
          backoff ← nextBackoff int63n coin backoff (o_MaxBackoff (ht_opts t));
          Some (backoff, notify (LogFlushFailed err backoff) err t)
    end.

(** One turn of the loop that was not asked to stop: [Some backoff] goes on. *)
Definition loop_turn (signalled : bool) (int63n : Z -> Z) (coin : Z) (backoff : Duration) t (w : W)
    : go (Duration * httpTransport * W) :=
  let t := if signalled then set_ht_channels false (ht_stopped t) (ht_done t) t else t in
  let '(now, w) := aw_now w in
  let t := pruneStale now t in
  '(ok, err, t, w) ← flushOnce false t w;
  '(backoff, t) ← after_flush ok err int63n coin backoff t;
  Some (backoff, t, w).

(** A turn of [loop]: a stop, at the first select or during the backoff wait,
    drains and exits. *)
Definition loop_step (fuel : nat) (why : wake) (stopped_waiting : bool) (int63n : Z -> Z) (coin : Z)
    (backoff : Duration) t (w : W) : go (option (option Duration * httpTransport * W)) :=
  match why with
  | WakeStop => r ← loop_exit fuel t w; Some ('(t, w) ← r; Some (None, t, w))
  | _ =>
      let signalled := match why with WakeSignal => true | _ => false end in
      if (0 <? backoff) && stopped_waiting then
        let t := if signalled then set_ht_channels false (ht_stopped t) (ht_done t) t else t in
        r ← loop_exit fuel t w; Some ('(t, w) ← r; Some (None, t, w))
      else
        '(backoff, t, w) ← loop_turn signalled int63n coin backoff t w;
        Some (Some (Some backoff, t, w))
  end.

(** [Stop] closes [stopCh] (once) and waits for the loop, which exits through
    [loop_exit]; then it reads the verdict. *)
Definition close_stop t : httpTransport := set_ht_channels (ht_signal t) true (ht_done t) t.

Definition verdict t : option error :=
  match ht_terminalErr t with Some e => Some e | None => ht_drainErr t end.

Definition Stop (fuel : nat) t (w : W) : go (option (option error * httpTransport * W)) :=
  let t := close_stop t in
  if ht_done t then Some (Some (verdict t, t, w))
  else
    r ← loop_exit fuel t w;
    Some ('(t, w) ← r; Some (verdict t, t, w)).
End flush.

(** ** Recorders over a transport *)

(** The in-memory transport keeps everything; the real one needs an endpoint. *)
Inductive transport := noopTransport (events : list Event) | httpTransportOf (t : httpTransport).

Definition newNoopTransport : transport := noopTransport [].

Definition selectTransport (opts : Options) : transport :=
  if bool_decide (o_Endpoint opts = ""%string) then newNoopTransport
  else httpTransportOf (newHTTPTransport opts).

Definition transport_Push (e : Event) (tr : transport) : go transport :=
  match tr with
  | noopTransport events => Some (noopTransport (events ++ [e]))
  | httpTransportOf t => t ← Push e t; Some (httpTransportOf t)
  end.

Definition noop_snapshot (tr : transport) : list Event :=
  match tr with noopTransport events => events | httpTransportOf _ => [] end.

Record MetricsRecorder := {
  mr_opts : Options;
  mr_transport : transport;
  mr_rand : Z
}.

Definition newMetricsRecorder (opts : Options) (t : transport) (seed : Z) : MetricsRecorder := {|
  mr_opts := opts; mr_transport := t; mr_rand := seed |}.

Definition NewMetricsRecorder (opts : Options) (seed : Z) : MetricsRecorder :=
  let opts := withDefaults opts in newMetricsRecorder opts (selectTransport opts) seed.

(** [RecordBlockchainRequest] and [RecordBlockchainRequestRich]. *)
Definition mr_record `{GoRand} (now : Time) (r : recorded) (m : MetricsRecorder) : go MetricsRecorder :=
  let '(ev, seed) := record_blockchain_request (mr_opts m) r now (mr_rand m) in
  match ev with
  | None => Some (newMetricsRecorder (mr_opts m) (mr_transport m) seed)
  | Some ev => t ← transport_Push ev (mr_transport m); Some (newMetricsRecorder (mr_opts m) t seed)
  end.

Record ScoringRecorder := {
  sr_opts : Options;
  sr_transport : transport
}.

Definition newScoringRecorder (opts : Options) (t : transport) : ScoringRecorder := {|
  sr_opts := opts; sr_transport := t |}.

Definition NewScoringRecorder (opts : Options) : ScoringRecorder :=
  let opts := withDefaults opts in newScoringRecorder opts (selectTransport opts).

(** Each method of the scoring recorder pushes its event. *)
Definition sr_record (now : Time) (m : metric) (s : ScoringRecorder) : go ScoringRecorder :=
  t ← transport_Push (score_push now m) (sr_transport s); Some (newScoringRecorder (sr_opts s) t).
