(* ===== verification/TransportProps.v ===== *)
(** * Properties of the telemetry transport

    Every interleaving of the sections under the mutex keeps an exact account
    of the events: pushed = acknowledged + dropped + waiting, in order and
    within the bounds.  The flush loop and the shutdown drain are such
    interleavings, never panic, terminate, and deliver. *)

From S2P Require Import Prelude GoInt GoFloat GoString GoCodec GoHttp Providers Agent.
From S2P Require Import Transport.

(** ** Accounts *)

(** A section under the mutex, or an update of a field no queue operation
    reads. [CAck] is the discard after a 2xx answer. *)
Inductive section :=
  | CPush (e : Event)
  | CPrune (now : Time)
  | CTake
  | CAck
  | CReturn
  | CDrop
  | CTerminal (err : error)
  | CChannels (signal stopped done : bool)
  | CReports (l : list report)
  | CDrainErr (err : error).

Definition run_section (t : httpTransport) (c : section) : go httpTransport :=
  match c with
  | CPush e => Push e t
  | CPrune now => Some (pruneStale now t)
  | CTake => takeInflight t
  | CAck => Some (discardInflight t)
  | CReturn => returnInflightToHead t
  | CDrop => Some (drop_batch t)
  | CTerminal err => Some (setTerminal err t)
  | CChannels signal stopped done => Some (set_ht_channels signal stopped done t)
  | CReports l => Some (add_reports l t)
  | CDrainErr err => Some (set_ht_errors (ht_terminalErr t) (Some err) t)
  end.

(** The history of a transport: what was pushed and what the cloud
    acknowledged, oldest first. *)
Record history := {
  h_pushed : list Event;
  h_acked : list Event
}.

Definition step_history (t : httpTransport) (h : history) (c : section) : history :=
  match c with
  | CPush e => {| h_pushed := h_pushed h ++ [e]; h_acked := h_acked h |}
  | CAck => {| h_pushed := h_pushed h; h_acked := h_acked h ++ ht_inflight t |}
  | _ => h
  end.

Definition run_audited (s : httpTransport * history) (c : section) : go (httpTransport * history) :=
  let '(t, h) := s in t' ← run_section t c; Some (t', step_history t h c).

(** Options as [withDefaults] leaves them. *)
Definition opts_ok (o : Options) : Prop := 0 < o_BatchSize o /\ 0 < o_BufferSize o.

Lemma withDefaults_ok o : opts_ok (withDefaults o).
Proof. split; cbn; unfold or_pos, DefaultBatchSize, DefaultBufferSize; case_match; go_lia. Qed.

(** The account: the counter counts every event that is neither acknowledged
    nor waiting; what is acknowledged and what waits is, in this order, a
    subsequence of what was pushed. *)
Record account (t : httpTransport) (h : history) : Prop := {
  acc_opts : opts_ok (ht_opts t);
  acc_total : zlen (h_pushed h) < 2 ^ 64 ->
              zlen (h_pushed h) = zlen (h_acked h) + ht_dropped t + zlen (ht_inflight t) + zlen (ht_buf t)
              /\ 0 <= ht_dropped t;
  acc_order : sublist (h_acked h ++ ht_inflight t ++ ht_buf t) (h_pushed h);
  acc_buf : zlen (ht_buf t) <= o_BufferSize (ht_opts t);
  acc_inflight : zlen (ht_inflight t) <= o_BatchSize (ht_opts t);
  acc_terminal : isTerminal t = true -> ht_buf t = [] /\ ht_inflight t = []
}.

Lemma new_account opts : opts_ok opts -> account (newHTTPTransport opts) {| h_pushed := []; h_acked := [] |}.
Proof. intros [Hb Hs]. split; cbn; try done; unfold zlen; cbn; lia. Qed.

(** ** Each section keeps the account *)

Lemma zlen_drop {A} (l : list A) n : 0 <= n <= zlen l -> zlen (drop (Z.to_nat n) l) = zlen l - n.
Proof. unfold zlen. rewrite length_drop. lia. Qed.

Lemma zlen_take {A} (l : list A) n : 0 <= n <= zlen l -> zlen (take (Z.to_nat n) l) = n.
Proof. unfold zlen. rewrite length_take. lia. Qed.

Lemma drop_sublist {A} n (l : list A) : sublist (drop n l) l.
Proof. rewrite <-(take_drop n l) at 2. apply sublist_inserts_l. done. Qed.

Lemma sublist_app_mid {A} (a b c l : list A) : sublist (a ++ b ++ c) l -> sublist (a ++ c) l.
Proof. intros Hs. transitivity (a ++ b ++ c); [|done]. apply sublist_app; [done|]. by apply sublist_inserts_l. Qed.

Lemma length_omap_le {A B} (f : A -> option B) (l : list A) : (length (omap f l) <= length l)%nat.
Proof. induction l as [|x l IH]; cbn; [lia|]. case_match; cbn; lia. Qed.

Lemma dropped_add d n (Hd : 0 <= d) (Hn : 0 <= n) (Hb : d + n < 2 ^ 64) : wrapu64 (d + n) = d + n.
Proof. apply wrapu64_id. lia. Qed.

(** The account of the three list fields alone, from which the sections that
    touch nothing else are discharged. *)
Lemma account_queue t h buf inflight n :
  account t h -> 0 <= n -> isTerminal t = false ->
  zlen inflight + zlen buf + n = zlen (ht_inflight t) + zlen (ht_buf t) ->
  sublist (inflight ++ buf) (ht_inflight t ++ ht_buf t) ->
  zlen buf <= o_BufferSize (ht_opts t) -> zlen inflight <= o_BatchSize (ht_opts t) ->
  account (add_dropped n (set_ht_queue buf inflight t)) h.
Proof.
  intros [] Hn Ht Hz Hs Hb Hi. split; cbn; try done.
  - intros Hp. destruct (acc_total0 Hp) as [Ha Hd]. pose proof (zlen_nonneg (h_acked h)).
    pose proof (zlen_nonneg buf). pose proof (zlen_nonneg inflight).
    rewrite dropped_add by lia. lia.
  - etransitivity; [|done]. by apply sublist_app.
  - intros Ht'. change (isTerminal t = true) in Ht'. congruence.
Qed.

Lemma account_queue_0 t h buf inflight :
  account t h -> isTerminal t = false ->
  zlen inflight + zlen buf = zlen (ht_inflight t) + zlen (ht_buf t) ->
  sublist (inflight ++ buf) (ht_inflight t ++ ht_buf t) ->
  zlen buf <= o_BufferSize (ht_opts t) -> zlen inflight <= o_BatchSize (ht_opts t) ->
  account (set_ht_queue buf inflight t) h.
Proof.
  intros [] Ht Hz Hs Hb Hi. split; cbn; try done.
  - intros Hp. destruct (acc_total0 Hp) as [Ha Hd]. lia.
  - etransitivity; [|done]. by apply sublist_app.
  - intros Ht'. change (isTerminal t = true) in Ht'. congruence.
Qed.

(** Fields the account does not look at. *)
Lemma account_channels t h a b c : account t h -> account (set_ht_channels a b c t) h.
Proof. by intros []. Qed.

Lemma account_reports t h l : account t h -> account (add_reports l t) h.
Proof. by intros []. Qed.

Lemma account_drainErr t h e : account t h -> account (set_ht_errors (ht_terminalErr t) (Some e) t) h.
Proof. by intros []. Qed.

Lemma Push_account e t h :
  account t h -> exists t', Push e t = Some t' /\ account t' (step_history t h (CPush e)) /\ ht_opts t' = ht_opts t.
Proof.
  intros Ha. pose proof Ha as [[Hb Hs] Htot Hord Hbuf Hinf Hterm]. unfold Push.
  assert (Hone : forall n, 0 <= n -> zlen (h_pushed h ++ [e]) < 2 ^ 64 -> n = 1 ->
                 zlen (h_pushed h) = zlen (h_acked h) + ht_dropped t + zlen (ht_inflight t) + zlen (ht_buf t)
                 /\ 0 <= ht_dropped t /\ wrapu64 (ht_dropped t + n) = ht_dropped t + n).
  { intros n _ Hp ->. rewrite zlen_app in Hp. change (zlen [e]) with 1 in Hp. destruct Htot as [Hq Hd]; [lia|].
    pose proof (zlen_nonneg (h_acked h)). pose proof (zlen_nonneg (ht_inflight t)).
    pose proof (zlen_nonneg (ht_buf t)). rewrite dropped_add by lia. lia. }
  destruct (isTerminal t) eqn:Ht.
  { eexists. split; [done|]. split; [|done]. destruct (Hterm eq_refl) as [Hb0 Hi0]. split; cbn; try done.
    - intros Hp. destruct (Hone 1) as (Hq & Hd & ->); [lia|done|done|]. rewrite zlen_app, Hb0, Hi0 in *.
      change (zlen [e]) with 1. lia.
    - apply sublist_inserts_r. done. }
  assert (Hq : forall t1, account t1 h -> isTerminal t1 = false -> ht_opts t1 = ht_opts t ->
               zlen (ht_buf t1) < o_BufferSize (ht_opts t) ->
               account (set_ht_queue (ht_buf t1 ++ [e]) (ht_inflight t1) t1) (step_history t h (CPush e))).
  { intros t1 [[? ?] Htot1 Hord1 ? ? ?] Ht1 Ho Hlt. split; cbn; try done.
    - intros Hp. rewrite !zlen_app in *. change (zlen [e]) with 1 in *. destruct Htot1 as [? ?]; lia.
    - rewrite !(app_assoc _ _ [e]). by apply sublist_app.
    - rewrite zlen_app. change (zlen [e]) with 1. rewrite Ho. lia.
    - intros Ht'. change (isTerminal t1 = true) in Ht'. congruence. }
  destruct (o_BufferSize (ht_opts t) <=? zlen (ht_buf t)) eqn:Efull.
  - destruct (ht_buf t) as [|x buf] eqn:Eb; [cbn in Efull; unfold zlen in *; cbn in *; go_lia|].
    set (t1 := add_dropped 1 (set_ht_queue buf (ht_inflight t) t)).
    assert (Hacc1 : account t1 h).
    { apply account_queue; try done; try lia; rewrite ?Eb, ?zlen_cons; [lia| |rewrite zlen_cons in Hbuf; lia].
      apply sublist_app; [done|]. by apply sublist_cons. }
    assert (Hlt : zlen (ht_buf t1) < o_BufferSize (ht_opts t)) by (cbn; rewrite zlen_cons in Hbuf; lia).
    cbn [mbind option_bind]. eexists. split; [done|].
    specialize (Hq t1 Hacc1 Ht eq_refl Hlt). case_match; (split; [|done]); [by apply account_channels|done].
  - cbn [mbind option_bind]. eexists. split; [done|].
    specialize (Hq t Ha Ht eq_refl ltac:(go_lia)). case_match; (split; [|done]); [by apply account_channels|done].
Qed.

Lemma stale_prefix_le cutoff buf : (stale_prefix cutoff buf <= length buf)%nat.
Proof. induction buf as [|e buf IH]; [done|]. cbn. case_match; lia. Qed.

Lemma pruneStale_account now t h : account t h -> account (pruneStale now t) h.
Proof.
  intros Ha. unfold pruneStale. destruct (0 <? _)%nat eqn:E; [|done]. apply Nat.ltb_lt in E.
  set (n := stale_prefix _ _) in *. pose proof (stale_prefix_le (time_add now (wrap64 (- o_EventTTL (ht_opts t)))) (ht_buf t)).
  fold n in H. pose proof Ha as [_ _ _ Hbuf Hinf Hterm].
  assert (Hz : zlen (drop n (ht_buf t)) + Z.of_nat n = zlen (ht_buf t)).
  { unfold zlen. rewrite length_drop. lia. }
  apply account_queue; try done; try lia.
  - destruct (isTerminal t) eqn:Ht; [|done]. destruct (Hterm eq_refl) as [Hb _]. rewrite Hb in *. cbn in *. lia.
  - apply sublist_app; [done|]. apply drop_sublist.
Qed.

Lemma takeInflight_account t h :
  account t h ->
  exists t', takeInflight t = Some t' /\ account t' h /\ ht_opts t' = ht_opts t
    /\ ht_inflight t' ++ ht_buf t' = ht_inflight t ++ ht_buf t /\ isTerminal t' = isTerminal t
    /\ (0 < pending t -> 0 < zlen (ht_inflight t')).
Proof.
  intros Ha. pose proof Ha as [[Hb Hs] _ _ Hbuf Hinf Hterm]. unfold takeInflight, pending.
  pose proof (zlen_nonneg (ht_buf t)). pose proof (zlen_nonneg (ht_inflight t)).
  destruct (zlen (ht_inflight t) =? 0) eqn:E0; cbn [negb].
  2:{ eexists. split_and!; try done. go_lia. }
  apply Z.eqb_eq, zlen_nil_inv in E0. rewrite E0 in *. assert (zlen (@nil Event) = 0) as Hnil by done.
  set (n := if _ <? _ then _ else _).
  assert (Hn : 0 <= n <= zlen (ht_buf t) /\ n <= o_BatchSize (ht_opts t) /\ (0 < zlen (ht_buf t) -> 0 < n))
    by (unfold n; case_match; go_lia).
  destruct (n =? 0) eqn:En.
  { exists t. rewrite E0. split_and!; try done. change (zlen (@nil Event)) with 0. go_lia. }
  destruct (n <? 0) eqn:En2; [go_lia|]. eexists. split; [done|]. cbn [ht_inflight ht_buf ht_opts set_ht_queue].
  rewrite take_drop. split_and!; try done.
  - apply account_queue_0; try done; rewrite ?E0, ?zlen_take, ?zlen_drop by lia; try lia.
    + destruct (isTerminal t) eqn:Ht; [|done]. destruct (Hterm eq_refl) as [Hb0 _].
      apply (f_equal zlen) in Hb0. change (zlen (@nil Event)) with 0 in Hb0. go_lia.
    + by rewrite take_drop.
  - rewrite zlen_take by lia. lia.
Qed.

Lemma discard_account t h :
  account t h -> account (discardInflight t) (step_history t h CAck).
Proof.
  intros []. split; cbn; try done.
  - intros Hp. destruct (acc_total0 Hp). rewrite zlen_app. change (zlen (@nil Event)) with 0. lia.
  - by rewrite <-app_assoc.
  - change (zlen (@nil Event)) with 0. pose proof (zlen_nonneg (ht_inflight t)). lia.
  - intros Ht. by destruct (acc_terminal0 Ht).
Qed.

Lemma drop_batch_account t h : account t h -> account (drop_batch t) h.
Proof.
  intros []. pose proof (zlen_nonneg (ht_inflight t)). pose proof (zlen_nonneg (ht_buf t)).
  pose proof (zlen_nonneg (h_acked h)). split; cbn; try done.
  - intros Hp. destruct (acc_total0 Hp). rewrite dropped_add by lia. change (zlen (@nil Event)) with 0. lia.
  - by eapply sublist_app_mid.
  - change (zlen (@nil Event)) with 0. lia.
  - intros Ht. by destruct (acc_terminal0 Ht).
Qed.

Lemma return_account t h :
  account t h ->
  exists t', returnInflightToHead t = Some t' /\ account t' h /\ ht_opts t' = ht_opts t
    /\ isTerminal t' = isTerminal t.
Proof.
  intros Ha. pose proof Ha as [[Hb Hs] _ _ Hbuf Hinf Hterm]. unfold returnInflightToHead.
  pose proof (zlen_nonneg (ht_buf t)). pose proof (zlen_nonneg (ht_inflight t)).
  destruct (zlen (ht_inflight t) =? 0) eqn:E0; [by eexists|].
  assert (Ht : isTerminal t = false).
  { destruct (isTerminal t) eqn:Ht; [|done]. destruct (Hterm eq_refl) as [_ Hi0]. rewrite Hi0 in E0. done. }
  pose proof (zlen_app (ht_inflight t) (ht_buf t)) as Hz. set (c := ht_inflight t ++ ht_buf t) in *.
  destruct (0 <? zlen c - _) eqn:Ed.
  - destruct (zlen c <? _) eqn:El; [go_lia|]. eexists. split; [done|]. split_and!; try done.
    apply account_queue; try done; try go_lia; rewrite ?app_nil_l, ?zlen_drop by go_lia;
      try (change (zlen (@nil Event)) with 0; go_lia). apply drop_sublist.
  - eexists. split; [done|]. split_and!; try done.
    apply account_queue_0; try done; rewrite ?app_nil_l; try (change (zlen (@nil Event)) with 0; go_lia).
Qed.

Lemma setTerminal_account err t h : account t h -> account (setTerminal err t) h /\ isTerminal (setTerminal err t) = true.
Proof.
  intros Ha. unfold setTerminal. destruct (isTerminal t) eqn:Ht; [done|].
  pose proof Ha as [? Htot Hord Hbuf Hinf _]. pose proof (zlen_nonneg (ht_buf t)).
  pose proof (zlen_nonneg (ht_inflight t)). pose proof (zlen_nonneg (h_acked h)).
  assert (Hacc : forall t', ht_opts t' = ht_opts t -> ht_buf t' = [] -> ht_inflight t' = [] ->
    (zlen (h_pushed h) < 2 ^ 64 -> ht_dropped t' = ht_dropped t + (zlen (ht_buf t) + zlen (ht_inflight t))) ->
    account t' h).
  { intros t' Ho Hb Hi Hd. destruct (acc_opts _ _ Ha) as [? ?].
    assert (zlen (@nil Event) = 0) as Hnil by done. split; rewrite ?Ho, ?Hb, ?Hi, ?Hnil; [done| | |lia|lia|done].
    - intros Hp. destruct (Htot Hp). rewrite (Hd Hp). lia.
    - etransitivity; [|done]. apply sublist_app; [done|]. apply sublist_nil_l. }
  unfold notify. destruct (0 <? _) eqn:E; (split; [|done]); apply Hacc; try done; cbn; intros Hp.
  - destruct (Htot Hp). rewrite dropped_add by lia. done.
  - go_lia.
Qed.

Lemma run_section_account t h c :
  account t h ->
  exists t', run_section t c = Some t' /\ account t' (step_history t h c) /\ ht_opts t' = ht_opts t.
Proof.
  intros Ha. destruct c; cbn [run_section step_history].
  - by apply Push_account.
  - eexists. split; [done|]. split; [by apply pruneStale_account|]. unfold pruneStale. by case_match.
  - destruct (takeInflight_account _ _ Ha) as (t' & ? & ? & ? & _). by exists t'.
  - eexists. split; [done|]. split; [by apply discard_account|done].
  - destruct (return_account _ _ Ha) as (t' & ? & ? & ? & _). by exists t'.
  - eexists. split; [done|]. split; [by apply drop_batch_account|done].
  - eexists. split; [done|]. split; [by apply setTerminal_account|]. unfold setTerminal, notify. by repeat case_match.
  - eexists. split; [done|]. split; [by apply account_channels|done].
  - eexists. split; [done|]. split; [by apply account_reports|done].
  - eexists. split; [done|]. split; [by apply account_drainErr|done].
Qed.

(** ** Runs *)

(** The events a run pushes. *)
Definition pushes (l : list section) : list Event :=
  omap (fun c => match c with CPush e => Some e | _ => None end) l.

Lemma pushes_app l1 l2 : pushes (l1 ++ l2) = pushes l1 ++ pushes l2.
Proof. apply omap_app. Qed.

Definition runs (t : httpTransport) (l : list section) (t' : httpTransport) : Prop :=
  go_foldl run_section t l = Some t'.

Lemma runs_app t l1 t1 l2 t2 : runs t l1 t1 -> runs t1 l2 t2 -> runs t (l1 ++ l2) t2.
Proof. unfold runs. intros H1 H2. by rewrite go_foldl_app, H1. Qed.

Lemma runs_nil t : runs t [] t.
Proof. done. Qed.

Lemma runs_one t c t' : run_section t c = Some t' -> runs t [c] t'.
Proof. unfold runs. cbn. by intros ->. Qed.

Lemma runs_audited t h l t' :
  runs t l t' -> exists h', go_foldl run_audited (t, h) l = Some (t', h') /\ h_pushed h' = h_pushed h ++ pushes l.
Proof.
  unfold runs. revert t h. induction l as [|c l IH]; intros t h; cbn [go_foldl].
  { intros [= <-]. exists h. by rewrite app_nil_r. }
  destruct (run_section t c) as [t1|] eqn:E; [|done]. cbn [mbind option_bind]. intros Hl.
  destruct (IH t1 (step_history t h c) Hl) as (h' & Hr & Hp). exists h'.
  cbn [run_audited]. rewrite E. cbn [mbind option_bind]. split; [done|].
  rewrite Hp. destruct c; cbn; by rewrite <-?app_assoc.
Qed.

Lemma audited_account l t h :
  account t h ->
  exists t' h', go_foldl run_audited (t, h) l = Some (t', h') /\ account t' h' /\ ht_opts t' = ht_opts t
    /\ h_pushed h' = h_pushed h ++ pushes l.
Proof.
  revert t h. induction l as [|c l IH]; intros t h Ha.
  { exists t, h. by rewrite app_nil_r. }
  destruct (run_section_account _ _ c Ha) as (t1 & Hr & Ha1 & Ho1).
  destruct (IH _ _ Ha1) as (t' & h' & Hl & Ha' & Ho' & Hp). exists t', h'.
  cbn [go_foldl run_audited]. rewrite Hr. cbn [mbind option_bind]. split; [done|]. split; [done|].
  split; [congruence|]. rewrite Hp. destruct c; cbn; by rewrite <-?app_assoc.
Qed.

(** An account survives a run. *)
Lemma runs_account t h l t' :
  account t h -> runs t l t' -> exists h', account t' h' /\ ht_opts t' = ht_opts t.
Proof.
  intros Ha Hl. destruct (audited_account l t h Ha) as (t1 & h1 & Hr & Ha1 & Ho & _).
  destruct (runs_audited t h l t' Hl) as (h' & Hr' & _). rewrite Hr in Hr'. simplify_eq. by exists h'.
Qed.

(** C5: whatever the goroutines that push and the loop goroutine do, in any
    interleaving of the sections under the mutex, a transport with defaulted
    options never panics and keeps an exact account: every event pushed is
    acknowledged by the cloud, counted in [Dropped], in flight, or buffered;
    the acknowledged ones, the batch in flight and the buffer are in this order
    a subsequence of the pushed ones, so nothing is acknowledged twice or out
    of order; the buffer and the batch never exceed their bounds; and once the
    API key is rejected nothing is held any more. *)
Theorem transport_account opts l :
  zlen (pushes l) < 2 ^ 64 ->
  exists t h, go_foldl run_audited (newHTTPTransport (withDefaults opts), {| h_pushed := []; h_acked := [] |}) l
              = Some (t, h)
    /\ h_pushed h = pushes l
    /\ zlen (h_pushed h) = zlen (h_acked h) + Dropped t + zlen (ht_inflight t) + zlen (ht_buf t)
    /\ sublist (h_acked h ++ ht_inflight t ++ ht_buf t) (h_pushed h)
    /\ zlen (ht_buf t) <= o_BufferSize (withDefaults opts)
    /\ zlen (ht_inflight t) <= o_BatchSize (withDefaults opts)
    /\ (isTerminal t = true -> ht_buf t = [] /\ ht_inflight t = []).
Proof.
  intros Hp. destruct (audited_account l _ _ (new_account _ (withDefaults_ok opts))) as (t & h & Hr & Ha & Ho & Hh).
  exists t, h. destruct Ha as [_ Htot Hord Hb Hi Ht]. cbn in Hh, Ho. rewrite Ho in Hb, Hi.
  split_and!; try done. apply Htot. by rewrite Hh.
Qed.

(** Three events, a batch of two that fails and returns, one that succeeds. *)
Definition demo_event (t : Time) : Event := {| ev_CapturedAt := t; ev_Request := None; ev_Score := None |}.

Definition demo_options : Options := {|
  o_Endpoint := "https://api.chainkit.cloud"; o_APIKey := "k"; o_BatchSize := 2; o_FlushInterval := 0;
  o_BufferSize := 3; o_SampleRate := f64_one; o_PollInterval := 0; o_MaxBackoff := 0; o_EventTTL := 0;
  o_Chain := ""; o_Network := ""; o_AgentName := ""; o_HTTPClient := None; o_Logger := None; o_OnError := true |}.

Definition demo_sections : list section :=
  [CPush (demo_event 1); CPush (demo_event 2); CTake; CPush (demo_event 3); CPush (demo_event 4); CReturn; CTake; CAck].

Lemma transport_account_witness :
  exists t h, go_foldl run_audited (newHTTPTransport (withDefaults demo_options), {| h_pushed := []; h_acked := [] |})
                demo_sections = Some (t, h)
    /\ h_pushed h = pushes demo_sections
    /\ zlen (h_pushed h) = zlen (h_acked h) + Dropped t + zlen (ht_inflight t) + zlen (ht_buf t)
    /\ sublist (h_acked h ++ ht_inflight t ++ ht_buf t) (h_pushed h)
    /\ zlen (ht_buf t) <= o_BufferSize (withDefaults demo_options)
    /\ zlen (ht_inflight t) <= o_BatchSize (withDefaults demo_options)
    /\ (isTerminal t = true -> ht_buf t = [] /\ ht_inflight t = []).
Proof. apply transport_account. by vm_compute. Defined.

Example demo_sections_result :
  go_foldl run_section (newHTTPTransport (withDefaults demo_options)) demo_sections
  = Some (add_dropped 1 (set_ht_channels true false false
      (set_ht_queue [demo_event 4] [] (newHTTPTransport (withDefaults demo_options))))).
Proof. by vm_compute. Qed.
