(* ===== verification/FlushLoop.v ===== *)
(** * The flush loop and the shutdown drain

    One flush, one turn of the loop and the drain are runs of the sections of
    [TransportProps], for any behaviour of the cloud: so they keep its account
    and never panic.  The drain terminates, its verdict is honest, and against
    a cloud that accepts it delivers everything, in order. *)

From S2P Require Import Prelude GoInt GoFloat GoString GoCodec GoHttp Providers Agent.
From S2P Require Import Transport TransportProps.

(** The requests an environment has sent so far, and that only [Client.Do]
    sends. *)
Class AgentLog (W : Type) `{AgentWorld W} := {
  aw_sent : W -> list agentRequest;
  aw_sent_do : forall r w, aw_sent (aw_do r w).2 = aw_sent w ++ [r];
  aw_sent_now : forall w, aw_sent (aw_now w).2 = aw_sent w;
  aw_sent_id : forall w, aw_sent (aw_id w).2 = aw_sent w;
  aw_sent_pushed : forall w, aw_sent (aw_pushed w).2 = aw_sent w
}.

Section loop.
Context {W : Type} `{AgentWorld W}.
Implicit Types (t : httpTransport) (w : W).

(** ** One flush *)

Lemma pushes_run events t h :
  account t h ->
  exists t', go_foldl (fun t e => Push e t) t events = Some t' /\ runs t (map CPush events) t'.
Proof.
  unfold runs. revert t h. induction events as [|e events IH]; intros t h Ha; [by exists t|].
  destruct (Push_account e _ _ Ha) as (t1 & Hp & Ha1 & _). destruct (IH _ _ Ha1) as (t' & Hf & Hr).
  exists t'. cbn [go_foldl map run_section]. rewrite Hp. by split.
Qed.

Lemma pushes_map events : pushes (map CPush events) = events.
Proof. induction events as [|e events IH]; [done|]. cbn. by rewrite <-IH at 2. Qed.

(** How a response is handled: one or two sections, none of them a push. *)
Lemma handle_response_run r t h :
  account t h ->
  exists ok err t' l, handle_response r t = Some (ok, err, t') /\ runs t l t' /\ pushes l = []
    /\ (ok = true -> l = [CAck] /\ t' = discardInflight t) /\ (ok = false -> is_Some err).
Proof.
  intros Ha. destruct (return_account _ _ Ha) as (t1 & Hr1 & Ha1 & _). unfold handle_response.
  destruct r as [status|e].
  - destruct (status_ok status).
    { exists true, None, (discardInflight t), [CAck]. done. }
    destruct (_ || _).
    { rewrite Hr1. exists false. do 2 eexists. exists [CReturn]. split; [done|].
      split; [by apply runs_one|]. by split_and!. }
    destruct (_ || _).
    + exists false. do 2 eexists. exists [CDrop; CTerminal (terminal_error status)]. split; [done|]. by split_and!.
    + exists false. do 2 eexists. exists [CDrop]. split; [done|]. by split_and!.
  - rewrite Hr1. exists false. do 2 eexists. exists [CReturn]. split; [done|].
    split; [by apply runs_one|]. by split_and!.
Qed.

(** The sections of a flush; its pushes are those of the other goroutines. *)
Lemma flushOnce_run d t w h :
  account t h ->
  exists ok err t' w' l, flushOnce d t w = Some (ok, err, t', w') /\ runs t l t'
    /\ (0 < pending t -> ok = true \/ is_Some err \/ isTerminal t' = true).
Proof.
  intros Ha. unfold flushOnce. destruct (isTerminal t) eqn:Ht.
  { exists false, None, t, w, []. split_and!; [done..|]. by right; right. }
  destruct (takeInflight_account _ _ Ha) as (t1 & Hk & Ha1 & _ & _ & _ & Hpos). rewrite Hk. cbn [mbind option_bind].
  pose proof (runs_one t CTake t1 Hk) as Hr1.
  destruct (zlen (ht_inflight t1) =? 0) eqn:E0.
  { exists false, None, t1, w, [CTake]. split_and!; [done..|]. intros Hp. specialize (Hpos Hp). go_lia. }
  destruct (aw_id w) as [id w1]. destruct (aw_now w1) as [now w2].
  destruct (buildBatch _ _ _ _ _ _) as [[body|e] w3].
  2:{ do 4 eexists. exists ([CTake] ++ [CDrop]). split; [done|]. split; [by eapply runs_app|].
      intros _. right. left. by eexists. }
  destruct (aw_url (ht_url t1)) as [e|].
  { destruct (return_account _ _ Ha1) as (t2 & Hr2 & _). rewrite Hr2. do 4 eexists. exists ([CTake] ++ [CReturn]).
    split; [done|]. split; [eapply runs_app; [done|by apply runs_one]|]. intros _. right. left. by eexists. }
  destruct (aw_do _ w3) as [resp w4]. destruct (aw_pushed w4) as [events w5].
  destruct (pushes_run events _ _ Ha1) as (t2 & Hf & Hr2). rewrite Hf. cbn [mbind option_bind].
  destruct (runs_account _ _ _ _ Ha1 Hr2) as (h2 & Ha2 & _).
  destruct (handle_response_run resp _ _ Ha2) as (ok & err & t3 & l3 & Hh & Hr3 & _ & _ & Hnok). rewrite Hh.
  cbn [mbind option_bind]. exists ok, err, t3, w5, ([CTake] ++ map CPush events ++ l3). split; [done|].
  split; [eapply runs_app; [done|]; by eapply runs_app|]. intros _. destruct ok; [by left|]. right. left. by apply Hnok.
Qed.

(** ** Backoff *)

(** Readings [rand.Int63n] may give. *)
Definition int63n_ok (f : Z -> Z) : Prop := forall n, 0 < n -> 0 <= f n < n.

(** A maximum for which the jitter does not panic and the doubling does not
    overflow. *)
Definition backoff_ok (max : Duration) : Prop := 5 <= max <= 2 ^ 61.

(** What the loop keeps: no backoff, or one the next doubling can jitter. *)
Definition backoff_inv (max current : Duration) : Prop := current = 0 \/ 5 <= current <= max + max / 5.

(** The backoff before jitter: the minimum first, then doubling, capped. *)
Definition base_backoff (max current : Duration) : Duration :=
  Z.min max (if current =? 0 then minBackoff else 2 * current).

Lemma div5 a : 5 * (a / 5) <= a < 5 * (a / 5) + 5.
Proof. pose proof (Z.div_mod a 5). pose proof (Z.mod_pos_bound a 5). lia. Qed.

Lemma base_backoff_eq max current :
  backoff_ok max -> backoff_inv max current ->
  let c := if current <=? 0 then minBackoff else wrap64 (current * 2) in
  (if max <? c then max else c) = base_backoff max current /\ 5 <= base_backoff max current <= max.
Proof.
  unfold backoff_ok, base_backoff. intros Hm Hc. cbv zeta. pose proof (div5 max).
  change minBackoff with 250000000. destruct Hc as [->|Hc].
  - change (0 <=? 0) with true. change (0 =? 0) with true. destruct (max <? 250000000) eqn:E; go_lia.
  - destruct (current <=? 0) eqn:E1; [go_lia|]. destruct (current =? 0) eqn:E2; [go_lia|].
    rewrite wrap64_id by int_range. destruct (max <? current * 2) eqn:E; go_lia.
Qed.

(** The next backoff is the base within a fifth. *)
Lemma nextBackoff_spec f coin max current :
  int63n_ok f -> backoff_ok max -> backoff_inv max current ->
  exists d, nextBackoff f coin current max = Some d /\ 5 * Z.abs (d - base_backoff max current) < base_backoff max current
    /\ backoff_inv max d.
Proof.
  intros Hf Hm Hc. destruct (base_backoff_eq max current Hm Hc) as [Hb Hbb]. cbv zeta in Hb.
  unfold nextBackoff. rewrite Hb. set (b := base_backoff max current) in *. unfold backoff_ok in Hm.
  rewrite Z.quot_div_nonneg by lia. pose proof (div5 b). pose proof (div5 max).
  destruct (b / 5 <=? 0) eqn:E; [go_lia|]. pose proof (Hf (b / 5) ltac:(go_lia)). unfold backoff_inv.
  destruct (coin =? 0); (eexists; split; [done|]; rewrite wrap64_id by int_range; lia).
Qed.

(** ** The loop *)

Lemma notify_run t log err : exists l, runs t l (notify log err t) /\ pushes l = [].
Proof. by eexists [CReports _]. Qed.

Lemma loop_turn_run signalled f coin backoff t w h :
  account t h -> int63n_ok f -> backoff_ok (o_MaxBackoff (ht_opts t)) ->
  backoff_inv (o_MaxBackoff (ht_opts t)) backoff ->
  exists b t' w' l, loop_turn signalled f coin backoff t w = Some (b, t', w') /\ runs t l t'
    /\ backoff_inv (o_MaxBackoff (ht_opts t)) b.
Proof.
  intros Ha Hf Hm Hb. unfold loop_turn. destruct (aw_now w) as [now w1].
  set (t0 := if signalled then _ else t).
  assert (Hr0 : exists l, runs t l t0) by (unfold t0; destruct signalled; [by eexists [CChannels _ _ _]|by exists []]).
  destruct Hr0 as [l0 Hr0]. assert (Hr1 : runs t0 [CPrune now] (pruneStale now t0)) by done.
  pose proof (runs_app _ _ _ _ _ Hr0 Hr1) as Hr01. destruct (runs_account _ _ _ _ Ha Hr01) as (h1 & Ha1 & Ho1).
  destruct (flushOnce_run false _ w1 _ Ha1) as (ok & err & t2 & w2 & l2 & Hfl & Hr2 & _). rewrite Hfl.
  cbn [mbind option_bind]. destruct (runs_account _ _ _ _ Ha1 Hr2) as (h2 & Ha2 & Ho2).
  rewrite <-Ho1, <-Ho2 in Hm, Hb. assert (Hz : backoff_inv (o_MaxBackoff (ht_opts t)) 0) by by left.
  pose proof (runs_app _ _ _ _ _ Hr01 Hr2) as Hr012. unfold after_flush.
  destruct ok; [by eauto 10|]. destruct err as [err|]; [|by eauto 10]. destruct (isTerminal t2); [by eauto 10|].
  destruct (nextBackoff_spec f coin _ _ Hf Hm Hb) as (d & -> & _ & Hd). cbn [mbind option_bind].
  destruct (notify_run t2 (LogFlushFailed err d) err) as (l3 & Hr3 & _). rewrite Ho2, Ho1 in Hd.
  do 3 eexists. exists ((l0 ++ [CPrune now]) ++ l2 ++ l3). split; [done|].
  split; [|done]. eapply runs_app; [done|]. by eapply runs_app.
Qed.

(** A schedule of the running phase: pushes between turns, and turns. *)
Inductive schedule_step :=
  | SPush (e : Event)
  | STurn (signalled : bool) (int63n : Z -> Z) (coin : Z).

Definition step_ok (s : schedule_step) : Prop :=
  match s with SPush _ => True | STurn _ f _ => int63n_ok f end.

Definition run_schedule_step (s : Duration * httpTransport * W) (x : schedule_step)
    : go (Duration * httpTransport * W) :=
  let '(backoff, t, w) := s in
  match x with
  | SPush e => t ← Push e t; Some (backoff, t, w)
  | STurn signalled f coin => loop_turn signalled f coin backoff t w
  end.

Lemma schedule_run l backoff t w h :
  account t h -> Forall step_ok l -> backoff_ok (o_MaxBackoff (ht_opts t)) ->
  backoff_inv (o_MaxBackoff (ht_opts t)) backoff ->
  exists b t' w' ls, go_foldl run_schedule_step (backoff, t, w) l = Some (b, t', w') /\ runs t ls t'
    /\ backoff_inv (o_MaxBackoff (ht_opts t)) b.
Proof.
  revert backoff t w h. induction l as [|x l IH]; intros backoff t w h Ha Hl Hm Hb.
  { exists backoff, t, w, []. done. }
  apply Forall_cons in Hl as [Hx Hl].
  assert (Hs : exists b1 t1 w1 l1, run_schedule_step (backoff, t, w) x = Some (b1, t1, w1) /\ runs t l1 t1
               /\ backoff_inv (o_MaxBackoff (ht_opts t)) b1).
  { destruct x as [e|sg f coin]; cbn [run_schedule_step].
    - destruct (Push_account e _ _ Ha) as (t1 & Hp & _). rewrite Hp. do 3 eexists. exists [CPush e].
      split; [done|]. split; [by apply runs_one|done].
    - by eapply loop_turn_run. }
  destruct Hs as (b1 & t1 & w1 & l1 & Hs & Hr1 & Hb1). destruct (runs_account _ _ _ _ Ha Hr1) as (h1 & Ha1 & Ho).
  rewrite <-Ho in Hm, Hb1. destruct (IH b1 t1 w1 h1 Ha1 Hl Hm Hb1) as (b & t' & w' & ls & Hg & Hr & Hb').
  exists b, t', w', (l1 ++ ls). cbn [go_foldl]. rewrite Hs. cbn [mbind option_bind]. rewrite <-Ho.
  split; [done|]. split; [by eapply runs_app|done].
Qed.

(** ** The drain *)

(** No goroutine pushes while the transport shuts down. *)
Definition no_pushes : Prop := forall w, (aw_pushed w).1 = [].

(** Without concurrent pushes a flush that succeeds has fewer events waiting. *)
Lemma flushOnce_shrinks d t w h ok err t' w' :
  no_pushes -> account t h -> 0 < pending t -> flushOnce d t w = Some (ok, err, t', w') ->
  (ok = true -> pending t' < pending t /\ 0 <= pending t')
  /\ (ok = false -> is_Some err \/ isTerminal t' = true).
Proof.
  intros Hnp Ha Hp. unfold flushOnce. destruct (isTerminal t) eqn:Ht.
  { intros [= <- <- <- <-]. split; [done|]. by right. }
  destruct (takeInflight_account _ _ Ha) as (t1 & Hk & Ha1 & _ & Hq & _ & Hpos). rewrite Hk. cbn [mbind option_bind].
  specialize (Hpos Hp). destruct (zlen (ht_inflight t1) =? 0) eqn:E0; [go_lia|].
  destruct (aw_id w) as [id w1]. destruct (aw_now w1) as [now w2].
  destruct (buildBatch _ _ _ _ _ _) as [[body|e] w3].
  2:{ intros [= <- <- <- <-]. split; [done|]. left. by eexists. }
  destruct (aw_url (ht_url t1)) as [e|].
  { destruct (return_account _ _ Ha1) as (t2 & -> & _). cbn [mbind option_bind]. intros [= <- <- <- <-].
    split; [done|]. left. by eexists. }
  destruct (aw_do _ w3) as [resp w4]. pose proof (Hnp w4) as Hn. destruct (aw_pushed w4) as [events w5].
  cbn in Hn. subst events. cbn [go_foldl mbind option_bind].
  destruct (handle_response_run resp _ _ Ha1) as (ok' & err' & t3 & l3 & Hh & _ & _ & Hok & Hnok). rewrite Hh.
  cbn [mbind option_bind]. intros [= <- <- <- <-]. split.
  - intros Heq. destruct (Hok Heq) as [_ ->]. unfold pending in *. cbn. apply (f_equal zlen) in Hq.
    rewrite !zlen_app in Hq. pose proof (zlen_nonneg (ht_buf t1)). change (zlen (@nil Event)) with 0. lia.
  - intros Heq. left. by apply Hnok.
Qed.

Lemma isTerminal_pending t h : account t h -> isTerminal t = true -> pending t = 0.
Proof. intros Ha Ht. unfold pending. by destruct (acc_terminal _ _ Ha Ht) as [-> ->]. Qed.

Lemma drain_runs fuel t w h :
  no_pushes -> account t h -> pending t < Z.of_nat fuel ->
  exists t' w' l, drainAndExit fuel t w = Some (Some (t', w')) /\ runs t l t'
    /\ (verdict t' = None -> pending t' = 0).
Proof.
  revert t w h. induction fuel as [|fuel IH]; intros t w h Hnp Ha Hf.
  { unfold pending in Hf. pose proof (zlen_nonneg (ht_buf t)). pose proof (zlen_nonneg (ht_inflight t)). lia. }
  cbn [drainAndExit]. destruct (pending t =? 0) eqn:E0.
  { exists t, w, []. split_and!; [done..|]. intros _. go_lia. }
  assert (Hp : 0 < pending t).
  { unfold pending in *. pose proof (zlen_nonneg (ht_buf t)). pose proof (zlen_nonneg (ht_inflight t)). go_lia. }
  destruct (flushOnce_run true t w h Ha) as (ok & err & t1 & w1 & l1 & Hfl & Hr1 & _). rewrite Hfl. cbn [mbind option_bind].
  destruct (flushOnce_shrinks _ _ _ _ _ _ _ _ Hnp Ha Hp Hfl) as [Hok Hnok].
  destruct (runs_account _ _ _ _ Ha Hr1) as (h1 & Ha1 & _). destruct ok.
  - destruct (Hok eq_refl). destruct (IH t1 w1 h1 Hnp Ha1 ltac:(lia)) as (t' & w' & l & Hd & Hr & Hv).
    exists t', w', (l1 ++ l). split; [done|]. split; [by eapply runs_app|done].
  - destruct (isTerminal t1) eqn:Ht1.
    { exists t1, w1, l1. split_and!; [done..|]. intros _. by eapply isTerminal_pending. }
    destruct (Hnok eq_refl) as [[e ->]|]; [|done].
    eexists _, _, (l1 ++ [CDrainErr (drain_error (pending t) e); CReports _]). split; [done|].
    split; [eapply runs_app; done|].
    unfold verdict, notify. cbn. by destruct (ht_terminalErr t1).
Qed.

(** ** Delivery *)

(** An envelope without its identifier. *)
Definition anonymous (e : wireEnvelope) : wireEnvelope := {|
  we_ID := ""; we_T := we_T e; we_Kind := we_Kind e; we_Req := we_Req e; we_Score := we_Score e |}.

Definition payload (opts : Options) (ev : Event) : option wireEnvelope := envelope opts ev "".

Definition request_payloads (r : agentRequest) : list wireEnvelope := map anonymous (wb_Events (ar_Body r)).

Context `{!AgentLog W}.

Lemma envelope_anonymous opts ev id : anonymous <$> envelope opts ev id = payload opts ev.
Proof. unfold payload, envelope. by repeat case_match. Qed.

Lemma envelopes_spec opts evs w :
  let r := envelopes aw_id opts evs w in
  map anonymous r.1 = omap (payload opts) evs /\ aw_sent r.2 = aw_sent w.
Proof.
  revert w. induction evs as [|ev evs IH]; intros w; [done|]. cbn [envelopes omap list_omap].
  change (envelope opts ev "") with (payload opts ev).
  destruct (payload opts ev) as [e|] eqn:Ep; [|apply IH].
  pose proof (aw_sent_id w) as Hid. destruct (aw_id w) as [id w1]. specialize (IH w1).
  destruct (envelopes aw_id opts evs w1) as [es w2]. cbn in *. destruct IH as [IH1 IH2]. split; [|congruence].
  pose proof (envelope_anonymous opts ev id) as He. rewrite Ep in He.
  destruct (envelope opts ev id) as [e'|]; [|done]. cbn in *. simplify_eq. by rewrite IH1.
Qed.

(** A flush sends at most one request. *)
Lemma flushOnce_sends d t w ok err t' w' :
  flushOnce d t w = Some (ok, err, t', w') -> exists reqs, aw_sent w' = aw_sent w ++ reqs /\ zlen reqs <= 1.
Proof.
  unfold flushOnce. destruct (isTerminal t); [intros [= <- <- <- <-]; exists []; by rewrite app_nil_r|].
  destruct (takeInflight t) as [k|]; [|done]. cbn [mbind option_bind].
  destruct (zlen (ht_inflight k) =? 0); [intros [= <- <- <- <-]; exists []; by rewrite app_nil_r|].
  pose proof (aw_sent_id w) as Hs1. destruct (aw_id w) as [id w1].
  pose proof (aw_sent_now w1) as Hs2. destruct (aw_now w1) as [now w2]. unfold buildBatch.
  pose proof (envelopes_spec (ht_opts k) (ht_inflight k) w2) as [_ Hs3].
  destruct (envelopes aw_id (ht_opts k) (ht_inflight k) w2) as [es w3]. cbn in Hs1, Hs2, Hs3.
  assert (aw_sent w3 = aw_sent w) as Hs by congruence.
  destruct (marshal _) as [body|e]; [|intros [= <- <- <- <-]; exists []; by rewrite app_nil_r].
  destruct (aw_url (ht_url k)) as [e|].
  { destruct (returnInflightToHead k); [|done]. cbn. intros [= <- <- <- <-]. exists []. by rewrite app_nil_r. }
  set (req := batch_request _ _ _). pose proof (aw_sent_do req w3) as Hs4. destruct (aw_do req w3) as [resp w4].
  pose proof (aw_sent_pushed w4) as Hs5. destruct (aw_pushed w4) as [events w5]. cbn in Hs4, Hs5.
  destruct (go_foldl _ k events) as [k1|]; [|done]. cbn [mbind option_bind].
  destruct (handle_response resp k1) as [[[ok1 err1] k2]|]; [|done]. cbn. intros [= <- <- <- <-].
  exists [req]. split; [congruence|done].
Qed.

(** A drain sends at most one request per pending event. *)
Lemma drain_sends fuel t w h t' w' :
  no_pushes -> account t h -> drainAndExit fuel t w = Some (Some (t', w')) ->
  exists reqs, aw_sent w' = aw_sent w ++ reqs /\ zlen reqs <= pending t.
Proof.
  intros Hnp. revert t w h. induction fuel as [|fuel IH]; intros t w h Ha; [done|]. cbn [drainAndExit].
  assert (Hp0 : 0 <= pending t).
  { unfold pending. pose proof (zlen_nonneg (ht_buf t)). pose proof (zlen_nonneg (ht_inflight t)). lia. }
  destruct (Z.eqb_spec (pending t) 0); [intros [= <- <-]; exists []; by rewrite app_nil_r|].
  destruct (flushOnce_run true t w h Ha) as (ok & err & t1 & w1 & l1 & Hfl & Hr1 & _). rewrite Hfl. cbn [mbind option_bind].
  destruct (flushOnce_shrinks _ _ _ _ _ _ _ _ Hnp Ha ltac:(lia) Hfl) as [Hok Hnok].
  destruct (flushOnce_sends _ _ _ _ _ _ _ Hfl) as (reqs & Hs & Hlen).
  destruct (runs_account _ _ _ _ Ha Hr1) as (h1 & Ha1 & _). destruct ok.
  - destruct (Hok eq_refl). intros Hd. destruct (IH t1 w1 h1 Ha1 Hd) as (reqs' & Hs' & Hlen').
    exists (reqs ++ reqs'). rewrite Hs', Hs, app_assoc. split; [done|]. rewrite zlen_app. lia.
  - destruct (Hnok eq_refl) as [[e ->]| ->]; [destruct (isTerminal t1)|];
      intros [= <- <-]; exists reqs; (split; [done|lia]).
Qed.

(** An event that can be encoded: a time with a four-digit year, finite
    floats. *)
Definition event_ok (ev : Event) : bool :=
  json_time_ok (ev_CapturedAt ev)
  && match ev_Request ev, ev_Score ev with
     | None, Some s => json_float_ok (se_OldValue s) && json_float_ok (se_NewValue s) && json_float_ok (se_Score s)
     | _, _ => true
     end.

Lemma envelope_ok opts ev id e : event_ok ev = true -> envelope opts ev id = Some e -> envelope_error e = None.
Proof.
  unfold event_ok, envelope, envelope_error. intros [Ht Hf]%andb_prop He.
  destruct (ev_Request ev) as [r|]; [|destruct (ev_Score ev) as [s|]]; simplify_eq; cbn [we_T we_Score];
    rewrite Ht; cbn [negb]; [done|].
  unfold score_floats_ok, wire_score. cbn [ws_OldValue ws_NewValue ws_Score]. by rewrite Hf.
Qed.

Lemma envelopes_ok opts evs w :
  Forall (fun ev => event_ok ev = true) evs -> first_error envelope_error (envelopes aw_id opts evs w).1 = None.
Proof.
  intros Hf. revert w. induction Hf as [|ev evs Hev Hf IH]; intros w; [done|]. cbn [envelopes].
  destruct (envelope opts ev ""); [|apply IH]. destruct (aw_id w) as [id w1]. specialize (IH w1).
  destruct (envelopes aw_id opts evs w1) as [es w2]. cbn in *.
  destruct (envelope opts ev id) as [e|] eqn:Ee; [|done]. cbn. by rewrite (envelope_ok _ _ _ _ Hev Ee).
Qed.

(** A cloud that accepts, in the environments [I], which are closed: requests
    are answered 2xx, the clock and the URL are sane, nobody else pushes. *)
Record accepting (I : W -> Prop) (url : string) : Prop := {
  acp_do : forall r w, I w -> exists status, (aw_do r w).1 = Ok status /\ status_ok status = true;
  acp_now : forall w, I w -> json_time_ok (aw_now w).1 = true;
  acp_pushed : forall w, I w -> (aw_pushed w).1 = [];
  acp_url : aw_url url = None;
  acp_closed : forall w, I w -> (forall r, I (aw_do r w).2) /\ I (aw_now w).2 /\ I (aw_id w).2 /\ I (aw_pushed w).2
}.

Lemma envelopes_closed I url opts evs w :
  accepting I url -> I w -> I (envelopes aw_id opts evs w).2.
Proof.
  intros Hacc. revert w. induction evs as [|ev evs IH]; intros w Hw; [done|]. cbn [envelopes].
  destruct (envelope opts ev ""); [|by apply IH]. destruct (acp_closed _ _ Hacc w Hw) as (_ & _ & Hid & _).
  destruct (aw_id w) as [id w1]. specialize (IH w1 Hid). by destruct (envelopes aw_id opts evs w1).
Qed.

(** Against it one flush delivers one batch. *)
Lemma flushOnce_delivers I d t w h :
  accepting I (ht_url t) -> I w -> account t h -> isTerminal t = false ->
  Forall (fun ev => event_ok ev = true) (ht_inflight t ++ ht_buf t) -> 0 < pending t ->
  exists t' w' r k, flushOnce d t w = Some (true, None, t', w') /\ account t' (step_history k h CAck)
    /\ isTerminal t' = false /\ ht_url t' = ht_url t /\ ht_opts t' = ht_opts t /\ ht_drainErr t' = ht_drainErr t
    /\ ht_inflight t' = [] /\ ht_inflight t ++ ht_buf t = ht_inflight k ++ ht_buf t'
    /\ 0 < zlen (ht_inflight k) <= o_BatchSize (ht_opts t)
    /\ aw_sent w' = aw_sent w ++ [r] /\ ar_URL r = ht_url t
    /\ request_payloads r = omap (payload (ht_opts t)) (ht_inflight k) /\ I w'.
Proof.
  intros Hacc Hw Ha Ht Hev Hp. pose proof Hacc as [Hdo Hnow Hnp Hurl Hcl]. unfold flushOnce. rewrite Ht.
  destruct (takeInflight_account _ _ Ha) as (k & Hk & Hak & Ho & Hq & Htk & Hpos). specialize (Hpos Hp).
  assert (Hku : ht_url k = ht_url t /\ ht_drainErr k = ht_drainErr t).
  { unfold takeInflight in Hk. repeat case_match; simplify_eq; done. }
  destruct Hku as [Hku Hkd]. rewrite Hk. cbn [mbind option_bind].
  destruct (zlen (ht_inflight k) =? 0) eqn:E0; [go_lia|].
  destruct (Hcl w Hw) as (_ & _ & Hw1 & _). pose proof (aw_sent_id w) as Hs1. destruct (aw_id w) as [id w1].
  cbn in Hw1. destruct (Hcl w1 Hw1) as (_ & Hw2 & _ & _).
  pose proof (aw_sent_now w1) as Hs2. pose proof (Hnow w1 Hw1) as Hn1. destruct (aw_now w1) as [now w2].
  cbn in Hw2. pose proof (envelopes_closed I _ (ht_opts k) (ht_inflight k) w2 Hacc Hw2) as Hw3.
  unfold buildBatch. rewrite <-Hq in Hev. apply Forall_app in Hev as [Hevk _].
  pose proof (envelopes_spec (ht_opts k) (ht_inflight k) w2) as [Hpay Hs3].
  pose proof (envelopes_ok (ht_opts k) _ w2 Hevk) as Hok.
  destruct (envelopes aw_id (ht_opts k) (ht_inflight k) w2) as [es w3]. cbn in Hs1, Hs2, Hs3, Hn1, Hok, Hpay, Hw3.
  unfold marshal. cbn [wb_SentAt wb_Events]. rewrite Hn1, Hok. cbn [negb]. rewrite Hku, Hurl.
  set (req := batch_request _ _ _).
  destruct (Hdo req w3 Hw3) as (status & Hst & Hsok). pose proof (aw_sent_do req w3) as Hs4.
  destruct (Hcl w3 Hw3) as (Hw4 & _). specialize (Hw4 req).
  destruct (aw_do req w3) as [resp w4]. cbn in Hst, Hs4, Hw4. subst resp.
  pose proof (Hnp w4 Hw4) as Hn4. destruct (Hcl w4 Hw4) as (_ & _ & _ & Hw5).
  pose proof (aw_sent_pushed w4) as Hs5. destruct (aw_pushed w4) as [events w5].
  cbn in Hn4, Hs5, Hw5. subst events. cbn [go_foldl mbind option_bind handle_response]. rewrite Hsok. cbn [mbind option_bind].
  exists (discardInflight k), w5, req, k. pose proof (discard_account _ _ Hak) as Had. destruct Hak.
  change (ht_url (discardInflight k)) with (ht_url k). change (ht_drainErr (discardInflight k)) with (ht_drainErr k).
  change (isTerminal (discardInflight k)) with (isTerminal k).
  split_and!; try done; try congruence. rewrite <-Ho. exact Hpay.
Qed.

Lemma drain_delivers I fuel t w h :
  accepting I (ht_url t) -> I w -> account t h -> isTerminal t = false ->
  Forall (fun ev => event_ok ev = true) (ht_inflight t ++ ht_buf t) -> pending t < Z.of_nat fuel ->
  exists t' w' reqs, drainAndExit fuel t w = Some (Some (t', w'))
    /\ pending t' = 0 /\ isTerminal t' = false /\ ht_drainErr t' = ht_drainErr t
    /\ aw_sent w' = aw_sent w ++ reqs
    /\ Forall (fun r => ar_URL r = ht_url t /\ zlen (request_payloads r) <= o_BatchSize (ht_opts t)) reqs
    /\ mjoin (map request_payloads reqs) = omap (payload (ht_opts t)) (ht_inflight t ++ ht_buf t)
    /\ zlen reqs <= pending t.
Proof.
  revert t w h. induction fuel as [|fuel IH]; intros t w h Hacc Hw Ha Ht Hev Hf.
  { unfold pending in Hf. pose proof (zlen_nonneg (ht_buf t)). pose proof (zlen_nonneg (ht_inflight t)). lia. }
  assert (Hp0 : 0 <= pending t).
  { unfold pending. pose proof (zlen_nonneg (ht_buf t)). pose proof (zlen_nonneg (ht_inflight t)). lia. }
  cbn [drainAndExit]. destruct (pending t =? 0) eqn:E0.
  { exists t, w, []. apply Z.eqb_eq in E0. rewrite E0, app_nil_r. split_and!; try done.
    unfold pending in E0. pose proof (zlen_nonneg (ht_buf t)). pose proof (zlen_nonneg (ht_inflight t)).
    by rewrite (zlen_nil_inv (ht_buf t)), (zlen_nil_inv (ht_inflight t)) by lia. }
  destruct (flushOnce_delivers I true t w h)
    as (t1 & w1 & r & k & Hfl & Ha1 & Ht1 & Hu1 & Ho1 & Hd1 & Hi1 & Hq & Hk & Hs1 & Hur & Hpay & Hw1);
    [done..|go_lia|]. rewrite Hfl. cbn [mbind option_bind].
  assert (Hp1 : pending t1 = pending t - zlen (ht_inflight k)).
  { unfold pending. rewrite Hi1. apply (f_equal zlen) in Hq. rewrite !zlen_app in Hq.
    change (zlen (@nil Event)) with 0. lia. }
  rewrite Hq in Hev. apply Forall_app in Hev as [_ Hev1].
  destruct (IH t1 w1 _ ltac:(by rewrite Hu1) Hw1 Ha1 Ht1 ltac:(by rewrite Hi1) ltac:(lia))
    as (t' & w' & reqs & Hd & Hp' & Ht' & Hdr & Hs & Hall & Hpays & Hlen).
  exists t', w', (r :: reqs). rewrite Ho1, Hu1, Hi1 in *. split_and!; try done; try congruence.
  - rewrite Hs, Hs1. by rewrite <-app_assoc.
  - constructor; [|done]. split; [done|]. rewrite Hpay. etransitivity; [|apply Hk]. unfold zlen.
    pose proof (length_omap_le (payload (ht_opts t)) (ht_inflight k)). lia.
  - change (mjoin (map request_payloads (r :: reqs)))
      with (request_payloads r ++ mjoin (map request_payloads reqs)).
    rewrite Hpay, Hpays, Hq. symmetry. apply omap_app.
  - rewrite zlen_cons. lia.
Qed.
End loop.

(** ** The properties *)

Section properties.
Context {W : Type} `{AgentWorld W}.

(** C15: the flush loop refines the sections: for any clock, any answers of the
    cloud and any schedule of pushes and turns (random readings in range,
    MaxBackoff between 5ns and 73 years), the loop of a transport with
    defaulted options never panics, its state is that of some sequence of
    sections, and its backoff is zero or at most a fifth above MaxBackoff. *)
Theorem flush_loop_refines opts l (w : W) :
  backoff_ok (o_MaxBackoff (withDefaults opts)) -> Forall step_ok l ->
  exists backoff t w' sections,
    go_foldl run_schedule_step (0, newHTTPTransport (withDefaults opts), w) l = Some (backoff, t, w')
    /\ runs (newHTTPTransport (withDefaults opts)) sections t
    /\ 0 <= backoff <= o_MaxBackoff (withDefaults opts) + o_MaxBackoff (withDefaults opts) / 5.
Proof.
  intros Hm Hl. set (t0 := newHTTPTransport (withDefaults opts)).
  destruct (schedule_run l 0 t0 w _ (new_account _ (withDefaults_ok opts)) Hl Hm (or_introl eq_refl))
    as (b & t & w' & ls & Hg & Hr & Hb).
  exists b, t, w', ls. split; [done|]. split; [done|]. unfold backoff_ok, backoff_inv in *.
  pose proof (div5 (o_MaxBackoff (withDefaults opts))). cbn [ht_opts t0 newHTTPTransport] in Hb. lia.
Qed.

(** C16: shutting down terminates and its verdict is honest: from any state a
    transport can reach, when no goroutine pushes any more, [Stop] returns,
    whatever the cloud answers, with the terminal error if there is one, else
    the error of the drain.  The first [Stop] sends at most one request per
    pending event, and when it returns nil, nothing is left waiting.  A later
    [Stop] sends nothing and changes nothing: what was pushed after the first
    one stays in the buffer, whatever the verdict (see the findings). *)
Theorem Stop_terminates `{!AgentLog W} opts l t (w : W) :
  runs (newHTTPTransport (withDefaults opts)) l t -> no_pushes ->
  exists v t' w' reqs, Stop (S (Z.to_nat (pending t))) t w = Some (Some (v, t', w'))
    /\ ht_done t' = true /\ v = verdict t'
    /\ aw_sent w' = aw_sent w ++ reqs
    /\ if ht_done t then w' = w /\ t' = close_stop t /\ reqs = []
       else zlen reqs <= pending t /\ (v = None -> ht_buf t' = [] /\ ht_inflight t' = []).
Proof.
  intros Hr Hnp. destruct (runs_account _ _ _ _ (new_account _ (withDefaults_ok opts)) Hr) as (h & Ha & _).
  pose proof (account_channels _ _ (ht_signal t) true (ht_done t) Ha) as Hc. unfold Stop, close_stop. cbn [ht_done set_ht_channels].
  destruct (ht_done t) eqn:Hd.
  { do 3 eexists. exists []. rewrite app_nil_r. by split_and!. }
  unfold loop_exit.
  destruct (drain_runs (S (Z.to_nat (pending t))) _ w h Hnp Hc) as (t' & w' & ls & Hdr & Hrun & Hv).
  { change (pending (set_ht_channels (ht_signal t) true false t)) with (pending t). lia. }
  destruct (drain_sends _ _ _ _ _ _ Hnp Hc Hdr) as (reqs & Hs & Hlen).
  rewrite Hdr. cbn [mbind option_bind]. do 3 eexists. exists reqs. do 5 (split; [done|]).
  intros Hn. specialize (Hv Hn). unfold pending in Hv. pose proof (zlen_nonneg (ht_buf t')).
  pose proof (zlen_nonneg (ht_inflight t')). cbn. split; apply zlen_nil_inv; lia.
Qed.

(** C17: against a cloud that accepts (and with no other goroutine pushing), [Stop] delivers: every event waiting (with
    encodable times and floats) is posted to the ingest URL, in order, in
    batches of at most BatchSize, with exactly the content the wire format
    gives it, and [Stop] returns nil. *)
Theorem Stop_delivers `{!AgentLog W} (I : W -> Prop) opts l t (w : W) :
  runs (newHTTPTransport (withDefaults opts)) l t -> ht_done t = false ->
  accepting I (ht_url t) -> I w -> verdict t = None ->
  Forall (fun ev => event_ok ev = true) (ht_inflight t ++ ht_buf t) ->
  exists t' w' reqs, Stop (S (Z.to_nat (pending t))) t w = Some (Some (None, t', w'))
    /\ ht_buf t' = [] /\ ht_inflight t' = []
    /\ aw_sent w' = aw_sent w ++ reqs
    /\ mjoin (map request_payloads reqs) = omap (payload (ht_opts t)) (ht_inflight t ++ ht_buf t)
    /\ Forall (fun r => ar_URL r = ht_url t /\ zlen (request_payloads r) <= o_BatchSize (ht_opts t)) reqs.
Proof.
  intros Hr Hd Hacc Hw Hv Hev.
  destruct (runs_account _ _ _ _ (new_account _ (withDefaults_ok opts)) Hr) as (h & Ha & _).
  assert (Hte : ht_terminalErr t = None /\ ht_drainErr t = None) by (unfold verdict in Hv; by case_match).
  destruct Hte as [Hte Hde]. pose proof (account_channels _ _ (ht_signal t) true false Ha) as Hc.
  destruct (drain_delivers I (S (Z.to_nat (pending t))) (set_ht_channels (ht_signal t) true false t) w h)
    as (t' & w' & reqs & Hdr & Hp & Ht' & Hde' & Hs & Hall & Hpay & _); try done.
  { unfold isTerminal. cbn. by rewrite Hte. }
  { change (pending (set_ht_channels (ht_signal t) true false t)) with (pending t). lia. }
  unfold Stop, close_stop, loop_exit. cbn [ht_done set_ht_channels]. rewrite Hd, Hdr. cbn [mbind option_bind].
  assert (Hver : verdict (set_ht_channels (ht_signal t') (ht_stopped t') true t') = None).
  { unfold verdict. cbn. unfold isTerminal in Ht'. destruct (ht_terminalErr t'); [done|]. by rewrite Hde'. }
  rewrite Hver. do 2 eexists. exists reqs. split; [done|]. unfold pending in Hp. pose proof (zlen_nonneg (ht_buf t')).
  pose proof (zlen_nonneg (ht_inflight t')). cbn [ht_buf ht_inflight set_ht_channels].
  split_and!; try done; apply zlen_nil_inv; lia.
Qed.
End properties.

(** ** A concrete environment *)

(** A fixed clock and entropy, an answer for every request, a log. *)
Record logAgent := {
  la_now : Time;
  la_entropy : list Z;
  la_ids : idState;
  la_answer : agentRequest -> result Z;
  la_sent : list agentRequest
}.

#[export] Instance log_agent : AgentWorld logAgent := {|
  aw_now w := (la_now w, w);
  aw_id w := let '(id, ids) := newEventID (la_now w / Millisecond) (la_entropy w) (la_ids w) in
             (id, {| la_now := la_now w; la_entropy := la_entropy w; la_ids := ids; la_answer := la_answer w;
                     la_sent := la_sent w |});
  aw_url _ := None;
  aw_do r w := (la_answer w r, {| la_now := la_now w; la_entropy := la_entropy w; la_ids := la_ids w;
                                  la_answer := la_answer w; la_sent := la_sent w ++ [r] |});
  aw_pushed w := ([], w)
|}.

#[export] Instance log_agent_log : AgentLog logAgent.
Proof.
  by refine {| aw_sent := la_sent |}.
Defined.

Definition demo_agent (now : Time) (status : Z) : logAgent := {|
  la_now := now; la_entropy := replicate 10 0; la_ids := {| lastMS := 0; lastEntropy := replicate 10 0 |};
  la_answer _ := Ok status; la_sent := [] |}.

Definition demo_rand (n : Z) : Z := 0.

Lemma demo_rand_ok : int63n_ok demo_rand.
Proof. intros n Hn. unfold demo_rand. lia. Qed.

Lemma flush_loop_refines_witness :
  exists backoff t w' sections,
    go_foldl run_schedule_step (0, newHTTPTransport (withDefaults demo_options), demo_agent Hour 503)
      [SPush (demo_event Hour); STurn true demo_rand 0; STurn false demo_rand 0] = Some (backoff, t, w')
    /\ runs (newHTTPTransport (withDefaults demo_options)) sections t
    /\ 0 <= backoff <= o_MaxBackoff (withDefaults demo_options) + o_MaxBackoff (withDefaults demo_options) / 5.
Proof.
  apply (flush_loop_refines demo_options _ (demo_agent Hour 503)); [split; vm_compute; congruence|].
  constructor; [exact Logic.I|]. do 2 (constructor; [exact demo_rand_ok|]). constructor.
Defined.

(** After the two failures of that schedule the loop waits half a second. *)
Example demo_backoff :
  (fun s => s.1.1) <$> go_foldl run_schedule_step (0, newHTTPTransport (withDefaults demo_options), demo_agent Hour 503)
    [SPush (demo_event Hour); SPush {| ev_CapturedAt := Hour; ev_Request := None; ev_Score := None |};
     STurn true demo_rand 0; STurn false demo_rand 0]
  = Some (500 * Millisecond).
Proof. by vm_compute. Qed.

Definition demo_request (n : Z) : Event := {|
  ev_CapturedAt := n * Hour; ev_Score := None;
  ev_Request := Some {| re_Provider := "mempool"; re_Operation := "GetBalance"; re_Success := true;
                        re_Duration := 1500 * Millisecond; re_AttemptCount := n; re_ErrorClass := "" |} |}.

Definition demo_pushes : list section := map CPush [demo_request 1; demo_request 2; demo_request 3].

Definition demo_waiting : httpTransport :=
  default (newHTTPTransport demo_options) (go_foldl run_section (newHTTPTransport (withDefaults demo_options)) demo_pushes).

Lemma demo_waiting_reached : runs (newHTTPTransport (withDefaults demo_options)) demo_pushes demo_waiting.
Proof. by vm_compute. Qed.

Lemma Stop_terminates_witness :
  exists v t' w' reqs,
    Stop (S (Z.to_nat (pending demo_waiting))) demo_waiting (demo_agent Hour 503) = Some (Some (v, t', w'))
    /\ ht_done t' = true /\ v = verdict t'
    /\ aw_sent w' = aw_sent (demo_agent Hour 503) ++ reqs
    /\ if ht_done demo_waiting then w' = demo_agent Hour 503 /\ t' = close_stop demo_waiting /\ reqs = []
       else zlen reqs <= pending demo_waiting /\ (v = None -> ht_buf t' = [] /\ ht_inflight t' = []).
Proof. by apply (Stop_terminates demo_options demo_pushes); [apply demo_waiting_reached|]. Defined.

(** The environments in which the cloud answers 202 and the clock is sane. *)
Definition accepting_agent (w : logAgent) : Prop :=
  (forall r, la_answer w r = Ok 202) /\ json_time_ok (la_now w) = true.

Lemma demo_accepting url : accepting accepting_agent url.
Proof.
  split; try done.
  - intros r w [Hw _]. exists 202. cbn. by rewrite Hw.
  - by intros w [_ Hw].
Qed.

Lemma Stop_delivers_witness :
  exists t' w' reqs, Stop (S (Z.to_nat (pending demo_waiting))) demo_waiting (demo_agent Hour 202) = Some (Some (None, t', w'))
    /\ ht_buf t' = [] /\ ht_inflight t' = []
    /\ aw_sent w' = aw_sent (demo_agent Hour 202) ++ reqs
    /\ mjoin (map request_payloads reqs)
       = omap (payload (ht_opts demo_waiting)) (ht_inflight demo_waiting ++ ht_buf demo_waiting)
    /\ Forall (fun r => ar_URL r = ht_url demo_waiting /\ zlen (request_payloads r) <= o_BatchSize (ht_opts demo_waiting)) reqs.
Proof.
  apply (Stop_delivers accepting_agent demo_options demo_pushes); try done.
  - apply demo_accepting.
  - repeat constructor.
Defined.

