(* ===== verification/ProvidersProps.v ===== *)
(** * Properties of the mixed provider

    One metrics event per operation, error classes, pinning, and the fact that
    an operation on one chain leaves the others alone. *)

From S2P Require Import Prelude GoInt GoFloat GoString Config RateLimit Sorting Penalties.
From S2P Require Import Scorer ScoringConfig Latency Events Decay Store Engine EngineStore.
From S2P Require Import EngineInv Selection Manager ManagerProps RunOp RunProps Bitcoin Providers.

(** ** Error classes *)

Lemma to_lower_app a b : to_lower (a +:+ b) = to_lower a +:+ to_lower b.
Proof. induction a as [|c a IH]; [done|]. change (String c a +:+ b) with (String c (a +:+ b)). cbn [to_lower]. by rewrite IH. Qed.

(** The prefix [runOp] adds contains no keyword and ends no keyword's start. *)
Lemma str_contains_prefixed s sub :
  sub = "rate limit"%string \/ sub = "429"%string \/ sub = "too many requests"%string ->
  str_contains sub (last_error_msg +:+ s) = str_contains sub s.
Proof. intros [-> | [-> | ->]]; reflexivity. Qed.

(** The error class of a failed operation is that of the last provider's
    error: wrapping it in the all-providers-failed message neither hides an
    authentication, configuration or timeout cause nor introduces or hides a
    rate-limit keyword. *)
Theorem classifyError_wrapped err :
  classifyError (Some (errWrap last_error_msg err "")) = classifyError (Some err).
Proof.
  cbn [classifyError errors_is err_msg]. repeat (destruct (errors_is _ _); [done|]). cbn [orb]. cbv zeta.
  rewrite app_empty_r, to_lower_app. change (to_lower last_error_msg) with last_error_msg.
  rewrite !str_contains_prefixed by auto. done.
Qed.

(** ** One event per operation *)

Section mixed.
Context {S Ps P W : Type} `{Btcd, MapRange, GoRand, SortSlice, GoArch, GoMath, World W, !Dynamic W P}.
Implicit Types m : MixedProviders S Ps P.

(** The success of a result, and its error. *)
Definition result_err {R} (r : result R) : option error := match r with Ok _ => None | Err err => Some err end.

(** What the recorder receives for one operation. *)
Definition expected_event (recorder : MetricsRecorder) (operation provider : string) (duration : Duration)
    (attempts : Z) (err : option error) : list recorded :=
  match recorder with
  | NoOpMetricsRecorder => []
  | SimpleRecorder => [RecordBlockchainRequest provider operation (bool_decide (err = None)) duration]
  | RichRecorder =>
      [RecordBlockchainRequestRich {|
         re_Provider := provider; re_Operation := operation; re_Success := bool_decide (err = None);
         re_Duration := duration; re_AttemptCount := attempts; re_ErrorClass := classifyError err |}]
  end.

Lemma record_request_eq operation provider duration attempts err m :
  mp_recorded (record_request operation provider duration attempts err m)
    = mp_recorded m ++ expected_event (mp_recorder m) operation provider duration attempts err
  /\ mp_managers (record_request operation provider duration attempts err m) = mp_managers m
  /\ mp_scoring (record_request operation provider duration attempts err m) = mp_scoring m.
Proof. unfold record_request. destruct (mp_recorder m); cbn; by rewrite ?app_nil_r. Qed.

Lemma put_ne chain c (pm : providerManager P) f : c <> chain -> put chain pm f c = f c.
Proof. intros Hc. unfold put. by rewrite decide_False. Qed.

Lemma put_eq chain (pm : providerManager P) f : put chain pm f chain = Some pm.
Proof. unfold put. by rewrite decide_True. Qed.

(** The calls [tr] of an operation on a chain, the provider it reports and its
    result: the answer of the last call, or an error after failed calls. *)
Definition chain_outcome {R} (pm : providerManager P) (tr : list (P * result R)) (provider : string) (r : result R) : Prop :=
  let failed (c : P * result R) := exists e, c.2 = Err e in
  Forall (fun c => c.1 ∈ map pc_Provider (pm_providers pm)) tr
  /\ match r with
     | Ok a => exists p tr', tr = tr' ++ [(pc_Provider p, Ok a)] /\ Forall failed tr'
                 /\ p ∈ pm_providers pm /\ provider = pc_Name p
     | Err _ => Forall failed tr /\ provider = ""%string
     end.

(** The whole of an operation. *)
Lemma execute_spec {R} (fn : P -> W -> go (result R * W)) `{!LoggedOp fn} ctx chain operation dbg mm K manager m (w : W) :
  mp_managers m chain = Some manager ->
  let policy := cc_RetryPolicy (pm_config manager) in
  run_ok fn mm K {| rs_pm := manager; rs_eng := mp_engine m; rs_world := w |} ->
  0 <= mm -> mm * maxAttempts policy + 2 <= K -> maxAttempts policy < 2 ^ 61 ->
  exists r provider duration dbg' m' w' tr,
    executeWithFallbackAndMetrics ctx chain operation fn dbg m w = Some (r, dbg', m', w')
    /\ calls_of w' = calls_of w ++ tr
    /\ mp_recorded m' = mp_recorded m ++ expected_event (mp_recorder m) operation provider duration (zlen tr) (result_err r)
    /\ (forall c, c <> chain -> mp_managers m' c = mp_managers m c)
    /\ chain_outcome manager tr provider r.
Proof.
  intros Hm policy Hok H0mm HK Hmax. unfold executeWithFallbackAndMetrics. rewrite Hm. cbn [mbind option_bind].
  destruct (runOp_chain fn ctx dbg mm K _ Hok H0mm HK Hmax)
    as (avail & pm1 & rr & dbg' & s' & tr & _ & Hav & -> & _ & Hcs & Hatt & Hcand). cbn [mbind option_bind].
  set (m1 := set_mp_engine (rs_eng s') (set_mp_managers (put chain (rs_pm s') (mp_managers m)) m)).
  destruct (record_request_eq operation (rr_provider rr) (rr_duration rr) (rr_attempts rr) (rr_err rr) m1) as (Hrec & Hman & _).
  set (m2 := record_request _ _ _ _ _ m1) in *.
  assert (forall c, c <> chain -> mp_managers m2 c = mp_managers m c) as Hothers
    by (intros c Hc; rewrite Hman; by apply put_ne).
  rewrite Hatt in Hrec.
  destruct (candidates ctx manager avail) as [l|err] eqn:Ec; cbn [rs_pm] in Hcand; rewrite Ec in Hcand.
  2: { destruct Hcand as (-> & -> & Hd & Hp & He). rewrite He in *.
       exists (Err err), (rr_provider rr), (rr_duration rr), dbg, m2, (rs_world s'), []. rewrite Hp in *.
       split_and!; [done..|]. by split_and!; constructor. }
  destruct Hcand as (names & errs & res & Htr & -> & Hout). pose proof (chain_tried_members _ _ _ _ _ _ _ Htr) as Hmem.
  apply chain_tried_result in Htr. apply candidates_sub in Ec as (Hsub & _). cbn in Hav.
  assert (Forall (fun c : P * result R => c.1 ∈ map pc_Provider (pm_providers manager)) tr) as Hall.
  { eapply Forall_impl; [exact Hmem|]. intros c (p & -> & Hp)%list_elem_of_fmap. apply list_elem_of_fmap. eauto. }
  destruct res as [[p r]|]; cbn in Hout.
  - destruct Hout as (Hd & Hp & He). rewrite He, Hd in *. destruct Htr as (tr' & Htr & Hf & Hin). cbn [mbind option_bind].
    exists (Ok r), (rr_provider rr), (rr_duration rr). do 2 eexists. exists (rs_world s'), tr.
    split_and!; [done..|]. split; [done|]. exists p, tr'. split_and!; [done..|auto|done].
  - destruct Hout as (Hd & Hp & He). rewrite He in *. destruct Htr as [Hf _].
    eexists (Err _), (rr_provider rr), (rr_duration rr). do 2 eexists. exists (rs_world s'), tr. split_and!; done.
Qed.
End mixed.

(** An operation dispatched to a chain reports to the metrics recorder
    exactly once, with the caller's outcome: the provider is the one whose
    answer is returned (empty on failure), the attempt count is the number of
    provider calls made, the class is that of the returned error; no other
    chain is touched. *)
Theorem execute_records_once {S Ps P W R : Type}
    `{MapRange, GoRand, SortSlice, GoArch, GoMath, World W}
    (fn : P -> W -> go (result R * W)) `{!LoggedOp fn} ctx chain operation dbg mm K manager
    (m : MixedProviders S Ps P) (w : W) :
  mp_managers m chain = Some manager ->
  let policy := cc_RetryPolicy (pm_config manager) in
  run_ok fn mm K {| rs_pm := manager; rs_eng := mp_engine m; rs_world := w |} ->
  0 <= mm -> mm * maxAttempts policy + 2 <= K -> maxAttempts policy < 2 ^ 61 ->
  exists r provider duration dbg' m' w' tr,
    executeWithFallbackAndMetrics ctx chain operation fn dbg m w = Some (r, dbg', m', w')
    /\ calls_of w' = calls_of w ++ tr
    /\ mp_recorded m' = mp_recorded m ++ expected_event (mp_recorder m) operation provider duration (zlen tr) (result_err r)
    /\ (forall c, c <> chain -> mp_managers m' c = mp_managers m c)
    /\ chain_outcome manager tr provider r.
Proof. intros Hm policy Hok H0mm HK Hmax. by apply (execute_spec fn ctx chain operation dbg mm K manager). Qed.

#[local] Existing Instances lcg_rand insertion_sort_slice arch_amd64 zero_pow demo_World demo_LoggedOp canonical_range.

(** A mixed provider with one chain of two providers, as in [RunProps]. *)
Definition blank_engine (c : ScoringConfig) : Engine unit unit := {|
  eng_config := c; eng_scores := ∅; eng_latencyTracker := NewLatencyTracker 100;
  eng_decayManager := NewDecayManager c; eng_store := None; eng_penaltyHistoryStore := None;
  eng_metrics := []; eng_cleanup := None; eng_pending := []; eng_started := false |}.

Definition demo_engine : Engine unit unit := blank_engine DefaultScoringConfig.

Lemma blank_engine_inv c : cfg_ok c -> engine_inv 0 (blank_engine c).
Proof.
  intros Hc. split; cbn; [done|apply Hc|apply map_Forall_empty|].
  split; [|done]. rewrite all_samples_total. cbn. unfold total. by rewrite map_to_list_empty.
Qed.

Definition demo_mixed : MixedProviders unit unit nat := {|
  mp_managers chain := if decide (chain = ProviderChainTxBroadcasters) then Some (demo_pm two_providers) else None;
  mp_recorder := RichRecorder; mp_recorded := []; mp_scoring := false; mp_engine := demo_engine |}.

Lemma demo_mixed_ok :
  run_ok demo_op 2 1000 {| rs_pm := demo_pm two_providers; rs_eng := demo_engine; rs_world := [] |}.
Proof.
  destruct demo_conditions as ((Hi & Hc & _) & _). split; [exact Hi|]. split; [exact Hc|].
  exists 0. split_and!; [|vm_compute; exact I|lia|lia]. exact (blank_engine_inv _ DefaultScoringConfig_ok).
Qed.

Lemma execute_records_once_witness :
  exists r provider duration dbg' m' w' tr,
    executeWithFallbackAndMetrics background ProviderChainTxBroadcasters "PushTx" demo_op None demo_mixed []
      = Some (r, dbg', m', w')
    /\ calls_of w' = [] ++ tr
    /\ mp_recorded m' = [] ++ expected_event RichRecorder "PushTx" provider duration (zlen tr) (result_err r)
    /\ (forall c, c <> ProviderChainTxBroadcasters -> mp_managers m' c = mp_managers demo_mixed c)
    /\ chain_outcome (demo_pm two_providers) tr provider r.
Proof.
  destruct demo_conditions as (_ & Hm & HK & Hmax).
  exact (execute_records_once demo_op background ProviderChainTxBroadcasters "PushTx" None 2 1000
    (demo_pm two_providers) demo_mixed [] eq_refl demo_mixed_ok Hm HK Hmax).
Defined.

(** ** Looking up a provider by name *)

(** [ProviderExists] finds exactly the names registered in twelve of the
    thirteen chains: a provider known only to the historical-rate chain is
    reported as absent. *)
Theorem ProviderExists_spec {S Ps P} name (m : MixedProviders S Ps P) :
  ProviderExists name m = true
  <-> exists chain manager p, chain <> ProviderChainHistoricalRateFetchers
        /\ mp_managers m chain = Some manager /\ p ∈ pm_providers manager /\ pc_Name p = name.
Proof.
  assert (forall manager : providerManager P, HasProvider name manager = true
    <-> exists p, p ∈ pm_providers manager /\ pc_Name p = name) as Hhas.
  { intros manager. unfold HasProvider. rewrite existsb_exists. split.
    - intros (p & Hp & Hn%bool_decide_eq_true). exists p. by rewrite list_elem_of_In.
    - intros (p & Hp%list_elem_of_In & Hn). exists p. by rewrite bool_decide_eq_true. }
  unfold ProviderExists. rewrite existsb_exists. split.
  - intros (chain & Hin & Hm). destruct (mp_managers m chain) as [manager|] eqn:Em; [|done].
    apply Hhas in Hm as (p & Hp & Hn). exists chain, manager, p. split_and!; [|done..].
    intros ->. cbn in Hin. by repeat destruct Hin as [?|Hin].
  - intros (chain & manager & p & Hc & Hm & Hp & Hn). exists chain. split.
    + destruct chain; cbn; tauto.
    + rewrite Hm. apply Hhas. by exists p.
Qed.
