(* ===== verification/RunSim.v ===== *)
(** * Running an operation in another environment

    An operation behaves the same in two environments related by a function
    that commutes with the steps of the environment and with the providers.
    With the environment that also remembers each call, this turns the facts
    about logged operations into facts about any operation that returns on the
    providers of its chain. *)

From S2P Require Import Prelude GoInt GoFloat GoString Config RateLimit Sorting Penalties.
From S2P Require Import Scorer ScoringConfig Latency Events Decay Store Engine EngineStore.
From S2P Require Import EngineInv Selection Manager ManagerProps RunOp RunProps Bitcoin Providers.
From S2P Require Import ProvidersProps.

(** ** Related environments *)

(** [f] takes the steps of one environment to those of the other. *)
Class Morphism {V W : Type} `{World V, World W} (f : V -> W) : Prop := {
  mor_clock : forall v, w_clock (f v) = (let '(c, v') := w_clock v in (c, f v'));
  mor_wait : forall d v, w_wait d (f v) = (let '(r, v') := w_wait d v in (r, f v'));
  mor_float64 : forall v, w_float64 (f v) = (let '(x, v') := w_float64 v in (x, f v'))
}.

Section sim.
Context {P E V W R : Type} `{ScoringEngine E, GoRand, SortSlice, GoArch, GoMath, World V, World W}.
Context (f : V -> W) `{!Morphism f}.
Context (op1 : P -> V -> go (result R * V)) (op2 : P -> W -> go (result R * W)).
Hypothesis op_sim : forall p v, op2 p (f v) = '(r, v') ← op1 p v; Some (r, f v').

Definition map_state (s : run_state P E V) : run_state P E W :=
  {| rs_pm := rs_pm s; rs_eng := rs_eng s; rs_world := f (rs_world s) |}.

(** The state of an outcome, in the other environment. *)
Definition map_out {A} (x : A * run_state P E V) : A * run_state P E W := (x.1, map_state x.2).

Lemma attempt_loop_sim ctx p policy n attempt attempts lastErr s :
  attempt_loop op2 ctx p policy n attempt attempts lastErr (map_state s)
  = map_out <$> attempt_loop op1 ctx p policy n attempt attempts lastErr s.
Proof.
  revert attempt attempts lastErr s. induction n as [|n IH]; intros attempt attempts lastErr s; [done|].
  cbn [attempt_loop rs_world map_state].
  assert ((if 0 <? attempt then
             let '(rnd, w) := if rp_Jitter policy then w_float64 (f (rs_world s)) else (f64_zero, f (rs_world s)) in
             w_wait (retryDelay policy attempt rnd) w
           else (None, f (rs_world s)))
          = (let '(c, v) := (if 0 <? attempt then
             let '(rnd, w) := if rp_Jitter policy then w_float64 (rs_world s) else (f64_zero, rs_world s) in
             w_wait (retryDelay policy attempt rnd) w
             else (None, rs_world s)) in (c, f v))) as ->.
  { destruct (0 <? attempt); [|done]. rewrite mor_float64. destruct (rp_Jitter policy); [|apply mor_wait].
    destruct (w_float64 (rs_world s)). apply mor_wait. }
  destruct (if 0 <? attempt then _ else _) as [[err|] v]; [done|].
  rewrite mor_clock. destruct (w_clock v) as [clk v1]. rewrite op_sim.
  destruct (op1 (pc_Provider p) v1) as [[r v2]|]; [|done]. cbn [mbind option_bind].
  rewrite mor_clock. destruct (w_clock v2) as [clk2 v3]. destruct r as [result|err].
  - by destruct (recordSuccessWithLatency _ _ _ _ _) as [[pm e]|].
  - destruct (recordFailureWithError _ _ _ _ _ _ _) as [[pm e]|]; [|done]. cbn [mbind option_bind].
    exact (IH _ _ _ {| rs_pm := pm; rs_eng := e; rs_world := v3 |}).
Qed.

Lemma chain_loop_sim ctx start policy l total lastErr dbg s :
  chain_loop op2 ctx start policy l total lastErr dbg (map_state s)
  = map_out <$> chain_loop op1 ctx start policy l total lastErr dbg s.
Proof.
  revert total lastErr dbg s. induction l as [|p l IH]; intros total lastErr dbg s; cbn [chain_loop].
  - cbn [rs_world map_state]. rewrite mor_clock. by destruct (w_clock (rs_world s)).
  - unfold attemptWithRetry. rewrite attempt_loop_sim.
    destruct (attempt_loop op1 _ _ _ _ _ _ _ s) as [[[[result attempts] [err|]] s']|]; [|cbn|done].
    + exact (IH _ _ _ s').
    + rewrite mor_clock. by destruct (w_clock (rs_world s')).
Qed.

Lemma runOp_sim ctx dbg s : runOp op2 ctx dbg (map_state s) = map_out <$> runOp op1 ctx dbg s.
Proof.
  unfold runOp. cbn [rs_world rs_pm rs_eng map_state]. rewrite mor_clock. destruct (w_clock (rs_world s)) as [clk v].
  destruct (getAvailableProviders _ _ _) as [[l pm]|]; [|done]. cbn [mbind option_bind].
  destruct (zlen l =? 0); [done|]. destruct (pin_providers ctx pm l) as [l'|err]; [|done].
  exact (chain_loop_sim ctx (clk 0%nat) _ l' 0 None dbg {| rs_pm := pm; rs_eng := rs_eng s; rs_world := v |}).
Qed.
End sim.

Section execute.
Context {S Ps P V W R : Type} `{Btcd, MapRange, GoRand, SortSlice, GoArch, GoMath, World V, World W}.
Context (f : V -> W) `{!Morphism f}.

Lemma execute_sim (op1 : P -> V -> go (result R * V)) (op2 : P -> W -> go (result R * W)) ctx chain operation dbg
    (m : MixedProviders S Ps P) v :
  (forall p v, op2 p (f v) = '(r, v') ← op1 p v; Some (r, f v')) ->
  executeWithFallbackAndMetrics ctx chain operation op2 dbg m (f v)
  = '(r, dbg', m', v') ← executeWithFallbackAndMetrics ctx chain operation op1 dbg m v; Some (r, dbg', m', f v').
Proof.
  intros Hop. unfold executeWithFallbackAndMetrics. destruct (mp_managers m chain) as [pm|]; [|done]. cbn [mbind option_bind].
  pose proof (runOp_sim f op1 op2 Hop ctx dbg {| rs_pm := pm; rs_eng := mp_engine m; rs_world := v |}) as Hrun.
  unfold map_state in Hrun at 1. cbn [rs_pm rs_eng rs_world] in Hrun. rewrite Hrun.
  destruct (runOp op1 ctx dbg _) as [[[rr dbg'] s]|]; [|done]. cbn.
  destruct (rr_err rr); [done|]. by destruct (rr_data rr).
Qed.
End execute.

(** ** The course of an operation

    What an operation does to the environment: readings of the clock, waits,
    random draws, and calls to providers. *)

Section course.
Context {P W R : Type} `{World W}.
Context (fn : P -> W -> go (result R * W)).

(** [course w tr w']: from [w] to [w'] by steps of the environment and by the
    calls [tr], each made in the environment the one before has left. *)
Inductive course (w : W) : list (P * result R) -> W -> Prop :=
  | course_start : course w [] w
  | course_clock tr w' : course w tr w' -> course w tr (w_clock w').2
  | course_wait tr d w' : course w tr w' -> course w tr (w_wait d w').2
  | course_float64 tr w' : course w tr w' -> course w tr (w_float64 w').2
  | course_call tr w' p r w'' : course w tr w' -> fn p w' = Some (r, w'') -> course w (tr ++ [(p, r)]) w''.

(** The last call of a course was made, and answered so. *)
Lemma course_last w tr p r w' :
  course w (tr ++ [(p, r)]) w' -> exists w1 w2, course w tr w1 /\ fn p w1 = Some (r, w2).
Proof.
  remember (tr ++ [(p, r)]) as l eqn:El. intros Hc. revert El.
  induction Hc as [|l w' Hc IH|l d w' Hc IH|l w' Hc IH|l w' q r' w'' Hc IH Hq]; intros El; [by destruct tr|eauto..|].
  apply app_inj_tail in El as [-> [= -> ->]]. eauto.
Qed.

(** The environment with the course that led to it. *)
Record path (w : W) := { path_calls : list (P * result R); path_end : W; path_course : course w path_calls path_end }.

#[global] Instance World_path w : World (path w) := {|
  w_clock s := ((w_clock (path_end w s)).1,
    {| path_calls := path_calls w s; path_end := _; path_course := course_clock w _ _ (path_course w s) |});
  w_wait d s := ((w_wait d (path_end w s)).1,
    {| path_calls := path_calls w s; path_end := _; path_course := course_wait w _ d _ (path_course w s) |});
  w_float64 s := ((w_float64 (path_end w s)).1,
    {| path_calls := path_calls w s; path_end := _; path_course := course_float64 w _ _ (path_course w s) |})
|}.

#[global] Instance path_morphism w : Morphism (path_end w).
Proof. split; intros; cbn; by apply surjective_pairing. Qed.

(** The operation that remembers its calls. *)
Definition on_path w (p : P) (s : path w) : go (result R * path w) :=
  match fn p (path_end w s) as o return fn p (path_end w s) = o -> go (result R * path w) with
  | Some (r, w') => fun Hfn => Some (r, {| path_calls := path_calls w s ++ [(p, r)]; path_end := w';
                                           path_course := course_call w _ _ _ _ _ (path_course w s) Hfn |})
  | None => fun _ => None
  end eq_refl.

Lemma on_path_some w p s :
  is_Some (fn p (path_end w s)) ->
  exists r s', on_path w p s = Some (r, s') /\ path_calls w s' = path_calls w s ++ [(p, r)].
Proof.
  intros Hs. unfold on_path. generalize (eq_refl (fn p (path_end w s))).
  destruct (fn p (path_end w s)) as [[r w']|] eqn:E at 2 3; intros Hfn; [by eauto|].
  destruct Hs as [? Hs]. congruence.
Qed.

Lemma on_path_sim w p s : fn p (path_end w s) = '(r, s') ← on_path w p s; Some (r, path_end w s').
Proof.
  unfold on_path. generalize (eq_refl (fn p (path_end w s))).
  destruct (fn p (path_end w s)) as [[r w']|] at 2 3 4; done.
Qed.

#[global] Program Instance on_path_logged w : LoggedOp (on_path w) := {|
  calls_of := path_calls w;
  callable p := forall w, is_Some (fn p w)
|}.
Next Obligation. done. Qed.
Next Obligation. done. Qed.
Next Obligation. done. Qed.
Next Obligation. intros w p s Hs. by apply on_path_some. Qed.
End course.
