(* ===== verification/Builder.v ===== *)
(** * Building and reconfiguring a mixed provider

    [builder.go] ([MixedProvidersBuilder], its role chains and [Build]) and
    [config_updater.go] (the runtime configuration surface of
    [MixedProviders]). *)

From S2P Require Import Prelude GoInt GoFloat GoString Config RateLimit Sorting Penalties.
From S2P Require Import Scorer ScoringConfig Latency Events Decay Store Engine EngineStore.
From S2P Require Import EngineInv Selection Manager ManagerProps RunOp Bitcoin Providers.

Section builder.
Context {S Ps P W : Type} `{Btcd, MapRange, GoRand, SortSlice, GoArch, GoMath, World W, !Dynamic W P}.

(** ** The builder *)

Record MixedProvidersBuilder := {
  b_managers : ProviderChainType -> option (providerManager P);
  b_chainConfigs : gmap string ChainConfig;
  b_recorder : MetricsRecorder;
  b_engine : option (Engine S Ps)
}.
Implicit Types b : MixedProvidersBuilder.

Definition set_b_managers (v : ProviderChainType -> option (providerManager P)) b : MixedProvidersBuilder :=
  {| b_managers := v; b_chainConfigs := b_chainConfigs b; b_recorder := b_recorder b; b_engine := b_engine b |}.
Definition set_b_chainConfigs (v : gmap string ChainConfig) b : MixedProvidersBuilder :=
  {| b_managers := b_managers b; b_chainConfigs := v; b_recorder := b_recorder b; b_engine := b_engine b |}.
Definition set_b_recorder (v : MetricsRecorder) b : MixedProvidersBuilder :=
  {| b_managers := b_managers b; b_chainConfigs := b_chainConfigs b; b_recorder := v; b_engine := b_engine b |}.
Definition set_b_engine (v : option (Engine S Ps)) b : MixedProvidersBuilder :=
  {| b_managers := b_managers b; b_chainConfigs := b_chainConfigs b; b_recorder := b_recorder b; b_engine := v |}.

(** [seed] gives the random seed of each chain's selector. *)
Definition NewMixedProvidersBuilder (seed : ProviderChainType -> Z) : MixedProvidersBuilder := {|
  b_managers := fun chain => newProviderManager (DefaultChainConfig chain) (seed chain);
  b_chainConfigs := ∅;
  b_recorder := NoOpMetricsRecorder;
  b_engine := None |}.

Definition WithChainConfig (chainType : ProviderChainType) (config : ChainConfig) (seed : Z) b
    : go MixedProvidersBuilder :=
  let b := set_b_chainConfigs (<[chain_string chainType := config]> (b_chainConfigs b)) b in
  manager ← b_managers b chainType;
  manager ← updateChainConfig config seed manager;
  Some (set_b_managers (put chainType manager (b_managers b)) b).

Definition WithMetricsRecorder (recorder : option MetricsRecorder) b : MixedProvidersBuilder :=
  set_b_recorder (default NoOpMetricsRecorder recorder) b.

Definition WithAdaptiveScoring `{ScoreStore S, PenaltyHistoryStore Ps} (opts : list ScoringOption)
    (store : option S) (penaltyStore : option Ps) (withMetrics : bool) (clk : clock) b : go MixedProvidersBuilder :=
  engine ← NewEngine opts store penaltyStore withMetrics clk;
  Some (set_b_engine (Some engine) b).

Definition WithAdaptiveScoringEngine (engine : option (Engine S Ps)) b : MixedProvidersBuilder :=
  set_b_engine engine b.

(** An entry of a role chain ([BalanceFetcherConfig] and its twelve siblings);
    the static type of the provider is that of the role. *)
Record chainEntry := {
  ce_Provider : option P;
  ce_Priority : Z;
  ce_Name : string;
  ce_ChainConfig : option ChainConfig
}.

Definition entry_name (provider : P) (name : string) : string :=
  if bool_decide (name = ""%string) then default "unknown"%string (as_Name provider) else name.

(** The body of a role's loop; [i] numbers the entries. *)
Fixpoint add_entries (seed : nat -> Z) (clk : nat -> clock) (i : nat) (entries : list chainEntry)
    (chainConfigApplied : bool) (manager : providerManager P) : go (providerManager P) :=
  match entries with
  | [] => Some manager
  | entry :: entries =>
      match ce_Provider entry with
      | None => add_entries seed clk (Datatypes.S i) entries chainConfigApplied manager
      | Some provider =>
          let name := entry_name provider (ce_Name entry) in
          '((applied, manager) : bool * providerManager P) ←
            match ce_ChainConfig entry with
            | Some config =>
                if negb chainConfigApplied
                then manager ← updateChainConfig config (seed i) manager; Some (true, manager)
                else Some (chainConfigApplied, manager)
            | None => Some (chainConfigApplied, manager)
            end;
          let manager := addProvider (Some provider) (ce_Priority entry) name (clk i) manager in
          add_entries seed clk (Datatypes.S i) entries applied manager
      end
  end.

Definition with_chain (chain : ProviderChainType) (seed : nat -> Z) (clk : nat -> clock)
    (entries : list chainEntry) b : go MixedProvidersBuilder :=
  manager ← b_managers b chain;
  manager ← add_entries seed clk 0 entries false manager;
  Some (set_b_managers (put chain manager (b_managers b)) b).

Definition WithBalanceFetcherChain := with_chain ProviderChainBalanceFetchers.
Definition WithRateFetcherChain := with_chain ProviderChainRateFetchers.
Definition WithHistoricalRateFetcherChain := with_chain ProviderChainHistoricalRateFetchers.
Definition WithAddressGeneratorChain := with_chain ProviderChainAddressGenerators.
Definition WithFeeRecommenderChain := with_chain ProviderChainFeeRecommenders.
Definition WithFeeEstimatorChain := with_chain ProviderChainFeeEstimators.
Definition WithTxBroadcasterChain := with_chain ProviderChainTxBroadcasters.
Definition WithTxAssemblerChain := with_chain ProviderChainTxAssemblers.
Definition WithTxSizerChain := with_chain ProviderChainTxSizers.
Definition WithTxSignerChain := with_chain ProviderChainTxSigners.
Definition WithUTXOFetcherChain := with_chain ProviderChainUTXOFetchers.
Definition WithAddressValidatorChain := with_chain ProviderChainAddressValidators.
Definition WithTxStatusFetcherChain := with_chain ProviderChainTxStatusFetchers.

(** The order in which [Build] gives the chains their engine. *)
Definition build_order : list ProviderChainType :=
  [ProviderChainAddressGenerators; ProviderChainAddressValidators; ProviderChainFeeRecommenders;
   ProviderChainFeeEstimators; ProviderChainTxBroadcasters; ProviderChainTxAssemblers;
   ProviderChainTxSizers; ProviderChainTxSigners; ProviderChainTxStatusFetchers;
   ProviderChainUTXOFetchers; ProviderChainBalanceFetchers; ProviderChainRateFetchers;
   ProviderChainHistoricalRateFetchers].

Definition attach_engine (now : string -> Time)
    (acc : (ProviderChainType -> option (providerManager P)) * Engine S Ps) (chain : ProviderChainType)
    : (ProviderChainType -> option (providerManager P)) * Engine S Ps :=
  let '(managers, e) := acc in
  match managers chain with
  | Some manager => let '(manager, e) := SetScoringEngine true now manager e in (put chain manager managers, e)
  | None => (managers, e)
  end.

(** [Build]; [e0] stands for the engine field of a build without scoring. *)
Definition Build `{PenaltyHistoryStore Ps} (now : string -> Time) (e0 : Engine S Ps) b
    : go (MixedProviders S Ps P) :=
  match b_engine b with
  | Some engine =>
      let '(managers, engine) := foldl (attach_engine now) (b_managers b, engine) build_order in
      engine ← eng_Start engine;
      Some {| mp_managers := managers; mp_recorder := b_recorder b; mp_recorded := [];
              mp_scoring := true; mp_engine := engine |}
  | None =>
      Some {| mp_managers := b_managers b; mp_recorder := b_recorder b; mp_recorded := [];
              mp_scoring := false; mp_engine := e0 |}
  end.

(** ** Runtime configuration *)

Implicit Types m : MixedProviders S Ps P.

Record ScoringWeights := {
  sw_HealthCheckFailPenalty : f64;
  sw_RateLimitPenalty : f64;
  sw_AuthFailurePenalty : f64;
  sw_SlowResponsePenalty : f64;
  sw_OperationFailPenalty : f64;
  sw_TimeoutPenalty : f64;
  sw_SuccessBonus : f64;
  sw_MaxPenalty : f64;
  sw_DecayInterval : Duration;
  sw_DecayRate : f64;
  sw_LatencyWindowSize : Z;
  sw_SlowThresholdStdDev : f64;
  sw_MinSamplesForLatencyComparison : Z
}.

Definition zero_ScoringWeights : ScoringWeights := {|
  sw_HealthCheckFailPenalty := f64_zero; sw_RateLimitPenalty := f64_zero; sw_AuthFailurePenalty := f64_zero;
  sw_SlowResponsePenalty := f64_zero; sw_OperationFailPenalty := f64_zero; sw_TimeoutPenalty := f64_zero;
  sw_SuccessBonus := f64_zero; sw_MaxPenalty := f64_zero; sw_DecayInterval := 0; sw_DecayRate := f64_zero;
  sw_LatencyWindowSize := 0; sw_SlowThresholdStdDev := f64_zero; sw_MinSamplesForLatencyComparison := 0 |}.

Definition scoringConfigToWeights (c : ScoringConfig) : ScoringWeights := {|
  sw_HealthCheckFailPenalty := sc_HealthCheckFailPenalty c;
  sw_RateLimitPenalty := sc_RateLimitPenalty c;
  sw_AuthFailurePenalty := sc_AuthFailurePenalty c;
  sw_SlowResponsePenalty := sc_SlowResponsePenalty c;
  sw_OperationFailPenalty := sc_OperationFailPenalty c;
  sw_TimeoutPenalty := sc_TimeoutPenalty c;
  sw_SuccessBonus := sc_SuccessBonus c;
  sw_MaxPenalty := sc_MaxPenalty c;
  sw_DecayInterval := sc_DecayInterval c;
  sw_DecayRate := sc_DecayRate c;
  sw_LatencyWindowSize := sc_LatencyWindowSize c;
  sw_SlowThresholdStdDev := sc_SlowThresholdStdDev c;
  sw_MinSamplesForLatencyComparison := sc_MinSamplesForLatencyComparison c |}.

Definition scoringWeightsToOptions (w : ScoringWeights) : list ScoringOption :=
  [WithHealthCheckPenalty (sw_HealthCheckFailPenalty w);
   WithRateLimitPenalty (sw_RateLimitPenalty w);
   WithAuthFailurePenalty (sw_AuthFailurePenalty w);
   WithSlowResponsePenalty (sw_SlowResponsePenalty w);
   WithOperationFailPenalty (sw_OperationFailPenalty w);
   WithTimeoutPenalty (sw_TimeoutPenalty w);
   WithSuccessBonus (sw_SuccessBonus w);
   WithMaxPenalty (sw_MaxPenalty w);
   WithDecayInterval (sw_DecayInterval w);
   WithDecayRate (sw_DecayRate w);
   WithLatencyWindow (sw_LatencyWindowSize w);
   WithSlowThreshold (sw_SlowThresholdStdDev w);
   WithMinLatencySamples (sw_MinSamplesForLatencyComparison w)].

(** [managerFor]: a chain type is a string, of which thirteen are known. *)
Definition managerFor (chain : string) m : result (ProviderChainType * providerManager P) :=
  match chain_of_string chain with
  | None => Err (errOther ("unknown provider chain: " +:+ quoted chain))
  | Some c =>
      match mp_managers m c with
      | None => Err (errWrap "" (errSentinel ErrProviderNotConfigured)
                       (": chain " +:+ chain +:+ " has no providers registered"))
      | Some pm => Ok (c, pm)
      end
  end.

Definition UpdateChainConfig (chain : string) (cfg : ChainConfig) (seed : Z) m
    : go (result unit * MixedProviders S Ps P) :=
  match managerFor chain m with
  | Err err => Some (Err err, m)
  | Ok (c, pm) =>
      pm ← updateChainConfig cfg seed pm;
      Some (Ok tt, set_mp_managers (put c pm (mp_managers m)) m)
  end.

Definition mp_SetSelectionStrategy (chain strategy : string) (seed : Z) m : result unit * MixedProviders S Ps P :=
  match managerFor chain m with
  | Err err => (Err err, m)
  | Ok (c, pm) =>
      let '(r, pm) := SetSelectionStrategy strategy seed pm in
      (r, set_mp_managers (put c pm (mp_managers m)) m)
  end.

Definition SetScoringWeights (w : ScoringWeights) m : go (result unit * MixedProviders S Ps P) :=
  if negb (mp_scoring m) then Some (Ok tt, m)
  else
    e ← eng_UpdateConfig (scoringWeightsToOptions w) (mp_engine m);
    Some (Ok tt, set_mp_engine e m).

Record ConfigSnapshot := {
  snap_Chains : gmap string ChainConfig;
  snap_ScoringEnabled : bool;
  snap_ScoringWeights : ScoringWeights
}.

Definition Snapshot m : ConfigSnapshot := {|
  snap_Chains := list_to_map (omap (fun chain => pm ← mp_managers m chain; Some (chain_string chain, pm_config pm))
                   all_chains);
  snap_ScoringEnabled := if mp_scoring m then IsEnabled (mp_engine m) else false;
  snap_ScoringWeights := if mp_scoring m then scoringConfigToWeights (eng_config (mp_engine m))
                         else zero_ScoringWeights |}.
End builder.
Arguments MixedProvidersBuilder : clear implicits.
Arguments chainEntry : clear implicits.
