(* ===== verification/BuilderProps.v ===== *)
(** * Properties of the builder and of runtime configuration

    A built mixed provider is well formed whatever the calls made on the
    builder: every chain has a manager satisfying its invariant whose providers
    implement the chain's capability, so no dispatch can fail a type assertion.
    Runtime updates are visible in the snapshot and isolated. *)

From S2P Require Import Prelude GoInt GoFloat GoString Config RateLimit Sorting Penalties.
From S2P Require Import Scorer ScoringConfig Latency Events Decay Store Engine EngineStore.
From S2P Require Import EngineInv Selection Manager ManagerProps RunOp RunProps Bitcoin Providers.
From S2P Require Import ProvidersProps RunSim Builder.

(** ** The invariant of a builder *)

Section built.
Context {S Ps P W : Type} `{Btcd, MapRange, GoRand, SortSlice, GoArch, GoMath, World W, !Dynamic W P}.

(** The static type of the providers of a chain. *)
Definition implements (chain : ProviderChainType) (p : P) : Prop :=
  match chain with
  | ProviderChainAddressGenerators => is_Some (as_AddressGenerator p)
  | ProviderChainAddressValidators => is_Some (as_AddressValidator p)
  | ProviderChainFeeEstimators => is_Some (as_FeeEstimator p)
  | ProviderChainFeeRecommenders => is_Some (as_FeeRecommender p)
  | ProviderChainTxBroadcasters => is_Some (as_TxBroadcaster p)
  | ProviderChainUTXOFetchers => is_Some (as_UTXOFetcher p)
  | ProviderChainTxAssemblers => is_Some (as_TxAssembler p)
  | ProviderChainTxSizers => is_Some (as_TxSizer p)
  | ProviderChainTxSigners => is_Some (as_TxSigner p)
  | ProviderChainTxStatusFetchers => is_Some (as_TxStatusFetcher p)
  | ProviderChainBalanceFetchers => is_Some (as_BalanceFetcher p)
  | ProviderChainRateFetchers => is_Some (as_RateFetcher p)
  | ProviderChainHistoricalRateFetchers => is_Some (as_HistoricalRateFetcher p)
  end.

(** A configuration a chain can be given. *)
Record config_ok (c : ChainConfig) : Prop := {
  cok_concurrency : 0 <= cc_MaxConcurrency c;
  cok_threshold : 0 < cb_FailureThreshold (cc_CircuitBreaker c);
  cok_rate : rl_Enabled (cc_RateLimit c) = true -> rl_sane (cc_RateLimit c)
}.

(** A breaker nothing has happened to. *)
Definition fresh (cs : circuitState) : Prop :=
  cs_State cs = CLOSED /\ cs_ConsecutiveFailures cs = 0 /\ cs_HalfOpenCalls cs = 0.

(** A manager as the builder leaves it. *)
Record built (chain : ProviderChainType) (pm : providerManager P) : Prop := {
  bt_inv : mgr_inv (zlen (pm_providers pm)) pm;
  bt_room : sel_room 0 (pm_selector pm);
  bt_fresh : map_Forall (fun _ => fresh) (pm_circuitStates pm);
  bt_typed : Forall (fun p => implements chain (pc_Provider p) /\ 0 <= pc_Priority p <= 1000) (pm_providers pm)
}.

Lemma newSelectionStrategy_room strategy seed :
  sel_room 0 (selector_or_priority (newSelectionStrategy strategy seed))
  /\ sel_ok (selector_or_priority (newSelectionStrategy strategy seed)).
Proof.
  unfold newSelectionStrategy, selector_or_priority.
  repeat (case_match; simplify_eq/=; try done); split; intros k i; by rewrite lookup_empty.
Qed.

Lemma fresh_circ_ok T cs : 0 < T -> fresh cs -> circ_ok T cs.
Proof. intros HT (_ & Hf & Hh) _. rewrite Hf, Hh. lia. Qed.

Lemma newProviderManager_built chain config seed :
  config_ok config ->
  exists pm : providerManager P, newProviderManager config seed = Some pm /\ built chain pm.
Proof.
  intros [Hc Ht Hr]. destruct (newProviderManager_inv (P := P) config seed Hc Ht Hr) as (pm & Hpm & Hi).
  exists pm. split; [done|]. unfold newProviderManager, make_semaphore in Hpm.
  destruct (_ <? 0); [done|]. cbn in Hpm. injection Hpm as <-.
  split; cbn; [done|apply newSelectionStrategy_room|apply map_Forall_empty|constructor].
Qed.

Lemma updateChainConfig_built chain config seed pm :
  config_ok config -> built chain pm ->
  exists pm', updateChainConfig config seed pm = Some pm' /\ built chain pm' /\ pm_config pm' = config
    /\ pm_providers pm' = pm_providers pm.
Proof.
  intros [Hc Ht Hr] [[] Hroom Hfresh Htyped]. unfold updateChainConfig, make_semaphore. cbv zeta.
  assert (exists sem, (if negb (pm_semaphore (set_pm_config config pm) =? cc_MaxConcurrency config)
    then (if cc_MaxConcurrency config <? 0 then None else Some (cc_MaxConcurrency config))
    else Some (pm_semaphore (set_pm_config config pm))) = Some sem) as [sem ->].
  { destruct (negb _); [|by eauto]. destruct (_ <? 0) eqn:E; [go_lia|]. by eauto. }
  cbn [mbind option_bind].
  assert (map_Forall (fun _ => circ_ok (cb_FailureThreshold (cc_CircuitBreaker config))) (pm_circuitStates pm)) as Hcirc.
  { eapply map_Forall_impl; [done|]. intros k cs. by apply fresh_circ_ok. }
  destruct (newSelectionStrategy_room (cc_SelectionStrategy config) seed) as [Hr1 Hr2].
  destruct (negb _); eexists; split_and!; try done; split; cbn; try done; by split.
Qed.

Lemma addProvider_built chain p priority name clk pm :
  implements chain p -> 0 <= priority <= 1000 -> built chain pm -> built chain (addProvider (Some p) priority name clk pm).
Proof.
  intros Hp Hprio [Hi Hroom Hfresh Htyped].
  assert (zlen (pm_providers (addProvider (Some p) priority name clk pm)) = zlen (pm_providers pm) + 1) as Hlen.
  { cbn. rewrite (zlen_perm _ _ (sort_slice_perm _ _)), zlen_app. done. }
  split; [rewrite Hlen; by apply addProvider_inv|done| |].
  - cbn. by apply map_Forall_insert_2.
  - cbn. rewrite sort_slice_perm. apply Forall_app. split; [done|]. by apply Forall_singleton.
Qed.

(** An entry the compiler accepts for a chain, with a usable configuration. *)
Definition entry_ok (chain : ProviderChainType) (entry : chainEntry P) : Prop :=
  match ce_Provider entry with Some p => implements chain p | None => True end
  /\ 0 <= ce_Priority entry <= 1000
  /\ match ce_ChainConfig entry with Some c => config_ok c | None => True end.

Lemma add_entries_built chain seed clk i entries applied pm :
  Forall (entry_ok chain) entries -> built chain pm ->
  exists pm', add_entries seed clk i entries applied pm = Some pm' /\ built chain pm'.
Proof.
  intros He. revert i applied pm. induction He as [|entry entries (Hp & Hprio & Hc) He IH]; intros i applied pm Hb;
    cbn [add_entries]; [by eauto|].
  destruct (ce_Provider entry) as [p|]; [|by apply IH].
  assert (exists b pm1, match ce_ChainConfig entry with
    | Some config => if negb applied
        then manager ← updateChainConfig config (seed i) pm; Some (true, manager) else Some (applied, pm)
    | None => Some (applied, pm) end = Some (b, pm1) /\ built chain pm1) as (b & pm1 & -> & Hb1).
  { destruct (ce_ChainConfig entry) as [c|]; [|by eauto]. destruct (negb applied); [|by eauto].
    destruct (updateChainConfig_built chain c (seed i) pm Hc Hb) as (pm1 & -> & Hb1 & _). cbn. by eauto. }
  cbn [mbind option_bind]. apply IH. by apply addProvider_built.
Qed.

Definition builder_ok (b : MixedProvidersBuilder S Ps P) : Prop :=
  forall chain, exists pm, b_managers b chain = Some pm /\ built chain pm.

Lemma put_built b chain pm :
  builder_ok b -> built chain pm -> builder_ok (set_b_managers (put chain pm (b_managers b)) b).
Proof.
  intros Hb Hpm c. cbn. destruct (decide (c = chain)) as [->|Hc]; [rewrite put_eq|rewrite put_ne by done]; eauto.
Qed.

(** ** Sequences of builder calls *)

Inductive builder_cmd :=
  | BChain (chain : ProviderChainType) (seed : nat -> Z) (clk : nat -> clock) (entries : list (chainEntry P))
  | BConfig (chain : ProviderChainType) (config : ChainConfig) (seed : Z)
  | BRecorder (recorder : option MetricsRecorder)
  | BEngine (engine : option (Engine S Ps)).

Definition builder_step (b : MixedProvidersBuilder S Ps P) (c : builder_cmd) : go (MixedProvidersBuilder S Ps P) :=
  match c with
  | BChain chain seed clk entries => with_chain chain seed clk entries b
  | BConfig chain config seed => WithChainConfig chain config seed b
  | BRecorder recorder => Some (WithMetricsRecorder recorder b)
  | BEngine engine => Some (WithAdaptiveScoringEngine engine b)
  end.

(** An engine that has not been started and counts no event yet. *)
Definition engine_ready (e : Engine S Ps) : Prop :=
  engine_inv 0 e /\ dm_running (eng_decayManager e) = false
  /\ 0 < sc_DecayInterval (dm_config (eng_decayManager e)) /\ eng_started e = false.

Definition builder_cmd_ok (c : builder_cmd) : Prop :=
  match c with
  | BChain chain _ _ entries => Forall (entry_ok chain) entries
  | BConfig _ config _ => config_ok config
  | BEngine (Some e) => engine_ready e
  | _ => True
  end.

Lemma DefaultChainConfig_ok chain : config_ok (DefaultChainConfig chain).
Proof. by split. Qed.

Lemma NewMixedProvidersBuilder_ok seed : builder_ok (NewMixedProvidersBuilder seed).
Proof. intros chain. apply newProviderManager_built, DefaultChainConfig_ok. Qed.

Definition engine_opt_ok (b : MixedProvidersBuilder S Ps P) : Prop :=
  match b_engine b with Some e => engine_ready e | None => True end.

Lemma builder_step_ok b c :
  builder_cmd_ok c -> builder_ok b -> engine_opt_ok b ->
  exists b', builder_step b c = Some b' /\ builder_ok b' /\ engine_opt_ok b'.
Proof.
  intros Hc Hb He. destruct c as [chain seed clk entries|chain config seed|recorder|engine]; cbn in *.
  - destruct (Hb chain) as (pm & Hpm & Hbuilt). unfold with_chain. rewrite Hpm. cbn [mbind option_bind].
    destruct (add_entries_built chain seed clk 0 entries false pm Hc Hbuilt) as (pm' & -> & Hb').
    eexists. split; [done|]. split; [by apply put_built|done].
  - destruct (Hb chain) as (pm & Hpm & Hbuilt). unfold WithChainConfig. cbn. rewrite Hpm. cbn [mbind option_bind].
    destruct (updateChainConfig_built chain config seed pm Hc Hbuilt) as (pm' & -> & Hb' & _).
    eexists. split; [done|]. split; [|done].
    intros c. cbn. destruct (decide (c = chain)) as [->|Hc']; [rewrite put_eq|rewrite put_ne by done]; eauto.
  - by eexists.
  - eexists. split; [done|]. split; [done|]. by destruct engine.
Qed.

Lemma builder_run_ok l b :
  Forall builder_cmd_ok l -> builder_ok b -> engine_opt_ok b ->
  exists b', go_foldl builder_step b l = Some b' /\ builder_ok b' /\ engine_opt_ok b'.
Proof.
  intros Hl. revert b. induction Hl as [|c l Hc Hl IH]; intros b Hb He; [by eauto|].
  destruct (builder_step_ok b c Hc Hb He) as (b1 & Hs & Hb1 & He1). cbn [go_foldl]. rewrite Hs. by apply IH.
Qed.

(** ** Attaching the engine *)

(** A manager that selects by score, and whose providers the engine knows. *)
Definition attached (e : Engine S Ps) (pm : providerManager P) : Prop :=
  pm_scoringEngine pm = true /\ pm_selector pm = adaptiveSelector
  /\ cc_SelectionStrategy (pm_config pm) = SelectionStrategyAdaptive
  /\ Forall (fun p => is_Some (eng_scores e !! pc_Name p)) (pm_providers pm).

Definition knows_more (e e' : Engine S Ps) : Prop := dom (eng_scores e) ⊆ dom (eng_scores e').

Lemma attached_mono e e' pm : knows_more e e' -> attached e pm -> attached e' pm.
Proof.
  intros Hk (? & ? & ? & Hp). split_and!; [done..|]. eapply Forall_impl; [done|].
  intros p Hs. apply elem_of_dom. apply Hk. by apply elem_of_dom.
Qed.

Lemma RegisterProvider_ready name priority now e :
  0 <= priority <= 1000 -> engine_ready e ->
  engine_ready (RegisterProvider name priority now e) /\ knows_more e (RegisterProvider name priority now e)
  /\ is_Some (eng_scores (RegisterProvider name priority now e) !! name).
Proof.
  intros Hp (Hi & Hr & Hd & Hs). assert (engine_inv 0 (RegisterProvider name priority now e)) as Hi'
    by (by apply RegisterProvider_inv).
  unfold RegisterProvider in *. unfold knows_more. destruct (eng_scores e !! name) eqn:En; [by split_and!|].
  split_and!; [by split_and!|cbn; rewrite dom_insert; apply union_subseteq_r|]. cbn. by rewrite lookup_insert_eq.
Qed.

Lemma register_all_ready (l : list (providerConfig P)) now e :
  Forall (fun p => 0 <= pc_Priority p <= 1000) l -> engine_ready e ->
  let e' := foldl (fun e p => RegisterProvider (pc_Name p) (pc_Priority p) (now (pc_Name p)) e) e l in
  engine_ready e' /\ knows_more e e' /\ Forall (fun p => is_Some (eng_scores e' !! pc_Name p)) l.
Proof.
  intros Hl. revert e. unfold knows_more. induction Hl as [|p l Hp Hl IH]; intros e He; cbn [foldl]; [by split_and!|].
  destruct (RegisterProvider_ready (pc_Name p) (pc_Priority p) (now (pc_Name p)) e Hp He) as (He1 & Hk1 & Hn).
  destruct (IH _ He1) as (He2 & Hk2 & Hf). split_and!; [done|by etrans|]. constructor; [|done].
  apply elem_of_dom, Hk2. by apply elem_of_dom.
Qed.

Lemma SetScoringEngine_built chain now pm e :
  built chain pm -> engine_ready e ->
  exists pm' e', SetScoringEngine true now pm e = (pm', e') /\ built chain pm' /\ engine_ready e'
    /\ knows_more e e' /\ attached e' pm' /\ pm_providers pm' = pm_providers pm.
Proof.
  intros [Hi Hroom Hfresh Htyped] He. unfold SetScoringEngine. cbn [se_RegisterProvider Engine_scoring].
  destruct (register_all_ready (pm_providers pm) now e) as (He' & Hk & Hf); [|done|].
  { eapply Forall_impl; [done|]. by intros p [_ ?]. }
  eexists _, _. split; [done|]. split_and!; [|exact He'|exact Hk| |done].
  - destruct Hi. by split; cbn.
  - by split_and!.
Qed.

Lemma attach_all now l f e :
  (forall chain, exists pm, f chain = Some pm /\ built chain pm) -> engine_ready e ->
  exists f' e', foldl (attach_engine now) (f, e) l = (f', e') /\ engine_ready e' /\ knows_more e e'
    /\ forall chain, exists pm, f' chain = Some pm /\ built chain pm
         /\ (chain ∈ l \/ (exists pm0, f chain = Some pm0 /\ attached e pm0) -> attached e' pm).
Proof.
  revert f e. induction l as [|c l IH]; intros f e Hf He; cbn [foldl].
  - exists f, e. split_and!; [done|done|by unfold knows_more|]. intros chain. destruct (Hf chain) as (pm & Hpm & Hb).
    exists pm. split_and!; [done..|]. intros [Hin|(pm0 & Hpm0 & Ha)]; [by apply elem_of_nil in Hin|]. by simplify_eq.
  - destruct (Hf c) as (pmc & Hpmc & Hbc). unfold attach_engine at 2. rewrite Hpmc.
    destruct (SetScoringEngine_built c now pmc e Hbc He) as (pm1 & e1 & -> & Hb1 & He1 & Hk1 & Ha1 & _).
    destruct (IH (put c pm1 f) e1) as (f' & e' & -> & He' & Hk' & Hall); [|done|].
    { intros chain. destruct (decide (chain = c)) as [->|Hne]; [rewrite put_eq|rewrite put_ne by done]; eauto. }
    exists f', e'. split_and!; [done|done|unfold knows_more in *; by etrans|]. intros chain. destruct (Hall chain) as (pm & Hpm & Hb & Ha).
    exists pm. split_and!; [done..|]. intros Hcase. apply Ha.
    destruct (decide (chain = c)) as [->|Hne]; [right; rewrite put_eq; eauto|].
    rewrite put_ne by done. destruct Hcase as [Hin|(pm0 & Hpm0 & Ha0)].
    + left. apply elem_of_cons in Hin as [?|?]; [done|done].
    + right. exists pm0. split; [done|]. by eapply attached_mono.
Qed.

Lemma build_order_all chain : chain ∈ build_order.
Proof. apply list_elem_of_In. unfold build_order. destruct chain; cbn; tauto. Qed.

(** ** Starting the engine *)

Context `{PenaltyHistoryStore Ps}.

Lemma history_adds_wf mx name ps (l : list PenaltyRecordData) :
  ps_Name ps = name /\ score_wf mx ps ->
  ps_Name (foldl (fun ps r => history_add (record_of_data r) ps) ps l) = name
  /\ score_wf mx (foldl (fun ps r => history_add (record_of_data r) ps) ps l).
Proof.
  revert ps. induction l as [|r l IH]; intros ps Hps; [done|]. cbn [foldl]. apply IH.
  destruct Hps as [Hn []]. by split.
Qed.

Lemma warm_ok mx limit l scores (p : Ps) :
  Forall (fun kv : string * ProviderScore => ps_Name kv.2 = kv.1 /\ score_wf mx kv.2) l -> scores_ok mx scores ->
  scores_ok mx (foldl (warm_one limit) (scores, p) l).1
  /\ dom scores ⊆ dom (foldl (warm_one limit) (scores, p) l).1.
Proof.
  intros Hl. revert scores p. induction Hl as [|[name ps] l Hps Hl IH]; intros scores p Hs; [done|]. cbn [foldl].
  unfold warm_one at 2 4. destruct (pen_GetRecent name limit p) as [[records|err] p']; [|by apply IH].
  destruct (IH (<[name := foldl (fun ps r => history_add (record_of_data r) ps) ps records]> scores) p') as [H1' H2'].
  { apply map_Forall_insert_2; [|done]. by apply history_adds_wf. }
  split; [done|]. etrans; [|exact H2']. rewrite dom_insert. apply union_subseteq_r.
Qed.

(** A running engine: started, its decay ticking at the configured interval,
    and old penalty records purged when there is a store and an interval. *)
Definition running (e : Engine S Ps) : Prop :=
  eng_started e = true
  /\ dm_running (eng_decayManager e) = true
  /\ dm_ticker (eng_decayManager e) = Some (sc_DecayInterval (dm_config (eng_decayManager e)))
  /\ (is_Some (eng_penaltyHistoryStore e) -> 0 < sc_PenaltyCleanupInterval (eng_config e) ->
      eng_cleanup e = Some (sc_PenaltyCleanupInterval (eng_config e))).

Lemma eng_Start_ready e :
  engine_ready e -> exists e', eng_Start e = Some e' /\ engine_inv 0 e' /\ knows_more e e' /\ running e'.
Proof.
  intros (Hi & Hr & Hd & Hs). unfold eng_Start. rewrite Hs. cbn [set_eng_started eng_decayManager].
  unfold dm_Start, new_ticker. cbn. rewrite Hr. destruct (_ <=? 0) eqn:Ed; [go_lia|]. cbn [mbind option_bind].
  unfold warmPenaltyHistory, knows_more. cbn. destruct Hi as [Hcfg Hrate Hsc Hlat].
  destruct (eng_penaltyHistoryStore e) as [p|] eqn:Ep; cbn; rewrite ?Ep.
  - destruct (warm_ok (sc_MaxPenalty (eng_config e)) (sc_PenaltyHistorySize (eng_config e))
      (range_kv (eng_scores e)) (eng_scores e) p) as [Hw1 Hw2]; [|done|].
    { apply Forall_forall. intros [name ps] Hin. rewrite range_kv_perm in Hin.
      apply elem_of_map_to_list in Hin. by apply Hsc in Hin. }
    destruct (foldl _ _ _) as [scores p']. cbn in *.
    destruct (Z.ltb_spec 0 (sc_PenaltyCleanupInterval (eng_config e))); (eexists; split; [done|]); split_and!; try done;
      (split_and!; [done..|cbn; intros; lia || done]).
  - eexists. split_and!; try done. split_and!; [done..|]. cbn. rewrite Ep. by intros [? ?].
Qed.

Definition well_built (m : MixedProviders S Ps P) : Prop :=
  engine_inv 0 (mp_engine m) /\ mp_recorded m = []
  /\ forall chain, exists pm, mp_managers m chain = Some pm /\ built chain pm
       /\ (mp_scoring m = true -> attached (mp_engine m) pm).

Lemma Build_ok now e0 b :
  builder_ok b -> engine_opt_ok b -> engine_inv 0 e0 ->
  exists m, Build now e0 b = Some m /\ well_built m /\ mp_scoring m = bool_decide (is_Some (b_engine b))
    /\ (is_Some (b_engine b) -> running (mp_engine m)).
Proof.
  intros Hb He H0'. unfold Build. unfold engine_opt_ok in He. destruct (b_engine b) as [e|].
  - destruct (attach_all now build_order (b_managers b) e Hb He) as (f' & e1 & -> & He1 & _ & Hall).
    destruct (eng_Start_ready e1 He1) as (e2 & -> & He2 & Hk & Hrun). cbn [mbind option_bind].
    eexists. split; [done|]. split; [|done]. split_and!; [done..|]. intros chain.
    destruct (Hall chain) as (pm & Hpm & Hbt & Ha). exists pm. split_and!; [done..|]. intros _. cbn.
    eapply attached_mono; [exact Hk|]. apply Ha. left. apply build_order_all.
  - eexists. split; [done|]. split; [|by split; [|intros [? ?]]]. split_and!; [done..|]. intros chain.
    destruct (Hb chain) as (pm & Hpm & Hbt). by exists pm.
Qed.
End built.

(** ** Properties *)

(** C13: a new builder that is given any sequence of chains (entries of the
    static type of their chain, priorities in 0..1000), chain configurations
    (non-negative concurrency, positive failure threshold and, when rate limiting
    is enabled, a positive limit of at most one request per nanosecond and a
    non-negative burst), recorders and engines (none, or one
    that satisfies the engine's invariant, has a positive decay interval and has
    not been started) does not panic, and neither does its Build.  The mixed provider built has, for every
    chain, a manager that satisfies its invariant and whose providers all
    implement the interface of that chain; with an engine, scoring is on, the
    engine is running (started, its decay ticking, its cleanup scheduled), every
    selector is adaptive and every provider of every chain is registered in the
    engine. *)
Theorem Build_well_formed {S Ps P W}
    `{Btcd, MapRange, GoRand, SortSlice, GoArch, GoMath, World W, !Dynamic W P, PenaltyHistoryStore Ps}
    seed (l : list builder_cmd) now (e0 : Engine S Ps) :
  Forall builder_cmd_ok l -> engine_inv 0 e0 ->
  exists b m, go_foldl builder_step (NewMixedProvidersBuilder seed) l = Some b
    /\ Build now e0 b = Some m
    /\ (is_Some (b_engine b) -> mp_scoring m = true /\ running (mp_engine m))
    /\ forall chain, exists pm, mp_managers m chain = Some pm
         /\ mgr_inv (zlen (pm_providers pm)) pm
         /\ Forall (fun p => implements chain (pc_Provider p)) (pm_providers pm)
         /\ (is_Some (b_engine b) ->
               pm_selector pm = adaptiveSelector
               /\ Forall (fun p => is_Some (eng_scores (mp_engine m) !! pc_Name p)) (pm_providers pm)).
Proof.
  intros Hl He0. destruct (builder_run_ok l (NewMixedProvidersBuilder seed) Hl (NewMixedProvidersBuilder_ok seed) I)
    as (b & Hb & Hok & He).
  destruct (Build_ok now e0 b Hok He He0) as (m & Hm & (_ & _ & Hall) & Hsc & Hrun).
  exists b, m. split_and!; [done..| |].
  { intros Hs. split; [|by apply Hrun]. rewrite Hsc. by apply bool_decide_eq_true. }
  intros chain. destruct (Hall chain) as (pm & Hpm & [Hi _ _ Ht] & Ha).
  exists pm. split_and!; [done..| |].
  - eapply Forall_impl; [exact Ht|]. by intros p [? _].
  - intros Hs. destruct Ha as (_ & ? & _ & ?); [|done]. rewrite Hsc. by apply bool_decide_eq_true.
Qed.

(** *** The operations

    The fifteen operations of [providers.go] with their arguments, and what
    each one is to do. *)

Section operation.
Context `{Btcd}.

Inductive operation : Type :=
  | OpDeriveAddress (xpub : string) (index childIndex : Z)
  | OpGetTxFees
  | OpGetTxFee (priority : FeePriority)
  | OpCalculateFee (txSize feePerByte : Z)
  | OpPushTx (rawTx : list Byte.byte)
  | OpCreateTransaction (utxos : list UTXO) (outputs : list TxOutput)
  | OpCalculateTransactionSize (tx : SignedTx)
  | OpSignTransaction (tx : Tx) (utxos : list UTXO) (privWIF : string)
  | OpGetUTXOs (address : string)
  | OpGetBalance (address : string)
  | OpValidateAddress (address : string)
  | OpGetExchangeRate (coin : CoinTicker) (currency : string)
  | OpGetExchangeRates (coin : CoinTicker)
  | OpGetHistoricalRates (coin : CoinTicker) (currency : string) (since until : Time)
  | OpGetTxStatus (txID : string).

(** The type of an operation's answer. *)
Definition answer_of (o : operation) : Type :=
  match o with
  | OpDeriveAddress _ _ _ => DerivedAddress
  | OpGetTxFees => list FeeTier
  | OpGetTxFee _ => FeeTier
  | OpCalculateFee _ _ | OpCalculateTransactionSize _ => Z
  | OpPushTx _ => string
  | OpCreateTransaction _ _ => Tx
  | OpSignTransaction _ _ _ => SignedTx
  | OpGetUTXOs _ => list UTXO
  | OpGetBalance _ => Balance
  | OpValidateAddress _ => bool
  | OpGetExchangeRate _ _ => CoinRate
  | OpGetExchangeRates _ | OpGetHistoricalRates _ _ _ _ => list CoinRate
  | OpGetTxStatus _ => TxConfirmationStatus
  end.

(** The chain that is to serve it, and the name it is to be recorded under. *)
Definition chain_of (o : operation) : ProviderChainType :=
  match o with
  | OpDeriveAddress _ _ _ => ProviderChainAddressGenerators
  | OpGetTxFees | OpGetTxFee _ => ProviderChainFeeRecommenders
  | OpCalculateFee _ _ => ProviderChainFeeEstimators
  | OpPushTx _ => ProviderChainTxBroadcasters
  | OpCreateTransaction _ _ => ProviderChainTxAssemblers
  | OpCalculateTransactionSize _ => ProviderChainTxSizers
  | OpSignTransaction _ _ _ => ProviderChainTxSigners
  | OpGetUTXOs _ => ProviderChainUTXOFetchers
  | OpGetBalance _ => ProviderChainBalanceFetchers
  | OpValidateAddress _ => ProviderChainAddressValidators
  | OpGetExchangeRate _ _ | OpGetExchangeRates _ => ProviderChainRateFetchers
  | OpGetHistoricalRates _ _ _ _ => ProviderChainHistoricalRateFetchers
  | OpGetTxStatus _ => ProviderChainTxStatusFetchers
  end.

Definition name_of (o : operation) : string :=
  match o with
  | OpDeriveAddress _ _ _ => "DeriveAddress"
  | OpGetTxFees => "GetTxFees"
  | OpGetTxFee _ => "GetTxFee"
  | OpCalculateFee _ _ => "CalculateFee"
  | OpPushTx _ => "PushTx"
  | OpCreateTransaction _ _ => "CreateTransaction"
  | OpCalculateTransactionSize _ => "CalculateTransactionSize"
  | OpSignTransaction _ _ _ => "SignTransaction"
  | OpGetUTXOs _ => "GetUTXOs"
  | OpGetBalance _ => "GetBalance"
  | OpValidateAddress _ => "ValidateAddress"
  | OpGetExchangeRate _ _ => "GetExchangeRate"
  | OpGetExchangeRates _ => "GetExchangeRates"
  | OpGetHistoricalRates _ _ _ _ => "GetHistoricalRates"
  | OpGetTxStatus _ => "GetTxStatus"
  end.
End operation.

Section operations.
Context {S Ps P W : Type} `{Btcd, MapRange, GoRand, SortSlice, GoArch, GoMath, World W, !Dynamic W P}.

(** The method of the provider's dynamic type an operation is to call, with
    its arguments; none when the type does not have the method. *)
Definition method (o : operation) (ctx : context) (p : P) : option (W -> go (result (answer_of o) * W)) :=
  match o with
  | OpDeriveAddress xpub i j => (fun i' => ag_DeriveAddress W i' ctx xpub i j) <$> as_AddressGenerator p
  | OpGetTxFees => (fun i => fr_GetTxFees W i ctx) <$> as_FeeRecommender p
  | OpGetTxFee q => (fun i => fr_GetTxFee W i ctx q) <$> as_FeeRecommender p
  | OpCalculateFee n r => (fun i => fe_CalculateFee W i ctx n r) <$> as_FeeEstimator p
  | OpPushTx raw => (fun i => tb_PushTx W i ctx raw) <$> as_TxBroadcaster p
  | OpCreateTransaction u o => (fun i => ta_CreateTransaction W i ctx u o) <$> as_TxAssembler p
  | OpCalculateTransactionSize t => (fun i => tz_CalculateTransactionSize W i ctx t) <$> as_TxSizer p
  | OpSignTransaction t u k => (fun i => ts_SignTransaction W i ctx t u k) <$> as_TxSigner p
  | OpGetUTXOs a => (fun i => uf_GetUTXOs W i ctx a) <$> as_UTXOFetcher p
  | OpGetBalance a => (fun i => bf_GetBalance W i ctx a) <$> as_BalanceFetcher p
  | OpValidateAddress a => (fun i => av_ValidateAddress W i ctx a) <$> as_AddressValidator p
  | OpGetExchangeRate c y => (fun i => rf_GetExchangeRate W i ctx c y) <$> as_RateFetcher p
  | OpGetExchangeRates c => (fun i => rf_GetExchangeRates W i ctx c) <$> as_RateFetcher p
  | OpGetHistoricalRates c y a b => (fun i => hf_GetHistoricalRates W i ctx c y a b) <$> as_HistoricalRateFetcher p
  | OpGetTxStatus x => (fun i => tf_GetTxStatus W i ctx x) <$> as_TxStatusFetcher p
  end.

Definition invoke (o : operation) (ctx : context) (p : P) (w : W) : go (result (answer_of o) * W) :=
  call ← method o ctx p; call w.

(** A call of the mixed provider. *)
Definition perform (o : operation) (ctx : context) (dbg : debugState) (m : MixedProviders S Ps P) (w : W)
    : go (result (answer_of o) * debugState * MixedProviders S Ps P * W) :=
  match o with
  | OpDeriveAddress xpub i j => DeriveAddress ctx xpub i j dbg m w
  | OpGetTxFees => GetTxFees ctx dbg m w
  | OpGetTxFee q => GetTxFee ctx q dbg m w
  | OpCalculateFee n r => CalculateFee ctx n r dbg m w
  | OpPushTx raw => PushTx ctx raw dbg m w
  | OpCreateTransaction u o => CreateTransaction ctx u o dbg m w
  | OpCalculateTransactionSize t => CalculateTransactionSize ctx t dbg m w
  | OpSignTransaction t u k => SignTransaction ctx t u k dbg m w
  | OpGetUTXOs a => GetUTXOs ctx a dbg m w
  | OpGetBalance a => GetBalance ctx a dbg m w
  | OpValidateAddress a => ValidateAddress ctx a dbg m w
  | OpGetExchangeRate c y => GetExchangeRate ctx c y dbg m w
  | OpGetExchangeRates c => GetExchangeRates ctx c dbg m w
  | OpGetHistoricalRates c y a b => GetHistoricalRates ctx c y a b dbg m w
  | OpGetTxStatus x => GetTxStatus ctx x dbg m w
  end.

(** What a call is to do: the environment changes by its calls, waits, random
    draws and readings of the clock only, every call is that of the operation's
    method with its own arguments on a provider of the operation's chain, and
    the result is the answer of the last call, or an error when all failed; the
    recorder is told once; the other chains stay as they are. *)
Definition performed (o : operation) (ctx : context) (dbg : debugState) (m : MixedProviders S Ps P) (w : W) : Prop :=
  exists pm r provider duration dbg' m' w' tr,
    mp_managers m (chain_of o) = Some pm
    /\ perform o ctx dbg m w = Some (r, dbg', m', w')
    /\ course (invoke o ctx) w tr w'
    /\ chain_outcome pm tr provider r
    /\ mp_recorded m' = mp_recorded m ++ expected_event (mp_recorder m) (name_of o) provider duration (zlen tr) (result_err r)
    /\ forall c, c <> chain_of o -> mp_managers m' c = mp_managers m c.

(** A type assertion on a provider of the chain succeeds. *)
Lemma method_some o ctx p : implements (W := W) (chain_of o) p -> is_Some (method o ctx p).
Proof. destruct o; apply fmap_is_Some. Qed.

(** Each operation goes to its chain, under its name, with its method. *)
Lemma perform_eq o ctx dbg m w :
  exists fn, (forall p w, fn p w = invoke o ctx p w)
    /\ perform o ctx dbg m w = executeWithFallbackAndMetrics ctx (chain_of o) (name_of o) fn dbg m w.
Proof.
  destruct o; (eexists; split; [|reflexivity]);
    intros p w'; unfold assert_call, invoke, method; by case_match.
Qed.

Lemma course_ext {R} (f g : P -> W -> go (result R * W)) w tr w' :
  (forall p w, f p w = g p w) -> course f w tr w' -> course g w tr w'.
Proof.
  intros Hfg Hc. induction Hc as [|tr w' Hc IH|tr d w' Hc IH|tr w' Hc IH|tr w' p r w'' Hc IH Hp];
    [apply course_start|by apply course_clock|by apply course_wait|by apply course_float64|].
  rewrite Hfg in Hp. by eapply course_call.
Qed.

Context `{PenaltyHistoryStore Ps}.

(** A chain that is not endless, so that the counters do not wrap. *)
Definition moderate (pm : providerManager P) : Prop :=
  zlen (pm_providers pm) <= 1000 /\ maxAttempts (cc_RetryPolicy (pm_config pm)) <= 1000000.

(** On a built provider an operation whose method returns does what it is to
    do. *)
Lemma built_performed seed (l : list builder_cmd) now (e0 : Engine S Ps) b m o pm ctx dbg w :
  Forall builder_cmd_ok l -> engine_inv 0 e0 ->
  go_foldl builder_step (NewMixedProvidersBuilder seed) l = Some b -> Build now e0 b = Some m ->
  mp_managers m (chain_of o) = Some pm -> moderate pm ->
  (forall p call w, p ∈ pm_providers pm -> method o ctx (pc_Provider p) = Some call -> is_Some (call w)) ->
  performed o ctx dbg m w.
Proof.
  intros Hl He0 Hb Hm Hpm [Hlen Hmax] Hcall.
  destruct (builder_run_ok l (NewMixedProvidersBuilder seed) Hl (NewMixedProvidersBuilder_ok seed) I)
    as (b' & Hb' & Hok & He). rewrite Hb in Hb'. injection Hb' as <-.
  destruct (Build_ok now e0 b Hok He He0) as (m0 & Hm0 & (Heng & _ & Hall) & _). rewrite Hm in Hm0. injection Hm0 as <-.
  destruct (Hall (chain_of o)) as (pm' & Hpm' & [Hi Hroom _ Ht] & _). rewrite Hpm in Hpm'. injection Hpm' as <-.
  pose proof (zlen_nonneg (pm_providers pm)). pose proof (maxAttempts_pos (cc_RetryPolicy (pm_config pm))).
  destruct (perform_eq o ctx dbg m w) as (fn & Hfn & Hrun).
  set (s := {| path_calls := []; path_end := w; path_course := course_start fn w |}).
  destruct (execute_spec (on_path fn w) ctx (chain_of o) (name_of o) dbg (zlen (pm_providers pm)) (2 ^ 40) pm m s Hpm)
    as (r & provider & duration & dbg' & m' & s' & tr & Hex & Hcs & Hrec & Hothers & Hr); [|lia|nia|lia|].
  { split; [done|]. split; [|exists 0; by split_and!]. apply Forall_forall. intros p Hp w'. rewrite Hfn.
    eapply Forall_forall in Ht as [Ht _]; [|exact Hp]. destruct (method_some o ctx _ Ht) as [call Hc].
    unfold invoke. rewrite Hc. by eapply Hcall. }
  exists pm, r, provider, duration, dbg', m', (path_end fn w s'), tr. split_and!; [done| | |done..].
  - rewrite Hrun. change w with (path_end fn w s) at 1.
    rewrite (execute_sim (path_end fn w) (on_path fn w) fn) by (intros; apply on_path_sim). by rewrite Hex.
  - apply (course_ext fn); [done|]. cbn in Hcs. rewrite <-Hcs. apply path_course.
Qed.
End operations.

(** C12: each of the fifteen operations of a built mixed provider is sent to its
    own chain, and no type assertion can fail there: provided the methods of
    the registered providers do not panic themselves, the operation returns; it
    has called nothing but its own method, with its own arguments, on providers
    of its own chain, one call after the other; its result is the answer of the
    last call (the only one that succeeded) or an error after failed calls
    only; the recorder has received one event, under the operation's name, with
    the provider that answered and the number of calls; the other chains are
    untouched.  The builder's calls are those of [builder_cmd_ok] (entries of
    the static type of their chain, priorities in 0..1000, non-negative
    concurrency, positive failure thresholds, sane enabled rate limits, a
    fresh engine), the chain has at most 1000 providers and 10^6 attempts. *)
Theorem built_operation_total {S Ps P W}
    `{Btcd, MapRange, GoRand, SortSlice, GoArch, GoMath, World W, !Dynamic W P, PenaltyHistoryStore Ps}
    seed (l : list builder_cmd) now (e0 : Engine S Ps) b m o pm ctx dbg w :
  Forall builder_cmd_ok l -> engine_inv 0 e0 ->
  go_foldl builder_step (NewMixedProvidersBuilder seed) l = Some b -> Build now e0 b = Some m ->
  mp_managers m (chain_of o) = Some pm -> moderate pm ->
  (forall p call w, p ∈ pm_providers pm -> method o ctx (pc_Provider p) = Some call -> is_Some (call w)) ->
  performed o ctx dbg m w.
Proof. intros Hl He0 Hb Hm Hpm Hmod Hcall. by eapply built_performed. Qed.

(** *** Runtime configuration *)

Lemma chain_of_string_Some s c : chain_of_string s = Some c -> s = chain_string c.
Proof. unfold chain_of_string. by intros [_ Hs%bool_decide_eq_true]%find_some. Qed.

(** What the snapshot holds for a string. *)
Lemma snapshot_lookup {S Ps P} (m : MixedProviders S Ps P) s :
  snap_Chains (Snapshot m) !! s = (c ← chain_of_string s; pm ← mp_managers m c; Some (pm_config pm)).
Proof.
  unfold Snapshot, chain_of_string. cbn [snap_Chains].
  assert (NoDup all_chains) as Hnd by (apply (bool_decide_unpack _); vm_compute; exact I).
  induction Hnd as [|c l Hc Hnd IH]; [done|]. cbn [omap list_omap List.find].
  destruct (bool_decide (chain_string c = s)) eqn:Es.
  - apply bool_decide_eq_true in Es. cbn [mbind option_bind]. destruct (mp_managers m c) as [pm|] eqn:Em; cbn.
    + by rewrite Es, lookup_insert_eq.
    + rewrite IH. destruct (List.find _ l) as [c'|] eqn:Ef; [|done].
      apply find_some in Ef as [Hin Hs%bool_decide_eq_true]. pose proof (chain_of_string_string c) as Hc'.
      rewrite Es, <-Hs, chain_of_string_string in Hc'. injection Hc' as <-.
      by apply list_elem_of_In in Hin.
  - apply bool_decide_eq_false in Es. destruct (mp_managers m c) as [pm|]; cbn; [|exact IH].
    rewrite lookup_insert_ne by done. exact IH.
Qed.

(** What an update of one chain does to the provider. *)
Lemma UpdateChainConfig_ok {S Ps P} (m : MixedProviders S Ps P) chain cfg seed :
  0 <= cc_MaxConcurrency cfg ->
  match chain_of_string chain with
  | Some c => is_Some (mp_managers m c) ->
      exists m', UpdateChainConfig chain cfg seed m = Some (Ok tt, m')
        /\ snap_Chains (Snapshot m') = <[chain := cfg]> (snap_Chains (Snapshot m))
        /\ (forall c', c' <> c -> mp_managers m' c' = mp_managers m c')
        /\ mp_engine m' = mp_engine m /\ mp_scoring m' = mp_scoring m
  | None => exists err, UpdateChainConfig chain cfg seed m = Some (Err err, m)
  end.
Proof.
  intros Hcfg. unfold UpdateChainConfig, managerFor. destruct (chain_of_string chain) as [c|] eqn:Ec; [|by eauto].
  intros [pm Hpm]. rewrite Hpm.
  assert (exists pm', updateChainConfig cfg seed pm = Some pm' /\ pm_config pm' = cfg) as (pm' & -> & Hc).
  { unfold updateChainConfig, make_semaphore. cbv zeta.
    destruct (cc_MaxConcurrency cfg <? 0) eqn:E; [go_lia|]. repeat case_match; by eexists. }
  cbn [mbind option_bind]. eexists. split; [done|]. split; [|split; [intros c' Hne; by apply put_ne|done]].
  apply map_eq. intros s. rewrite snapshot_lookup. cbn [mp_managers set_mp_managers].
  apply chain_of_string_Some in Ec as ->. destruct (decide (s = chain_string c)) as [->|Hs].
  - rewrite lookup_insert_eq, chain_of_string_string. cbn [mbind option_bind]. rewrite put_eq. cbn. by rewrite Hc.
  - rewrite lookup_insert_ne by done. rewrite snapshot_lookup. destruct (chain_of_string s) as [c'|] eqn:Es; [|done].
    apply chain_of_string_Some in Es as ->. cbn [mbind option_bind]. rewrite put_ne by congruence. done.
Qed.

(** What new weights do to it. *)
Lemma SetScoringWeights_ok {S Ps P} (m : MixedProviders S Ps P) w :
  f64_ltb (sw_DecayRate w) f64_zero = false -> f64_gtb (sw_DecayRate w) f64_one = false ->
  10 <= sw_LatencyWindowSize w -> 0 < sw_DecayInterval w ->
  exists m', SetScoringWeights w m = Some (Ok tt, m')
    /\ mp_managers m' = mp_managers m /\ mp_scoring m' = mp_scoring m
    /\ snap_ScoringEnabled (Snapshot m') = snap_ScoringEnabled (Snapshot m)
    /\ snap_ScoringWeights (Snapshot m') = if mp_scoring m then w else zero_ScoringWeights.
Proof.
  intros H0 H1 Hw Hi. unfold SetScoringWeights. destruct (mp_scoring m) eqn:Es; cbn [negb].
  2: { exists m. cbn. rewrite Es. by split_and!. }
  assert (forall c, Validate (apply_options (scoringWeightsToOptions w) c) = apply_options (scoringWeightsToOptions w) c
    /\ scoringConfigToWeights (apply_options (scoringWeightsToOptions w) c) = w
    /\ sc_Enabled (apply_options (scoringWeightsToOptions w) c) = sc_Enabled c
    /\ sc_DecayInterval (apply_options (scoringWeightsToOptions w) c) = sw_DecayInterval w) as Hopt.
  { intros c. unfold apply_options, scoringWeightsToOptions, Validate. cbn -[f64_ltb f64_gtb f64_zero f64_one].
    unfold WithDecayRate, WithLatencyWindow. rewrite H0, H1. assert ((sw_LatencyWindowSize w <? 10) = false) as -> by lia.
    cbn -[f64_ltb f64_gtb f64_zero f64_one]. rewrite H0, H1. cbn -[f64_ltb f64_gtb f64_zero f64_one].
    assert ((sw_LatencyWindowSize w <? 10) = false) as -> by lia. cbn -[f64_ltb f64_gtb f64_zero f64_one].
    assert ((sw_DecayInterval w <? 0) = false) as -> by lia. by destruct w. }
  destruct (Hopt (eng_config (mp_engine m))) as (Hv & Hws & Hen & Hdi). unfold eng_UpdateConfig. cbv zeta. rewrite Hv.
  unfold dm_UpdateConfig, new_ticker. cbv zeta. rewrite Hdi. assert ((sw_DecayInterval w <=? 0) = false) as -> by lia.
  destruct (_ && _); cbn [mbind option_bind]; (eexists; split; [done|]; cbn; rewrite Es; split_and!; [done|by rewrite ?Es|exact Hen|exact Hws]).
Qed.

(** Updating the configuration of a registered chain succeeds and changes
    exactly that chain's entry in the snapshot, to the configuration given;
    an unknown chain is an error and changes nothing. *)
Theorem UpdateChainConfig_snapshot {S Ps P} (m : MixedProviders S Ps P) chain cfg seed :
  0 <= cc_MaxConcurrency cfg ->
  match chain_of_string chain with
  | Some c => is_Some (mp_managers m c) ->
      exists m', UpdateChainConfig chain cfg seed m = Some (Ok tt, m')
        /\ snap_Chains (Snapshot m') = <[chain := cfg]> (snap_Chains (Snapshot m))
        /\ forall c', c' <> c -> mp_managers m' c' = mp_managers m c'
  | None => exists err, UpdateChainConfig chain cfg seed m = Some (Err err, m)
  end.
Proof.
  intros Hcfg. pose proof (UpdateChainConfig_ok m chain cfg seed Hcfg) as Hok.
  destruct (chain_of_string chain) as [c|]; [|done]. intros Hc.
  destruct (Hok Hc) as (m' & Hu & Hs & Hm & _). by exists m'.
Qed.

(** The weights a snapshot reports are those last set: setting valid
    weights (decay rate between 0 and 1, window of 10 or more, positive
    interval) succeeds, and reading them back gives the same weights; without
    scoring it is a no-op. *)
Theorem SetScoringWeights_snapshot {S Ps P} (m : MixedProviders S Ps P) w :
  f64_ltb (sw_DecayRate w) f64_zero = false -> f64_gtb (sw_DecayRate w) f64_one = false ->
  10 <= sw_LatencyWindowSize w -> 0 < sw_DecayInterval w ->
  exists m', SetScoringWeights w m = Some (Ok tt, m')
    /\ mp_managers m' = mp_managers m
    /\ snap_ScoringEnabled (Snapshot m') = snap_ScoringEnabled (Snapshot m)
    /\ snap_ScoringWeights (Snapshot m') = if mp_scoring m then w else zero_ScoringWeights.
Proof.
  intros H0 H1 Hw Hi. destruct (SetScoringWeights_ok m w H0 H1 Hw Hi) as (m' & Hu & Hm & _ & He & Hs). by exists m'.
Qed.

(** ** Concrete builds

    Two transaction broadcasters, the first of which always fails. *)

#[local] Existing Instances demo_btcd lcg_rand insertion_sort_slice arch_amd64 zero_pow demo_World demo_LoggedOp
  canonical_range null_penalty_store.

Definition demo_dynamic : Dynamic demo_world nat := {|
  as_Name p := Some "node"%string;
  as_AddressGenerator _ := None; as_AddressValidator _ := None; as_FeeRecommender _ := None;
  as_FeeEstimator _ := None; as_TxAssembler _ := None; as_TxSizer _ := None; as_TxSigner _ := None;
  as_UTXOFetcher _ := None;
  as_TxBroadcaster p := Some {| tb_PushTx := fun _ _ w => demo_op p w |};
  as_TxStatusFetcher _ := None; as_BalanceFetcher _ := None; as_RateFetcher _ := None;
  as_HistoricalRateFetcher _ := None |}.

#[local] Existing Instance demo_dynamic.

Definition demo_entry (p : nat) (prio : Z) (name : string) : chainEntry nat := {|
  ce_Provider := Some p; ce_Priority := prio; ce_Name := name; ce_ChainConfig := None |}.

Definition demo_builder_cmds (e : option (Engine unit unit)) : list (builder_cmd (S := unit) (Ps := unit) (P := nat)) :=
  [BEngine e;
   BChain ProviderChainTxBroadcasters (fun _ => 0) (fun _ => at_time 0)
     [demo_entry 0 1 "alpha"; demo_entry 1 2 ""]].

Lemma demo_engine_ready c : cfg_ok c -> 0 < sc_DecayInterval c -> engine_ready (blank_engine c).
Proof. intros Hc Hi. split; [by apply blank_engine_inv|]. by split_and!. Qed.

Lemma demo_builder_ok : Forall builder_cmd_ok (demo_builder_cmds (Some demo_engine)).
Proof.
  constructor; [exact (demo_engine_ready _ DefaultScoringConfig_ok eq_refl)|].
  constructor; [|constructor]. repeat constructor; cbn; try lia; by eexists.
Qed.

Lemma Build_well_formed_witness :
  exists b m, go_foldl builder_step (NewMixedProvidersBuilder (fun _ => 0)) (demo_builder_cmds (Some demo_engine)) = Some b
    /\ Build (fun _ => 0) demo_engine b = Some m
    /\ (is_Some (b_engine b) -> mp_scoring m = true /\ running (mp_engine m))
    /\ forall chain, exists pm, mp_managers m chain = Some pm
         /\ mgr_inv (zlen (pm_providers pm)) pm
         /\ Forall (fun p => implements chain (pc_Provider p)) (pm_providers pm)
         /\ (is_Some (b_engine b) ->
               pm_selector pm = adaptiveSelector
               /\ Forall (fun p => is_Some (eng_scores (mp_engine m) !! pc_Name p)) (pm_providers pm)).
Proof.
  exact (Build_well_formed (fun _ => 0) (demo_builder_cmds (Some demo_engine)) (fun _ => 0) demo_engine
    demo_builder_ok (blank_engine_inv _ DefaultScoringConfig_ok)).
Defined.

(** The build without scoring, its chain and what they compute to. *)
Definition demo_built : option (MixedProviders unit unit nat) :=
  b ← go_foldl builder_step (NewMixedProvidersBuilder (fun _ => 0)) (demo_builder_cmds None);
  Build (fun _ => 0) demo_engine b.

Example demo_built_names :
  (fun m => map pc_Name ∘ pm_providers <$> mp_managers m ProviderChainTxBroadcasters) <$> demo_built
  = Some (Some ["alpha"; "node"]%string).
Proof. vm_compute. reflexivity. Qed.

Definition demo_b : MixedProvidersBuilder unit unit nat :=
  default (NewMixedProvidersBuilder (fun _ => 0))
    (go_foldl builder_step (NewMixedProvidersBuilder (fun _ => 0)) (demo_builder_cmds None)).

Definition demo_m : MixedProviders unit unit nat := {|
  mp_managers := b_managers demo_b; mp_recorder := b_recorder demo_b; mp_recorded := [];
  mp_scoring := false; mp_engine := demo_engine |}.

Definition demo_chain_pm : providerManager nat :=
  default empty_manager (mp_managers demo_m ProviderChainTxBroadcasters).

Lemma built_operation_total_witness : performed (OpPushTx []) background None demo_m [].
Proof.
  assert (Forall builder_cmd_ok (demo_builder_cmds None)) as Hl.
  { constructor; [exact I|]. constructor; [|constructor]. repeat constructor; cbn; try lia; by eexists. }
  assert (go_foldl builder_step (NewMixedProvidersBuilder (fun _ => 0)) (demo_builder_cmds None) = Some demo_b) as Hb
    by reflexivity.
  assert (Build (fun _ => 0) demo_engine demo_b = Some demo_m) as Hm by reflexivity.
  assert (mp_managers demo_m ProviderChainTxBroadcasters = Some demo_chain_pm) as Hpm by (vm_compute; reflexivity).
  apply (built_operation_total (fun _ => 0) (demo_builder_cmds None) (fun _ => 0) demo_engine demo_b demo_m
    (OpPushTx []) demo_chain_pm background None [] Hl (blank_engine_inv _ DefaultScoringConfig_ok) Hb Hm Hpm).
  - split; vm_compute; discriminate.
  - intros p call w _ [= <-]. by eexists.
Defined.

Lemma UpdateChainConfig_snapshot_witness :
  0 <= cc_MaxConcurrency (DefaultChainConfig ProviderChainTxSizers)
  /\ match chain_of_string "TxBroadcasters" with
     | Some c => is_Some (mp_managers demo_m c) ->
         exists m', UpdateChainConfig "TxBroadcasters" (DefaultChainConfig ProviderChainTxSizers) 0 demo_m = Some (Ok tt, m')
           /\ snap_Chains (Snapshot m') = <["TxBroadcasters"%string := DefaultChainConfig ProviderChainTxSizers]>
                (snap_Chains (Snapshot demo_m))
           /\ forall c', c' <> c -> mp_managers m' c' = mp_managers demo_m c'
     | None => exists err, UpdateChainConfig "TxBroadcasters" (DefaultChainConfig ProviderChainTxSizers) 0 demo_m
                 = Some (Err err, demo_m)
     end.
Proof.
  assert (0 <= cc_MaxConcurrency (DefaultChainConfig ProviderChainTxSizers)) as Hc by discriminate.
  split; [exact Hc|].
  exact (UpdateChainConfig_snapshot demo_m "TxBroadcasters" (DefaultChainConfig ProviderChainTxSizers) 0 Hc).
Defined.

Definition demo_weights : ScoringWeights := scoringConfigToWeights DefaultScoringConfig.

Definition demo_scored : MixedProviders unit unit nat := {|
  mp_managers := mp_managers demo_m; mp_recorder := NoOpMetricsRecorder; mp_recorded := [];
  mp_scoring := true; mp_engine := demo_engine |}.

Lemma SetScoringWeights_snapshot_witness :
  exists m', SetScoringWeights demo_weights demo_scored = Some (Ok tt, m')
    /\ mp_managers m' = mp_managers demo_scored
    /\ snap_ScoringEnabled (Snapshot m') = snap_ScoringEnabled (Snapshot demo_scored)
    /\ snap_ScoringWeights (Snapshot m') = if mp_scoring demo_scored then demo_weights else zero_ScoringWeights.
Proof.
  apply (SetScoringWeights_snapshot demo_scored demo_weights);
    [vm_compute; reflexivity|vm_compute; reflexivity|discriminate|reflexivity].
Defined.
