(* ===== verification/Composition.v ===== *)
(** * The clients behind the chains of a built provider

    A mixed provider built over the concrete clients of [bitcoin/providers]:
    every operation returns, whatever the servers answer, and takes the course
    that [BuilderProps.performed] describes. *)

From Stdlib Require Import SpecFloat.
From S2P Require Import Prelude GoInt GoFloat GoString GoCodec GoNum GoJson GoDecode.
From S2P Require Import Config RateLimit Sorting Penalties Scorer ScoringConfig Latency Events.
From S2P Require Import Decay Store Engine EngineStore EngineInv Selection Manager ManagerProps.
From S2P Require Import RunOp RunProps Bitcoin Providers HttpApi Mempool Blockstream Tatum.
From S2P Require Import Rates.
From S2P Require Import Bitref Blockcypher Metal MetalProps Clients ClientProps ClientDemo BlockstreamProps.
From S2P Require Import Broadcast.
From S2P Require Import ProvidersProps RunSim Builder BuilderProps.

(** ** Environments with more state *)

#[global] Instance World_pair {A W} `{World W} : World (A * W) := {|
  w_clock s := let '(c, w) := w_clock s.2 in (c, (s.1, w));
  w_wait d s := let '(r, w) := w_wait d s.2 in (r, (s.1, w));
  w_float64 s := let '(x, w) := w_float64 s.2 in (x, (s.1, w))
|}.

(** ** The operations over the clients *)

Section clients.
Context {St Ps W : Type} `{!HttpWorld W, !JsonErrors, !Btcd, !BtcdWallet, !Gobcy W, !MapRange, !GoArch, !GoArchU, !TimeText}.
Context `{!GoRand, !SortSlice, !GoMath, !World W, !PenaltyHistoryStore Ps}.
Abbreviation env := (blockstream * W)%type (only parsing).

(** Binance is the client whose rates can panic. *)
Definition safe_on (chain : ProviderChainType) (c : client) : Prop := chain = ProviderChainRateFetchers -> c <> CBinance.

Lemma client_method_returns (o : operation) ctx (c : client) (call : env -> go (result (answer_of o) * env)) s :
  safe_on (chain_of o) c -> method o ctx c = Some call -> is_Some (call s).
Proof.
  intros Hs Hm. pose proof (clients_return c ctx) as Hc.
  destruct o; apply fmap_Some in Hm as (impl & Hi & ->);
    first [by eapply ret_valid|by eapply ret_fees|by eapply ret_fee|by eapply ret_push|by eapply ret_utxos|by eapply ret_status
          |by eapply ret_balance|by eapply ret_rate; eauto|by eapply ret_rates; eauto|by eapply ret_history
          |by destruct c; simplify_eq/=; apply returns_of_result].
Qed.
End clients.

(** C14: on a mixed provider built over the clients of [bitcoin/providers], each
    of the fifteen operations returns, whatever the servers answer, on values
    of its argument types (pointer arguments such as the signed transaction are
    not nil): it has called nothing but its own method, with its own arguments,
    on clients of its own chain, each call in the environment the one before
    has left; the result is the answer of the last of these calls (the only one
    that succeeded), or an error when all of them failed.  The rate chain must
    not hold the Binance client, whose rates can panic; the builder's calls are
    those of [builder_cmd_ok] (entries of the static type of their chain,
    priorities in 0..1000, non-negative concurrency, positive failure
    thresholds, sane enabled rate limits, a fresh engine), and the operation's
    chain has at most 1000 clients and 10^6 attempts. *)
Theorem client_chain_total {St Ps W : Type}
    `{!HttpWorld W, !JsonErrors, !Btcd, !BtcdWallet, !Gobcy W, !MapRange, !GoArch, !GoArchU, !TimeText}
    `{!GoRand, !SortSlice, !GoMath, !World W, !PenaltyHistoryStore Ps}
    seed (l : list (builder_cmd (S := St) (Ps := Ps) (P := client))) now e0 b m (o : operation) pm ctx dbg
    (s : blockstream * W) :
  Forall builder_cmd_ok l -> engine_inv 0 e0 ->
  go_foldl builder_step (NewMixedProvidersBuilder seed) l = Some b -> Build now e0 b = Some m ->
  mp_managers m (chain_of o) = Some pm -> moderate pm ->
  Forall (fun p => safe_on (chain_of o) (pc_Provider p)) (pm_providers pm) ->
  performed o ctx dbg m s.
Proof.
  intros Hl He0 Hb Hm Hpm Hmod Hsafe. eapply built_performed; [done..|].
  intros p call s' Hp. apply client_method_returns. by eapply Forall_forall in Hsafe.
Qed.

(** ** Two broadcasters

    Blockchain.com first, then Blockstream, against the services of
    [Broadcast]: the first is refused, the second succeeds with its second token. *)

Import ClientDemo.Instances.
#[local] Existing Instances zero_pow null_penalty_store.

Definition demo_entries : list (chainEntry client) :=
  let entry c prio := {| ce_Provider := Some c; ce_Priority := prio; ce_Name := ""; ce_ChainConfig := None |} in
  [entry CBlockchainCom 1; entry CBlockstream 2].

Definition demo_cmds : list (builder_cmd (S := unit) (Ps := unit) (P := client)) :=
  [BChain ProviderChainTxBroadcasters (fun _ => 0) (fun _ => at_time 0) demo_entries].

Definition demo_client_builder : MixedProvidersBuilder unit unit client :=
  default (NewMixedProvidersBuilder (fun _ => 0)) (go_foldl builder_step (NewMixedProvidersBuilder (fun _ => 0)) demo_cmds).

Definition demo_clients : MixedProviders unit unit client := {|
  mp_managers := b_managers demo_client_builder; mp_recorder := b_recorder demo_client_builder; mp_recorded := [];
  mp_scoring := false; mp_engine := demo_engine |}.

Definition demo_broadcasters : providerManager client :=
  default empty_manager (mp_managers demo_clients ProviderChainTxBroadcasters).

Definition demo_run : option (result string * list string) :=
  (fun x => (x.1.1.1, map hq_URL (sw_sent x.2.2)))
    <$> PushTx (S := unit) (Ps := unit) background demo_raw None demo_clients (demo_blockstream, demo_service).

(** Three attempts, then the next provider, whose token is refreshed once. *)
Example demo_run_result : demo_run = Some (Ok "txid"%string, [
  "https://blockchain.info/pushtx"; "https://blockchain.info/pushtx"; "https://blockchain.info/pushtx"; "http://api/tx";
  "http://login/realms/blockstream-public/protocol/openid-connect/token"; "http://api/tx"]%string).
Proof. vm_compute. reflexivity. Qed.

Lemma client_chain_total_witness :
  performed (OpPushTx demo_raw) background None demo_clients (demo_blockstream, demo_service).
Proof.
  assert (Forall builder_cmd_ok demo_cmds) as Hl.
  { constructor; [|constructor]. repeat constructor; cbn; try lia; by eexists. }
  assert (go_foldl builder_step (NewMixedProvidersBuilder (fun _ => 0)) demo_cmds = Some demo_client_builder) as Hb by reflexivity.
  assert (Build (fun _ => 0) demo_engine demo_client_builder = Some demo_clients) as Hm by reflexivity.
  assert (mp_managers demo_clients ProviderChainTxBroadcasters = Some demo_broadcasters) as Hpm by (vm_compute; reflexivity).
  apply (client_chain_total (fun _ => 0) demo_cmds (fun _ => 0) demo_engine demo_client_builder demo_clients
    (OpPushTx demo_raw) demo_broadcasters background None (demo_blockstream, demo_service) Hl
    (blank_engine_inv _ DefaultScoringConfig_ok) Hb Hm Hpm).
  - split; vm_compute; discriminate.
  - apply Forall_forall. intros p _. discriminate.
Defined.
