(* ===== verification/Poller.v ===== *)
(** * The configuration poller

    [cloudagent/poller.go]: fetch the desired configuration, apply it to a
    [ConfigUpdater], back off on errors.

    [ConfigUpdater] is the interface of [config_updater.go], with the laws its
    documentation promises in terms of [Snapshot]; the poller is proved against
    it, and [MixedProviders] satisfies it.  The map of chains is applied in any
    order.  The HTTP exchange is an operation of the environment [W] that
    returns the status, the ETag header and the decoded body. *)

From S2P Require Import Prelude GoInt GoFloat GoString GoCodec GoHttp Config ScoringConfig.
From S2P Require Import Decay Engine.
From S2P Require Import Selection Manager RunOp Providers Builder BuilderProps Agent.

(** ** The interface *)

Class ConfigUpdater (U : Type) := {
  cu_UpdateChainConfig : Z -> string -> ChainConfig -> U -> go (result unit * U);
  cu_SetScoringWeights : ScoringWeights -> U -> go (result unit * U);
  cu_SetScoringEnabled : bool -> U -> U;
  cu_Snapshot : U -> ConfigSnapshot;
  cu_scoring : U -> bool
}.

(** Configurations and weights an updater accepts. *)
Definition chain_config_ok (cfg : ChainConfig) : Prop := 0 <= cc_MaxConcurrency cfg.

Definition weights_ok (w : ScoringWeights) : Prop :=
  f64_ltb (sw_DecayRate w) f64_zero = false /\ f64_gtb (sw_DecayRate w) f64_one = false
  /\ 10 <= sw_LatencyWindowSize w /\ 0 < sw_DecayInterval w.

(** What the documentation promises. *)
Class ConfigUpdaterLaws (U : Type) `{ConfigUpdater U} := {
  cu_update_known : forall seed chain cfg u,
    chain_config_ok cfg -> is_Some (snap_Chains (cu_Snapshot u) !! chain) ->
    exists u', cu_UpdateChainConfig seed chain cfg u = Some (Ok tt, u')
      /\ snap_Chains (cu_Snapshot u') = <[chain := cfg]> (snap_Chains (cu_Snapshot u))
      /\ snap_ScoringEnabled (cu_Snapshot u') = snap_ScoringEnabled (cu_Snapshot u)
      /\ snap_ScoringWeights (cu_Snapshot u') = snap_ScoringWeights (cu_Snapshot u)
      /\ cu_scoring u' = cu_scoring u;
  cu_update_unknown : forall seed chain cfg u,
    snap_Chains (cu_Snapshot u) !! chain = None ->
    exists e, cu_UpdateChainConfig seed chain cfg u = Some (Err e, u);
  cu_weights : forall w u, weights_ok w ->
    exists u', cu_SetScoringWeights w u = Some (Ok tt, u')
      /\ snap_Chains (cu_Snapshot u') = snap_Chains (cu_Snapshot u)
      /\ snap_ScoringWeights (cu_Snapshot u') = (if cu_scoring u then w else snap_ScoringWeights (cu_Snapshot u))
      /\ cu_scoring u' = cu_scoring u;
  cu_enabled : forall b u,
    snap_Chains (cu_Snapshot (cu_SetScoringEnabled b u)) = snap_Chains (cu_Snapshot u)
    /\ snap_ScoringWeights (cu_Snapshot (cu_SetScoringEnabled b u)) = snap_ScoringWeights (cu_Snapshot u)
    /\ (cu_scoring u = true -> snap_ScoringEnabled (cu_Snapshot (cu_SetScoringEnabled b u)) = b)
    /\ cu_scoring (cu_SetScoringEnabled b u) = cu_scoring u
}.

(** ** Fetching *)

Record fetchResult := {
  fr_snap : ConfigSnapshot;
  fr_etag : string;
  fr_notModified : bool
}.

Definition zero_ConfigSnapshot : ConfigSnapshot := {|
  snap_Chains := ∅; snap_ScoringEnabled := false; snap_ScoringWeights := zero_ScoringWeights |}.

(** A request for the configuration and what came back. *)
Record configRequest := {
  cq_URL : string;
  cq_Headers : list (string * string);
  cq_Client : option httpClient
}.

Record configResponse := {
  cs_StatusCode : Z;
  cs_ETag : string;
  (** the [etag] and [config] fields of the body, or the decoder's error *)
  cs_Body : result (string * ConfigSnapshot)
}.

Class PollWorld (W : Type) := {
  pw_url : string -> option error;
  pw_do : configRequest -> W -> result configResponse * W
}.

Definition noopFetch {W} (etag : string) (w : W) : result fetchResult * W :=
  (Ok {| fr_snap := zero_ConfigSnapshot; fr_etag := etag; fr_notModified := true |}, w).

Section fetch.
Context {W : Type} `{PollWorld W}.

Definition config_request (opts : Options) (etag : string) : configRequest := {|
  cq_URL := o_Endpoint opts +:+ "/v1/config";
  cq_Headers := [("Authorization", "Bearer " +:+ o_APIKey opts); ("Accept", "application/json");
                 ("User-Agent", o_AgentName opts)]%string
                ++ (if bool_decide (etag = ""%string) then [] else [("If-None-Match", etag)]%string);
  cq_Client := o_HTTPClient opts |}.

Definition unchanged (etag : string) : fetchResult := {|
  fr_snap := zero_ConfigSnapshot; fr_etag := etag; fr_notModified := true |}.

Definition makeFetcher (opts : Options) (etag : string) (w : W) : result fetchResult * W :=
  if bool_decide (o_Endpoint opts = ""%string) then noopFetch etag w
  else
    match pw_url (o_Endpoint opts +:+ "/v1/config") with
    | Some e => (Err (errWrap "build request: " e ""), w)
    | None =>
        let '(resp, w) := pw_do (config_request opts etag) w in
        (match resp with
         | Err e => Err (errWrap "get config: " e "")
         | Ok r =>
             if cs_StatusCode r =? 304 then Ok (unchanged etag)
             else if cs_StatusCode r =? 404 then Ok (unchanged etag)
             else if status_ok (cs_StatusCode r) then
               match cs_Body r with
               | Err e => Err (errWrap "decode config: " e "")
               | Ok (bodyETag, config) =>
                   let serverETag := if bool_decide (cs_ETag r = ""%string) then bodyETag else cs_ETag r in
                   Ok {| fr_snap := config; fr_etag := serverETag; fr_notModified := false |}
               end
             else Err (errOther ("config endpoint returned " +:+ format_int (cs_StatusCode r)))
         end, w)
    end.
End fetch.

(** ** The poller *)

Record ConfigPoller := {
  cp_opts : Options;
  cp_applied : ConfigSnapshot;
  cp_etag : string;
  cp_running : bool
}.

Definition newConfigPoller (opts : Options) : ConfigPoller := {|
  cp_opts := opts; cp_applied := zero_ConfigSnapshot; cp_etag := ""; cp_running := false |}.

Definition set_cp_running (b : bool) (p : ConfigPoller) : ConfigPoller := {|
  cp_opts := cp_opts p; cp_applied := cp_applied p; cp_etag := cp_etag p; cp_running := b |}.

(** [Start] says whether a loop goroutine was launched, [Stop] whether one was
    cancelled. *)
Definition cp_Start (p : ConfigPoller) : bool * ConfigPoller :=
  if cp_running p then (false, p) else (true, set_cp_running true p).

Definition cp_Stop (p : ConfigPoller) : bool * ConfigPoller :=
  if negb (cp_running p) then (false, p) else (true, set_cp_running false p).

Definition LastApplied (p : ConfigPoller) : ConfigSnapshot := cp_applied p.

Section poll.
Context {U W : Type} `{ConfigUpdater U, MapRange}.
Implicit Types (u : U) (w : W).

Definition record_error (firstErr : option error) (r : result unit) : option error :=
  match firstErr, r with
  | None, Err e => Some e
  | _, _ => firstErr
  end.

(** The range over the chains; [seed] gives the random seed of each update. *)
Fixpoint apply_chains (seed : nat -> Z) (i : nat) (l : list (string * ChainConfig)) (firstErr : option error) u
    : go (option error * U) :=
  match l with
  | [] => Some (firstErr, u)
  | (chain, cfg) :: l =>
      '(r, u) ← cu_UpdateChainConfig (seed i) chain cfg u;
      apply_chains seed (S i) l (record_error firstErr r) u
  end.

Definition applySnapshot (seed : nat -> Z) (snap : ConfigSnapshot) u : go (option error * U) :=
  '(firstErr, u) ← apply_chains seed 0 (range_kv (snap_Chains snap)) None u;
  '(r, u) ← cu_SetScoringWeights (snap_ScoringWeights snap) u;
  Some (record_error firstErr r, cu_SetScoringEnabled (snap_ScoringEnabled snap) u).

Context (fetch : string -> W -> result fetchResult * W).

Definition tick (seed : nat -> Z) (p : ConfigPoller) u w : go (option error * ConfigPoller * U * W) :=
  let '(r, w) := fetch (cp_etag p) w in
  match r with
  | Err e => Some (Some e, p, u, w)
  | Ok res =>
      if fr_notModified res then Some (None, p, u, w)
      else
        '(err, u) ← applySnapshot seed (fr_snap res) u;
        match err with
        | Some e => Some (Some e, p, u, w)
        | None => Some (None, {| cp_opts := cp_opts p; cp_applied := fr_snap res; cp_etag := fr_etag res;
                                 cp_running := cp_running p |}, u, w)
        end
  end.

(** The backoff after a tick: [None] ends the loop. *)
Definition next_backoff (opts : Options) (backoff : Duration) (err : option error) : option Duration :=
  match err with
  | None => Some (o_PollInterval opts)
  | Some e =>
      if errors_is e ContextCanceled then None
      else
        let backoff := wrap64 (backoff * 2) in
        Some (if o_MaxBackoff opts <? backoff then o_MaxBackoff opts else backoff)
  end.

(** A turn of [loop]: the context may be done instead of the timer. *)
Definition poll_step (done : bool) (seed : nat -> Z) (backoff : Duration) (p : ConfigPoller) u w
    : go (option Duration * ConfigPoller * U * W) :=
  if done then Some (None, p, u, w)
  else
    '(err, p, u, w) ← tick seed p u w;
    Some (next_backoff (cp_opts p) backoff err, p, u, w).

(** Turns in a row, until the loop ends. *)
Fixpoint poll_loop (turns : list (bool * (nat -> Z))) (backoff : Duration) (p : ConfigPoller) u w
    : go (option Duration * ConfigPoller * U * W) :=
  match turns with
  | [] => Some (Some backoff, p, u, w)
  | (done, seed) :: turns =>
      '(b, p, u, w) ← poll_step done seed backoff p u w;
      match b with
      | None => Some (None, p, u, w)
      | Some backoff => poll_loop turns backoff p u w
      end
  end.
End poll.

(** ** Applying a snapshot *)

(** What an updater shows once a snapshot is applied to the chains it has. *)
Definition merged (snap old : ConfigSnapshot) (chain : string) : option ChainConfig :=
  _ ← snap_Chains old !! chain; (match snap_Chains snap !! chain with Some cfg => Some cfg | None => snap_Chains old !! chain end).

Section apply.
Context {U : Type} `{ConfigUpdaterLaws U, MapRange}.
Implicit Types u : U.

Lemma apply_chains_spec seed i l firstErr u :
  Forall (fun kv => chain_config_ok kv.2) l -> NoDup l.*1 ->
  exists err u', apply_chains seed i l firstErr u = Some (err, u')
    /\ (forall c, snap_Chains (cu_Snapshot u') !! c
                  = (old ← snap_Chains (cu_Snapshot u) !! c; Some (default old (list_to_map (M := gmap string _) l !! c))))
    /\ snap_ScoringEnabled (cu_Snapshot u') = snap_ScoringEnabled (cu_Snapshot u)
    /\ snap_ScoringWeights (cu_Snapshot u') = snap_ScoringWeights (cu_Snapshot u)
    /\ cu_scoring u' = cu_scoring u
    /\ (err = None <-> firstErr = None /\ Forall (fun kv => is_Some (snap_Chains (cu_Snapshot u) !! kv.1)) l).
Proof.
  revert i firstErr u. induction l as [|[chain cfg] l IH]; intros i firstErr u Hok Hnd.
  { exists firstErr, u. split_and!; try done; [|by split; [|intros [? _]]].
    intros c. cbn. rewrite lookup_empty. cbn. by destruct (_ !! c). }
  apply Forall_cons in Hok as [Hcfg Hok]. cbn in Hnd. apply NoDup_cons in Hnd as [Hni Hnd].
  assert (Hnone : list_to_map (M := gmap string ChainConfig) l !! chain = None) by by apply not_elem_of_list_to_map_1.
  cbn [apply_chains]. destruct (snap_Chains (cu_Snapshot u) !! chain) as [old|] eqn:Ek.
  - destruct (cu_update_known (seed i) chain cfg u Hcfg) as (u1 & Hu & Hc & He & Hw & Hs); [by rewrite Ek|].
    rewrite Hu. cbn [mbind option_bind].
    destruct (IH (S i) (record_error firstErr (Ok tt)) u1 Hok Hnd) as (err & u' & Ha & Hv & He' & Hw' & Hs' & Herr).
    exists err, u'. split; [done|]. split_and!; try congruence.
    + intros c. rewrite Hv, Hc. cbn [list_to_map foldr uncurry fst snd]. destruct (decide (c = chain)) as [->|Hne].
      * rewrite lookup_insert_eq, Hnone, Ek. cbn. by rewrite lookup_insert_eq.
      * rewrite lookup_insert_ne by done. destruct (snap_Chains (cu_Snapshot u) !! c); [|done]. cbn. by rewrite lookup_insert_ne by done.
    + rewrite Herr, Forall_cons. cbn [fst]. rewrite Ek. assert (record_error firstErr (Ok tt) = firstErr) as -> by by destruct firstErr.
      assert (Hiff : Forall (fun kv => is_Some (snap_Chains (cu_Snapshot u1) !! kv.1)) l
                     <-> Forall (fun kv => is_Some (snap_Chains (cu_Snapshot u) !! kv.1)) l).
      { apply Forall_iff. intros kv. rewrite Hc. destruct (decide (kv.1 = chain)) as [->|Hne].
        - rewrite lookup_insert_eq, Ek. by split; eexists.
        - by rewrite lookup_insert_ne. }
      rewrite Hiff. split; [intros [-> ?]; split_and!; [done|by eexists|done]|by intros (-> & _ & ?)].
  - destruct (cu_update_unknown (seed i) chain cfg u Ek) as [e Hu]. rewrite Hu. cbn [mbind option_bind].
    destruct (IH (S i) (record_error firstErr (Err e)) u Hok Hnd) as (err & u' & Ha & Hv & He' & Hw' & Hs' & Herr).
    exists err, u'. split; [done|]. split_and!; try done.
    + intros c. rewrite Hv. cbn [list_to_map foldr uncurry fst snd]. destruct (decide (c = chain)) as [->|Hne]; [by rewrite Ek|].
      destruct (snap_Chains (cu_Snapshot u) !! c); [|done]. cbn. by rewrite lookup_insert_ne by done.
    + rewrite Herr, Forall_cons. cbn [fst]. rewrite Ek. split; [intros [Hn _]; by destruct firstErr|by intros (_ & [? ?] & _)].
Qed.

Lemma applySnapshot_spec seed snap u :
  map_Forall (fun _ cfg => chain_config_ok cfg) (snap_Chains snap) -> weights_ok (snap_ScoringWeights snap) ->
  exists err u', applySnapshot seed snap u = Some (err, u')
    /\ (forall c, snap_Chains (cu_Snapshot u') !! c = merged snap (cu_Snapshot u) c)
    /\ (cu_scoring u = true -> snap_ScoringWeights (cu_Snapshot u') = snap_ScoringWeights snap
                               /\ snap_ScoringEnabled (cu_Snapshot u') = snap_ScoringEnabled snap)
    /\ (err = None <-> forall c, is_Some (snap_Chains snap !! c) -> is_Some (snap_Chains (cu_Snapshot u) !! c)).
Proof.
  intros Hcfg Hw. unfold applySnapshot.
  destruct (apply_chains_spec seed 0 (range_kv (snap_Chains snap)) None u) as (err & u1 & Ha & Hv & He & Hwt & Hs & Herr).
  { apply Forall_forall. intros [c cfg] Hin. apply elem_of_range_kv in Hin. exact (Hcfg _ _ Hin). }
  { apply range_kv_nodup. }
  rewrite Ha. cbn [mbind option_bind]. destruct (cu_weights _ u1 Hw) as (u2 & Hu2 & Hc2 & Hw2 & Hs2). rewrite Hu2.
  cbn [mbind option_bind]. destruct (cu_enabled (snap_ScoringEnabled snap) u2) as (Hc3 & Hw3 & He3 & _).
  do 2 eexists. split; [done|]. split_and!.
  - intros c. rewrite Hc3, Hc2, Hv. unfold merged. destruct (snap_Chains (cu_Snapshot u) !! c); [|done]. cbn [mbind option_bind].
    assert (list_to_map (range_kv (snap_Chains snap)) = snap_Chains snap) as ->.
    { rewrite (list_to_map_proper _ (map_to_list (snap_Chains snap))); [apply list_to_map_to_list| |apply range_kv_perm].
      apply range_kv_nodup. }
    by destruct (snap_Chains snap !! c).
  - intros Hsc. rewrite Hs in Hw2. rewrite Hsc in Hw2. split; [congruence|]. apply He3. congruence.
  - assert (record_error err (Ok tt) = err) as -> by by destruct err. rewrite Herr, Forall_forall. split.
    + intros [_ Hf] c [cfg Hin]. apply elem_of_range_kv in Hin. exact (Hf _ Hin).
    + intros Hf. split; [done|]. intros [c cfg] Hin. apply elem_of_range_kv in Hin. cbn. apply Hf. by eexists.
Qed.
End apply.

(** ** [MixedProviders] is a lawful updater *)

#[export] Instance mixed_updater {S Ps P} : ConfigUpdater (MixedProviders S Ps P) := {|
  cu_UpdateChainConfig seed chain cfg m := UpdateChainConfig chain cfg seed m;
  cu_SetScoringWeights := SetScoringWeights;
  cu_SetScoringEnabled := SetScoringEnabled;
  cu_Snapshot := Snapshot;
  cu_scoring := mp_scoring
|}.

(** The scoring half of a snapshot depends on the engine only. *)
Lemma snapshot_scoring {S Ps P} (m m' : MixedProviders S Ps P) :
  mp_engine m' = mp_engine m -> mp_scoring m' = mp_scoring m ->
  snap_ScoringEnabled (Snapshot m') = snap_ScoringEnabled (Snapshot m)
  /\ snap_ScoringWeights (Snapshot m') = snap_ScoringWeights (Snapshot m).
Proof. intros He Hs. unfold Snapshot. cbn [snap_ScoringEnabled snap_ScoringWeights]. by rewrite He, Hs. Qed.

#[export] Instance mixed_updater_laws {S Ps P} : ConfigUpdaterLaws (MixedProviders S Ps P).
Proof.
  split; cbn [cu_UpdateChainConfig cu_SetScoringWeights cu_SetScoringEnabled cu_Snapshot cu_scoring mixed_updater].
  - intros seed chain cfg m Hcfg. rewrite snapshot_lookup. pose proof (UpdateChainConfig_ok m chain cfg seed Hcfg) as Hok.
    destruct (chain_of_string chain) as [c|]; [|by intros [? ?]]. cbn [mbind option_bind]. intros Hk.
    destruct (mp_managers m c) as [pm|] eqn:Em; [|by destruct Hk].
    destruct (Hok ltac:(by eexists)) as (m' & Hu & Hs & _ & He & Hsc). exists m'.
    destruct (snapshot_scoring m m' He Hsc). by split_and!.
  - intros seed chain cfg m. rewrite snapshot_lookup. unfold UpdateChainConfig, managerFor.
    destruct (chain_of_string chain) as [c|]; [|by eexists]. cbn [mbind option_bind]. destruct (mp_managers m c); [done|]. by eexists.
  - intros w m (H0 & H1 & Hw & Hi). destruct (SetScoringWeights_ok m w H0 H1 Hw Hi) as (m' & Hu & Hm & Hs & _ & Hws).
    exists m'. split; [done|]. split; [unfold Snapshot; cbn [snap_Chains]; by rewrite Hm|]. split; [|done].
    rewrite Hws. destruct (mp_scoring m) eqn:E; [done|]. unfold Snapshot. cbn [snap_ScoringWeights]. by rewrite E.
  - intros b m. unfold SetScoringEnabled. destruct (mp_scoring m) eqn:E; [|done].
    split; [reflexivity|]. unfold Snapshot. cbn [snap_ScoringEnabled snap_ScoringWeights mp_scoring mp_engine set_mp_engine]. by rewrite E.
Qed.

(** ** Properties *)

(** C18: a poll converges or changes nothing it must not: a failed or
    not-modified fetch leaves the updater and the poller alone; a fetched
    configuration (with acceptable values) is applied without a panic, in
    whatever order the chains are visited: every chain the updater has and the
    configuration names gets its new configuration, every other one keeps its
    own, scoring weights and switch are those fetched; the poll succeeds, and
    only then records the configuration and its ETag, exactly when every chain
    named exists, so a partial application is fetched again. *)
Theorem tick_converges {U W} `{ConfigUpdaterLaws U, MapRange} (fetch : string -> W -> result fetchResult * W)
    seed (p : ConfigPoller) (u : U) (w : W) :
  (forall res, (fetch (cp_etag p) w).1 = Ok res -> fr_notModified res = false ->
     map_Forall (fun _ cfg => chain_config_ok cfg) (snap_Chains (fr_snap res)) /\ weights_ok (snap_ScoringWeights (fr_snap res))) ->
  match (fetch (cp_etag p) w).1 with
  | Err e => tick fetch seed p u w = Some (Some e, p, u, (fetch (cp_etag p) w).2)
  | Ok res =>
      if fr_notModified res then tick fetch seed p u w = Some (None, p, u, (fetch (cp_etag p) w).2)
      else
        exists err p' u', tick fetch seed p u w = Some (err, p', u', (fetch (cp_etag p) w).2)
          /\ (forall c, snap_Chains (cu_Snapshot u') !! c = merged (fr_snap res) (cu_Snapshot u) c)
          /\ (cu_scoring u = true ->
                snap_ScoringWeights (cu_Snapshot u') = snap_ScoringWeights (fr_snap res)
                /\ snap_ScoringEnabled (cu_Snapshot u') = snap_ScoringEnabled (fr_snap res))
          /\ (err = None <-> forall c, is_Some (snap_Chains (fr_snap res) !! c) ->
                                is_Some (snap_Chains (cu_Snapshot u) !! c))
          /\ (if bool_decide (err = None) then LastApplied p' = fr_snap res /\ cp_etag p' = fr_etag res else p' = p)
  end.
Proof.
  intros Hok. unfold tick. destruct (fetch (cp_etag p) w) as [[res|e] w']; [|done]. cbn [fst snd] in *.
  destruct (fr_notModified res) eqn:En; [done|]. destruct (Hok res eq_refl En) as [Hc Hw].
  destruct (applySnapshot_spec seed (fr_snap res) u Hc Hw) as (err & u' & Ha & Hv & Hs & Herr). rewrite Ha. cbn [mbind option_bind].
  destruct err as [e|]; do 3 eexists; (split; [done|]); (split; [done|]); (split; [done|]); (split; [done|]).
  - by rewrite bool_decide_false.
  - by rewrite bool_decide_true.
Qed.

(** The poller's backoff: after [k] failed polls in a row the wait is the
    poll interval doubled [k] times, capped at MaxBackoff, and neither the
    poller nor the updater has changed. *)
Theorem poll_backoff {U W} `{ConfigUpdater U, MapRange} (fetch : string -> W -> result fetchResult * W)
    (turns : list (bool * (nat -> Z))) (p : ConfigPoller) (u : U) (w : W) e :
  (forall etag w, (fetch etag w).1 = Err e) -> errors_is e ContextCanceled = false ->
  0 < o_PollInterval (cp_opts p) <= o_MaxBackoff (cp_opts p) -> o_MaxBackoff (cp_opts p) <= 2 ^ 62 - 1 ->
  Forall (fun turn => turn.1 = false) turns ->
  exists w', poll_loop fetch turns (o_PollInterval (cp_opts p)) p u w
             = Some (Some (Z.min (o_MaxBackoff (cp_opts p)) (o_PollInterval (cp_opts p) * 2 ^ zlen turns)), p, u, w').
Proof.
  intros Hf He Hp Hm. set (m := o_MaxBackoff (cp_opts p)) in *. set (i := o_PollInterval (cp_opts p)) in *.
  assert (Hgen : forall (turns : list (bool * (nat -> Z))) w k, 0 <= k -> Forall (fun turn => turn.1 = false) turns ->
    exists w', poll_loop fetch turns (Z.min m (i * 2 ^ k)) p u w = Some (Some (Z.min m (i * 2 ^ (k + zlen turns))), p, u, w')).
  { clear turns w. induction turns as [|[done seed] turns IH]; intros w k Hk Ht.
    { exists w. change (zlen (@nil (bool * (nat -> Z)))) with 0. by rewrite Z.add_0_r. }
    apply Forall_cons in Ht as [Hd Ht]. cbn in Hd. subst done. cbn [poll_loop]. unfold poll_step, tick.
    pose proof (Hf (cp_etag p) w) as Hr. destruct (fetch (cp_etag p) w) as [r w1]. cbn in Hr. subst r.
    cbn [mbind option_bind]. unfold next_backoff. rewrite He. fold m.
    assert (0 < 2 ^ k) by (apply Z.pow_pos_nonneg; lia).
    assert (Hb : (if m <? wrap64 (Z.min m (i * 2 ^ k) * 2) then m else wrap64 (Z.min m (i * 2 ^ k) * 2))
                 = Z.min m (i * 2 ^ (k + 1))).
    { rewrite wrap64_id by (unfold int64_range, min_int64, max_int64; nia). rewrite Z.pow_add_r by lia.
      change (2 ^ 1) with 2. destruct (m <? _) eqn:E; go_bool; lia. }
    rewrite Hb. destruct (IH w1 (k + 1) ltac:(lia) Ht) as [w' Hw]. exists w'. rewrite Hw, zlen_cons.
    by rewrite <-Z.add_assoc. }
  intros Ht. destruct (Hgen turns w 0 ltac:(lia) Ht) as [w' Hw]. exists w'.
  change (2 ^ 0) with 1 in Hw. rewrite Z.mul_1_r, Z.min_r in Hw by lia. by rewrite Z.add_0_l in Hw.
Qed.

(** Applied to a provider whose engine is decaying, a configuration
    without scoring weights (all zero, as decoding leaves absent fields)
    panics in the ticker: the update is not a no-op and not an error. *)
Theorem zero_weights_panic {S Ps P} `{MapRange} seed snap (m : MixedProviders S Ps P) :
  map_Forall (fun _ cfg => chain_config_ok cfg) (snap_Chains snap) ->
  snap_ScoringWeights snap = zero_ScoringWeights ->
  mp_scoring m = true -> dm_running (eng_decayManager (mp_engine m)) = true ->
  0 < sc_DecayInterval (dm_config (eng_decayManager (mp_engine m))) ->
  applySnapshot seed snap m = None.
Proof.
  intros Hc Hw Hs Hr Hi. unfold applySnapshot. rewrite Hw. destruct (apply_chains _ _ _ _ m) as [[err m1]|] eqn:Ea; [|done].
  assert (Hm1 : mp_engine m1 = mp_engine m /\ mp_scoring m1 = mp_scoring m).
  { clear -Ea. revert Ea. generalize 0%nat as i, (@None error) as f. intros i f. revert i f m.
    induction (range_kv (snap_Chains snap)) as [|[chain cfg] l IH]; intros i f m; cbn [apply_chains].
    { by intros [= <- <-]. }
    unfold cu_UpdateChainConfig, mixed_updater, UpdateChainConfig.
    destruct (managerFor chain m) as [[c pm]|]; cbn [mbind option_bind]; [|apply IH].
    destruct (updateChainConfig cfg (seed i) pm) as [pm'|]; [|done]. cbn [mbind option_bind]. intros Ha.
    by apply IH in Ha. }
  destruct Hm1 as [He Hs1]. cbn [mbind option_bind]. unfold cu_SetScoringWeights, mixed_updater, SetScoringWeights.
  rewrite Hs1, Hs, He. cbn [negb]. unfold eng_UpdateConfig, dm_UpdateConfig. cbv zeta.
  set (config := Validate _). assert (Hz : sc_DecayInterval config = 0) by reflexivity.
  rewrite Hr, Hz. destruct (_ =? 0) eqn:E; [go_lia|]. done.
Qed.

(** ** Concrete polls *)

#[local] Existing Instance canonical_range.

Definition demo_chain_config : ChainConfig := DefaultChainConfig ProviderChainTxSizers.

Definition demo_snapshot (chain : string) (w : ScoringWeights) : ConfigSnapshot := {|
  snap_Chains := {[ chain := demo_chain_config ]}; snap_ScoringEnabled := false; snap_ScoringWeights := w |}.

Definition demo_fetch (snap : ConfigSnapshot) (etag : string) (w : unit) : result fetchResult * unit :=
  (Ok {| fr_snap := snap; fr_etag := "v2"; fr_notModified := false |}, w).

Definition demo_poller : ConfigPoller := newConfigPoller (withDefaults {|
  o_Endpoint := ""; o_APIKey := ""; o_BatchSize := 0; o_FlushInterval := 0; o_BufferSize := 0; o_SampleRate := f64_zero;
  o_PollInterval := 0; o_MaxBackoff := 0; o_EventTTL := 0; o_Chain := ""; o_Network := ""; o_AgentName := "";
  o_HTTPClient := None; o_Logger := None; o_OnError := false |}).

Lemma demo_weights_ok : weights_ok demo_weights.
Proof. split_and!; [vm_compute; reflexivity|vm_compute; reflexivity|discriminate|reflexivity]. Qed.

Lemma demo_chains_ok chain w :
  map_Forall (fun _ cfg => chain_config_ok cfg) (snap_Chains (demo_snapshot chain w)).
Proof. apply map_Forall_singleton. discriminate. Qed.

Lemma tick_converges_witness :
  let fetch := demo_fetch (demo_snapshot "TxBroadcasters" demo_weights) in
  exists err p' u', tick fetch (fun _ => 0) demo_poller demo_scored tt = Some (err, p', u', tt)
    /\ (forall c, snap_Chains (cu_Snapshot u') !! c
                  = merged (demo_snapshot "TxBroadcasters" demo_weights) (cu_Snapshot demo_scored) c)
    /\ (cu_scoring demo_scored = true ->
          snap_ScoringWeights (cu_Snapshot u') = demo_weights /\ snap_ScoringEnabled (cu_Snapshot u') = false)
    /\ (err = None <-> forall c, is_Some (snap_Chains (demo_snapshot "TxBroadcasters" demo_weights) !! c) ->
                                 is_Some (snap_Chains (cu_Snapshot demo_scored) !! c))
    /\ (if bool_decide (err = None)
        then LastApplied p' = demo_snapshot "TxBroadcasters" demo_weights /\ cp_etag p' = "v2"%string
        else p' = demo_poller).
Proof.
  refine (tick_converges (demo_fetch (demo_snapshot "TxBroadcasters" demo_weights)) (fun _ => 0) demo_poller demo_scored tt _).
  intros res [= <-] _. split; [apply demo_chains_ok|apply demo_weights_ok].
Defined.

(** An unknown chain fails the poll and leaves the poller to fetch again. *)
Example demo_unknown_chain :
  (fun r => let '(err, p, _, _) := r in (bool_decide (err = None), cp_etag p))
    <$> tick (demo_fetch (demo_snapshot "Unknown" demo_weights)) (fun _ => 0) demo_poller demo_scored tt
  = Some (false, "" : string)%string.
Proof. vm_compute. reflexivity. Qed.

Definition failing_fetch (etag : string) (w : unit) : result fetchResult * unit := (Err (errOther "get config: EOF"), w).

Lemma poll_backoff_witness :
  exists w', poll_loop failing_fetch (replicate 3 (false, fun _ => 0)) (o_PollInterval (cp_opts demo_poller))
               demo_poller demo_scored tt
             = Some (Some (Z.min (o_MaxBackoff (cp_opts demo_poller))
                        (o_PollInterval (cp_opts demo_poller) * 2 ^ zlen (replicate 3 (false, fun _ : nat => 0)))),
                     demo_poller, demo_scored, w').
Proof.
  apply (poll_backoff failing_fetch _ demo_poller demo_scored tt (errOther "get config: EOF")); try done.
  repeat constructor.
Defined.

(** The scored provider with its decay loop running. *)
Definition demo_decaying : MixedProviders unit unit nat := {|
  mp_managers := mp_managers demo_m; mp_recorder := NoOpMetricsRecorder; mp_recorded := []; mp_scoring := true;
  mp_engine := set_eng_decayManager {| dm_config := DefaultScoringConfig; dm_ticker := Some Minute;
                                       dm_stopClosed := false; dm_running := true |} (mp_engine demo_scored) |}.

Lemma zero_weights_panic_witness :
  applySnapshot (fun _ => 0) (demo_snapshot "TxBroadcasters" zero_ScoringWeights) demo_decaying = None.
Proof. apply zero_weights_panic; [apply demo_chains_ok|done|done|done|done]. Defined.
